(* ===== verification/_CoqProject ===== *)
-Q . S2P
Prelude.v
Terminal.v
FrameAlloc.v
Memory.v
Machine.v
Interrupts.v
Keyboard.v
Kernel.v
Framebuffer.v
GrubStr.v
GrubNum.v
GrubBuffer.v
GrubParser.v
GrubHeap.v
GrubMm.v
GrubSession.v
GrubQueue.v
GrubEnvblk.v
GrubPrintf.v
GrubFormat.v
GrubDatetime.v
GrubStrOrder.v
GrubEnv.v
GrubList.v
GrubCommand.v
GrubErr.v
GrubRescue.v
GrubCore.v
GrubVgaText.v
GrubShell.v
GrubDisk.v
GrubDiskWrite.v
GrubPartition.v
GrubMsdos.v
GrubProbe.v
GrubGpt.v
GrubMsdosEmbed.v
GrubFile.v
GrubBlocklist.v
GrubArchelp.v
GrubCpio.v
GrubRaid.v
GrubDiskfilter.v
GrubVolume.v
GrubCharset.v
