(* ===== verification/Prelude.v ===== *)
(** Verification of VVBright OS: the hobby kernel and the GRUB boot loader it ships.

    * The program

    The repository has a small 32-bit x86 kernel under src/kernel/ (text terminal, physical
    frames and paging, a bump heap, interrupt tables and dispatch, a PS/2 keyboard driver, and a
    second, graphical kernel that paints a framebuffer) and a copy of GRUB under src/grub/. In
    the kernel the keyboard handler is installed through the interrupt table, for the interrupt
    dispatcher to call, and it writes what was typed to the terminal; the memory start-up maps
    the tables the rest runs on.  In GRUB everything allocates from the memory manager, the
    command line is split by the parser into a growing buffer, the rescue shell runs it over the
    environment, the command table and the error handling, and the string and number routines
    serve all of it.

    * Files

    - [Prelude]: w-bit integers as [Z] with [wrap], arrays with checked indices, counted loops
      and their invariant rule, C strings as lists of character codes, tactics.
    - [Terminal] (src/kernel/terminal.c): cursor and video buffer as a record, one definition
      per function; the abstract screen it refines.
    - [FrameAlloc], [Memory] (src/kernel/memory.c): the specification of a frame allocator
      (a class), and the bitmap, page directory, page tables and heap that implement it over a
      32-bit physical memory.
    - [Machine], [Interrupts] (src/kernel/interrupts.c, interrupts.s): ports, tables and
      terminal as one state; gates, PIC, dispatch, the entry stubs on a stack of words.
    - [Keyboard] (src/kernel/keyboard.c): the driver and the layout tables.
    - [Kernel]: start-up, and an interrupt on its way from the descriptor table through the entry
      stub to the C code, composed from the parts above.
    - [Framebuffer] (src/kernel/kernel.c, video/): pixels, rectangles, [kernel_main].
    - [GrubStr], [GrubNum] (src/grub/grub-core/kern/misc.c, include/grub/misc.h): characters,
      comparison, search, tokens; 64-bit division, parsing and printing of numbers.
    - [GrubBuffer] (kern/buffer.c): the growing byte buffer.
    - [GrubParser] (kern/parser.c): the state machine of the rescue parser and the splitting
      of a line, with variables and continuation lines.
    - [GrubHeap], [GrubMm], [GrubSession] (kern/mm.c): block headers and free rings; regions
      and the allocation interface; clients of the interface.
    - [GrubQueue] (lib/priority_queue.c): the binary heap and the bag it stands for.
    - [GrubEnvblk] (lib/envblk.c): the block of saved variables, on its bytes.
    - [GrubPrintf], [GrubFormat] (kern/misc.c): formats, arguments and the formatter with its
      callers; what a format means, and the check of foreign formats.
    - [GrubDatetime] (lib/datetime.c, include/grub/datetime.h): seconds, dates, weekdays.
    - [GrubEnv] (kern/env.c, normal/context.c): the hash table of variables, their hooks, and
      the stack of contexts; [GrubStrOrder], [grub_strcmp] as an order.
    - [GrubList], [GrubCommand] (kern/list.c, kern/command.c): doubly linked lists with their
      pointers, and the table of commands kept in one.
    - [GrubErr] (kern/err.c): the active error, the stack of saved errors, their printing.
    - [GrubRescue] (kern/rescue_parser.c, kern/parser.c): running a line and a script over the
      parser, the environment, the commands and the errors; commands are the interface
      [Commands] with the laws [CommandsOk].
    - [GrubCore] (kern/corecmd.c): [set] and [unset] as an instance of it, and their registration.
    - [GrubVgaText] (term/i386/pc/vga_text.c, the output of kern/term.c): the 80 by 25 cells of the
      text terminal, its cursor, and strings written to it.
    - [GrubShell] (kern/rescue_reader.c): reading a line key by key, and the loop of the shell.
    - [GrubDisk], [GrubDiskWrite] (kern/disk.c, kern/disk_common.c, lib/disk.c): the cache of
      units, reading and writing through it, and the range check over nested partitions; drivers
      are the interface [Devices] with the laws [DevicesOk], which a disk in memory keeps.
    - [GrubPartition], [GrubProbe] (kern/partition.c): names of partitions, finding them and the
      walk over all of them, for partition maps that keep the laws [MapOk]; [GrubMsdos]
      (partmap/msdos.c), the tables of the PC, read through the disk layer, as such a map, and
      [GrubGpt] (partmap/gpt.c), GUID partition tables, as another; [GrubMsdosEmbed] (partmap/msdos.c),
      the sectors in front of the partitions where the boot loader is embedded.
    - [GrubFile] (kern/file.c, io/bufio.c, io/offset.c): reading and seeking, buffered files and
      parts of files, for file systems that keep the laws [FsOk]; buffered files and parts keep
      them again.  [GrubBlocklist] (kern/fs.c): files given by sectors, as such a file system
      over the disk layer.
    - [GrubArchelp] (fs/archelp.c): names, symbolic links, opening and listing in archives that keep
      the laws [ArchiveOk]; [GrubCpio] (fs/cpio_common.c, newc.c, odc.c, cpio.c, cpio_be.c), cpio
      archives on a disk as such archives, and their files as a file system.
    - [GrubRaid] (disk/raid5_recover.c, raid6_recover.c, [grub_crypto_xor] of crypto.h): the tables of
      the field of 256 elements, and the data of a lost disk from one or two parities; the members
      of an array are the interface [Nodes] with the laws [NodesOk].
    - [GrubDiskfilter], [GrubVolume] (disk/diskfilter.c): segments of every type, volumes made of
      them, validation and readability; members that are disks, read through the disk layer, keep
      the laws.
    - [GrubCharset] (include/grub/charset.h, normal/charset.c): UTF-8, UTF-16, UCS-4 and Latin 1.

    * How the code is represented

    A C function is a Gallina function from the state it reads to the state it leaves; an access
    that is undefined in C (outside an array, a missing pointer) or a call that does not return
    (a fatal error, a trap) is [None], so a theorem that the result is [Some] says that none of
    these happens.  Integers are in [Z] and wrap where the type does; a signed overflow is
    [None], or the bounds of the theorems keep it out.  C strings are the lists of their
    characters; pointers into them are suffixes.  Functions and data that are not part of the
    model (the value of an environment variable, whether an allocation succeeds, the callback
    that adds memory) are section variables, with what is assumed about them as hypotheses or as
    a class ([HeapGrower], [CommandsOk]).

    * What the theorems show

    Terminal: writing refines the abstract screen and never leaves the buffer.  Memory: frames
    are handed out once and in order, the start-up tables translate every mapped address to
    itself, heap blocks are disjoint.  Interrupts and keyboard: which gates are installed, what
    each interrupt does, what a stream of scan codes types on the US layout; the entry stubs
    pass a segment register for the number of the interrupt, so that the started kernel halts at
    its first one.  GRUB strings and numbers: search, tokens, division and conversion against
    reference definitions, printing and parsing as inverses.  Parser: the code refines a lexer
    on lists, and quoting round-trips.  Memory manager: the free rings stay sorted and merged
    under allocation and freeing, regions grow correctly, any session of calls returns, keeps
    blocks disjoint and loses nothing.  Priority queue: it refines a bag from which a greatest
    element is taken, and sorts.  Environment: the hash table and the stack of contexts refine a
    stack of finite maps; the listing is sorted and complete; the block of saved variables
    refines an association list and reads back what was written.  Commands: the linked list
    keeps its pointers right in both directions, and a lookup finds the best command that is
    registered.  Errors: raising, saving, restoring and printing refine a board of messages; a
    place of more than 256 characters overflows the message.  Rescue shell: a script and a typed
    session do what their lines mean, for all commands that keep the laws of the interface; a
    typed line never leaves its buffer and is what the terminal shows, as long as it stays
    within a row.  Formatted output: every member of the family produces one text, defined on
    formats and arguments alone, cut by the buffer; checked formats are safe, with one family of
    formats for which the check and the printer disagree.  Dates: the conversions are inverse
    and agree with the Gregorian calendar, on the days of 1901 to 2038 on which the code has no
    signed overflow.  Disks: a read gives the bytes of the medium at the place of its range,
    whatever is cached; reads and writes of any disks refine arrays of bytes; a write of more
    than [max_agglomerate] units is cut, and a read at the depth limit claims success.
    Partitions: the walk over the tables of the PC ends, since loops are noticed within three
    walks, on every disk of which fewer than 2^31 / 3 sectors look like a table, and reports
    exactly the partitions of sound tables, as the walk over a GUID table does; the name of a
    partition leads back to it.  The boot loader is embedded only in sectors in front of every
    partition that no other program has marked, or in the partition that is meant for it.
    Files: seeks and reads refine a string of bytes and a place in it, a buffer in front of a
    file of known size makes no difference, and a file named by sectors is what they hold,
    through the buffer, the block list, the partitions and the cache; reads over several blocks
    of a list are wrong.  Archives: a name is rewritten in place to what it means; looking it up
    in an archive gives the member it means, links at its end followed; the bytes of a packed
    archive give back the contents of its files, in all formats; links to directories do not
    work.  Volumes: two parities give back any lost disk; every volume that the code takes for
    readable is read when the recovery modules are loaded and no device fails, with its lost
    members recovered from copies or parity - except in one layout of RAID 6, where a read over
    a row goes wrong.  Text: the encodings of Unicode strings give them back, the decoder keeps
    its type, and what is taken for valid is text, up to a character that was cut off.

    * Bounds and fuel

    Loops over strings and lists recurse on them.  The walk of a free ring has as fuel the
    number of headers plus one, and the theorems show it always suffices; the allocation retries
    at most four times, as the counter of the code says; the 64-bit loops of division and
    printing have 64 rounds.  The parser theorems bound a line by 2 ^ 31 bytes, far below what
    overflows the buffer's sizes; the memory manager is that of 64-bit machines.  The passes
    over a format have as fuel its length plus one, and each step reads at least a character;
    [grub_xvasprintf] allocates twice at most.  Dates are those whose year fits the 16-bit field
    of the code, and those that are computed from seconds are on days whose first second is an
    [int].  The lengths of environment blocks and of their names and values are [int]s too.  A
    priority queue grows as long as the allocator grants less than 2^63 bytes.  A walk of the
    command list has the number of elements in the store plus one as fuel.  A script runs with
    its length plus one as fuel and a session with the number of keys plus one, since every
    round takes at least a line.  The values of variables and the scripts of the shell theorems
    have at most 2 GiB, and its allocations succeed.  Reading units of a disk has the number of
    whole units as fuel, since every turn takes at least one; a write takes at most three turns
    (a part, whole sectors, a part).  The walk over partition tables has three times the sectors
    of the disk plus one as fuel; fewer than 2^31 / 3 sectors may look like tables, so that its
    counter does not overflow; nested walks have the 32 levels of the code.  The choice of
    sectors to embed in has the sectors that are allowed plus those that are available as fuel,
    since every turn accepts one or gives one up.  The size of a buffer is rounded in at most 64
    steps, one per bit.  Opening a file of an archive has eight times the number of its headers
    as fuel, since the headers are read again for every link and eight links are refused.

    * Not modelled

    The assembly entry of the kernel and the linker script (only the interrupt stubs are), the
    build and setup scripts, the root file systems and the tools, and the rest of GRUB: other
    device drivers, file systems, loaders, networking, cryptography, its build system and
    utilities.  *)
From Stdlib Require Export ZArith Lia Bool.
From stdpp Require Export base numbers list option gmap fin_maps strings.
From stdpp Require Import tactics.

#[global] Open Scope Z_scope.
#[global] Set Default Goal Selector "!".

Declare Scope vvb_scope.
Delimit Scope vvb_scope with vvb.
#[global] Open Scope vvb_scope.

Create HintDb vvb.
Create Rewrite HintDb vvb.

(** * Machine integers: a w-bit unsigned value is a [Z] in [0, 2^w). *)

Definition wrap (w z : Z) : Z := z mod 2 ^ w.

Abbreviation u8 := (wrap 8).
Abbreviation u16 := (wrap 16).
Abbreviation u32 := (wrap 32).
Abbreviation u64 := (wrap 64).

(** The signed reading of the low [w] bits (two's complement). *)
Definition sgn (w z : Z) : Z :=
  if wrap w z <? 2 ^ (w - 1) then wrap w z else wrap w z - 2 ^ w.

Abbreviation s8 := (sgn 8).
Abbreviation s32 := (sgn 32).
Abbreviation s64 := (sgn 64).

Definition is_u (w z : Z) : Prop := 0 <= z < 2 ^ w.

#[export] Instance is_u_dec w z : Decision (is_u w z).
Proof. unfold is_u. apply _. Defined.

Lemma wrap_range w z : 0 <= w -> 0 <= wrap w z < 2 ^ w.
Proof. intros. apply Z.mod_pos_bound. lia. Qed.

Lemma wrap_small w z : 0 <= z < 2 ^ w -> wrap w z = z.
Proof. apply Z.mod_small. Qed.

Lemma wrap_wrap w z : wrap w (wrap w z) = wrap w z.
Proof. unfold wrap. apply Zmod_mod. Qed.

Lemma wrap_add_l w a b : wrap w (wrap w a + b) = wrap w (a + b).
Proof. unfold wrap. apply Zplus_mod_idemp_l. Qed.

Lemma wrap_add_r w a b : wrap w (a + wrap w b) = wrap w (a + b).
Proof. unfold wrap. apply Zplus_mod_idemp_r. Qed.

Lemma wrap_mul_r w a b : wrap w (a * wrap w b) = wrap w (a * b).
Proof. unfold wrap. apply Zmult_mod_idemp_r. Qed.

Lemma wrap_testbit w z i : 0 <= w ->
  Z.testbit (wrap w z) i = (i <? w) && Z.testbit z i.
Proof.
  intros. unfold wrap. destruct (Z.ltb_spec i w) as [Hlt|Hge].
  - destruct (Z.lt_ge_cases i 0).
    + by rewrite !Z.testbit_neg_r.
    + rewrite Z.mod_pow2_bits_low by lia. done.
  - by rewrite Z.mod_pow2_bits_high by lia.
Qed.

(** The value of an [int] expression: none when the exact result does not fit, since signed
    overflow is undefined. *)
Definition int_val (z : Z) : option Z := if (- 2 ^ 31 <=? z) && (z <? 2 ^ 31) then Some z else None.

Lemma int_val_ok z : - 2 ^ 31 <= z < 2 ^ 31 -> int_val z = Some z.
Proof. intros [H1 H2]. unfold int_val. by rewrite (proj2 (Z.leb_le _ _) H1), (proj2 (Z.ltb_lt _ _) H2). Qed.

Lemma int_val_None z : z < - 2 ^ 31 \/ 2 ^ 31 <= z -> int_val z = None.
Proof.
  intros H. unfold int_val. destruct (Z.leb_spec (- 2 ^ 31) z), (Z.ltb_spec z (2 ^ 31)); try done.
  exfalso. destruct H; lia.
Qed.

Lemma sgn_wrap w z : sgn w (wrap w z) = sgn w z.
Proof. unfold sgn. by rewrite wrap_wrap. Qed.

Lemma sgn_range w z : 0 < w -> - 2 ^ (w - 1) <= sgn w z < 2 ^ (w - 1).
Proof.
  intros Hw. pose proof (wrap_range w z ltac:(lia)) as Hr. unfold sgn.
  assert (2 ^ w = 2 * 2 ^ (w - 1)) by (rewrite <- Z.pow_succ_r by lia; f_equal; lia).
  destruct (Z.ltb_spec (wrap w z) (2 ^ (w - 1))); lia.
Qed.

Lemma sgn_small w z : 0 < w -> - 2 ^ (w - 1) <= z < 2 ^ (w - 1) -> sgn w z = z.
Proof.
  intros Hw Hz. unfold sgn.
  assert (2 ^ w = 2 * 2 ^ (w - 1)) by (rewrite <- Z.pow_succ_r by lia; f_equal; lia).
  destruct (Z.lt_ge_cases z 0) as [Hn|Hn].
  - assert (wrap w z = z + 2 ^ w) as -> by (unfold wrap; symmetry; apply (Z.mod_unique _ _ (-1)); lia).
    destruct (Z.ltb_spec (z + 2 ^ w) (2 ^ (w - 1))); lia.
  - rewrite wrap_small by lia. destruct (Z.ltb_spec z (2 ^ (w - 1))); lia.
Qed.

Lemma wrap_sgn w z : wrap w (sgn w z) = wrap w z.
Proof.
  unfold sgn. destruct (_ <? _); [apply wrap_wrap|]. unfold wrap.
  replace (z mod 2 ^ w - 2 ^ w) with (z mod 2 ^ w + -1 * 2 ^ w) by lia. by rewrite Z_mod_plus_full, Zmod_mod.
Qed.

Lemma sgn_sgn w z : sgn w (sgn w z) = sgn w z.
Proof. unfold sgn at 1 3. by rewrite wrap_sgn. Qed.

Lemma sgn_add_l w a b : sgn w (sgn w a + b) = sgn w (a + b).
Proof. rewrite <- (sgn_wrap w (sgn w a + b)), <- wrap_add_l, wrap_sgn, wrap_add_l. apply sgn_wrap. Qed.

(** Masks of low bits. *)
Lemma land_mod x n : 0 <= n -> Z.land x (2 ^ n - 1) = x mod 2 ^ n.
Proof. intros Hn. rewrite <- Z.land_ones by done. f_equal. unfold Z.ones. rewrite Z.shiftl_1_l. lia. Qed.

Lemma mask_down x n : 0 <= n -> Z.land x (Z.lnot (2 ^ n - 1)) = x - x mod 2 ^ n.
Proof.
  intros Hn. rewrite <- Z.ldiff_land. replace (2 ^ n - 1) with (Z.ones n) by (unfold Z.ones; rewrite Z.shiftl_1_l; lia).
  rewrite Z.ldiff_ones_r, Z.shiftl_mul_pow2, Z.shiftr_div_pow2 by done.
  pose proof (Z.div_mod x (2 ^ n) ltac:(lia)). lia.
Qed.

#[export] Hint Resolve wrap_range : vvb.

(** Case analysis on the boolean comparisons of [Z] and on conjunctions. *)
Ltac zcase_one :=
  match goal with
  | |- context [?a <? ?b] => destruct (Z.ltb_spec a b)
  | |- context [?a <=? ?b] => destruct (Z.leb_spec a b)
  | |- context [?a =? ?b] => destruct (Z.eqb_spec a b)
  | H : context [?a <? ?b] |- _ => destruct (Z.ltb_spec a b)
  | H : context [?a <=? ?b] |- _ => destruct (Z.leb_spec a b)
  | H : context [?a =? ?b] |- _ => destruct (Z.eqb_spec a b)
  end.
Ltac zcase := repeat (zcase_one; cbn [andb orb negb] in *).

(** Decide the comparisons that the context settles, without splitting. *)
Ltac zres :=
  repeat match goal with
  | |- context [?a <? ?b] =>
      first [rewrite (proj2 (Z.ltb_lt a b)) by lia | rewrite (proj2 (Z.ltb_ge a b)) by lia]
  | |- context [?a <=? ?b] =>
      first [rewrite (proj2 (Z.leb_le a b)) by lia | rewrite (proj2 (Z.leb_gt a b)) by lia]
  | |- context [?a =? ?b] =>
      first [rewrite (proj2 (Z.eqb_eq a b)) by lia | rewrite (proj2 (Z.eqb_neq a b)) by lia]
  end; cbn [andb orb negb].

(** Closed powers of two as numerals, so that [lia] sees bounds. *)
Ltac pow2 :=
  change (2 ^ 8) with 256 in *; change (2 ^ 7) with 128 in *;
  change (2 ^ 16) with 65536 in *;
  change (2 ^ 31) with 2147483648 in *;
  change (2 ^ 32) with 4294967296 in *;
  change (2 ^ 63) with 9223372036854775808 in *;
  change (2 ^ 64) with 18446744073709551616 in *.

(** [lia] with quotients and remainders by constants. *)
Ltac dlia := Z.to_euclidean_division_equations; lia.

(** A step of the option monad, by rewriting: the rest of the computation is left alone. *)
Lemma bind_ret {A B} (x : A) (f : A -> option B) : (Some x ≫= f) = f x.
Proof. done. Qed.

Ltac step := rewrite bind_ret; cbv beta zeta.

(** Discharge a [wrap] whose argument is in range. *)
Ltac wsmall := repeat (rewrite wrap_small by (pow2; lia)).

(** The same from the inside out, for nested ones. *)
Ltac wsmall_in :=
  repeat match goal with
  | |- context [wrap ?w ?t] =>
      lazymatch t with
      | context [wrap _ _] => fail
      | _ => rewrite (wrap_small w t) by (pow2; lia)
      end
  end.

(** * Arrays: reads and writes that are undefined out of range. *)

Section Arrays.
Context {A : Type}.
Implicit Types (l : list A) (i : Z).

Definition zlen l : Z := Z.of_nat (length l).

Definition aget l i : option A := if 0 <=? i then l !! Z.to_nat i else None.

Definition aset l i (x : A) : option (list A) :=
  if (0 <=? i) && (i <? zlen l) then Some (<[Z.to_nat i := x]> l) else None.

Lemma aget_Some l i : 0 <= i < zlen l -> is_Some (aget l i).
Proof.
  intros H. unfold aget, zlen in *. zcase; [|lia].
  apply lookup_lt_is_Some. lia.
Qed.

Lemma aget_range l i x : aget l i = Some x -> 0 <= i < zlen l.
Proof.
  unfold aget, zlen. zcase; [|done]. intros ?%lookup_lt_Some. lia.
Qed.

Lemma aset_Some l i x : 0 <= i < zlen l ->
  aset l i x = Some (<[Z.to_nat i := x]> l).
Proof. intros. unfold aset. zcase; done || lia. Qed.

Lemma zlen_insert l (n : nat) x : zlen (<[n := x]> l) = zlen l.
Proof. unfold zlen. by rewrite length_insert. Qed.

Lemma aget_insert_eq l i x : 0 <= i < zlen l ->
  aget (<[Z.to_nat i := x]> l) i = Some x.
Proof.
  intros. unfold aget, zlen in *. zcase; [|lia].
  apply list_lookup_insert_eq. lia.
Qed.

Lemma aget_insert_ne l i j x : 0 <= i -> i <> j ->
  aget (<[Z.to_nat i := x]> l) j = aget l j.
Proof.
  intros. unfold aget. zcase; [|done].
  apply list_lookup_insert_ne. lia.
Qed.

Lemma zlen_nonneg l : 0 <= zlen l.
Proof. unfold zlen. lia. Qed.

Lemma zlen_cons x l : zlen (x :: l) = 1 + zlen l.
Proof. unfold zlen. cbn [length]. lia. Qed.

Lemma zlen_app l k : zlen (l ++ k) = zlen l + zlen k.
Proof. unfold zlen. rewrite length_app. lia. Qed.

Lemma zlen_replicate (n : nat) (x : A) : zlen (replicate n x) = Z.of_nat n.
Proof. unfold zlen. by rewrite length_replicate. Qed.

(** The cell after the first part of an array. *)
Lemma aget_middle l x k : aget (l ++ x :: k) (zlen l) = Some x.
Proof. unfold aget, zlen. zcase; [|lia]. rewrite Nat2Z.id. by apply list_lookup_middle. Qed.

Lemma aset_middle l x y k : aset (l ++ x :: k) (zlen l) y = Some (l ++ y :: k).
Proof.
  rewrite aset_Some by (rewrite zlen_app, zlen_cons; pose proof (zlen_nonneg l); pose proof (zlen_nonneg k); lia).
  unfold zlen. rewrite Nat2Z.id. by rewrite insert_app_r_alt, Nat.sub_diag by done.
Qed.
End Arrays.

#[export] Hint Rewrite @zlen_insert @zlen_cons @zlen_app @zlen_replicate : vvb.

(** * Counted loops: [for (i = lo; i < hi; i++) body], the body may fail. *)

Fixpoint for_up {S : Type} (n : nat) (i : Z) (body : Z -> S -> option S) (s : S)
  : option S :=
  match n with
  | O => Some s
  | Datatypes.S n' => s' ← body i s; for_up n' (i + 1) body s'
  end.

Definition for_range {S : Type} (lo hi : Z) (body : Z -> S -> option S) (s : S)
  : option S := for_up (Z.to_nat (hi - lo)) lo body s.

(** The invariant rule: it gives termination with a result and the invariant. *)
Lemma for_up_inv {S} (I : Z -> S -> Prop) n i body (s : S) :
  (forall j t, i <= j < i + Z.of_nat n -> I j t ->
     exists t', body j t = Some t' /\ I (j + 1) t') ->
  I i s -> exists s', for_up n i body s = Some s' /\ I (i + Z.of_nat n) s'.
Proof.
  revert i s. induction n as [|n IH]; intros i s Hstep Hi.
  - exists s. split; [done|]. by replace (i + Z.of_nat 0) with i by lia.
  - destruct (Hstep i s) as (t & Ht & HI); [lia|done|].
    destruct (IH (i + 1) t) as (s' & Hs' & HI').
    { intros j t' Hj. apply Hstep. lia. }
    { done. }
    exists s'. cbn. rewrite Ht. split; [done|].
    by replace (i + Z.of_nat (Datatypes.S n)) with (i + 1 + Z.of_nat n) by lia.
Qed.

Lemma for_range_inv {S} (I : Z -> S -> Prop) lo hi body (s : S) :
  lo <= hi ->
  (forall j t, lo <= j < hi -> I j t -> exists t', body j t = Some t' /\ I (j + 1) t') ->
  I lo s -> exists s', for_range lo hi body s = Some s' /\ I hi s'.
Proof.
  intros Hle Hstep HI. unfold for_range.
  destruct (for_up_inv I (Z.to_nat (hi - lo)) lo body s) as (s' & Hs & HI'); [|done|].
  { intros j t Hj. apply Hstep. lia. }
  exists s'. split; [done|].
  by replace (lo + Z.of_nat (Z.to_nat (hi - lo))) with hi in HI' by lia.
Qed.

(** * Filling an array from the left: the first [k] cells come from [l]. *)

Definition fill_upto {A} (k : Z) (l b : list A) : list A :=
  take (Z.to_nat k) l ++ drop (Z.to_nat k) b.

Lemma fill_upto_0 {A} (l b : list A) : fill_upto 0 l b = b.
Proof. done. Qed.

Lemma fill_upto_all {A} k (l b : list A) :
  Z.of_nat (length l) <= k -> Z.of_nat (length b) <= k -> fill_upto k l b = l.
Proof.
  intros. unfold fill_upto. rewrite take_ge, drop_ge by lia. apply app_nil_r.
Qed.

Lemma length_fill_upto {A} k (l b : list A) :
  0 <= k <= zlen l -> length l = length b -> length (fill_upto k l b) = length b.
Proof.
  unfold fill_upto, zlen. intros. rewrite length_app, length_take, length_drop. lia.
Qed.

Lemma fill_upto_above {A} k i (l b : list A) :
  0 <= k <= zlen l -> k <= i -> aget (fill_upto k l b) i = aget b i.
Proof.
  unfold fill_upto, zlen, aget. intros. zcase; [|done].
  rewrite lookup_app_r by (rewrite length_take; lia).
  rewrite lookup_drop, length_take. f_equal. lia.
Qed.

Lemma fill_upto_step {A} k v (l b : list A) :
  0 <= k < zlen b -> aget l k = Some v ->
  aset (fill_upto k l b) k v = Some (fill_upto (k + 1) l b).
Proof.
  intros Hk Hl. pose proof (aget_range _ _ _ Hl) as Hr.
  unfold aget, fill_upto, zlen in *. zcase; [|done].
  assert (length (take (Z.to_nat k) l) = Z.to_nat k) as Ht by (rewrite length_take; lia).
  rewrite aset_Some by (unfold zlen; rewrite length_app, Ht, length_drop; lia).
  f_equal. rewrite insert_app_r_alt by lia. rewrite Ht, Nat.sub_diag.
  replace (Z.to_nat (k + 1)) with (S (Z.to_nat k)) by lia.
  rewrite (take_S_r _ _ _ Hl), <- app_assoc. f_equal. cbn.
  destruct (lookup_lt_is_Some_2 b (Z.to_nat k)) as [w Hw]; [lia|].
  by rewrite (drop_S _ _ _ Hw).
Qed.

(** * Filters that keep nothing, or agree on the elements. *)

Lemma filter_none {A} (P : A -> Prop) `{!forall x, Decision (P x)} (l : list A) :
  (forall x, x ∈ l -> ~ P x) -> filter P l = [].
Proof.
  induction l as [|x l IH]; intros Hl; [done|].
  rewrite filter_cons_False by (apply Hl; constructor).
  apply IH. intros y Hy. apply Hl. by constructor.
Qed.

Lemma filter_ext_in {A} (P Q : A -> Prop) `{!forall x, Decision (P x)}
    `{!forall x, Decision (Q x)} (l : list A) :
  (forall x, x ∈ l -> P x <-> Q x) -> filter P l = filter Q l.
Proof.
  induction l as [|x l IH]; intros Hl; [done|].
  assert (filter P l = filter Q l) as IH' by (apply IH; intros y Hy; apply Hl; by constructor).
  rewrite !filter_cons, IH'. specialize (Hl x (list_elem_of_here _ _)).
  do 2 case_decide; tauto.
Qed.

(** * C strings: the characters before the terminating NUL, as char codes. *)

Fixpoint codes (s : string) : list Z :=
  match s with
  | EmptyString => []
  | String a s' => Z.of_N (Ascii.N_of_ascii a) :: codes s'
  end.

Notation "'chars' s" := (codes s%string) (at level 10, s at level 9) : vvb_scope.

(** * Finite ranges decided by evaluation. *)

Definition ztest (n : Z) (P : Z -> bool) : bool := forallb P (Z.of_nat <$> seq 0 (Z.to_nat n)).

Lemma ztest_spec n P : ztest n P = true -> forall z, 0 <= z < n -> P z = true.
Proof.
  unfold ztest. rewrite forallb_forall. intros H z Hz. apply H, list_elem_of_In.
  apply list_elem_of_fmap. exists (Z.to_nat z). split; [lia|]. apply elem_of_seq. lia.
Qed.
