(* ===== verification/Terminal.v ===== *)
(** The VGA text terminal of the kernel: src/kernel/terminal.c and the
    colour and cell definitions of src/kernel/kernel.h.

    The state is the four file-scope variables of terminal.c; the buffer is
    the 80 x 25 window of 16-bit cells at VGA_MEMORY.  A write outside that
    window is [None].  [size_t] is 32 bits wide (the kernel is a 32-bit
    image).  The abstract terminal at the end keeps 25 rows of 80 cells. *)

From S2P Require Import Prelude.

Module Terminal.

Definition VGA_WIDTH : Z := 80.
Definition VGA_HEIGHT : Z := 25.

(** The [vga_color] enumeration and its values. *)
Inductive vga_color_name :=
| BLACK | BLUE | GREEN | CYAN | RED | MAGENTA | BROWN | LIGHT_GREY
| DARK_GREY | LIGHT_BLUE | LIGHT_GREEN | LIGHT_CYAN | LIGHT_RED
| LIGHT_MAGENTA | LIGHT_BROWN | WHITE.

Definition vga_color (c : vga_color_name) : Z :=
  match c with
  | BLACK => 0 | BLUE => 1 | GREEN => 2 | CYAN => 3 | RED => 4
  | MAGENTA => 5 | BROWN => 6 | LIGHT_GREY => 7 | DARK_GREY => 8
  | LIGHT_BLUE => 9 | LIGHT_GREEN => 10 | LIGHT_CYAN => 11
  | LIGHT_RED => 12 | LIGHT_MAGENTA => 13 | LIGHT_BROWN => 14 | WHITE => 15
  end.

(** [(uint16_t) c | (uint16_t) color << 8]: the [char] is sign extended, the
    shift is done on [int] and the result is cut to 16 bits. *)
Definition vga_entry (c color : Z) : Z :=
  u16 (Z.lor (u16 c) (Z.shiftl (u16 color) 8)).

Record term := mk_term {
  terminal_row : Z;
  terminal_column : Z;
  terminal_color : Z;
  terminal_buffer : list Z
}.

Definition set_row (r : Z) (t : term) : term :=
  mk_term r (terminal_column t) (terminal_color t) (terminal_buffer t).
Definition set_column (c : Z) (t : term) : term :=
  mk_term (terminal_row t) c (terminal_color t) (terminal_buffer t).
Definition set_buffer (b : list Z) (t : term) : term :=
  mk_term (terminal_row t) (terminal_column t) (terminal_color t) b.

(** [terminal_buffer[index] = v] and a read of it. *)
Definition store (index v : Z) (t : term) : option term :=
  b ← aset (terminal_buffer t) index v; Some (set_buffer b t).

Definition terminal_setcolor (color : Z) (t : term) : term :=
  mk_term (terminal_row t) (terminal_column t) color (terminal_buffer t).

Definition terminal_putentryat (c color x y : Z) (t : term) : option term :=
  let index := u32 (y * VGA_WIDTH + x) in
  store index (vga_entry c color) t.

Definition terminal_initialize (t : term) : option term :=
  let t := mk_term 0 0 (Z.lor (vga_color LIGHT_GREY) (Z.shiftl (vga_color BLACK) 4))
             (terminal_buffer t) in
  for_range 0 VGA_HEIGHT (fun y =>
    for_range 0 VGA_WIDTH (fun x t =>
      store (u32 (y * VGA_WIDTH + x)) (vga_entry 32 (terminal_color t)) t)) t.

Definition scroll_up (t : term) : option term :=
  for_range 0 (VGA_HEIGHT - 1) (fun y =>
    for_range 0 VGA_WIDTH (fun x t =>
      let src := u32 ((y + 1) * VGA_WIDTH + x) in
      let dst := u32 (y * VGA_WIDTH + x) in
      v ← aget (terminal_buffer t) src;
      store dst v t)) t.

Definition clear_last_line (t : term) : option term :=
  for_range 0 VGA_WIDTH (fun x t =>
    store (u32 ((VGA_HEIGHT - 1) * VGA_WIDTH + x))
      (vga_entry 32 (terminal_color t)) t) t.

Definition terminal_putchar (c : Z) (t : term) : option term :=
  if c =? 10 then
    Some (set_row (u32 (terminal_row t + 1)) (set_column 0 t))
  else
    t ← (if VGA_HEIGHT <=? terminal_row t then
           t ← scroll_up t;
           t ← clear_last_line t;
           Some (set_row (VGA_HEIGHT - 1) t)
         else Some t);
    t ← terminal_putentryat c (terminal_color t) (terminal_column t) (terminal_row t) t;
    let t := set_column (u32 (terminal_column t + 1)) t in
    if terminal_column t =? VGA_WIDTH then
      Some (set_row (u32 (terminal_row t + 1)) (set_column 0 t))
    else Some t.

(** The loop stops at the first NUL; the end of the list is the terminator. *)
Fixpoint terminal_write (data : list Z) (t : term) : option term :=
  match data with
  | [] => Some t
  | c :: rest =>
      if c =? 0 then Some t else t ← terminal_putchar c t; terminal_write rest t
  end.

Definition terminal_writestring (data : list Z) (t : term) : option term :=
  terminal_write data t.

(** ** Invariant *)

Definition term_wf (t : term) : Prop :=
  length (terminal_buffer t) = 2000%nat /\ 0 <= terminal_column t < 80 /\
  0 <= terminal_row t < 2 ^ 32.

#[export] Instance term_wf_dec t : Decision (term_wf t).
Proof. unfold term_wf. apply _. Defined.

(** ** The abstract terminal: rows of cells *)

Record screen := mk_screen {
  rows : list (list Z);
  cur_row : Z;
  cur_col : Z;
  attr : Z
}.

Definition blank_row (color : Z) : list Z := replicate 80 (vga_entry 32 color).

(** One line up: the first row is lost and a blank one enters at the bottom. *)
Definition scrolled (s : screen) : screen :=
  mk_screen (drop 1 (rows s) ++ [blank_row (attr s)]) 24 (cur_col s) (attr s).

Definition put_cell (r c : Z) (v : Z) (g : list (list Z)) : list (list Z) :=
  alter (fun row => <[Z.to_nat c := v]> row) (Z.to_nat r) g.

Definition advance (s : screen) : screen :=
  if cur_col s =? 79 then mk_screen (rows s) (cur_row s + 1) 0 (attr s)
  else mk_screen (rows s) (cur_row s) (cur_col s + 1) (attr s).

Definition screen_putchar (c : Z) (s : screen) : screen :=
  if c =? 10 then mk_screen (rows s) (cur_row s + 1) 0 (attr s)
  else
    let s := if 25 <=? cur_row s then scrolled s else s in
    advance (mk_screen (put_cell (cur_row s) (cur_col s) (vga_entry c (attr s)) (rows s))
               (cur_row s) (cur_col s) (attr s)).

Definition shows (t : term) (s : screen) : Prop :=
  length (rows s) = 25%nat /\ Forall (fun r => length r = 80%nat) (rows s) /\
  terminal_buffer t = concat (rows s) /\
  terminal_row t = cur_row s /\ terminal_column t = cur_col s /\
  terminal_color t = attr s.

(** ** The loops of terminal.c as list operations *)

Lemma set_buffer_id t : set_buffer (terminal_buffer t) t = t.
Proof. by destruct t. Qed.

(** One row of a fill: columns [0, 80) from cell [base]. *)
Lemma fill_row base (body : Z -> term -> option term) l b t0 :
  (forall x, 0 <= x < 80 ->
     body x (set_buffer (fill_upto (base + x) l b) t0)
     = Some (set_buffer (fill_upto (base + x + 1) l b) t0)) ->
  for_range 0 VGA_WIDTH body (set_buffer (fill_upto base l b) t0)
  = Some (set_buffer (fill_upto (base + 80) l b) t0).
Proof.
  intros Hbody.
  edestruct (for_range_inv (fun x t => t = set_buffer (fill_upto (base + x) l b) t0)
    0 VGA_WIDTH body) as (s' & Hs & ->); [done| |by rewrite Z.add_0_r|by rewrite Hs].
  intros x t Hx ->. rewrite Hbody by done. eexists. split; [done|].
  by rewrite Z.add_assoc.
Qed.

Lemma fill_rows h (body : Z -> Z -> term -> option term) l b t0 : 0 <= h ->
  (forall y x, 0 <= y < h -> 0 <= x < 80 ->
     body y x (set_buffer (fill_upto (y * 80 + x) l b) t0)
     = Some (set_buffer (fill_upto (y * 80 + x + 1) l b) t0)) ->
  for_range 0 h (fun y => for_range 0 VGA_WIDTH (body y)) (set_buffer b t0)
  = Some (set_buffer (fill_upto (h * 80) l b) t0).
Proof.
  intros Hh Hbody.
  edestruct (for_range_inv (fun y t => t = set_buffer (fill_upto (y * 80) l b) t0)
    0 h (fun y => for_range 0 VGA_WIDTH (body y))) as (s' & Hs & ->);
    [done| |by rewrite fill_upto_0|by rewrite Hs].
  intros y t Hy ->. eexists. split; [apply (fill_row (y * 80)); auto|].
  repeat f_equal. lia.
Qed.

(** One store of a fill. *)
Lemma store_fill k v l b t0 :
  0 <= k < zlen b -> aget l k = Some v ->
  store k v (set_buffer (fill_upto k l b) t0)
  = Some (set_buffer (fill_upto (k + 1) l b) t0).
Proof.
  intros Hk Hv. unfold store. cbn [terminal_buffer set_buffer].
  by rewrite (fill_upto_step _ _ _ _ Hk Hv).
Qed.

Lemma aget_replicate {A} n (v : A) i :
  0 <= i < Z.of_nat n -> aget (replicate n v) i = Some v.
Proof. intros. unfold aget. zcase; [|lia]. apply lookup_replicate_2. lia. Qed.

Lemma scroll_up_spec t : length (terminal_buffer t) = 2000%nat ->
  scroll_up t = Some (set_buffer (drop 80 (terminal_buffer t)
                        ++ drop 1920 (terminal_buffer t)) t).
Proof.
  intros Hlen. unfold scroll_up. rewrite <- (set_buffer_id t) at 1.
  set (b := terminal_buffer t). assert (zlen b = 2000) as Hb by (unfold zlen, b; lia).
  rewrite (fill_rows _ _ (drop 80 b) b t).
  - repeat f_equal. unfold fill_upto. rewrite take_ge; [done|].
    change ((VGA_HEIGHT - 1) * 80) with 1920. rewrite length_drop. unfold b. lia.
  - done.
  - intros y x Hy Hx. change VGA_HEIGHT with 25 in Hy. change VGA_WIDTH with 80.
    wsmall. cbn [terminal_buffer set_buffer].
    rewrite fill_upto_above by (unfold zlen in *; rewrite ?length_drop; lia).
    destruct (aget_Some b ((y + 1) * 80 + x)) as [v Hv]; [lia|].
    rewrite Hv. cbn. apply store_fill; [lia|].
    unfold aget in *. zcase; try lia. rewrite lookup_drop, <- Hv. f_equal. lia.
Qed.

Lemma clear_last_line_spec t : length (terminal_buffer t) = 2000%nat ->
  clear_last_line t = Some (set_buffer (take 1920 (terminal_buffer t)
                              ++ blank_row (terminal_color t)) t).
Proof.
  intros Hlen. unfold clear_last_line, blank_row.
  set (b := terminal_buffer t). assert (zlen b = 2000) as Hb by (unfold zlen, b; lia).
  set (l := take 1920 b ++ replicate 80 (vga_entry 32 (terminal_color t))).
  assert (length l = 2000%nat) as Hl.
  { unfold l. rewrite length_app, length_take, length_replicate. unfold b. lia. }
  assert (t = set_buffer (fill_upto 1920 l b) t) as Ht.
  { rewrite <- (set_buffer_id t) at 1. f_equal. unfold fill_upto, l.
    rewrite take_app_le by (rewrite length_take; unfold b; lia).
    rewrite take_take. fold b. by rewrite Nat.min_id, take_drop. }
  rewrite Ht at 1. rewrite (fill_row 1920).
  - by rewrite fill_upto_all by (unfold b in *; lia).
  - intros x Hx. change ((VGA_HEIGHT - 1) * VGA_WIDTH) with 1920. wsmall.
    apply store_fill; [lia|]. cbn [terminal_color set_buffer].
    unfold aget, l. zcase; try lia.
    rewrite lookup_app_r by (rewrite length_take; unfold b; lia).
    apply lookup_replicate_2. rewrite length_take. unfold b. lia.
Qed.

Lemma terminal_initialize_spec t : length (terminal_buffer t) = 2000%nat ->
  terminal_initialize t
  = Some (mk_term 0 0 7 (replicate 2000 (vga_entry 32 7))).
Proof.
  intros Hlen. unfold terminal_initialize.
  set (b := terminal_buffer t). assert (zlen b = 2000) as Hb by (unfold zlen, b; lia).
  change (Z.lor _ _) with 7. set (t0 := mk_term 0 0 7 b).
  change t0 with (set_buffer b t0) at 1.
  rewrite (fill_rows _ _ (replicate 2000 (vga_entry 32 7)) b t0).
  - rewrite fill_upto_all; [done| |].
    + rewrite length_replicate. done.
    + unfold b. rewrite Hlen. done.
  - done.
  - intros y x Hy Hx. change VGA_HEIGHT with 25 in Hy. change VGA_WIDTH with 80.
    wsmall. apply store_fill; [lia|]. apply aget_replicate. lia.
Qed.

(** ** Rows and the flat buffer *)

Lemma length_concat_rows g (n : nat) : Forall (fun r => length r = n) g ->
  length (concat g : list Z) = (length g * n)%nat.
Proof.
  induction 1 as [|r g Hr Hg IH]; [done|]. cbn. rewrite length_app, IH. lia.
Qed.

Lemma concat_put_cell g r c v : Forall (fun x => length x = 80%nat) g ->
  0 <= r < zlen g -> 0 <= c < 80 ->
  <[Z.to_nat (r * 80 + c) := v]> (concat g) = concat (put_cell r c v g).
Proof.
  intros Hg. revert r. induction Hg as [|x g Hx Hg IH]; intros r Hr Hc.
  { unfold zlen in Hr. cbn in Hr. lia. }
  unfold put_cell, zlen in *. cbn [length concat] in *.
  destruct (Z.to_nat r) as [|n] eqn:En.
  - cbn. rewrite insert_app_l by lia. do 2 f_equal. lia.
  - cbn. rewrite insert_app_r_alt by lia. f_equal.
    replace n with (Z.to_nat (r - 1)) by lia. rewrite <- IH by lia. f_equal. lia.
Qed.

Lemma put_cell_rows r c v g n : Forall (fun x => length x = n) g ->
  length (put_cell r c v g) = length g /\
  Forall (fun x => length x = n) (put_cell r c v g).
Proof.
  intros Hg. unfold put_cell. rewrite length_alter. split; [done|].
  apply Forall_alter; [done|]. intros x _ Hx. by rewrite length_insert.
Qed.

Lemma scroll_concat (g : list (list Z)) (v : list Z) : length g = 25%nat -> Forall (fun x => length x = 80%nat) g ->
  take 1920 (drop 80 (concat g) ++ drop 1920 (concat g)) ++ v
  = concat (drop 1 g ++ [v]).
Proof.
  intros Hlen Hg. destruct g as [|r g]; [done|]. inversion Hg; subst.
  cbn [drop concat]. rewrite drop_app_length' by done.
  assert (length (concat g) = 1920%nat) as Hc.
  { rewrite (length_concat_rows g 80) by done. cbn in Hlen. lia. }
  rewrite take_app_length' by done. rewrite drop_0, concat_app. cbn. by rewrite app_nil_r.
Qed.

(** ** Every branch of [terminal_putchar] *)

Lemma scroll_shows t s : shows t s ->
  exists t', (t ← scroll_up t; t ← clear_last_line t;
              Some (set_row (VGA_HEIGHT - 1) t)) = Some t' /\ shows t' (scrolled s).
Proof.
  intros (Hl & Hr & Hb & Hrow & Hcol & Hattr).
  assert (length (terminal_buffer t) = 2000%nat) as Hlen.
  { rewrite Hb, (length_concat_rows _ 80) by done. lia. }
  rewrite scroll_up_spec by done. cbn [mbind option_bind].
  rewrite clear_last_line_spec.
  2:{ cbn [terminal_buffer set_buffer]. rewrite length_app, !length_drop. lia. }
  cbn [mbind option_bind]. eexists. split; [done|].
  unfold shows, scrolled. cbn. repeat split; try done.
  - rewrite length_app, length_drop. cbn. lia.
  - apply Forall_app. split; [by apply Forall_drop|].
    by repeat constructor.
  - rewrite Hb, Hattr. by apply scroll_concat.
Qed.

Lemma put_shows c t s : shows t s -> 0 <= cur_col s < 80 -> 0 <= cur_row s < 25 ->
  exists t', (t ← terminal_putentryat c (terminal_color t) (terminal_column t) (terminal_row t) t;
              let t := set_column (u32 (terminal_column t + 1)) t in
              if terminal_column t =? VGA_WIDTH
              then Some (set_row (u32 (terminal_row t + 1)) (set_column 0 t))
              else Some t) = Some t' /\
    shows t' (advance (mk_screen
      (put_cell (cur_row s) (cur_col s) (vga_entry c (attr s)) (rows s))
      (cur_row s) (cur_col s) (attr s))).
Proof.
  intros (Hl & Hr & Hb & Hrow & Hcol & Hattr) Hc Hy.
  unfold terminal_putentryat, store. change VGA_WIDTH with 80.
  rewrite Hrow, Hcol, Hattr, Hb. wsmall.
  rewrite aset_Some.
  2:{ unfold zlen. rewrite (length_concat_rows _ 80) by done. lia. }
  cbn [mbind option_bind]. cbn zeta.
  rewrite concat_put_cell by (unfold zlen; auto; lia).
  destruct (put_cell_rows (cur_row s) (cur_col s) (vga_entry c (attr s)) _ _ Hr) as [Hpl Hpr].
  cbn [terminal_column set_column set_buffer set_row terminal_row]. rewrite Hrow, Hcol. wsmall.
  unfold advance, shows. cbn [cur_col]. zcase; try lia; eexists; (split; [done|]);
    cbn; rewrite ?Hpl; repeat split; done || (rewrite ?Hrow, ?Hcol; wsmall; lia) || idtac.
  all: by rewrite Hattr.
Qed.

Lemma putchar_refines c t s :
  shows t s -> 0 <= cur_col s < 80 -> 0 <= cur_row s -> cur_row s + 1 < 2 ^ 32 ->
  exists t', terminal_putchar c t = Some t' /\ shows t' (screen_putchar c s).
Proof.
  intros Hs Hc Hy Hw. unfold terminal_putchar, screen_putchar. pow2.
  destruct (Z.eqb_spec c 10).
  { eexists. split; [done|]. destruct Hs as (Hl & Hr & Hb & Hrow & Hcol & Hattr).
    unfold shows. cbn. rewrite Hrow. wsmall. done. }
  change VGA_HEIGHT with 25 at 1. pose proof Hs as (_ & _ & _ & Hrow & _). rewrite Hrow.
  destruct (Z.leb_spec 25 (cur_row s)).
  - destruct (scroll_shows t s Hs) as (t1 & Ht1 & Hs1). rewrite Ht1. cbn [mbind option_bind].
    apply put_shows; [done|cbn; lia..].
  - cbn [mbind option_bind]. apply put_shows; [done|lia..].
Qed.

Lemma screen_putchar_cursor c s : 0 <= cur_col s < 80 -> 0 <= cur_row s ->
  0 <= cur_col (screen_putchar c s) < 80 /\
  0 <= cur_row (screen_putchar c s) <= cur_row s + 1.
Proof.
  intros. unfold screen_putchar, advance, scrolled. zcase; cbn in *; lia.
Qed.

Lemma write_refines data t s :
  shows t s -> 0 <= cur_col s < 80 -> 0 <= cur_row s -> Forall (fun c => c <> 0) data ->
  cur_row s + zlen data < 2 ^ 32 ->
  exists t', terminal_write data t = Some t' /\
             shows t' (foldl (fun s c => screen_putchar c s) s data).
Proof.
  revert t s. induction data as [|c data IH]; intros t s Hs Hc Hr Hnz Hlen; [by exists t|].
  inversion Hnz; subst. unfold zlen in *. cbn [length] in Hlen.
  cbn [terminal_write foldl]. destruct (Z.eqb_spec c 0); [done|].
  destruct (putchar_refines c t s) as (t1 & -> & Hs1); [done..|lia|].
  destruct (screen_putchar_cursor c s Hc Hr) as [Hc1 Hr1].
  cbn [mbind option_bind]. apply IH; [done..|lia|done|lia].
Qed.

(** A terminal with a full-size buffer shows some screen. *)
Fixpoint split_rows (n : nat) (l : list Z) : list (list Z) :=
  match n with
  | O => []
  | S n' => take 80 l :: split_rows n' (drop 80 l)
  end.

Lemma split_rows_spec n l : length l = (n * 80)%nat ->
  length (split_rows n l) = n /\ Forall (fun r => length r = 80%nat) (split_rows n l) /\
  concat (split_rows n l) = l.
Proof.
  revert l. induction n as [|n IH]; intros l Hl.
  - destruct l; [done|cbn in Hl; lia].
  - destruct (IH (drop 80 l)) as (H1 & H2 & H3); [rewrite length_drop; lia|].
    cbn [split_rows length concat]. repeat split; [lia| |].
    + constructor; [rewrite length_take; lia|done].
    + by rewrite H3, take_drop.
Qed.

Lemma wf_shows t : term_wf t ->
  shows t (mk_screen (split_rows 25 (terminal_buffer t)) (terminal_row t)
             (terminal_column t) (terminal_color t)).
Proof.
  intros (Hl & _ & _). destruct (split_rows_spec 25 (terminal_buffer t)) as (H1 & H2 & H3); [lia|].
  unfold shows. cbn -[split_rows]. by rewrite H3.
Qed.

Lemma putchar_wf c t : term_wf t -> exists t', terminal_putchar c t = Some t' /\ term_wf t'.
Proof.
  intros Hwf. pose proof (wf_shows t Hwf) as Hs. destruct Hwf as (Hl & Hc & Hr).
  destruct (Z.eqb_spec c 10) as [->|Hne].
  { eexists. split; [done|]. split; [done|]. cbn. split; [lia|]. by apply wrap_range. }
  set (s := mk_screen _ _ _ _) in Hs.
  destruct (Z.lt_ge_cases (terminal_row t + 1) (2 ^ 32)) as [Hlt|Hge].
  - destruct (putchar_refines c t s) as (t' & -> & Hs'); [done|cbn -[split_rows]; lia..|].
    destruct (screen_putchar_cursor c s) as [Hc' Hr']; [cbn -[split_rows]; lia..|].
    exists t'. split; [done|]. destruct Hs' as (Hl' & Hf & Hb & Hrow & Hcol & _).
    unfold term_wf. rewrite Hb, (length_concat_rows _ 80), Hl', Hrow, Hcol by done.
    cbn -[split_rows screen_putchar] in Hr'. repeat split; lia.
  - unfold terminal_putchar. rewrite (proj2 (Z.eqb_neq _ _) Hne).
    change VGA_HEIGHT with 25 at 1. destruct (Z.leb_spec 25 (terminal_row t)); [|pow2; lia].
    destruct (scroll_shows t s Hs) as (t1 & -> & Hs1). cbn [mbind option_bind].
    destruct (put_shows c t1 _ Hs1) as (t' & Ht' & Hs'); [cbn; lia..|].
    exists t'. split; [exact Ht'|]. destruct Hs' as (Hl' & Hf & Hb & Hrow & Hcol & _).
    unfold term_wf. rewrite Hb, (length_concat_rows _ 80), Hl', Hrow, Hcol by done.
    unfold advance. cbn -[split_rows]. zcase; cbn -[split_rows]; pow2; repeat split; lia.
Qed.

Lemma write_wf data t : term_wf t -> exists t', terminal_write data t = Some t' /\ term_wf t'.
Proof.
  revert t. induction data as [|c data IH]; intros t Ht; [by exists t|].
  cbn [terminal_write]. destruct (Z.eqb_spec c 0); [by exists t|].
  destruct (putchar_wf c t Ht) as (t1 & -> & H1). by apply IH.
Qed.

(** ** Properties *)

(** C26: Writing a string does on the video buffer what the abstract terminal does on rows of
    cells: every character is placed at the cursor, the cursor wraps at column 80, and when the
    cursor is below the last row the rows move up by one and a blank row enters. *)
Theorem terminal_write_refines_screen data t s :
  shows t s -> 0 <= cur_col s < 80 -> 0 <= cur_row s -> Forall (fun c => c <> 0) data ->
  cur_row s + zlen data < 2 ^ 32 ->
  exists t', terminal_write data t = Some t' /\
             shows t' (foldl (fun s c => screen_putchar c s) s data).
Proof. apply write_refines. Qed.

Definition blank_term : term := mk_term 24 79 7 (replicate 2000 (vga_entry 32 7)).
Definition blank_screen : screen := mk_screen (replicate 25 (blank_row 7)) 24 79 7.

Lemma terminal_write_refines_screen_witness :
  exists t', terminal_write (chars "ok!") blank_term = Some t' /\
             shows t' (foldl (fun s c => screen_putchar c s) blank_screen (chars "ok!")).
Proof.
  apply terminal_write_refines_screen.
  - repeat split; vm_compute; repeat constructor.
  - vm_compute; done.
  - vm_compute; done.
  - repeat constructor; vm_compute; done.
  - vm_compute; done.
Defined.

(** No write of a string leaves the 80 x 25 window: from a terminal with a full-size buffer
    and the cursor column below 80, whatever the row counter and the string, every store is in
    range and the terminal stays well formed. *)
Theorem terminal_write_in_bounds data t :
  term_wf t -> exists t', terminal_write data t = Some t' /\ term_wf t'.
Proof. apply write_wf. Qed.

Lemma terminal_write_in_bounds_witness :
  exists t', terminal_write [10; 10; 65; -128; 200] blank_term = Some t' /\ term_wf t'.
Proof. apply terminal_write_in_bounds. repeat split; vm_compute; congruence. Defined.

(** The screen while it fills up: the first [k] cells come from [l]. *)
Definition filling (k : Z) (l : list Z) : term :=
  mk_term (k / 80) (k mod 80) 7 (fill_upto k l (replicate 2000 (vga_entry 32 7))).

Lemma putchar_filling c k l :
  c <> 10 -> 0 <= k < 2000 -> aget l k = Some (vga_entry c 7) ->
  terminal_putchar c (filling k l) = Some (filling (k + 1) l).
Proof.
  intros Hc Hk Hl. pose proof (aget_range _ _ _ Hl) as Hr.
  pose proof (Z.div_mod k 80 ltac:(lia)) as Hdm. pose proof (Z.mod_pos_bound k 80 ltac:(lia)).
  assert (k / 80 < 25) by (apply Z.div_lt_upper_bound; lia).
  assert (0 <= k / 80) by (apply Z.div_pos; lia).
  unfold terminal_putchar, filling, terminal_putentryat. cbn [terminal_row terminal_column terminal_color].
  rewrite (proj2 (Z.eqb_neq _ _) Hc). change VGA_HEIGHT with 25. change VGA_WIDTH with 80.
  destruct (Z.leb_spec 25 (k / 80)); [lia|]. cbn [mbind option_bind].
  cbn [terminal_row terminal_column terminal_color]. wsmall.
  replace (k / 80 * 80 + k mod 80) with k by lia.
  unfold store. cbn [terminal_buffer]. rewrite (fill_upto_step k _ l) by done.
  cbn [mbind option_bind]. cbn. wsmall. unfold set_row, set_column. cbn.
  destruct (Z.eqb_spec (k mod 80 + 1) 80) as [He|He]; wsmall; do 2 f_equal.
  - apply Z.div_unique with 0; lia.
  - apply Z.mod_unique with (k / 80 + 1); lia.
  - apply Z.div_unique with (k mod 80 + 1); lia.
  - apply Z.mod_unique with (k / 80); lia.
Qed.

Lemma write_filling data k l :
  Forall (fun c => c <> 0 /\ c <> 10) data -> 0 <= k -> k + zlen data <= 2000 ->
  (forall i c, data !! i = Some c -> aget l (k + Z.of_nat i) = Some (vga_entry c 7)) ->
  terminal_write data (filling k l) = Some (filling (k + zlen data) l).
Proof.
  revert k. induction data as [|c data IH]; intros k Hd Hk Hlen Hl.
  { unfold zlen. cbn. by rewrite Z.add_0_r. }
  inversion Hd as [|? ? [H0 H10] Hd']; subst. unfold zlen in *. cbn [length] in *.
  cbn [terminal_write]. rewrite (proj2 (Z.eqb_neq _ _) H0).
  rewrite putchar_filling; [|done|lia|rewrite <- (Hl 0%nat c) by done; f_equal; lia].
  cbn [mbind option_bind]. rewrite IH; [do 2 f_equal; lia|done|lia|lia|].
  intros i x Hx. rewrite <- (Hl (S i) x) by done. f_equal. lia.
Qed.

Lemma wrap16_entry c color : 0 <= c < 128 -> 0 <= color < 256 ->
  vga_entry c color = c + color * 256.
Proof.
  intros. unfold vga_entry. rewrite (wrap_small _ c), (wrap_small _ color) by (pow2; lia).
  rewrite Z.shiftl_mul_pow2 by lia. pow2.
  assert (Z.land c (color * 256) = 0) as Hd.
  { change 256 with (2 ^ 8). rewrite <- Z.shiftl_mul_pow2 by lia.
    apply Z.bits_inj'. intros n Hn. rewrite Z.land_spec, Z.bits_0.
    destruct (Z.lt_ge_cases n 8).
    - rewrite Z.shiftl_spec_low by lia. apply andb_false_r.
    - rewrite <- (wrap_small 8 c) by (pow2; lia). rewrite wrap_testbit by lia.
      destruct (Z.ltb_spec n 8); [lia|]. done. }
  rewrite <- Z.lxor_lor, <- Z.add_nocarry_lxor by done. apply wrap_small. pow2. lia.
Qed.

(** After [terminal_initialize], writing up to 2000 printable characters shows exactly
    these characters in light grey on black, in order from the top left, and the rest of the
    screen blank; every cell holds the character in its low byte and the attribute 7 in its
    high byte. *)
Theorem terminal_shows_what_is_written data t :
  length (terminal_buffer t) = 2000%nat -> zlen data <= 2000 ->
  Forall (fun c => 32 <= c < 127) data ->
  exists t', (t ← terminal_initialize t; terminal_writestring data t) = Some t' /\
    terminal_buffer t' = ((fun c => c + 7 * 256) <$> data)
                           ++ replicate (2000 - length data) (32 + 7 * 256).
Proof.
  intros Hlen Hd Hp. rewrite terminal_initialize_spec by done. cbn [mbind option_bind].
  set (l := (fun c => vga_entry c 7) <$> data).
  change (mk_term _ _ _ _) with (filling 0 l). unfold terminal_writestring.
  rewrite (write_filling data 0 l).
  - eexists. split; [done|]. unfold filling. cbn [terminal_buffer].
    unfold fill_upto. rewrite Z.add_0_l.
    unfold zlen in *. rewrite Nat2Z.id, take_ge by (unfold l; by rewrite length_fmap).
    f_equal.
    + unfold l. apply list_fmap_ext. intros i c Hc%(Forall_lookup_1 _ _ _ _ Hp).
      apply wrap16_entry; lia.
    + rewrite (wrap16_entry 32 7) by lia. apply drop_replicate.
  - eapply Forall_impl; [done|]. cbn. intros c. lia.
  - lia.
  - lia.
  - intros i c Hc. unfold aget, l. zcase; [|lia]. rewrite Z.add_0_l, Nat2Z.id.
    by rewrite list_lookup_fmap, Hc.
Qed.

Lemma terminal_shows_what_is_written_witness :
  exists t', (t ← terminal_initialize blank_term;
              terminal_writestring (chars "Heap initialized") t) = Some t' /\
    terminal_buffer t' = ((fun c => c + 7 * 256) <$> chars "Heap initialized")
                           ++ replicate (2000 - 16) (32 + 7 * 256).
Proof.
  apply (terminal_shows_what_is_written (chars "Heap initialized") blank_term).
  - vm_compute. done.
  - vm_compute. done.
  - repeat constructor; vm_compute; done.
Defined.

Lemma newline_write d t :
  terminal_write (10 :: d) t
  = terminal_write d (set_row (u32 (terminal_row t + 1)) (set_column 0 t)).
Proof. done. Qed.

Lemma newlines_write k t : 0 <= terminal_row t < 2 ^ 32 -> 0 <= k ->
  terminal_row t + k < 2 ^ 32 ->
  terminal_write (replicate (S (Z.to_nat k)) 10) t
  = Some (set_row (u32 (terminal_row t + k + 1)) (set_column 0 t)).
Proof.
  intros Hr Hk. revert t Hr. pattern k. apply natlike_ind; [..|done].
  - intros t _ _. cbn. by rewrite Z.add_0_r.
  - clear k Hk. intros k Hk IH t Hr Hlt. rewrite Z2Nat.inj_succ by lia.
    change (replicate (S (S (Z.to_nat k))) 10) with (10 :: replicate (S (Z.to_nat k)) 10).
    rewrite newline_write, IH; cbn [terminal_row set_row];
      rewrite (wrap_small _ (terminal_row t + 1)) by (pow2; lia); pow2; [|lia..].
    unfold set_row, set_column. cbn. do 3 f_equal. lia.
Qed.

Lemma terminal_write_app d1 d2 t :
  Forall (fun c => c <> 0) d1 ->
  terminal_write (d1 ++ d2) t = (t ← terminal_write d1 t; terminal_write d2 t).
Proof.
  revert t. induction d1 as [|c d1 IH]; intros t H; [done|].
  inversion H; subst. cbn [terminal_write app]. rewrite (proj2 (Z.eqb_neq _ _)) by done.
  destruct (terminal_putchar c t); cbn; [by apply IH|done].
Qed.

(** Scrolling is done once per printed character, never per newline: with the cursor on
    the last row, any number of newlines followed by a character leaves exactly the terminal
    that a single newline followed by it leaves, so blank lines at the bottom are lost. *)
Theorem newlines_at_bottom_scroll_once k c t :
  term_wf t -> terminal_row t = 24 -> 0 <= k < 2 ^ 32 - 26 -> c <> 0 -> c <> 10 ->
  terminal_write (replicate (S (Z.to_nat k)) 10 ++ [c]) t = terminal_write [10; c] t.
Proof.
  intros (Hl & Hc & _) Hr Hk Hc0 Hc10. pow2.
  rewrite terminal_write_app by (apply Forall_replicate; lia).
  rewrite newlines_write by (pow2; lia). change [10; c] with (replicate 1 10 ++ [c]).
  rewrite terminal_write_app by (apply Forall_replicate; lia).
  change 1%nat with (S (Z.to_nat 0)). rewrite newlines_write by (pow2; lia).
  cbn [mbind option_bind terminal_write]. rewrite (proj2 (Z.eqb_neq _ _) Hc0). f_equal.
  unfold terminal_putchar. rewrite (proj2 (Z.eqb_neq _ _) Hc10).
  change VGA_HEIGHT with 25. rewrite Hr. wsmall. cbn [terminal_row set_row].
  destruct (Z.leb_spec 25 (24 + k + 1)); [|lia].
  destruct (Z.leb_spec 25 (24 + 0 + 1)); [|lia]. f_equal.
  rewrite !scroll_up_spec by done. cbn [mbind option_bind].
  rewrite !clear_last_line_spec; [done|..];
    cbn [terminal_buffer set_buffer set_row set_column]; rewrite length_app, !length_drop; lia.
Qed.

Lemma newlines_at_bottom_scroll_once_witness :
  terminal_write [10; 10; 10; 65] blank_term = terminal_write [10; 65] blank_term.
Proof.
  apply (newlines_at_bottom_scroll_once 2 65 blank_term).
  - repeat split; vm_compute; congruence.
  - reflexivity.
  - vm_compute. split; [discriminate|reflexivity].
  - discriminate.
  - discriminate.
Defined.

(** The attribute of a cell is lost for a [char] of 128 and above: such a character is
    negative, its sign extension fills the high byte, and the cell's attribute is 255 whatever
    colour was asked for. *)
Theorem vga_entry_high_char_attribute c color :
  -128 <= c < 0 -> 0 <= color < 256 -> vga_entry c color / 256 = 255.
Proof.
  intros Hc Hcol. unfold vga_entry. rewrite Z.shiftl_mul_pow2 by lia.
  rewrite (wrap_small _ color) by (pow2; lia).
  assert (u16 c = c + 65536) as ->.
  { unfold u16. pow2. symmetry. apply Z.mod_unique with (-1); lia. }
  change 256 with (2 ^ 8) at 1. rewrite <- Z.shiftr_div_pow2 by lia.
  apply Z.bits_inj'. intros n Hn. rewrite Z.shiftr_spec by done.
  rewrite wrap_testbit, Z.lor_spec by lia. change 255 with (Z.ones 8).
  rewrite Z.testbit_ones_nonneg by lia.
  destruct (Z.ltb_spec n 8); destruct (Z.ltb_spec (n + 8) 16); try lia.
  assert (Z.testbit (c + 65536) (n + 8) = true) as ->; [|done].
  rewrite Z.testbit_true by lia.
  assert ((c + 65536) / 256 = 255) as Hd by (symmetry; apply Z.div_unique with (c + 256); lia).
  rewrite Z.pow_add_r by lia. rewrite (Z.mul_comm (2 ^ n)). change (2 ^ 8) with 256.
  rewrite <- Z.div_div, Hd by lia. apply Z.testbit_true; [lia|]. change 255 with (Z.ones 8).
  rewrite Z.testbit_ones_nonneg by lia. zcase; [done|lia].
Qed.

Lemma vga_entry_high_char_attribute_witness : vga_entry (-23) 10 / 256 = 255.
Proof. apply vga_entry_high_char_attribute; lia. Defined.

End Terminal.
