(* ===== verification/FrameAlloc.v ===== *)
(** The contract between the frame allocator and its clients: what
    [alloc_frame] and [free_frame] of src/kernel/memory.c promise about the
    set of used frames, as a type class, and what follows from the contract
    alone for sequences of allocations. *)

From S2P Require Import Prelude.

Class FrameAllocator (S : Type) := {
  fa_ok : S -> Prop;
  fa_cap : S -> Z;
  fa_used : S -> Z -> bool;
  fa_alloc : S -> Z * S;
  fa_free : Z -> S -> S;

  (** Either the least unused frame is taken, or every frame is used and NULL comes back. *)
  fa_alloc_law s : fa_ok s ->
    let '(a, s') := fa_alloc s in
    (exists f, 0 <= f < fa_cap s /\ fa_used s f = false /\
       (forall g, 0 <= g < f -> fa_used s g = true) /\ a = f * 4096 /\
       fa_ok s' /\ fa_cap s' = fa_cap s /\
       (forall g, 0 <= g < fa_cap s -> fa_used s' g = (g =? f) || fa_used s g)) \/
    ((forall g, 0 <= g < fa_cap s -> fa_used s g = true) /\ a = 0 /\ s' = s);

  fa_free_law s f : fa_ok s -> 0 <= f < fa_cap s ->
    fa_ok (fa_free (f * 4096) s) /\ fa_cap (fa_free (f * 4096) s) = fa_cap s /\
    (forall g, 0 <= g < fa_cap s ->
       fa_used (fa_free (f * 4096) s) g = negb (g =? f) && fa_used s g)
}.

Section Clients.
Context {S : Type} `{FrameAllocator S}.
Implicit Types s : S.

(** The unused frames, in order. *)
Definition unused (s : S) : list Z :=
  filter (fun f => fa_used s f = false) (seqZ 0 (fa_cap s)).

(** [n] successive allocations and the addresses they return. *)
Fixpoint allocs (n : nat) (s : S) : list Z * S :=
  match n with
  | O => ([], s)
  | Datatypes.S n' =>
      let '(a, s) := fa_alloc s in
      let '(l, s) := allocs n' s in (a :: l, s)
  end.

Lemma elem_unused s f : f ∈ unused s <-> 0 <= f < fa_cap s /\ fa_used s f = false.
Proof. unfold unused. rewrite list_elem_of_filter, elem_of_seqZ, Z.add_0_l. tauto. Qed.

Lemma filter_least (P : Z -> bool) f lo hi :
  lo <= f < hi -> P f = false -> (forall g, lo <= g < f -> P g = true) ->
  filter (fun x => P x = false) (seqZ lo (hi - lo))
  = f :: filter (fun x => P x = false) (seqZ (f + 1) (hi - (f + 1))).
Proof.
  intros Hf HP Hlt.
  replace (hi - lo) with ((f - lo) + (1 + (hi - (f + 1)))) by lia.
  rewrite seqZ_app, filter_app by lia.
  rewrite (filter_none _ (seqZ _ _)).
  2:{ intros x Hx%elem_of_seqZ. rewrite Hlt by lia. done. }
  replace (lo + (f - lo)) with f by lia. rewrite seqZ_app by lia.
  change (seqZ f 1) with [Z.of_nat 0 + f]. cbn [app].
  rewrite Z.add_0_l, filter_cons_True by done. done.
Qed.

(** The first allocation takes the head of the unused frames. *)
Lemma alloc_unused s f l : fa_ok s -> unused s = f :: l ->
  exists s', fa_alloc s = (f * 4096, s') /\ fa_ok s' /\ fa_cap s' = fa_cap s /\ unused s' = l.
Proof.
  intros Hok Hu. pose proof (fa_alloc_law s Hok) as Hlaw.
  destruct (fa_alloc s) as [a s'].
  destruct Hlaw as [(f' & Hf & Hu0 & Hlt & -> & Hok' & Hcap & Hused)|(Hall & _ & _)].
  - unfold unused in Hu.
    replace (fa_cap s) with (fa_cap s - 0) in Hu by lia.
    rewrite (filter_least _ f') in Hu by (done || lia). injection Hu as <- <-.
    exists s'. do 3 (split; [done|]). unfold unused. rewrite Hcap.
    replace (fa_cap s) with ((f' + 1) + (fa_cap s - (f' + 1))) at 1 by lia.
    rewrite seqZ_app, filter_app by lia.
    rewrite (filter_none _ (seqZ 0 (f' + 1))).
    2:{ intros x Hx%elem_of_seqZ. rewrite Hused by lia.
        destruct (Z.eqb_spec x f'); [done|]. rewrite Hlt by lia. done. }
    apply filter_ext_in. intros x Hx%elem_of_seqZ. rewrite Hused by lia.
    destruct (Z.eqb_spec x f'); [lia|]. done.
  - assert (f ∈ unused s) as Hin by (rewrite Hu; constructor).
    apply elem_unused in Hin as [Hr Hf]. rewrite Hall in Hf by done. done.
Qed.

(** [n] allocations take the first [n] unused frames, in increasing order. *)
Lemma allocs_unused n s : fa_ok s -> (n <= length (unused s))%nat ->
  (allocs n s).1 = (fun f => f * 4096) <$> take n (unused s) /\
  unused (allocs n s).2 = drop n (unused s) /\ fa_ok (allocs n s).2.
Proof.
  revert s. induction n as [|n IH]; intros s Hok Hn; [done|].
  destruct (unused s) as [|f l] eqn:Hu; [cbn in Hn; lia|].
  destruct (alloc_unused s f l Hok Hu) as (s' & Ha & Hok' & _ & Hl).
  cbn [allocs]. rewrite Ha. specialize (IH s' Hok').
  rewrite Hl in IH. cbn [length] in Hn. specialize (IH ltac:(lia)).
  destruct (allocs n s') as [l' s'']. cbn in *. destruct IH as (-> & -> & ?). done.
Qed.

Lemma NoDup_unused s : NoDup (unused s).
Proof. apply NoDup_filter, NoDup_seqZ. Qed.
End Clients.
