(* ===== verification/Memory.v ===== *)
(** Memory management of the kernel: src/kernel/memory.c and src/kernel/memory.h.

    Physical memory is a map from 4-byte aligned byte addresses to 32-bit
    words; the frame bitmap and the page tables live in it, at the addresses
    the code computes, so they alias when the addresses do.  The statically
    allocated [kernel_directory] is kept beside it, at an address the linker
    chooses (a section variable).  Pointers and [size_t] are 32 bits wide. *)

From S2P Require Import Prelude FrameAlloc.

Module Memory.

Definition PAGE_SIZE : Z := 4096.
Definition PAGE_ALIGN (addr : Z) : Z :=
  Z.land (u32 (addr + PAGE_SIZE - 1)) (u32 (Z.lnot (PAGE_SIZE - 1))).
Definition KERNEL_MEMORY_START : Z := 0x100000.
Definition KERNEL_MEMORY_END : Z := 0x200000.
Definition HEAP_MEMORY_START : Z := 0x200000.
Definition HEAP_MEMORY_END : Z := 0x400000.

(** [page_directory_t]: table pointers, their physical entries, reference counts. *)
Record page_directory := mk_dir {
  tables : list Z;
  tables_physical : list Z;
  refcount : list Z
}.

Record vmm := mk_vmm {
  mem : gmap Z Z;
  kernel_directory : page_directory;
  current_directory : Z;
  frames : Z;
  n_frames : Z;
  heap_start : Z;
  heap_end : Z;
  heap_position : Z;
  cr0 : Z;
  cr3 : Z
}.

(** A word of memory that was never written reads as 0: the initial contents are arbitrary. *)
Definition rd (a : Z) (m : gmap Z Z) : Z := default 0 (m !! a).
Definition wr (a v : Z) (m : gmap Z Z) : gmap Z Z := <[a := v]> m.

Definition set_mem (m : gmap Z Z) (s : vmm) : vmm :=
  mk_vmm m (kernel_directory s) (current_directory s) (frames s) (n_frames s)
    (heap_start s) (heap_end s) (heap_position s) (cr0 s) (cr3 s).
Definition set_dir (d : page_directory) (s : vmm) : vmm :=
  mk_vmm (mem s) d (current_directory s) (frames s) (n_frames s)
    (heap_start s) (heap_end s) (heap_position s) (cr0 s) (cr3 s).
Definition set_bitmap (f n : Z) (s : vmm) : vmm :=
  mk_vmm (mem s) (kernel_directory s) (current_directory s) f n
    (heap_start s) (heap_end s) (heap_position s) (cr0 s) (cr3 s).
Definition set_heap (a b p : Z) (s : vmm) : vmm :=
  mk_vmm (mem s) (kernel_directory s) (current_directory s) (frames s) (n_frames s)
    a b p (cr0 s) (cr3 s).

(** ** The frame bitmap *)

Definition INDEX_FROM_BIT (b : Z) : Z := b / 32.
Definition OFFSET_FROM_BIT (b : Z) : Z := b mod 32.

(** The address of [frames[idx]]. *)
Definition word_at (s : vmm) (idx : Z) : Z := u32 (frames s + 4 * idx).

Definition set_frame (frame_addr : Z) (s : vmm) : vmm :=
  let frame := frame_addr / PAGE_SIZE in
  let idx := INDEX_FROM_BIT frame in
  let off := OFFSET_FROM_BIT frame in
  let a := word_at s idx in
  set_mem (wr a (u32 (Z.lor (rd a (mem s)) (Z.shiftl 1 off))) (mem s)) s.

Definition clear_frame (frame_addr : Z) (s : vmm) : vmm :=
  let frame := frame_addr / PAGE_SIZE in
  let idx := INDEX_FROM_BIT frame in
  let off := OFFSET_FROM_BIT frame in
  let a := word_at s idx in
  set_mem (wr a (u32 (Z.land (rd a (mem s)) (Z.lnot (Z.shiftl 1 off)))) (mem s)) s.

Definition test_frame (frame_addr : Z) (s : vmm) : Z :=
  let frame := frame_addr / PAGE_SIZE in
  let idx := INDEX_FROM_BIT frame in
  let off := OFFSET_FROM_BIT frame in
  u32 (Z.land (rd (word_at s idx) (mem s)) (Z.shiftl 1 off)).

(** The inner loop of [first_free_frame]: the first clear bit at or after [j]. *)
Fixpoint first_clear_bit (n : nat) (j w : Z) : option Z :=
  match n with
  | O => None
  | S n' =>
      let test_bit := u32 (Z.shiftl 1 j) in
      if Z.land w test_bit =? 0 then Some j else first_clear_bit n' (j + 1) w
  end.

(** The outer loop, over the words from [i]. *)
Fixpoint first_free_word (n : nat) (i : Z) (s : vmm) : Z :=
  match n with
  | O => u32 (-1)
  | S n' =>
      let w := rd (word_at s i) (mem s) in
      if negb (w =? 0xFFFFFFFF) then
        match first_clear_bit 32 0 w with
        | Some j => u32 (i * 32 + j)
        | None => first_free_word n' (i + 1) s
        end
      else first_free_word n' (i + 1) s
  end.

Definition first_free_frame (s : vmm) : Z :=
  first_free_word (Z.to_nat (INDEX_FROM_BIT (n_frames s))) 0 s.

(** Returns the address; 0 is NULL. *)
Definition alloc_frame (s : vmm) : Z * vmm :=
  let frame_index := first_free_frame s in
  if frame_index =? u32 (-1) then (0, s)
  else (u32 (frame_index * PAGE_SIZE), set_frame (u32 (frame_index * PAGE_SIZE)) s).

Definition free_frame (frame_addr : Z) (s : vmm) : vmm := clear_frame frame_addr s.

(** ** Page tables *)

(** Assigning [v] to the bit-field of [len] bits at bit [lo] of a word. *)
Definition bf_set (lo len v w : Z) : Z :=
  Z.lor (Z.land w (Z.lnot (Z.shiftl (Z.ones len) lo)))
        (Z.shiftl (Z.land v (Z.ones len)) lo).

(** The fields of [page_entry_t], first declared in the lowest bits. *)
Definition set_present := bf_set 0 1.
Definition set_rw := bf_set 1 1.
Definition set_user := bf_set 2 1.
Definition set_pwt := bf_set 3 1.
Definition set_pcd := bf_set 4 1.
Definition set_accessed := bf_set 5 1.
Definition set_dirty := bf_set 6 1.
Definition set_pat := bf_set 7 1.
Definition set_global := bf_set 8 1.
Definition set_avail := bf_set 9 3.
Definition set_pframe := bf_set 12 20.

(** The body of the clearing loop: eleven bit-field assignments, in order. *)
Definition cleared_entry (w : Z) : Z :=
  set_avail 0 (set_global 0 (set_pat 0 (set_dirty 0 (set_accessed 0
    (set_pcd 0 (set_pwt 0 (set_user 0 (set_rw 1 (set_present 0 (set_pframe 0 w)))))))))).

Definition clear_table (new_table : Z) (m : gmap Z Z) : option (gmap Z Z) :=
  for_range 0 1024 (fun i m =>
    let a := u32 (new_table + 4 * i) in
    Some (wr a (cleared_entry (rd a m)) m)) m.

Definition mapped_entry (phys flags w : Z) : Z :=
  set_pcd (if Z.land flags 0x10 =? 0 then 0 else 1)
    (set_pwt (if Z.land flags 0x08 =? 0 then 0 else 1)
      (set_user (if Z.land flags 0x04 =? 0 then 0 else 1)
        (set_rw (if Z.land flags 0x02 =? 0 then 0 else 1)
          (set_present 1 (set_pframe (phys / PAGE_SIZE) w))))).

(** [map_page] on the kernel directory, the only one the code creates. *)
Definition map_page (virt phys flags : Z) (s : vmm) : option vmm :=
  let page_index := virt / PAGE_SIZE in
  let table_index := page_index / 1024 in
  t ← aget (tables (kernel_directory s)) table_index;
  s ← (if t =? 0 then
         let '(new_table, s) := alloc_frame s in
         let d := kernel_directory s in
         tb ← aset (tables d) table_index new_table;
         tp ← aset (tables_physical d) table_index
                (Z.lor (Z.lor new_table flags) 0x01);
         let s := set_dir (mk_dir tb tp (refcount d)) s in
         m ← clear_table new_table (mem s);
         Some (set_mem m s)
       else Some s);
  t ← aget (tables (kernel_directory s)) table_index;
  let a := u32 (t + 4 * (page_index mod 1024)) in
  Some (set_mem (wr a (mapped_entry phys flags (rd a (mem s))) (mem s)) s).

(** [offsetof (page_directory_t, tables_physical)]: 1024 pointers of 4 bytes. *)
Definition switch_directory (dir : Z) (s : vmm) : vmm :=
  mk_vmm (mem s) (kernel_directory s) dir (frames s) (n_frames s)
    (heap_start s) (heap_end s) (heap_position s) (cr0 s) (u32 (dir + 4096)).

Definition get_current_directory (s : vmm) : Z := current_directory s.

Definition enable_paging (s : vmm) : vmm :=
  mk_vmm (mem s) (kernel_directory s) (current_directory s) (frames s) (n_frames s)
    (heap_start s) (heap_end s) (heap_position s) (Z.lor (cr0 s) 0x80000000) (cr3 s).

Definition set_current (dir : Z) (s : vmm) : vmm :=
  mk_vmm (mem s) (kernel_directory s) dir (frames s) (n_frames s)
    (heap_start s) (heap_end s) (heap_position s) (cr0 s) (cr3 s).

Definition clear_bitmap (s : vmm) : option vmm :=
  for_range 0 (INDEX_FROM_BIT (n_frames s)) (fun i s =>
    Some (set_mem (wr (word_at s i) 0 (mem s)) s)) s.

Definition clear_directory (s : vmm) : option vmm :=
  for_range 0 1024 (fun i s =>
    let d := kernel_directory s in
    tb ← aset (tables d) i 0;
    tp ← aset (tables_physical d) i 0;
    rc ← aset (refcount d) i 0;
    Some (set_dir (mk_dir tb tp rc) s)) s.

Definition identity_map (s : vmm) : option vmm :=
  for_range 0 1024 (fun i s =>
    let frame := u32 (i * PAGE_SIZE) in
    map_page frame frame 0x03 s) s.

Definition paging_init (kdir_addr : Z) (s : vmm) : option vmm :=
  let mem_end_page := 0x10000000 in
  let s := set_bitmap 0x100000 (mem_end_page / PAGE_SIZE) s in
  s ← clear_bitmap s;
  s ← clear_directory s;
  s ← identity_map s;
  let s := switch_directory kdir_addr (set_current kdir_addr s) in
  Some (enable_paging s).

(** ** The bump heap *)

Definition heap_init (s : vmm) : vmm :=
  set_heap HEAP_MEMORY_START HEAP_MEMORY_END HEAP_MEMORY_START s.

Definition kmalloc (size : Z) (s : vmm) : Z * vmm :=
  let size := Z.land (u32 (size + 7)) (u32 (Z.lnot 7)) in
  if heap_end s <? u32 (heap_position s + size) then (0, s)
  else (heap_position s,
        set_heap (heap_start s) (heap_end s) (u32 (heap_position s + size)) s).

Definition kfree (ptr : Z) (s : vmm) : vmm := s.

(** ** What the hardware does with the tables (two-level x86 translation) *)

Definition translate (s : vmm) (v : Z) : option Z :=
  pde ← aget (tables_physical (kernel_directory s)) (v / 0x400000);
  if Z.testbit pde 0 then
    let pte := rd ((pde / 4096) * 4096 + 4 * (v / 4096 mod 1024)) (mem s) in
    if Z.testbit pte 0 then Some ((pte / 4096) * 4096 + v mod 4096) else None
  else None.

(** ** The bitmap as a set of used frames *)

Definition frame_used (s : vmm) (f : Z) : bool :=
  Z.testbit (rd (word_at s (f / 32)) (mem s)) (f mod 32).

(** How many frames the bitmap words cover. *)
Definition bitmap_cap (s : vmm) : Z := 32 * (n_frames s / 32).

Record bitmap_ok (s : vmm) : Prop := mk_bitmap_ok {
  bo_frames : 0 <= frames s;
  bo_n : 0 <= n_frames s <= 2 ^ 20;
  bo_fits : frames s + 4 * (n_frames s / 32) <= 2 ^ 32;
  bo_words : forall i, 0 <= i < n_frames s / 32 -> is_u 32 (rd (word_at s i) (mem s))
}.

Lemma rd_wr a b v m : rd a (wr b v m) = if a =? b then v else rd a m.
Proof.
  unfold rd, wr. destruct (Z.eqb_spec a b) as [->|Hne].
  - by rewrite lookup_insert_eq.
  - by rewrite lookup_insert_ne.
Qed.

Lemma word_at_val s i : bitmap_ok s -> 0 <= i < n_frames s / 32 ->
  word_at s i = frames s + 4 * i.
Proof. intros [Hf Hn Hfit _] Hi. unfold word_at. apply wrap_small. lia. Qed.

Lemma pow2_testbit_land w j : 0 <= j -> (Z.land w (2 ^ j) =? 0) = negb (Z.testbit w j).
Proof.
  intros Hj. destruct (Z.testbit w j) eqn:E; cbn.
  - apply Z.eqb_neq. intros H0.
    assert (Z.testbit (Z.land w (2 ^ j)) j = true) as Ht.
    { rewrite Z.land_spec, E, Z.pow2_bits_true by done. done. }
    by rewrite H0, Z.bits_0 in Ht.
  - apply Z.eqb_eq. apply Z.bits_inj'. intros n Hn. rewrite Z.land_spec, Z.bits_0.
    destruct (Z.eq_dec n j) as [->|Hne]; [by rewrite E|].
    rewrite Z.pow2_bits_false by done. apply andb_false_r.
Qed.

Lemma bit_mask j : 0 <= j < 32 -> u32 (Z.shiftl 1 j) = 2 ^ j.
Proof.
  intros. rewrite Z.shiftl_1_l. apply wrap_small.
  split; [lia|]. apply Z.pow_lt_mono_r; lia.
Qed.

Lemma first_clear_bit_spec n j w : 0 <= j -> j + Z.of_nat n <= 32 ->
  match first_clear_bit n j w with
  | Some k => j <= k < j + Z.of_nat n /\ Z.testbit w k = false /\
              forall i, j <= i < k -> Z.testbit w i = true
  | None => forall i, j <= i < j + Z.of_nat n -> Z.testbit w i = true
  end.
Proof.
  revert j. induction n as [|n IH]; intros j Hj Hn; cbn [first_clear_bit].
  { intros i Hi. lia. }
  rewrite bit_mask, pow2_testbit_land by lia.
  destruct (Z.testbit w j) eqn:E; cbn [negb].
  - specialize (IH (j + 1) ltac:(lia) ltac:(lia)).
    destruct (first_clear_bit n (j + 1) w) as [k|].
    + destruct IH as (Hk & Hc & Hb). repeat split; [lia|lia|done|].
      intros i Hi. destruct (Z.eq_dec i j) as [->|]; [done|]. apply Hb. lia.
    + intros i Hi. destruct (Z.eq_dec i j) as [->|]; [done|]. apply IH. lia.
  - repeat split; [lia|lia|done|]. intros i Hi. lia.
Qed.

Lemma divmod32 q r : 0 <= r < 32 -> (q * 32 + r) / 32 = q /\ (q * 32 + r) mod 32 = r.
Proof.
  intros. split.
  - symmetry. apply Z.div_unique with r; lia.
  - symmetry. apply Z.mod_unique with q; lia.
Qed.

Lemma div32_split f : 0 <= f ->
  exists q r, f = q * 32 + r /\ 0 <= r < 32 /\ 0 <= q /\
    f / 32 = q /\ f mod 32 = r.
Proof.
  intros. exists (f / 32), (f mod 32). pose proof (Z.div_mod f 32 ltac:(lia)).
  pose proof (Z.mod_pos_bound f 32 ltac:(lia)). pose proof (Z.div_pos f 32 ltac:(lia) ltac:(lia)).
  repeat split; lia.
Qed.

(** The word loop returns the least unused frame at or after word [i]. *)
Lemma first_free_word_spec n i s : bitmap_ok s -> 0 <= i ->
  i + Z.of_nat n = n_frames s / 32 ->
  (exists f, first_free_word n i s = f /\ i * 32 <= f < bitmap_cap s /\
     frame_used s f = false /\ forall g, i * 32 <= g < f -> frame_used s g = true) \/
  (first_free_word n i s = 2 ^ 32 - 1 /\
     forall g, i * 32 <= g < bitmap_cap s -> frame_used s g = true).
Proof.
  intros Hok. revert i. induction n as [|n IH]; intros i Hi Hn; cbn [first_free_word].
  { right. split; [done|]. intros g Hg. unfold bitmap_cap in Hg. lia. }
  set (w := rd (word_at s i) (mem s)).
  pose proof (first_clear_bit_spec 32 0 w ltac:(lia) ltac:(lia)) as Hbit.
  assert (is_u 32 w) as Hw by (apply (bo_words s Hok); lia).
  assert (forall r, 0 <= r < 32 -> frame_used s (i * 32 + r) = Z.testbit w r) as Hu.
  { intros r Hr. unfold frame_used. destruct (divmod32 i r Hr) as [-> ->]. done. }
  assert ((forall r, 0 <= r < 32 -> Z.testbit w r = true) ->
    (exists f, first_free_word n (i + 1) s = f /\ i * 32 <= f < bitmap_cap s /\
       frame_used s f = false /\ forall g, i * 32 <= g < f -> frame_used s g = true) \/
    (first_free_word n (i + 1) s = 2 ^ 32 - 1 /\
       forall g, i * 32 <= g < bitmap_cap s -> frame_used s g = true)) as Hnext.
  { intros Hall. assert (forall g, i * 32 <= g < (i + 1) * 32 -> frame_used s g = true) as Hfull.
    { intros g Hg. replace g with (i * 32 + (g - i * 32)) by lia. rewrite Hu by lia.
      apply Hall. lia. }
    destruct (IH (i + 1)) as [(f & Hf & Hr & Hf0 & Hlt)|[Hf Hlt]]; [lia|lia| |].
    - left. exists f. repeat split; [done|lia|lia|done|].
      intros g Hg. destruct (Z.lt_ge_cases g ((i + 1) * 32)); [apply Hfull|apply Hlt]; lia.
    - right. split; [done|]. intros g Hg.
      destruct (Z.lt_ge_cases g ((i + 1) * 32)); [apply Hfull|apply Hlt]; lia. }
  destruct (Z.eqb_spec w 0xFFFFFFFF) as [E|E]; cbn [negb].
  { apply Hnext. intros r Hr. rewrite E. change 0xFFFFFFFF with (Z.ones 32).
    rewrite Z.testbit_ones_nonneg by lia. apply Z.ltb_lt. lia. }
  destruct (first_clear_bit 32 0 w) as [k|].
  - destruct Hbit as (Hk & Hc & Hb). left. exists (i * 32 + k).
    pose proof (bo_n s Hok). pose proof (Z.div_le_upper_bound (n_frames s) 32 (2 ^ 15)).
    repeat split; try (unfold bitmap_cap; lia).
    + apply wrap_small. lia.
    + by rewrite Hu.
    + intros g Hg. replace g with (i * 32 + (g - i * 32)) by lia. rewrite Hu by lia. apply Hb. lia.
  - apply Hnext, Hbit.
Qed.

Lemma word_update_used s f (F : Z -> Z -> Z) (B : bool -> bool) :
  bitmap_ok s -> 0 <= f < bitmap_cap s ->
  (forall w, is_u 32 w -> forall r, 0 <= r < 32 ->
     Z.testbit (F w (f mod 32)) r = if r =? f mod 32 then B (Z.testbit w r) else Z.testbit w r) ->
  (forall w, is_u 32 (F w (f mod 32))) ->
  let a := word_at s (f / 32) in
  let s' := set_mem (wr a (F (rd a (mem s)) (f mod 32)) (mem s)) s in
  bitmap_ok s' /\
  forall g, 0 <= g < bitmap_cap s ->
    frame_used s' g = if g =? f then B (frame_used s f) else frame_used s g.
Proof.
  intros Hok Hf HF Hu. cbn zeta. unfold bitmap_cap in Hf.
  destruct (div32_split f) as (q & r & -> & Hr & Hq & Hd & Hm); [lia|].
  rewrite Hd, Hm in *. assert (q < n_frames s / 32) by lia.
  pose proof Hok as [H1 H2 H3 H4]. split.
  - constructor; cbn; try done. intros i Hi. unfold word_at. cbn.
    change (u32 (frames s + 4 * i)) with (word_at s i).
    change (u32 (frames s + 4 * q)) with (word_at s q). rewrite rd_wr.
    destruct (_ =? _); [done|by apply H4].
  - intros g Hg. unfold bitmap_cap in Hg.
    destruct (div32_split g) as (q' & r' & -> & Hr' & Hq' & Hd' & Hm'); [lia|].
    unfold frame_used. rewrite Hd, Hm, Hd', Hm'. cbn.
    change (word_at (set_mem ?m s) q') with (word_at s q'). rewrite rd_wr.
    rewrite !word_at_val by (done || lia).
    destruct (Z.eqb_spec (frames s + 4 * q') (frames s + 4 * q)) as [He|He].
    + assert (q' = q) as -> by lia. rewrite HF by (done || (rewrite <- word_at_val by (done || lia); apply H4; lia)).
      destruct (Z.eqb_spec r' r) as [Hrr|Hrr];
        destruct (Z.eqb_spec (q * 32 + r') (q * 32 + r)); try lia; [by rewrite Hrr|done].
    + destruct (Z.eqb_spec (q' * 32 + r') (q * 32 + r)); [lia|done].
Qed.

Lemma or_bit_bits w b r : is_u 32 w -> 0 <= b < 32 -> 0 <= r < 32 ->
  Z.testbit (u32 (Z.lor w (Z.shiftl 1 b))) r
  = if r =? b then (fun _ => true) (Z.testbit w r) else Z.testbit w r.
Proof.
  intros _ Hb Hr. rewrite wrap_testbit, Z.lor_spec, Z.shiftl_1_l by lia.
  destruct (Z.ltb_spec r 32); [|lia]. cbn [andb].
  destruct (Z.eqb_spec r b) as [->|].
  - rewrite Z.pow2_bits_true by lia. apply orb_true_r.
  - rewrite Z.pow2_bits_false by done. apply orb_false_r.
Qed.

Lemma andn_bit_bits w b r : is_u 32 w -> 0 <= b < 32 -> 0 <= r < 32 ->
  Z.testbit (u32 (Z.land w (Z.lnot (Z.shiftl 1 b)))) r
  = if r =? b then (fun _ => false) (Z.testbit w r) else Z.testbit w r.
Proof.
  intros _ Hb Hr. rewrite wrap_testbit, Z.land_spec, Z.lnot_spec, Z.shiftl_1_l by lia.
  destruct (Z.ltb_spec r 32); [|lia]. cbn [andb].
  destruct (Z.eqb_spec r b) as [->|].
  - rewrite Z.pow2_bits_true by lia. apply andb_false_r.
  - rewrite Z.pow2_bits_false by done. apply andb_true_r.
Qed.

Lemma frame_of_addr f : f * PAGE_SIZE / PAGE_SIZE = f.
Proof. apply Z.div_mul. done. Qed.

Lemma set_frame_spec s f : bitmap_ok s -> 0 <= f < bitmap_cap s ->
  bitmap_ok (set_frame (f * PAGE_SIZE) s) /\
  forall g, 0 <= g < bitmap_cap s ->
    frame_used (set_frame (f * PAGE_SIZE) s) g = (g =? f) || frame_used s g.
Proof.
  intros Hok Hf. unfold set_frame, INDEX_FROM_BIT, OFFSET_FROM_BIT. rewrite frame_of_addr.
  destruct (word_update_used s f (fun w b => u32 (Z.lor w (Z.shiftl 1 b))) (fun _ => true)
    Hok Hf) as [H1 H2].
  - intros w Hw r Hr. apply or_bit_bits; auto. apply Z.mod_pos_bound. lia.
  - intros w. by apply wrap_range.
  - split; [exact H1|]. intros g Hg. rewrite (H2 g Hg). by destruct (g =? f).
Qed.

Lemma clear_frame_spec s f : bitmap_ok s -> 0 <= f < bitmap_cap s ->
  bitmap_ok (clear_frame (f * PAGE_SIZE) s) /\
  forall g, 0 <= g < bitmap_cap s ->
    frame_used (clear_frame (f * PAGE_SIZE) s) g = negb (g =? f) && frame_used s g.
Proof.
  intros Hok Hf. unfold clear_frame, INDEX_FROM_BIT, OFFSET_FROM_BIT. rewrite frame_of_addr.
  destruct (word_update_used s f (fun w b => u32 (Z.land w (Z.lnot (Z.shiftl 1 b)))) (fun _ => false)
    Hok Hf) as [H1 H2].
  - intros w Hw r Hr. apply andn_bit_bits; auto. apply Z.mod_pos_bound. lia.
  - intros w. by apply wrap_range.
  - split; [exact H1|]. intros g Hg. rewrite (H2 g Hg). by destruct (g =? f).
Qed.

Lemma bitmap_cap_bound s : bitmap_ok s -> 0 <= bitmap_cap s <= 2 ^ 20.
Proof.
  intros [_ Hn _ _]. unfold bitmap_cap.
  pose proof (Z.div_mod (n_frames s) 32 ltac:(lia)).
  pose proof (Z.mod_pos_bound (n_frames s) 32 ltac:(lia)).
  pose proof (Z.div_pos (n_frames s) 32 ltac:(lia) ltac:(lia)). lia.
Qed.

(** The bitmap allocator keeps the contract of [FrameAlloc]. *)
#[export, refine] Instance bitmap_allocator : FrameAllocator vmm := {
  fa_ok := bitmap_ok;
  fa_cap := bitmap_cap;
  fa_used := frame_used;
  fa_alloc := alloc_frame;
  fa_free := free_frame
}.
Proof.
  - intros s Hok. unfold alloc_frame, first_free_frame.
    change (u32 (-1)) with (2 ^ 32 - 1). pose proof (bitmap_cap_bound s Hok) as Hc.
    assert (0 <= n_frames s / 32) by (unfold bitmap_cap in Hc; lia).
    destruct (first_free_word_spec (Z.to_nat (INDEX_FROM_BIT (n_frames s))) 0 s)
      as [(f & -> & Hf & Hu & Hlt)|[-> Hall]]; [done|lia|unfold INDEX_FROM_BIT; lia| |].
    + destruct (Z.eqb_spec f (2 ^ 32 - 1)); [lia|].
      rewrite wrap_small by (unfold PAGE_SIZE; lia).
      destruct (set_frame_spec s f Hok ltac:(lia)) as [Hok' Hused].
      left. exists f. split; [lia|]. do 2 (split; [done|]).
      by do 3 (split; [done|]).
    + rewrite Z.eqb_refl. right. done.
  - intros s f Hok Hf. destruct (clear_frame_spec s f Hok Hf) as [Hok' Hused].
    by do 2 (split; [done|]).
Defined.

(** ** Page table entries *)

Lemma bf_set_testbit lo len v w n : 0 <= lo -> 0 <= len -> 0 <= n ->
  Z.testbit (bf_set lo len v w) n
  = if (lo <=? n) && (n <? lo + len) then Z.testbit v (n - lo) else Z.testbit w n.
Proof.
  intros Hlo Hlen Hn. unfold bf_set.
  rewrite Z.lor_spec, Z.land_spec, Z.lnot_spec, !Z.shiftl_spec by done.
  destruct (Z.leb_spec lo n); cbn [andb].
  - rewrite Z.land_spec, !Z.testbit_ones_nonneg by lia.
    destruct (Z.ltb_spec (n - lo) len); destruct (Z.ltb_spec n (lo + len)); try lia; cbn.
    + by rewrite !andb_false_r, andb_true_r.
    + by rewrite andb_true_r, andb_false_r, orb_false_r.
  - rewrite !(Z.testbit_neg_r _ (n - lo)) by lia. cbn.
    by rewrite andb_true_r, orb_false_r.
Qed.

Ltac entry_bits :=
  unfold set_avail, set_global, set_pat, set_dirty, set_accessed, set_pcd, set_pwt,
    set_user, set_rw, set_present, set_pframe;
  repeat (rewrite bf_set_testbit by lia).

Lemma high_bits w n : is_u 32 w -> 32 <= n -> Z.testbit w n = false.
Proof.
  intros Hw Hn. rewrite <- (wrap_small 32 w) by done. rewrite wrap_testbit by lia.
  zcase; [lia|done].
Qed.

Lemma cleared_entry_val w : is_u 32 w -> cleared_entry w = 2.
Proof.
  intros Hw. apply Z.bits_inj'. intros n Hn. change 2 with (2 ^ 1).
  rewrite Z.pow2_bits_eqb by lia. unfold cleared_entry. entry_bits.
  destruct (Z.lt_ge_cases n 12) as [Hlt|Hge].
  - assert (11 = n \/ 10 = n \/ 9 = n \/ 8 = n \/ 7 = n \/ 6 = n \/ 5 = n \/ 4 = n \/
      3 = n \/ 2 = n \/ 1 = n \/ 0 = n) as Hcases by lia.
    by repeat destruct Hcases as [<-|Hcases]; subst.
  - zres. destruct (Z.ltb_spec n (12 + 20)); zres; [apply Z.bits_0|by apply high_bits].
Qed.

(** A mapped entry is present and holds the frame number, whatever it held before. *)
Lemma mapped_entry_present phys flags w : Z.testbit (mapped_entry phys flags w) 0 = true.
Proof. unfold mapped_entry. entry_bits. done. Qed.

Lemma mapped_entry_rw phys flags w :
  Z.testbit (mapped_entry phys flags w) 1 = negb (Z.land flags 2 =? 0).
Proof. unfold mapped_entry. entry_bits. cbn. by destruct (Z.land flags 2 =? 0). Qed.

Lemma mapped_entry_frame f flags w : is_u 32 w -> 0 <= f < 2 ^ 20 ->
  mapped_entry (f * PAGE_SIZE) flags w / 4096 = f.
Proof.
  intros Hw Hf. change 4096 with (2 ^ 12). rewrite <- Z.shiftr_div_pow2 by lia.
  apply Z.bits_inj'. intros n Hn. rewrite Z.shiftr_spec by done.
  unfold mapped_entry. rewrite frame_of_addr. entry_bits.
  destruct (Z.ltb_spec (n + 12) (12 + 20)).
  - zres. f_equal. lia.
  - zres. rewrite (high_bits w) by (done || lia).
    rewrite <- (wrap_small 20 f) by lia. rewrite wrap_testbit by lia. by zres.
Qed.

Lemma is_u_bf_set lo len v w : 0 <= lo -> 0 <= len -> lo + len <= 32 ->
  is_u 32 w -> is_u 32 (bf_set lo len v w).
Proof.
  intros Hlo Hlen Hle Hw. unfold is_u.
  replace (bf_set lo len v w) with (wrap 32 (bf_set lo len v w)); [by apply wrap_range|].
  apply Z.bits_inj'. intros n Hn. rewrite wrap_testbit, bf_set_testbit by lia.
  destruct (Z.ltb_spec n 32); [done|]. cbn. symmetry.
  zcase; try lia; by apply high_bits.
Qed.

Lemma is_u_mapped phys flags w : is_u 32 w -> is_u 32 (mapped_entry phys flags w).
Proof.
  intros Hw. unfold mapped_entry, set_pcd, set_pwt, set_user, set_rw, set_present, set_pframe.
  repeat (apply is_u_bf_set; [lia..|]). done.
Qed.

(** ** Memory of 32-bit words *)

Definition mem_wf (m : gmap Z Z) : Prop := map_Forall (fun _ v => is_u 32 v) m.

Lemma rd_u a m : mem_wf m -> is_u 32 (rd a m).
Proof.
  intros Hm. unfold rd. destruct (m !! a) as [v|] eqn:E; cbn; [|done].
  exact (Hm _ _ E).
Qed.

Lemma wr_wf a v m : is_u 32 v -> mem_wf m -> mem_wf (wr a v m).
Proof. intros Hv Hm. unfold wr. by apply map_Forall_insert_2. Qed.

#[local] Hint Resolve rd_u wr_wf is_u_mapped : vvb.

Lemma clear_table_spec nt m : 0 <= nt -> nt + 4096 <= 2 ^ 32 -> mem_wf m ->
  exists m', clear_table nt m = Some m' /\ mem_wf m' /\
    (forall i, 0 <= i < 1024 -> rd (nt + 4 * i) m' = 2) /\
    (forall a, ~ (nt <= a < nt + 4096) -> rd a m' = rd a m).
Proof.
  intros Hnt Hfit Hm.
  destruct (for_range_inv (fun j m' => mem_wf m' /\
      (forall i, 0 <= i < j -> rd (nt + 4 * i) m' = 2) /\
      (forall a, ~ (nt <= a < nt + 4 * j) -> rd a m' = rd a m)) 0 1024
    (fun i m => let a := u32 (nt + 4 * i) in Some (wr a (cleared_entry (rd a m)) m)) m)
    as (m' & Hm' & Hwf & Hin & Hout); [lia| | |].
  - intros j t Hj (Hwf & Hin & Hout). eexists. split; [done|].
    rewrite wrap_small, cleared_entry_val by (lia || by apply rd_u).
    split; [by apply wr_wf|]. split.
    + intros i Hi. rewrite rd_wr. destruct (Z.eqb_spec (nt + 4 * i) (nt + 4 * j)); [done|].
      apply Hin. lia.
    + intros a Ha. rewrite rd_wr. destruct (Z.eqb_spec a (nt + 4 * j)); [lia|]. apply Hout. lia.
  - split; [done|]. split; [intros; lia|]. done.
  - exists m'. split; [done|]. split; [done|]. split; [done|]. intros a Ha. apply Hout. lia.
Qed.

(** ** [paging_init], stage by stage *)

(** The kernel directory has its three arrays of 1024 entries. *)
Definition dir_wf (d : page_directory) : Prop :=
  length (tables d) = 1024%nat /\ length (tables_physical d) = 1024%nat /\
  length (refcount d) = 1024%nat.

Lemma bitmap_ok_init s : frames s = 0x100000 -> n_frames s = 65536 -> mem_wf (mem s) ->
  bitmap_ok s /\ bitmap_cap s = 65536.
Proof.
  intros Hf Hn Hm. split; [|unfold bitmap_cap; by rewrite Hn].
  constructor; rewrite ?Hf, ?Hn; [done..|]. intros i _. by apply rd_u.
Qed.

(** The frames whose bits are set are those of [l]. *)
Definition uses (s : vmm) (l : list Z) : Prop :=
  frames s = 0x100000 /\ n_frames s = 65536 /\ mem_wf (mem s) /\
  forall g, 0 <= g < 65536 -> frame_used s g = bool_decide (g ∈ l).

Lemma clear_bitmap_spec s :
  frames s = 0x100000 -> n_frames s = 65536 -> mem_wf (mem s) ->
  exists m', clear_bitmap s = Some (set_mem m' s) /\ uses (set_mem m' s) [].
Proof.
  intros Hf Hn Hm. unfold clear_bitmap. rewrite Hn.
  destruct (for_range_inv (fun j t => exists m', t = set_mem m' s /\ mem_wf m' /\
      forall i, 0 <= i < j -> rd (0x100000 + 4 * i) m' = 0) 0 (INDEX_FROM_BIT 65536)
    (fun i s => Some (set_mem (wr (word_at s i) 0 (mem s)) s)) s)
    as (t & Ht & m' & -> & Hwf & Hz); [done| | |].
  - intros j t Hj (m' & -> & Hwf & Hz). eexists. split; [done|]. change (INDEX_FROM_BIT 65536) with 2048 in Hj.
    exists (wr (word_at (set_mem m' s) j) 0 m'). split; [done|]. split; [by apply wr_wf|].
    intros i Hi. unfold word_at. cbn. rewrite Hf, wrap_small, rd_wr by lia.
    destruct (Z.eqb_spec (1048576 + 4 * i) (1048576 + 4 * j)); [done|]. apply Hz. lia.
  - exists (mem s). split; [by destruct s|]. split; [done|]. intros; lia.
  - change (INDEX_FROM_BIT 65536) with 2048 in *. exists m'. split; [done|].
    split; [done|]. split; [done|]. split; [done|]. intros g Hg. unfold frame_used.
    destruct (div32_split g) as (q & r & -> & Hr & Hq & Hd & Hm'); [lia|].
    rewrite Hd, Hm'. unfold word_at. cbn. rewrite Hf, wrap_small, Hz by lia.
    apply Z.bits_0.
Qed.

Lemma clear_directory_spec s : dir_wf (kernel_directory s) ->
  clear_directory s = Some (set_dir
    (mk_dir (replicate 1024 0) (replicate 1024 0) (replicate 1024 0)) s).
Proof.
  intros (H1 & H2 & H3). set (Z0 := replicate 1024 0). set (d := kernel_directory s).
  unfold clear_directory.
  edestruct (for_range_inv (fun j t => t = set_dir
      (mk_dir (fill_upto j Z0 (tables d)) (fill_upto j Z0 (tables_physical d))
              (fill_upto j Z0 (refcount d))) s) 0 1024) as (t & Ht & ->); [done| | |].
  3:{ rewrite Ht. do 2 f_equal. unfold d, Z0. f_equal; apply fill_upto_all; (rewrite length_replicate || rewrite ?H1, ?H2, ?H3); done. }
  - intros j t Hj ->. eexists. split; [|done]. cbn [kernel_directory set_dir tables tables_physical refcount].
    assert (aget Z0 j = Some 0) as Hz.
    { unfold aget, Z0. zres. apply lookup_replicate_2. lia. }
    rewrite !(fill_upto_step j 0 Z0) by (done || (unfold zlen, d; lia)). done.
  - destruct s as [m dd c f n hs he hp c0 c3]. unfold d. cbn. by destruct dd.
Qed.

Lemma alloc_frame_mem s : snd (alloc_frame s) = set_mem (mem (snd (alloc_frame s))) s.
Proof.
  unfold alloc_frame. destruct (_ =? _); cbn; [by destruct s|done].
Qed.

(** An allocation touches bitmap words only. *)
Lemma alloc_least s l f : uses s l -> 0 <= f < 65536 -> f ∉ l ->
  (forall g, 0 <= g < f -> g ∈ l) ->
  exists m', alloc_frame s = (f * 4096, set_mem m' s) /\ uses (set_mem m' s) (f :: l) /\
    (forall a, a < 0x100000 -> rd a m' = rd a (mem s)).
Proof.
  intros (Hf & Hn & Hm & Hu) Hr Hnew Hlt.
  destruct (bitmap_ok_init s Hf Hn Hm) as [Hok Hcap].
  pose proof (fa_alloc_law s Hok) as Hlaw. pose proof (alloc_frame_mem s) as Hmem. cbn in Hlaw.
  destruct (alloc_frame s) as [a s'] eqn:Ha. cbn in Hmem. rewrite Hcap in Hlaw.
  destruct Hlaw as [(f' & Hf' & Hu' & Hlt' & -> & Hok' & _ & Hused)|(Hall & _ & _)].
  2:{ specialize (Hall f Hr). rewrite Hu in Hall by done. by apply bool_decide_eq_true in Hall. }
  assert (f' = f) as ->.
  { rewrite Hu in Hu' by done. apply bool_decide_eq_false in Hu'.
    destruct (Z.lt_trichotomy f f') as [H|[H|H]]; [|done|].
    - specialize (Hlt' f ltac:(lia)). rewrite Hu in Hlt' by done.
      by apply bool_decide_eq_true in Hlt'.
    - destruct Hu'. apply Hlt. lia. }
  exists (mem s'). rewrite <- Hmem. split; [done|].
  unfold alloc_frame in Ha. destruct (_ =? _) eqn:E; [injection Ha as _ <-|].
  { exfalso. specialize (Hused f Hf'). rewrite Hu' in Hused. rewrite Z.eqb_refl in Hused. done. }
  injection Ha as Hfa <-. rewrite Hfa in *. split.
  - split; [done|]. split; [done|]. split.
    + cbn. apply wr_wf; [by apply wrap_range|done].
    + intros g Hg. rewrite Hused, Hu by done.
      destruct (Z.eqb_spec g f) as [->|]; cbn; symmetry.
      * apply bool_decide_eq_true. constructor.
      * apply bool_decide_ext. rewrite elem_of_cons. tauto.
  - intros b Hb. cbn. rewrite rd_wr. unfold word_at. rewrite Hf.
    change (f * 4096) with (f * PAGE_SIZE). rewrite frame_of_addr.
    unfold INDEX_FROM_BIT. pose proof (Z.div_pos f 32 ltac:(lia) ltac:(lia)).
    assert (f / 32 < 2048) by (apply Z.div_lt_upper_bound; lia).
    rewrite wrap_small by lia. zres. done.
Qed.

#[local] Opaque mapped_entry cleared_entry wr rd clear_table alloc_frame.

Lemma uses_ext s s' l : uses s l ->
  frames s' = frames s -> n_frames s' = n_frames s -> mem_wf (mem s') ->
  (forall a, 0x100000 <= a -> rd a (mem s') = rd a (mem s)) -> uses s' l.
Proof.
  intros (Hf & Hn & Hm & Hu) Hf' Hn' Hm' Ha. unfold uses.
  split; [congruence|]. split; [congruence|]. split; [done|].
  intros g Hg. rewrite <- Hu by done. unfold frame_used, word_at. rewrite Hf', Hf.
  destruct (div32_split g) as (q & r & -> & Hr & Hq & -> & ->); [lia|].
  rewrite wrap_small by lia. by rewrite Ha by lia.
Qed.

(** The directory after the table pointer of slot 0 was set. *)
Definition dir_with (t : Z) (d : page_directory) : page_directory :=
  mk_dir (<[0%nat := t]> (tables d)) (<[0%nat := Z.lor (Z.lor t 3) 1]> (tables_physical d))
         (refcount d).

Lemma page_index_lt i : 0 <= i < 1024 ->
  i * 4096 / PAGE_SIZE / 1024 = 0 /\ i * 4096 / PAGE_SIZE mod 1024 = i.
Proof.
  intros Hi. change (i * 4096) with (i * PAGE_SIZE). rewrite frame_of_addr.
  split; [by apply Z.div_small|by apply Z.mod_small].
Qed.

Lemma aget_0 {A} (x : A) l : aget (x :: l) 0 = Some x.
Proof. done. Qed.

(** A table is missing: one is allocated, cleared, and the entry written. *)
Lemma map_page_new s l f i t :
  uses s l -> 0 <= f < 255 -> f ∉ l -> (forall g, 0 <= g < f -> g ∈ l) ->
  dir_wf (kernel_directory s) -> aget (tables (kernel_directory s)) 0 = Some 0 ->
  0 <= i < 1024 -> t = f * 4096 ->
  exists m', map_page (i * 4096) (i * 4096) 3 s
      = Some (set_mem m' (set_dir (dir_with t (kernel_directory s)) s)) /\
    uses (set_mem m' (set_dir (dir_with t (kernel_directory s)) s)) (f :: l) /\
    forall k, 0 <= k < 1024 ->
      rd (t + 4 * k) m' = if k =? i then mapped_entry (i * 4096) 3 2 else 2.
Proof.
  intros Hu Hf Hnew Hlt (Hd1 & Hd2 & Hd3) H0 Hi Ht.
  destruct (alloc_least s l f Hu ltac:(lia) Hnew Hlt) as (m1 & Ha & Hu1 & _).
  destruct (clear_table_spec t m1) as (m2 & Hc & Hwf & Hin & Hout); [lia|lia|apply Hu1|].
  exists (wr (t + 4 * i) (mapped_entry (i * 4096) 3 2) m2).
  destruct (page_index_lt i Hi) as [Hp0 Hp1].
  assert (0 < zlen (tables (kernel_directory s))) as Hz1 by (unfold zlen; lia).
  assert (0 < zlen (tables_physical (kernel_directory s))) as Hz2 by (unfold zlen; lia).
  split.
  - unfold map_page. rewrite Hp0, Hp1, H0. step. rewrite Z.eqb_refl, Ha.
    change (kernel_directory (set_mem m1 s)) with (kernel_directory s).
    rewrite !aset_Some by lia. do 2 step. cbn [mem set_dir set_mem].
    rewrite <- Ht, Hc. do 2 step. cbn [kernel_directory set_mem set_dir tables].
    rewrite (aget_insert_eq _ 0) by lia. step. cbn [mem set_mem].
    rewrite wrap_small by lia. by rewrite Hin by lia.
  - split.
    + apply (uses_ext (set_mem m1 s)); [exact Hu1|reflexivity|reflexivity| |].
      * cbn [mem set_mem]. apply wr_wf; [apply is_u_mapped; unfold is_u; lia|exact Hwf].
      * intros a Ha'. cbn [mem set_mem]. rewrite rd_wr. zres. by apply Hout; lia.
    + intros k Hk. rewrite rd_wr. destruct (Z.eqb_spec k i) as [->|]; zres; [done|].
      apply Hin. lia.
Qed.

(** The table exists: only the entry is written. *)
Lemma map_page_old s l i t :
  uses s l -> aget (tables (kernel_directory s)) 0 = Some t -> 0 < t -> t + 4096 <= 0x100000 ->
  0 <= i < 1024 ->
  map_page (i * 4096) (i * 4096) 3 s
  = Some (set_mem (wr (t + 4 * i) (mapped_entry (i * 4096) 3 (rd (t + 4 * i) (mem s))) (mem s)) s)
  /\ uses (set_mem (wr (t + 4 * i) (mapped_entry (i * 4096) 3 (rd (t + 4 * i) (mem s))) (mem s)) s) l.
Proof.
  intros Hu Ht Hpos Hfit Hi. destruct (page_index_lt i Hi) as [Hp0 Hp1]. split.
  - unfold map_page. rewrite Hp0, Hp1, Ht. cbn [mbind option_bind]. zres.
    cbn [mbind option_bind]. rewrite Ht. cbn [mbind option_bind].
    by rewrite wrap_small by lia.
  - apply (uses_ext s); [exact Hu|reflexivity|reflexivity| |].
    + destruct Hu as (_ & _ & Hm & _). apply wr_wf; [apply is_u_mapped; by apply rd_u|done].
    + intros a Ha. cbn. rewrite rd_wr. by zres.
Qed.

Lemma for_range_S {S} lo hi body (s : S) : lo < hi ->
  for_range lo hi body s = (s' ← body lo s; for_range (lo + 1) hi body s').
Proof.
  intros H. unfold for_range. replace (Z.to_nat (hi - lo)) with (Datatypes.S (Z.to_nat (hi - (lo + 1)))) by lia.
  done.
Qed.

(** Frame 0 is the first page table, but its address is NULL: the second page asks for a
    table again and gets frame 1, which loses the entry of page 0. *)
Lemma identity_map_spec s : uses s [] -> dir_wf (kernel_directory s) ->
  tables (kernel_directory s) = replicate 1024 0 ->
  exists m', identity_map s = Some (set_mem m' (set_dir (dir_with 4096 (dir_with 0 (kernel_directory s))) s)) /\
    uses (set_mem m' (set_dir (dir_with 4096 (dir_with 0 (kernel_directory s))) s)) [1; 0] /\
    forall k, 0 <= k < 1024 ->
      rd (4096 + 4 * k) m' = if k =? 0 then 2 else mapped_entry (k * 4096) 3 2.
Proof.
  intros Hu Hd Ht. unfold identity_map. rewrite for_range_S by lia. cbn zeta.
  change (u32 (0 * PAGE_SIZE)) with (0 * 4096).
  destruct (map_page_new s [] 0 0 0) as (m1 & -> & Hu1 & _);
    [done|lia|set_solver|lia|done|by rewrite Ht|lia|done|].
  cbn [mbind option_bind]. set (s1 := set_mem _ _) in *. set (d0 := kernel_directory s) in *.
  rewrite for_range_S by lia. cbn zeta. change (u32 ((0 + 1) * PAGE_SIZE)) with (1 * 4096).
  assert (length (tables d0) = 1024%nat /\ length (tables_physical d0) = 1024%nat) as [Hl1 Hl2]
    by (destruct Hd as (? & ? & ?); done).
  destruct (map_page_new s1 [0] 1 1 4096) as (m2 & -> & Hu2 & He2).
  { done. } { lia. } { by rewrite list_elem_of_singleton. }
  { intros g Hg. assert (g = 0) as -> by lia. constructor. }
  { destruct Hd as (? & ? & ?). unfold s1. cbn. unfold dir_wf. cbn. by rewrite !length_insert. }
  { unfold s1. cbn. by rewrite Ht. } { lia. } { done. }
  cbn [mbind option_bind]. change (kernel_directory s1) with (dir_with 0 d0) in *.
  set (s2 := set_mem m2 _) in *. change (0 + 1 + 1) with 2.
  destruct (for_range_inv (fun j t => exists m', t = set_mem m' s2 /\ uses t [1; 0] /\
      forall k, 0 <= k < 1024 -> rd (4096 + 4 * k) m'
        = if (1 <=? k) && (k <? j) then mapped_entry (k * 4096) 3 2 else 2) 2 1024
    (fun i s => map_page (u32 (i * PAGE_SIZE)) (u32 (i * PAGE_SIZE)) 3 s) s2)
    as (t & Hfor & m' & -> & Hu' & He'); [lia| | |].
  - intros j t Hj (m' & -> & Hut & Het). unfold PAGE_SIZE. rewrite wrap_small by lia.
    destruct (map_page_old (set_mem m' s2) [1; 0] j 4096) as [Hmp Hus];
      [done|unfold s2; cbn; by rewrite Ht|lia|lia|lia|].
    eexists. split; [exact Hmp|]. eexists. split; [done|]. split; [exact Hus|].
    intros k Hk. cbn [mem set_mem]. rewrite rd_wr, Het by lia.
    destruct (Z.eqb_spec (4096 + 4 * k) (4096 + 4 * j)) as [Heq|Hne].
    + assert (k = j) as -> by lia. by zres.
    + rewrite Het by done. destruct (Z.leb_spec 1 k); cbn [andb]; [|done].
      destruct (Z.ltb_spec k j); by zres.
  - exists m2. split; [done|]. split; [done|]. intros k Hk. rewrite He2 by done.
    destruct (Z.eqb_spec k 1) as [->|]; [done|]. destruct (Z.leb_spec 1 k); by zres.
  - rewrite Hfor. exists m'. split; [done|]. split; [done|].
    intros k Hk. rewrite He' by done. destruct (Z.eqb_spec k 0) as [->|]; [done|]. by zres.
Qed.

Definition zero_dir : page_directory :=
  mk_dir (replicate 1024 0) (replicate 1024 0) (replicate 1024 0).

Lemma dir_wf_zero : dir_wf zero_dir.
Proof. unfold dir_wf, zero_dir. cbn [tables tables_physical refcount].
  by rewrite length_replicate. Qed.

Lemma paging_init_spec kd s : mem_wf (mem s) -> dir_wf (kernel_directory s) ->
  exists s', paging_init kd s = Some s' /\ uses s' [1; 0] /\
    kernel_directory s' = dir_with 4096 (dir_with 0 zero_dir) /\
    (forall k, 0 <= k < 1024 ->
      rd (4096 + 4 * k) (mem s') = if k =? 0 then 2 else mapped_entry (k * 4096) 3 2) /\
    cr3 s' = u32 (kd + 4096) /\ cr0 s' = Z.lor (cr0 s) 0x80000000 /\
    current_directory s' = kd.
Proof.
  intros Hm Hd. unfold paging_init. cbv zeta.
  change (0x10000000 / PAGE_SIZE) with 65536.
  destruct (clear_bitmap_spec (set_bitmap 0x100000 65536 s)) as (m1 & -> & Hu1); [done..|].
  step. rewrite clear_directory_spec by done. step. fold zero_dir.
  set (s1 := set_dir zero_dir _).
  destruct (identity_map_spec s1) as (m2 & -> & Hu2 & He).
  - apply (uses_ext _ s1 _ Hu1); [reflexivity|reflexivity|apply Hu1|reflexivity].
  - apply dir_wf_zero.
  - reflexivity.
  - step. eexists. split; [reflexivity|]. split; [exact Hu2|]. by split; [reflexivity|].
Qed.

Lemma insert_zero_0 t : aget (<[0%nat := t]> (replicate 1024 0)) 0 = Some t.
Proof. reflexivity. Qed.

Lemma insert_zero_other t i : 1 <= i < 1024 ->
  aget (<[0%nat := t]> (replicate 1024 0)) i = Some 0.
Proof.
  intros Hi. rewrite (aget_insert_ne _ 0 i) by lia.
  unfold aget. zres. apply lookup_replicate_2. lia.
Qed.

(** ** The bump heap *)

Definition round8 (size : Z) : Z := 8 * ((size + 7) / 8).

Lemma land_minus8 x : 0 <= x < 2 ^ 32 -> Z.land x (u32 (Z.lnot 7)) = 8 * (x / 8).
Proof.
  intros Hx. change (u32 (Z.lnot 7)) with (Z.shiftl (Z.ones 29) 3).
  replace (8 * (x / 8)) with (Z.shiftl (Z.shiftr x 3) 3).
  2:{ rewrite Z.shiftl_mul_pow2, Z.shiftr_div_pow2 by lia. change (2 ^ 3) with 8. lia. }
  apply Z.bits_inj'. intros n Hn. rewrite Z.land_spec, !Z.shiftl_spec by done.
  destruct (Z.lt_ge_cases n 3); [rewrite !(Z.testbit_neg_r _ (n - 3)) by lia; apply andb_false_r|].
  rewrite Z.shiftr_spec, Z.testbit_ones_nonneg by lia.
  replace (n - 3 + 3) with n by lia.
  destruct (Z.ltb_spec (n - 3) 29); [apply andb_true_r|].
  rewrite high_bits by (done || lia). done.
Qed.

Lemma kmalloc_size size : 0 <= size -> size + 7 < 2 ^ 32 ->
  Z.land (u32 (size + 7)) (u32 (Z.lnot 7)) = round8 size.
Proof. intros. rewrite wrap_small, land_minus8 by lia. done. Qed.

Lemma round8_bounds size : 0 <= size -> size <= round8 size < size + 8 /\ round8 size mod 8 = 0.
Proof.
  intros. unfold round8. pose proof (Z.div_mod (size + 7) 8 ltac:(lia)).
  pose proof (Z.mod_pos_bound (size + 7) 8 ltac:(lia)). split; [lia|].
  rewrite Z.mul_comm. apply Z.mod_mul. lia.
Qed.

Record heap_wf (s : vmm) : Prop := mk_heap_wf {
  hw_start : 0 < heap_start s;
  hw_pos : heap_start s <= heap_position s <= heap_end s;
  hw_align : heap_position s mod 8 = 0;
  hw_end : heap_end s < 2 ^ 31
}.

(** One allocation, when neither the rounding nor the addition can wrap. *)
Lemma kmalloc_spec size s : heap_wf s -> 0 <= size <= 2 ^ 31 - 8 ->
  (heap_position s + round8 size <= heap_end s /\
   kmalloc size s = (heap_position s,
     set_heap (heap_start s) (heap_end s) (heap_position s + round8 size) s)) \/
  (heap_end s < heap_position s + round8 size /\ kmalloc size s = (0, s)).
Proof.
  intros [Hs Hp Ha He] Hsz. unfold kmalloc. rewrite kmalloc_size by lia.
  destruct (round8_bounds size ltac:(lia)) as [Hr _].
  rewrite wrap_small by lia. destruct (Z.ltb_spec (heap_end s) (heap_position s + round8 size)).
  - by right.
  - by left.
Qed.

Lemma kmalloc_wf size s : heap_wf s -> 0 <= size <= 2 ^ 31 - 8 -> heap_wf (snd (kmalloc size s)).
Proof.
  intros Hwf Hsz. destruct (round8_bounds size ltac:(lia)) as [Hr Hm].
  destruct (kmalloc_spec size s Hwf Hsz) as [[Hle ->]|[_ ->]]; [|done].
  destruct Hwf as [H1 H2 H3 H4]. constructor; cbn; try lia.
  rewrite Z.add_mod, H3, Hm by lia. done.
Qed.

(** A run of allocations: each non-NULL pointer with the size asked for. *)
Fixpoint kmallocs (sizes : list Z) (s : vmm) : list (Z * Z) :=
  match sizes with
  | [] => []
  | n :: rest =>
      let '(p, s') := kmalloc n s in
      (if p =? 0 then [] else [(p, n)]) ++ kmallocs rest s'
  end.

Definition block_in (lo hi : Z) (b : Z * Z) : Prop :=
  lo <= fst b /\ fst b + snd b <= hi /\ fst b mod 8 = 0.

Definition block_before (b c : Z * Z) : Prop := fst b + snd b <= fst c.

Lemma kmallocs_blocks sizes s : heap_wf s -> Forall (fun n => 0 <= n <= 2 ^ 31 - 8) sizes ->
  Forall (block_in (heap_position s) (heap_end s)) (kmallocs sizes s) /\
  ForallOrdPairs block_before (kmallocs sizes s).
Proof.
  revert s. induction sizes as [|n sizes IH]; intros s Hwf Hs; [split; constructor|].
  inversion Hs as [|? ? Hn Hs']; subst. cbn [kmallocs].
  pose proof (kmalloc_wf n s Hwf Hn) as Hwf'. pose proof Hwf as [H1 H2 H3 H4].
  destruct (kmalloc_spec n s Hwf Hn) as [[Hle Hk]|[_ Hk]]; rewrite Hk in *; cbn [snd] in Hwf';
    destruct (IH _ Hwf' Hs') as [Hin Hord].
  - destruct (round8_bounds n ltac:(lia)) as [Hr _]. cbn [heap_position heap_end set_heap] in Hin.
    zres. cbn [app]. split; constructor; try done.
    + split; cbn; lia.
    + eapply Forall_impl; [exact Hin|]. unfold block_in, block_before. cbn. lia.
    + eapply Forall_impl; [exact Hin|]. unfold block_before, block_in. cbn. lia.
  - rewrite Z.eqb_refl. done.
Qed.

(** ** Properties *)

(** The machine before [memory_init]: empty memory, zeroed statics. *)
Definition boot_vmm : vmm := mk_vmm ∅ zero_dir 0 0 0 0 0 0 1 0.

(** A bitmap of 64 frames in which frames 0, 1 and 33 are used. *)
Definition small_vmm : vmm :=
  mk_vmm {[ 0x100000 := 3; 0x100004 := 2 ]} zero_dir 0 0x100000 64 0 0 0 1 0.

Lemma small_vmm_ok : bitmap_ok small_vmm.
Proof.
  constructor; [vm_compute; congruence|vm_compute; intuition congruence|vm_compute; congruence|].
  intros i Hi. change (n_frames small_vmm / 32) with 2 in Hi.
  assert (i = 0 \/ i = 1) as [->| ->] by lia; vm_compute; intuition congruence.
Qed.

(** Successive calls of [alloc_frame] hand out the unused frames in increasing order, each
    exactly once: [n] calls return the addresses of the first [n] frames whose bitmap bit is
    clear, all different, and exactly these become used. *)
Theorem alloc_frames_are_least_unused n s :
  bitmap_ok s -> (n <= length (unused s))%nat ->
  fst (allocs n s) = (fun f => f * 4096) <$> take n (unused s) /\
  NoDup (fst (allocs n s)) /\ unused (snd (allocs n s)) = drop n (unused s).
Proof.
  intros Hok Hn. destruct (allocs_unused (H := bitmap_allocator) n s Hok Hn) as (H1 & H2 & _).
  split; [done|]. split; [|done]. rewrite H1. apply NoDup_fmap_2.
  - intros x y. lia.
  - eapply sublist_NoDup; [apply NoDup_unused|apply sublist_take].
Qed.

Lemma alloc_frames_are_least_unused_witness :
  fst (allocs 3 small_vmm) = (fun f => f * 4096) <$> take 3 (unused small_vmm) /\
  NoDup (fst (allocs 3 small_vmm)) /\ unused (snd (allocs 3 small_vmm)) = drop 3 (unused small_vmm).
Proof.
  apply alloc_frames_are_least_unused; [exact small_vmm_ok|vm_compute; lia].
Defined.

(** [alloc_frame] followed by [free_frame] of its result restores the set of used frames,
    and [test_frame] of the address is non-zero exactly in between. *)
Theorem alloc_free_roundtrip s :
  bitmap_ok s -> unused s <> [] ->
  let '(a, s') := alloc_frame s in
  test_frame a s = 0 /\ test_frame a s' <> 0 /\
  forall g, 0 <= g < bitmap_cap s -> frame_used (free_frame a s') g = frame_used s g.
Proof.
  intros Hok Hne. pose proof (fa_alloc_law s Hok) as Hlaw. cbn in Hlaw.
  destruct (alloc_frame s) as [a s'].
  destruct Hlaw as [(f & Hf & Hu & _ & -> & Hok' & Hcap & Hused)|(Hall & _)].
  2:{ destruct (unused s) as [|f l] eqn:E; [done|].
      assert (f ∈ unused s) as Hin by (rewrite E; constructor).
      apply elem_unused in Hin as [Hr Hf]. cbn in Hr, Hf. by rewrite Hall in Hf. }
  assert (forall t, (test_frame (f * 4096) t =? 0) = negb (frame_used t f)) as Htest.
  { intros t. unfold test_frame, OFFSET_FROM_BIT, INDEX_FROM_BIT, frame_used.
    change (f * 4096) with (f * PAGE_SIZE). rewrite frame_of_addr, Z.shiftl_1_l.
    pose proof (Z.mod_pos_bound f 32 ltac:(lia)).
    rewrite <- pow2_testbit_land by lia. f_equal. apply wrap_small.
    assert (0 < 2 ^ (f mod 32) < 2 ^ 32) by (split; [lia|apply Z.pow_lt_mono_r; lia]).
    set (w := rd _ _). split; [apply Z.land_nonneg; lia|].
    destruct (Z.testbit w (f mod 32)) eqn:Ew.
    - assert (Z.land w (2 ^ (f mod 32)) = 2 ^ (f mod 32)) as ->; [|lia].
      apply Z.bits_inj'. intros n Hn. rewrite Z.land_spec, Z.pow2_bits_eqb by lia.
      destruct (Z.eqb_spec (f mod 32) n) as [<-|]; [by rewrite Ew|apply andb_false_r].
    - pose proof (pow2_testbit_land w (f mod 32) ltac:(lia)) as Hp. rewrite Ew in Hp.
      apply Z.eqb_eq in Hp. rewrite Hp. lia. }
  split; [apply Z.eqb_eq; by rewrite Htest, Hu|].
  split; [apply Z.eqb_neq; by rewrite Htest, Hused, Z.eqb_refl by done|].
  intros g Hg. unfold free_frame. change (f * 4096) with (f * PAGE_SIZE).
  destruct (clear_frame_spec s' f Hok') as [_ Hc]; [lia|].
  rewrite Hc, Hused by lia. destruct (Z.eqb_spec g f) as [->|]; [by rewrite Hu|done].
Qed.

Lemma alloc_free_roundtrip_witness :
  let '(a, s') := alloc_frame small_vmm in
  test_frame a small_vmm = 0 /\ test_frame a s' <> 0 /\
  forall g, 0 <= g < bitmap_cap small_vmm ->
    frame_used (free_frame a s') g = frame_used small_vmm g.
Proof. apply alloc_free_roundtrip; [exact small_vmm_ok|vm_compute; discriminate]. Defined.

(** [alloc_frame] cannot tell success from failure: it returns NULL (address 0) both when
    every frame is used and when it has just allocated frame 0. *)
Theorem alloc_frame_null_iff s :
  bitmap_ok s -> 0 < bitmap_cap s ->
  fst (alloc_frame s) = 0 <->
  (frame_used s 0 = false \/ forall g, 0 <= g < bitmap_cap s -> frame_used s g = true).
Proof.
  intros Hok Hcap. pose proof (fa_alloc_law s Hok) as Hlaw. cbn in Hlaw.
  destruct (alloc_frame s) as [a s'].
  destruct Hlaw as [(f & Hf & Hu & Hlt & -> & _)|(Hall & -> & _)]; cbn; split; try tauto.
  - intros H0. assert (f = 0) as -> by lia. by left.
  - intros [H0|Hall].
    + destruct (Z.eq_dec f 0) as [->|]; [done|]. rewrite Hlt in H0 by lia. done.
    + rewrite Hall in Hu by done. done.
Qed.

Lemma alloc_frame_null_iff_witness :
  fst (alloc_frame (set_bitmap 0x100000 64 boot_vmm)) = 0 <->
  (frame_used (set_bitmap 0x100000 64 boot_vmm) 0 = false \/
   forall g, 0 <= g < bitmap_cap (set_bitmap 0x100000 64 boot_vmm) ->
     frame_used (set_bitmap 0x100000 64 boot_vmm) g = true).
Proof.
  apply alloc_frame_null_iff; [|vm_compute; done].
  constructor; [vm_compute; congruence|vm_compute; intuition congruence|vm_compute; congruence|].
  intros i Hi. change (n_frames (set_bitmap 0x100000 64 boot_vmm) / 32) with 2 in Hi.
  assert (i = 0 \/ i = 1) as [->| ->] by lia; vm_compute; intuition congruence.
Defined.

(** C27: After [paging_init], whatever physical memory held, translation through the tables the
    code built is the identity on 4096 <= v < 4 MiB and faults everywhere else, page 0
    included: the comment promises an identity mapping of the first 4 MiB, but the table of
    the first call sits in frame 0, whose address is NULL, and is dropped by the second call.
    CR3 points at the physical entries of the directory and the paging bit of CR0 is set. *)
Theorem paging_init_identity_except_page_zero kd s v :
  mem_wf (mem s) -> dir_wf (kernel_directory s) -> 0 <= v < 2 ^ 32 ->
  exists s', paging_init kd s = Some s' /\
    translate s' v = (if (4096 <=? v) && (v <? 0x400000) then Some v else None) /\
    cr3 s' = u32 (kd + 4096) /\ Z.testbit (cr0 s') 31 = true.
Proof.
  intros Hm Hd Hv.
  destruct (paging_init_spec kd s Hm Hd) as (s' & Hp & _ & Hdir & He & Hcr3 & Hcr0 & _).
  exists s'. split; [done|]. split; [|split; [done|]].
  2:{ rewrite Hcr0, Z.lor_spec. change (Z.testbit 0x80000000 31) with true. apply orb_true_r. }
  unfold translate. rewrite Hdir. unfold dir_with, zero_dir. cbn [tables_physical].
  rewrite list_insert_insert_eq.
  pose proof (Z.mod_pos_bound v 4096 ltac:(lia)). pose proof (Z.div_mod v 4096 ltac:(lia)).
  destruct (Z.ltb_spec v 0x400000) as [Hlt|Hge].
  - rewrite (Z.div_small v 0x400000) by lia. rewrite insert_zero_0. step.
    change (Z.testbit (Z.lor (Z.lor 4096 3) 1) 0) with true. cbv iota.
    change (Z.lor (Z.lor 4096 3) 1 / 4096 * 4096) with 4096.
    assert (0 <= v / 4096 < 1024) by (split; [apply Z.div_pos; lia|apply Z.div_lt_upper_bound; lia]).
    rewrite (Z.mod_small (v / 4096)), He by lia.
    destruct (Z.eqb_spec (v / 4096) 0) as [Hv0|Hv0].
    + destruct (Z.leb_spec 4096 v); [|done]. lia.
    + rewrite mapped_entry_present.
      assert (4096 <= v) by (destruct (Z.lt_ge_cases v 4096); [rewrite Z.div_small in Hv0 by lia|]; lia).
      rewrite (proj2 (Z.leb_le 4096 v)) by done. cbn [andb]. change (v / 4096 * 4096) with (v / 4096 * PAGE_SIZE).
      rewrite mapped_entry_frame by (unfold is_u; lia). f_equal. lia.
  - rewrite andb_false_r. assert (1 <= v / 0x400000 < 1024).
    { split; [apply Z.div_le_lower_bound; lia|apply Z.div_lt_upper_bound; lia]. }
    by rewrite insert_zero_other by done.
Qed.

Lemma paging_init_identity_except_page_zero_witness :
  exists s', paging_init 0x105000 boot_vmm = Some s' /\
    translate s' 0xB8000 = (if (4096 <=? 0xB8000) && (0xB8000 <? 0x400000) then Some 0xB8000 else None) /\
    cr3 s' = u32 (0x105000 + 4096) /\ Z.testbit (cr0 s') 31 = true.
Proof.
  apply paging_init_identity_except_page_zero; [by apply map_Forall_empty|apply dir_wf_zero|lia].
Defined.

(** [paging_init] reserves no memory: afterwards the only used frames are 0 and 1, so the
    frames of the kernel image at 1 MiB, of the frame bitmap itself (also at 1 MiB), of the
    identity-mapped devices and of the heap are all handed out by later allocations. *)
Theorem paging_init_reserves_only_two_frames kd s :
  mem_wf (mem s) -> dir_wf (kernel_directory s) ->
  exists s', paging_init kd s = Some s' /\ frames s' = KERNEL_MEMORY_START /\
    forall f, 0 <= f < 65536 -> frame_used s' f = (f <? 2).
Proof.
  intros Hm Hd. destruct (paging_init_spec kd s Hm Hd) as (s' & Hp & (Hf & _ & _ & Hu) & _).
  exists s'. split; [done|]. split; [done|]. intros f Hr. rewrite Hu by done.
  destruct (Z.ltb_spec f 2).
  - apply bool_decide_eq_true. rewrite !elem_of_cons, elem_of_nil. lia.
  - apply bool_decide_eq_false. rewrite !elem_of_cons, elem_of_nil. lia.
Qed.

Lemma paging_init_reserves_only_two_frames_witness :
  exists s', paging_init 0x105000 boot_vmm = Some s' /\ frames s' = KERNEL_MEMORY_START /\
    forall f, 0 <= f < 65536 -> frame_used s' f = (f <? 2).
Proof.
  apply paging_init_reserves_only_two_frames; [by apply map_Forall_empty|apply dir_wf_zero].
Defined.

(** C33: The kernel heap is a correct bump allocator for requests below 2 GiB: after
    [heap_init], every sequence of [kmalloc] calls returns 8-byte aligned blocks inside
    [HEAP_MEMORY_START, HEAP_MEMORY_END) that do not overlap, in increasing order. *)
Theorem kmalloc_blocks_disjoint sizes s :
  Forall (fun n => 0 <= n <= 2 ^ 31 - 8) sizes ->
  Forall (block_in HEAP_MEMORY_START HEAP_MEMORY_END) (kmallocs sizes (heap_init s)) /\
  ForallOrdPairs block_before (kmallocs sizes (heap_init s)).
Proof.
  intros Hs. apply (kmallocs_blocks sizes (heap_init s)); [|done].
  constructor; cbn; lia || done.
Qed.

Lemma kmalloc_blocks_disjoint_witness :
  Forall (block_in HEAP_MEMORY_START HEAP_MEMORY_END) (kmallocs [13; 0x300000; 8] (heap_init boot_vmm)) /\
  ForallOrdPairs block_before (kmallocs [13; 0x300000; 8] (heap_init boot_vmm)).
Proof. apply kmalloc_blocks_disjoint. repeat constructor; lia. Defined.

(** A request within 7 bytes of 4 GiB is granted: the rounding wraps to 0, so [kmalloc]
    returns the current heap position instead of NULL and reserves nothing, and the next
    request gets the same address. *)
Theorem kmalloc_huge_request_wraps size s :
  2 ^ 32 - 7 <= size < 2 ^ 32 -> 0 <= heap_position s <= heap_end s -> heap_end s < 2 ^ 32 ->
  kmalloc size s = (heap_position s, s).
Proof.
  intros Hs Hp He. unfold kmalloc.
  assert (u32 (size + 7) = size + 7 - 2 ^ 32) as ->.
  { unfold wrap. symmetry. apply Z.mod_unique with 1; lia. }
  rewrite land_minus8 by lia. rewrite (Z.div_small (size + 7 - 2 ^ 32)) by lia.
  rewrite Z.mul_0_r, Z.add_0_r, wrap_small by lia.
  destruct (Z.ltb_spec (heap_end s) (heap_position s)); [lia|]. by destruct s.
Qed.

Lemma kmalloc_huge_request_wraps_witness :
  kmalloc 0xFFFFFFFF (heap_init boot_vmm) = (0x200000, heap_init boot_vmm).
Proof.
  apply kmalloc_huge_request_wraps; [lia|vm_compute; intuition congruence|reflexivity].
Defined.

End Memory.
