(* ===== verification/Machine.v ===== *)
(** The state the kernel's drivers share: terminal, memory manager, keyboard
    flags, interrupt tables, the interrupt-enable flag, the bytes waiting at
    the keyboard port and the trace of port writes (src/kernel/keyboard.h,
    src/kernel/interrupts.h and the file-scope variables of interrupts.c). *)

From S2P Require Import Prelude Terminal Memory.
Import Terminal Memory.

Module Machine.

Record keyboard_state := mk_kbd {
  shift_pressed : Z;
  ctrl_pressed : Z;
  alt_pressed : Z;
  caps_lock : Z
}.

Record idt_entry := mk_gate {
  offset_low : Z;
  selector : Z;
  zero : Z;
  type_attr : Z;
  offset_high : Z
}.

(** Function pointers of type [interrupt_handler_t]: the keyboard driver's handler, or a
    handler some other code installed. *)
Inductive handler :=
| keyboard_handler_ptr
| foreign_handler (id : Z).

#[export] Instance handler_eq_dec : EqDecision handler.
Proof. solve_decision. Defined.

Record machine := mk_machine {
  mterm : term;
  mvmm : vmm;
  mkbd : keyboard_state;
  idt : list idt_entry;
  interrupt_handlers : list (option handler);
  idt_limit : Z;
  idt_base : Z;
  idtr : Z * Z;
  interrupts_on : bool;
  port60 : list Z;
  outs : list (Z * Z)
}.

Definition set_term (t : term) (m : machine) : machine :=
  mk_machine t (mvmm m) (mkbd m) (idt m) (interrupt_handlers m) (idt_limit m) (idt_base m)
    (idtr m) (interrupts_on m) (port60 m) (outs m).
Definition set_vmm (v : vmm) (m : machine) : machine :=
  mk_machine (mterm m) v (mkbd m) (idt m) (interrupt_handlers m) (idt_limit m) (idt_base m)
    (idtr m) (interrupts_on m) (port60 m) (outs m).
Definition set_kbd (k : keyboard_state) (m : machine) : machine :=
  mk_machine (mterm m) (mvmm m) k (idt m) (interrupt_handlers m) (idt_limit m) (idt_base m)
    (idtr m) (interrupts_on m) (port60 m) (outs m).
Definition set_idt (i : list idt_entry) (m : machine) : machine :=
  mk_machine (mterm m) (mvmm m) (mkbd m) i (interrupt_handlers m) (idt_limit m) (idt_base m)
    (idtr m) (interrupts_on m) (port60 m) (outs m).
Definition set_handlers (h : list (option handler)) (m : machine) : machine :=
  mk_machine (mterm m) (mvmm m) (mkbd m) (idt m) h (idt_limit m) (idt_base m)
    (idtr m) (interrupts_on m) (port60 m) (outs m).
Definition load_idt (limit base : Z) (m : machine) : machine :=
  mk_machine (mterm m) (mvmm m) (mkbd m) (idt m) (interrupt_handlers m) limit base
    (limit, base) (interrupts_on m) (port60 m) (outs m).

(** Port I/O and the interrupt flag of src/kernel/interrupts.h. *)
Definition outb (port value : Z) (m : machine) : machine :=
  mk_machine (mterm m) (mvmm m) (mkbd m) (idt m) (interrupt_handlers m) (idt_limit m)
    (idt_base m) (idtr m) (interrupts_on m) (port60 m) (outs m ++ [(port, value)]).

Definition set_outs (o : list (Z * Z)) (m : machine) : machine :=
  mk_machine (mterm m) (mvmm m) (mkbd m) (idt m) (interrupt_handlers m) (idt_limit m)
    (idt_base m) (idtr m) (interrupts_on m) (port60 m) o.

Lemma outb_spec p v m : outb p v m = set_outs (outs m ++ [(p, v)]) m.
Proof. reflexivity. Qed.

Lemma set_outs_twice o o' m : set_outs o (set_outs o' m) = set_outs o m.
Proof. reflexivity. Qed.

(** A read of the keyboard data port takes the next byte; with none waiting it repeats 0. *)
Definition inb_60 (m : machine) : Z * machine :=
  match port60 m with
  | [] => (0, m)
  | b :: rest =>
      (b, mk_machine (mterm m) (mvmm m) (mkbd m) (idt m) (interrupt_handlers m) (idt_limit m)
            (idt_base m) (idtr m) (interrupts_on m) rest (outs m))
  end.

Definition disable_interrupts (m : machine) : machine :=
  mk_machine (mterm m) (mvmm m) (mkbd m) (idt m) (interrupt_handlers m) (idt_limit m)
    (idt_base m) (idtr m) false (port60 m) (outs m).

Definition enable_interrupts (m : machine) : machine :=
  mk_machine (mterm m) (mvmm m) (mkbd m) (idt m) (interrupt_handlers m) (idt_limit m)
    (idt_base m) (idtr m) true (port60 m) (outs m).

Definition writestring (s : list Z) (m : machine) : option machine :=
  t ← terminal_writestring s (mterm m); Some (set_term t m).

Definition putchar (c : Z) (m : machine) : option machine :=
  t ← terminal_putchar c (mterm m); Some (set_term t m).

(** The tables have their declared sizes and the terminal is well formed. *)
Record machine_wf (m : machine) : Prop := mk_machine_wf {
  mw_term : term_wf (mterm m);
  mw_idt : length (idt m) = 256%nat;
  mw_handlers : length (interrupt_handlers m) = 256%nat
}.

Lemma writestring_wf s m : machine_wf m ->
  exists t, writestring s m = Some (set_term t m) /\ term_wf t /\
            terminal_write s (mterm m) = Some t.
Proof.
  intros [Ht _ _]. destruct (write_wf s (mterm m) Ht) as (t & Hw & Hwf).
  exists t. unfold writestring, terminal_writestring. by rewrite Hw.
Qed.

Lemma set_term_wf t m : term_wf t -> machine_wf m -> machine_wf (set_term t m).
Proof. intros Ht [_ H1 H2]. by constructor. Qed.

Lemma putchar_wf' c m : machine_wf m ->
  exists t, putchar c m = Some (set_term t m) /\ term_wf t /\
            terminal_putchar c (mterm m) = Some t.
Proof.
  intros [Ht _ _]. destruct (putchar_wf c (mterm m) Ht) as (t & Hw & Hwf).
  exists t. unfold putchar. by rewrite Hw.
Qed.

End Machine.
