(* ===== verification/Interrupts.v ===== *)
(** Interrupt handling of the kernel: src/kernel/interrupts.c and the entry
    stubs of src/kernel/interrupts.s.

    The addresses of the assembly stubs and of the [idt] array come from the
    linker: they are variables of the section.  So is what an installed
    handler does; [Kernel] instantiates it with the keyboard driver. *)

From S2P Require Import Prelude Terminal Memory Machine.
Import Terminal Machine.

Module Interrupts.

Definition exception_messages : list (list Z) := [
  chars "Division by Zero"; chars "Debug"; chars "Non-Maskable Interrupt";
  chars "Breakpoint"; chars "Overflow"; chars "Bound Range Exceeded";
  chars "Invalid Opcode"; chars "Device Not Available"; chars "Double Fault";
  chars "Coprocessor Segment Overrun"; chars "Invalid TSS";
  chars "Segment Not Present"; chars "Stack-Segment Fault";
  chars "General Protection Fault"; chars "Page Fault"; chars "Reserved";
  chars "x87 FPU Error"; chars "Alignment Check"; chars "Machine Check";
  chars "SIMD Floating-Point Exception" ].

Definition idt_set_gate (num base sel flags : Z) (m : machine) : option machine :=
  let e := mk_gate (Z.land base 0xFFFF) sel 0 flags
             (Z.land (Z.shiftr base 16) 0xFFFF) in
  i ← aset (idt m) num e; Some (set_idt i m).

Definition register_interrupt_handler (interrupt : Z) (h : option handler) (m : machine)
  : option machine :=
  hs ← aset (interrupt_handlers m) interrupt h; Some (set_handlers hs m).

Definition pic_remap (m : machine) : machine :=
  let m := outb 0x20 0x11 m in
  let m := outb 0xA0 0x11 m in
  let m := outb 0x21 0x20 m in
  let m := outb 0xA1 0x28 m in
  let m := outb 0x21 0x04 m in
  let m := outb 0xA1 0x02 m in
  let m := outb 0x21 0x01 m in
  let m := outb 0xA1 0x01 m in
  let m := outb 0x21 0x00 m in
  outb 0xA1 0x00 m.

Definition pic_send_eoi (irq : Z) (m : machine) : machine :=
  let m := if 8 <=? irq then outb 0xA0 0x20 m else m in
  outb 0x20 0x20 m.

(** [irq + 32] is computed as [int] and cut to the [uint8_t] parameter. *)
Definition irq_install_handler (irq : Z) (h : handler) (m : machine) : option machine :=
  register_interrupt_handler (u8 (irq + 32)) (Some h) m.

Definition irq_remove_handler (irq : Z) (m : machine) : option machine :=
  register_interrupt_handler (u8 (irq + 32)) None m.

(** How a call of [interrupt_handler] ends: it returns, or it halts for ever. *)
Inductive outcome :=
| Returned (m : machine)
| Halted (m : machine).

Section Linked.
Variable isr irq : Z -> Z.
Variable idt_address : Z.
Variable run_handler : handler -> machine -> option machine.

Definition interrupt_handler (interrupt_number error_code : Z) (m : machine)
  : option outcome :=
  h ← aget (interrupt_handlers m) interrupt_number;
  match h with
  | Some h => m ← run_handler h m; Some (Returned m)
  | None =>
      if interrupt_number <? 32 then
        let m := set_term (terminal_setcolor (vga_color LIGHT_RED) (mterm m)) m in
        m ← writestring (chars "EXCEPTION: ") m;
        msg ← aget exception_messages interrupt_number;
        m ← writestring msg m;
        m ← writestring (10 :: chars "System halted.") m;
        Some (Halted (disable_interrupts m))
      else Some (Returned (pic_send_eoi (u8 (interrupt_number - 32)) m))
  end.

Definition clear_idt (m : machine) : option machine :=
  for_range 0 256 (fun i m =>
    hs ← aset (interrupt_handlers m) i None;
    idt_set_gate (u8 i) 0 0 0 (set_handlers hs m)) m.

(** The twenty calls [idt_set_gate(n, isr<n>, 0x08, 0x8E)], and the sixteen for the IRQs. *)
Definition exception_gates (m : machine) : option machine :=
  for_range 0 20 (fun n => idt_set_gate n (u32 (isr n)) 0x08 0x8E) m.

Definition irq_gates (m : machine) : option machine :=
  for_range 0 16 (fun n => idt_set_gate (32 + n) (u32 (irq n)) 0x08 0x8E) m.

Definition interrupts_init (m : machine) : option machine :=
  m ← writestring (chars "Initializing interrupts..." ++ [10]) m;
  m ← clear_idt m;
  m ← exception_gates m;
  let m := pic_remap m in
  m ← irq_gates m;
  let m := load_idt (8 * 256 - 1) (u32 idt_address) m in
  writestring (chars "Interrupt system ready" ++ [10]) m.

End Linked.

(** ** The entry stubs of interrupts.s, on a stack of 32-bit words (top first) *)

Record cpu := mk_cpu {
  general : list Z;
  ds : Z; es : Z; fs : Z; gs : Z
}.

(** [ISR_NOERR n]: a dummy error code and the number; [ISR_ERR n]: the CPU pushed the code. *)
Definition isr_noerr (n : Z) (stack : list Z) : list Z := n :: 0 :: stack.
Definition isr_err (n : Z) (stack : list Z) : list Z := n :: stack.
Definition irq_stub (n : Z) (stack : list Z) : list Z := n :: 0 :: stack.

(** [isr_common] and [irq_common] up to the call: [pusha] and the four segment registers,
    [ds] first; the registers are reloaded only afterwards. *)
Definition common_pushes (c : cpu) (stack : list Z) : list Z :=
  gs c :: fs c :: es c :: ds c :: general c ++ stack.

(** The two arguments a C function finds above its return address. *)
Definition cdecl_args (stack : list Z) : option (Z * Z) :=
  match stack with
  | a :: b :: _ => Some (a, b)
  | _ => None
  end.

(** ** Gates *)

Definition gate (base sel flags : Z) : idt_entry :=
  mk_gate (Z.land base 0xFFFF) sel 0 flags (Z.land (Z.shiftr base 16) 0xFFFF).

(** The handler address the CPU reads from a descriptor. *)
Definition gate_offset (e : idt_entry) : Z := offset_low e + offset_high e * 65536.

Lemma gate_offset_gate base sel flags : is_u 32 base -> gate_offset (gate base sel flags) = base.
Proof.
  intros Hb. unfold gate_offset, gate. cbn [offset_low offset_high].
  change 0xFFFF with (Z.ones 16). rewrite !Z.land_ones, Z.shiftr_div_pow2 by lia.
  unfold is_u in Hb. pow2. rewrite (Z.mod_small (base / 65536)).
  - pose proof (Z.div_mod base 65536 ltac:(lia)). lia.
  - split; [apply Z.div_pos; lia|apply Z.div_lt_upper_bound; lia].
Qed.

Lemma idt_set_gate_spec num base sel flags m :
  length (idt m) = 256%nat -> 0 <= num < 256 ->
  idt_set_gate num base sel flags m
  = Some (set_idt (<[Z.to_nat num := gate base sel flags]> (idt m)) m).
Proof.
  intros Hl Hn. unfold idt_set_gate. rewrite aset_Some by (unfold zlen; lia). done.
Qed.

(** A run of gates: entry [off + k] gets [g k] for [k] in [0, n). *)
Lemma gate_run (g : Z -> idt_entry) (body : Z -> machine -> option machine) off n m :
  0 <= off -> 0 <= n -> off + n <= 256 -> length (idt m) = 256%nat ->
  (forall k t, 0 <= k < n -> length (idt t) = 256%nat ->
     body k t = Some (set_idt (<[Z.to_nat (off + k) := g k]> (idt t)) t)) ->
  exists l, for_range 0 n body m = Some (set_idt l m) /\ length l = 256%nat /\
    forall i, 0 <= i < 256 ->
      aget l i = if (off <=? i) && (i <? off + n) then Some (g (i - off)) else aget (idt m) i.
Proof.
  intros Ho Hn Hle Hl Hb.
  destruct (for_range_inv (fun j t => exists l, t = set_idt l m /\ length l = 256%nat /\
      forall i, 0 <= i < 256 ->
        aget l i = if (off <=? i) && (i <? off + j) then Some (g (i - off)) else aget (idt m) i)
    0 n body m) as (t & Ht & l & -> & Hll & Hi); [done| | |].
  - intros j t Hj (l & -> & Hll & Hi). rewrite Hb by done.
    eexists. split; [done|]. eexists. split; [done|]. cbn [idt set_idt].
    rewrite length_insert. split; [done|]. intros i Hi'.
    destruct (Z.eq_dec i (off + j)) as [->|Hne].
    + rewrite aget_insert_eq by (unfold zlen; lia). zres. do 2 f_equal. lia.
    + rewrite aget_insert_ne, Hi by lia. destruct (Z.leb_spec off i); cbn [andb]; [|done].
      destruct (Z.ltb_spec i (off + j)); by zres.
  - exists (idt m). split; [by destruct m|]. split; [done|]. intros i Hi.
    destruct (Z.leb_spec off i); by zres.
  - exists l. done.
Qed.

Lemma clear_idt_spec m : length (idt m) = 256%nat -> length (interrupt_handlers m) = 256%nat ->
  clear_idt m = Some (set_idt (replicate 256 (gate 0 0 0))
                        (set_handlers (replicate 256 None) m)).
Proof.
  intros Hi Hh. unfold clear_idt.
  pose proof (length_replicate 256 (gate 0 0 0)) as HlG.
  pose proof (length_replicate 256 (None : option handler)) as HlN.
  assert (forall j, 0 <= j < 256 -> aget (replicate 256 (gate 0 0 0)) j = Some (gate 0 0 0)) as HG
    by (intros; unfold aget; zres; apply lookup_replicate_2; lia).
  assert (forall j, 0 <= j < 256 -> aget (replicate 256 (None : option handler)) j = Some None) as HN
    by (intros; unfold aget; zres; apply lookup_replicate_2; lia).
  generalize dependent (replicate 256 (gate 0 0 0)). intros G HlG HG.
  generalize dependent (replicate 256 (None : option handler)). intros N HlN HN.
  match goal with |- for_range _ _ ?b _ = _ => destruct (for_range_inv
    (fun j t => t = set_idt (fill_upto j G (idt m))
      (set_handlers (fill_upto j N (interrupt_handlers m)) m)) 0 256 b m) as (t & Ht & Hr) end.
  - lia.
  - intros j t Hj ->. cbn [interrupt_handlers set_idt set_handlers].
    rewrite (fill_upto_step j None N) by (auto || (unfold zlen; lia)). step.
    rewrite wrap_small by (pow2; lia). unfold idt_set_gate. cbn [idt set_idt set_handlers].
    change (mk_gate _ _ _ _ _) with (gate 0 0 0).
    rewrite (fill_upto_step j (gate 0 0 0) G) by (auto || (unfold zlen; lia)). step.
    eexists. split; reflexivity.
  - by destruct m.
  - rewrite Ht, Hr, (fill_upto_all 256 G), (fill_upto_all 256 N) by lia. reflexivity.
Qed.

Lemma aget_G i : 0 <= i < 256 -> aget (replicate 256 (gate 0 0 0)) i = Some (gate 0 0 0).
Proof. intros. unfold aget. zres. apply lookup_replicate_2. lia. Qed.

Section Linked.
Variable isr irq : Z -> Z.
Variable idt_address : Z.

(** What the table holds once interrupts are set up. *)
Definition init_gate (i : Z) : idt_entry :=
  if i <? 20 then gate (u32 (isr i)) 0x08 0x8E
  else if (32 <=? i) && (i <? 48) then gate (u32 (irq (i - 32))) 0x08 0x8E
  else gate 0 0 0.

Definition pic_remap_trace : list (Z * Z) :=
  [(0x20, 0x11); (0xA0, 0x11); (0x21, 0x20); (0xA1, 0x28); (0x21, 0x04);
   (0xA1, 0x02); (0x21, 0x01); (0xA1, 0x01); (0x21, 0x00); (0xA1, 0x00)].

Lemma pic_remap_spec m : pic_remap m = set_outs (outs m ++ pic_remap_trace) m.
Proof.
  unfold pic_remap. cbv zeta. rewrite !outb_spec. cbn [outs set_outs].
  rewrite !set_outs_twice, <- !app_assoc. reflexivity.
Qed.

Lemma interrupts_init_spec m : machine_wf m ->
  exists m', interrupts_init isr irq idt_address m = Some m' /\ machine_wf m' /\
    (forall i, 0 <= i < 256 -> aget (idt m') i = Some (init_gate i)) /\
    interrupt_handlers m' = replicate 256 None /\
    idtr m' = (2047, u32 idt_address) /\ outs m' = outs m ++ pic_remap_trace /\
    mkbd m' = mkbd m /\ port60 m' = port60 m /\ mvmm m' = mvmm m.
Proof.
  intros Hwf. unfold interrupts_init.
  destruct (writestring_wf (chars "Initializing interrupts..." ++ [10]) m Hwf) as (t1 & -> & Ht1 & _).
  step. rewrite clear_idt_spec by apply Hwf. step. unfold exception_gates.
  set (m1 := set_idt _ _).
  destruct (gate_run (fun k => gate (u32 (isr k)) 0x08 0x8E)
    (fun n => idt_set_gate n (u32 (isr n)) 0x08 0x8E) 0 20 m1) as (l1 & -> & Hl1 & Hg1);
    [lia|lia|lia|unfold m1; cbn [idt set_idt]; apply length_replicate| |].
  { intros k t Hk Hl. by rewrite idt_set_gate_spec by (done || lia). }
  step. rewrite pic_remap_spec. set (m2 := set_outs _ _). unfold irq_gates.
  destruct (gate_run (fun k => gate (u32 (irq k)) 0x08 0x8E)
    (fun n => idt_set_gate (32 + n) (u32 (irq n)) 0x08 0x8E) 32 16 m2) as (l2 & -> & Hl2 & Hg2);
    [lia|lia|lia|done| |].
  { intros k t Hk Hl. by rewrite idt_set_gate_spec by (done || lia). }
  step. set (m3 := load_idt _ _ _).
  destruct (writestring_wf (chars "Interrupt system ready" ++ [10]) m3) as (t2 & -> & Ht2 & _).
  { constructor; [exact Ht1|done|apply length_replicate]. }
  eexists. split; [done|]. split.
  { constructor; [done|done|apply length_replicate]. }
  split; [|split; [done|split; [done|split; [|done]]]].
  - intros i Hi. change (aget l2 i = Some (init_gate i)). rewrite Hg2 by done.
    unfold init_gate. change (idt m2) with l1. rewrite Hg1 by done.
    change (idt m1) with (replicate 256 (gate 0 0 0)). rewrite aget_G by done.
    rewrite Z.sub_0_r. destruct (Z.ltb_spec i 20).
    + by zres.
    + destruct (Z.leb_spec 32 i); cbn [andb]; [|by zres].
      change (32 + 16) with 48. destruct (Z.ltb_spec i 48); by zres.
  - reflexivity.
Qed.
End Linked.

(** ** Dispatch *)

Lemma register_spec n h m : length (interrupt_handlers m) = 256%nat -> 0 <= n < 256 ->
  register_interrupt_handler n h m
  = Some (set_handlers (<[Z.to_nat n := h]> (interrupt_handlers m)) m).
Proof.
  intros Hl Hn. unfold register_interrupt_handler. by rewrite aset_Some by (unfold zlen; lia).
Qed.

Lemma messages_range n : 0 <= n -> is_Some (aget exception_messages n) <-> n < 20.
Proof.
  intros Hn. split.
  - intros [x Hx%aget_range]. exact (proj2 Hx).
  - intros Hlt. apply aget_Some. change (zlen exception_messages) with 20. lia.
Qed.

Lemma handler_at m n : machine_wf m -> 0 <= n < 256 -> is_Some (aget (interrupt_handlers m) n).
Proof. intros Hwf Hn. apply aget_Some. unfold zlen. rewrite (mw_handlers _ Hwf). lia. Qed.

(** The screen text of a fatal exception. *)
Definition exception_text (msg : list Z) : list Z :=
  chars "EXCEPTION: " ++ msg ++ 10 :: chars "System halted.".

Lemma messages_nonzero n msg : aget exception_messages n = Some msg -> Forall (fun c => c <> 0) msg.
Proof.
  assert (Forall (Forall (fun c => c <> 0)) exception_messages) as H
    by (repeat constructor; discriminate).
  unfold aget. zcase; [|discriminate]. intros E. exact (proj1 (Forall_lookup _ _) H _ _ E).
Qed.

Lemma writestrings_join s1 s2 m m1 m2 : Forall (fun c => c <> 0) s1 ->
  writestring s1 m = Some m1 -> writestring s2 m1 = Some m2 -> writestring (s1 ++ s2) m = Some m2.
Proof.
  unfold writestring, terminal_writestring. intros Hs H1 H2.
  destruct (terminal_write s1 (mterm m)) as [t1|] eqn:E1; [|discriminate]. injection H1 as <-.
  rewrite terminal_write_app, E1 by exact Hs. exact H2.
Qed.

Section Dispatch.
Variable run_handler : handler -> machine -> option machine.

Lemma unhandled_exception n e m msg : machine_wf m ->
  aget (interrupt_handlers m) n = Some None -> n < 20 -> aget exception_messages n = Some msg ->
  exists t, term_wf t /\
    terminal_writestring (exception_text msg)
      (terminal_setcolor (vga_color LIGHT_RED) (mterm m)) = Some t /\
    interrupt_handler run_handler n e m = Some (Halted (disable_interrupts (set_term t m))).
Proof.
  intros Hwf Hh Hn Hmsg. unfold interrupt_handler. rewrite Hh. step. zres. step || cbv zeta.
  set (m0 := set_term _ m).
  assert (machine_wf m0) as Hwf0 by (constructor; apply Hwf).
  destruct (writestring_wf (chars "EXCEPTION: ") m0 Hwf0) as (t1 & E1 & Ht1 & _).
  assert (machine_wf (set_term t1 m0)) as Hwf1 by (by apply set_term_wf).
  destruct (writestring_wf msg _ Hwf1) as (t2 & E2 & Ht2 & _).
  assert (machine_wf (set_term t2 (set_term t1 m0))) as Hwf2 by (by apply set_term_wf).
  destruct (writestring_wf (10 :: chars "System halted.") _ Hwf2) as (t3 & E3 & Ht3 & _).
  exists t3. split; [exact Ht3|]. split.
  - pose proof (messages_nonzero _ _ Hmsg) as Hnz.
    assert (Forall (fun c => c <> 0) (chars "EXCEPTION: ")) as Hnz0
      by (repeat constructor; discriminate).
    pose proof (writestrings_join _ _ _ _ _ Hnz0 E1
      (writestrings_join _ _ _ _ _ Hnz E2 E3)) as E.
    unfold writestring in E. unfold exception_text.
    destruct (terminal_writestring _ (mterm m0)) as [t|] eqn:Et; [|discriminate].
    injection E as E. change (terminal_setcolor _ _) with (mterm m0). rewrite Et. by f_equal.
  - rewrite E1. step. rewrite Hmsg. step. rewrite E2. step. rewrite E3. step. reflexivity.
Qed.

Lemma unnamed_exception n e m : machine_wf m ->
  aget (interrupt_handlers m) n = Some None -> 20 <= n < 32 ->
  interrupt_handler run_handler n e m = None.
Proof.
  intros Hwf Hh Hn. unfold interrupt_handler. rewrite Hh. step. zres. cbv zeta.
  set (m0 := set_term _ m).
  destruct (writestring_wf (chars "EXCEPTION: ") m0) as (t1 & -> & _);
    [constructor; apply Hwf|]. step.
  destruct (aget exception_messages n) as [msg|] eqn:E; [|reflexivity].
  apply aget_range in E. change (zlen exception_messages) with 20 in E. lia.
Qed.

End Dispatch.

(** The port writes that acknowledge IRQ [n - 32]: the slave PIC first when it raised it. *)
Definition eoi_trace (n : Z) : list (Z * Z) :=
  if 40 <=? n then [(0xA0, 0x20); (0x20, 0x20)] else [(0x20, 0x20)].

(** C32: After [interrupts_init] (run from any state with tables of the declared size) vectors
    0 to 19 and 32 to 47 hold present ring-0 32-bit interrupt gates of the kernel code segment
    whose handler address, as the CPU reassembles it from the two halves, is the stub's own;
    every other vector is not present; no C handler is installed; the IDT register covers the
    256 entries of the table; and the PIC sees exactly the ten remapping writes. *)
Theorem interrupts_init_installs_gates isr irq idt_address m :
  (forall n, is_u 32 (isr n)) -> (forall n, is_u 32 (irq n)) -> machine_wf m ->
  exists m', interrupts_init isr irq idt_address m = Some m' /\ machine_wf m' /\
    (forall i, 0 <= i < 256 -> exists e, aget (idt m') i = Some e /\
       if (i <? 20) || ((32 <=? i) && (i <? 48)) then
         gate_offset e = (if i <? 20 then isr i else irq (i - 32)) /\
         selector e = 0x08 /\ zero e = 0 /\ type_attr e = 0x8E
       else e = mk_gate 0 0 0 0 0) /\
    interrupt_handlers m' = replicate 256 None /\
    idtr m' = (2047, u32 idt_address) /\ outs m' = outs m ++ pic_remap_trace.
Proof.
  intros Hisr Hirq Hwf.
  destruct (interrupts_init_spec isr irq idt_address m Hwf)
    as (m' & E & Hwf' & Hg & Hh & Hr & Ho & _).
  exists m'. split; [exact E|]. split; [exact Hwf'|]. split; [|done].
  intros i Hi. exists (init_gate isr irq i). split; [by apply Hg|]. unfold init_gate.
  destruct (Z.ltb_spec i 20); cbn [orb]; [|destruct (_ && _)]; [| |reflexivity].
  all: rewrite wrap_small by (apply Hisr || apply Hirq).
  all: rewrite gate_offset_gate by (apply Hisr || apply Hirq); done.
Qed.

(** The machine before [interrupts_init], as the linker leaves the zeroed sections. *)
Definition example_machine : machine :=
  mk_machine (mk_term 0 0 7 (replicate 2000 0)) Memory.boot_vmm
    (mk_kbd 0 0 0 0) (replicate 256 (mk_gate 0 0 0 0 0)) (replicate 256 None) 0 0 (0, 0) false [] [].

Lemma example_machine_wf : machine_wf example_machine.
Proof.
  constructor; [|apply length_replicate|apply length_replicate].
  split; [apply length_replicate|]. cbn. pow2. lia.
Qed.

Definition example_stub (base n : Z) : Z := u32 (base + 8 * n).

Lemma interrupts_init_installs_gates_witness :
  exists m', interrupts_init (example_stub 0x100100) (example_stub 0x100300) 0x105000 example_machine
      = Some m' /\ machine_wf m' /\
    (forall i, 0 <= i < 256 -> exists e, aget (idt m') i = Some e /\
       if (i <? 20) || ((32 <=? i) && (i <? 48)) then
         gate_offset e = (if i <? 20 then example_stub 0x100100 i else example_stub 0x100300 (i - 32)) /\
         selector e = 0x08 /\ zero e = 0 /\ type_attr e = 0x8E
       else e = mk_gate 0 0 0 0 0) /\
    interrupt_handlers m' = replicate 256 None /\
    idtr m' = (2047, u32 0x105000) /\ outs m' = outs example_machine ++ pic_remap_trace.
Proof.
  apply interrupts_init_installs_gates; [intros; apply wrap_range; lia..|exact example_machine_wf].
Defined.

(** What [interrupt_handler] does on every interrupt number 0 to 255.  An installed handler
    runs and nothing else happens.  Without one, an exception 0 to 19 prints its message in
    light red and halts with interrupts off; 20 to 31 is a read past the twenty entries of
    [exception_messages]; from 32 on the PIC is acknowledged and the machine is otherwise left
    alone. *)
Theorem interrupt_handler_dispatch run_handler n e m :
  machine_wf m -> 0 <= n < 256 ->
  match aget (interrupt_handlers m) n with
  | Some (Some h) => interrupt_handler run_handler n e m = (m' ← run_handler h m; Some (Returned m'))
  | Some None =>
      if n <? 20 then
        exists msg t, aget exception_messages n = Some msg /\ term_wf t /\
          terminal_writestring (exception_text msg)
            (terminal_setcolor (vga_color LIGHT_RED) (mterm m)) = Some t /\
          interrupt_handler run_handler n e m = Some (Halted (disable_interrupts (set_term t m)))
      else if n <? 32 then interrupt_handler run_handler n e m = None
      else interrupt_handler run_handler n e m = Some (Returned (set_outs (outs m ++ eoi_trace n) m))
  | None => False
  end.
Proof.
  intros Hwf Hn. destruct (handler_at m n Hwf Hn) as [[h|] Hh]; rewrite Hh.
  - unfold interrupt_handler. rewrite Hh. reflexivity.
  - destruct (Z.ltb_spec n 20) as [Hlt|Hge].
    + destruct (proj2 (messages_range n (proj1 Hn)) Hlt) as [msg Hmsg].
      destruct (unhandled_exception run_handler n e m msg Hwf Hh Hlt Hmsg) as (t & ? & ? & ?).
      by exists msg, t.
    + destruct (Z.ltb_spec n 32) as [Hlt|Hge2]; [by apply unnamed_exception|].
      unfold interrupt_handler. rewrite Hh. step. zres. f_equal. f_equal.
      unfold pic_send_eoi, eoi_trace. rewrite wrap_small by (pow2; lia).
      destruct (Z.leb_spec 40 n); zres; rewrite !outb_spec; [|reflexivity].
      cbn [outs set_outs]. rewrite set_outs_twice, <- app_assoc. reflexivity.
Qed.

Lemma interrupt_handler_dispatch_witness :
  interrupt_handler (fun _ m => Some m) 44 0 example_machine
  = Some (Returned (set_outs (outs example_machine ++ eoi_trace 44) example_machine)).
Proof.
  exact (interrupt_handler_dispatch (fun _ m => Some m) 44 0 example_machine
    example_machine_wf ltac:(lia)).
Defined.

(** Installing and removing an IRQ handler: after [irq_install_handler] the interrupt
    [irq + 32] (modulo 256: IRQ numbers from 224 on land on the exceptions) runs it, every other
    interrupt is dispatched as before, and [irq_remove_handler] undoes the installation. *)
Theorem irq_install_remove_roundtrip run_handler irq h m :
  machine_wf m -> is_u 8 irq -> aget (interrupt_handlers m) (u8 (irq + 32)) = Some None ->
  exists m', irq_install_handler irq h m = Some m' /\ machine_wf m' /\
    (forall e, interrupt_handler run_handler (u8 (irq + 32)) e m'
       = (m'' ← run_handler h m'; Some (Returned m''))) /\
    (forall n, n <> u8 (irq + 32) -> aget (interrupt_handlers m') n = aget (interrupt_handlers m) n) /\
    irq_remove_handler irq m' = Some m.
Proof.
  intros Hwf _ Hnone. pose proof (wrap_range 8 (irq + 32) ltac:(lia)) as Hn. pow2.
  unfold irq_install_handler, irq_remove_handler.
  generalize dependent (u8 (irq + 32)). intros n Hnone Hn.
  rewrite register_spec by (apply Hwf || lia). eexists. split; [reflexivity|].
  assert (length (<[Z.to_nat n := Some h]> (interrupt_handlers m)) = 256%nat) as Hl
    by (rewrite length_insert; apply Hwf).
  assert (0 <= n < zlen (interrupt_handlers m)) as Hr by (unfold zlen; rewrite (mw_handlers _ Hwf); lia).
  split; [by constructor; [apply Hwf|apply Hwf|]|]. split.
  { intros e. unfold interrupt_handler. cbn [interrupt_handlers set_handlers].
    rewrite aget_insert_eq by exact Hr. reflexivity. }
  split.
  { intros k Hk. cbn [interrupt_handlers set_handlers]. apply aget_insert_ne; [lia|congruence]. }
  rewrite register_spec by (exact Hl || lia). cbn [interrupt_handlers set_handlers].
  rewrite list_insert_insert_eq, list_insert_id.
  - by destruct m.
  - revert Hnone. unfold aget. by zres.
Qed.

Lemma irq_install_remove_roundtrip_witness :
  exists m', irq_install_handler 1 keyboard_handler_ptr example_machine = Some m' /\ machine_wf m' /\
    (forall e, interrupt_handler (fun _ m => Some m) (u8 (1 + 32)) e m' = Some (Returned m')) /\
    (forall n, n <> u8 (1 + 32) ->
       aget (interrupt_handlers m') n = aget (interrupt_handlers example_machine) n) /\
    irq_remove_handler 1 m' = Some example_machine.
Proof.
  exact (irq_install_remove_roundtrip (fun _ m => Some m) 1 keyboard_handler_ptr example_machine
    example_machine_wf ltac:(by vm_compute) ltac:(reflexivity)).
Defined.

(** C39: The entry stubs do not hand the vector to C.  [isr_common] and [irq_common] push the
    segment registers on top of the number and the error code, so the C function reads the
    saved [gs] and [fs] as its arguments: with the kernel data segment 0x10 in [gs], any
    exception or IRQ (the keyboard's too) arrives as interrupt 16 and, unless a handler was
    installed there, prints the x87 message and halts. *)
Theorem stubs_pass_gs_as_interrupt_number run_handler c n stack m :
  machine_wf m -> gs c = 0x10 -> aget (interrupt_handlers m) 16 = Some None ->
  (forall pushed, pushed ∈ [isr_noerr n stack; isr_err n stack; irq_stub n stack] ->
     cdecl_args (common_pushes c pushed) = Some (16, fs c)) /\
  exists t, terminal_writestring (exception_text (chars "x87 FPU Error"))
      (terminal_setcolor (vga_color LIGHT_RED) (mterm m)) = Some t /\
    interrupt_handler run_handler 16 (fs c) m = Some (Halted (disable_interrupts (set_term t m))).
Proof.
  intros Hwf Hgs Hnone. split.
  - intros p _. unfold common_pushes, cdecl_args. by rewrite Hgs.
  - destruct (unhandled_exception run_handler 16 (fs c) m (chars "x87 FPU Error") Hwf Hnone)
      as (t & _ & ? & ?); [lia|reflexivity|by exists t].
Qed.

Lemma stubs_pass_gs_as_interrupt_number_witness :
  (forall pushed, pushed ∈ [isr_noerr 1 []; isr_err 1 []; irq_stub 1 []] ->
     cdecl_args (common_pushes (mk_cpu [] 16 16 16 16) pushed) = Some (16, 16)) /\
  exists t, terminal_writestring (exception_text (chars "x87 FPU Error"))
      (terminal_setcolor (vga_color LIGHT_RED) (mterm example_machine)) = Some t /\
    interrupt_handler (fun _ m => Some m) 16 16 example_machine
    = Some (Halted (disable_interrupts (set_term t example_machine))).
Proof.
  apply (stubs_pass_gs_as_interrupt_number (fun _ m => Some m) (mk_cpu [] 16 16 16 16) 1 []
    example_machine); [exact example_machine_wf|reflexivity|reflexivity].
Defined.

End Interrupts.
