(* ===== verification/Keyboard.v ===== *)
(** The keyboard driver: src/kernel/keyboard.c and src/kernel/keyboard.h. *)

From S2P Require Import Prelude Terminal Memory Machine Interrupts.
Import Terminal Machine Interrupts.

Module Keyboard.

(** The scan codes of keyboard.h. *)
Definition SCAN_ESCAPE : Z := 0x01.
Definition SCAN_1 : Z := 0x02.
Definition SCAN_2 : Z := 0x03.
Definition SCAN_3 : Z := 0x04.
Definition SCAN_4 : Z := 0x05.
Definition SCAN_5 : Z := 0x06.
Definition SCAN_6 : Z := 0x07.
Definition SCAN_7 : Z := 0x08.
Definition SCAN_8 : Z := 0x09.
Definition SCAN_9 : Z := 0x0A.
Definition SCAN_0 : Z := 0x0B.
Definition SCAN_MINUS : Z := 0x0C.
Definition SCAN_EQUALS : Z := 0x0D.
Definition SCAN_BACKSPACE : Z := 0x0E.
Definition SCAN_TAB : Z := 0x0F.
Definition SCAN_Q : Z := 0x10.
Definition SCAN_W : Z := 0x11.
Definition SCAN_E : Z := 0x12.
Definition SCAN_R : Z := 0x13.
Definition SCAN_T : Z := 0x14.
Definition SCAN_Y : Z := 0x15.
Definition SCAN_U : Z := 0x16.
Definition SCAN_I : Z := 0x17.
Definition SCAN_O : Z := 0x18.
Definition SCAN_P : Z := 0x19.
Definition SCAN_LEFTBRACKET : Z := 0x1A.
Definition SCAN_RIGHTBRACKET : Z := 0x1B.
Definition SCAN_ENTER : Z := 0x1C.
Definition SCAN_LEFTCTRL : Z := 0x1D.
Definition SCAN_A : Z := 0x1E.
Definition SCAN_S : Z := 0x1F.
Definition SCAN_D : Z := 0x20.
Definition SCAN_F : Z := 0x21.
Definition SCAN_G : Z := 0x22.
Definition SCAN_H : Z := 0x23.
Definition SCAN_J : Z := 0x24.
Definition SCAN_K : Z := 0x25.
Definition SCAN_L : Z := 0x26.
Definition SCAN_SEMICOLON : Z := 0x27.
Definition SCAN_APOSTROPHE : Z := 0x28.
Definition SCAN_GRAVE : Z := 0x29.
Definition SCAN_LEFTSHIFT : Z := 0x2A.
Definition SCAN_BACKSLASH : Z := 0x2B.
Definition SCAN_Z : Z := 0x2C.
Definition SCAN_X : Z := 0x2D.
Definition SCAN_C : Z := 0x2E.
Definition SCAN_V : Z := 0x2F.
Definition SCAN_B : Z := 0x30.
Definition SCAN_N : Z := 0x31.
Definition SCAN_M : Z := 0x32.
Definition SCAN_COMMA : Z := 0x33.
Definition SCAN_PERIOD : Z := 0x34.
Definition SCAN_SLASH : Z := 0x35.
Definition SCAN_RIGHTSHIFT : Z := 0x36.
Definition SCAN_KP_MULTIPLY : Z := 0x37.
Definition SCAN_LEFTALT : Z := 0x38.
Definition SCAN_SPACE : Z := 0x39.
Definition SCAN_CAPSLOCK : Z := 0x3A.
Definition SCAN_F1 : Z := 0x3B.
Definition SCAN_F2 : Z := 0x3C.
Definition SCAN_F3 : Z := 0x3D.
Definition SCAN_F4 : Z := 0x3E.
Definition SCAN_F5 : Z := 0x3F.
Definition SCAN_F6 : Z := 0x40.
Definition SCAN_F7 : Z := 0x41.
Definition SCAN_F8 : Z := 0x42.
Definition SCAN_F9 : Z := 0x43.
Definition SCAN_F10 : Z := 0x44.
Definition SCAN_NUMLOCK : Z := 0x45.
Definition SCAN_SCROLLLOCK : Z := 0x46.
Definition SCAN_KP7 : Z := 0x47.
Definition SCAN_KP8 : Z := 0x48.
Definition SCAN_KP9 : Z := 0x49.
Definition SCAN_KP_MINUS : Z := 0x4A.
Definition SCAN_KP4 : Z := 0x4B.
Definition SCAN_KP5 : Z := 0x4C.
Definition SCAN_KP6 : Z := 0x4D.
Definition SCAN_KP_PLUS : Z := 0x4E.
Definition SCAN_KP1 : Z := 0x4F.
Definition SCAN_KP2 : Z := 0x50.
Definition SCAN_KP3 : Z := 0x51.
Definition SCAN_KP0 : Z := 0x52.
Definition SCAN_KP_PERIOD : Z := 0x53.
Definition IRQ_KEYBOARD : Z := 1.

(** The 92 initialisers, then zeros up to the declared 128 entries. *)
Definition scancode_table : list Z :=
  [0; 0] ++ chars "1234567890-=" ++ [8]
  ++ [9] ++ chars "qwertyuiop[]" ++ [10]
  ++ [0] ++ chars "asdfghjkl;'`"
  ++ [0] ++ chars "\zxcvbnm,./" ++ [0]
  ++ chars "*" ++ [0] ++ chars " " ++ replicate 17 0
  ++ chars "-" ++ [0; 0; 0] ++ chars "+" ++ replicate 12 0
  ++ replicate 36 0.

(** 34 is the double quote. *)
Definition scancode_shift_table : list Z :=
  [0; 0] ++ chars "!@#$%^&*()_+" ++ [8]
  ++ [9] ++ chars "QWERTYUIOP{}" ++ [10]
  ++ [0] ++ chars "ASDFGHJKL:" ++ [34] ++ chars "~"
  ++ [0] ++ chars "|ZXCVBNM<>?" ++ [0]
  ++ chars "*" ++ [0] ++ chars " " ++ replicate 17 0
  ++ chars "-" ++ [0; 0; 0] ++ chars "+" ++ replicate 12 0
  ++ replicate 36 0.

Definition set_shift (v : Z) (k : keyboard_state) : keyboard_state :=
  mk_kbd v (ctrl_pressed k) (alt_pressed k) (caps_lock k).
Definition set_ctrl (v : Z) (k : keyboard_state) : keyboard_state :=
  mk_kbd (shift_pressed k) v (alt_pressed k) (caps_lock k).
Definition set_alt (v : Z) (k : keyboard_state) : keyboard_state :=
  mk_kbd (shift_pressed k) (ctrl_pressed k) v (caps_lock k).
Definition set_caps (v : Z) (k : keyboard_state) : keyboard_state :=
  mk_kbd (shift_pressed k) (ctrl_pressed k) (alt_pressed k) v.

Definition keyboard_init (m : machine) : option machine :=
  m ← writestring (chars "Initializing keyboard..." ++ [10]) m;
  let m := set_kbd (mk_kbd 0 0 0 0) m in
  m ← irq_install_handler IRQ_KEYBOARD keyboard_handler_ptr m;
  writestring (chars "Keyboard ready" ++ [10]) m.

Definition keyboard_scancode_to_char (k : keyboard_state) (scancode : Z) : option Z :=
  if 128 <=? scancode then Some 0 else
  let table := if shift_pressed k =? 0 then scancode_table else scancode_shift_table in
  c ← aget table scancode;
  Some (if (97 <=? c) && (c <=? 122) && negb (caps_lock k =? 0) then s8 (c - (97 - 65))
        else if (65 <=? c) && (c <=? 90) && negb (caps_lock k =? 0) then s8 (c + (97 - 65))
        else c).

(** The [switch] on a released key, and the one on a pressed key. *)
Definition key_released (scancode : Z) (m : machine) : machine :=
  if (scancode =? SCAN_LEFTSHIFT) || (scancode =? SCAN_RIGHTSHIFT) then
    set_kbd (set_shift 0 (mkbd m)) m
  else if scancode =? SCAN_LEFTCTRL then set_kbd (set_ctrl 0 (mkbd m)) m
  else if scancode =? SCAN_LEFTALT then set_kbd (set_alt 0 (mkbd m)) m
  else m.

Definition key_pressed (scancode : Z) (m : machine) : option machine :=
  if (scancode =? SCAN_LEFTSHIFT) || (scancode =? SCAN_RIGHTSHIFT) then
    Some (set_kbd (set_shift 1 (mkbd m)) m)
  else if scancode =? SCAN_LEFTCTRL then Some (set_kbd (set_ctrl 1 (mkbd m)) m)
  else if scancode =? SCAN_LEFTALT then Some (set_kbd (set_alt 1 (mkbd m)) m)
  else if scancode =? SCAN_CAPSLOCK then
    Some (set_kbd (set_caps (if caps_lock (mkbd m) =? 0 then 1 else 0) (mkbd m)) m)
  else
    c ← keyboard_scancode_to_char (mkbd m) scancode;
    if negb (c =? 0) then putchar c m else Some m.

Definition keyboard_handler (m : machine) : option machine :=
  let '(scancode, m) := inb_60 m in
  m ← (if negb (Z.land scancode 0x80 =? 0) then Some (key_released (Z.land scancode 0x7F) m)
       else key_pressed scancode m);
  Some (outb 0x20 0x20 m).

Definition keyboard_get_state (m : machine) : keyboard_state := mkbd m.

(** ** What the driver is meant to do, from the history of bytes alone *)

Definition is_shift (b : Z) : bool :=
  (Z.land b 0x7F =? SCAN_LEFTSHIFT) || (Z.land b 0x7F =? SCAN_RIGHTSHIFT).

(** A modifier is down when the last event of its keys is a press. *)
Definition down (is_key : Z -> bool) (hist : list Z) : bool :=
  match last (filter (fun b => is_key b = true) hist) with
  | Some b => b <? 128
  | None => false
  end.

Definition caps_on (hist : list Z) : bool :=
  Nat.odd (length (filter (fun b => b = SCAN_CAPSLOCK) hist)).

Definition is_modifier (b : Z) : bool :=
  is_shift b || (b =? SCAN_LEFTCTRL) || (b =? SCAN_LEFTALT) || (b =? SCAN_CAPSLOCK).

(** The US layout, for the keys as keyboard.h names them: the letters; the other keys with their
    character without and with shift; backspace, tab and enter are control characters.  Keys that are
    not listed give no character. *)
Definition us_letters : list (Z * Z) :=
  [(SCAN_Q, 113); (SCAN_W, 119); (SCAN_E, 101); (SCAN_R, 114); (SCAN_T, 116); (SCAN_Y, 121); (SCAN_U, 117);
   (SCAN_I, 105); (SCAN_O, 111); (SCAN_P, 112); (SCAN_A, 97); (SCAN_S, 115); (SCAN_D, 100); (SCAN_F, 102);
   (SCAN_G, 103); (SCAN_H, 104); (SCAN_J, 106); (SCAN_K, 107); (SCAN_L, 108); (SCAN_Z, 122); (SCAN_X, 120);
   (SCAN_C, 99); (SCAN_V, 118); (SCAN_B, 98); (SCAN_N, 110); (SCAN_M, 109)].
Definition us_symbols : list (Z * (Z * Z)) :=
  [(SCAN_1, (49, 33)); (SCAN_2, (50, 64)); (SCAN_3, (51, 35)); (SCAN_4, (52, 36)); (SCAN_5, (53, 37));
   (SCAN_6, (54, 94)); (SCAN_7, (55, 38)); (SCAN_8, (56, 42)); (SCAN_9, (57, 40)); (SCAN_0, (48, 41));
   (SCAN_MINUS, (45, 95)); (SCAN_EQUALS, (61, 43)); (SCAN_LEFTBRACKET, (91, 123)); (SCAN_RIGHTBRACKET, (93,
   125)); (SCAN_SEMICOLON, (59, 58)); (SCAN_APOSTROPHE, (39, 34)); (SCAN_GRAVE, (96, 126)); (SCAN_BACKSLASH,
   (92, 124)); (SCAN_COMMA, (44, 60)); (SCAN_PERIOD, (46, 62)); (SCAN_SLASH, (47, 63)); (SCAN_SPACE, (32,
   32)); (SCAN_KP_MULTIPLY, (42, 42)); (SCAN_KP_MINUS, (45, 45)); (SCAN_KP_PLUS, (43, 43));
   (SCAN_BACKSPACE, (8, 8)); (SCAN_TAB, (9, 9)); (SCAN_ENTER, (10, 10))].

Definition key {A} (sc : Z) (keys : list (Z * A)) : option A := snd ∘ snd <$> list_find (fun k => fst k = sc) keys.

(** Letters follow shift xor caps lock, other keys shift alone. *)
Definition us_layout (shift caps : bool) (sc : Z) : Z :=
  match key sc us_letters with
  | Some c => if xorb shift caps then c - 32 else c
  | None =>
      match key sc us_symbols with
      | Some (c, c') => if shift then c' else c
      | None => 0
      end
  end.

(** What the driver types: the US layout, except for four keys of the keypad, where minus and plus give
    nothing and 4 and 1 give a minus and a plus sign. *)
Definition key_char (shift caps : bool) (sc : Z) : Z :=
  if (sc =? SCAN_KP_MINUS) || (sc =? SCAN_KP_PLUS) then 0
  else if sc =? SCAN_KP4 then 45
  else if sc =? SCAN_KP1 then 43
  else us_layout shift caps sc.

(** The text a byte adds after the history [hist]. *)
Definition key_text (hist : list Z) (b : Z) : list Z :=
  if (b <? 128) && negb (is_modifier b) then
    let c := key_char (down is_shift hist) (caps_on hist) b in
    if c =? 0 then [] else [c]
  else [].

Fixpoint typed_text (hist bs : list Z) : list Z :=
  match bs with
  | [] => []
  | b :: rest => key_text hist b ++ typed_text (hist ++ [b]) rest
  end.

(** ** The tables *)

Definition lower (sc : Z) : Z := default 0 (aget scancode_table sc).
Definition shifted (sc : Z) : Z := default 0 (aget scancode_shift_table sc).
Definition is_letter (c : Z) : bool := (97 <=? c) && (c <=? 122).

(** What the tables give. *)
Definition table_layout (shift caps : bool) (sc : Z) : Z :=
  if is_letter (lower sc) then (if xorb shift caps then lower sc - 32 else lower sc)
  else if shift then shifted sc else lower sc.

Definition bool_flag (b : bool) : Z := if b then 1 else 0.

Lemma table_lookup t sc : length t = 128%nat -> 0 <= sc < 128 -> aget t sc = Some (default 0 (aget t sc)).
Proof.
  intros Hl Hs. destruct (aget_Some t sc) as [x Hx]; [unfold zlen; lia|]. by rewrite Hx.
Qed.

(** Every one of the 128 entries: a letter key has its capital in the shift table, and no
    other shifted entry is a letter. *)
Lemma tables_agree sc : 0 <= sc < 128 ->
  0 <= lower sc < 128 /\ 0 <= shifted sc < 128 /\
  (is_letter (lower sc) = true -> shifted sc = lower sc - 32) /\
  (is_letter (lower sc) = false ->
     ~ 65 <= lower sc <= 90 /\ ~ 97 <= shifted sc <= 122 /\ ~ 65 <= shifted sc <= 90).
Proof.
  intros Hs.
  pose (P := fun sc => (0 <=? lower sc) && (lower sc <? 128) && (0 <=? shifted sc) &&
    (shifted sc <? 128) &&
    if is_letter (lower sc) then shifted sc =? lower sc - 32
    else negb ((65 <=? lower sc) && (lower sc <=? 90)) &&
         negb ((97 <=? shifted sc) && (shifted sc <=? 122)) &&
         negb ((65 <=? shifted sc) && (shifted sc <=? 90))).
  assert (P sc = true) as HP by (apply (ztest_spec 128); [vm_compute; reflexivity|exact Hs]).
  unfold P in HP. clear P. unfold is_letter in *. zcase; try discriminate; intuition lia.
Qed.

(** The C function reads the tables, in every modifier state. *)
Lemma scancode_to_char_tables k sc : 0 <= sc < 128 ->
  keyboard_scancode_to_char k sc
  = Some (table_layout (negb (shift_pressed k =? 0)) (negb (caps_lock k =? 0)) sc).
Proof.
  intros Hs. destruct (tables_agree sc Hs) as (Hl & Hu & Hlet & Hnot).
  unfold keyboard_scancode_to_char, table_layout. zres. cbv zeta.
  destruct (shift_pressed k =? 0); cbn [negb].
  - rewrite (table_lookup scancode_table) by (reflexivity || lia). fold (lower sc). step. f_equal.
    unfold is_letter in *. destruct (caps_lock k =? 0); cbn [negb xorb];
      rewrite ?andb_false_r, ?andb_true_r; [by destruct (_ && _)|].
    destruct (Z.leb_spec 97 (lower sc)), (Z.leb_spec (lower sc) 122); cbn [andb] in *;
      [unfold sgn; rewrite wrap_small by (pow2; lia); by zres| | |];
      destruct (Z.leb_spec 65 (lower sc)), (Z.leb_spec (lower sc) 90); cbn [andb]; try done; lia.
  - rewrite (table_lookup scancode_shift_table) by (reflexivity || lia). fold (shifted sc). step. f_equal.
    destruct (is_letter (lower sc)) eqn:E.
    + specialize (Hlet eq_refl). unfold is_letter in E. apply andb_true_iff in E as [E1 E2].
      apply Z.leb_le in E1, E2. zres.
      destruct (caps_lock k =? 0); cbn [negb xorb]; [lia|].
      unfold sgn. rewrite wrap_small by (pow2; lia). change (2 ^ (8 - 1)) with 128. zres. lia.
    + specialize (Hnot eq_refl).
      destruct (Z.leb_spec 97 (shifted sc)), (Z.leb_spec (shifted sc) 122),
        (Z.leb_spec 65 (shifted sc)), (Z.leb_spec (shifted sc) 90); cbn [andb]; try done; lia.
Qed.

(** The tables have the US layout, but for the four keys. *)
Lemma tables_are_us shift caps sc : 0 <= sc < 128 -> table_layout shift caps sc = key_char shift caps sc.
Proof.
  intros Hs. pose (P := fun sc => forallb (fun sh => forallb (fun ca => table_layout sh ca sc =? key_char sh ca sc) [true; false]) [true; false]).
  assert (P sc = true) as HP by (apply (ztest_spec 128); [vm_compute; reflexivity|exact Hs]).
  unfold P in HP. cbn [forallb] in HP. rewrite !andb_true_r, !andb_true_iff, !Z.eqb_eq in HP.
  destruct HP as [[H1 H2] [H3 H4]], shift, caps; assumption.
Qed.

Lemma scancode_to_char_layout k sc : 0 <= sc < 128 ->
  keyboard_scancode_to_char k sc = Some (key_char (negb (shift_pressed k =? 0)) (negb (caps_lock k =? 0)) sc).
Proof. intros Hs. rewrite scancode_to_char_tables, tables_are_us by done. done. Qed.

(** ** One byte *)

Definition is_ctrl (b : Z) : bool := Z.land b 0x7F =? SCAN_LEFTCTRL.
Definition is_alt (b : Z) : bool := Z.land b 0x7F =? SCAN_LEFTALT.

(** The flags the history determines. *)
Definition kbd_of (hist : list Z) : keyboard_state :=
  mk_kbd (bool_flag (down is_shift hist)) (bool_flag (down is_ctrl hist))
    (bool_flag (down is_alt hist)) (bool_flag (caps_on hist)).

Lemma down_snoc f hist b : down f (hist ++ [b]) = if f b then b <? 128 else down f hist.
Proof.
  unfold down. rewrite filter_app. destruct (f b) eqn:E.
  - rewrite (filter_cons_True _ b []) by exact E. rewrite filter_nil, last_snoc. done.
  - rewrite (filter_cons_False _ b []) by congruence. by rewrite filter_nil, app_nil_r.
Qed.

Lemma caps_snoc hist b :
  caps_on (hist ++ [b]) = if b =? SCAN_CAPSLOCK then negb (caps_on hist) else caps_on hist.
Proof.
  unfold caps_on. rewrite filter_app, length_app. destruct (Z.eqb_spec b SCAN_CAPSLOCK) as [->|E].
  - rewrite filter_cons_True, filter_nil by done. cbn [length].
    by rewrite Nat.add_1_r, Nat.odd_succ, <- Nat.negb_odd.
  - by rewrite filter_cons_False, filter_nil, Nat.add_0_r by done.
Qed.

Lemma byte_split b : is_u 8 b ->
  (Z.land b 0x80 =? 0) = (b <? 128) /\ Z.land b 0x7F = (if b <? 128 then b else b - 128).
Proof.
  intros Hb. pose (P := fun b => bool_decide ((Z.land b 0x80 =? 0) = (b <? 128) /\
    Z.land b 0x7F = (if b <? 128 then b else b - 128))).
  assert (P b = true) as HP by (apply (ztest_spec 256); [vm_compute; reflexivity|exact Hb]).
  by apply bool_decide_eq_true in HP.
Qed.

Lemma flag_zero b : (bool_flag b =? 0) = negb b.
Proof. by destruct b. Qed.

(** The machine after one handled byte. *)
Definition handled (hist : list Z) (b : Z) (rest : list Z) (t : term) (m : machine) : machine :=
  mk_machine t (mvmm m) (kbd_of (hist ++ [b])) (idt m) (interrupt_handlers m) (idt_limit m)
    (idt_base m) (idtr m) (interrupts_on m) rest (outs m ++ [(0x20, 0x20)]).

(** The effect of a byte on flags and text, the two switches together. *)
Lemma released_step hist b m : 128 <= b -> is_u 8 b -> mkbd m = kbd_of hist ->
  key_released (Z.land b 0x7F) m = set_kbd (kbd_of (hist ++ [b])) m.
Proof.
  intros Hge Hb Hk. unfold key_released, kbd_of. rewrite !down_snoc, caps_snoc, Hk.
  unfold is_shift, is_ctrl, is_alt, SCAN_CAPSLOCK. zres.
  destruct (_ || _) eqn:E1.
  - assert ((Z.land b 0x7F =? SCAN_LEFTCTRL) = false /\ (Z.land b 0x7F =? SCAN_LEFTALT) = false)
      as [-> ->]; [|done].
    unfold SCAN_LEFTSHIFT, SCAN_RIGHTSHIFT, SCAN_LEFTCTRL, SCAN_LEFTALT in *.
    apply orb_true_iff in E1 as [E%Z.eqb_eq|E%Z.eqb_eq]; rewrite E; done.
  - destruct (Z.land b 0x7F =? SCAN_LEFTCTRL) eqn:E2.
    + assert ((Z.land b 0x7F =? SCAN_LEFTALT) = false) as ->; [|done].
      apply Z.eqb_eq in E2. by rewrite E2.
    + destruct (Z.land b 0x7F =? SCAN_LEFTALT); [done|].
      change (m = set_kbd (kbd_of hist) m). rewrite <- Hk. by destruct m.
Qed.

Lemma pressed_step hist b m : 0 <= b < 128 -> machine_wf m -> mkbd m = kbd_of hist ->
  exists t, terminal_write (key_text hist b) (mterm m) = Some t /\ term_wf t /\
    key_pressed b m = Some (set_term t (set_kbd (kbd_of (hist ++ [b])) m)).
Proof.
  intros Hb Hwf Hk. destruct (byte_split b) as [_ H7]; [split; pow2; lia|].
  rewrite (proj2 (Z.ltb_lt b 128)) in H7 by lia.
  unfold key_pressed, key_text, is_modifier, kbd_of. rewrite !down_snoc, caps_snoc, Hk.
  assert (is_shift b = (b =? SCAN_LEFTSHIFT) || (b =? SCAN_RIGHTSHIFT) /\
    is_ctrl b = (b =? SCAN_LEFTCTRL) /\ is_alt b = (b =? SCAN_LEFTALT)) as (-> & -> & ->)
    by (unfold is_shift, is_ctrl, is_alt; by rewrite H7).
  zres. cbn [caps_lock kbd_of].
  assert (forall x, set_term (mterm m) (set_kbd x m) = set_kbd x m) as Hid by (by destruct m).
  assert (forall c, c <> 0 -> exists t, terminal_write [c] (mterm m) = Some t /\ term_wf t /\
            putchar c m = Some (set_term t m)) as Hput.
  { intros c Hc. destruct (putchar_wf' c m Hwf) as (t & E & Ht & E'). exists t.
    cbn [terminal_write]. rewrite (proj2 (Z.eqb_neq _ _) Hc), E'. done. }
  destruct (Z.eqb_spec b SCAN_LEFTSHIFT) as [->|N1];
    [exists (mterm m); rewrite Hid; split; [done|split; [apply Hwf|done]]|].
  destruct (Z.eqb_spec b SCAN_RIGHTSHIFT) as [->|N2];
    [exists (mterm m); rewrite Hid; split; [done|split; [apply Hwf|done]]|].
  destruct (Z.eqb_spec b SCAN_LEFTCTRL) as [->|N3];
    [exists (mterm m); rewrite Hid; split; [done|split; [apply Hwf|done]]|].
  destruct (Z.eqb_spec b SCAN_LEFTALT) as [->|N4];
    [exists (mterm m); rewrite Hid; split; [done|split; [apply Hwf|done]]|].
  destruct (Z.eqb_spec b SCAN_CAPSLOCK) as [->|N5];
    [exists (mterm m); rewrite Hid, flag_zero; split; [done|split; [apply Hwf|by destruct (caps_on hist)]]|].
  cbn [orb negb]. rewrite scancode_to_char_layout by done. step.
  cbn [shift_pressed caps_lock kbd_of]. rewrite !flag_zero, !negb_involutive.
  assert (set_kbd (kbd_of hist) m = m) as Hm by (rewrite <- Hk; by destruct m).
  match goal with |- context [set_kbd ?x m] => change (set_kbd x m) with (set_kbd (kbd_of hist) m) end.
  rewrite Hm.
  destruct (Z.eqb_spec (key_char (down is_shift hist) (caps_on hist) b) 0) as [Ez|Ez]; cbn [negb].
  - exists (mterm m). split; [done|split; [apply Hwf|]]. by destruct m.
  - apply Hput. exact Ez.
Qed.

Lemma handler_step hist b rest m : machine_wf m -> is_u 8 b ->
  mkbd m = kbd_of hist -> port60 m = b :: rest ->
  exists t, terminal_write (key_text hist b) (mterm m) = Some t /\ term_wf t /\
    keyboard_handler m = Some (handled hist b rest t m).
Proof.
  intros Hwf Hb Hk Hp. destruct (byte_split b Hb) as [H80 _]. unfold is_u in Hb. pow2.
  unfold keyboard_handler, inb_60. rewrite Hp, H80.
  set (m1 := mk_machine _ _ _ _ _ _ _ _ _ _ _).
  destruct (Z.ltb_spec b 128) as [Hlt|Hge]; cbn [negb].
  - destruct (pressed_step hist b m1) as (t & Ht & Hwt & ->);
      [lia|constructor; apply Hwf|exact Hk|].
    exists t. step. done.
  - rewrite (released_step hist) by (unfold is_u; pow2; exact Hk || lia). step.
    exists (mterm m). split; [|split; [apply Hwf|done]].
    unfold key_text. zres. done.
Qed.

Lemma handled_wf hist b rest t m : machine_wf m -> term_wf t -> machine_wf (handled hist b rest t m).
Proof. intros [_ H1 H2] Ht. by constructor. Qed.

(** ** A stream of bytes *)

(** One run of the handler per waiting byte. *)
Fixpoint handle_keys (n : nat) (m : machine) : option machine :=
  match n with
  | O => Some m
  | S n => m ← keyboard_handler m; handle_keys n m
  end.

Lemma key_text_nonzero hist b : Forall (fun c => c <> 0) (key_text hist b).
Proof.
  unfold key_text. destruct (_ && _); [|constructor]. cbv zeta.
  destruct (Z.eqb_spec (key_char (down is_shift hist) (caps_on hist) b) 0); repeat constructor; done.
Qed.

Lemma handle_keys_spec bs hist m : Forall (is_u 8) bs -> machine_wf m ->
  mkbd m = kbd_of hist -> port60 m = bs ->
  exists m', handle_keys (length bs) m = Some m' /\ machine_wf m' /\
    terminal_write (typed_text hist bs) (mterm m) = Some (mterm m') /\
    mkbd m' = kbd_of (hist ++ bs) /\ port60 m' = [] /\
    outs m' = outs m ++ replicate (length bs) (0x20, 0x20) /\
    mvmm m' = mvmm m /\ idt m' = idt m /\ interrupt_handlers m' = interrupt_handlers m.
Proof.
  revert hist m. induction bs as [|b bs IH]; intros hist m Hbs Hwf Hk Hp.
  - exists m. rewrite !app_nil_r. by destruct m.
  - inversion Hbs; subst. destruct (handler_step hist b bs m) as (t & Ht & Hwt & E); [done..|].
    destruct (IH (hist ++ [b]) (handled hist b bs t m)) as (m' & E' & Hwf' & Hw & Hk' & Hr);
      [done|by apply handled_wf|done|done|].
    exists m'. cbn [length handle_keys]. rewrite E. step. split; [exact E'|]. split; [exact Hwf'|].
    split.
    + cbn [typed_text]. rewrite terminal_write_app, Ht by apply key_text_nonzero. exact Hw.
    + rewrite Hk', <- app_assoc. split; [done|].
      destruct Hr as (? & Ho & ? & ? & ?). split; [done|]. split; [|done].
      rewrite Ho. cbn [outs handled]. by rewrite <- app_assoc.
Qed.

Lemma keyboard_init_spec m : machine_wf m ->
  exists m', keyboard_init m = Some m' /\ machine_wf m' /\ mkbd m' = kbd_of [] /\
    port60 m' = port60 m /\ outs m' = outs m /\ mvmm m' = mvmm m /\
    (forall n, aget (interrupt_handlers m') n
       = if n =? 33 then Some (Some keyboard_handler_ptr) else aget (interrupt_handlers m) n) /\
    idt m' = idt m.
Proof.
  intros Hwf. unfold keyboard_init.
  destruct (writestring_wf (chars "Initializing keyboard..." ++ [10]) m Hwf) as (t1 & -> & Ht1 & _).
  step. unfold irq_install_handler. change (u8 (IRQ_KEYBOARD + 32)) with 33.
  rewrite register_spec by (apply Hwf || lia). step.
  set (m1 := set_handlers _ _).
  assert (machine_wf m1) as Hwf1.
  { constructor; [exact Ht1|apply Hwf|]. cbn. rewrite length_insert. apply Hwf. }
  destruct (writestring_wf (chars "Keyboard ready" ++ [10]) m1 Hwf1) as (t2 & -> & Ht2 & _).
  exists (set_term t2 m1). split; [done|]. split; [by apply set_term_wf|].
  do 4 (split; [done|]). split; [|done].
  intros n. cbn [interrupt_handlers set_term m1 set_handlers set_kbd].
  destruct (Z.eqb_spec n 33) as [->|Hne].
  - apply aget_insert_eq. unfold zlen. rewrite (mw_handlers _ Hwf). lia.
  - apply (aget_insert_ne _ 33 n); lia.
Qed.

(** C28: The keyboard driver decodes any stream of bytes from the controller: once
    [keyboard_init] has run, one call of [keyboard_handler] for each byte always terminates and
    prints exactly the text of the keys pressed, in the US layout for the keys as keyboard.h names
    them, except that keypad minus and plus print nothing and keypad 4 and 1 print a minus and a
    plus sign; shift is held iff the last event of a shift key was a press and caps lock is on iff
    it was pressed an odd number of times.  The driver keeps the flags equal to what the history says, acknowledges the PIC once per byte
    and leaves memory management and the interrupt tables alone. *)
Theorem keyboard_decodes_stream bs m :
  machine_wf m -> Forall (is_u 8) bs -> port60 m = bs ->
  exists m1 m2, keyboard_init m = Some m1 /\ handle_keys (length bs) m1 = Some m2 /\
    terminal_write (typed_text [] bs) (mterm m1) = Some (mterm m2) /\ term_wf (mterm m2) /\
    keyboard_get_state m2 = mk_kbd (bool_flag (down is_shift bs)) (bool_flag (down is_ctrl bs))
                              (bool_flag (down is_alt bs)) (bool_flag (caps_on bs)) /\
    outs m2 = outs m ++ replicate (length bs) (0x20, 0x20) /\
    mvmm m2 = mvmm m /\ idt m2 = idt m /\ interrupt_handlers m2 = interrupt_handlers m1.
Proof.
  intros Hwf Hbs Hp. destruct (keyboard_init_spec m Hwf)
    as (m1 & E1 & Hwf1 & Hk1 & Hp1 & Ho1 & Hv1 & _ & Hi1).
  destruct (handle_keys_spec bs [] m1 Hbs Hwf1 Hk1) as (m2 & E2 & Hwf2 & Ht & Hk & _ & Ho & Hv & Hi & Hh);
    [congruence|].
  exists m1, m2. split; [exact E1|]. split; [exact E2|]. split; [exact Ht|].
  split; [apply Hwf2|]. split; [exact Hk|].
  rewrite Ho, Ho1, Hv, Hi. done.
Qed.

(** Shift down, [h], shift up, [i], caps lock, [1] and [a]. *)
Definition example_bytes : list Z := [0x2A; 0x23; 0xA3; 0xAA; 0x17; 0x97; 0x3A; 0xBA; 0x02; 0x1E].

Definition with_port (bs : list Z) (m : machine) : machine :=
  mk_machine (mterm m) (mvmm m) (mkbd m) (idt m) (interrupt_handlers m) (idt_limit m)
    (idt_base m) (idtr m) (interrupts_on m) bs (outs m).

Lemma keyboard_decodes_stream_witness :
  typed_text [] example_bytes = chars "Hi1A" /\
  exists m1 m2, keyboard_init (with_port example_bytes example_machine) = Some m1 /\
    handle_keys 10 m1 = Some m2 /\
    terminal_write (chars "Hi1A") (mterm m1) = Some (mterm m2).
Proof.
  split; [reflexivity|].
  destruct (keyboard_decodes_stream example_bytes (with_port example_bytes example_machine))
    as (m1 & m2 & E1 & E2 & E3 & _).
  - constructor; apply example_machine_wf.
  - unfold example_bytes. repeat constructor; discriminate.
  - reflexivity.
  - exists m1, m2. split; [exact E1|]. split; [exact E2|]. exact E3.
Defined.

(** For every one of the 128 make codes and every modifier state [keyboard_scancode_to_char] returns
    the character of the US layout, but for the four keys of the keypad; codes from 128 up give no
    character. *)
Theorem scancode_to_char_is_us_layout k sc : is_u 8 sc ->
  keyboard_scancode_to_char k sc
  = Some (if sc <? 128 then key_char (negb (shift_pressed k =? 0)) (negb (caps_lock k =? 0)) sc else 0).
Proof.
  intros Hs. unfold is_u in Hs. pow2. destruct (Z.ltb_spec sc 128) as [Hlt|Hge]; [apply scancode_to_char_layout; lia|].
  unfold keyboard_scancode_to_char. by zres.
Qed.

Lemma scancode_to_char_is_us_layout_witness : keyboard_scancode_to_char (mk_kbd 1 0 0 1) 0x1E = Some 97.
Proof. apply (scancode_to_char_is_us_layout (mk_kbd 1 0 0 1) 0x1E). by vm_compute. Defined.

(** The keypad rows of both tables are one entry too long: the keypad minus and plus keys
    (scan codes 0x4A and 0x4E of keyboard.h) print nothing in any modifier state, while keypad
    4 (0x4B) prints a minus sign and keypad 1 (0x4F) a plus sign. *)
Theorem keypad_table_shifted k :
  keyboard_scancode_to_char k SCAN_KP_MINUS = Some 0 /\
  keyboard_scancode_to_char k SCAN_KP_PLUS = Some 0 /\
  keyboard_scancode_to_char k SCAN_KP4 = Some 45 /\
  keyboard_scancode_to_char k SCAN_KP1 = Some 43.
Proof.
  unfold SCAN_KP_MINUS, SCAN_KP_PLUS, SCAN_KP4, SCAN_KP1.
  rewrite !scancode_to_char_layout by lia.
  destruct (shift_pressed k =? 0), (caps_lock k =? 0); repeat split; reflexivity.
Qed.

End Keyboard.
