(* ===== verification/Kernel.v ===== *)
(** The text-mode kernel put together: [memory_init] of src/kernel/memory.c, the way of an interrupt from
    the descriptor table through the entry stubs of interrupts.s to the C code, the dispatch to the
    keyboard driver, and what a started system does with key strokes. *)

From S2P Require Import Prelude Terminal Memory Machine Interrupts Keyboard.
Import Terminal Memory Machine Interrupts Keyboard.

Module Kernel.

Section Linked.
(** Addresses the linker chooses: [kernel_directory], the [idt] array and the stubs. *)
Variable kdir_addr idt_address : Z.
Variable isr irq : Z -> Z.
(** What a handler installed by code outside this kernel does. *)
Variable foreign : Z -> machine -> option machine.

Definition memory_init (m : machine) : option machine :=
  m ← writestring (chars "Initializing memory management..." ++ [10]) m;
  v ← paging_init kdir_addr (mvmm m);
  m ← writestring (chars "Paging enabled" ++ [10]) (set_vmm v m);
  m ← writestring (chars "Heap initialized" ++ [10]) (set_vmm (heap_init (mvmm m)) m);
  writestring (chars "Memory management ready" ++ [10]) m.

(** The call through [interrupt_handlers[interrupt_number]]. *)
Definition run_handler (h : handler) (m : machine) : option machine :=
  match h with
  | keyboard_handler_ptr => keyboard_handler m
  | foreign_handler id => foreign id m
  end.

(** The entry stubs. *)
Inductive stub := Isr (n : Z) | Irq (n : Z).

Definition stub_address (x : stub) : Z := match x with Isr n => u32 (isr n) | Irq n => u32 (irq n) end.

(** What a stub pushes before it jumps to the common code, on the stack that the CPU left. *)
Definition stub_pushes (x : stub) (stack : list Z) : list Z :=
  match x with
  | Isr n => if bool_decide (n ∈ [8; 10; 11; 12; 13; 14; 17]) then isr_err n stack else isr_noerr n stack
  | Irq n => irq_stub n stack
  end.

Definition all_stubs : list stub := (Isr <$> seqZ 0 20) ++ (Irq <$> seqZ 0 16).

(** An interrupt as the CPU takes it: the descriptor of the vector leads to a stub, which enters
    [interrupt_handler] with what it finds on the stack.  [None]: a descriptor that is not present, or
    memory out of bounds. *)
Definition take_vector (c : cpu) (vector : Z) (stack : list Z) (m : machine) : option outcome :=
  e ← aget (idt m) vector;
  if Z.land (type_attr e) 0x80 =? 0 then None else
  '(_, x) ← list_find (fun x => stub_address x = gate_offset e) all_stubs;
  '(number, code) ← cdecl_args (common_pushes c (stub_pushes x stack));
  interrupt_handler run_handler number code m.

(** [n] calls of [interrupt_handler] with the same number, one after the other. *)
Fixpoint take_interrupts (n : nat) (number : Z) (m : machine) : option machine :=
  match n with
  | O => Some m
  | S n => o ← interrupt_handler run_handler number 0 m;
           match o with
           | Returned m => take_interrupts n number m
           | Halted _ => None
           end
  end.

Lemma key_pressed_tables b m m' : key_pressed b m = Some m' ->
  interrupt_handlers m' = interrupt_handlers m.
Proof.
  unfold key_pressed, putchar. intros E.
  repeat match type of E with (if ?c then _ else _) = _ => destruct c; [by injection E as <-|] end.
  destruct (keyboard_scancode_to_char (mkbd m) b) as [c|]; [|discriminate]. revert E. step.
  destruct (negb (c =? 0)); [|by intros [= <-]].
  destruct (terminal_putchar c (mterm m)); [|discriminate]. by intros [= <-].
Qed.

Lemma keyboard_handler_tables m m' : keyboard_handler m = Some m' ->
  interrupt_handlers m' = interrupt_handlers m.
Proof.
  unfold keyboard_handler, inb_60. intros E.
  assert (exists b m0, interrupt_handlers m0 = interrupt_handlers m /\
    (x ← (if negb (Z.land b 0x80 =? 0) then Some (key_released (Z.land b 0x7F) m0)
          else key_pressed b m0); Some (outb 0x20 0x20 x)) = Some m') as (b & m0 & <- & E').
  { destruct (port60 m) as [|b rest]; [exists 0, m; done|]. exists b. eexists. split; [|exact E]. done. }
  clear E. destruct (negb _).
  - injection E' as <-. unfold key_released. cbn [outb interrupt_handlers].
    repeat case_match; reflexivity.
  - destruct (key_pressed b m0) as [x|] eqn:Ex; [|discriminate]. injection E' as <-.
    exact (key_pressed_tables _ _ _ Ex).
Qed.

Lemma take_interrupts_keys n m : aget (interrupt_handlers m) 33 = Some (Some keyboard_handler_ptr) ->
  take_interrupts n 33 m = handle_keys n m.
Proof.
  revert m. induction n as [|n IH]; intros m H; [done|].
  cbn [take_interrupts handle_keys]. unfold interrupt_handler. rewrite H. step.
  cbn [run_handler]. destruct (keyboard_handler m) as [m'|] eqn:E; [|done]. do 2 step.
  apply IH. by rewrite (keyboard_handler_tables _ _ E).
Qed.

Lemma memory_init_spec m : machine_wf m -> mem_wf (mem (mvmm m)) ->
  dir_wf (kernel_directory (mvmm m)) ->
  exists v t, paging_init kdir_addr (mvmm m) = Some v /\ term_wf t /\
    memory_init m = Some (set_term t (set_vmm (heap_init v) m)).
Proof.
  intros Hwf Hm Hd. unfold memory_init.
  destruct (writestring_wf (chars "Initializing memory management..." ++ [10]) m Hwf)
    as (t1 & -> & Ht1 & _). step.
  destruct (paging_init_spec kdir_addr (mvmm m) Hm Hd) as (v & Ev & _).
  change (mvmm (set_term t1 m)) with (mvmm m). rewrite Ev. step.
  assert (forall t w, term_wf t -> machine_wf (set_vmm w (set_term t m))) as Hk
    by (intros t w Ht; constructor; [exact Ht|apply Hwf|apply Hwf]).
  destruct (writestring_wf (chars "Paging enabled" ++ [10]) (set_vmm v (set_term t1 m)))
    as (t2 & -> & Ht2 & _); [by apply Hk|]. step.
  destruct (writestring_wf (chars "Heap initialized" ++ [10])
    (set_vmm (heap_init v) (set_term t2 m))) as (t3 & E3 & Ht3 & _); [by apply Hk|].
  destruct (writestring_wf (chars "Memory management ready" ++ [10])
    (set_vmm (heap_init v) (set_term t3 m))) as (t4 & E4 & Ht4 & _); [by apply Hk|].
  exists v, t4. split; [reflexivity|]. split; [exact Ht4|].
  etransitivity; [|exact E4]. exact (f_equal (mbind _) E3).
Qed.

(** What the dispatch would do with the number of the vector.  From any machine with well-formed tables
    and the directory in place, [memory_init], [interrupts_init] and [keyboard_init] succeed in this
    order; if [interrupt_handler] is then called with 33, once per waiting byte, it reaches the
    keyboard driver every time and the terminal shows the typed text, with paging still the one
    [memory_init] set up, and the port trace is the PIC set-up plus one EOI per byte. *)
Theorem started_kernel_echoes_keys bs m :
  machine_wf m -> mem_wf (mem (mvmm m)) -> dir_wf (kernel_directory (mvmm m)) ->
  Forall (is_u 8) bs -> port60 m = bs ->
  exists v m1 m2 m3 m4, paging_init kdir_addr (mvmm m) = Some v /\
    memory_init m = Some m1 /\ interrupts_init isr irq idt_address m1 = Some m2 /\
    keyboard_init m2 = Some m3 /\ take_interrupts (length bs) 33 m3 = Some m4 /\
    terminal_write (typed_text [] bs) (mterm m3) = Some (mterm m4) /\
    mvmm m4 = heap_init v /\
    outs m4 = outs m ++ pic_remap_trace ++ replicate (length bs) (0x20, 0x20).
Proof.
  intros Hwf Hm Hd Hbs Hp.
  destruct (memory_init_spec m Hwf Hm Hd) as (v & t & Ev & Ht & E1).
  set (m1 := set_term t (set_vmm (heap_init v) m)) in *.
  assert (machine_wf m1) as Hwf1 by (constructor; [exact Ht|apply Hwf|apply Hwf]).
  destruct (interrupts_init_spec isr irq idt_address m1 Hwf1)
    as (m2 & E2 & Hwf2 & _ & Hh2 & _ & Ho2 & _ & Hp2 & Hv2).
  destruct (keyboard_init_spec m2 Hwf2) as (m3 & E3 & Hwf3 & Hk3 & Hp3 & Ho3 & Hv3 & Hh3 & _).
  destruct (handle_keys_spec bs [] m3 Hbs Hwf3 Hk3) as (m4 & E4 & _ & Ht4 & _ & _ & Ho4 & Hv4 & _).
  { rewrite Hp3, Hp2. exact Hp. }
  exists v, m1, m2, m3, m4. split; [exact Ev|]. do 3 (split; [done|]). split.
  { rewrite take_interrupts_keys; [exact E4|]. by rewrite Hh3. }
  split; [exact Ht4|]. split; [by rewrite Hv4, Hv3, Hv2|].
  rewrite Ho4, Ho3, Ho2, <- app_assoc. reflexivity.
Qed.

(** The stub that a vector with a gate leads to. *)
Lemma gate_leads vector : 0 <= vector < 20 \/ 32 <= vector < 48 ->
  exists i x, list_find (fun x => stub_address x = gate_offset (init_gate isr irq vector)) all_stubs = Some (i, x) /\
    Z.land (type_attr (init_gate isr irq vector)) 0x80 <> 0.
Proof.
  intros Hv. set (y := if vector <? 20 then Isr vector else Irq (vector - 32)).
  assert (gate_offset (init_gate isr irq vector) = stub_address y /\ type_attr (init_gate isr irq vector) = 0x8E) as [-> ->].
  { unfold init_gate, y. destruct (Z.ltb_spec vector 20); [|rewrite (proj2 (Z.leb_le 32 vector)), (proj2 (Z.ltb_lt vector 48)) by lia; cbn [andb]];
      (split; [apply gate_offset_gate, (wrap_range 32); lia|done]). }
  destruct (list_find_elem_of (fun x => stub_address x = stub_address y) all_stubs y) as [[i x] E]; [|done|by exists i, x].
  unfold all_stubs, y. apply elem_of_app. destruct (Z.ltb_spec vector 20); [left|right]; apply list_elem_of_fmap_2, elem_of_seqZ; lia.
Qed.

(** C29: Start-up and the first interrupt, end to end.  From any machine with well-formed tables and the
    directory in place, [memory_init], [interrupts_init] and [keyboard_init] succeed in this order.
    The first interrupt that is then taken through the descriptor table, the keyboard's or any other
    that has a gate, halts the system: its stub hands [interrupt_handler] the saved [gs] instead of
    the number, so that, with a selector below 20 in [gs] (0x10 is the kernel's data segment), the
    message of that exception is printed, interrupts are disabled for ever, and no byte of the
    keyboard is read. *)
Theorem started_kernel_halts_on_interrupt bs m c vector stack msg :
  machine_wf m -> mem_wf (mem (mvmm m)) -> dir_wf (kernel_directory (mvmm m)) -> port60 m = bs ->
  (0 <= vector < 20 \/ 32 <= vector < 48) -> aget exception_messages (gs c) = Some msg ->
  exists m1 m2 m3 t, memory_init m = Some m1 /\ interrupts_init isr irq idt_address m1 = Some m2 /\ keyboard_init m2 = Some m3 /\
    terminal_writestring (exception_text msg) (terminal_setcolor (vga_color LIGHT_RED) (mterm m3)) = Some t /\
    take_vector c vector stack m3 = Some (Halted (disable_interrupts (set_term t m3))) /\ port60 m3 = bs.
Proof.
  intros Hwf Hm Hd Hp Hv Hmsg. destruct (memory_init_spec m Hwf Hm Hd) as (v & t & Ev & Ht & E1).
  set (m1 := set_term t (set_vmm (heap_init v) m)) in *.
  assert (machine_wf m1) as Hwf1 by (constructor; [exact Ht|apply Hwf|apply Hwf]).
  destruct (interrupts_init_spec isr irq idt_address m1 Hwf1) as (m2 & E2 & Hwf2 & Hg2 & Hh2 & _ & Ho2 & _ & Hp2 & Hv2).
  destruct (keyboard_init_spec m2 Hwf2) as (m3 & E3 & Hwf3 & Hk3 & Hp3 & Ho3 & Hv3 & Hh3 & Hi3).
  pose proof (aget_range _ _ _ Hmsg) as Hgs. change (zlen exception_messages) with 20 in Hgs.
  assert (aget (interrupt_handlers m3) (gs c) = Some None) as Hnone.
  { rewrite Hh3, Hh2, (proj2 (Z.eqb_neq (gs c) 33)) by lia. unfold aget. rewrite (proj2 (Z.leb_le 0 (gs c))) by lia. by apply lookup_replicate_2; lia. }
  destruct (unhandled_exception run_handler (gs c) (fs c) m3 msg Hwf3 Hnone ltac:(lia) Hmsg) as (t3 & _ & Et & Eh).
  exists m1, m2, m3, t3. do 4 (split; [done|]). split; [|rewrite Hp3, Hp2; exact Hp].
  unfold take_vector. rewrite Hi3, Hg2, bind_ret by lia. destruct (gate_leads vector Hv) as (i & x & -> & Ha).
  rewrite (proj2 (Z.eqb_neq _ _) Ha), bind_ret. exact Eh.
Qed.

End Linked.

Lemma started_kernel_halts_on_interrupt_witness :
  exists m1 m2 m3 t, memory_init 0x105000 (with_port example_bytes example_machine) = Some m1 /\
    interrupts_init (example_stub 0x100100) (example_stub 0x100300) 0x106000 m1 = Some m2 /\ keyboard_init m2 = Some m3 /\
    terminal_writestring (exception_text (chars "x87 FPU Error")) (terminal_setcolor (vga_color LIGHT_RED) (mterm m3)) = Some t /\
    take_vector (example_stub 0x100100) (example_stub 0x100300) (fun _ m => Some m) (mk_cpu [] 16 16 16 16) 33 [] m3 =
      Some (Halted (disable_interrupts (set_term t m3))) /\ port60 m3 = example_bytes.
Proof.
  apply (started_kernel_halts_on_interrupt 0x105000 0x106000 (example_stub 0x100100) (example_stub 0x100300) (fun _ m => Some m)
    example_bytes (with_port example_bytes example_machine) (mk_cpu [] 16 16 16 16) 33 []).
  - constructor; apply example_machine_wf.
  - by apply map_Forall_empty.
  - apply dir_wf_zero.
  - reflexivity.
  - lia.
  - reflexivity.
Defined.

Lemma started_kernel_echoes_keys_witness :
  exists v m1 m2 m3 m4, paging_init 0x105000 boot_vmm = Some v /\
    memory_init 0x105000 (with_port example_bytes example_machine) = Some m1 /\
    interrupts_init (example_stub 0x100100) (example_stub 0x100300) 0x106000 m1 = Some m2 /\
    keyboard_init m2 = Some m3 /\ take_interrupts (fun _ m => Some m) 10 33 m3 = Some m4 /\
    terminal_write (chars "Hi1A") (mterm m3) = Some (mterm m4) /\
    mvmm m4 = heap_init v /\ outs m4 = [] ++ pic_remap_trace ++ replicate 10 (0x20, 0x20).
Proof.
  apply (started_kernel_echoes_keys 0x105000 0x106000 (example_stub 0x100100) (example_stub 0x100300)
    (fun _ m => Some m) example_bytes (with_port example_bytes example_machine)).
  - constructor; apply example_machine_wf.
  - by apply map_Forall_empty.
  - apply dir_wf_zero.
  - unfold example_bytes. repeat constructor; discriminate.
  - reflexivity.
Defined.

End Kernel.
