(* ===== verification/Framebuffer.v ===== *)
(** The graphical kernel that the Makefile builds: src/kernel/kernel.c,
    src/kernel/video/framebuffer.c and src/kernel/video/draw.c.

    The framebuffer is a map from cell numbers (the index into [fb]) to colours: there is no
    bound in the code, so none in the model; the theorems show which cells are touched. *)

From S2P Require Import Prelude.

Module Framebuffer.

Abbreviation framebuffer := (gmap Z Z).

Definition fb_width : Z := 800.
Definition fb_height : Z := 600.

(** [y * fb_width + x] in [uint32_t] arithmetic. *)
Definition put_pixel (x y color : Z) (fb : framebuffer) : framebuffer :=
  <[u32 (y * fb_width + x) := color]> fb.

Definition draw_rect (x y w h color : Z) (fb : framebuffer) : option framebuffer :=
  y' ← int_val (y + h);
  for_range y y' (fun yy fb =>
    x' ← int_val (x + w);
    for_range x x' (fun xx fb => Some (put_pixel (u32 xx) (u32 yy) color fb)) fb) fb.

Definition DARK_BG : Z := 0x202020.
Definition PANEL_BG : Z := 0x2A2A2A.
Definition ACCENT : Z := 0xFF79EE.

(** Up to the [hlt] loop; the [uint32_t] arguments are converted to [int]. *)
Definition kernel_main (fb : framebuffer) : option framebuffer :=
  fb ← draw_rect 0 0 (s32 fb_width) (s32 fb_height) DARK_BG fb;
  fb ← draw_rect 0 (s32 (fb_height - 40)) (s32 fb_width) 40 PANEL_BG fb;
  draw_rect 10 (s32 (fb_height - 35)) 80 30 ACCENT fb.

(** [print]: the text cells and the static position. *)
Fixpoint print (s : list Z) (st : gmap Z Z * Z) : gmap Z Z * Z :=
  match s with
  | [] => st
  | c :: s' =>
      if c =? 0 then st else
      let '(vga, pos) := st in
      print s' (<[pos := Z.lor (u16 c) 0x0F00]> vga, pos + 1)
  end.

(** ** Cells of a rectangle *)

Definition in_rect (x y w h i : Z) : bool :=
  (x <=? i mod 800) && (i mod 800 <? x + w) && (y <=? i / 800) && (i / 800 <? y + h) && (0 <=? i).

Lemma cell_coords a b i : 0 <= a < 800 -> 0 <= b -> 0 <= i ->
  b * 800 + a = i <-> (a = i mod 800 /\ b = i / 800).
Proof.
  intros Ha Hb Hi. split.
  - intros <-. rewrite Z.add_comm, Z.mod_add, Z.div_add, Z.mod_small, Z.div_small by lia. lia.
  - intros [-> ->]. pose proof (Z.div_mod i 800). lia.
Qed.

Lemma draw_row x w yy color fb : 0 <= x -> 0 <= w -> x + w <= 800 -> 0 <= yy < 600 ->
  exists fb', for_range x (x + w) (fun xx fb => Some (put_pixel (u32 xx) (u32 yy) color fb)) fb = Some fb' /\
    forall i, fb' !! i = if in_rect x yy w 1 i then Some color else fb !! i.
Proof.
  intros Hx Hw Hxw Hy.
  destruct (for_range_inv (fun j fb' => forall i,
     fb' !! i = if in_rect x yy (j - x) 1 i then Some color else fb !! i) x (x + w)
     (fun xx fb => Some (put_pixel (u32 xx) (u32 yy) color fb)) fb) as (fb' & E & H); [lia| | |].
  - intros j t Hj HI. eexists. split; [reflexivity|]. intros i. unfold put_pixel, fb_width.
    rewrite (wrap_small 32 j), (wrap_small 32 yy), wrap_small by (pow2; lia).
    destruct (decide (yy * 800 + j = i)) as [Heq|Hne].
    + rewrite Heq, lookup_insert_eq. unfold in_rect.
      assert (0 <= i) as Hi by lia.
      apply cell_coords in Heq as [<- <-]; [|lia..]. by zres.
    + rewrite lookup_insert_ne by exact Hne. rewrite HI. unfold in_rect.
      destruct (Z.leb_spec 0 i); rewrite ?andb_false_r; [|done].
      pose proof (cell_coords j yy i) as Hc.
      destruct (Z.leb_spec x (i mod 800)), (Z.leb_spec yy (i / 800)), (Z.ltb_spec (i / 800) (yy + 1));
        rewrite ?andb_false_r; try done. cbn [andb].
      replace (i mod 800 <? x + (j + 1 - x)) with (i mod 800 <? x + (j - x)); [done|].
      destruct (Z.ltb_spec (i mod 800) (x + (j - x))); symmetry;
        [apply Z.ltb_lt; lia|apply Z.ltb_ge; lia].
  - intros i. unfold in_rect.
    destruct (Z.leb_spec x (i mod 800)), (Z.ltb_spec (i mod 800) (x + (x - x))); cbn [andb]; try done; lia.
  - exists fb'. split; [exact E|]. intros i. rewrite H. by replace (x + w - x) with w by lia.
Qed.

(** A rectangle inside the screen: it is drawn, and nothing else changes. *)
Lemma draw_rect_spec x y w h color fb :
  0 <= x -> 0 <= w -> x + w <= 800 -> 0 <= y -> 0 <= h -> y + h <= 600 ->
  exists fb', draw_rect x y w h color fb = Some fb' /\
    forall i, fb' !! i = if in_rect x y w h i then Some color else fb !! i.
Proof.
  intros Hx Hw Hxw Hy Hh Hyh. unfold draw_rect, int_val. pow2. zres. step.
  match goal with |- context [for_range _ _ ?b _] =>
    destruct (for_range_inv (fun j fb' => forall i,
      fb' !! i = if in_rect x y w (j - y) i then Some color else fb !! i) y (y + h) b fb)
      as (fb' & E & H); [lia| | |] end.
  - intros j t Hj HI. step. destruct (draw_row x w j color t) as (t' & -> & Ht); [lia..|].
    exists t'. split; [done|]. intros i. rewrite Ht, HI. unfold in_rect.
    destruct (Z.leb_spec x (i mod 800)), (Z.ltb_spec (i mod 800) (x + w)), (Z.leb_spec 0 i);
      rewrite ?andb_false_r; try done. cbn [andb]. rewrite !andb_true_r.
    destruct (Z.leb_spec j (i / 800)), (Z.ltb_spec (i / 800) (j + 1)), (Z.leb_spec y (i / 800)),
      (Z.ltb_spec (i / 800) (y + (j - y))), (Z.ltb_spec (i / 800) (y + (j + 1 - y)));
      cbn [andb]; try done; lia.
  - intros i. unfold in_rect.
    destruct (Z.leb_spec y (i / 800)), (Z.ltb_spec (i / 800) (y + (y - y))); rewrite ?andb_false_r;
      try done; lia.
  - exists fb'. split; [exact E|]. intros i. rewrite H. by replace (y + h - y) with h by lia.
Qed.

(** The desktop, top layer first. *)
Definition desktop (x y : Z) : Z :=
  if (10 <=? x) && (x <? 90) && (565 <=? y) && (y <? 595) then ACCENT
  else if 560 <=? y then PANEL_BG else DARK_BG.

(** [draw_rect] draws exactly the pixels of the rectangle: for any rectangle inside the
    800 x 600 screen every cell of it gets the colour and no other cell, on or off the screen,
    changes. *)
Theorem draw_rect_exact x y w h color fb :
  0 <= x -> 0 <= w -> x + w <= fb_width -> 0 <= y -> 0 <= h -> y + h <= fb_height ->
  exists fb', draw_rect x y w h color fb = Some fb' /\
    forall px py, 0 <= px < fb_width ->
      fb' !! (py * fb_width + px)
      = if (x <=? px) && (px <? x + w) && (y <=? py) && (py <? y + h) then Some color
        else fb !! (py * fb_width + px).
Proof.
  intros. destruct (draw_rect_spec x y w h color fb) as (fb' & E & Hfb); [done..|].
  exists fb'. split; [exact E|]. intros px py Hp. unfold fb_width in *. rewrite Hfb.
  unfold in_rect. rewrite Z.add_comm, Z.mod_add, Z.div_add, Z.mod_small, Z.div_small by lia.
  rewrite Z.add_0_l. destruct (Z.leb_spec 0 (px + py * 800)); [by rewrite andb_true_r|].
  rewrite andb_false_r. destruct (Z.leb_spec y py); [lia|]. by rewrite andb_false_r.
Qed.

Lemma draw_rect_exact_witness :
  exists fb', draw_rect 2 1 3 2 7 ∅ = Some fb' /\
    forall px py, 0 <= px < fb_width ->
      fb' !! (py * fb_width + px)
      = if (2 <=? px) && (px <? 2 + 3) && (1 <=? py) && (py <? 1 + 2) then Some 7
        else (∅ : framebuffer) !! (py * fb_width + px).
Proof. apply draw_rect_exact; unfold fb_width, fb_height; lia. Defined.

(** The kernel that boots paints the desktop: whatever the framebuffer held, [kernel_main]
    reaches its halt loop with all 480000 pixels set to the dark background, the 40-pixel
    taskbar and the 80 x 30 start button of it, and writes no cell outside the screen. *)
Theorem kernel_main_paints_desktop fb :
  exists fb', kernel_main fb = Some fb' /\
    (forall x y, 0 <= x < 800 -> 0 <= y < 600 -> fb' !! (y * 800 + x) = Some (desktop x y)) /\
    (forall i, ~ 0 <= i < 480000 -> fb' !! i = fb !! i).
Proof.
  unfold kernel_main. change (s32 fb_width) with 800. change (s32 fb_height) with 600.
  change (s32 (fb_height - 40)) with 560. change (s32 (fb_height - 35)) with 565.
  destruct (draw_rect_spec 0 0 800 600 DARK_BG fb) as (f1 & -> & H1); [lia..|]. step.
  destruct (draw_rect_spec 0 560 800 40 PANEL_BG f1) as (f2 & -> & H2); [lia..|]. step.
  destruct (draw_rect_spec 10 565 80 30 ACCENT f2) as (f3 & -> & H3); [lia..|].
  exists f3. split; [done|]. split.
  - intros x y Hx Hy. rewrite H3, H2, H1. unfold in_rect, desktop.
    rewrite Z.add_comm, Z.mod_add, Z.div_add, Z.mod_small, Z.div_small by lia.
    rewrite Z.add_0_l. zres. rewrite !andb_true_r.
    change (10 + 80) with 90. change (565 + 30) with 595. destruct (_ && _ && _); [done|].
    destruct (Z.leb_spec 560 y); cbn [andb]; [|done]. by zres.
  - intros i Hi. rewrite H3, H2, H1. unfold in_rect.
    destruct (Z.leb_spec 0 i); rewrite ?andb_false_r; [|done].
    assert (600 <= i / 800) by (apply Z.div_le_lower_bound; lia).
    zres. by rewrite !andb_false_r.
Qed.

End Framebuffer.
