(* ===== verification/GrubStr.v ===== *)
(** Characters and strings of GRUB: the string routines of
    src/grub/grub-core/kern/misc.c and src/grub/include/grub/misc.h, and the error codes of
    src/grub/include/grub/err.h.

    A C string is the list of its characters before the terminating NUL, as values of the
    signed type [char]; a pointer into a string is the suffix it points at, and [*s] of the
    empty suffix is the NUL. *)

From S2P Require Import Prelude.

Module GrubStr.

Inductive grub_err_t :=
| ERR_NONE | ERR_TEST_FAILURE | ERR_BAD_MODULE | ERR_OUT_OF_MEMORY | ERR_BAD_FILE_TYPE
| ERR_FILE_NOT_FOUND | ERR_FILE_READ_ERROR | ERR_BAD_FILENAME | ERR_UNKNOWN_FS | ERR_BAD_FS
| ERR_BAD_NUMBER | ERR_OUT_OF_RANGE | ERR_UNKNOWN_DEVICE | ERR_BAD_DEVICE | ERR_READ_ERROR
| ERR_WRITE_ERROR | ERR_UNKNOWN_COMMAND | ERR_INVALID_COMMAND | ERR_BAD_ARGUMENT
| ERR_BAD_PART_TABLE | ERR_UNKNOWN_OS | ERR_BAD_OS | ERR_NO_KERNEL | ERR_BAD_FONT
| ERR_NOT_IMPLEMENTED_YET | ERR_SYMLINK_LOOP | ERR_BAD_COMPRESSED_DATA | ERR_MENU
| ERR_TIMEOUT | ERR_IO | ERR_ACCESS_DENIED | ERR_EXTRACTOR | ERR_NET_BAD_ADDRESS
| ERR_NET_ROUTE_LOOP | ERR_NET_NO_ROUTE | ERR_NET_NO_ANSWER | ERR_NET_NO_CARD | ERR_WAIT
| ERR_BUG | ERR_NET_PORT_CLOSED | ERR_NET_INVALID_RESPONSE | ERR_NET_UNKNOWN_ERROR
| ERR_NET_PACKET_TOO_BIG | ERR_NET_NO_DOMAIN | ERR_EOF | ERR_BAD_SIGNATURE
| ERR_BAD_FIRMWARE | ERR_STILL_REFERENCED | ERR_RECURSION_DEPTH | ERR_EXISTS.

#[export] Instance grub_err_t_eq_dec : EqDecision grub_err_t.
Proof. solve_decision. Defined.

(** ** Character classes *)

Definition grub_isspace (c : Z) : bool := (c =? 10) || (c =? 13) || (c =? 32) || (c =? 9).
Definition grub_iswordseparator (c : Z) : bool :=
  grub_isspace c || (c =? 44) || (c =? 59) || (c =? 124) || (c =? 38).
Definition grub_isprint (c : Z) : bool := (32 <=? c) && (c <=? 126).
Definition grub_isalpha (c : Z) : bool :=
  ((97 <=? c) && (c <=? 122)) || ((65 <=? c) && (c <=? 90)).
Definition grub_isdigit (c : Z) : bool := (48 <=? c) && (c <=? 57).
Definition grub_tolower (c : Z) : Z := if (65 <=? c) && (c <=? 90) then c - 65 + 97 else c.
Definition grub_toupper (c : Z) : Z := if (97 <=? c) && (c <=? 122) then c - 97 + 65 else c.

(** [*s]. *)
Definition at0 (s : list Z) : Z := match s with [] => 0 | c :: _ => c end.

(** ** Lengths, comparison, search *)

Definition grub_strlen (s : list Z) : Z := zlen s.

Fixpoint grub_strcmp (s1 s2 : list Z) : Z :=
  match s1, s2 with
  | c1 :: r1, c2 :: r2 => if c1 =? c2 then grub_strcmp r1 r2 else u8 c1 - u8 c2
  | _, _ => u8 (at0 s1) - u8 (at0 s2)
  end.

(** [n] counts down; the loop stops before the character at which it reaches 0. *)
Fixpoint grub_strncmp_loop (s1 s2 : list Z) (n : nat) : Z :=
  match s1, s2, n with
  | c1 :: r1, c2 :: r2, S (S _ as n') =>
      if c1 =? c2 then grub_strncmp_loop r1 r2 n' else u8 c1 - u8 c2
  | _, _, _ => u8 (at0 s1) - u8 (at0 s2)
  end.

Definition grub_strncmp (s1 s2 : list Z) (n : nat) : Z :=
  match n with O => 0 | _ => grub_strncmp_loop s1 s2 n end.

Fixpoint grub_strcasecmp (s1 s2 : list Z) : Z :=
  match s1, s2 with
  | c1 :: r1, c2 :: r2 =>
      if grub_tolower (u8 c1) =? grub_tolower (u8 c2) then grub_strcasecmp r1 r2
      else grub_tolower (u8 c1) - grub_tolower (u8 c2)
  | _, _ => grub_tolower (u8 (at0 s1)) - grub_tolower (u8 (at0 s2))
  end.

(** The first position holding [c]; the terminating NUL is found as the empty suffix. *)
Fixpoint grub_strchr (s : list Z) (c : Z) : option (list Z) :=
  match s with
  | [] => if 0 =? c then Some [] else None
  | x :: s' => if x =? c then Some s else grub_strchr s' c
  end.

Fixpoint grub_strrchr_loop (s : list Z) (c : Z) (p : option (list Z)) : option (list Z) :=
  match s with
  | [] => if 0 =? c then Some [] else p
  | x :: s' => grub_strrchr_loop s' c (if x =? c then Some s else p)
  end.

Definition grub_strrchr (s : list Z) (c : Z) : option (list Z) := grub_strrchr_loop s c None.

(** The inner loop of [grub_strstr]: a match, the end of the haystack, or a mismatch. *)
Inductive strstr_round := Match | HaystackEnd | Mismatch.

Fixpoint strstr_inner (rhaystack rneedle : list Z) : strstr_round :=
  match rneedle, rhaystack with
  | [], _ => Match
  | _ :: _, [] => HaystackEnd
  | n :: rneedle', h :: rhaystack' => if h =? n then strstr_inner rhaystack' rneedle' else Mismatch
  end.

Fixpoint strstr_outer (haystack : list Z) (b : Z) (needle : list Z) : option (list Z) :=
  match haystack with
  | [] => None
  | h :: rest =>
      if h =? b then
        match strstr_inner rest needle with
        | Match => Some haystack
        | HaystackEnd => None
        | Mismatch => strstr_outer rest b needle
        end
      else strstr_outer rest b needle
  end.

Definition grub_strstr (haystack needle : list Z) : option (list Z) :=
  match needle with
  | [] => Some haystack
  | b :: needle' => strstr_outer haystack b needle'
  end.

(** ** Words and tokens *)

Fixpoint skip_while (f : Z -> bool) (s : list Z) : list Z :=
  match s with
  | c :: s' => if f c then skip_while f s' else s
  | [] => []
  end.

(** The crawl: the haystack and the needle where they first differ. *)
Fixpoint strword_crawl (haystack n_pos : list Z) : list Z * list Z :=
  match haystack with
  | [] => ([], n_pos)
  | h :: hs =>
      if negb (grub_iswordseparator h) && (h =? at0 n_pos) then
        match n_pos with
        | [] => (haystack, n_pos)
        | _ :: ns => strword_crawl hs ns
        end
      else (haystack, n_pos)
  end.

Definition at_word_end (s : list Z) : bool := (at0 s =? 0) || grub_iswordseparator (at0 s).

Fixpoint strword_loop (fuel : nat) (haystack needle : list Z) : bool :=
  match fuel, haystack with
  | _, [] => false
  | O, _ => false
  | S fuel, _ =>
      let '(h, n) := strword_crawl haystack needle in
      if at_word_end h && at_word_end n then true
      else strword_loop fuel
             (skip_while grub_iswordseparator (skip_while (fun c => negb (grub_iswordseparator c)) h))
             needle
  end.

Definition grub_strword (haystack needle : list Z) : bool :=
  let haystack := skip_while grub_iswordseparator haystack in
  strword_loop (S (length haystack)) haystack needle.

(** [grub_strtok_r] on the string it is given: the token (the string that is left after the
    NUL is written) and the new [save_ptr]; [None] when only delimiters are left. *)
Definition is_delim (delim : list Z) (c : Z) : bool := existsb (Z.eqb c) delim.

Fixpoint token_end (delim s : list Z) : list Z * list Z :=
  match s with
  | [] => ([], [])
  | c :: s' => if is_delim delim c then ([], s')
               else let '(t, rest) := token_end delim s' in (c :: t, rest)
  end.

Definition grub_strtok_r (s delim : list Z) : option (list Z) * list Z :=
  let s := skip_while (is_delim delim) s in
  match s with
  | [] => (None, [])
  | _ => let '(t, save) := token_end delim s in (Some t, save)
  end.

(** Calling it until it returns NULL. *)
Fixpoint tokens (fuel : nat) (s delim : list Z) : list (list Z) :=
  match fuel with
  | O => []
  | S fuel => match grub_strtok_r s delim with
              | (None, _) => []
              | (Some t, save) => t :: tokens fuel save delim
              end
  end.

(** ** Reference: the maximal runs between separators *)

Section Words.
Variable sep : Z -> bool.

Fixpoint fields (s : list Z) : list (list Z) :=
  match s with
  | [] => [[]]
  | c :: s' => if sep c then [] :: fields s'
               else match fields s' with
                    | t :: ts => (c :: t) :: ts
                    | [] => [[c]]
                    end
  end.

Definition words (s : list Z) : list (list Z) := filter (fun w => w <> []) (fields s).

(** The run at the front. *)
Fixpoint run (s : list Z) : list Z :=
  match s with
  | [] => []
  | c :: s' => if sep c then [] else c :: run s'
  end.

Lemma fields_run s :
  exists ts, fields s = run s :: ts /\
    filter (fun w => w <> []) ts = words (drop (length (run s)) s).
Proof.
  induction s as [|c s (ts & E & Hts)]; [by exists []|]. cbn [fields run].
  destruct (sep c) eqn:Hc.
  - exists (fields s). split; [done|]. unfold words. cbn [fields length drop]. rewrite Hc.
    by rewrite filter_cons_False by tauto.
  - rewrite E. exists ts. done.
Qed.

Lemma words_skip s : words (skip_while sep s) = words s.
Proof.
  induction s as [|c s IH]; [done|]. cbn [skip_while]. destruct (sep c) eqn:Hc; [|done].
  rewrite IH. unfold words. cbn [fields]. rewrite Hc. by rewrite filter_cons_False by tauto.
Qed.

(** A string that starts with a word is that word, then the words of the rest. *)
Lemma words_run c s : sep c = false ->
  words (c :: s) = run (c :: s) :: words (drop (length (run (c :: s))) (c :: s)).
Proof.
  intros Hc. destruct (fields_run (c :: s)) as (ts & E & Hts).
  unfold words at 1. rewrite E. cbn [run]. rewrite Hc. cbn [run] in Hts. rewrite Hc in Hts.
  by rewrite filter_cons_True, Hts by done.
Qed.

Lemma skip_run s : skip_while (fun c => negb (sep c)) s = drop (length (run s)) s.
Proof. induction s as [|c s IH]; [done|]. cbn. destruct (sep c); cbn; done. Qed.

Lemma length_run s : (length (run s) <= length s)%nat.
Proof. induction s as [|c s IH]; cbn; [lia|]. destruct (sep c); cbn; lia. Qed.

Lemma length_skip f s : (length (skip_while f s) <= length s)%nat.
Proof. induction s as [|c s IH]; cbn; [lia|]. destruct (f c); cbn; lia. Qed.

Lemma skip_head f s c r : skip_while f s = c :: r -> f c = false.
Proof.
  induction s as [|x s IH]; cbn; [done|]. destruct (f x) eqn:E; [done|]. by intros [= <- _].
Qed.
End Words.

(** ** Tokens *)

Lemma token_end_spec delim s : exists rest, token_end delim s = (run (is_delim delim) s, rest) /\
  words (is_delim delim) rest = words (is_delim delim) (drop (length (run (is_delim delim) s)) s) /\
  (length rest <= length s)%nat.
Proof.
  induction s as [|c s (rest & E & Hw & Hl)]; [by exists []|]. cbn [token_end run].
  destruct (is_delim delim c) eqn:Hc.
  - exists s. split; [done|]. split; [|cbn; lia]. cbn [length drop].
    unfold words. cbn [fields]. rewrite Hc. by rewrite filter_cons_False by tauto.
  - rewrite E. exists rest. cbn [length drop]. split; [done|]. split; [done|lia].
Qed.

Lemma token_end_shorter delim c s : is_delim delim c = false ->
  (length (snd (token_end delim (c :: s))) <= length s)%nat.
Proof.
  intros Hc. cbn [token_end]. rewrite Hc. destruct (token_end_spec delim s) as (rest & -> & _ & Hl).
  done.
Qed.

Lemma tokens_spec fuel s delim : (length s < fuel)%nat -> tokens fuel s delim = words (is_delim delim) s.
Proof.
  revert s. induction fuel as [|fuel IH]; intros s Hf; [lia|]. cbn [tokens]. unfold grub_strtok_r.
  rewrite <- (words_skip _ s). pose proof (length_skip (is_delim delim) s) as Hl.
  destruct (skip_while (is_delim delim) s) as [|c r] eqn:E; [done|].
  pose proof (skip_head _ _ _ _ E) as Hc. pose proof (token_end_shorter delim c r Hc) as Hs.
  destruct (token_end_spec delim (c :: r)) as (rest & Et & Hw & _). rewrite Et in *. cbn [snd] in Hs.
  rewrite (words_run _ c r Hc), <- Hw. f_equal. apply IH. cbn in Hl. lia.
Qed.

(** ** Words *)

Lemma crawl_spec h n : Forall (fun c => c <> 0) h ->
  exists p h' n', strword_crawl h n = (h', n') /\ h = p ++ h' /\ n = p ++ n' /\
    Forall (fun c => grub_iswordseparator c = false) p /\
    (h' = [] \/ grub_iswordseparator (at0 h') = true \/ at0 h' <> at0 n').
Proof.
  revert n. induction h as [|c h IH]; intros n Hnz; cbn [strword_crawl].
  - exists [], [], n. split_and!; auto.
  - inversion Hnz; subst. destruct (grub_iswordseparator c) eqn:Hc; cbn [negb andb].
    + exists [], (c :: h), n. split_and!; auto.
    + destruct (Z.eqb_spec c (at0 n)) as [->|Hne].
      * destruct n as [|x n]; [exists [], (at0 [] :: h), []; cbn in *; done|].
        destruct (IH n) as (p & h' & n' & E & -> & -> & Hp & Hd); [done|].
        exists (x :: p), h', n'. cbn [at0] in *. rewrite E. split_and!; auto.
      * exists [], (c :: h), n. split_and!; auto.
Qed.

Lemma run_prefix sep p s : Forall (fun c => sep c = false) p -> run sep (p ++ s) = p ++ run sep s.
Proof. induction 1 as [|c p Hc _ IH]; [done|]. cbn. rewrite Hc. by f_equal. Qed.

Lemma at_word_end_run s : Forall (fun c => c <> 0) s ->
  at_word_end s = true <-> run grub_iswordseparator s = [].
Proof.
  intros Hnz. unfold at_word_end. destruct s as [|c s]; [done|]. inversion Hnz; subst.
  cbn [at0 run]. rewrite (proj2 (Z.eqb_neq _ _)) by done.
  destruct (grub_iswordseparator c); done.
Qed.

(** The crawl answers whether the word at the front is the needle's first word. *)
Lemma crawl_decides h n : Forall (fun c => c <> 0) h -> Forall (fun c => c <> 0) n ->
  let '(h', n') := strword_crawl h n in
  at_word_end h' && at_word_end n' = true <->
  run grub_iswordseparator h = run grub_iswordseparator n.
Proof.
  intros Hh Hn. destruct (crawl_spec h n Hh) as (p & h' & n' & -> & -> & -> & Hp & Hd).
  apply Forall_app in Hh as [_ Hh]. apply Forall_app in Hn as [_ Hn].
  rewrite !run_prefix by done. rewrite andb_true_iff, !at_word_end_run by done. split.
  - intros [-> ->]. done.
  - intros E. apply app_inv_head in E. rewrite <- E. destruct Hd as [->|[Hs|Hne]].
    + done.
    + destruct h' as [|c h']; [done|]. cbn in *. by rewrite Hs in *.
    + destruct h' as [|c h']; [done|]. cbn [run] in *.
      destruct (grub_iswordseparator c) eqn:Ec; [done|].
      exfalso. destruct n' as [|x n']; cbn in *; [done|].
      destruct (grub_iswordseparator x); [done|]. congruence.
Qed.

Lemma Forall_skip_while {P : Z -> Prop} f s : Forall P s -> Forall P (skip_while f s).
Proof.
  induction 1 as [|c s Hc Hs IH]; [constructor|]. cbn. destruct (f c); [done|by constructor].
Qed.

(** Where the search goes on does not depend on how far the crawl went. *)
Lemma crawl_rest h n : Forall (fun c => c <> 0) h ->
  skip_while (fun c => negb (grub_iswordseparator c)) (fst (strword_crawl h n))
  = drop (length (run grub_iswordseparator h)) h.
Proof.
  intros Hh. destruct (crawl_spec h n Hh) as (p & h' & n' & -> & -> & _ & Hp & _).
  cbn [fst]. rewrite skip_run, run_prefix, length_app by done.
  rewrite drop_app_ge by lia. f_equal. lia.
Qed.

Lemma strword_loop_spec fuel h n : (length h < fuel)%nat ->
  Forall (fun c => c <> 0) h -> Forall (fun c => c <> 0) n ->
  (h = [] \/ grub_iswordseparator (at0 h) = false) ->
  strword_loop fuel h n = bool_decide (run grub_iswordseparator n ∈ words grub_iswordseparator h).
Proof.
  revert h. induction fuel as [|fuel IH]; intros h Hf Hh Hn Hs; [lia|].
  destruct h as [|c r]; [by rewrite bool_decide_eq_false_2 by apply not_elem_of_nil|].
  destruct Hs as [|Hc]; [done|]. cbn [at0] in Hc. cbn [strword_loop].
  pose proof (crawl_decides (c :: r) n Hh Hn) as Hd. pose proof (crawl_rest (c :: r) n Hh) as Hr.
  destruct (strword_crawl (c :: r) n) as [h' n']. cbn [fst] in Hr. rewrite Hr.
  rewrite (words_run _ c r Hc).
  destruct (at_word_end h' && at_word_end n').
  - rewrite bool_decide_eq_true_2; [done|]. rewrite (proj1 Hd eq_refl). constructor.
  - assert (length (run grub_iswordseparator (c :: r)) <> O) as Hnz by (cbn [run]; by rewrite Hc).
    pose proof (length_skip grub_iswordseparator (drop (length (run grub_iswordseparator (c :: r))) (c :: r))) as Hl.
    rewrite length_drop in Hl. rewrite IH.
    + rewrite words_skip. apply bool_decide_ext. rewrite elem_of_cons.
      split; [by right|]. intros [E|]; [|done]. by rewrite <- E in Hd; pose proof (proj2 Hd eq_refl).
    + cbn [length] in *. lia.
    + apply Forall_skip_while. by apply Forall_drop.
    + done.
    + destruct (skip_while _ (drop _ _)) as [|x y] eqn:E; [by left|right].
      exact (skip_head _ _ _ _ E).
Qed.

(** ** Searching *)

Lemma strstr_inner_spec h n :
  match strstr_inner h n with
  | Match => n `prefix_of` h
  | HaystackEnd => (length h < length n)%nat
  | Mismatch => ~ n `prefix_of` h
  end.
Proof.
  revert n. induction h as [|x h IH]; intros [|y n]; cbn; try apply prefix_nil; [lia|].
  destruct (Z.eqb_spec x y) as [->|Hne].
  - specialize (IH n). destruct (strstr_inner h n).
    + by apply prefix_cons.
    + lia.
    + intros Hp%prefix_cons_inv_2. done.
  - intros Hp%prefix_cons_inv_1. congruence.
Qed.

Lemma strstr_outer_spec h b n :
  match strstr_outer h b n with
  | Some r => exists p, h = p ++ r /\ (b :: n) `prefix_of` r /\
                forall p' r', h = p' ++ r' -> (b :: n) `prefix_of` r' -> (length p <= length p')%nat
  | None => forall p r, h = p ++ r -> ~ (b :: n) `prefix_of` r
  end.
Proof.
  induction h as [|x h IH]; cbn [strstr_outer].
  { intros p r E Hp%prefix_length. apply (f_equal length) in E. rewrite length_app in E. cbn in *. lia. }
  assert (Hskip : ~ (b :: n) `prefix_of` (x :: h) ->
    match strstr_outer h b n with
    | Some r => exists p, x :: h = p ++ r /\ (b :: n) `prefix_of` r /\
        forall p' r', x :: h = p' ++ r' -> (b :: n) `prefix_of` r' -> (length p <= length p')%nat
    | None => forall p r, x :: h = p ++ r -> ~ (b :: n) `prefix_of` r
    end).
  { intros Hno. destruct (strstr_outer h b n) as [r|].
    - destruct IH as (p & -> & Hp & Hmin). exists (x :: p). split; [done|]. split; [done|].
      intros [|y p'] r' E Hp'; [cbn in E; subst r'; done|]. injection E as -> E. cbn.
      specialize (Hmin p' r' E Hp'). lia.
    - intros [|y p] r E; [cbn in E; by subst r|]. injection E as -> E. by apply (IH p). }
  destruct (Z.eqb_spec x b) as [->|Hne].
  - pose proof (strstr_inner_spec h n) as Hi. destruct (strstr_inner h n).
    + exists []. split; [done|]. split; [by apply prefix_cons|]. intros. cbn. lia.
    + intros p r E Hp%prefix_length. apply (f_equal length) in E. rewrite length_app in E.
      cbn in *. lia.
    + apply Hskip. intros Hp%prefix_cons_inv_2. done.
  - apply Hskip. intros Hp%prefix_cons_inv_1. congruence.
Qed.

(** [grub_strstr] returns the first occurrence: when it finds a position the needle is a
    prefix there and at no earlier position, and when it returns NULL (also early, when the
    haystack ends inside a partial match) the needle occurs nowhere. *)
Theorem strstr_finds_first_occurrence haystack needle :
  match grub_strstr haystack needle with
  | Some r => exists p, haystack = p ++ r /\ needle `prefix_of` r /\
      forall p' r', haystack = p' ++ r' -> needle `prefix_of` r' -> (length p <= length p')%nat
  | None => forall p r, haystack = p ++ r -> ~ needle `prefix_of` r
  end.
Proof.
  destruct needle as [|b n]; [|apply strstr_outer_spec].
  exists []. split; [done|]. split; [apply prefix_nil|]. intros. cbn. lia.
Qed.

(** Splitting with [grub_strtok_r] until it returns NULL terminates and gives exactly the
    maximal runs of non-delimiter characters of the string, in order, none of them empty. *)
Theorem strtok_gives_the_words s delim :
  tokens (S (length s)) s delim = words (is_delim delim) s.
Proof. apply tokens_spec. lia. Qed.

(** [grub_strword] returns true exactly when the first word of the needle is one of the
    separator-delimited words of the haystack. *)
Theorem strword_iff_word haystack needle :
  Forall (fun c => c <> 0) haystack -> Forall (fun c => c <> 0) needle ->
  grub_strword haystack needle = true <->
  run grub_iswordseparator needle ∈ words grub_iswordseparator haystack.
Proof.
  intros Hh Hn. unfold grub_strword. rewrite strword_loop_spec.
  - rewrite words_skip. apply bool_decide_eq_true.
  - lia.
  - by apply Forall_skip_while.
  - done.
  - destruct (skip_while _ haystack) as [|x y] eqn:E; [by left|right]. exact (skip_head _ _ _ _ E).
Qed.

Lemma strword_iff_word_witness :
  grub_strword (chars "linux,initrd all") (chars "all") = true <->
  run grub_iswordseparator (chars "all") ∈ words grub_iswordseparator (chars "linux,initrd all").
Proof. apply strword_iff_word; repeat constructor; discriminate. Defined.

End GrubStr.
