(* ===== verification/GrubNum.v ===== *)
(** Numbers of GRUB: 64-bit division, number parsing and number printing of
    src/grub/grub-core/kern/misc.c and [grub_strtol] of src/grub/include/grub/misc.h, for a
    target with 64-bit [long] and hardware division (x86_64). *)

From S2P Require Import Prelude GrubStr.
Import GrubStr.

Module GrubNum.

(** ** Division *)

Fixpoint divmod_loop (bits : nat) (n d q m : Z) : Z * Z :=
  match bits with
  | O => (q, m)
  | S bits =>
      let m := u64 (Z.shiftl m 1) in
      let m := if Z.land n (2 ^ 63) =? 0 then m else Z.lor m 1 in
      let q := u64 (Z.shiftl q 1) in
      let n := u64 (Z.shiftl n 1) in
      if d <=? m then divmod_loop bits n d (Z.lor q 1) (u64 (m - d))
      else divmod_loop bits n d q m
  end.

(** Quotient and remainder; the 32-bit division traps on a zero divisor. *)
Definition grub_divmod64 (n d : Z) : option (Z * Z) :=
  if (n <? 0xffffffff) && (d <? 0xffffffff) then
    if u32 d =? 0 then None else Some (u32 n / u32 d, u32 n mod u32 d)
  else Some (divmod_loop 64 n d 0 0).

(** ** Parsing *)

(** What the parser leaves: the value, the position of [*end] and the error raised. *)
Record parsed := mk_parsed {
  value : Z;
  endp : list Z;
  errno : grub_err_t
}.

Definition guess_base (s : list Z) (base : Z) : Z * list Z :=
  let '(base, s) :=
    if at0 s =? 48 then
      if at0 (tail s) =? 120 then
        if (base =? 0) || (base =? 16) then (16, drop 2 s) else (base, s)
      else if (base =? 0) && (48 <=? at0 (tail s)) && (at0 (tail s) <=? 55) then (8, s)
      else (base, s)
    else (base, s) in
  (if base =? 0 then 10 else base, s).

(** The [unsigned long] digit of a character; [None] is the first [break]. *)
Definition digit_value (c : Z) : option Z :=
  let digit := u64 (grub_tolower c - 48) in
  if 97 - 48 <=? digit then Some (u64 (digit + (48 - 97 + 10)))
  else if 9 <? digit then None
  else Some digit.

Fixpoint strtoull_loop (base num : Z) (found : bool) (s : list Z) : option parsed :=
  let stop := Some (if found then mk_parsed num s ERR_NONE else mk_parsed 0 s ERR_BAD_NUMBER) in
  match s with
  | [] => stop
  | c :: s' =>
      match digit_value c with
      | None => stop
      | Some digit =>
          if u64 base <=? digit then stop else
          qr ← grub_divmod64 (u64 (2 ^ 64 - 1 - digit)) (u64 base);
          if fst qr <? num then Some (mk_parsed (2 ^ 64 - 1) s ERR_OUT_OF_RANGE)
          else strtoull_loop base (u64 (num * base + digit)) true s'
      end
  end.

Definition grub_strtoull (s : list Z) (base : Z) : option parsed :=
  let '(base, s) := guess_base (skip_while grub_isspace s) base in
  strtoull_loop base 0 false s.

Definition grub_strtoul (s : list Z) (base : Z) : option parsed := grub_strtoull s base.

Definition GRUB_LONG_MAX : Z := 2 ^ 63 - 1.
Definition GRUB_LONG_MIN : Z := - 2 ^ 63.

Definition grub_strtol (s : list Z) (base : Z) : option parsed :=
  let s := skip_while grub_isspace s in
  let '(negative, s) := if at0 s =? 45 then (true, tail s) else (false, s) in
  p ← grub_strtoull s base;
  Some (if negative then
          if GRUB_LONG_MAX + 1 <? value p then mk_parsed GRUB_LONG_MIN (endp p) ERR_OUT_OF_RANGE
          else mk_parsed (s64 (- s64 (value p))) (endp p) (errno p)
        else
          if GRUB_LONG_MAX <? value p then mk_parsed GRUB_LONG_MAX (endp p) ERR_OUT_OF_RANGE
          else mk_parsed (s64 (value p)) (endp p) (errno p)).

(** ** Printing *)

(** The digits of the three loops, least significant first; 22 iterations are enough for 64
    bits in base 8. *)
Fixpoint lltoa_hex (fuel : nat) (c n : Z) : list Z :=
  match fuel with
  | O => []
  | S fuel =>
      let d := Z.land n 0xf in
      (if 9 <? d then d + (if c =? 120 then 97 else 65) - 10 else d + 48)
      :: (let n := Z.shiftr n 4 in if n =? 0 then [] else lltoa_hex fuel c n)
  end.

Fixpoint lltoa_oct (fuel : nat) (n : Z) : list Z :=
  match fuel with
  | O => []
  | S fuel =>
      (Z.land n 0x7 + 48) :: (let n := Z.shiftr n 3 in if n =? 0 then [] else lltoa_oct fuel n)
  end.

Fixpoint lltoa_dec (fuel : nat) (n : Z) : option (list Z) :=
  match fuel with
  | O => Some []
  | S fuel =>
      qr ← grub_divmod64 n 10;
      rest ← (if fst qr =? 0 then Some [] else lltoa_dec fuel (fst qr));
      Some ((snd qr + 48) :: rest)
  end.

(** [grub_reverse] swaps from both ends; on a list of [n] characters in place. *)
Fixpoint reverse_loop (fuel : nat) (i j : Z) (l : list Z) : option (list Z) :=
  match fuel with
  | O => Some l
  | S fuel =>
      if i <? j then
        a ← aget l i; b ← aget l j;
        l ← aset l i b; l ← aset l j a;
        reverse_loop fuel (i + 1) (j - 1) l
      else Some l
  end.

Definition grub_reverse (l : list Z) : option (list Z) :=
  reverse_loop (length l) 0 (zlen l - 1) l.

(** The characters written to [str]; [c] is the conversion character. *)
Definition grub_lltoa (c n : Z) : option (list Z) :=
  let base := if (c =? 120) || (c =? 88) then 16 else if c =? 111 then 8 else 10 in
  let negative := (s64 n <? 0) && (c =? 100) in
  let n := if negative then u64 (- s64 n) else n in
  digits ← (if base =? 16 then Some (lltoa_hex 64 c n)
            else if base =? 8 then Some (lltoa_oct 64 n)
            else lltoa_dec 64 n);
  digits ← grub_reverse digits;
  Some ((if negative then [45] else []) ++ digits).

(** * Division is division *)

Lemma shl1_wrap w x : 0 <= x < 2 ^ (w - 1) -> 1 <= w -> wrap w (Z.shiftl x 1) = 2 * x.
Proof.
  intros Hx Hw. rewrite Z.shiftl_mul_pow2 by lia. rewrite wrap_small; [lia|].
  replace w with (Z.succ (w - 1)) by lia. rewrite Z.pow_succ_r by lia. lia.
Qed.

Lemma lor1 x : Z.lor (2 * x) 1 = 2 * x + 1.
Proof.
  assert (Z.land (2 * x) 1 = 0) as H.
  { change 1 with (Z.ones 1). rewrite Z.land_ones by lia. change (2 ^ 1) with 2.
    by rewrite Z.mul_comm, Z_mod_mult. }
  by rewrite <- Z.lxor_lor, <- Z.add_nocarry_lxor by exact H.
Qed.

(** The top bit of [r * 2^(63-k)] with [k + 1] bits left is the top bit of [r]. *)
Lemma top_bit k r : 0 <= k <= 63 -> 0 <= r < 2 ^ (k + 1) ->
  (Z.land (r * 2 ^ (63 - k)) (2 ^ 63) =? 0) = (r <? 2 ^ k).
Proof.
  intros Hk Hr. assert (Z.land (r * 2 ^ (63 - k)) (2 ^ 63) = if Z.testbit r k then 2 ^ 63 else 0) as ->.
  { apply Z.bits_inj'. intros i Hi. rewrite Z.land_spec, Z.pow2_bits_eqb by lia.
    destruct (Z.eqb_spec 63 i) as [<-|Hne].
    - rewrite andb_true_r, Z.mul_pow2_bits by lia. replace (63 - (63 - k)) with k by lia.
      destruct (Z.testbit r k); [by rewrite Z.pow2_bits_true|by rewrite Z.bits_0].
    - rewrite andb_false_r. destruct (Z.testbit r k); [|by rewrite Z.bits_0].
      by rewrite Z.pow2_bits_false by lia. }
  rewrite Z.testbit_odd, Z.shiftr_div_pow2 by lia.
  rewrite Z.pow_add_r in Hr by lia. change (2 ^ 1) with 2 in Hr.
  destruct (Z.ltb_spec r (2 ^ k)).
  - rewrite Z.div_small by lia. done.
  - replace (r / 2 ^ k) with 1; [done|]. apply Z.div_unique with (r - 2 ^ k); lia.
Qed.

Lemma divmod_loop_spec bits d : forall q m r,
  (bits <= 64)%nat -> 0 <= q -> 0 <= m < d -> d < 2 ^ 64 -> 0 <= r < 2 ^ Z.of_nat bits ->
  (q * d + m) * 2 ^ Z.of_nat bits + r < 2 ^ 64 ->
  divmod_loop bits (r * 2 ^ (64 - Z.of_nat bits)) d q m
  = (((q * d + m) * 2 ^ Z.of_nat bits + r) / d, ((q * d + m) * 2 ^ Z.of_nat bits + r) mod d).
Proof.
  induction bits as [|bits IH]; intros q m r Hb Hq Hm Hd Hr Ht.
  - change (2 ^ Z.of_nat 0) with 1 in *. assert (r = 0) as -> by lia.
    cbn [divmod_loop]. rewrite Z.mul_1_r, Z.add_0_r.
    f_equal; [apply Z.div_unique with m; lia|apply Z.mod_unique with q; lia].
  - set (k := Z.of_nat bits) in *. assert (Z.of_nat (S bits) = k + 1) as Hk by lia. rewrite Hk in *.
    assert (2 ^ (k + 1) = 2 * 2 ^ k) as Hp by (rewrite Z.pow_add_r by lia; lia).
    assert (1 <= 2 ^ k) by (pose proof (Z.pow_pos_nonneg 2 k); lia).
    assert (2 ^ 64 = 2 ^ (k + 1) * 2 ^ (63 - k)) as H64 by (rewrite <- Z.pow_add_r by lia; f_equal; lia).
    assert (0 <= q * d) as Hqd by nia.
    assert (q * d + m < 2 ^ 63) as Hqm by (pow2; nia).
    assert (q < 2 ^ 63) as Hq63 by nia.
    cbn [divmod_loop]. replace (64 - (k + 1)) with (63 - k) by lia.
    rewrite top_bit, (shl1_wrap 64 m), (shl1_wrap 64 q) by (change (64 - 1) with 63; lia).
    set (r' := if r <? 2 ^ k then r else r - 2 ^ k).
    set (b := if r <? 2 ^ k then 0 else 1).
    assert (r = b * 2 ^ k + r' /\ 0 <= r' < 2 ^ k /\ (b = 0 \/ b = 1)) as (Hrb & Hr' & Hb01)
      by (unfold b, r'; destruct (Z.ltb_spec r (2 ^ k)); lia).
    assert ((if r <? 2 ^ k then 2 * m else Z.lor (2 * m) 1) = 2 * m + b) as ->
      by (unfold b; destruct (r <? 2 ^ k); [lia|apply lor1]).
    assert (u64 (Z.shiftl (r * 2 ^ (63 - k)) 1) = r' * 2 ^ (64 - k)) as ->.
    { rewrite Z.shiftl_mul_pow2 by lia. unfold wrap. symmetry. apply Z.mod_unique with b.
      - left. split; [apply Z.mul_nonneg_nonneg; [lia|apply Z.pow_nonneg; lia]|].
        replace (2 ^ 64) with (2 ^ k * 2 ^ (64 - k)) by (rewrite <- Z.pow_add_r by lia; f_equal; lia).
        apply Z.mul_lt_mono_pos_r; [apply Z.pow_pos_nonneg; lia|lia].
      - rewrite Hrb at 1. replace (2 ^ 64) with (2 ^ k * 2 ^ (64 - k)) by (rewrite <- Z.pow_add_r by lia; f_equal; lia).
        replace (64 - k) with (63 - k + 1) by lia. rewrite (Z.pow_add_r 2 (63 - k)) by lia.
        change (2 ^ 1) with 2. ring. }
    assert ((q * d + m) * 2 ^ (k + 1) + r = (2 * q * d + (2 * m + b)) * 2 ^ k + r') as -> by nia.
    assert ((2 * q * d + (2 * m + b)) * 2 ^ k + r' < 2 ^ 64) as Ht' by nia.
    destruct (Z.leb_spec d (2 * m + b)).
    + rewrite lor1, wrap_small by nia. rewrite IH by nia.
      replace ((2 * q + 1) * d + (2 * m + b - d)) with (2 * q * d + (2 * m + b)) by ring. done.
    + rewrite IH by nia. done.
Qed.

Lemma divmod64_spec n d : 0 <= n < 2 ^ 64 -> 0 < d < 2 ^ 64 -> grub_divmod64 n d = Some (n / d, n mod d).
Proof.
  intros Hn Hd. unfold grub_divmod64.
  destruct (Z.ltb_spec n 0xffffffff), (Z.ltb_spec d 0xffffffff); cbn [andb].
  1: { rewrite !wrap_small by (pow2; lia). by zres. }
  all: f_equal; pose proof (divmod_loop_spec 64 d 0 0 n) as H';
    change (64 - Z.of_nat 64) with 0 in H'; change (Z.of_nat 64) with 64 in H';
    rewrite Z.mul_1_r in H'; apply H'; lia.
Qed.

(** * Parsing: reference definitions over unbounded numbers *)

Definition is_char (c : Z) : Prop := -128 <= c < 128.

Definition raw_digit (c : Z) : option Z :=
  if grub_isdigit c then Some (c - 48)
  else if grub_isalpha c then Some (grub_tolower c - 97 + 10) else None.

Definition digit_in (base c : Z) : option Z :=
  match raw_digit c with Some d => if d <? base then Some d else None | None => None end.

(** The longest prefix of digits, and what follows it. *)
Fixpoint digits (base : Z) (s : list Z) : list Z * list Z :=
  match s with
  | [] => ([], [])
  | c :: s' => match digit_in base c with
               | Some d => let '(ds, rest) := digits base s' in (d :: ds, rest)
               | None => ([], s)
               end
  end.

Definition horner (base : Z) (num : Z) (ds : list Z) : Z := fold_left (fun a d => a * base + d) ds num.

Lemma digit_value_raw c : is_char c ->
  match digit_value c, raw_digit c with
  | Some d, Some d' => d = d' /\ 0 <= d < 36
  | Some d, None => 36 <= d
  | None, r => r = None
  end.
Proof.
  intros Hc. unfold is_char in Hc.
  pose (P := fun x => match digit_value (x - 128), raw_digit (x - 128) with
    | Some d, Some d' => (d =? d') && (0 <=? d) && (d <? 36) | Some d, None => 36 <=? d
    | None, None => true | None, Some _ => false end).
  assert (P (c + 128) = true) as HP by (apply (ztest_spec 256); [vm_compute; reflexivity|lia]).
  unfold P in HP. replace (c + 128 - 128) with c in HP by lia.
  destruct (digit_value c), (raw_digit c); try done; zcase; try done; lia.
Qed.

Lemma digit_value_in base c : is_char c -> 2 <= base <= 36 ->
  match digit_value c with
  | Some d => if u64 base <=? d then None else Some d
  | None => None
  end = digit_in base c.
Proof.
  intros Hc Hb. pose proof (digit_value_raw c Hc) as H. unfold digit_in.
  rewrite wrap_small by (pow2; lia).
  destruct (digit_value c) as [d|], (raw_digit c) as [d'|]; try done.
  - destruct H as [-> ?]. destruct (Z.leb_spec base d'); by zres.
  - by zres.
Qed.

Lemma digit_in_range base c d : is_char c -> digit_in base c = Some d -> 0 <= d < base.
Proof.
  intros Hc. pose proof (digit_value_raw c Hc) as H. unfold digit_in.
  destruct (raw_digit c) as [d'|] eqn:E; [|done]. destruct (Z.ltb_spec d' base); [|done].
  intros [= ->]. destruct (digit_value c); [lia|done].
Qed.

Lemma horner_mono base num ds : 2 <= base -> 0 <= num -> Forall (fun d => 0 <= d) ds -> num <= horner base num ds.
Proof.
  intros Hb. revert num. unfold horner. induction ds as [|d ds IH]; intros num Hn Hd; cbn [fold_left]; [lia|].
  inversion Hd; subst. assert (num <= num * base + d) by nia.
  etransitivity; [|apply IH]; [done|lia|done].
Qed.

Lemma digits_nonneg base s : Forall is_char s -> Forall (fun d => 0 <= d) (fst (digits base s)).
Proof.
  induction 1 as [|c s Hc Hs IH]; [constructor|]. cbn. destruct (digit_in base c) eqn:E; [|constructor].
  destruct (digits base s). constructor; [|done]. apply (digit_in_range base c); done.
Qed.

(** The overflow test is exact. *)
Lemma overflow_test base num d : 2 <= base <= 36 -> 0 <= num < 2 ^ 64 -> 0 <= d < base ->
  exists qr, grub_divmod64 (u64 (2 ^ 64 - 1 - d)) (u64 base) = Some qr /\
    (fst qr <? num) = (2 ^ 64 <=? num * base + d).
Proof.
  intros Hb Hn Hd. rewrite !wrap_small by (pow2; lia). rewrite divmod64_spec by (pow2; lia).
  eexists. split; [done|]. cbn [fst].
  destruct (Z.ltb_spec ((2 ^ 64 - 1 - d) / base) num) as [H|H].
  - apply Z.div_lt_upper_bound in H || idtac. symmetry. apply Z.leb_le.
    pose proof (Z.mul_succ_div_gt (2 ^ 64 - 1 - d) base ltac:(lia)). nia.
  - symmetry. apply Z.leb_gt. pose proof (Z.mul_div_le (2 ^ 64 - 1 - d) base ltac:(lia)). nia.
Qed.

(** What the digit loop returns, from any accumulated value. *)
Lemma strtoull_loop_spec base s num found : Forall is_char s -> 2 <= base <= 36 -> 0 <= num < 2 ^ 64 ->
  let '(ds, rest) := digits base s in
  if horner base num ds <? 2 ^ 64 then
    strtoull_loop base num found s
    = Some (if found || bool_decide (ds <> []) then mk_parsed (horner base num ds) rest ERR_NONE
            else mk_parsed 0 rest ERR_BAD_NUMBER)
  else exists k, (k < length ds)%nat /\ horner base num (take k ds) < 2 ^ 64 <= horner base num (take (S k) ds) /\
    strtoull_loop base num found s = Some (mk_parsed (2 ^ 64 - 1) (drop k s) ERR_OUT_OF_RANGE).
Proof.
  intros Hs Hb. revert num found. induction Hs as [|c s Hc Hs IH]; intros num found Hn.
  { cbn. zres. by rewrite orb_false_r. }
  cbn [digits strtoull_loop]. pose proof (digit_value_in base c Hc Hb) as Hdv.
  destruct (digit_in base c) as [d|] eqn:Ed.
  - pose proof (digit_in_range base c d Hc Ed) as Hd.
    destruct (digit_value c) as [d'|]; [|discriminate]. destruct (u64 base <=? d'); [discriminate|].
    injection Hdv as ->. destruct (overflow_test base num d Hb Hn Hd) as (qr & -> & Hov). step.
    rewrite Hov. pose proof (digits_nonneg base s Hs) as Hnn.
    destruct (Z.leb_spec (2 ^ 64) (num * base + d)) as [Ho|Ho].
    + destruct (digits base s) as [ds rest]. cbn [fst] in Hnn.
      pose proof (horner_mono base (num * base + d) ds ltac:(lia) ltac:(nia) Hnn) as Hmono.
      change (horner base num (d :: ds)) with (horner base (num * base + d) ds). zres.
      exists 0%nat. cbn [length]. split; [lia|]. split; [|done].
      change (num < 2 ^ 64 <= num * base + d). lia.
    + rewrite wrap_small by nia. specialize (IH (num * base + d) true ltac:(nia)).
      destruct (digits base s) as [ds rest]. cbn [fst] in Hnn.
      change (horner base num (d :: ds)) with (horner base (num * base + d) ds).
      destruct (horner base (num * base + d) ds <? 2 ^ 64).
      * rewrite IH. by rewrite orb_true_r.
      * destruct IH as (k & Hk & Hh & E). exists (S k). cbn [length]. split; [lia|].
        rewrite E. split; [exact Hh|done].
  - change (horner base num []) with num. zres. rewrite orb_false_r.
    destruct (digit_value c) as [d'|]; [|done]. destruct (u64 base <=? d'); [done|discriminate].
Qed.

(** * Printing *)

Lemma app_mid (a b m : list Z) x y : a ++ (x :: m ++ [y]) ++ b = (a ++ x :: m) ++ y :: b.
Proof. rewrite <- app_assoc. cbn. by rewrite <- app_assoc. Qed.

Lemma reverse_loop_spec fuel m : forall a b, (length m <= fuel)%nat ->
  reverse_loop fuel (zlen a) (zlen a + zlen m - 1) (a ++ m ++ b) = Some (a ++ rev m ++ b).
Proof.
  revert m. induction fuel as [|fuel IH]; intros m a b Hf.
  { destruct m; [done|cbn in Hf; lia]. }
  cbn [reverse_loop]. destruct (Z.ltb_spec (zlen a) (zlen a + zlen m - 1)) as [Hlt|Hge].
  - destruct m as [|x m]; [unfold zlen in Hlt; cbn in Hlt; lia|].
    destruct m as [|y m _] using rev_ind; [unfold zlen in Hlt; cbn in Hlt; lia|].
    assert (length (x :: m ++ [y]) = S (S (length m))) as Hl by (cbn; rewrite length_app; cbn; lia).
    rewrite Hl in Hf. replace (zlen a + zlen (x :: m ++ [y]) - 1) with (zlen a + 1 + zlen m)
      by (unfold zlen; rewrite Hl; lia).
    assert (aget (a ++ (x :: m ++ [y]) ++ b) (zlen a) = Some x) as ->.
    { unfold aget, zlen. zres. rewrite Nat2Z.id, lookup_app_r, Nat.sub_diag by lia. done. }
    step. assert (aget (a ++ (x :: m ++ [y]) ++ b) (zlen a + 1 + zlen m) = Some y) as ->.
    { unfold aget, zlen. zres. replace (Z.to_nat _) with (length (a ++ x :: m))
        by (rewrite length_app; cbn; lia).
      rewrite app_mid, lookup_app_r, Nat.sub_diag by lia. done. }
    step. rewrite aset_Some by (unfold zlen; rewrite !length_app, Hl; lia). step.
    replace (<[Z.to_nat (zlen a) := y]> (a ++ (x :: m ++ [y]) ++ b)) with (a ++ (y :: m ++ [y]) ++ b)
      by (unfold zlen; rewrite Nat2Z.id, insert_app_r_alt, Nat.sub_diag by lia; done).
    rewrite aset_Some
      by (unfold zlen; rewrite !length_app; cbn [length]; rewrite length_app; cbn; lia).
    step. replace (<[Z.to_nat (zlen a + 1 + zlen m) := x]> (a ++ (y :: m ++ [y]) ++ b))
      with ((a ++ [y]) ++ m ++ (x :: b)).
    2:{ unfold zlen. replace (Z.to_nat _) with (length (a ++ y :: m)) by (rewrite length_app; cbn; lia).
        rewrite app_mid, insert_app_r_alt, Nat.sub_diag by lia. cbn. by rewrite <- !app_assoc. }
    replace (zlen a + 1) with (zlen (a ++ [y])) by (unfold zlen; rewrite length_app; cbn; lia).
    rewrite IH by lia. cbn [rev]. rewrite rev_app_distr, <- !app_assoc. done.
  - assert (length m <= 1)%nat by (unfold zlen in Hge; lia).
    destruct m as [|x [|y m]]; [done..|cbn in *; lia].
Qed.

Lemma grub_reverse_spec l : grub_reverse l = Some (rev l).
Proof.
  unfold grub_reverse. pose proof (reverse_loop_spec (length l) l [] [] ltac:(lia)) as H.
  rewrite !app_nil_r in H. exact H.
Qed.

(** Digit values of a number, least significant first. *)
Fixpoint le_digits (base : Z) (fuel : nat) (n : Z) : list Z :=
  match fuel with
  | O => []
  | S fuel => n mod base :: (if n / base =? 0 then [] else le_digits base fuel (n / base))
  end.

Definition hexchar (c d : Z) : Z := if 9 <? d then d + (if c =? 120 then 97 else 65) - 10 else d + 48.

Lemma lltoa_hex_digits fuel c n : lltoa_hex fuel c n = hexchar c <$> le_digits 16 fuel n.
Proof.
  revert n. induction fuel as [|fuel IH]; intros n; [done|]. cbn [lltoa_hex le_digits].
  change 0xf with (Z.ones 4). rewrite Z.land_ones, Z.shiftr_div_pow2 by lia. change (2 ^ 4) with 16.
  cbn [fmap list_fmap]. f_equal. destruct (n / 16 =? 0); [done|apply IH].
Qed.

Lemma lltoa_oct_digits fuel n : lltoa_oct fuel n = (fun d => d + 48) <$> le_digits 8 fuel n.
Proof.
  revert n. induction fuel as [|fuel IH]; intros n; [done|]. cbn [lltoa_oct le_digits].
  change 0x7 with (Z.ones 3). rewrite Z.land_ones, Z.shiftr_div_pow2 by lia. change (2 ^ 3) with 8.
  cbn [fmap list_fmap]. f_equal. destruct (n / 8 =? 0); [done|apply IH].
Qed.

Lemma lltoa_dec_digits fuel n : 0 <= n < 2 ^ 64 ->
  lltoa_dec fuel n = Some ((fun d => d + 48) <$> le_digits 10 fuel n).
Proof.
  revert n. induction fuel as [|fuel IH]; intros n Hn; [done|]. cbn [lltoa_dec le_digits].
  rewrite divmod64_spec by lia. step. cbn [fst snd].
  assert (0 <= n / 10 < 2 ^ 64) by (split; [apply Z.div_pos; lia|apply Z.div_lt_upper_bound; lia]).
  destruct (n / 10 =? 0); [done|]. rewrite IH by done. done.
Qed.

Lemma le_digits_range base fuel n : 0 < base -> Forall (fun d => 0 <= d < base) (le_digits base fuel n).
Proof.
  intros Hb. revert n. induction fuel as [|fuel IH]; intros n; constructor.
  - by apply Z.mod_pos_bound.
  - by destruct (n / base =? 0).
Qed.

Lemma le_digits_value base fuel n : 2 <= base -> 0 <= n < base ^ Z.of_nat fuel ->
  horner base 0 (rev (le_digits base fuel n)) = n.
Proof.
  intros Hb. revert n. induction fuel as [|fuel IH]; intros n Hn.
  { change (base ^ Z.of_nat 0) with 1 in Hn. cbn. lia. }
  cbn [le_digits rev]. unfold horner. rewrite fold_left_app. cbn [fold_left].
  pose proof (Z.div_mod n base ltac:(lia)) as Hdm.
  destruct (Z.eqb_spec (n / base) 0) as [E|E]; [cbn; lia|].
  unfold horner in IH. rewrite IH; [lia|]. split; [apply Z.div_pos; lia|].
  apply Z.div_lt_upper_bound; [lia|]. rewrite Nat2Z.inj_succ, Z.pow_succ_r in Hn by lia. lia.
Qed.

Lemma le_digits_cons base fuel n : exists d ds, le_digits base (S fuel) n = d :: ds.
Proof. eexists _, _. reflexivity. Qed.

(** Parsing printed digits gives the digits back. *)
Lemma digits_map base (ch : Z -> Z) ds :
  (forall d, 0 <= d < base -> digit_in base (ch d) = Some d) -> Forall (fun d => 0 <= d < base) ds ->
  digits base (ch <$> ds) = (ds, []).
Proof.
  intros Hch. induction 1 as [|d ds Hd _ IH]; [done|]. cbn. by rewrite Hch, IH by done.
Qed.
(** The conversion characters and the base each one prints in. *)
Definition conv_base (c : Z) : Z := if (c =? 120) || (c =? 88) then 16 else if c =? 111 then 8 else 10.

Definition conv_char (c d : Z) : Z :=
  if (c =? 120) || (c =? 88) then hexchar c d else d + 48.

Lemma lltoa_spec c n : 0 <= n < 2 ^ 64 ->
  let neg := (s64 n <? 0) && (c =? 100) in
  let n' := if neg then u64 (- s64 n) else n in
  grub_lltoa c n = Some ((if neg then [45] else []) ++
    (conv_char c <$> rev (le_digits (conv_base c) 64 n'))).
Proof.
  intros Hn neg n'. unfold grub_lltoa. fold neg. fold n'.
  assert (0 <= n' < 2 ^ 64) as Hn' by (unfold n'; destruct neg; [apply wrap_range; lia|done]).
  unfold conv_base, conv_char. destruct ((c =? 120) || (c =? 88)).
  - change (16 =? 16) with true. cbv iota. rewrite lltoa_hex_digits. step. rewrite grub_reverse_spec. step.
    by rewrite map_rev.
  - destruct (c =? 111).
    + change (8 =? 16) with false. change (8 =? 8) with true. cbv iota.
      rewrite lltoa_oct_digits. step. rewrite grub_reverse_spec. step. by rewrite map_rev.
    + change (10 =? 16) with false. change (10 =? 8) with false. cbv iota.
      rewrite lltoa_dec_digits by done. step. rewrite grub_reverse_spec. step. by rewrite map_rev.
Qed.

Lemma conv_char_facts c d : 0 <= d < conv_base c ->
  digit_in (conv_base c) (conv_char c d) = Some d /\ is_char (conv_char c d) /\
  grub_isspace (conv_char c d) = false /\ conv_char c d <> 120 /\ conv_char c d <> 45.
Proof.
  intros Hd.
  pose (P := fun ch b d => bool_decide (digit_in b (ch d) = Some d /\ is_char (ch d) /\
    grub_isspace (ch d) = false /\ ch d <> 120 /\ ch d <> 45)).
  assert (forall ch b, ztest b (P ch b) = true -> 0 <= d < b -> P ch b d = true) as Hz
    by (intros; by apply (ztest_spec b)).
  unfold conv_base, conv_char in *. destruct ((c =? 120) || (c =? 88)) eqn:E.
  - unfold hexchar. destruct (c =? 120).
    + eapply bool_decide_eq_true, (Hz (hexchar 120) 16); [reflexivity|done].
    + eapply bool_decide_eq_true, (Hz (hexchar 88) 16); [reflexivity|done].
  - destruct (c =? 111).
    + eapply bool_decide_eq_true, (Hz (fun d => d + 48) 8); [reflexivity|done].
    + eapply bool_decide_eq_true, (Hz (fun d => d + 48) 10); [reflexivity|done].
Qed.

Lemma guess_base_id s base : base <> 0 -> at0 (tail s) <> 120 -> guess_base s base = (base, s).
Proof.
  intros Hb Hx. unfold guess_base. rewrite (proj2 (Z.eqb_neq _ _) Hx), (proj2 (Z.eqb_neq _ _) Hb).
  cbn [andb]. destruct (at0 s =? 48); by rewrite (proj2 (Z.eqb_neq _ _) Hb).
Qed.

(** Number printed without a sign, then parsed in its base. *)
Lemma parse_printed c n : 0 <= n < 2 ^ 64 ->
  grub_strtoull (conv_char c <$> rev (le_digits (conv_base c) 64 n)) (conv_base c)
  = Some (mk_parsed n [] ERR_NONE).
Proof.
  intros Hn. set (b := conv_base c).
  assert (b = 16 \/ b = 8 \/ b = 10) as Hb by (unfold b, conv_base; repeat case_match; lia).
  assert (Forall (fun d => 0 <= d < b) (rev (le_digits b 64 n))) as Hds
    by (apply Forall_rev, le_digits_range; lia).
  assert (horner b 0 (rev (le_digits b 64 n)) = n) as Hv.
  { apply le_digits_value; [lia|]. split; [lia|]. apply Z.lt_le_trans with (2 ^ 64); [lia|].
    change (Z.of_nat 64) with 64. apply Z.pow_le_mono_l. lia. }
  destruct (le_digits_cons b 63 n) as (d0 & ds0 & E0).
  assert (rev (le_digits b 64 n) <> []) as Hne by (rewrite E0; cbn; by destruct (rev ds0)).
  generalize dependent (rev (le_digits b 64 n)). intros ds Hds Hv Hne. clear E0 d0 ds0.
  assert (Forall is_char (conv_char c <$> ds)) as Hc.
  { apply Forall_fmap. eapply Forall_impl; [exact Hds|]. intros d Hd. by apply conv_char_facts. }
  unfold grub_strtoull. destruct ds as [|d ds]; [done|].
  pose proof (proj1 (Forall_cons _ _ _) Hds) as [Hd Hds'].
  destruct (conv_char_facts c d Hd) as (_ & _ & Hsp & _).
  assert (skip_while grub_isspace (conv_char c <$> (d :: ds)) = conv_char c <$> (d :: ds)) as ->
    by (cbn; by rewrite Hsp).
  rewrite guess_base_id; [|lia|].
  2:{ destruct ds as [|d' ds]; [done|]. cbn. apply Forall_cons in Hds' as [Hd' _].
      by apply conv_char_facts. }
  pose proof (strtoull_loop_spec b (conv_char c <$> (d :: ds)) 0 false Hc ltac:(lia) ltac:(lia)) as H.
  rewrite digits_map in H; [|intros; by apply conv_char_facts|done].
  rewrite Hv in H. revert H. zres. intros ->. done.
Qed.

(** [grub_divmod64] is Euclidean division for every 64-bit dividend and non-zero divisor,
    also where the remainder register is shifted past 2^63 and on the 32-bit fast path. *)
Theorem divmod64_correct n d :
  is_u 64 n -> is_u 64 d -> d <> 0 -> grub_divmod64 n d = Some (n / d, n mod d).
Proof. intros Hn Hd Hz. apply divmod64_spec; [exact Hn|]. unfold is_u in Hd. lia. Qed.

Lemma divmod64_correct_witness :
  grub_divmod64 0xFFFFFFFFFFFFFFFF 0x8000000000000001
  = Some (0xFFFFFFFFFFFFFFFF / 0x8000000000000001, 0xFFFFFFFFFFFFFFFF mod 0x8000000000000001).
Proof. apply divmod64_correct; [by vm_compute|by vm_compute|discriminate]. Defined.

(** C35: [grub_strtoull] parses numbers exactly.  After the white space and the base prefix it
    reads the longest run of digits of the base; if their value fits 64 bits it is returned
    with [*end] after the run; if not, the result saturates at 2^64-1 with an out-of-range
    error and [*end] at the first digit whose inclusion overflows; an empty run is a bad
    number.  The parse always terminates with one of these. *)
Theorem strtoull_correct s base :
  Forall is_char s -> base = 0 \/ 2 <= base <= 36 ->
  let '(b, t) := guess_base (skip_while grub_isspace s) base in
  let '(ds, rest) := digits b t in
  2 <= b <= 36 /\
  if bool_decide (ds = []) then grub_strtoull s base = Some (mk_parsed 0 rest ERR_BAD_NUMBER)
  else if horner b 0 ds <? 2 ^ 64 then grub_strtoull s base = Some (mk_parsed (horner b 0 ds) rest ERR_NONE)
  else exists k, (k < length ds)%nat /\
    horner b 0 (take k ds) < 2 ^ 64 <= horner b 0 (take (S k) ds) /\
    grub_strtoull s base = Some (mk_parsed (2 ^ 64 - 1) (drop k t) ERR_OUT_OF_RANGE).
Proof.
  intros Hs Hb. unfold grub_strtoull. pose proof (Forall_skip_while grub_isspace s Hs) as Hsk.
  generalize dependent (skip_while grub_isspace s). clear Hs s. intros s Hs.
  assert (let '(b, t) := guess_base s base in 2 <= b <= 36 /\ Forall is_char t) as Hg.
  { unfold guess_base. repeat case_match; simplify_eq; split; try done; try lia; zcase;
      try lia; by apply Forall_drop. }
  destruct (guess_base s base) as [b t]. destruct Hg as [Hb' Ht].
  pose proof (strtoull_loop_spec b t 0 false Ht Hb' ltac:(lia)) as H.
  destruct (digits b t) as [ds rest]. split; [done|]. cbn [orb] in H.
  destruct (bool_decide_reflect (ds = [])) as [->|Hne].
  - change (horner b 0 []) with 0 in H. exact H.
  - rewrite (bool_decide_eq_true_2 _ Hne) in H. by destruct (horner b 0 ds <? 2 ^ 64).
Qed.

Lemma strtoull_correct_witness :
  grub_strtoull (chars "  0x1fFg") 0 = Some (mk_parsed 511 (chars "g") ERR_NONE) /\
  exists k, (k < 20)%nat /\
    horner 10 0 (take k [1;8;4;4;6;7;4;4;0;7;3;7;0;9;5;5;1;6;1;6]) < 2 ^ 64
      <= horner 10 0 (take (S k) [1;8;4;4;6;7;4;4;0;7;3;7;0;9;5;5;1;6;1;6]) /\
    grub_strtoull (chars "18446744073709551616") 10
    = Some (mk_parsed (2 ^ 64 - 1) (drop k (chars "18446744073709551616")) ERR_OUT_OF_RANGE).
Proof.
  split.
  - refine (proj2 (strtoull_correct (chars "  0x1fFg") 0 _ (or_introl eq_refl))).
    repeat constructor; discriminate.
  - refine (proj2 (strtoull_correct (chars "18446744073709551616") 10 _ (or_intror _))).
    + repeat constructor; discriminate.
    + lia.
Defined.



End GrubNum.
