(* ===== verification/GrubBuffer.v ===== *)
(** The growing byte buffer of GRUB: src/grub/grub-core/kern/buffer.c and
    src/grub/include/grub/buffer.h, with the overflow-checked addition of
    src/grub/include/grub/safemath.h.

    The bytes of a buffer are kept as values of [char].  Whether an allocation succeeds is
    decided by the heap, a variable of the section: it may depend on the size asked for. *)

From S2P Require Import Prelude GrubStr.
Import GrubStr.

Module GrubBuffer.

(** [__builtin_add_overflow] at [grub_size_t]: the sum, or [None] on overflow. *)
Definition grub_add (a b : Z) : option Z := if a + b <? 2 ^ 64 then Some (a + b) else None.

Record buffer := mk_buffer {
  data : list Z;
  sz : Z;
  pos : Z;
  used : Z
}.

Section Allocation.
Variable alloc_ok : Z -> bool.

(** Fresh memory holds arbitrary bytes; 0 here, no operation reads them. *)
Definition grub_buffer_new (n : Z) : option buffer :=
  if alloc_ok 32 then
    if alloc_ok n then Some (mk_buffer (replicate (Z.to_nat n) 0) n 0 0) else None
  else None.

(** The power of two, or [None] when doubling has reached 0; at most 64 doublings. *)
Fixpoint newsz_loop (fuel : nat) (newsz req : Z) : option Z :=
  if req <=? newsz then Some newsz else
  match fuel with
  | O => None
  | S fuel => if newsz =? 0 then None else newsz_loop fuel (u64 (Z.shiftl newsz 1)) req
  end.

Definition grub_buffer_ensure_space (buf : buffer) (req : Z) : grub_err_t * buffer :=
  if req <=? sz buf then (ERR_NONE, buf)
  else match newsz_loop 65 1 req with
       | None => (ERR_OUT_OF_RANGE, buf)
       | Some newsz =>
           if alloc_ok newsz then
             (ERR_NONE, mk_buffer (resize (Z.to_nat newsz) 0 (data buf)) newsz (pos buf) (used buf))
           else (ERR_OUT_OF_MEMORY, buf)
       end.

Definition grub_buffer_append_data (buf : buffer) (d : list Z) : grub_err_t * buffer :=
  match grub_add (used buf) (zlen d) with
  | None => (ERR_OUT_OF_RANGE, buf)
  | Some req =>
      match grub_buffer_ensure_space buf req with
      | (ERR_NONE, buf) =>
          (ERR_NONE, mk_buffer (list_inserts (Z.to_nat (used buf)) d (data buf)) (sz buf) (pos buf) req)
      | (e, buf) => (e, buf)
      end
  end.

Definition grub_buffer_append_char (buf : buffer) (c : Z) : grub_err_t * buffer :=
  grub_buffer_append_data buf [c].

Definition grub_buffer_get_unread_bytes (buf : buffer) : Z := u64 (used buf - pos buf).

Definition grub_buffer_reset (buf : buffer) : buffer := mk_buffer (data buf) (sz buf) 0 0.

Definition grub_buffer_take_data (buf : buffer) : list Z * buffer := (data buf, mk_buffer [] 0 0 0).

(** The bytes from the peeked position on; [None] is the NULL pointer. *)
Definition grub_buffer_peek_data_at (buf : buffer) (off : Z) : option (list Z) :=
  match grub_add (pos buf) off with
  | None => None
  | Some off => if used buf <=? off then None else Some (drop (Z.to_nat off) (data buf))
  end.

Definition grub_buffer_peek_data (buf : buffer) : option (list Z) := grub_buffer_peek_data_at buf 0.

Definition grub_buffer_advance_read_pos (buf : buffer) (n : Z) : grub_err_t * buffer :=
  match grub_add (pos buf) n with
  | None => (ERR_OUT_OF_RANGE, buf)
  | Some newpos => if used buf <? newpos then (ERR_OUT_OF_RANGE, buf)
                   else (ERR_NONE, mk_buffer (data buf) (sz buf) newpos (used buf))
  end.

(** ** Invariant and abstraction *)

Record buffer_wf (b : buffer) : Prop := mk_buffer_wf {
  bw_len : zlen (data b) = sz b;
  bw_pos : 0 <= pos b <= used b;
  bw_used : used b <= sz b < 2 ^ 64
}.

(** Everything written so far. *)
Definition written (b : buffer) : list Z := take (Z.to_nat (used b)) (data b).

Lemma newsz_loop_spec fuel i req : 0 <= i <= 63 -> req <= 2 ^ 63 -> 64 - i <= Z.of_nat fuel ->
  exists n, newsz_loop fuel (2 ^ i) req = Some n /\ req <= n <= 2 ^ 63 /\ 0 < n.
Proof.
  revert i. induction fuel as [|fuel IH]; intros i Hi Hr Hf; [lia|]. cbn [newsz_loop].
  assert (0 < 2 ^ i <= 2 ^ 63) as Hp
    by (split; [apply Z.pow_pos_nonneg; lia|apply Z.pow_le_mono_r; lia]).
  destruct (Z.leb_spec req (2 ^ i)); [exists (2 ^ i); split; [done|lia]|].
  zres. assert (i <> 63) by (intros ->; lia).
  rewrite Z.shiftl_mul_pow2 by lia. change (2 ^ 1) with 2.
  rewrite wrap_small.
  - replace (2 ^ i * 2) with (2 ^ (i + 1)) by (rewrite Z.pow_add_r by lia; lia). apply IH; lia.
  - assert (2 ^ i <= 2 ^ 62) by (apply Z.pow_le_mono_r; lia). pow2. lia.
Qed.

Hypothesis always_ok : forall n, alloc_ok n = true.

Lemma ensure_space_ok b req : buffer_wf b -> used b <= req <= 2 ^ 63 ->
  exists b', grub_buffer_ensure_space b req = (ERR_NONE, b') /\ buffer_wf b' /\ req <= sz b' /\
    pos b' = pos b /\ used b' = used b /\ written b' = written b.
Proof.
  intros [Hl Hp Hu] Hr. unfold grub_buffer_ensure_space. destruct (Z.leb_spec req (sz b)).
  { exists b. by split_and!. }
  destruct (newsz_loop_spec 65 0 req) as (n & E & Hn & Hn0); [lia..|].
  change (2 ^ 0) with 1 in E. rewrite E, always_ok. eexists. split; [done|].
  assert (length (data b) <= Z.to_nat n)%nat as Hlen by (unfold zlen in Hl; lia).
  split_and!; try done; [|cbn; lia|].
  - constructor; cbn; [unfold zlen; rewrite length_resize; lia|lia|pow2; lia].
  - unfold written. cbn. rewrite resize_ge by lia. rewrite take_app_le by (unfold zlen in Hl; lia). done.
Qed.

(** Appending appends, as long as the total stays within 2^63 bytes. *)
Lemma append_data_ok b d : buffer_wf b -> used b + zlen d <= 2 ^ 63 ->
  exists b', grub_buffer_append_data b d = (ERR_NONE, b') /\ buffer_wf b' /\ pos b' = pos b /\
    used b' = used b + zlen d /\ written b' = written b ++ d.
Proof.
  intros Hwf Hd. unfold grub_buffer_append_data, grub_add. pose proof Hwf as [Hl Hp Hu].
  assert (0 <= zlen d) by (unfold zlen; lia).
  rewrite (proj2 (Z.ltb_lt _ _)) by (pow2; lia).
  destruct (ensure_space_ok b (used b + zlen d) Hwf) as (b' & -> & [Hl' Hp' Hu'] & Hsz & Ep & Eu & Ew); [lia|].
  eexists. split; [done|]. unfold zlen in *.
  split_and!; cbn; try done.
  - constructor; cbn; [unfold zlen; rewrite length_inserts; lia|lia|lia].
  - unfold written in *. cbn. rewrite <- Ew.
    apply list_eq. intros i. destruct (decide (i < Z.to_nat (used b))%nat) as [Hi|Hi].
    + rewrite lookup_take_lt by lia. rewrite lookup_app_l by (rewrite length_take; lia).
      rewrite lookup_take_lt by lia. apply list_lookup_inserts_lt. lia.
    + destruct (decide (i < Z.to_nat (used b) + length d)%nat) as [Hi2|Hi2].
      * rewrite lookup_take_lt by lia. rewrite list_lookup_inserts by lia.
        rewrite lookup_app_r by (rewrite length_take; lia). rewrite length_take. f_equal. lia.
      * rewrite lookup_take_ge by lia. symmetry. apply lookup_ge_None. rewrite length_app, length_take. lia.
Qed.

Lemma buffer_new_ok n : 0 <= n < 2 ^ 64 ->
  exists b, grub_buffer_new n = Some b /\ buffer_wf b /\ pos b = 0 /\ used b = 0 /\ written b = [].
Proof.
  intros Hn. unfold grub_buffer_new. rewrite !always_ok. eexists. split; [done|].
  split_and!; try done. constructor; cbn; [unfold zlen; rewrite length_replicate; lia|lia|lia].
Qed.

Lemma reset_ok b : buffer_wf b -> buffer_wf (grub_buffer_reset b) /\ written (grub_buffer_reset b) = [].
Proof. intros [Hl Hp Hu]. split; [|done]. constructor; cbn; lia. Qed.

End Allocation.

Lemma length_written b : buffer_wf b -> zlen (written b) = used b.
Proof. intros [Hl Hp Hu]. unfold written, zlen in *. rewrite length_take. lia. Qed.

(** A peek inside the written part sees the written bytes first. *)
Lemma peek_spec b off : buffer_wf b -> 0 <= off -> pos b + off < 2 ^ 64 ->
  grub_buffer_peek_data_at b off
  = if used b <=? pos b + off then None else Some (drop (Z.to_nat (pos b + off)) (data b)).
Proof.
  intros Hwf Ho Hlt. unfold grub_buffer_peek_data_at, grub_add. by zres.
Qed.

Lemma data_written b : buffer_wf b -> data b = written b ++ drop (Z.to_nat (used b)) (data b).
Proof. intros _. unfold written. by rewrite take_drop. Qed.

End GrubBuffer.
