(* ===== verification/GrubParser.v ===== *)
(** The command-line parser of GRUB's rescue mode: src/grub/grub-core/kern/parser.c.

    Environment lookup and the outcome of allocations are variables of the section. *)

From S2P Require Import Prelude GrubStr GrubBuffer.
Import GrubStr GrubBuffer.

Module GrubParser.

Inductive parser_state :=
| TEXT | ESC | QUOTE | DQUOTE | VAR | VARNAME | VARNAME2 | QVAR | QVARNAME | QVARNAME2.

#[export] Instance parser_state_eq_dec : EqDecision parser_state.
Proof. solve_decision. Defined.

Record transition := mk_transition {
  from_state : parser_state;
  to_state : parser_state;
  input : Z;
  keep_value : bool
}.

Definition state_transitions : list transition := [
  mk_transition TEXT QUOTE 39 false;
  mk_transition TEXT DQUOTE 34 false;
  mk_transition TEXT VAR 36 false;
  mk_transition TEXT ESC 92 false;
  mk_transition ESC TEXT 0 true;
  mk_transition QUOTE TEXT 39 false;
  mk_transition DQUOTE TEXT 34 false;
  mk_transition DQUOTE QVAR 36 false;
  mk_transition VAR VARNAME2 123 false;
  mk_transition VAR VARNAME 0 true;
  mk_transition VARNAME TEXT 32 true;
  mk_transition VARNAME TEXT 9 true;
  mk_transition VARNAME2 TEXT 125 false;
  mk_transition QVAR QVARNAME2 123 false;
  mk_transition QVAR QVARNAME 0 true;
  mk_transition QVARNAME TEXT 34 false;
  mk_transition QVARNAME DQUOTE 32 true;
  mk_transition QVARNAME DQUOTE 9 true;
  mk_transition QVARNAME2 DQUOTE 125 false ].

Fixpoint find_transition (ts : list transition) (state : parser_state) (c : Z) : option transition :=
  match ts with
  | [] => None
  | t :: ts =>
      if negb (bool_decide (from_state t = state)) then find_transition ts state c
      else if input t =? c then Some t
      else if grub_isspace (input t) && negb (grub_isalpha c) && negb (grub_isdigit c)
              && negb (c =? 95) then Some t
      else if input t =? 0 then Some t
      else find_transition ts state c
  end.

(** The next state and the character to keep (0 for none). *)
Definition grub_parser_cmdline_state (state : parser_state) (c : Z) : parser_state * Z :=
  match find_transition state_transitions state c with
  | Some t => (to_state t, if keep_value t then c else 0)
  | None => (state, c)
  end.

Definition check_varstate (s : parser_state) : bool :=
  match s with VARNAME | VARNAME2 | QVARNAME | QVARNAME2 => true | _ => false end.

(** The C string at the start of some bytes. *)
Fixpoint cstring (l : list Z) : list Z :=
  match l with [] => [] | c :: l => if c =? 0 then [] else c :: cstring l end.

(** A fold over the characters of a line. *)
Fixpoint run_line {S : Type} (f : Z -> S -> S) (line : list Z) (s : S) : S :=
  match line with [] => s | c :: line => run_line f line (f c s) end.

Lemma run_line_cons {S} (f : Z -> S -> S) c line s : run_line f (c :: line) s = run_line f line (f c s).
Proof. reflexivity. Qed.

Lemma run_line_app {S} (f : Z -> S -> S) l1 l2 s : run_line f (l1 ++ l2) s = run_line f l2 (run_line f l1 s).
Proof. revert s. induction l1 as [|c l1 IH]; intros s; [done|]. cbn [app run_line]. apply IH. Qed.

Section Parser.
Variable alloc_ok : Z -> bool.
Variable env_get : list Z -> option (list Z).

Definition add_var (varname buf : buffer) (state newstate : parser_state)
  : grub_err_t * buffer * buffer :=
  if negb (check_varstate state && negb (check_varstate newstate)) then (ERR_NONE, varname, buf)
  else match grub_buffer_append_char alloc_ok varname 0 with
       | (ERR_NONE, varname) =>
           match grub_buffer_peek_data varname with
           | None => (ERR_OUT_OF_RANGE, varname, buf)
           | Some name =>
               let val := env_get (cstring name) in
               let varname := grub_buffer_reset varname in
               match val with
               | None => (ERR_NONE, varname, buf)
               | Some val =>
                   let '(e, buf) := grub_buffer_append_data alloc_ok buf val in (e, varname, buf)
               end
           end
       | (e, varname) => (e, varname, buf)
       end.

Definition terminate_arg (buf : buffer) (argc : Z) : grub_err_t * buffer * Z :=
  let unread := grub_buffer_get_unread_bytes buf in
  if unread =? 0 then (ERR_NONE, buf, argc)
  else match grub_buffer_peek_data_at buf (unread - 1) with
       | None => (ERR_OUT_OF_RANGE, buf, argc)
       | Some p =>
           if at0 p =? 0 then (ERR_NONE, buf, argc)
           else match grub_buffer_append_char alloc_ok buf 0 with
                | (ERR_NONE, buf) => (ERR_NONE, buf, argc + 1)
                | (e, buf) => (e, buf, argc)
                end
       end.

Record parse := mk_parse {
  pbuf : buffer;
  pvar : buffer;
  pstate : parser_state;
  pargc : Z
}.

Definition process_char (c : Z) (p : parse) : grub_err_t * parse :=
  let '(newstate, use) := grub_parser_cmdline_state (pstate p) c in
  match add_var (pvar p) (pbuf p) (pstate p) newstate with
  | (ERR_NONE, var, buf) =>
      if check_varstate newstate then
        if negb (use =? 0) then
          let '(e, var) := grub_buffer_append_char alloc_ok var use in
          (e, mk_parse buf var newstate (pargc p))
        else (ERR_NONE, mk_parse buf var newstate (pargc p))
      else if bool_decide (newstate = TEXT) && negb (bool_decide (pstate p = ESC)) && grub_isspace use then
        let '(e, buf, argc) := terminate_arg buf (pargc p) in (e, mk_parse buf var newstate argc)
      else if negb (use =? 0) then
        let '(e, buf) := grub_buffer_append_char alloc_ok buf use in
        (e, mk_parse buf var newstate (pargc p))
      else (ERR_NONE, mk_parse buf var newstate (pargc p))
  | (e, var, buf) => (e, mk_parse buf var newstate (pargc p))
  end.

Fixpoint process_line (line : list Z) (p : parse) : grub_err_t * parse :=
  match line with
  | [] => (ERR_NONE, p)
  | c :: line =>
      match process_char c p with
      | (ERR_NONE, p) => process_line line p
      | (e, p) => (e, p)
      end
  end.

(** The [do]/[while] loop.  [rp] is the text still to read, [None] for NULL; [lines] are the
    lines [getline] will deliver (then NULL), [None] when there is no [getline]; those that are
    left are returned. *)
Fixpoint read_loop (fuel : nat) (rp : option (list Z)) (lines : option (list (list Z))) (p : parse)
  : option (grub_err_t * parse * option (list (list Z))) :=
  match fuel with
  | O => None
  | S fuel =>
      let fetch :=
        match lines with
        | None => None
        | Some [] => Some (None, Some [])
        | Some (l :: ls) => Some (Some l, Some ls)
        end in
      match (match rp with Some (_ :: _) => Some (rp, lines) | _ => fetch end) with
      | None => Some (ERR_NONE, p, lines)
      | Some (None, lines) => Some (ERR_NONE, p, lines)
      | Some (Some line, lines) =>
          match process_line line p with
          | (ERR_NONE, p) =>
              if negb (bool_decide (pstate p = TEXT)) && negb (check_varstate (pstate p))
              then read_loop fuel (Some []) lines p
              else Some (ERR_NONE, p, lines)
          | (e, p) => Some (e, p, lines)
          end
      end
  end.

(** The loop that sets up [argv]: the strings it points at. *)
Fixpoint collect_args (n : nat) (first : bool) (buf : buffer) : grub_err_t * list (list Z) :=
  match n with
  | O => (ERR_NONE, [])
  | S n =>
      match (if first then (ERR_NONE, buf) else grub_buffer_advance_read_pos buf 1) with
      | (ERR_NONE, buf) =>
          match grub_buffer_peek_data buf with
          | None => (ERR_OUT_OF_RANGE, [])
          | Some p =>
              let arg := cstring p in
              match grub_buffer_advance_read_pos buf (grub_strlen arg) with
              | (ERR_NONE, buf) =>
                  match collect_args n false buf with
                  | (ERR_NONE, args) => (ERR_NONE, arg :: args)
                  | (e, _) => (e, [])
                  end
              | (e, _) => (e, [])
              end
          end
      | (e, _) => (e, [])
      end
  end.

(** The error code, the arguments ([argc] of them) and the lines that are left. *)
Definition split_getline (cmdline : list Z) (lines : option (list (list Z)))
  : option (grub_err_t * list (list Z) * option (list (list Z))) :=
  match grub_buffer_new alloc_ok 1024 with
  | None => Some (ERR_OUT_OF_MEMORY, [], lines)
  | Some buf =>
      match grub_buffer_new alloc_ok 200 with
      | None => Some (ERR_OUT_OF_MEMORY, [], lines)
      | Some var =>
          '(e, p, lines) ← read_loop (S (S (length (default [] lines)))) (Some cmdline) lines (mk_parse buf var TEXT 0);
          match e with
          | ERR_NONE =>
              match add_var (pvar p) (pbuf p) (pstate p) TEXT with
              | (ERR_NONE, _, buf) =>
                  match terminate_arg buf (pargc p) with
                  | (ERR_NONE, buf, argc) =>
                      if argc =? 0 then Some (ERR_NONE, [], lines)
                      else if alloc_ok ((argc + 1) * 8) then
                        Some (match collect_args (Z.to_nat argc) true buf with
                              | (ERR_NONE, args) => (ERR_NONE, args, lines)
                              | (e, _) => (e, [], lines)
                              end)
                      else Some (ERR_OUT_OF_MEMORY, [], lines)
                  | (e, _, _) => Some (e, [], lines)
                  end
              | (e, _, _) => Some (e, [], lines)
              end
          | e => Some (e, [], lines)
          end
      end
  end.

Definition grub_parser_split_cmdline (cmdline : list Z) (lines : option (list (list Z)))
  : option (grub_err_t * list (list Z)) :=
  '(e, args, _) ← split_getline cmdline lines; Some (e, args).

(** [grub_parser_execute_getline]: the next line of a script and the rest of it; no line and
    no rest when the script is exhausted. *)
Definition grub_parser_execute_getline (source : option (list Z)) : option (list Z) * option (list Z) :=
  match source with
  | None => (None, None)
  | Some s =>
      match grub_strchr s 10 with
      | Some p => (Some (take (length s - length p) s), Some (tail p))
      | None => (Some s, None)
      end
  end.

(** ** Reference lexer: the same machine over mathematical strings *)

Record lex := mk_lex {
  ldone : list (list Z);
  lcur : list Z;
  lname : list Z;
  lstate : parser_state
}.

Definition lex_var (newstate : parser_state) (l : lex) : lex :=
  if check_varstate (lstate l) && negb (check_varstate newstate) then
    mk_lex (ldone l) (lcur l ++ default [] (env_get (lname l))) [] newstate
  else mk_lex (ldone l) (lcur l) (lname l) newstate.

Definition lex_end (l : lex) : lex :=
  if bool_decide (lcur l = []) then l
  else mk_lex (ldone l ++ [lcur l]) [] (lname l) (lstate l).

Definition lex_char (c : Z) (l : lex) : lex :=
  let '(newstate, use) := grub_parser_cmdline_state (lstate l) c in
  let l' := lex_var newstate l in
  let kept := if use =? 0 then [] else [use] in
  if check_varstate newstate then mk_lex (ldone l') (lcur l') (lname l' ++ kept) newstate
  else if bool_decide (newstate = TEXT) && negb (bool_decide (lstate l = ESC)) && grub_isspace use then lex_end l'
  else mk_lex (ldone l') (lcur l' ++ kept) (lname l') newstate.

Definition lex_line (line : list Z) (l : lex) : lex := run_line lex_char line l.

Definition needs_more (s : parser_state) : bool := negb (bool_decide (s = TEXT)) && negb (check_varstate s).

(** The first line, and further ones while the text is inside quotes or after a backslash. *)
Fixpoint lex_lines (lines : list (list Z)) (l : lex) : lex :=
  match lines with
  | [] => l
  | line :: rest =>
      let l := lex_line line l in
      if needs_more (lstate l) then lex_lines rest l else l
  end.

(** The lines after those. *)
Fixpoint lex_rest (lines : list (list Z)) (l : lex) : list (list Z) :=
  match lines with
  | [] => []
  | line :: rest =>
      let l := lex_line line l in
      if needs_more (lstate l) then lex_rest rest l else rest
  end.

Definition lex_start : lex := mk_lex [] [] [] TEXT.

Definition split_reference (lines : list (list Z)) : list (list Z) :=
  ldone (lex_end (lex_var TEXT (lex_lines lines lex_start))).

End Parser.

Lemma lex_char_eq env_get c l : lex_char env_get c l =
  let '(newstate, use) := grub_parser_cmdline_state (lstate l) c in
  let l' := lex_var env_get newstate l in
  let kept := if use =? 0 then [] else [use] in
  if check_varstate newstate then mk_lex (ldone l') (lcur l') (lname l' ++ kept) newstate
  else if bool_decide (newstate = TEXT) && negb (bool_decide (lstate l = ESC)) && grub_isspace use then lex_end l'
  else mk_lex (ldone l') (lcur l' ++ kept) (lname l') newstate.
Proof. reflexivity. Qed.

#[local] Opaque lex_char.

(** ** Bytes in the buffer *)

Abbreviation text := (Forall (fun c => c <> 0)).

Definition enc (args : list (list Z)) : list Z := concat ((fun a => a ++ [0]) <$> args).

Lemma enc_snoc args a : enc (args ++ [a]) = enc args ++ a ++ [0].
Proof. unfold enc. rewrite fmap_app, concat_app. cbn. by rewrite app_nil_r. Qed.

Lemma cstring_app s rest : text s -> cstring (s ++ 0 :: rest) = s.
Proof.
  induction 1 as [|c s Hc _ IH]; [done|]. cbn. by rewrite (proj2 (Z.eqb_neq _ _) Hc), IH.
Qed.

(** A buffer that holds [w], unread from its start, with at most [B] bytes. *)
Record holds (B : Z) (b : buffer) (w : list Z) : Prop := mk_holds {
  h_wf : buffer_wf b;
  h_pos : pos b = 0;
  h_written : written b = w;
  h_bound : zlen w <= B
}.

Lemma holds_used B b w : holds B b w -> used b = zlen w.
Proof. intros [Hwf _ <- _]. by rewrite length_written. Qed.

Lemma holds_weaken B B' b w : holds B b w -> B <= B' -> holds B' b w.
Proof. intros [? ? ? ?] ?. constructor; try done. lia. Qed.

Lemma holds_data B b w : holds B b w -> exists junk, data b = w ++ junk.
Proof. intros [Hwf _ <- _]. eexists. by apply data_written. Qed.

Section Proofs.
Variable alloc_ok : Z -> bool.
Variable env_get : list Z -> option (list Z).
Hypothesis always_ok : forall n, alloc_ok n = true.
Hypothesis env_text : forall n v, env_get n = Some v -> text v /\ zlen v <= 2 ^ 31.

Lemma append_holds B b w d : holds B b w -> B + zlen d <= 2 ^ 63 ->
  exists b', grub_buffer_append_data alloc_ok b d = (ERR_NONE, b') /\ holds (B + zlen d) b' (w ++ d).
Proof.
  intros H Hd. pose proof (holds_used _ _ _ H) as Hu. destruct H as [Hwf Hp Hw Hb].
  destruct (append_data_ok alloc_ok always_ok b d Hwf) as (b' & E & Hwf' & Hp' & _ & Hw'); [lia|].
  exists b'. split; [done|]. constructor; [done|congruence|by rewrite Hw', Hw|].
  unfold zlen in *. rewrite length_app. lia.
Qed.

Definition expansion (st ns : parser_state) (name : list Z) : list Z :=
  if check_varstate st && negb (check_varstate ns) then default [] (env_get name) else [].

Lemma add_var_holds Bv Bb var buf name w st ns :
  holds Bv var name -> text name -> holds Bb buf w -> 0 <= Bv -> Bv + 1 <= 2 ^ 63 -> Bb + 2 ^ 31 <= 2 ^ 63 ->
  exists var' buf', add_var alloc_ok env_get var buf st ns = (ERR_NONE, var', buf') /\
    holds Bv var' (if check_varstate st && negb (check_varstate ns) then [] else name) /\
    holds (Bb + 2 ^ 31) buf' (w ++ expansion st ns name).
Proof.
  intros Hv Hn Hb H0 H1 H2. unfold add_var, expansion.
  destruct (check_varstate st && negb (check_varstate ns)); cbn [negb].
  2:{ exists var, buf. rewrite app_nil_r. split; [done|]. split; [done|]. apply (holds_weaken Bb); [done|lia]. }
  unfold grub_buffer_append_char.
  destruct (append_holds Bv var name [0] Hv) as (var' & -> & Hv'); [change (zlen [0]) with 1; lia|].
  unfold grub_buffer_peek_data. pose proof (holds_used _ _ _ Hv') as Hu.
  destruct (holds_data _ _ _ Hv') as [junk Hj].
  rewrite peek_spec by (exact (h_wf _ _ _ Hv') || (rewrite ?(h_pos _ _ _ Hv'); lia)).
  rewrite (h_pos _ _ _ Hv'), Hu, Hj. unfold zlen. rewrite length_app. cbn [length]. zres.
  rewrite drop_0, <- app_assoc. cbn [app]. rewrite cstring_app by done.
  assert (holds Bv (grub_buffer_reset var') []) as Hr.
  { destruct (reset_ok var' (h_wf _ _ _ Hv')) as [? ?]. constructor; try done. }
  destruct (env_get name) as [v|] eqn:Ev; cbn [default].
  - destruct (env_text _ _ Ev) as [_ Hlen].
    destruct (append_holds Bb buf w v Hb) as (buf' & -> & Hb'); [lia|].
    exists (grub_buffer_reset var'), buf'. split; [done|]. split; [done|]. apply (holds_weaken _ _ _ _ Hb'). lia.
  - exists (grub_buffer_reset var'), buf. rewrite app_nil_r. split; [done|]. split; [done|].
    apply (holds_weaken Bb); [done|lia].
Qed.

(** The last byte written. *)
Lemma peek_last B b w x : holds B b (w ++ [x]) -> B < 2 ^ 63 ->
  grub_buffer_get_unread_bytes b = zlen w + 1 /\
  exists rest, grub_buffer_peek_data_at b (zlen w + 1 - 1) = Some (x :: rest).
Proof.
  intros H HB. pose proof (holds_used _ _ _ H) as Hu. destruct (holds_data _ _ _ H) as [junk Hj].
  pose proof (h_bound _ _ _ H) as Hb. unfold zlen in *. rewrite length_app in *. cbn [length] in *.
  split.
  - unfold grub_buffer_get_unread_bytes. rewrite Hu, (h_pos _ _ _ H), wrap_small by (pow2; lia). lia.
  - exists junk. rewrite peek_spec by (exact (h_wf _ _ _ H) || (rewrite ?(h_pos _ _ _ H); pow2; lia)).
    rewrite Hu, (h_pos _ _ _ H), Hj. zres.
    replace (Z.to_nat _) with (length w) by lia. by rewrite <- app_assoc, drop_app_length.
Qed.

Lemma terminate_holds B buf done cur :
  holds B buf (enc done ++ cur) -> text cur -> B + 1 < 2 ^ 63 ->
  exists buf', terminate_arg alloc_ok buf (zlen done)
    = (ERR_NONE, buf', zlen (if bool_decide (cur = []) then done else done ++ [cur])) /\
    holds (B + 1) buf' (enc (if bool_decide (cur = []) then done else done ++ [cur])).
Proof.
  intros H Hc HB. unfold terminate_arg. destruct cur as [|x cur _] using rev_ind.
  - rewrite bool_decide_eq_true_2 by done. rewrite app_nil_r in H. exists buf.
    split; [|apply (holds_weaken B); [done|lia]].
    destruct done as [|a done _] using rev_ind.
    + unfold grub_buffer_get_unread_bytes. rewrite (holds_used _ _ _ H), (h_pos _ _ _ H). done.
    + rewrite enc_snoc, app_assoc in H. destruct (peek_last _ _ _ _ H) as (-> & rest & Hp); [lia|].
      rewrite Hp. rewrite (proj2 (Z.eqb_neq _ _)) by (unfold zlen; lia). done.
  - rewrite bool_decide_eq_false_2 by (by destruct cur).
    apply Forall_app in Hc as [_ Hx]. apply Forall_cons in Hx as [Hx _]. pose proof H as H'.
    rewrite app_assoc in H. destruct (peek_last _ _ _ _ H) as (-> & rest & Hp); [lia|].
    rewrite Hp. rewrite (proj2 (Z.eqb_neq _ _)) by (unfold zlen; lia). cbn [at0].
    rewrite (proj2 (Z.eqb_neq _ _) Hx). unfold grub_buffer_append_char.
    destruct (append_holds B buf _ [0] H') as (buf' & -> & Hb'); [change (zlen [0]) with 1; lia|].
    exists buf'. split; [|by rewrite enc_snoc, app_assoc].
    do 2 f_equal. unfold zlen. rewrite length_app. cbn. lia.
Qed.

(** ** The parser follows the reference lexer, character by character *)

Definition M : Z := 2 ^ 31 + 2.

Record sim (k : Z) (p : parse) (l : lex) : Prop := mk_sim {
  s_buf : holds (k * M) (pbuf p) (enc (ldone l) ++ lcur l);
  s_var : holds k (pvar p) (lname l);
  s_done : Forall (fun a => text a) (ldone l);
  s_cur : text (lcur l);
  s_name : text (lname l);
  s_argc : pargc p = zlen (ldone l);
  s_state : pstate p = lstate l
}.

Lemma expansion_text st ns name : text (expansion st ns name).
Proof.
  unfold expansion. destruct (_ && _); [|constructor].
  destruct (env_get name) eqn:E; [|constructor]. apply (env_text _ _ E).
Qed.

Lemma lex_var_eq ns l : lex_var env_get ns l
  = mk_lex (ldone l) (lcur l ++ expansion (lstate l) ns (lname l))
      (if check_varstate (lstate l) && negb (check_varstate ns) then [] else lname l) ns.
Proof. unfold lex_var, expansion. destruct (_ && _); [done|]. by rewrite app_nil_r. Qed.

(** The step shared by [process_char] and the end of the text: expanding a finished name. *)
Lemma add_var_sim k p l ns : sim k p l -> 0 <= k <= 2 ^ 31 ->
  exists var buf, add_var alloc_ok env_get (pvar p) (pbuf p) (pstate p) ns = (ERR_NONE, var, buf) /\
    holds k var (lname (lex_var env_get ns l)) /\
    holds (k * M + 2 ^ 31) buf (enc (ldone l) ++ lcur (lex_var env_get ns l)) /\
    text (lcur (lex_var env_get ns l)) /\ text (lname (lex_var env_get ns l)).
Proof.
  intros [Hb Hv Hd Hc Hn Ha Hs] Hk. rewrite lex_var_eq. cbn [lname lcur ldone].
  destruct (add_var_holds k (k * M) (pvar p) (pbuf p) (lname l) (enc (ldone l) ++ lcur l) (pstate p) ns)
    as (var & buf & E & Hv' & Hb'); try done; try (unfold M; pow2; lia).
  exists var, buf. split; [done|]. rewrite Hs in *. split; [done|].
  rewrite app_assoc. split; [done|]. split.
  - apply Forall_app. split; [done|apply expansion_text].
  - by destruct (_ && _).
Qed.

Lemma use_spec st c : c <> 0 -> snd (grub_parser_cmdline_state st c) = c \/ snd (grub_parser_cmdline_state st c) = 0.
Proof.
  intros _. unfold grub_parser_cmdline_state. destruct (find_transition _ _ _) as [t|]; [|by left].
  cbn. destruct (keep_value t); auto.
Qed.

Lemma process_char_sim k p l c : sim k p l -> c <> 0 -> 0 <= k < 2 ^ 31 ->
  exists p', process_char alloc_ok env_get c p = (ERR_NONE, p') /\ sim (k + 1) p' (lex_char env_get c l).
Proof.
  intros H Hc Hk. rewrite lex_char_eq. unfold process_char. pose proof H as [_ _ Hd _ _ Ha Hs]. rewrite <- Hs.
  pose proof (use_spec (pstate p) c Hc) as Hu.
  destruct (grub_parser_cmdline_state (pstate p) c) as [ns use]. cbn [snd] in Hu.
  destruct (add_var_sim k p l ns H) as (var & buf & -> & Hv & Hb & Ht & Hn); [lia|].
  assert (ldone (lex_var env_get ns l) = ldone l /\ lstate (lex_var env_get ns l) = ns) as [Ed Es]
    by (rewrite lex_var_eq; done).
  rewrite Ed. set (l' := lex_var env_get ns l) in *.
  assert (text (if use =? 0 then [] else [use])) as Htk
    by (destruct (Z.eqb_spec use 0); [constructor|by constructor]).
  assert (k * M + 2 ^ 31 + 1 < (k + 1) * M) as HM by (unfold M; pow2; lia).
  assert (0 <= k * M) as HM0 by (unfold M; pow2; lia).
  assert ((k + 1) * M < 2 ^ 63) as HM63 by (unfold M; pow2; lia).
  destruct (check_varstate ns).
  - destruct (Z.eqb_spec use 0) as [->|Hu0]; cbn [negb].
    + eexists. split; [done|]. rewrite app_nil_r. constructor; try done; cbn.
      * apply (holds_weaken _ _ _ _ Hb). lia.
      * apply (holds_weaken _ _ _ _ Hv). lia.
    + unfold grub_buffer_append_char.
      destruct (append_holds k var (lname l') [use] Hv) as (var' & -> & Hv'); [change (zlen [use]) with 1; lia|].
      eexists. split; [done|]. constructor; try done; cbn [pbuf pvar pargc pstate ldone lcur lname lstate].
      * apply (holds_weaken _ _ _ _ Hb). lia.
      * by apply Forall_app.
  - destruct (bool_decide (ns = TEXT) && negb (bool_decide (pstate p = ESC)) && grub_isspace use).
    + rewrite Ha. destruct (terminate_holds (k * M + 2 ^ 31) buf (ldone l) (lcur l') Hb Ht)
        as (buf' & -> & Hb'); [lia|].
      eexists. split; [done|]. unfold lex_end.
      destruct (bool_decide_reflect (lcur l' = [])) as [E|E].
      * constructor; try done; cbn [pbuf pvar pargc pstate]; rewrite ?Ed, ?E, ?app_nil_r; try done.
        -- apply (holds_weaken _ _ _ _ Hb'). lia.
        -- apply (holds_weaken _ _ _ _ Hv). lia.
      * constructor; try done; cbn [pbuf pvar pargc pstate ldone lcur lname lstate];
          rewrite ?Ed, ?app_nil_r; try done.
        -- apply (holds_weaken _ _ _ _ Hb'). lia.
        -- apply (holds_weaken _ _ _ _ Hv). lia.
        -- apply Forall_app. split; [done|by constructor].
    + destruct (Z.eqb_spec use 0) as [->|Hu0]; cbn [negb].
      * eexists. split; [done|]. rewrite app_nil_r. constructor; try done; cbn.
        -- apply (holds_weaken _ _ _ _ Hb). lia.
        -- apply (holds_weaken _ _ _ _ Hv). lia.
      * unfold grub_buffer_append_char.
        destruct (append_holds _ buf _ [use] Hb) as (buf' & -> & Hb'); [change (zlen [use]) with 1; lia|].
        eexists. split; [done|]. constructor; try done; cbn [pbuf pvar pargc pstate ldone lcur lname lstate].
        -- rewrite app_assoc. apply (holds_weaken _ _ _ _ Hb'). change (zlen [use]) with 1. lia.
        -- apply (holds_weaken _ _ _ _ Hv). lia.
        -- by apply Forall_app.
Qed.


Lemma process_line_sim line k p l : sim k p l -> text line -> 0 <= k -> k + zlen line <= 2 ^ 31 ->
  exists p', process_line alloc_ok env_get line p = (ERR_NONE, p') /\
    sim (k + zlen line) p' (lex_line env_get line l).
Proof.
  intros H Hl. revert k p l H. induction Hl as [|c line Hc _ IH]; intros k p l H Hk Hb.
  - exists p. split; [done|]. by replace (k + zlen []) with k by (unfold zlen; cbn; lia).
  - assert (zlen (c :: line) = 1 + zlen line) as El by (unfold zlen; cbn; lia). rewrite El in *.
    assert (0 <= zlen line) by (unfold zlen; lia).
    destruct (process_char_sim k p l c H Hc) as (p1 & E1 & H1); [lia|].
    destruct (IH (k + 1) p1 _ H1) as (p2 & E2 & H2); [lia..|].
    exists p2. cbn [process_line]. rewrite E1. split; [done|].
    rewrite Z.add_assoc. unfold lex_line in *. rewrite run_line_cons. exact H2.
Qed.

Definition total (lines : list (list Z)) : Z := zlen (concat lines).

Lemma read_lines_sim lines : forall fuel k p l, (length lines < fuel)%nat -> sim k p l ->
  Forall (fun s => text s) lines -> 0 <= k -> k + total lines <= 2 ^ 31 ->
  exists p', read_loop alloc_ok env_get fuel (Some []) (Some lines) p = Some (ERR_NONE, p', Some (lex_rest env_get lines l)) /\
    sim (k + total lines) p' (lex_lines env_get lines l).
Proof.
  induction lines as [|line lines IH]; intros [|fuel] k p l Hf H Ht Hk Hb; try (cbn in Hf; lia).
  - exists p. split; [done|]. by replace (k + total []) with k by (unfold total, zlen; cbn; lia).
  - assert (total (line :: lines) = zlen line + total lines) as El
      by (unfold total, zlen; cbn; rewrite length_app; lia).
    assert (0 <= total lines /\ 0 <= zlen line) as [Htl Hzl] by (unfold total, zlen; lia).
    apply Forall_cons in Ht as [Ht Hts]. rewrite El in *.
    destruct (process_line_sim line k p l H Ht Hk) as (p1 & E1 & H1); [lia|].
    cbn [read_loop lex_lines lex_rest]. rewrite E1. pose proof (s_state _ _ _ H1) as Es. rewrite Es.
    fold (needs_more (lstate (lex_line env_get line l))).
    destruct (needs_more (lstate (lex_line env_get line l))).
    + destruct (IH fuel (k + zlen line) p1 (lex_line env_get line l)) as (p2 & E2 & H2); try done; [cbn in Hf; lia|lia|lia|].
      exists p2. split; [done|]. by replace (k + (zlen line + total lines)) with (k + zlen line + total lines) by lia.
    + exists p1. split; [done|]. destruct H1 as [Hb1 Hv1 ? ? ? ? ?]. constructor; try done.
      * apply (holds_weaken _ _ _ _ Hb1). apply Z.mul_le_mono_nonneg_r; [unfold M; pow2; lia|lia].
      * apply (holds_weaken _ _ _ _ Hv1). lia.
Qed.

(** The lines the parser works on: an empty command line is replaced by the next one. *)
Definition all_lines (cmdline : list Z) (lines : option (list (list Z))) : list (list Z) :=
  match cmdline with [] => default [] lines | _ => cmdline :: default [] lines end.

Definition lines_left (cmdline : list Z) (lines : option (list (list Z))) (l : lex) : option (list (list Z)) :=
  match lines with None => None | Some _ => Some (lex_rest env_get (all_lines cmdline lines) l) end.

Lemma read_loop_sim cmdline lines p l : sim 0 p l ->
  Forall (fun s => text s) (all_lines cmdline lines) -> total (all_lines cmdline lines) <= 2 ^ 31 ->
  exists p' k, read_loop alloc_ok env_get (S (S (length (default [] lines)))) (Some cmdline) lines p
    = Some (ERR_NONE, p', lines_left cmdline lines l) /\ 0 <= k <= 2 ^ 31 /\ sim k p' (lex_lines env_get (all_lines cmdline lines) l).
Proof.
  intros H Ht Hb. unfold lines_left. destruct cmdline as [|c cmdline]; cbn [all_lines] in *.
  - destruct lines as [lines|].
    + destruct (read_lines_sim lines (S (S (length lines))) 0 p l) as (p' & E & H'); try done; try lia.
      exists p', (0 + total lines). split; [done|]. split; [|done].
      assert (0 <= total lines) by (unfold total, zlen; lia). change (default [] (Some lines)) with lines in Hb. lia.
    + exists p, 0. split; [done|]. split; [pow2; lia|done].
  - set (line := c :: cmdline) in *. apply Forall_cons in Ht as [Ht Hts].
    assert (total (line :: default [] lines) = zlen line + total (default [] lines)) as El
      by (unfold total, zlen; cbn; rewrite length_app; lia).
    assert (0 <= total (default [] lines) /\ 0 <= zlen line) as [Htl Hzl] by (unfold total, zlen; lia).
    rewrite El in Hb. destruct (process_line_sim line 0 p l H Ht) as (p1 & E1 & H1); [lia..|].
    change (Some line) with (Some (c :: cmdline)). cbn [read_loop]. fold line. rewrite E1.
    pose proof (s_state _ _ _ H1) as Es. rewrite Es. cbn [lex_lines lex_rest].
    fold (needs_more (lstate (lex_line env_get line l))).
    destruct (needs_more (lstate (lex_line env_get line l))).
    + destruct lines as [lines|]; [change (default [] (Some lines)) with lines in *|].
      * destruct (read_lines_sim lines (S (length lines)) (0 + zlen line) p1 (lex_line env_get line l))
          as (p2 & E2 & H2); try done; try lia.
        exists p2, (0 + zlen line + total lines). split; [exact E2|]. split; [lia|done].
      * exists p1, (0 + zlen line). split; [done|]. split; [lia|done].
    + exists p1, (0 + zlen line). split; [by destruct lines|]. split; [lia|done].
Qed.

(** ** Collecting the arguments *)

Lemma advance_ok b n : buffer_wf b -> 0 <= n -> pos b + n <= used b ->
  grub_buffer_advance_read_pos b n = (ERR_NONE, mk_buffer (data b) (sz b) (pos b + n) (used b)) /\
  buffer_wf (mk_buffer (data b) (sz b) (pos b + n) (used b)).
Proof.
  intros [Hl Hp Hu] Hn Hle. unfold grub_buffer_advance_read_pos, grub_add.
  rewrite (proj2 (Z.ltb_lt _ _)) by lia. zres. split; [done|]. constructor; cbn; lia.
Qed.

Lemma collect_args_ok args : forall (first : bool) (b : buffer) (junk : list Z), buffer_wf b -> Forall (fun a => text a) args ->
  drop (Z.to_nat (pos b)) (data b) = (if first then [] else [0]) ++ enc args ++ junk ->
  used b = pos b + (if first then 0 else 1) + zlen (enc args) ->
  collect_args (length args) first b = (ERR_NONE, args).
Proof.
  induction args as [|a args IH]; intros first b junk Hwf Ht Hd Hu; [done|].
  apply Forall_cons in Ht as [Ha Ht]. cbn [length collect_args].
  assert (enc (a :: args) = a ++ 0 :: enc args) as Ee by (unfold enc; cbn; by rewrite <- app_assoc).
  assert (zlen (enc (a :: args)) = zlen a + 1 + zlen (enc args)) as El
    by (rewrite Ee; unfold zlen; rewrite length_app; cbn; lia).
  assert (0 <= zlen (enc args) /\ 0 <= zlen a) as [Hz Hza] by (unfold zlen; lia).
  assert (exists b', (if first then (ERR_NONE, b) else grub_buffer_advance_read_pos b 1) = (ERR_NONE, b') /\
    buffer_wf b' /\ used b' = pos b' + zlen (enc (a :: args)) /\
    drop (Z.to_nat (pos b')) (data b') = enc (a :: args) ++ junk) as (b' & -> & Hwf' & Hu' & Hd').
  { destruct first; [exists b; split_and!; try done; lia|].
    destruct (advance_ok b 1 Hwf) as [-> Hwf']; [lia|lia|]. eexists. split; [done|]. split; [done|].
    cbn [pos used data]. split; [lia|]. pose proof (bw_pos _ Hwf).
    replace (Z.to_nat (pos b + 1)) with (Z.to_nat (pos b) + 1)%nat by lia.
    rewrite <- drop_drop, Hd. done. }
  unfold grub_buffer_peek_data. pose proof (bw_pos _ Hwf') as Hp. pose proof (bw_used _ Hwf') as Hus.
  rewrite peek_spec by (done || lia). rewrite Z.add_0_r. zres.
  rewrite Hd', Ee, <- app_assoc. cbn [app]. rewrite cstring_app by done. unfold grub_strlen.
  destruct (advance_ok b' (zlen a) Hwf') as [-> Hwf'']; [lia|lia|].
  erewrite IH; [done|done|done| |cbn [pos used]; lia].
  cbn. replace (Z.to_nat (pos b' + zlen a)) with (Z.to_nat (pos b') + length a)%nat by (unfold zlen; lia).
  rewrite <- drop_drop, Hd', Ee, <- app_assoc, drop_app_length. cbn. reflexivity.
Qed.

Lemma split_getline_spec cmdline lines :
  Forall (fun s => text s) (all_lines cmdline lines) -> total (all_lines cmdline lines) <= 2 ^ 31 ->
  split_getline alloc_ok env_get cmdline lines
  = Some (ERR_NONE, split_reference env_get (all_lines cmdline lines), lines_left cmdline lines lex_start).
Proof.
  intros Ht Hb. unfold split_getline, split_reference, lex_start.
  destruct (buffer_new_ok alloc_ok always_ok 1024 ltac:(lia)) as (b & -> & Hwb & Hpb & _ & Hw).
  destruct (buffer_new_ok alloc_ok always_ok 200 ltac:(lia)) as (v & -> & Hwv & Hpv & _ & Hv).
  destruct (read_loop_sim cmdline lines (mk_parse b v TEXT 0) (mk_lex [] [] [] TEXT)) as (p & k & -> & Hk & H);
    [|done|done|].
  { constructor; try constructor; try done; cbn; lia. }
  step. destruct (add_var_sim k p _ TEXT H Hk) as (var & buf & -> & _ & Hb' & Htc & _).
  set (l := lex_lines env_get (all_lines cmdline lines) (mk_lex [] [] [] TEXT)) in *.
  rewrite (s_argc _ _ _ H).
  destruct (terminate_holds (k * M + 2 ^ 31) buf (ldone l) (lcur (lex_var env_get TEXT l)) Hb' Htc)
    as (buf' & -> & Hb''); [unfold M; pow2; lia|].
  set (args := if bool_decide _ then _ else _) in *.
  assert (ldone (lex_end (lex_var env_get TEXT l)) = args) as ->.
  { assert (ldone (lex_var env_get TEXT l) = ldone l) as Ed by (rewrite lex_var_eq; done).
    unfold lex_end, args. rewrite <- Ed. by destruct (bool_decide (lcur (lex_var env_get TEXT l) = [])). }
  assert (Forall (fun a => text a) args) as Hta.
  { unfold args. destruct (bool_decide _); [apply H|]. apply Forall_app. split; [apply H|by constructor]. }
  rewrite always_ok. destruct (Z.eqb_spec (zlen args) 0) as [E0|E0].
  - destruct args; [done|]. unfold zlen in E0. cbn in E0. lia.
  - destruct (holds_data _ _ _ Hb'') as [junk Hj]. unfold zlen at 1. rewrite Nat2Z.id.
    rewrite (collect_args_ok args true buf' junk); [done|apply Hb''|done| |].
    + by rewrite (h_pos _ _ _ Hb''), drop_0, Hj.
    + rewrite (h_pos _ _ _ Hb''), (holds_used _ _ _ Hb''). lia.
Qed.

Lemma split_cmdline_spec cmdline lines :
  Forall (fun s => text s) (all_lines cmdline lines) -> total (all_lines cmdline lines) <= 2 ^ 31 ->
  grub_parser_split_cmdline alloc_ok env_get cmdline lines
  = Some (ERR_NONE, split_reference env_get (all_lines cmdline lines)).
Proof. intros Ht Hb. unfold grub_parser_split_cmdline. by rewrite split_getline_spec. Qed.

End Proofs.

(** ** The state machine, read off the table *)

Definition name_char (c : Z) : bool := grub_isalpha c || grub_isdigit c || (c =? 95).

Definition next_state (s : parser_state) (c : Z) : parser_state * Z :=
  match s with
  | TEXT => if c =? 39 then (QUOTE, 0) else if c =? 34 then (DQUOTE, 0)
            else if c =? 36 then (VAR, 0) else if c =? 92 then (ESC, 0) else (TEXT, c)
  | ESC => (TEXT, c)
  | QUOTE => if c =? 39 then (TEXT, 0) else (QUOTE, c)
  | DQUOTE => if c =? 34 then (TEXT, 0) else if c =? 36 then (QVAR, 0) else (DQUOTE, c)
  | VAR => if c =? 123 then (VARNAME2, 0) else (VARNAME, c)
  | VARNAME => if name_char c then (VARNAME, c) else (TEXT, c)
  | VARNAME2 => if c =? 125 then (TEXT, 0) else (VARNAME2, c)
  | QVAR => if c =? 123 then (QVARNAME2, 0) else (QVARNAME, c)
  | QVARNAME => if c =? 34 then (TEXT, 0) else if name_char c then (QVARNAME, c) else (DQUOTE, c)
  | QVARNAME2 => if c =? 125 then (DQUOTE, 0) else (QVARNAME2, c)
  end.

Fixpoint find_here (ts : list transition) (c : Z) : option transition :=
  match ts with
  | [] => None
  | t :: ts =>
      if input t =? c then Some t
      else if grub_isspace (input t) && negb (name_char c) then Some t
      else if input t =? 0 then Some t
      else find_here ts c
  end.

Lemma find_transition_here ts s c :
  find_transition ts s c = find_here (filter (fun t => from_state t = s) ts) c.
Proof.
  induction ts as [|t ts IH]; [done|]. cbn [find_transition]. rewrite filter_cons.
  destruct (decide (from_state t = s)) as [E|E].
  - rewrite bool_decide_eq_true_2 by done. cbn [negb find_here]. rewrite IH. unfold name_char.
    by rewrite !negb_orb, !andb_assoc.
  - by rewrite bool_decide_eq_false_2 by done.
Qed.

Lemma cmdline_state_table s c : c <> 0 -> grub_parser_cmdline_state s c = next_state s c.
Proof.
  intros Hc. unfold grub_parser_cmdline_state. rewrite find_transition_here.
  set (ts := filter (fun t => from_state t = s) state_transitions).
  destruct s; vm_compute in ts; subst ts; cbn [find_here next_state input].
  all: repeat match goal with
       | |- context [grub_isspace ?k] =>
           let v := eval vm_compute in (grub_isspace k) in change (grub_isspace k) with v
       | |- context [?k =? 0] => assert_fails (is_var k);
           let v := eval vm_compute in (k =? 0) in change (k =? 0) with v
       | |- context [?k =? ?x] => is_var x; rewrite (Z.eqb_sym k x)
       end; cbn [andb].
  all: repeat match goal with
       | |- context [?x =? ?k] => is_var x;
           destruct (Z.eqb_spec x k); [subst x; (reflexivity || by destruct Hc)|]
       end; try reflexivity.
  all: by destruct (name_char c).
Qed.

(** ** Quoting *)

Lemma lex_line_app env l1 l2 l : lex_line env (l1 ++ l2) l = lex_line env l2 (lex_line env l1 l).
Proof. apply run_line_app. Qed.

(** Inside single quotes every character but the quote stands for itself. *)
Lemma lex_quoted env s args cur name :
  text s -> Forall (fun c => c <> 39) s ->
  lex_line env s (mk_lex args cur name QUOTE) = mk_lex args (cur ++ s) name QUOTE.
Proof.
  intros Hs. revert cur. induction Hs as [|c s Hc _ IH]; intros cur Hq; [by rewrite app_nil_r|].
  apply Forall_cons in Hq as [Hc39 Hq]. unfold lex_line in *. rewrite run_line_cons.
  assert (lex_char env c (mk_lex args cur name QUOTE) = mk_lex args (cur ++ [c]) name QUOTE) as ->.
  { rewrite lex_char_eq. rewrite cmdline_state_table by done. cbn [next_state lstate].
    rewrite (proj2 (Z.eqb_neq _ _) Hc39), (proj2 (Z.eqb_neq _ _) Hc). done. }
  rewrite IH by done. by rewrite <- app_assoc.
Qed.

Definition quote (a : list Z) : list Z := 39 :: a ++ [39].

Fixpoint join (args : list (list Z)) : list Z :=
  match args with
  | [] => []
  | [a] => quote a
  | a :: rest => quote a ++ 32 :: join rest
  end.

Lemma lex_quote env a args : text a -> Forall (fun c => c <> 39) a ->
  lex_line env (quote a) (mk_lex args [] [] TEXT) = mk_lex args a [] TEXT.
Proof.
  intros Ht Hq. unfold quote. change (39 :: a ++ [39]) with ([39] ++ a ++ [39]). rewrite !lex_line_app.
  change (lex_line env [39] (mk_lex args [] [] TEXT)) with (mk_lex args [] [] QUOTE).
  rewrite lex_quoted by done. unfold lex_line. cbn [app run_line]. rewrite lex_char_eq.
  rewrite cmdline_state_table by done. cbn. by rewrite app_nil_r.
Qed.

(** An argument that quoting protects. *)
Definition quotable (a : list Z) : Prop := a <> [] /\ text a /\ Forall (fun c => c <> 39) a.

Lemma lex_join env args done0 : Forall quotable args -> args <> [] ->
  exists l, lex_line env (join args) (mk_lex done0 [] [] TEXT) = l /\ lname l = [] /\ lstate l = TEXT /\
    ldone (lex_end l) = done0 ++ args.
Proof.
  intros H. revert done0. induction H as [|a args [Hne [Ht Hq]] Hargs IH]; intros done0 Hnil; [done|].
  destruct args as [|b args].
  - eexists. split; [reflexivity|]. cbn [join]. rewrite lex_quote by done.
    split; [done|]. split; [done|]. unfold lex_end. cbn [lcur]. by rewrite bool_decide_eq_false_2 by done.
  - change (join (a :: b :: args)) with (quote a ++ [32] ++ join (b :: args)).
    rewrite !lex_line_app, lex_quote by done.
    assert (lex_line env [32] (mk_lex done0 a [] TEXT) = mk_lex (done0 ++ [a]) [] [] TEXT) as ->.
    { unfold lex_line. cbn [run_line]. rewrite lex_char_eq. cbn [lstate]. rewrite cmdline_state_table by done.
      change (lex_end (mk_lex done0 a [] TEXT) = mk_lex (done0 ++ [a]) [] [] TEXT).
      unfold lex_end. cbn [lcur]. by rewrite bool_decide_eq_false_2 by done. }
    destruct (IH (done0 ++ [a]) ltac:(done)) as (l & -> & ? & ? & Hd). exists l. split_and!; try done.
    rewrite Hd, <- app_assoc. done.
Qed.

Lemma join_text args : Forall quotable args -> text (join args).
Proof.
  assert (forall a, text a -> text (quote a)) as Hq.
  { intros a Ha. constructor; [done|]. apply Forall_app. split; [done|by constructor]. }
  induction 1 as [|a args (_ & Ht & _) Hargs IH]; [constructor|].
  destruct args as [|b args]; [by apply Hq|]. cbn [join]. apply Forall_app. split; [by apply Hq|].
  constructor; [done|exact IH].
Qed.

(** C25: [grub_parser_split_cmdline] (tokenizing into a growing byte buffer, expanding
    variables, then cutting the buffer at the NULs) computes exactly the reference lexer over
    mathematical strings: for any command line, with or without further lines, whenever
    allocations succeed it terminates without error and returns those arguments. *)
Theorem split_cmdline_refines_lexer alloc_ok env_get cmdline lines :
  (forall n, alloc_ok n = true) ->
  (forall n v, env_get n = Some v -> text v /\ zlen v <= 2 ^ 31) ->
  Forall (fun s => text s) (all_lines cmdline lines) -> total (all_lines cmdline lines) <= 2 ^ 31 ->
  grub_parser_split_cmdline alloc_ok env_get cmdline lines
  = Some (ERR_NONE, split_reference env_get (all_lines cmdline lines)).
Proof. intros Ha He Ht Hb. by apply split_cmdline_spec. Qed.

Definition example_env (n : list Z) : option (list Z) :=
  if bool_decide (n = chars "root") then Some (chars "hd0,1") else None.

Lemma example_env_text n v : example_env n = Some v -> text v /\ zlen v <= 2 ^ 31.
Proof.
  unfold example_env. destruct (bool_decide _); [|done]. intros [= <-].
  split; [repeat constructor; discriminate|vm_compute; discriminate].
Qed.

Lemma split_cmdline_refines_lexer_witness :
  split_reference example_env [chars "ls  ($root)/'a b' c\ d"]
  = [chars "ls"; chars "(hd0,1)/a b"; chars "c d"] /\
  grub_parser_split_cmdline (fun _ => true) example_env (chars "ls  ($root)/'a b' c\ d") None
  = Some (ERR_NONE, split_reference example_env [chars "ls  ($root)/'a b' c\ d"]).
Proof.
  split; [reflexivity|].
  refine (split_cmdline_refines_lexer (fun _ => true) example_env (chars "ls  ($root)/'a b' c\ d") None _ _ _ _).
  - reflexivity.
  - exact example_env_text.
  - repeat constructor; discriminate.
  - vm_compute; discriminate.
Defined.

(** Quoting round trip: any non-empty list of non-empty arguments without a single quote,
    whatever spaces, dollars, backslashes or double quotes they contain, each wrapped in
    single quotes and joined by spaces, is split back into exactly those arguments. *)
Theorem quoted_arguments_roundtrip alloc_ok env_get args :
  (forall n, alloc_ok n = true) ->
  (forall n v, env_get n = Some v -> text v /\ zlen v <= 2 ^ 31) ->
  Forall quotable args -> args <> [] -> zlen (join args) <= 2 ^ 31 ->
  grub_parser_split_cmdline alloc_ok env_get (join args) None = Some (ERR_NONE, args).
Proof.
  intros Ha He Hq Hne Hlen. pose proof (join_text args Hq) as Ht.
  assert (all_lines (join args) None = [join args]) as El.
  { destruct (join args) eqn:E; [|done]. destruct args as [|a [|b args]]; done. }
  rewrite split_cmdline_spec; try done.
  - rewrite El. unfold split_reference, lex_start. cbn [lex_lines].
    destruct (lex_join env_get args [] Hq Hne) as (l & -> & Hn & Hs & Hd). rewrite Hs.
    change (needs_more TEXT) with false. cbv iota.
    assert (lex_var env_get TEXT l = l) as ->; [|by rewrite Hd].
    unfold lex_var. rewrite Hs. cbn [check_varstate andb]. destruct l. cbn in Hs. by rewrite Hs.
  - rewrite El. by constructor.
  - rewrite El. unfold total. cbn. by rewrite app_nil_r.
Qed.

Lemma quoted_arguments_roundtrip_witness :
  grub_parser_split_cmdline (fun _ => true) example_env (join [chars "menu entry"; chars "a$root\"]) None
  = Some (ERR_NONE, [chars "menu entry"; chars "a$root\"]).
Proof.
  apply quoted_arguments_roundtrip.
  - reflexivity.
  - exact example_env_text.
  - repeat constructor; discriminate.
  - discriminate.
  - vm_compute; discriminate.
Defined.

End GrubParser.
