(* ===== verification/GrubHeap.v ===== *)
(** GRUB's memory allocator: src/grub/grub-core/kern/mm.c and
    src/grub/include/grub/mm_private.h, for 64-bit pointers (cells of 32 bytes).

    Block headers live in one map from cell numbers to headers, so pointers are cell numbers
    ([ptr / 32]) and the pointer arithmetic of the code on headers is addition.  A call of
    [grub_fatal], which does not return, is [None]. *)

From stdpp Require Import sorting.
From S2P Require Import Prelude.

Module GrubHeap.

Definition GRUB_MM_FREE_MAGIC : Z := 0x2d3c2808.
Definition GRUB_MM_ALLOC_MAGIC : Z := 0x6db08fa4.
Definition GRUB_MM_ALIGN_LOG2 : Z := 5.
Definition GRUB_MM_ALIGN : Z := 32.

Record header := mk_header {
  next : Z;
  size : Z;
  magic : Z
}.

Abbreviation heap := (gmap Z header).

(** Field updates; the header cell must hold something. *)
Definition put_next (a v : Z) (h : heap) : heap := alter (fun x => mk_header v (size x) (magic x)) a h.
Definition put_size (a v : Z) (h : heap) : heap := alter (fun x => mk_header (next x) v (magic x)) a h.
Definition put_magic (a v : Z) (h : heap) : heap := alter (fun x => mk_header (next x) (size x) v) a h.

(** Writing [magic] and [size] to a cell that need not hold a header yet keeps the bytes of
    [next] that are there. *)
Definition put_magic_size (a m s : Z) (h : heap) : heap :=
  <[a := mk_header (match h !! a with Some x => next x | None => 0 end) s m]> h.

(** ** [grub_real_malloc] *)

(** The padding in front of an aligned block at [cur]. *)
Definition front_extra (cur align : Z) : Z :=
  let extra := Z.land (cur + 1) (align - 1) in
  if extra =? 0 then 0 else align - extra.

(** The branch that found room in the block [cur] of size [csize]: the block returned, the
    [prev] used for the start marker, and the headers. *)
Definition carve (prev cur cnext csize n align : Z) (h : heap) : Z * Z * heap :=
  let extra := front_extra cur align in
  let extra := extra + Z.land (csize - extra - n) (Z.lnot (align - 1)) in
  let '(cur', prev', h) :=
    if (extra =? 0) && (csize =? n) then (cur, prev, put_next prev cnext h)
    else if (align =? 1) || (csize =? n + extra) then (cur + (csize - n), prev, put_size cur (csize - n) h)
    else if extra =? 0 then
      let r := cur + extra + n in
      let h := <[r := mk_header cnext (csize - extra - n) GRUB_MM_FREE_MAGIC]> h in
      let h := put_next prev r h in
      if prev =? cur then (cur, r, put_next r r h) else (cur, prev, h)
    else
      let r := cur + extra + n in
      let h := <[r := mk_header cur (csize - extra - n) GRUB_MM_FREE_MAGIC]> h in
      let h := put_size cur extra h in
      (cur + extra, prev, put_next prev r h) in
  (cur', prev', put_magic_size cur' GRUB_MM_ALLOC_MAGIC n h).

Fixpoint malloc_loop (fuel : nat) (first prev cur n align : Z) (h : heap)
  : option (option Z * Z * heap) :=
  match fuel with
  | O => None
  | S fuel =>
      if cur =? 0 then None else
      c ← h !! cur;
      if negb (magic c =? GRUB_MM_FREE_MAGIC) then None
      else if n + front_extra cur align <=? size c then
        let '(cur, prev, h) := carve prev cur (next c) (size c) n align h in
        Some (Some (cur + 1),
              if (n <? Z.shiftr 0x8000 GRUB_MM_ALIGN_LOG2) || (first =? cur) then prev else first, h)
      else if cur =? first then Some (None, first, h)
      else malloc_loop fuel first cur (next c) n align h
  end.

(** The pointer (in cells) or NULL, the new [*first] and the headers.  The ring has at most
    as many blocks as there are headers, which bounds the walk. *)
Definition grub_real_malloc (first n align : Z) (h : heap) : option (option Z * Z * heap) :=
  f ← h !! first;
  if magic f =? GRUB_MM_ALLOC_MAGIC then Some (None, first, h)
  else malloc_loop (S (base.size h)) first first (next f) n align h.

(** ** [grub_free], on the block of the region whose ring starts at [first] *)

Fixpoint free_loop (fuel : nat) (prev cur p : Z) (h : heap) : option (Z * Z) :=
  match fuel with
  | O => None
  | S fuel =>
      c ← h !! cur;
      if (cur <=? p) || (p <=? next c) then
        if negb (magic c =? GRUB_MM_FREE_MAGIC) then None
        else if (cur <=? next c) && ((p <? cur) || (next c <? p)) then Some (prev, cur)
        else free_loop fuel cur (next c) p h
      else Some (prev, cur)
  end.

Definition free_block (first p : Z) (h : heap) : option (Z * heap) :=
  f ← h !! first;
  if magic f =? GRUB_MM_ALLOC_MAGIC then
    let h := put_magic p GRUB_MM_FREE_MAGIC h in
    let h := put_next p p h in
    Some (p, h)
  else
    '(prev, cur) ← free_loop (S (base.size h)) first (next f) p h;
    c ← h !! cur;
    let pnext := next c in
    let h := put_magic p GRUB_MM_FREE_MAGIC h in
    let h := put_next p pnext h in
    let h := put_next cur p h in
    (* merge with the block below *)
    lo ← h !! pnext;
    pb ← h !! p;
    let '(p, h) :=
      if pnext + size lo =? p then
        let h := put_magic p 0 h in
        let h := put_size pnext (size lo + size pb) h in
        (pnext, put_next cur pnext h)
      else (p, h) in
    (* merge with the block above *)
    pb ← h !! p;
    cb ← h !! cur;
    Some (if cur =? p + size pb then
            let h := put_magic cur 0 h in
            let h := put_size p (size pb + size cb) h in
            let prev := if cur =? prev then p else prev in
            (prev, put_next prev p h)
          else (cur, h)).

(** * Rings *)

Section Rings.
Implicit Types (nx : Z -> Z) (x z : Z) (l : list Z).

(** Following [nx] from [x] goes through [l] and ends in [z]. *)
Fixpoint path nx x l z : Prop :=
  match l with
  | [] => nx x = z
  | y :: l => nx x = y /\ path nx y l z
  end.

Definition chain nx l : Prop := match l with [] => True | x :: l => path nx x l x end.

Lemma path_app nx x l1 y l2 z : path nx x (l1 ++ y :: l2) z <-> path nx x l1 y /\ path nx y l2 z.
Proof.
  revert x. induction l1 as [|w l1 IH]; intros x; [done|]. cbn [app path]. rewrite IH. tauto.
Qed.

Lemma chain_rot nx a b : chain nx (a ++ b) -> chain nx (b ++ a).
Proof.
  destruct a as [|x a]; [by rewrite app_nil_r|]. destruct b as [|y b]; [by rewrite app_nil_r|].
  cbn [app chain]. rewrite !path_app. tauto.
Qed.

Lemma path_fmap nx x l z : path nx x l z <-> nx <$> (x :: l) = l ++ [z].
Proof.
  revert x. induction l as [|y l IH]; intros x; cbn.
  - split; [by intros ->|by intros [= ->]].
  - rewrite IH. cbn. split; [by intros [-> ->]|by intros [= -> ->]].
Qed.

Lemma path_ext nx nx' x l z : (forall a, a ∈ x :: l -> nx a = nx' a) -> path nx x l z -> path nx' x l z.
Proof.
  revert x. induction l as [|y l IH]; intros x Hext; cbn [path].
  - intros <-. symmetry. apply Hext. constructor.
  - intros [<- Hp]. split; [symmetry; apply Hext; constructor|].
    apply IH; [|done]. intros a Ha. apply Hext. by constructor.
Qed.

(** A path whose last element is linked back to the first is a ring. *)
Lemma path_close nx nx' x v z prev : path nx x v z -> NoDup (x :: v) -> last (x :: v) = Some prev ->
  (forall a, nx' a = if decide (a = prev) then x else nx a) -> chain nx' (x :: v).
Proof.
  intros Hp Hnd Hl Hnx. cbn [chain]. destruct v as [|y v _] using rev_ind.
  { injection Hl as ->. cbn [path]. by rewrite Hnx, decide_True. }
  rewrite app_comm_cons, last_snoc in Hl. injection Hl as ->. apply path_app in Hp as [Hp _]. apply path_app.
  split; [|cbn [path]; by rewrite Hnx, decide_True]. eapply path_ext; [|exact Hp]. intros a Ha. rewrite Hnx, decide_False; [done|].
  intros ->. rewrite app_comm_cons in Hnd. apply NoDup_app in Hnd as (_ & Hd & _). apply (Hd prev Ha). by apply list_elem_of_singleton.
Qed.

Lemma chain_ext nx nx' l : (forall a, a ∈ l -> nx a = nx' a) -> chain nx l -> chain nx' l.
Proof. destruct l as [|x l]; [done|]. apply path_ext. Qed.

Lemma chain_next_in nx l a : chain nx l -> a ∈ l -> nx a ∈ l.
Proof.
  destruct l as [|x l]; [by intros _ ?%elem_of_nil|]. cbn [chain]. rewrite path_fmap. intros E Ha.
  assert (nx a ∈ nx <$> (x :: l)) as Ha' by (apply list_elem_of_fmap; by exists a).
  rewrite E in Ha'. apply elem_of_app in Ha' as [Ha'|Ha'%list_elem_of_singleton]; [by constructor|].
  rewrite Ha'. constructor.
Qed.

Lemma chain_inj nx l a b : chain nx l -> NoDup l -> a ∈ l -> b ∈ l -> nx a = nx b -> a = b.
Proof.
  destruct l as [|x l]; [by intros _ _ ?%elem_of_nil|]. cbn [chain]. rewrite path_fmap. intros E Hnd Ha Hb Hab.
  assert (NoDup (nx <$> (x :: l))) as Hn by (rewrite E; by rewrite <- Permutation_cons_append).
  apply list_elem_of_lookup in Ha as [i Hi]. apply list_elem_of_lookup in Hb as [j Hj].
  assert (i = j) as ->; [|congruence].
  eapply NoDup_lookup; [exact Hn| |]; rewrite list_lookup_fmap; [by rewrite Hi|by rewrite Hj, Hab].
Qed.
End Rings.

(** * Blocks *)

Record block := mk_block { baddr : Z; bsize : Z; bfree : bool }.

(** The blocks cover the cells from [lo] to [hi], one after the other. *)
Fixpoint tiles (lo hi : Z) (bs : list block) : Prop :=
  match bs with
  | [] => lo = hi
  | b :: bs => baddr b = lo /\ 0 < bsize b /\ tiles (lo + bsize b) hi bs
  end.

Lemma tiles_app lo hi b1 b2 : tiles lo hi (b1 ++ b2) <-> exists mid, tiles lo mid b1 /\ tiles mid hi b2.
Proof.
  revert lo. induction b1 as [|b b1 IH]; intros lo; cbn [app tiles].
  - split; [intros H; by exists lo|by intros (mid & -> & H)].
  - rewrite IH. split.
    + intros (? & ? & mid & ? & ?). by exists mid.
    + intros (mid & (? & ? & ?) & ?). split_and!; try done. by exists mid.
Qed.

Lemma tiles_le lo hi bs : tiles lo hi bs -> lo <= hi.
Proof.
  revert lo. induction bs as [|b bs IH]; intros lo; cbn; [lia|]. intros (_ & ? & H%IH). lia.
Qed.

Lemma tiles_in lo hi bs b : tiles lo hi bs -> b ∈ bs ->
  lo <= baddr b /\ 0 < bsize b /\ baddr b + bsize b <= hi.
Proof.
  revert lo. induction bs as [|c bs IH]; intros lo Ht Hb; [by apply elem_of_nil in Hb|].
  destruct Ht as (Ha & Hs & Ht). pose proof (tiles_le _ _ _ Ht).
  apply elem_of_cons in Hb as [->|Hb]; [lia|]. specialize (IH _ Ht Hb). lia.
Qed.

(** The free list: from high addresses to low ones. *)
Definition free_addrs (bs : list block) : list Z := baddr <$> filter (fun b => bfree b = true) bs.
Definition ring (bs : list block) : list Z := reverse (free_addrs bs).

Lemma free_addrs_app b1 b2 : free_addrs (b1 ++ b2) = free_addrs b1 ++ free_addrs b2.
Proof. unfold free_addrs. by rewrite filter_app, fmap_app. Qed.

Lemma free_addrs_cons b bs :
  free_addrs (b :: bs) = (if bfree b then [baddr b] else []) ++ free_addrs bs.
Proof.
  unfold free_addrs. rewrite filter_cons. destruct (bfree b) eqn:E.
  - rewrite decide_True by done. done.
  - rewrite decide_False by done. done.
Qed.

Lemma ring_app b1 b2 : ring (b1 ++ b2) = ring b2 ++ ring b1.
Proof. unfold ring. by rewrite free_addrs_app, reverse_app. Qed.

Lemma ring_cons b bs : ring (b :: bs) = ring bs ++ (if bfree b then [baddr b] else []).
Proof.
  unfold ring. rewrite free_addrs_cons, reverse_app. by destruct (bfree b).
Qed.

Lemma ring_in a bs : a ∈ ring bs <-> exists b, b ∈ bs /\ bfree b = true /\ baddr b = a.
Proof.
  unfold ring, free_addrs. rewrite elem_of_reverse, list_elem_of_fmap. split.
  - intros (b & -> & Hb). apply list_elem_of_filter in Hb as [? ?]. by exists b.
  - intros (b & ? & ? & <-). exists b. split; [done|]. by apply list_elem_of_filter.
Qed.

Lemma ring_bounds lo hi bs a : tiles lo hi bs -> a ∈ ring bs -> lo <= a < hi.
Proof. intros Ht (b & Hb & _ & <-)%ring_in. pose proof (tiles_in _ _ _ _ Ht Hb). lia. Qed.

Lemma ring_sorted lo hi bs : tiles lo hi bs -> StronglySorted (fun a b => b < a) (ring bs).
Proof.
  revert lo. induction bs as [|b bs IH]; intros lo Ht; [constructor|].
  destruct Ht as (Ha & Hs & Ht). rewrite ring_cons. destruct (bfree b); [|rewrite app_nil_r; by apply (IH (lo + bsize b))].
  apply StronglySorted_app_2; [|by apply (IH (lo + bsize b))|repeat constructor].
  intros x y Hx Hy%list_elem_of_singleton. subst y. pose proof (ring_bounds _ _ _ _ Ht Hx). lia.
Qed.

Lemma ring_nodup lo hi bs : tiles lo hi bs -> NoDup (ring bs).
Proof.
  intros Ht. pose proof (ring_sorted _ _ _ Ht) as H.
  induction H as [|a l _ IH Hall]; constructor; [|done].
  intros Ha. rewrite Forall_forall in Hall. specialize (Hall a Ha). lia.
Qed.

(** What the header of a block says: the link, and the size with the magic word. *)
Definition next_of (h : heap) (a : Z) : Z := match h !! a with Some x => next x | None => 0 end.
Definition sm (h : heap) (a : Z) : option (Z * Z) := (fun x => (size x, magic x)) <$> h !! a.

Definition magic_of (free : bool) : Z := if free then GRUB_MM_FREE_MAGIC else GRUB_MM_ALLOC_MAGIC.

Definition entry_ok (h : heap) (b : block) : Prop := sm h (baddr b) = Some (bsize b, magic_of (bfree b)).

(** No two free blocks are neighbours; [pf]: the block before these is free. *)
Fixpoint coalesced (pf : bool) (bs : list block) : Prop :=
  match bs with
  | [] => True
  | b :: bs => pf && bfree b = false /\ coalesced (bfree b) bs
  end.

Definition last_free (pf : bool) (bs : list block) : bool :=
  match last bs with Some b => bfree b | None => pf end.

Lemma coalesced_app pf b1 b2 :
  coalesced pf (b1 ++ b2) <-> coalesced pf b1 /\ coalesced (last_free pf b1) b2.
Proof.
  revert pf. induction b1 as [|b b1 IH]; intros pf; cbn [app coalesced]; [tauto|].
  rewrite IH. assert (last_free pf (b :: b1) = last_free (bfree b) b1) as ->; [|tauto].
  unfold last_free. destruct b1 as [|c b1]; [done|]. rewrite last_cons_cons.
  by destruct (last (c :: b1)) eqn:E; [|apply last_None in E].
Qed.

Lemma coalesced_weaken bs : coalesced true bs -> coalesced false bs.
Proof. destruct bs; [done|]. by intros [_ ?]. Qed.

(** A region of cells [lo, hi): blocks tile it, their headers are right, the free ones form
    the ring in descending order, and [first] is on it (or is an allocated block when nothing
    is free). *)
Record region_inv (h : heap) (first lo hi : Z) (bs : list block) : Prop := mk_region_inv {
  ri_pos : 0 < lo;
  ri_tiles : tiles lo hi bs;
  ri_entries : Forall (entry_ok h) bs;
  ri_ring : chain (next_of h) (ring bs);
  ri_first : first ∈ ring bs \/ (ring bs = [] /\ exists s, mk_block first s false ∈ bs);
  ri_coalesced : coalesced false bs
}.

(** ** Updates *)

Lemma next_put_next a v h x : is_Some (h !! a) ->
  next_of (put_next a v h) x = if decide (x = a) then v else next_of h x.
Proof.
  intros [y Hy]. unfold next_of, put_next. destruct (decide (x = a)) as [->|Hne].
  - by rewrite lookup_alter_eq, Hy.
  - by rewrite lookup_alter_ne.
Qed.

Lemma next_put_size a v h x : next_of (put_size a v h) x = next_of h x.
Proof.
  unfold next_of, put_size. destruct (decide (x = a)) as [->|Hne].
  - rewrite lookup_alter_eq. by destruct (h !! a).
  - by rewrite lookup_alter_ne.
Qed.

Lemma next_put_magic a v h x : next_of (put_magic a v h) x = next_of h x.
Proof.
  unfold next_of, put_magic. destruct (decide (x = a)) as [->|Hne].
  - rewrite lookup_alter_eq. by destruct (h !! a).
  - by rewrite lookup_alter_ne.
Qed.

Lemma next_insert a v (h : heap) x : next_of (<[a := v]> h) x = if decide (x = a) then next v else next_of h x.
Proof.
  unfold next_of. destruct (decide (x = a)) as [->|Hne]; [by rewrite lookup_insert_eq|by rewrite lookup_insert_ne].
Qed.

Lemma next_put_magic_size a m s h x : next_of (put_magic_size a m s h) x = next_of h x.
Proof.
  unfold put_magic_size. rewrite next_insert. destruct (decide (x = a)) as [->|Hne]; done.
Qed.

Lemma sm_put_next a v h x : sm (put_next a v h) x = sm h x.
Proof.
  unfold sm, put_next. destruct (decide (x = a)) as [->|Hne].
  - rewrite lookup_alter_eq. by destruct (h !! a).
  - by rewrite lookup_alter_ne.
Qed.

Lemma sm_put_size a v h x :
  sm (put_size a v h) x = if decide (x = a) then (fun y => (v, snd y)) <$> sm h a else sm h x.
Proof.
  unfold sm, put_size. destruct (decide (x = a)) as [->|Hne].
  - rewrite lookup_alter_eq. by destruct (h !! a).
  - by rewrite lookup_alter_ne.
Qed.

Lemma sm_put_magic a v h x :
  sm (put_magic a v h) x = if decide (x = a) then (fun y => (fst y, v)) <$> sm h a else sm h x.
Proof.
  unfold sm, put_magic. destruct (decide (x = a)) as [->|Hne].
  - rewrite lookup_alter_eq. by destruct (h !! a).
  - by rewrite lookup_alter_ne.
Qed.

Lemma sm_insert a v (h : heap) x :
  sm (<[a := v]> h) x = if decide (x = a) then Some (size v, magic v) else sm h x.
Proof.
  unfold sm. destruct (decide (x = a)) as [->|Hne]; [by rewrite lookup_insert_eq|by rewrite lookup_insert_ne].
Qed.

Lemma sm_put_magic_size a m s h x :
  sm (put_magic_size a m s h) x = if decide (x = a) then Some (s, m) else sm h x.
Proof. unfold put_magic_size. by rewrite sm_insert. Qed.

Lemma sm_is_Some h a y : sm h a = Some y -> is_Some (h !! a).
Proof. unfold sm. by destruct (h !! a). Qed.

Lemma sm_lookup h a s m : sm h a = Some (s, m) -> h !! a = Some (mk_header (next_of h a) s m).
Proof. unfold sm, next_of. destruct (h !! a) as [[]|]; cbn; [by intros [= -> ->]|done]. Qed.

(** ** A region around one block *)

Section Focus.
Context (h : heap) (first lo hi : Z) (b1 b2 : list block) (cur s : Z) (f : bool).
Hypothesis Hinv : region_inv h first lo hi (b1 ++ mk_block cur s f :: b2).

Lemma focus_tiles : tiles lo cur b1 /\ 0 < s /\ tiles (cur + s) hi b2.
Proof.
  destruct (proj1 (tiles_app _ _ _ _) (ri_tiles _ _ _ _ _ Hinv)) as (mid & H1 & H2).
  cbn in H2. destruct H2 as (<- & Hs & H2). done.
Qed.

Lemma focus_outside b : b ∈ b1 \/ b ∈ b2 -> ~ cur <= baddr b < cur + s.
Proof.
  destruct focus_tiles as (H1 & Hs & H2).
  intros [Hb|Hb]; [pose proof (tiles_in _ _ _ _ H1 Hb)|pose proof (tiles_in _ _ _ _ H2 Hb)]; lia.
Qed.

Lemma focus_ring_outside a : a ∈ ring b1 ++ ring b2 -> ~ cur <= a < cur + s.
Proof.
  rewrite elem_of_app, !ring_in. intros [(b & Hb & _ & <-)|(b & Hb & _ & <-)]; apply focus_outside; auto.
Qed.

Lemma focus_entry : sm h cur = Some (s, magic_of f).
Proof.
  pose proof (ri_entries _ _ _ _ _ Hinv) as He. apply Forall_app in He as [_ He].
  by apply Forall_cons in He as [He _].
Qed.

Lemma focus_others : Forall (entry_ok h) b1 /\ Forall (entry_ok h) b2.
Proof.
  pose proof (ri_entries _ _ _ _ _ Hinv) as He. apply Forall_app in He as [H1 He].
  by apply Forall_cons in He as [_ H2].
Qed.

(** The other blocks keep their headers when only cells of the focused block change. *)
Lemma focus_frame h' b : b ∈ b1 \/ b ∈ b2 ->
  (forall x, ~ cur <= x < cur + s -> sm h' x = sm h x) -> entry_ok h' b.
Proof.
  intros Hb Hsame. destruct focus_others as [H1 H2]. rewrite !Forall_forall in *.
  unfold entry_ok. rewrite Hsame by (by apply focus_outside). destruct Hb; [by apply H1|by apply H2].
Qed.
End Focus.

(** ** The numbers of an aligned block *)

Definition total_extra (cur s n align : Z) : Z :=
  front_extra cur align + Z.land (s - front_extra cur align - n) (Z.lnot (align - 1)).

Lemma front_extra_spec cur k : 0 <= k ->
  0 <= front_extra cur (2 ^ k) < 2 ^ k /\ (cur + 1 + front_extra cur (2 ^ k)) mod 2 ^ k = 0.
Proof.
  intros Hk. unfold front_extra. replace (2 ^ k - 1) with (Z.ones k) by (rewrite Z.ones_equiv; lia).
  rewrite Z.land_ones by lia. pose proof (Z.pow_pos_nonneg 2 k ltac:(lia) Hk) as Hp.
  pose proof (Z.mod_pos_bound (cur + 1) (2 ^ k) Hp) as Hb.
  destruct (Z.eqb_spec ((cur + 1) mod 2 ^ k) 0) as [E|E].
  - split; [lia|]. by rewrite Z.add_0_r.
  - split; [lia|]. pose proof (Z.div_mod (cur + 1) (2 ^ k) ltac:(lia)).
    apply Z.mod_divide; [lia|]. exists ((cur + 1) / 2 ^ k + 1). lia.
Qed.

Lemma total_extra_spec cur s n k : 0 <= k -> n + front_extra cur (2 ^ k) <= s ->
  0 <= total_extra cur s n (2 ^ k) /\ total_extra cur s n (2 ^ k) + n <= s /\
  (cur + 1 + total_extra cur s n (2 ^ k)) mod 2 ^ k = 0 /\
  (2 ^ k = 1 -> total_extra cur s n (2 ^ k) = s - n).
Proof.
  intros Hk Hs. destruct (front_extra_spec cur k Hk) as [He Hm]. unfold total_extra.
  rewrite mask_down by done. set (e := front_extra cur (2 ^ k)) in *. set (x := s - e - n).
  pose proof (Z.pow_pos_nonneg 2 k ltac:(lia) Hk) as Hp.
  pose proof (Z.mod_pos_bound x (2 ^ k) Hp) as Hb. pose proof (Z.mod_le x (2 ^ k) ltac:(lia) Hp) as Hle.
  split; [lia|]. split; [lia|]. split.
  - replace (cur + 1 + (e + (x - x mod 2 ^ k))) with ((cur + 1 + e) + (x / 2 ^ k) * 2 ^ k)
      by (pose proof (Z.div_mod x (2 ^ k)); lia).
    by rewrite Z.mod_add by lia.
  - intros E. rewrite E in *. rewrite Z.mod_1_r. lia.
Qed.

(** ** Carving a block out of a free one *)

Definition pieces (cur s e n : Z) : list block :=
  (if e =? 0 then [] else [mk_block cur e true]) ++ mk_block (cur + e) n false ::
  (if s - e - n =? 0 then [] else [mk_block (cur + e + n) (s - e - n) true]).

Lemma pieces_tiles cur s e n : 0 <= e -> 0 < n -> e + n <= s -> tiles cur (cur + s) (pieces cur s e n).
Proof.
  intros. unfold pieces. destruct (Z.eqb_spec (s - e - n) 0), (Z.eqb_spec e 0); cbn; lia.
Qed.

Lemma pieces_ring cur s e n :
  ring (pieces cur s e n) = (if s - e - n =? 0 then [] else [cur + e + n]) ++ (if e =? 0 then [] else [cur]).
Proof. unfold pieces. destruct (e =? 0), (s - e - n =? 0); done. Qed.

Lemma pieces_coalesced cur s e n :
  coalesced false (pieces cur s e n) /\
  last_free false (pieces cur s e n) = negb (s - e - n =? 0).
Proof. unfold pieces. destruct (e =? 0), (s - e - n =? 0); done. Qed.

(** The ring seen from one of its blocks: either it is alone, or [prev] comes last. *)
Lemma ring_prev h first lo hi b1 b2 cur s prev :
  region_inv h first lo hi (b1 ++ mk_block cur s true :: b2) ->
  prev ∈ ring (b1 ++ mk_block cur s true :: b2) -> next_of h prev = cur ->
  path (next_of h) cur (ring b1 ++ ring b2) cur /\
  ((ring b1 ++ ring b2 = [] /\ prev = cur) \/
   exists u, ring b1 ++ ring b2 = u ++ [prev] /\ (prev ∉ (cur :: u)) /\ path (next_of h) cur u prev).
Proof.
  intros Hinv Hp Hn. pose proof (ri_ring _ _ _ _ _ Hinv) as Hc.
  pose proof (ring_nodup _ _ _ (ri_tiles _ _ _ _ _ Hinv)) as Hnd.
  assert (ring (b1 ++ mk_block cur s true :: b2) = ring b2 ++ cur :: ring b1) as Er
    by (rewrite ring_app, ring_cons; cbn; by rewrite <- app_assoc).
  pose proof Hc as Hcanon. rewrite Er in *. apply chain_rot in Hc. cbn [app chain] in Hc.
  split; [done|]. destruct (ring b1 ++ ring b2) as [|z u _] eqn:E using rev_ind.
  - left. split; [done|]. apply app_eq_nil in E as [E1 E2]. rewrite E1, E2 in Hp.
    by apply list_elem_of_singleton in Hp.
  - right. apply path_app in Hc as [Hc Hz].
    assert (NoDup (cur :: u ++ [z])) as Hnd'.
    { rewrite <- E. change (cur :: ring b1 ++ ring b2) with ((cur :: ring b1) ++ ring b2).
      by rewrite (Permutation_app_comm (cur :: ring b1)). }
    assert (prev = z) as ->.
    { apply (chain_inj (next_of h) (ring b2 ++ cur :: ring b1)); try done; [|cbn in Hz; congruence].
      assert (z ∈ ring b1 ++ ring b2) as Hz' by (rewrite E; apply elem_of_app; right; by apply list_elem_of_singleton).
      apply elem_of_app in Hz' as [?|?]; apply elem_of_app; [right; by constructor|by left]. }
    exists u. split; [done|]. split; [|done].
    change (cur :: u ++ [z]) with ((cur :: u) ++ [z]) in Hnd'. apply NoDup_app in Hnd' as (_ & Hd & _).
    intros Hin. apply (Hd z Hin). by apply list_elem_of_singleton.
Qed.

(** The four cases of [carve] give one picture: the headers of the pieces, a ring in which
    the free pieces stand where the block stood, and nothing else touched. *)
Section Carve.
Context (h : heap) (first lo hi : Z) (b1 b2 : list block) (cur s prev n e : Z).
Hypothesis Hinv : region_inv h first lo hi (b1 ++ mk_block cur s true :: b2).
Hypothesis Hp : prev ∈ ring (b1 ++ mk_block cur s true :: b2).
Hypothesis Hn : next_of h prev = cur.
Hypothesis Hn0 : 0 < n.
Hypothesis He0 : 0 <= e.
Hypothesis Hes : e + n <= s.

Definition carved (prev' : Z) (h' : heap) : Prop :=
  Forall (entry_ok h') (pieces cur s e n) /\
  (forall x, ~ cur <= x < cur + s -> sm h' x = sm h x) /\
  chain (next_of h') (ring (pieces cur s e n) ++ ring b1 ++ ring b2) /\
  (prev' ∈ ring (pieces cur s e n) ++ ring b1 ++ ring b2 \/
   (prev' = cur /\ first = cur /\ e = 0 /\ ring (pieces cur s e n) ++ ring b1 ++ ring b2 = [])).

Lemma carve_cases : (ring b1 ++ ring b2 = [] /\ prev = cur) \/
  exists u, ring b1 ++ ring b2 = u ++ [prev] /\ (prev ∉ (cur :: u)) /\ path (next_of h) cur u prev.
Proof. apply (ring_prev _ _ _ _ _ _ _ _ _ Hinv Hp Hn). Qed.

Lemma carve_path : path (next_of h) cur (ring b1 ++ ring b2) cur.
Proof. apply (ring_prev _ _ _ _ _ _ _ _ _ Hinv Hp Hn). Qed.

Lemma carve_cur : sm h cur = Some (s, GRUB_MM_FREE_MAGIC).
Proof. exact (focus_entry _ _ _ _ _ _ _ _ _ Hinv). Qed.

Lemma carve_prev : is_Some (h !! prev).
Proof.
  apply ring_in in Hp as (b & Hb & Hf & <-). pose proof (ri_entries _ _ _ _ _ Hinv) as He.
  rewrite Forall_forall in He. eapply sm_is_Some, He, Hb.
Qed.

Lemma carve_outside a x : a ∈ ring b1 ++ ring b2 -> cur <= x < cur + s -> a <> x.
Proof. intros Ha Hx ->. by apply (focus_ring_outside _ _ _ _ _ _ _ _ _ Hinv) in Ha. Qed.

Lemma carve_alone : ring b1 ++ ring b2 = [] -> first = cur.
Proof.
  intros HT. apply app_eq_nil in HT as [HT1 HT2].
  destruct (ri_first _ _ _ _ _ Hinv) as [Hf|[Hf _]]; rewrite ring_app, ring_cons, HT1, HT2 in Hf;
    [by apply list_elem_of_singleton in Hf|done].
Qed.

Lemma in_snoc (u : list Z) (x : Z) : x ∈ u ++ [x].
Proof. apply elem_of_app. right. by apply list_elem_of_singleton. Qed.

(** The whole block is taken off the ring. *)
Lemma carve_whole : e = 0 -> s = n ->
  carved prev (put_magic_size cur GRUB_MM_ALLOC_MAGIC n (put_next prev (next_of h cur) h)).
Proof.
  intros E0 Er. unfold carved. rewrite pieces_ring. unfold pieces.
  rewrite E0, Z.sub_0_r, (proj2 (Z.eqb_eq (s - n) 0)), Z.add_0_r by lia. cbn [Z.eqb app].
  split; [|split; [|split]].
  - constructor; [|done]. unfold entry_ok. cbn [baddr]. by rewrite sm_put_magic_size, decide_True.
  - intros x Hx. by rewrite sm_put_magic_size, decide_False, sm_put_next by (intros ->; lia).
  - eapply chain_ext with (nx := fun x => if decide (x = prev) then next_of h cur else next_of h x).
    { intros a _. by rewrite next_put_magic_size, next_put_next by apply carve_prev. }
    destruct carve_cases as [[-> _]|(u & -> & Hni & Hu)]; [done|].
    destruct u as [|y u]; cbn [app chain path] in Hu |- *; [by rewrite decide_True|].
    destruct Hu as [Hy Hu]. apply path_app. split; [|cbn [path]; by rewrite decide_True].
    eapply path_ext; [|exact Hu]. intros a Ha. rewrite decide_False; [done|].
    intros ->. apply Hni. by constructor.
  - destruct carve_cases as [[HT Ep]|(u & HT & _)].
    + right. split_and!; try done. by apply carve_alone.
    + left. rewrite HT. apply in_snoc.
Qed.

(** Its front is taken; a new header for the rest replaces it on the ring. *)
Lemma carve_front prev' h0 : e = 0 -> s <> n ->
  let h1 := put_next prev (cur + n) (<[cur + n := mk_header (next_of h cur) (s - n) GRUB_MM_FREE_MAGIC]> h) in
  (prev', h0) = (if prev =? cur then (cur + n, put_next (cur + n) (cur + n) h1) else (prev, h1)) ->
  carved prev' (put_magic_size cur GRUB_MM_ALLOC_MAGIC n h0).
Proof.
  intros E0 Er h1 E. unfold carved. rewrite pieces_ring. unfold pieces.
  rewrite E0, Z.sub_0_r, (proj2 (Z.eqb_neq (s - n) 0)), Z.add_0_r by lia. cbn [Z.eqb app].
  assert (forall x, sm h0 x = if decide (x = cur + n) then Some (s - n, GRUB_MM_FREE_MAGIC) else sm h x) as Hsm.
  { intros x. destruct (prev =? cur); injection E as -> ->; unfold h1; by rewrite !sm_put_next, sm_insert. }
  split; [|split].
  - repeat constructor; unfold entry_ok; cbn [baddr]; rewrite sm_put_magic_size; [by rewrite decide_True|].
    by rewrite decide_False, Hsm, decide_True by lia.
  - intros x Hx. by rewrite sm_put_magic_size, decide_False, Hsm, decide_False by (intros ->; lia).
  - assert (Hr : forall a, a ∈ ring b1 ++ ring b2 -> a <> cur + n) by (intros a Ha; apply (carve_outside a _ Ha); lia).
    destruct carve_cases as [[HT Ep]|(u & HT & Hni & Hu)].
    + rewrite (proj2 (Z.eqb_eq prev cur) Ep) in E. injection E as -> ->. rewrite HT.
      split; [|left; by apply list_elem_of_singleton]. cbn [chain path].
      rewrite next_put_magic_size, next_put_next; [by rewrite decide_True|].
      eapply sm_is_Some. unfold h1. by rewrite sm_put_next, sm_insert, decide_True.
    + rewrite (proj2 (Z.eqb_neq prev cur)) in E by (intros ->; apply Hni; constructor).
      injection E as -> ->. rewrite HT in *. pose proof (Hr prev (in_snoc _ _)) as Hpr.
      split; [|left; constructor; apply in_snoc].
      eapply chain_ext with (nx := fun x => if decide (x = prev) then cur + n
          else if decide (x = cur + n) then next_of h cur else next_of h x).
      { intros a _. unfold h1. rewrite next_put_magic_size, next_put_next, next_insert; [done|].
        rewrite lookup_insert_ne by done. apply carve_prev. }
      cbn [chain]. apply path_app. split; [|cbn [path]; by rewrite decide_True].
      destruct u as [|y u]; cbn [path] in Hu |- *; rewrite decide_False, decide_True by done; [done|].
      destruct Hu as [Hy Hu]. split; [done|]. eapply path_ext; [|exact Hu]. intros a Ha.
      rewrite !decide_False; [done| |intros ->; apply Hni; by constructor].
      apply Hr. apply elem_of_app. by left.
Qed.

(** Its end is taken; the ring does not change. *)
Lemma carve_end : e <> 0 -> s = n + e ->
  carved prev (put_magic_size (cur + e) GRUB_MM_ALLOC_MAGIC n (put_size cur e h)).
Proof.
  intros E0 Er. unfold carved. rewrite pieces_ring. unfold pieces.
  rewrite (proj2 (Z.eqb_neq e 0) E0), (proj2 (Z.eqb_eq (s - e - n) 0)) by lia. cbn [app].
  split; [|split; [|split]].
  - repeat constructor; unfold entry_ok; cbn [baddr]; rewrite sm_put_magic_size.
    + rewrite decide_False, sm_put_size, decide_True, carve_cur by lia. done.
    + by rewrite decide_True.
  - intros x Hx. rewrite sm_put_magic_size, decide_False by (intros ->; lia).
    by rewrite sm_put_size, decide_False by (intros ->; lia).
  - cbn [chain]. eapply path_ext; [|exact carve_path]. intros a _.
    by rewrite next_put_magic_size, next_put_size.
  - left. destruct carve_cases as [[_ ->]|(u & HT & _)]; [constructor|].
    constructor. rewrite HT. apply in_snoc.
Qed.

(** Its middle is taken; the rest becomes a new block on the ring, before the front. *)
Lemma carve_middle : e <> 0 -> s <> n + e ->
  carved prev (put_magic_size (cur + e) GRUB_MM_ALLOC_MAGIC n
    (put_next prev (cur + e + n) (put_size cur e
      (<[cur + e + n := mk_header cur (s - e - n) GRUB_MM_FREE_MAGIC]> h)))).
Proof.
  intros E0 Er. unfold carved. rewrite pieces_ring. unfold pieces.
  rewrite (proj2 (Z.eqb_neq e 0) E0), (proj2 (Z.eqb_neq (s - e - n) 0)) by lia. cbn [app].
  assert (forall a, a ∈ ring b1 ++ ring b2 -> a <> cur + e + n) as Hr
    by (intros a Ha; apply (carve_outside a _ Ha); lia).
  assert (prev <> cur + e + n) as Hpr.
  { destruct carve_cases as [[_ ->]|(u & HT & _)]; [lia|]. apply Hr. rewrite HT. apply in_snoc. }
  split; [|split; [|split]].
  - repeat constructor; unfold entry_ok; cbn [baddr]; rewrite sm_put_magic_size.
    + rewrite decide_False, sm_put_next, sm_put_size, decide_True, sm_insert by lia.
      by rewrite decide_False, carve_cur by lia.
    + by rewrite decide_True.
    + rewrite decide_False, sm_put_next, sm_put_size, decide_False, sm_insert by lia.
      by rewrite decide_True.
  - intros x Hx. rewrite sm_put_magic_size, decide_False by (intros ->; lia).
    rewrite sm_put_next, sm_put_size, decide_False by (intros ->; lia).
    by rewrite sm_insert, decide_False by (intros ->; lia).
  - eapply chain_ext with (nx := fun x => if decide (x = prev) then cur + e + n
        else if decide (x = cur + e + n) then cur else next_of h x).
    { intros a _. rewrite next_put_magic_size, next_put_next, next_put_size, next_insert; [done|].
      unfold put_size. rewrite lookup_alter_is_Some, lookup_insert_ne by done. apply carve_prev. }
    cbn [chain path]. rewrite decide_False, decide_True by done. split; [done|].
    destruct carve_cases as [[-> ->]|(u & HT & Hni & Hu)]; [cbn [path]; by rewrite decide_True|].
    rewrite HT in *. apply path_app. split; [|cbn [path]; by rewrite decide_True].
    eapply path_ext; [|exact Hu]. intros a Ha.
    assert (a <> prev) as Hap by (by intros ->).
    assert (a <> cur + e + n) as Har.
    { apply elem_of_cons in Ha as [->|Ha]; [lia|]. apply Hr. apply elem_of_app. by left. }
    by rewrite !decide_False by done.
  - left. constructor. destruct carve_cases as [[_ ->]|(u & HT & _)]; [constructor|].
    constructor. rewrite HT. apply in_snoc.
Qed.
End Carve.

Lemma carve_spec h first lo hi b1 b2 cur s prev n k :
  region_inv h first lo hi (b1 ++ mk_block cur s true :: b2) ->
  prev ∈ ring (b1 ++ mk_block cur s true :: b2) -> next_of h prev = cur ->
  0 < n -> 0 <= k -> n + front_extra cur (2 ^ k) <= s ->
  let e := total_extra cur s n (2 ^ k) in
  exists prev' h', carve prev cur (next_of h cur) s n (2 ^ k) h = (cur + e, prev', h') /\
    carved h first b1 b2 cur s n e prev' h'.
Proof.
  intros Hinv Hp Hn Hn0 Hk Hs e.
  destruct (total_extra_spec cur s n k Hk Hs) as (He0 & Hes & _ & He1). fold e in He0, Hes, He1.
  unfold carve. fold (total_extra cur s n (2 ^ k)). fold e.
  destruct (Z.eqb_spec e 0) as [E0|E0].
  - cbn [andb]. destruct (Z.eqb_spec s n) as [Er|Er].
    + eexists _, _. split; [by rewrite E0, Z.add_0_r|]. by eapply carve_whole.
    + assert (2 ^ k <> 1) as Hk1 by (intros E; specialize (He1 E); lia).
      rewrite (proj2 (Z.eqb_neq (2 ^ k) 1) Hk1), (proj2 (Z.eqb_neq s (n + e))) by lia. cbn [orb].
      replace (cur + e + n) with (cur + n) by lia. replace (s - e - n) with (s - n) by lia.
      replace (cur + e) with cur by lia.
      set (h1 := put_next prev (cur + n) _).
      destruct (if prev =? cur then (cur + n, put_next (cur + n) (cur + n) h1) else (prev, h1))
        as [prev' h0] eqn:E.
      exists prev', (put_magic_size cur GRUB_MM_ALLOC_MAGIC n h0). split.
      * by destruct (prev =? cur); injection E as <- <-.
      * by eapply carve_front.
  - cbn [andb]. destruct (Z.eqb_spec s (n + e)) as [Er|Er].
    + rewrite orb_true_r. replace (s - n) with e by lia. eexists _, _. split; [done|]. by eapply carve_end.
    + assert (2 ^ k <> 1) as Hk1 by (intros E; specialize (He1 E); lia).
      rewrite (proj2 (Z.eqb_neq (2 ^ k) 1) Hk1). cbn [orb]. eexists _, _. split; [done|]. by eapply carve_middle.
Qed.

(** Replacing one block of a region by others that cover it. *)
Lemma region_replace h first lo hi b1 b2 cur s f mid h' first' :
  region_inv h first lo hi (b1 ++ mk_block cur s f :: b2) ->
  tiles cur (cur + s) mid -> Forall (entry_ok h') mid ->
  (forall x, ~ cur <= x < cur + s -> sm h' x = sm h x) ->
  chain (next_of h') (ring mid ++ ring b1 ++ ring b2) ->
  coalesced false (b1 ++ mid ++ b2) ->
  (first' ∈ ring mid ++ ring b1 ++ ring b2 \/
   (ring mid ++ ring b1 ++ ring b2 = [] /\ exists s', mk_block first' s' false ∈ mid)) ->
  region_inv h' first' lo hi (b1 ++ mid ++ b2).
Proof.
  intros Hinv Ht He Hsame Hc Hco Hf. pose proof (focus_tiles _ _ _ _ _ _ _ _ _ Hinv) as (Ht1 & _ & Ht2).
  assert (ring (b1 ++ mid ++ b2) = ring b2 ++ ring mid ++ ring b1) as Er
    by (rewrite !ring_app; by rewrite <- app_assoc).
  constructor.
  - apply Hinv.
  - apply tiles_app. exists cur. split; [done|]. apply tiles_app. by exists (cur + s).
  - rewrite !Forall_app. split; [|split; [done|]]; apply Forall_forall; intros b Hb;
      (eapply focus_frame; [exact Hinv|auto|exact Hsame]).
  - rewrite Er. apply chain_rot. by rewrite <- app_assoc.
  - rewrite Er. destruct Hf as [Hf|[Hf (s' & Hs')]].
    + left. rewrite !elem_of_app in *. tauto.
    + right. split.
      * apply app_eq_nil in Hf as [-> Hf]. apply app_eq_nil in Hf as [-> ->]. done.
      * exists s'. rewrite !elem_of_app. auto.
  - done.
Qed.

Lemma malloc_coalesced b1 b2 cur s e n :
  coalesced false (b1 ++ mk_block cur s true :: b2) -> coalesced false (b1 ++ pieces cur s e n ++ b2).
Proof.
  rewrite !coalesced_app. intros (H1 & H2). cbn in H2. rewrite andb_true_r in H2. destruct H2 as [Hl H2].
  rewrite Hl. destruct (pieces_coalesced cur s e n) as [Hp Hpl]. rewrite Hpl.
  split_and!; try done. destruct (s - e - n =? 0); [by apply coalesced_weaken|done].
Qed.

(** ** The search *)

(** A free block that has room for [n] cells at the alignment. *)
Definition fits (n align : Z) (b : block) : Prop := bfree b = true /\ n + front_extra (baddr b) align <= bsize b.

Lemma malloc_loop_spec h bs first n align l : forall fuel prev,
  Forall (entry_ok h) bs -> (forall b, b ∈ bs -> 0 < baddr b) ->
  path (next_of h) prev l first -> (first ∉ l) -> (length l < fuel)%nat ->
  (forall a, a ∈ prev :: l ++ [first] -> a ∈ ring bs) ->
  (exists prev' b, prev' ∈ ring bs /\ b ∈ bs /\ next_of h prev' = baddr b /\ fits n align b /\
     malloc_loop fuel first prev (next_of h prev) n align h
     = let '(c, p, h') := carve prev' (baddr b) (next_of h (baddr b)) (bsize b) n align h in
       Some (Some (c + 1), if (n <? 1024) || (first =? c) then p else first, h')) \/
  ((forall b, b ∈ bs -> baddr b ∈ l ++ [first] -> ~ fits n align b) /\
   malloc_loop fuel first prev (next_of h prev) n align h = Some (None, first, h)).
Proof.
  induction l as [|y l IH]; intros [|fuel] prev He Hpos Hpath Hni Hf Hin; try (cbn in Hf; lia).
  all: assert (next_of h prev ∈ ring bs) as Hc
         by (match type of Hpath with
             | path _ _ [] _ => cbn in Hpath; rewrite Hpath
             | _ => destruct Hpath as [-> _]
             end; apply Hin; cbn; rewrite ?elem_of_cons, ?elem_of_app, ?elem_of_cons; tauto).
  all: apply ring_in in Hc as (b & Hb & Hbf & Hba); pose proof He as He';
       rewrite Forall_forall in He'; specialize (He' b Hb); unfold entry_ok in He';
       rewrite Hbf in He'; pose proof (sm_lookup _ _ _ _ He') as Hlk; specialize (Hpos b Hb) as Hb0.
  all: cbn [malloc_loop]; rewrite <- Hba, Hlk; rewrite (proj2 (Z.eqb_neq (baddr b) 0)) by lia; step;
       cbn [magic size next]; change (magic_of true) with GRUB_MM_FREE_MAGIC;
       change (GRUB_MM_FREE_MAGIC =? GRUB_MM_FREE_MAGIC) with true; cbn [negb].
  all: destruct (Z.leb_spec (n + front_extra (baddr b) align) (bsize b)) as [Hfit|Hfit];
       [left; exists prev, b; split; [apply Hin; by constructor|]; split; [done|]; split; [done|];
        split; [done|reflexivity]|].
  - right. cbn in Hpath. rewrite Hba, Hpath, Z.eqb_refl. split; [|done].
    intros c Hcb Hc%list_elem_of_singleton [Hcf Hc2].
    assert (bsize c = bsize b) as E; [|rewrite E, Hc in Hc2; rewrite Hba, Hpath in Hfit; lia].
    rewrite Forall_forall in He. specialize (He c Hcb). unfold entry_ok in He.
    rewrite Hc, <- Hpath, <- Hba, He' in He. by injection He.
  - destruct Hpath as [Hy Hpath].
    assert (y <> first) as Hyf by (intros ->; apply Hni; constructor).
    rewrite Hba, Hy, (proj2 (Z.eqb_neq _ _) Hyf).
    destruct (IH fuel y) as [Hfound|[Hnone E]]; try done.
    + intros Hin'. apply Hni. by constructor.
    + cbn in Hf. lia.
    + intros a Ha. apply Hin. by constructor.
    + by left.
    + right. split; [|exact E]. intros c Hcb Hc. cbn in Hc. apply elem_of_cons in Hc as [Hc|Hc]; [|by apply Hnone].
      intros [Hcf Hc2]. assert (bsize c = bsize b) as Es; [|rewrite Es, Hc in Hc2; rewrite Hba, Hy in Hfit; lia].
      rewrite Forall_forall in He. specialize (He c Hcb). unfold entry_ok in He.
      rewrite Hc, <- Hy, <- Hba, He' in He. by injection He.
Qed.

Lemma ring_fuel h first lo hi bs : region_inv h first lo hi bs -> (length (ring bs) <= base.size h)%nat.
Proof.
  intros Hinv. pose proof (ring_nodup _ _ _ (ri_tiles _ _ _ _ _ Hinv)) as Hnd.
  rewrite <- (size_list_to_set (C := gset Z) _ Hnd), <- size_dom. apply subseteq_size.
  intros a Ha%elem_of_list_to_set. apply elem_of_dom. apply ring_in in Ha as (b & Hb & _ & <-).
  pose proof (ri_entries _ _ _ _ _ Hinv) as He. rewrite Forall_forall in He. eapply sm_is_Some, He, Hb.
Qed.

Lemma first_entry h first lo hi bs : region_inv h first lo hi bs -> ring bs = [] ->
  exists s, sm h first = Some (s, GRUB_MM_ALLOC_MAGIC).
Proof.
  intros Hinv Er. destruct (ri_first _ _ _ _ _ Hinv) as [Hf|[_ [s Hs]]].
  - rewrite Er in Hf. by apply elem_of_nil in Hf.
  - exists s. pose proof (ri_entries _ _ _ _ _ Hinv) as He. rewrite Forall_forall in He. exact (He _ Hs).
Qed.

(** Walking the ring from [first]. *)
Lemma ring_from_first h first lo hi bs : region_inv h first lo hi bs -> first ∈ ring bs ->
  exists l, path (next_of h) first l first /\ (first ∉ l) /\ (length l < S (base.size h))%nat /\
    (forall a, a ∈ ring bs <-> a ∈ first :: l) /\ exists s, sm h first = Some (s, GRUB_MM_FREE_MAGIC).
Proof.
  intros Hinv Hf. pose proof (ring_fuel _ _ _ _ _ Hinv) as Hlen.
  pose proof (ring_nodup _ _ _ (ri_tiles _ _ _ _ _ Hinv)) as Hnd. pose proof (ri_ring _ _ _ _ _ Hinv) as Hc.
  pose proof Hf as (b & Hb & Hbf & Hba)%ring_in.
  apply list_elem_of_split in Hf as (x & y & Er). rewrite Er in *.
  apply chain_rot in Hc. cbn [app chain] in Hc. exists (y ++ x). split_and!.
  - done.
  - rewrite Permutation_app_comm in Hnd. by apply NoDup_cons in Hnd as [? _].
  - rewrite !length_app in *. cbn in Hlen. lia.
  - intros a. rewrite !elem_of_cons, !elem_of_app, elem_of_cons. tauto.
  - exists (bsize b). pose proof (ri_entries _ _ _ _ _ Hinv) as He. rewrite Forall_forall in He.
    specialize (He b Hb). unfold entry_ok in He. by rewrite Hba, Hbf in He.
Qed.

(** ** Frame: only headers of free blocks and cells of the block at hand are written *)

(** Cells outside the region and payload cells of its allocated blocks are the same. *)
Definition untouched (bs : list block) (lo hi : Z) (h h' : heap) : Prop :=
  forall x, ~ lo <= x < hi \/ (exists b, b ∈ bs /\ bfree b = false /\ baddr b < x < baddr b + bsize b) ->
  h' !! x = h !! x.

Lemma tiles_same lo hi bs b c x : tiles lo hi bs -> b ∈ bs -> c ∈ bs ->
  baddr b <= x < baddr b + bsize b -> baddr c <= x < baddr c + bsize c -> b = c.
Proof.
  revert lo. induction bs as [|d bs IH]; intros lo Ht Hb Hc Hxb Hxc; [by apply elem_of_nil in Hb|].
  destruct Ht as (Ha & Hs & Ht). apply elem_of_cons in Hb as [->|Hb], Hc as [Ec|Hc].
  - done.
  - pose proof (tiles_in _ _ _ _ Ht Hc). lia.
  - subst d. pose proof (tiles_in _ _ _ _ Ht Hb). lia.
  - by apply (IH (lo + bsize d)).
Qed.

(** A cell that [untouched] is about is not in a free block, nor a header. *)
Lemma untouched_ne lo hi bs b x : tiles lo hi bs -> b ∈ bs ->
  ~ lo <= x < hi \/ (exists c, c ∈ bs /\ bfree c = false /\ baddr c < x < baddr c + bsize c) ->
  x <> baddr b /\ (bfree b = true -> ~ baddr b <= x < baddr b + bsize b).
Proof.
  intros Ht Hb Hx. pose proof (tiles_in _ _ _ _ Ht Hb) as Hin.
  destruct Hx as [Hx|(c & Hc & Hcf & Hx)]; [split; [lia|intros _; lia]|]. split.
  - intros ->. assert (b = c) as <- by (apply (tiles_same lo hi bs b c (baddr b)); done || lia). lia.
  - intros Hbf Hxb. assert (b = c) as <- by (apply (tiles_same lo hi bs b c x); done || lia). congruence.
Qed.

Lemma put_next_ne a v h x : x <> a -> put_next a v h !! x = h !! x.
Proof. intros. by apply lookup_alter_ne. Qed.
Lemma put_size_ne a v h x : x <> a -> put_size a v h !! x = h !! x.
Proof. intros. by apply lookup_alter_ne. Qed.
Lemma put_magic_ne a v h x : x <> a -> put_magic a v h !! x = h !! x.
Proof. intros. by apply lookup_alter_ne. Qed.
Lemma put_magic_size_ne a m s h x : x <> a -> put_magic_size a m s h !! x = h !! x.
Proof. intros. by apply lookup_insert_ne. Qed.

Lemma carve_same prev cur cn s n k h c p' h' x :
  carve prev cur cn s n (2 ^ k) h = (c, p', h') -> 0 <= k -> 0 < n -> n + front_extra cur (2 ^ k) <= s ->
  x <> prev -> ~ cur <= x < cur + s -> h' !! x = h !! x.
Proof.
  intros E Hk Hn Hs Hp Hx. destruct (total_extra_spec cur s n k Hk Hs) as (He0 & Hes & _ & He1).
  unfold carve in E. fold (total_extra cur s n (2 ^ k)) in E. set (e := total_extra cur s n (2 ^ k)) in *.
  destruct (Z.eqb_spec e 0), (Z.eqb_spec s n), (Z.eqb_spec (2 ^ k) 1), (Z.eqb_spec s (n + e)), (Z.eqb_spec prev cur);
    cbn [andb orb] in E; injection E as <- <- <-;
    repeat first [rewrite put_magic_size_ne by lia | rewrite put_next_ne by lia | rewrite put_size_ne by lia
                 | rewrite lookup_insert_ne by lia]; done.
Qed.

Lemma free_block_same first p h first' h' prev cur x :
  free_block first p h = Some (first', h') ->
  (forall f, h !! first = Some f -> magic f <> GRUB_MM_ALLOC_MAGIC ->
     free_loop (S (base.size h)) first (next f) p h = Some (prev, cur) /\
     x <> prev /\ x <> cur /\ x <> next_of h cur) ->
  x <> p -> h' !! x = h !! x.
Proof.
  intros E Hw Hp. unfold free_block in E. destruct (h !! first) as [f|]; [|discriminate]. revert E. step.
  destruct (Z.eqb_spec (magic f) GRUB_MM_ALLOC_MAGIC) as [|Hne].
  { intros [= <- <-]. by rewrite put_next_ne, put_magic_ne by lia. }
  destruct (Hw f eq_refl Hne) as (-> & Hpr & Hc & Hn). step. unfold next_of in Hn.
  destruct (h !! cur) as [c|]; [|discriminate]. step. set (h1 := put_next cur p _).
  assert (h1 !! x = h !! x) as Hx1 by (unfold h1; by rewrite !put_next_ne, put_magic_ne by lia).
  destruct (h1 !! next c) as [lo'|]; [|discriminate]. step. destruct (h1 !! p) as [pb|]; [|discriminate]. step.
  set (ph := if next c + size lo' =? p then _ else _).
  assert (x <> fst ph /\ snd ph !! x = h !! x) as [Hph Hx2].
  { unfold ph. destruct (next c + size lo' =? p); cbn [fst snd]; [|done].
    split; [done|]. by rewrite put_next_ne, put_size_ne, put_magic_ne by lia. }
  destruct ph as [q h2]. cbn [fst snd] in *. destruct (h2 !! q) as [qb|]; [|discriminate]. step.
  destruct (h2 !! cur) as [cb|]; [|discriminate]. step. intros E. injection E as E.
  destruct (cur =? q + size qb); injection E as _ <-; [|done].
  destruct (cur =? prev); by rewrite put_next_ne, put_size_ne, put_magic_ne by lia.
Qed.

Lemma carve_untouched h lo hi b1 b2 cur s prev cn n k c p' h' : tiles lo hi (b1 ++ mk_block cur s true :: b2) ->
  prev ∈ ring (b1 ++ mk_block cur s true :: b2) -> carve prev cur cn s n (2 ^ k) h = (c, p', h') -> 0 <= k -> 0 < n ->
  n + front_extra cur (2 ^ k) <= s -> untouched (b1 ++ mk_block cur s true :: b2) lo hi h h'.
Proof.
  intros Ht Hp Ec Hk Hn Hfit x Hx. apply ring_in in Hp as (pb & Hpb & _ & <-). eapply carve_same; [exact Ec|done..| |].
  - by apply (untouched_ne _ _ _ _ _ Ht Hpb Hx).
  - eapply (untouched_ne _ _ _ (mk_block cur s true) _ Ht); [|done|done]. apply elem_of_app. right. constructor.
Qed.

(** The first free block is still one after the allocation, unless it was used up. *)
Lemma first_stays s b1 b2 cur e n first : first ∈ ring (b1 ++ mk_block cur s true :: b2) -> first <> cur + e ->
  first ∈ ring (pieces cur s e n) ++ ring b1 ++ ring b2.
Proof.
  intros Hf Hne. rewrite ring_app, ring_cons in Hf. cbn [bfree baddr] in Hf.
  rewrite <- app_assoc, !elem_of_app, list_elem_of_singleton in Hf. rewrite !elem_of_app. destruct Hf as [?|[->|?]]; [auto| |auto].
  left. rewrite pieces_ring. rewrite (proj2 (Z.eqb_neq e 0)) by (intros ->; lia). apply elem_of_app. right. constructor.
Qed.

Lemma real_malloc_spec h first lo hi bs n k :
  region_inv h first lo hi bs -> 0 < n -> 0 <= k ->
  (exists b1 b2 cur s e first' h', bs = b1 ++ mk_block cur s true :: b2 /\
     0 <= e /\ e + n <= s /\ (cur + e + 1) mod 2 ^ k = 0 /\
     grub_real_malloc first n (2 ^ k) h = Some (Some (cur + e + 1), first', h') /\
     region_inv h' first' lo hi (b1 ++ pieces cur s e n ++ b2) /\ untouched bs lo hi h h') \/
  ((forall b, b ∈ bs -> ~ fits n (2 ^ k) b) /\ grub_real_malloc first n (2 ^ k) h = Some (None, first, h)).
Proof.
  intros Hinv Hn Hk. unfold grub_real_malloc. destruct (decide (ring bs = [])) as [Er|Er].
  { right. destruct (first_entry _ _ _ _ _ Hinv Er) as [s Hs]. rewrite (sm_lookup _ _ _ _ Hs). step.
    split; [|done]. intros b Hb [Hbf _]. assert (baddr b ∈ ring bs) as Hin by (apply ring_in; by exists b).
    rewrite Er in Hin. by apply elem_of_nil in Hin. }
  destruct (ri_first _ _ _ _ _ Hinv) as [Hf|[? _]]; [|done].
  destruct (ring_from_first _ _ _ _ _ Hinv Hf) as (l & Hpath & Hni & Hlen & Hin & s & Hs).
  rewrite (sm_lookup _ _ _ _ Hs). step. cbn [magic next]. cbn [Z.eqb Pos.eqb].
  change (GRUB_MM_FREE_MAGIC =? GRUB_MM_ALLOC_MAGIC) with false. cbv iota.
  destruct (malloc_loop_spec h bs first n (2 ^ k) l (S (base.size h)) first) as [Hfound|[Hnone E]].
  - apply Hinv.
  - intros b Hb. pose proof (tiles_in _ _ _ _ (ri_tiles _ _ _ _ _ Hinv) Hb).
    pose proof (ri_pos _ _ _ _ _ Hinv). lia.
  - done.
  - done.
  - done.
  - intros a Ha. apply Hin. rewrite !elem_of_cons, elem_of_app, elem_of_cons, elem_of_nil in Ha.
    rewrite elem_of_cons. tauto.
  - left. destruct Hfound as (prev & [cur cs cf] & Hp & Hb & Hnx & [Hbf Hfit] & E).
    cbn [baddr bsize bfree] in *. subst cf. apply list_elem_of_split in Hb as (b1 & b2 & ->).
    destruct (total_extra_spec cur cs n k Hk Hfit) as (He0 & Hes & Hal & _).
    destruct (carve_spec _ _ _ _ _ _ _ _ prev n k Hinv Hp Hnx Hn Hk Hfit) as (prev' & h' & Ec & He & Hsame & Hch & Hpr).
    rewrite Ec in E. set (e := total_extra cur cs n (2 ^ k)) in *.
    eexists b1, b2, cur, cs, e, _, h'. split; [done|]. split_and!; try done; [by replace (cur + e + 1) with (cur + 1 + e) by lia| |].
    2: { eapply carve_untouched; [apply Hinv|exact Hp|exact Ec|done..]. }
    eapply region_replace; try done.
    + apply pieces_tiles; lia.
    + apply malloc_coalesced. apply Hinv.
    + destruct ((n <? 1024) || (first =? cur + e)) eqn:Efirst.
      * destruct Hpr as [Hpr|(-> & _ & Ee & Hnil)]; [by left|]. right. split; [done|].
        exists n. unfold pieces. rewrite Ee. cbn [Z.eqb app]. rewrite Z.add_0_r. constructor.
      * apply orb_false_iff in Efirst as [_ Hfe%Z.eqb_neq]. left. by apply (first_stays cs).
  - right. split; [|exact E]. intros b Hb Hfb. apply (Hnone b Hb); [|done].
    assert (baddr b ∈ ring bs) as Hin' by (apply ring_in; exists b; by destruct Hfb).
    apply Hin in Hin'. rewrite elem_of_cons in Hin'. rewrite elem_of_app, list_elem_of_singleton. tauto.
Qed.

(** ** Where a freed block goes *)

Section Position.
Context (nx : Z -> Z) (p : Z) (P S : list Z).
Hypothesis Hchain : chain nx (P ++ S).
Hypothesis Hsorted : StronglySorted (fun a b => b < a) (P ++ S).
Hypothesis HP : Forall (fun a => p < a) P.
Hypothesis HS : Forall (fun a => a < p) S.

(** The test on which the walk stops. *)
Definition stop (c : Z) : bool :=
  negb ((c <=? p) || (p <=? nx c)) || ((c <=? nx c) && ((p <? c) || (nx c <? p))).

Lemma split_unique P' S' : P ++ S = P' ++ S' ->
  Forall (fun a => p < a) P' -> Forall (fun a => a < p) S' -> P = P' /\ S = S'.
Proof.
  clear Hchain Hsorted. revert P'. induction HP as [|a Q Ha HQ IH]; intros P' E HP' HS'.
  - destruct P' as [|b P']; [done|]. cbn in E. rewrite E in HS.
    apply Forall_cons in HS as [? _]. apply Forall_cons in HP' as [? _]. lia.
  - destruct P' as [|b P']; cbn in E.
    + rewrite <- E in HS'. apply Forall_cons in HS' as [? _]. lia.
    + injection E as -> E. apply Forall_cons in HP' as [_ HP'].
      by destruct (IH HQ P' E HP' HS') as [-> ->].
Qed.

Lemma chain_next A c B : P ++ S = A ++ c :: B -> nx c = hd c (B ++ A).
Proof.
  intros E. pose proof Hchain as Hc. rewrite E in Hc. apply chain_rot in Hc. cbn [app chain] in Hc.
  destruct (B ++ A); [done|]. by destruct Hc.
Qed.

(** The walk can only stop at the last block before the insertion point... *)
Lemma stop_last c : c ∈ P ++ S -> stop c = true -> exists u, S ++ P = u ++ [c].
Proof.
  intros Hc Hst. apply list_elem_of_split in Hc as (A & B & E). pose proof (chain_next _ _ _ E) as Hnx.
  unfold stop in Hst. rewrite Hnx in Hst. pose proof Hsorted as Hso. rewrite E in Hso.
  apply StronglySorted_app in Hso as (HA & _ & HB). apply StronglySorted_cons in HB as [HB HB'].
  destruct B as [|d B]; cbn [app hd] in Hst.
  - assert (forall a, a ∈ A -> c < a) as HAc by (intros a Ha; apply (HA a c); [done|constructor]).
    set (m := hd c A) in *.
    assert (c <= m) as Hm by (unfold m; destruct A as [|y A]; cbn; [lia|]; specialize (HAc y ltac:(constructor)); lia).
    destruct (Z.lt_trichotomy p c) as [Hpc|[->|Hpc]].
    + destruct (split_unique (A ++ [c]) []) as [-> ->]; [by rewrite app_nil_r| |done|by exists A].
      apply Forall_app. split; [|by constructor]. apply Forall_forall. intros a Ha. specialize (HAc a Ha). lia.
    + exfalso. revert Hst. zcase; try done; lia.
    + assert (m < p) as Hmp by (revert Hst; zcase; try done; lia).
      destruct (split_unique [] (A ++ [c])) as [-> ->]; [done|done| |exists A; by rewrite app_nil_r].
      apply Forall_app. split; [|by constructor]. apply Forall_forall. intros a Ha.
      destruct A as [|y A]; [by apply elem_of_nil in Ha|]. cbn in m.
      apply elem_of_cons in Ha as [->|Ha]; [done|].
      pose proof Hsorted as Hso. rewrite E in Hso. apply StronglySorted_cons in Hso as [Hy _].
      rewrite Forall_forall in Hy. specialize (Hy a ltac:(rewrite elem_of_app; by left)). lia.
  - apply Forall_cons in HB as [Hd _]. apply StronglySorted_cons in HB' as [HdB _].
    assert (p < c /\ d < p) as [Hpc Hdp] by (revert Hst; zcase; try done; lia).
    destruct (split_unique (A ++ [c]) (d :: B)) as [-> ->]; [by rewrite <- app_assoc| | |].
    + apply Forall_app. split; [|by constructor]. apply Forall_forall. intros a Ha.
      specialize (HA a c Ha ltac:(constructor)). lia.
    + constructor; [done|]. eapply Forall_impl; [exact HdB|]. cbn. lia.
    + exists ((d :: B) ++ A). by rewrite <- app_assoc.
Qed.

(** ... and does stop there. *)
Lemma hd_max c l : (forall a, a ∈ l -> c < a) -> c <= hd c l.
Proof. destruct l as [|y l]; cbn; [lia|]. intros H. specialize (H y ltac:(constructor)). lia. Qed.

Lemma last_stops u c : S ++ P = u ++ [c] -> stop c = true.
Proof.
  intros E. unfold stop. destruct (decide (P = [])) as [EP|EP].
  - assert (S = u ++ [c]) as ES by (rewrite EP, app_nil_r in E; done).
    rewrite (chain_next u c []) by (rewrite EP; exact ES). cbn [app].
    assert (Forall (fun a => a < p) (u ++ [c])) as HS' by (rewrite <- ES; exact HS).
    apply Forall_app in HS' as [Hu Hc]. apply Forall_cons in Hc as [Hc _].
    assert (c <= hd c u) as H1.
    { apply hd_max. intros a Ha. eapply (StronglySorted_app_1_elem_of (fun a b => b < a) u [c]);
        [rewrite <- ES; pose proof Hsorted as Hso; by rewrite EP in Hso|done|by apply list_elem_of_singleton]. }
    assert (hd c u < p) as H2 by (destruct u; cbn; [done|]; by apply Forall_cons in Hu as [? _]).
    zres. by rewrite ?orb_true_r.
  - destruct (exists_last EP) as (P' & x & EP'). rewrite EP', app_assoc in E.
    apply app_inj_tail in E as [Eu ->].
    rewrite (chain_next P' c S) by (rewrite EP', <- app_assoc; done).
    assert (Forall (fun a => p < a) (P' ++ [c])) as HP' by (rewrite <- EP'; exact HP).
    apply Forall_app in HP' as [_ Hc]. apply Forall_cons in Hc as [Hc _].
    destruct (decide (S = [])) as [ES|ES].
    + rewrite ES. cbn [app]. assert (c <= hd c P') as H1.
      { apply hd_max. intros a Ha. pose proof Hsorted as Hso. rewrite EP', ES, app_nil_r in Hso.
        by eapply (StronglySorted_app_1_elem_of (fun a b => b < a) P' [c]); [exact Hso|done|apply list_elem_of_singleton]. }
      zres. by rewrite ?orb_true_r.
    + assert (exists d S', S = d :: S') as (d & S' & ES') by (destruct S as [|d S']; [done|by exists d, S']).
      rewrite ES'. cbn [app hd]. assert (d < p) by (pose proof HS as HS'; rewrite ES' in HS'; by apply Forall_cons in HS' as [? _]).
      by zres.
Qed.
End Position.

Lemma free_loop_spec h bs p first l : forall fuel prev,
  Forall (entry_ok h) bs -> path (next_of h) prev l first -> (length l < fuel)%nat ->
  (forall a, a ∈ prev :: l ++ [first] -> a ∈ ring bs) ->
  (exists c, c ∈ l ++ [first] /\ stop (next_of h) p c = true) ->
  exists prev' c, free_loop fuel prev (next_of h prev) p h = Some (prev', c) /\
    prev' ∈ ring bs /\ c ∈ ring bs /\ next_of h prev' = c /\ stop (next_of h) p c = true.
Proof.
  induction l as [|y l IH]; intros [|fuel] prev He Hpath Hf Hin Hex; try (cbn in Hf; lia).
  all: set (c := next_of h prev); assert (c ∈ ring bs) as Hc
    by (unfold c; match type of Hpath with
        | path _ _ [] _ => cbn in Hpath; rewrite Hpath
        | _ => destruct Hpath as [-> _]
        end; apply Hin; cbn; rewrite ?elem_of_cons, ?elem_of_app, ?elem_of_cons; tauto).
  all: pose proof Hc as (b & Hb & Hbf & Hba)%ring_in; pose proof He as He'; rewrite Forall_forall in He';
    specialize (He' b Hb); unfold entry_ok in He'; rewrite Hbf, Hba in He'; cbn [free_loop];
    rewrite (sm_lookup _ _ _ _ He'); step; cbn [next magic];
    change (negb (magic_of true =? GRUB_MM_FREE_MAGIC)) with false; cbv iota.
  all: destruct (stop (next_of h) p c) eqn:Est;
    [exists prev, c; split; [|split; [apply Hin; constructor|]; done];
     unfold stop in Est; destruct ((c <=? p) || (p <=? next_of h c)); [|done];
     cbn [negb orb] in Est; by rewrite Est|].
  - exfalso. destruct Hex as (x & Hx%list_elem_of_singleton & Hs). cbn in Hpath.
    unfold c in Est. congruence.
  - pose proof Est as Est0. unfold stop in Est. destruct ((c <=? p) || (p <=? next_of h c)); [|done].
    cbn [negb orb] in Est. rewrite Est.
    destruct Hpath as [Hy Hpath]. unfold c. rewrite Hy. apply IH; try done.
    + cbn in Hf. lia.
    + intros a Ha. apply Hin. by constructor.
    + destruct Hex as (x & Hx & Hs). exists x. split; [|done]. cbn in Hx.
      apply elem_of_cons in Hx as [->|Hx]; [|done].
      unfold c in Est0. congruence.
Qed.

(** ** Freeing *)

Lemma tiles_last lo hi bs b : tiles lo hi bs -> b ∈ bs -> baddr b + bsize b = hi -> exists bs', bs = bs' ++ [b].
Proof.
  intros Ht (x & y & ->)%list_elem_of_split E. apply tiles_app in Ht as (mid & _ & Ht).
  cbn in Ht. destruct Ht as (<- & _ & Ht). destruct y as [|c y]; [by exists x|].
  cbn in Ht. destruct Ht as (_ & ? & Ht%tiles_le). lia.
Qed.

Lemma tiles_head lo hi bs b : tiles lo hi bs -> b ∈ bs -> baddr b = lo -> exists bs', bs = b :: bs'.
Proof.
  intros Ht (x & y & ->)%list_elem_of_split E. apply tiles_app in Ht as (mid & H1 & Ht).
  cbn in Ht. destruct Ht as (Hm & _). destruct x as [|c x]; [by exists y|].
  cbn in H1. destruct H1 as (_ & ? & H1%tiles_le). lia.
Qed.

Lemma entries_frame h h' bs : Forall (entry_ok h) bs ->
  (forall b, b ∈ bs -> sm h' (baddr b) = sm h (baddr b)) -> Forall (entry_ok h') bs.
Proof.
  rewrite !Forall_forall. intros H Hs b Hb. unfold entry_ok. rewrite Hs by done. by apply H.
Qed.

Section Free.
Context (lo hi p s : Z) (b2 : list block).

(** Half way: the block, possibly merged with the one below, is [a, a + t); [cur] is the
    block before it on the ring and [prev] the one before that. *)
Record half_freed (cur prev a t : Z) (b1 : list block) (h : heap) : Prop := mk_half_freed {
  hf_lo : 0 < lo;
  hf_tiles1 : tiles lo a b1;
  hf_tiles2 : tiles (p + s) hi b2;
  hf_end : a + t = p + s;
  hf_size : 0 < t;
  hf_block : sm h a = Some (t, GRUB_MM_FREE_MAGIC);
  hf_below : Forall (entry_ok h) b1;
  hf_above : Forall (entry_ok h) b2;
  hf_ring : chain (next_of h) (a :: ring b1 ++ ring b2);
  hf_cur : exists w, a :: ring b1 ++ ring b2 = w ++ [cur] /\ (w <> [] -> last w = Some (if cur =? prev then a else prev));
  hf_coal1 : coalesced false b1;
  hf_last1 : last_free false b1 = false;
  hf_coal2 : coalesced false b2
}.

Lemma half_freed_cur cur prev a t b1 h : half_freed cur prev a t b1 h ->
  exists sc, sm h cur = Some (sc, GRUB_MM_FREE_MAGIC) /\ (cur = a \/ cur < a \/ p + s <= cur).
Proof.
  intros H. destruct (hf_cur _ _ _ _ _ _ H) as (w & E & _).
  assert (cur ∈ a :: ring b1 ++ ring b2) as Hc by (rewrite E; apply in_snoc).
  rewrite elem_of_cons, elem_of_app, !ring_in in Hc.
  pose proof (hf_below _ _ _ _ _ _ H) as H1. pose proof (hf_above _ _ _ _ _ _ H) as H2.
  rewrite Forall_forall in H1, H2. destruct Hc as [->|[(b & Hb & Hf & <-)|(b & Hb & Hf & <-)]].
  - exists t. split; [apply H|by left].
  - exists (bsize b). specialize (H1 b Hb). unfold entry_ok in H1. rewrite Hf in H1. split; [done|].
    pose proof (tiles_in _ _ _ _ (hf_tiles1 _ _ _ _ _ _ H) Hb). lia.
  - exists (bsize b). specialize (H2 b Hb). unfold entry_ok in H2. rewrite Hf in H2. split; [done|].
    pose proof (tiles_in _ _ _ _ (hf_tiles2 _ _ _ _ _ _ H) Hb). lia.
Qed.

(** The block above is not free: done. *)
Lemma free_no_above cur prev a t b1 h : half_freed cur prev a t b1 h -> cur <> p + s ->
  region_inv h cur lo hi (b1 ++ mk_block a t true :: b2).
Proof.
  intros H Hne. assert (ring (b1 ++ mk_block a t true :: b2) = ring b2 ++ a :: ring b1) as Er
    by (rewrite ring_app, ring_cons; cbn; by rewrite <- app_assoc).
  constructor.
  - apply H.
  - apply tiles_app. exists a. split; [apply H|]. cbn. split; [done|]. split; [apply H|].
    rewrite (hf_end _ _ _ _ _ _ H). apply H.
  - apply Forall_app. split; [apply H|]. constructor; [apply H|apply H].
  - rewrite Er. apply chain_rot. apply H.
  - left. rewrite Er. destruct (hf_cur _ _ _ _ _ _ H) as (w & E & _).
    assert (cur ∈ a :: ring b1 ++ ring b2) as Hc by (rewrite E; apply in_snoc).
    rewrite elem_of_cons, elem_of_app in Hc. rewrite elem_of_app, elem_of_cons. tauto.
  - apply coalesced_app. split; [apply H|]. rewrite (hf_last1 _ _ _ _ _ _ H). cbn. split; [done|].
    pose proof (hf_coal2 _ _ _ _ _ _ H) as Hco. pose proof (hf_tiles2 _ _ _ _ _ _ H) as Ht.
    destruct (hf_cur _ _ _ _ _ _ H) as (w & E & _).
    destruct b2 as [|[c sc [|]] b2'] eqn:E2; [done| |by destruct Hco].
    exfalso. rewrite ring_cons in E. cbn in E. rewrite app_comm_cons, app_assoc in E.
    apply app_inj_tail in E as [_ <-]. by destruct Ht as [? _].
Qed.

Lemma half_nodup prev a t b1 h sc b2' : half_freed (p + s) prev a t b1 h -> b2 = mk_block (p + s) sc true :: b2' ->
  NoDup (a :: ring b1 ++ ring b2').
Proof.
  intros H E2. assert (tiles lo hi (b1 ++ mk_block a t true :: b2)) as Ht.
  { apply tiles_app. exists a. split; [apply H|]. cbn. split; [done|]. split; [apply H|]. rewrite (hf_end _ _ _ _ _ _ H). apply H. }
  pose proof (ring_nodup lo hi _ Ht) as Hnd. rewrite ring_app, ring_cons, E2, ring_cons in Hnd. cbn [bfree baddr] in Hnd. revert Hnd.
  rewrite <- !app_assoc. cbn [app]. rewrite NoDup_app. intros (Hn1 & Hd & Hn2). apply NoDup_cons in Hn2 as [_ Hn2].
  rewrite app_comm_cons, Permutation_app_comm. apply NoDup_app. split; [done|]. split; [|done].
  intros y Hy Hy'. apply (Hd y Hy). by constructor.
Qed.

(** The block above is free: it is merged. *)
Lemma free_above prev a t b1 h sc b2' : half_freed (p + s) prev a t b1 h ->
  b2 = mk_block (p + s) sc true :: b2' ->
  let prev' := if p + s =? prev then a else prev in
  region_inv (put_next prev' a (put_size a (t + sc) (put_magic (p + s) 0 h))) prev' lo hi
    (b1 ++ mk_block a (t + sc) true :: b2').
Proof.
  intros H E2 prev'. set (h' := put_next _ _ _). destruct (hf_cur _ _ _ _ _ _ H) as (w & E & Hw).
  fold prev' in Hw. rewrite E2, ring_cons in E. cbn [bfree baddr] in E.
  rewrite app_comm_cons, app_assoc in E. change ((a :: ring b1) ++ ring b2') with (a :: ring b1 ++ ring b2') in E.
  apply app_inj_tail in E as [E _]. rewrite <- E in Hw. specialize (Hw ltac:(done)).
  pose proof (hf_tiles2 _ _ _ _ _ _ H) as Ht2. rewrite E2 in Ht2. cbn in Ht2. destruct Ht2 as (_ & Hsc & Ht2).
  pose proof (hf_above _ _ _ _ _ _ H) as Ha. rewrite E2 in Ha. apply Forall_cons in Ha as [_ Ha].
  pose proof (hf_coal2 _ _ _ _ _ _ H) as Hco. rewrite E2 in Hco. cbn in Hco. destruct Hco as [_ Hco].
  pose proof (hf_end _ _ _ _ _ _ H) as Hend. pose proof (hf_size _ _ _ _ _ _ H) as Ht0.
  assert (forall x, x <> a -> x <> p + s -> sm h' x = sm h x) as Hsm.
  { intros x Hx1 Hx2. unfold h'. by rewrite sm_put_next, sm_put_size, decide_False, sm_put_magic, decide_False. }
  assert (sm h' a = Some (t + sc, GRUB_MM_FREE_MAGIC)) as Hsma.
  { unfold h'. rewrite sm_put_next, sm_put_size, decide_True, sm_put_magic, decide_False by (done || lia).
    by rewrite (hf_block _ _ _ _ _ _ H). }
  assert (prev' ∈ a :: ring b1 ++ ring b2') as Hp' by (by apply last_Some_elem_of).
  assert (is_Some (h !! prev')) as Hps.
  { rewrite elem_of_cons, elem_of_app, !ring_in in Hp'. pose proof (hf_below _ _ _ _ _ _ H) as H1.
    rewrite Forall_forall in H1, Ha. destruct Hp' as [->|[(b & Hb & _ & <-)|(b & Hb & _ & <-)]];
      [eapply sm_is_Some, H|eapply sm_is_Some, H1, Hb|eapply sm_is_Some, Ha, Hb]. }
  assert (forall x, next_of h' x = if decide (x = prev') then a else next_of h x) as Hnx.
  { intros x. unfold h'. rewrite next_put_next; [by rewrite next_put_size, next_put_magic|].
    unfold put_size, put_magic. by rewrite !lookup_alter_is_Some. }
  assert (ring (b1 ++ mk_block a (t + sc) true :: b2') = ring b2' ++ a :: ring b1) as Er
    by (rewrite ring_app, ring_cons; cbn; by rewrite <- app_assoc).
  constructor.
  - apply H.
  - apply tiles_app. exists a. split; [apply H|]. cbn. split; [done|]. split; [lia|].
    by replace (a + (t + sc)) with (p + s + sc) by lia.
  - apply Forall_app. split; [|constructor; [exact Hsma|]].
    + eapply entries_frame; [apply H|]. intros b Hb.
      pose proof (tiles_in _ _ _ _ (hf_tiles1 _ _ _ _ _ _ H) Hb). apply Hsm; lia.
    + eapply entries_frame; [exact Ha|]. intros b Hb. pose proof (tiles_in _ _ _ _ Ht2 Hb). apply Hsm; lia.
  - rewrite Er. apply chain_rot. cbn [app]. pose proof (hf_ring _ _ _ _ _ _ H) as Hc.
    rewrite E2, ring_cons in Hc. cbn [bfree baddr chain] in Hc. rewrite app_assoc in Hc.
    apply path_app in Hc as [Hc _]. eapply path_close; [exact Hc|by eapply half_nodup|exact Hw|exact Hnx].
  - left. rewrite Er. rewrite elem_of_cons, elem_of_app in Hp'. rewrite elem_of_app, elem_of_cons. tauto.
  - apply coalesced_app. split; [apply H|]. rewrite (hf_last1 _ _ _ _ _ _ H). cbn. done.
Qed.
End Free.

Section Start.
Context (h : heap) (first lo hi : Z) (b1 b2 : list block) (p s cur prev : Z) (u : list Z).
Hypothesis Hinv : region_inv h first lo hi (b1 ++ mk_block p s false :: b2).
Hypothesis Hcur : ring b1 ++ ring b2 = u ++ [cur].
Hypothesis Hprev : prev ∈ ring b1 ++ ring b2.
Hypothesis Hnext : next_of h prev = cur.

Lemma start_ring : ring (b1 ++ mk_block p s false :: b2) = ring b2 ++ ring b1.
Proof. rewrite ring_app, ring_cons. cbn. by rewrite app_nil_r. Qed.

Lemma start_path : path (next_of h) cur u cur.
Proof.
  pose proof (ri_ring _ _ _ _ _ Hinv) as Hc. rewrite start_ring in Hc. apply chain_rot in Hc.
  rewrite Hcur in Hc. by apply chain_rot in Hc.
Qed.

Lemma start_nodup : NoDup (u ++ [cur]).
Proof.
  pose proof (ring_nodup _ _ _ (ri_tiles _ _ _ _ _ Hinv)) as Hnd. rewrite start_ring in Hnd.
  rewrite Permutation_app_comm, Hcur in Hnd. done.
Qed.

Lemma start_prev : (u = [] /\ prev = cur) \/ (prev <> cur /\ last u = Some prev).
Proof.
  pose proof start_path as Hp. pose proof start_nodup as Hnd. pose proof Hprev as Hin. rewrite Hcur in Hin.
  destruct u as [|z v _] eqn:Eu using rev_ind; [left; by apply list_elem_of_singleton in Hin|right].
  apply path_app in Hp as [_ Hz]. cbn in Hz.
  assert (prev = z) as ->.
  { apply (chain_inj (next_of h) ((v ++ [z]) ++ [cur])); try done.
    - rewrite <- Hcur. apply chain_rot. rewrite <- start_ring. apply Hinv.
    - apply elem_of_app. left. apply in_snoc.
    - congruence. }
  split; [|apply last_snoc]. intros ->. apply NoDup_app in Hnd as (_ & Hd & _).
  apply (Hd cur); [apply in_snoc|by apply list_elem_of_singleton].
Qed.

Lemma start_next : next_of h cur = hd cur u.
Proof. pose proof start_path as H. destruct u; [done|]. by destruct H. Qed.

Lemma start_outside a : a ∈ ring b1 ++ ring b2 -> a <> p.
Proof.
  intros Ha ->. destruct (focus_tiles _ _ _ _ _ _ _ _ _ Hinv) as (_ & ? & _).
  apply (focus_ring_outside _ _ _ _ _ _ _ _ _ Hinv) in Ha. lia.
Qed.

Lemma start_cur : cur <> p.
Proof. apply start_outside. rewrite Hcur. apply in_snoc. Qed.

Lemma start_some a : a ∈ ring b1 ++ ring b2 -> exists sa, sm h a = Some (sa, GRUB_MM_FREE_MAGIC) /\ 0 < sa /\
  (a + sa = p -> exists b1', b1 = b1' ++ [mk_block a sa true]) /\
  (a = p + s -> exists b2', b2 = mk_block a sa true :: b2').
Proof.
  destruct (focus_others _ _ _ _ _ _ _ _ _ Hinv) as [H1 H2]. rewrite Forall_forall in H1, H2.
  destruct (focus_tiles _ _ _ _ _ _ _ _ _ Hinv) as (Ht1 & Hs & Ht2).
  rewrite elem_of_app, !ring_in. intros [([x sx f] & Hb & Hf & <-)|([x sx f] & Hb & Hf & <-)];
    cbn [baddr bfree] in *; subst f; exists sx.
  - pose proof (tiles_in _ _ _ _ Ht1 Hb) as Hr. cbn in Hr. split; [exact (H1 _ Hb)|]. split; [lia|].
    split; [intros E; by eapply tiles_last|lia].
  - pose proof (tiles_in _ _ _ _ Ht2 Hb) as Hr. cbn in Hr. split; [exact (H2 _ Hb)|]. split; [lia|].
    split; [lia|intros E; by eapply tiles_head].
Qed.

(** The headers after the block is put on the ring. *)
Definition inserted : heap := put_next cur p (put_next p (next_of h cur) (put_magic p GRUB_MM_FREE_MAGIC h)).

Lemma inserted_sm x : sm inserted x = if decide (x = p) then Some (s, GRUB_MM_FREE_MAGIC) else sm h x.
Proof.
  unfold inserted. rewrite !sm_put_next, sm_put_magic. destruct (decide (x = p)) as [->|]; [|done].
  by rewrite (focus_entry _ _ _ _ _ _ _ _ _ Hinv).
Qed.

Lemma inserted_next x :
  next_of inserted x = if decide (x = cur) then p else if decide (x = p) then next_of h cur else next_of h x.
Proof.
  assert (is_Some (h !! p)) as Hp by (eapply sm_is_Some, (focus_entry _ _ _ _ _ _ _ _ _ Hinv)).
  assert (is_Some (h !! cur)) as Hc.
  { destruct (start_some cur) as (sa & Hs & _); [rewrite Hcur; apply in_snoc|]. by eapply sm_is_Some. }
  unfold inserted. rewrite next_put_next, next_put_next, next_put_magic; [done| |].
  - unfold put_magic. by rewrite lookup_alter_is_Some.
  - unfold put_next, put_magic. by rewrite !lookup_alter_is_Some.
Qed.

Lemma start_coalesced : coalesced false b1 /\ coalesced false b2.
Proof.
  pose proof (ri_coalesced _ _ _ _ _ Hinv) as Hc. apply coalesced_app in Hc as [H1 H2].
  cbn in H2. tauto.
Qed.

(** No free block below. *)
Lemma half_without_below : last_free false b1 = false -> half_freed lo hi p s b2 cur prev p s b1 inserted.
Proof.
  intros Hl. destruct (focus_tiles _ _ _ _ _ _ _ _ _ Hinv) as (Ht1 & Hs & Ht2).
  destruct (focus_others _ _ _ _ _ _ _ _ _ Hinv) as [H1 H2]. destruct start_coalesced as [Hc1 Hc2].
  constructor; try done.
  - apply Hinv.
  - rewrite inserted_sm. by rewrite decide_True.
  - eapply entries_frame; [exact H1|]. intros b Hb. pose proof (tiles_in _ _ _ _ Ht1 Hb).
    rewrite inserted_sm, decide_False by lia. done.
  - eapply entries_frame; [exact H2|]. intros b Hb. pose proof (tiles_in _ _ _ _ Ht2 Hb).
    rewrite inserted_sm, decide_False by lia. done.
  - rewrite Hcur. cbn [chain]. apply path_app. pose proof start_path as Hp. pose proof start_nodup as Hnd.
    split; [|cbn [path]; rewrite inserted_next; by rewrite decide_True].
    assert (forall x, x ∈ u -> next_of h x = next_of inserted x) as Hext.
    { intros x Hx. rewrite inserted_next, !decide_False; [done| |].
      - apply start_outside. rewrite Hcur. apply elem_of_app. by left.
      - intros ->. apply NoDup_app in Hnd as (_ & Hd & _). apply (Hd cur Hx). by apply list_elem_of_singleton. }
    assert (next_of inserted p = hd cur u) as Hip.
    { rewrite inserted_next, decide_False, decide_True by (done || (pose proof start_cur; congruence)).
      apply start_next. }
    clear Hnd. revert Hp Hip Hext. generalize u. intros [|z v]; cbn [path hd]; [done|].
    intros [_ Hp] Hip Hext. split; [done|]. by eapply path_ext.
  - rewrite Hcur. exists (p :: u). split; [done|]. intros _.
    destruct start_prev as [[-> ->]|[Hne Hlast]]; [by rewrite Z.eqb_refl|].
    rewrite (proj2 (Z.eqb_neq _ _)) by done. revert Hlast. generalize u.
    intros [|z v]; [done|]. by rewrite last_cons_cons.
Qed.

(** The block below is free: it takes the freed block in. *)
Lemma half_with_below a sa b1' : b1 = b1' ++ [mk_block a sa true] ->
  next_of h cur = a /\ a + sa = p /\
  half_freed lo hi p s b2 cur prev a (sa + s) b1'
    (put_next cur a (put_size a (sa + s) (put_magic p 0 inserted))).
Proof.
  intros Eb. destruct (focus_tiles _ _ _ _ _ _ _ _ _ Hinv) as (Ht1 & Hs & Ht2).
  destruct (focus_others _ _ _ _ _ _ _ _ _ Hinv) as [H1 H2]. destruct start_coalesced as [Hc1 Hc2].
  rewrite Eb in Ht1, H1, Hc1. apply tiles_app in Ht1 as (mid & Ht1 & Hta). cbn in Hta.
  destruct Hta as (<- & Hsa & Hend). apply Forall_app in H1 as [H1 Ha]. apply Forall_cons in Ha as [Ha _].
  apply coalesced_app in Hc1 as [Hc1 Hl]. cbn in Hl. rewrite andb_true_r in Hl. destruct Hl as [Hl _].
  assert (ring b1 = a :: ring b1') as Er by (rewrite Eb, ring_app; done).
  assert (next_of h cur = a) as Hna.
  { rewrite start_next. pose proof Hcur as E. rewrite Er in E. destruct u; cbn in E |- *; congruence. }
  split; [done|]. split; [done|]. set (h2 := put_next _ _ _).
  assert (forall x, sm h2 x = if decide (x = a) then Some (sa + s, GRUB_MM_FREE_MAGIC)
    else if decide (x = p) then Some (s, 0) else sm h x) as Hsm.
  { intros x. unfold h2. rewrite sm_put_next, sm_put_size, !sm_put_magic, !inserted_sm.
    rewrite !(decide_False (P := a = p)) by lia. unfold entry_ok in Ha. cbn in Ha. rewrite Ha.
    destruct (decide (x = a)); [done|]. destruct (decide (x = p)) as [->|]; [|done].
    by rewrite decide_True by done. }
  assert (forall x, x <> p -> next_of h2 x = next_of h x) as Hnx.
  { intros x Hx. unfold h2. rewrite next_put_next, next_put_size, next_put_magic, inserted_next.
    - destruct (decide (x = cur)) as [->|]; [done|]. by rewrite decide_False.
    - unfold put_size, put_magic. rewrite !lookup_alter_is_Some. unfold inserted, put_next, put_magic.
      rewrite !lookup_alter_is_Some. destruct (start_some cur) as (x' & Hx' & _); [rewrite Hcur; apply in_snoc|].
      by eapply sm_is_Some. }
  pose proof Hcur as Hcur'. rewrite Er in Hcur'. cbn [app] in Hcur'.
  constructor; try done; try lia.
  - apply Hinv.
  - rewrite Hsm. by rewrite decide_True.
  - eapply entries_frame; [exact H1|]. intros b Hb. pose proof (tiles_in _ _ _ _ Ht1 Hb).
    rewrite Hsm, !decide_False by lia. done.
  - eapply entries_frame; [exact H2|]. intros b Hb. pose proof (tiles_in _ _ _ _ Ht2 Hb).
    rewrite Hsm, !decide_False by lia. done.
  - apply (chain_ext (next_of h)).
    + intros x Hx. symmetry. apply Hnx. apply start_outside. by rewrite Er.
    + change (a :: ring b1' ++ ring b2) with ((a :: ring b1') ++ ring b2). rewrite <- Er.
      apply chain_rot. rewrite <- start_ring. apply Hinv.
  - exists u. split; [done|]. intros Hu. destruct start_prev as [[? _]|[Hne Hlast]]; [done|].
    by rewrite (proj2 (Z.eqb_neq cur prev)) by congruence.
Qed.
End Start.

(** How the freed block [p, p + s) and its neighbours become one free block [a, a + t). *)
Definition merged (b1 : list block) (p s : Z) (b2 b1' : list block) (a t : Z) (b2' : list block) : Prop :=
  ((b1' = b1 /\ a = p /\ last_free false b1 = false) \/ (b1 = b1' ++ [mk_block a (p - a) true])) /\
  ((b2' = b2 /\ a + t = p + s) \/ b2 = mk_block (p + s) (a + t - (p + s)) true :: b2').

(** The second half of [free_block]: the test for a free block above. *)
Definition merge_above (prev cur p : Z) (h : heap) : option (Z * heap) :=
  pb ← h !! p;
  cb ← h !! cur;
  Some (if cur =? p + size pb then
          let h := put_magic cur 0 h in
          let h := put_size p (size pb + size cb) h in
          let prev := if cur =? prev then p else prev in
          (prev, put_next prev p h)
        else (cur, h)).

Lemma merge_above_spec lo hi p s b2 cur prev a t b1 h :
  half_freed lo hi p s b2 cur prev a t b1 h ->
  (forall sc, cur = p + s -> sm h cur = Some (sc, GRUB_MM_FREE_MAGIC) -> exists b2', b2 = mk_block cur sc true :: b2') ->
  exists first' h' t' b2', merge_above prev cur a h = Some (first', h') /\
    region_inv h' first' lo hi (b1 ++ mk_block a t' true :: b2') /\
    ((b2' = b2 /\ a + t' = p + s) \/ b2 = mk_block (p + s) (a + t' - (p + s)) true :: b2').
Proof.
  intros H Hhead. destruct (half_freed_cur _ _ _ _ _ _ _ _ _ _ _ H) as (sc & Hc & _).
  pose proof (hf_end _ _ _ _ _ _ _ _ _ _ _ H) as Hend.
  unfold merge_above. rewrite (sm_lookup _ _ _ _ (hf_block _ _ _ _ _ _ _ _ _ _ _ H)). step.
  rewrite (sm_lookup _ _ _ _ Hc). step. cbn [size]. rewrite Hend.
  destruct (Z.eqb_spec cur (p + s)) as [E|E].
  - destruct (Hhead sc E Hc) as [b2' Eb]. rewrite E in Eb. eexists _, _, (t + sc), b2'.
    split; [reflexivity|]. rewrite E in *. split; [by eapply free_above|].
    right. rewrite Eb. do 2 f_equal. lia.
  - eexists _, _, t, b2. split; [reflexivity|]. split; [by eapply free_no_above|]. by left.
Qed.

Lemma no_ring_no_free bs : ring bs = [] -> last_free false bs = false /\ coalesced true bs.
Proof.
  intros E. assert (forall b, b ∈ bs -> bfree b = false) as Hf.
  { intros b Hb. destruct (bfree b) eqn:Eb; [|done]. exfalso.
    assert (baddr b ∈ ring bs) as Hin by (apply ring_in; by exists b). rewrite E in Hin. by apply elem_of_nil in Hin. }
  split.
  - unfold last_free. destruct (last bs) as [b|] eqn:El; [|done]. apply Hf. by apply last_Some_elem_of.
  - clear E. generalize true. induction bs as [|b bs IH]; intros pf; [done|]. cbn.
    rewrite (Hf b) by constructor. split; [apply andb_false_r|]. apply IH. intros c Hc. apply Hf. by constructor.
Qed.

Section FreeBlock.
Context (h : heap) (first lo hi : Z) (b1 b2 : list block) (p s : Z).
Hypothesis Hinv : region_inv h first lo hi (b1 ++ mk_block p s false :: b2).

(** Everything was allocated: the block is the whole ring. *)
Lemma free_into_empty : ring b1 ++ ring b2 = [] ->
  free_block first p h = Some (p, put_next p p (put_magic p GRUB_MM_FREE_MAGIC h)) /\
  region_inv (put_next p p (put_magic p GRUB_MM_FREE_MAGIC h)) p lo hi (b1 ++ mk_block p s true :: b2) /\
  last_free false b1 = false.
Proof.
  intros E0. apply app_eq_nil in E0 as [E1 E2]. pose proof (focus_entry _ _ _ _ _ _ _ _ _ Hinv) as Hp.
  destruct (first_entry _ _ _ _ _ Hinv) as [fs Hfs]; [by rewrite start_ring, E1, E2|].
  destruct (no_ring_no_free b1 E1) as [Hl1 _]. destruct (no_ring_no_free b2 E2) as [_ Hc2].
  destruct (focus_tiles _ _ _ _ _ _ _ _ _ Hinv) as (_ & Hs & _).
  split; [|split; [|done]].
  - unfold free_block. rewrite (sm_lookup _ _ _ _ Hfs). step.
    change (GRUB_MM_ALLOC_MAGIC =? GRUB_MM_ALLOC_MAGIC) with true. reflexivity.
  - eapply (region_replace h first lo hi b1 b2 p s false [mk_block p s true]); try done.
    + constructor; [|done]. unfold entry_ok. cbn [baddr bsize bfree].
      rewrite sm_put_next, sm_put_magic, decide_True by done. by rewrite Hp.
    + intros x Hx. rewrite sm_put_next, sm_put_magic, decide_False by lia. done.
    + rewrite E1, E2. change (ring [mk_block p s true]) with [p]. cbn [app chain path].
      rewrite next_put_next; [by rewrite decide_True|].
      unfold put_magic. rewrite lookup_alter_is_Some. by eapply sm_is_Some.
    + apply coalesced_app. split; [apply (start_coalesced _ _ _ _ _ _ _ _ Hinv)|]. rewrite Hl1. cbn. done.
    + left. rewrite E1, E2. change (ring [mk_block p s true]) with [p]. constructor.
Qed.

(** Otherwise the walk finds the block after which it belongs. *)
Lemma free_position : ring b1 ++ ring b2 <> [] ->
  exists fs prev cur u, h !! first = Some (mk_header (next_of h first) fs GRUB_MM_FREE_MAGIC) /\
    free_loop (S (base.size h)) first (next_of h first) p h = Some (prev, cur) /\
    ring b1 ++ ring b2 = u ++ [cur] /\ prev ∈ ring b1 ++ ring b2 /\ next_of h prev = cur.
Proof.
  intros E0. pose proof (start_ring b1 b2 p s) as Er.
  destruct (focus_tiles _ _ _ _ _ _ _ _ _ Hinv) as (Ht1 & Hs & Ht2).
  destruct (ri_first _ _ _ _ _ Hinv) as [Hf|[E _]].
  2:{ exfalso. apply E0. rewrite Er in E. apply app_eq_nil in E as [-> ->]. done. }
  destruct (ring_from_first _ _ _ _ _ Hinv Hf) as (l & Hpath & Hni & Hlen & Hin & fs & Hfs).
  assert (Forall (fun a => p < a) (ring b2) /\ Forall (fun a => a < p) (ring b1)) as [HP HS].
  { split; apply Forall_forall; intros a Ha.
    - pose proof (ring_bounds _ _ _ _ Ht2 Ha). lia.
    - pose proof (ring_bounds _ _ _ _ Ht1 Ha). lia. }
  pose proof (ri_ring _ _ _ _ _ Hinv) as Hch. rewrite Er in Hch.
  pose proof (ring_sorted _ _ _ (ri_tiles _ _ _ _ _ Hinv)) as Hso. rewrite Er in Hso.
  destruct (exists_last E0) as (u0 & c & Ec).
  destruct (free_loop_spec h (b1 ++ mk_block p s false :: b2) p first l (S (base.size h)) first)
    as (prev & cur & El & Hprev & Hcur & Hnx & Hstop).
  - apply Hinv.
  - done.
  - done.
  - intros a Ha. apply Hin. rewrite !elem_of_cons, elem_of_app, elem_of_cons, elem_of_nil in Ha.
    rewrite elem_of_cons. tauto.
  - exists c. split; [|by eapply last_stops]. assert (c ∈ ring b1 ++ ring b2) as Hc by (rewrite Ec; apply in_snoc).
    assert (c ∈ first :: l) as Hc' by (apply Hin; rewrite Er; rewrite elem_of_app in *; tauto).
    rewrite elem_of_cons in Hc'. rewrite elem_of_app, list_elem_of_singleton. tauto.
  - rewrite Er in Hprev, Hcur. destruct (stop_last _ _ _ _ Hch Hso HP HS cur Hcur Hstop) as [u Hu].
    exists fs, prev, cur, u. split; [by apply sm_lookup|]. split_and!; try done.
    rewrite elem_of_app in *. tauto.
Qed.

(** No block that ends at [p] is free if the one behind [cur] in the ring does not end there. *)
Lemma no_free_below prev cur u sy : ring b1 ++ ring b2 = u ++ [cur] -> prev ∈ ring b1 ++ ring b2 -> next_of h prev = cur ->
  sm h (next_of h cur) = Some (sy, GRUB_MM_FREE_MAGIC) -> next_of h cur + sy <> p -> last_free false b1 = false.
Proof.
  intros Hu Hprev Hnx Hsy Eb. unfold last_free. destruct (last b1) as [[x sx [|]]|] eqn:Ex; [|done..]. exfalso. apply Eb.
  apply last_Some in Ex as [b1' Eb1].
  destruct (half_with_below _ _ _ _ _ _ _ _ _ _ _ Hinv Hu Hprev Hnx _ _ _ Eb1) as (Ex & Hsum & _).
  rewrite Ex in *. pose proof (focus_others _ _ _ _ _ _ _ _ _ Hinv) as [Ho _]. rewrite Eb1 in Ho.
  apply Forall_app in Ho as [_ Ho]. apply Forall_cons in Ho as [Ho _]. unfold entry_ok in Ho. cbn in Ho.
  rewrite Ho in Hsy. injection Hsy as <-. done.
Qed.

Lemma free_block_merges :
  exists first' h' b1' a t b2', free_block first p h = Some (first', h') /\
    region_inv h' first' lo hi (b1' ++ mk_block a t true :: b2') /\ merged b1 p s b2 b1' a t b2'.
Proof.
  destruct (decide (ring b1 ++ ring b2 = [])) as [E0|E0].
  { destruct (free_into_empty E0) as (E & Hinv' & Hl).
    eexists _, _, b1, p, s, b2. split; [exact E|]. split; [exact Hinv'|]. split; left; done. }
  destruct (free_position E0) as (fs & prev & cur & u & Hfs & El & Hu & Hprev & Hnx).
  assert (cur ∈ ring b1 ++ ring b2) as Hcur by (rewrite Hu; apply in_snoc).
  assert (next_of h cur ∈ ring b1 ++ ring b2) as Hy.
  { pose proof (ri_ring _ _ _ _ _ Hinv) as Hch. rewrite start_ring in Hch. apply chain_rot in Hch.
    by apply (chain_next_in _ _ _ Hch). }
  destruct (start_some _ _ _ _ _ _ _ _ Hinv cur Hcur) as (sc & Hsc & _ & _ & Hhead).
  destruct (start_some _ _ _ _ _ _ _ _ Hinv _ Hy) as (sy & Hsy & Hsy0 & Hbelow & _).
  pose proof (inserted_sm _ _ _ _ _ _ _ _ cur Hinv) as Hism.
  pose proof (start_outside _ _ _ _ _ _ _ _ Hinv _ Hy) as Hyp.
  assert (sm (inserted h p cur) (next_of h cur) = Some (sy, GRUB_MM_FREE_MAGIC)) as Hiy
    by (rewrite Hism, decide_False by done; done).
  assert (sm (inserted h p cur) p = Some (s, GRUB_MM_FREE_MAGIC)) as Hip by (rewrite Hism; by rewrite decide_True).
  unfold free_block. rewrite Hfs. step. cbn [magic next].
  change (GRUB_MM_FREE_MAGIC =? GRUB_MM_ALLOC_MAGIC) with false. cbv iota. rewrite El. step.
  rewrite (sm_lookup _ _ _ _ Hsc). step. cbn [next]. fold (inserted h p cur).
  rewrite (sm_lookup _ _ _ _ Hiy). step. rewrite (sm_lookup _ _ _ _ Hip). step. cbn [size].
  destruct (Z.eqb_spec (next_of h cur + sy) p) as [Eb|Eb].
  - destruct (Hbelow Eb) as [b1' Eb1].
    destruct (half_with_below _ _ _ _ _ _ _ _ _ _ _ Hinv Hu Hprev Hnx _ _ _ Eb1) as (_ & Hasa & Hhalf).
    destruct (merge_above_spec _ _ _ _ _ _ _ _ _ _ _ Hhalf) as (first' & h' & t' & b2' & Em & Hinv' & Hm).
    { intros sc' E Hsc'. destruct (Hhead E) as [b2' Eb2]. exists b2'. rewrite Eb2. do 2 f_equal.
      pose proof (hf_above _ _ _ _ _ _ _ _ _ _ _ Hhalf) as Hab. rewrite Eb2 in Hab.
      apply Forall_cons in Hab as [Hab _]. unfold entry_ok in Hab. cbn [baddr] in Hab. rewrite Hsc' in Hab.
      by injection Hab. }
    exists first', h', b1', (next_of h cur), t', b2'. split; [exact Em|]. split; [done|]. split; [|done].
    right. rewrite Eb1. do 4 f_equal. lia.
  - pose proof (no_free_below prev cur u sy Hu Hprev Hnx Hsy Eb) as Hl.
    pose proof (half_without_below _ _ _ _ _ _ _ _ _ _ _ Hinv Hu Hprev Hnx Hl) as Hhalf.
    destruct (merge_above_spec _ _ _ _ _ _ _ _ _ _ _ Hhalf) as (first' & h' & t' & b2' & Em & Hinv' & Hm).
    { intros sc' E Hsc'. destruct (Hhead E) as [b2' Eb2]. exists b2'. rewrite Eb2. do 2 f_equal.
      rewrite Hism, decide_False, Hsc in Hsc' by (destruct (focus_tiles _ _ _ _ _ _ _ _ _ Hinv) as (_ & ? & _); lia).
      by injection Hsc'. }
    exists first', h', b1, p, t', b2'. split; [exact Em|]. split; [done|]. split; [by left|done].
Qed.

Lemma free_block_untouched first' h' : free_block first p h = Some (first', h') ->
  untouched (b1 ++ mk_block p s false :: b2) lo hi h h'.
Proof.
  intros E x Hx. pose proof (ri_tiles _ _ _ _ _ Hinv) as Ht.
  assert (x <> p) as Hxp.
  { apply (untouched_ne _ _ _ (mk_block p s false) _ Ht); [|done]. apply elem_of_app. right. constructor. }
  assert (forall a, a ∈ ring b1 ++ ring b2 -> x <> a) as Hxr.
  { intros a Ha. assert (a ∈ ring (b1 ++ mk_block p s false :: b2)) as Ha'.
    { rewrite start_ring, elem_of_app. rewrite elem_of_app in Ha. tauto. }
    apply ring_in in Ha' as (b & Hb & _ & <-). by apply (untouched_ne _ _ _ _ _ Ht Hb Hx). }
  destruct (decide (ring b1 ++ ring b2 = [])) as [E0|E0].
  { destruct (free_into_empty E0) as (E' & _). rewrite E' in E. injection E as _ <-.
    by rewrite put_next_ne, put_magic_ne. }
  destruct (free_position E0) as (fs & prev & cur & u & Hfs & El & Hu & Hprev & Hnx).
  assert (cur ∈ ring b1 ++ ring b2) as Hcur by (rewrite Hu; apply in_snoc).
  eapply (free_block_same _ _ _ _ _ prev cur); [exact E| |done].
  intros f Hf _. rewrite Hfs in Hf. injection Hf as <-. cbn [next]. split; [exact El|].
  split_and!; apply Hxr; try done. pose proof (ri_ring _ _ _ _ _ Hinv) as Hch. rewrite start_ring in Hch.
  apply chain_rot in Hch. by apply (chain_next_in _ _ _ Hch).
Qed.

Lemma free_block_spec :
  exists first' h' b1' a t b2', free_block first p h = Some (first', h') /\
    region_inv h' first' lo hi (b1' ++ mk_block a t true :: b2') /\ merged b1 p s b2 b1' a t b2' /\
    untouched (b1 ++ mk_block p s false :: b2) lo hi h h'.
Proof.
  destruct free_block_merges as (first' & h' & b1' & a & t & b2' & E & Hi & Hm).
  exists first', h', b1', a, t, b2'. split_and!; try done. by eapply free_block_untouched.
Qed.
End FreeBlock.

(** A region does not see changes outside it. *)
Lemma region_inv_same h h' first lo hi bs : region_inv h first lo hi bs ->
  (forall x, lo <= x < hi -> h' !! x = h !! x) -> region_inv h' first lo hi bs.
Proof.
  intros [Hp Ht He Hr Hf Hc] Hs. constructor; try done.
  - eapply entries_frame; [exact He|]. intros b Hb. pose proof (tiles_in _ _ _ _ Ht Hb).
    unfold sm. by rewrite Hs by lia.
  - eapply chain_ext; [|exact Hr]. intros a Ha. pose proof (ring_bounds _ _ _ _ Ht Ha).
    unfold next_of. by rewrite Hs by lia.
Qed.

End GrubHeap.
