(* ===== verification/GrubMm.v ===== *)
(** The interface of GRUB's memory manager, src/grub/grub-core/kern/mm.c, on 64-bit machines:
    regions, [grub_mm_init_region], [grub_memalign] and its clients, [grub_free] and
    [grub_realloc], on top of the free rings of [GrubHeap].

    Pointers are byte addresses here; headers and region structures are cell-aligned and are
    named by their cell number, [address / 32].  [grub_mm_base] with the [next] links is the
    list of regions in link order.  The bytes of payloads are in [mem]; those of headers are
    in [hdrs], so a copy out of a header cell yields bytes the model says nothing about.
    A call of [grub_fatal] is [None]. *)

From S2P Require Import Prelude GrubStr GrubHeap.

Module GrubMm.
Import GrubStr GrubHeap.

Record region := mk_region {
  r_cell : Z;
  first : Z;
  pre_size : Z;
  post_size : Z;
  r_size : Z
}.

(** [sizeof (struct grub_mm_region)] is two cells. *)
Definition sizeof_region : Z := 64.

Record mm := mk_mm {
  grub_mm_base : list region;
  hdrs : heap;
  mem : Z -> Z;
  mm_errno : grub_err_t
}.

Definition set_first (a : Z) (r : region) : region :=
  mk_region (r_cell r) a (pre_size r) (post_size r) (r_size r).
Definition set_regions (rs : list region) (h : heap) (m : mm) : mm := mk_mm rs h (mem m) (mm_errno m).
Definition set_mem (f : Z -> Z) (m : mm) : mm := mk_mm (grub_mm_base m) (hdrs m) f (mm_errno m).
Definition grub_error (e : grub_err_t) (m : mm) : mm := mk_mm (grub_mm_base m) (hdrs m) (mem m) e.

(** [(r) + 1]. *)
Definition r_start (r : region) : Z := GRUB_MM_ALIGN * r_cell r + sizeof_region.

(** ** [get_header_from_pointer] *)

Fixpoint find_region (ptr : Z) (i : nat) (rs : list region) : option nat :=
  match rs with
  | [] => None
  | r :: rs =>
      if (r_start r <? ptr) && (ptr <=? r_start r + r_size r) then Some i else find_region ptr (S i) rs
  end.

Definition get_header_from_pointer (ptr : Z) (m : mm) : option (Z * nat) :=
  if negb (Z.land ptr (GRUB_MM_ALIGN - 1) =? 0) then None else
  i ← find_region ptr 0 (grub_mm_base m);
  let p := Z.shiftr ptr GRUB_MM_ALIGN_LOG2 - 1 in
  c ← hdrs m !! p;
  if magic c =? GRUB_MM_FREE_MAGIC then None
  else if negb (magic c =? GRUB_MM_ALLOC_MAGIC) then None
  else Some (p, i).

(** ** [grub_free] *)

Definition grub_free (ptr : Z) (m : mm) : option mm :=
  if ptr =? 0 then Some m else
  '(p, i) ← get_header_from_pointer ptr m;
  r ← grub_mm_base m !! i;
  '(a, h) ← free_block (first r) p (hdrs m);
  Some (set_regions (<[i := set_first a r]> (grub_mm_base m)) h m).

(** ** [grub_mm_init_region] *)

Definition align_up (x a : Z) : Z := Z.land (x + (a - 1)) (Z.lnot (a - 1)).

(** [addr + size + q->pre_size == q]: the region takes the memory in at its start. *)
Definition extend_below (addr size : Z) (i : nat) (q : region) (m : mm) : option mm :=
  let r := Z.shiftr (align_up addr GRUB_MM_ALIGN) GRUB_MM_ALIGN_LOG2 in
  let pre := pre_size q + size in
  let n := Z.shiftr pre GRUB_MM_ALIGN_LOG2 in
  if n =? 0 then
    Some (set_regions (<[i := mk_region r (first q) pre (post_size q) (r_size q)]> (grub_mm_base m)) (hdrs m) m)
  else
    let h := r + 2 in
    let r' := mk_region r (first q) (Z.land pre (GRUB_MM_ALIGN - 1)) (post_size q)
                (r_size q + Z.shiftl n GRUB_MM_ALIGN_LOG2) in
    grub_free (GRUB_MM_ALIGN * (h + 1))
      (set_regions (<[i := r']> (grub_mm_base m)) (put_magic_size h GRUB_MM_ALLOC_MAGIC n (hdrs m)) m).

(** [(q + 1) + q->size + q->post_size == addr]: the region takes the memory in at its end. *)
Definition extend_above (addr size : Z) (i : nat) (q : region) (m : mm) : option mm :=
  let h := Z.shiftr (addr - post_size q) GRUB_MM_ALIGN_LOG2 in
  let n := Z.shiftr (size + post_size q) GRUB_MM_ALIGN_LOG2 in
  let q' := mk_region (r_cell q) (first q) (pre_size q)
              (Z.land (post_size q + size) (GRUB_MM_ALIGN - 1))
              (r_size q + Z.shiftl n GRUB_MM_ALIGN_LOG2) in
  grub_free (GRUB_MM_ALIGN * (h + 1))
    (set_regions (<[i := q']> (grub_mm_base m)) (put_magic_size h GRUB_MM_ALLOC_MAGIC n (hdrs m)) m).

(** The loop over the existing regions; [inl]: merged, [inr tt]: no region to merge with. *)
Fixpoint merge_region (addr size : Z) (i : nat) (rs : list region) (m : mm) : option (mm + unit) :=
  match rs with
  | [] => Some (inr tt)
  | q :: rs =>
      if addr + size + pre_size q =? GRUB_MM_ALIGN * r_cell q then inl <$> extend_below addr size i q m
      else if r_start q + r_size q + post_size q =? addr then inl <$> extend_above addr size i q m
      else merge_region addr size (S i) rs m
  end.

(** Smaller regions go before bigger ones. *)
Fixpoint insert_region (r : region) (rs : list region) : list region :=
  match rs with
  | [] => [r]
  | q :: rs' => if r_size r <? r_size q then r :: rs else q :: insert_region r rs'
  end.

Definition new_region (addr size : Z) (m : mm) : mm :=
  let r := Z.shiftr (align_up addr GRUB_MM_ALIGN) GRUB_MM_ALIGN_LOG2 in
  let skip := GRUB_MM_ALIGN * r - addr in
  if size <? GRUB_MM_ALIGN + skip + sizeof_region then m else
  let size := size - (skip + sizeof_region) in
  let h := r + 2 in
  let n := Z.shiftr size GRUB_MM_ALIGN_LOG2 in
  let rsize := Z.shiftl n GRUB_MM_ALIGN_LOG2 in
  let rg := mk_region r h skip (size - rsize) rsize in
  set_regions (insert_region rg (grub_mm_base m)) (<[h := mk_header h n GRUB_MM_FREE_MAGIC]> (hdrs m)) m.

Definition grub_mm_init_region (addr size : Z) (m : mm) : option mm :=
  if u64 (Z.lnot 0x1000) <? addr then Some m else
  let size := if u64 (Z.lnot size) <? u64 (addr + 0x1000) then u64 (- 0x1000 - addr) else size in
  x ← merge_region addr size 0 (grub_mm_base m) m;
  match x with
  | inl m => Some m
  | inr _ => Some (new_region addr size m)
  end.

(** ** Allocation *)

Fixpoint malloc_regions (n align : Z) (i : nat) (rs : list region) (m : mm) : option (option Z * mm) :=
  match rs with
  | [] => Some (None, m)
  | r :: rs =>
      '(p, a, h) ← grub_real_malloc (first r) n align (hdrs m);
      let m := set_regions (<[i := set_first a r]> (grub_mm_base m)) h m in
      match p with
      | Some p => Some (Some p, m)
      | None => malloc_regions n align (S i) rs m
      end
  end.

Definition GRUB_MM_MGMT_OVERHEAD : Z :=
  (GRUB_MM_ALIGN - 1) + sizeof_region + GRUB_MM_ALIGN + (GRUB_MM_ALIGN - 1).
Definition GRUB_MM_HEAP_GROW_ALIGN : Z := 4096.
Definition GRUB_MM_HEAP_GROW_EXTRA : Z := 0x100000.
Definition GRUB_MM_ADD_REGION_NONE : Z := 0.
Definition GRUB_MM_ADD_REGION_CONSECUTIVE : Z := 1.

(** [n] of the code: the cells of a block with [size] bytes of payload. *)
Definition cells (size : Z) : Z := u64 (Z.shiftr (u64 (size + GRUB_MM_ALIGN - 1)) GRUB_MM_ALIGN_LOG2 + 1).

(** The alignment in cells. *)
Definition align_cells (align : Z) : Z :=
  let align := Z.shiftr align GRUB_MM_ALIGN_LOG2 in
  if align =? 0 then 1 else align.

Section Memalign.

(** The callback that adds memory ([None]: not set), and the release of the disk cache. *)
Variable grub_mm_add_region_fn : option (Z -> Z -> mm -> option (grub_err_t * mm)).
Variable grub_disk_cache_invalidate_all : mm -> option mm.

Definition out_of_memory (m : mm) : option (option Z * mm) := Some (None, grub_error ERR_OUT_OF_MEMORY m).

(** The size of the heap growth, [None] when a check fails. *)
Definition heap_growth (grow : Z) : option Z :=
  if 2 ^ 64 <=? grow + GRUB_MM_MGMT_OVERHEAD then None else
  let grow := Z.max (grow + GRUB_MM_MGMT_OVERHEAD) GRUB_MM_HEAP_GROW_EXTRA in
  if u64 (Z.lnot (GRUB_MM_HEAP_GROW_ALIGN - 1)) <? grow then None else
  let grow := align_up grow GRUB_MM_HEAP_GROW_ALIGN in
  if u64 (Z.lnot 0x100000) <? grow then None else Some grow.

(** [again], with [count]; every round raises it, so four rounds are all. *)
Fixpoint memalign_rounds (fuel : nat) (count n align grow : Z) (m : mm) : option (option Z * mm) :=
  match fuel with
  | O => None
  | S fuel =>
      '(p, m) ← malloc_regions n align 0 (grub_mm_base m) m;
      match p with
      | Some p => Some (Some (GRUB_MM_ALIGN * p), m)
      | None =>
          let case2 grow m :=
            m ← grub_disk_cache_invalidate_all m; memalign_rounds fuel 3 n align grow m in
          let case1 grow m :=
            match grub_mm_add_region_fn with
            | Some f => '(_, m) ← f grow GRUB_MM_ADD_REGION_NONE m; memalign_rounds fuel 2 n align grow m
            | None => case2 grow m
            end in
          let case0 m :=
            match heap_growth grow with
            | None => out_of_memory m
            | Some grow =>
                match grub_mm_add_region_fn with
                | Some f =>
                    '(e, m) ← f grow GRUB_MM_ADD_REGION_CONSECUTIVE m;
                    match e with
                    | ERR_NONE => memalign_rounds fuel 1 n align grow m
                    | _ => case1 grow m
                    end
                | None => case1 grow m
                end
            end in
          if count =? 0 then case0 m
          else if count =? 1 then case1 grow m
          else if count =? 2 then case2 grow m
          else out_of_memory m
      end
  end.

Definition grub_memalign (align size : Z) (m : mm) : option (option Z * mm) :=
  let n := cells size in
  match grub_mm_base m with
  | [] => out_of_memory m
  | _ =>
      if u64 (Z.lnot align) <? size then out_of_memory m else
      let grow := size + align in
      if u64 (Z.lnot 0x100000) <? grow then out_of_memory m else
      memalign_rounds 4 0 n (align_cells align) grow m
  end.

Definition grub_malloc (size : Z) (m : mm) : option (option Z * mm) := grub_memalign 0 size m.

(** [grub_memset] and [grub_memcpy] on payload bytes. *)
Definition memset (p v n : Z) (f : Z -> Z) : Z -> Z := fun x => if (p <=? x) && (x <? p + n) then v else f x.
Definition memcpy (q p n : Z) (f : Z -> Z) : Z -> Z := fun x => if (q <=? x) && (x <? q + n) then f (p + (x - q)) else f x.

Definition grub_zalloc (size : Z) (m : mm) : option (option Z * mm) :=
  '(p, m) ← grub_memalign 0 size m;
  match p with
  | Some p => Some (Some p, set_mem (memset p 0 size (mem m)) m)
  | None => Some (None, m)
  end.

Definition grub_calloc (nmemb size : Z) (m : mm) : option (option Z * mm) :=
  if 2 ^ 64 <=? nmemb * size then Some (None, grub_error ERR_OUT_OF_RANGE m) else
  let sz := nmemb * size in
  '(p, m) ← grub_memalign 0 sz m;
  match p with
  | Some p => Some (Some p, set_mem (memset p 0 sz (mem m)) m)
  | None => Some (None, m)
  end.

Definition grub_realloc (ptr size : Z) (m : mm) : option (option Z * mm) :=
  if ptr =? 0 then grub_malloc size m
  else if size =? 0 then m ← grub_free ptr m; Some (None, m)
  else
    let n := cells size in
    '(p, _) ← get_header_from_pointer ptr m;
    c ← hdrs m !! p;
    if n <=? GrubHeap.size c then Some (Some ptr, m) else
    '(q, m) ← grub_malloc size m;
    match q with
    | None => Some (None, m)
    | Some q =>
        c ← hdrs m !! p;
        let m := set_mem (memcpy q ptr (Z.shiftl (GrubHeap.size c) GRUB_MM_ALIGN_LOG2) (mem m)) m in
        m ← grub_free ptr m;
        Some (Some q, m)
    end.

End Memalign.

(** * The invariant of the memory manager *)

Definition r_lo (r : region) : Z := r_cell r + 2.
Definition r_hi (r : region) : Z := r_lo r + r_size r / GRUB_MM_ALIGN.

(** The bytes of a region, with what alignment wastes at both ends. *)
Definition ext_lo (r : region) : Z := GRUB_MM_ALIGN * r_cell r - pre_size r.
Definition ext_hi (r : region) : Z := GRUB_MM_ALIGN * r_hi r + post_size r.

(** The last page of the address space is never used. *)
Definition top : Z := 2 ^ 64 - 0x1000.

Record region_ok (h : heap) (r : region) (bs : list block) : Prop := mk_region_ok {
  ro_inv : region_inv h (first r) (r_lo r) (r_hi r) bs;
  ro_size : r_size r mod GRUB_MM_ALIGN = 0;
  ro_pre : 0 <= pre_size r < GRUB_MM_ALIGN;
  ro_post : 0 <= post_size r < GRUB_MM_ALIGN;
  ro_low : 0 <= ext_lo r;
  ro_high : ext_hi r <= top
}.

Definition apart (r r' : region) : Prop := ext_hi r <= ext_lo r' \/ ext_hi r' <= ext_lo r.

(** [G] lists the blocks of each region. *)
Record mm_inv (m : mm) (G : list (list block)) : Prop := mk_mm_inv {
  mi_len : length (grub_mm_base m) = length G;
  mi_ok : forall i r bs, grub_mm_base m !! i = Some r -> G !! i = Some bs -> region_ok (hdrs m) r bs;
  mi_apart : forall i j r r', grub_mm_base m !! i = Some r -> grub_mm_base m !! j = Some r' -> i <> j -> apart r r'
}.

(** An allocated block with header cell [p] and [s] cells. *)
Definition live (G : list (list block)) (p s : Z) : Prop :=
  exists i bs, G !! i = Some bs /\ mk_block p s false ∈ bs.

Lemma region_get m G i bs : mm_inv m G -> G !! i = Some bs ->
  exists r, grub_mm_base m !! i = Some r /\ region_ok (hdrs m) r bs.
Proof.
  intros Hi Hb. destruct (lookup_lt_is_Some_2 (grub_mm_base m) i) as [r Hr].
  { rewrite (mi_len _ _ Hi). by apply lookup_lt_Some in Hb. }
  exists r. split; [done|]. by apply (mi_ok _ _ Hi i).
Qed.

Lemma blocks_get m G i r : mm_inv m G -> grub_mm_base m !! i = Some r ->
  exists bs, G !! i = Some bs /\ region_ok (hdrs m) r bs.
Proof.
  intros Hi Hr. destruct (lookup_lt_is_Some_2 G i) as [bs Hb].
  { rewrite <- (mi_len _ _ Hi). by apply lookup_lt_Some in Hr. }
  exists bs. split; [done|]. by apply (mi_ok _ _ Hi i).
Qed.

Lemma region_span h r bs : region_ok h r bs ->
  0 <= r_cell r /\ r_lo r <= r_hi r /\ GRUB_MM_ALIGN * (r_hi r - r_lo r) = r_size r /\
  ext_lo r <= GRUB_MM_ALIGN * r_cell r /\ GRUB_MM_ALIGN * r_hi r <= ext_hi r.
Proof.
  intros [Hi Hs Hpre Hpost Hl Hh]. pose proof (tiles_le _ _ _ (ri_tiles _ _ _ _ _ Hi)).
  unfold ext_lo, ext_hi, r_hi, r_lo, GRUB_MM_ALIGN in *. dlia.
Qed.

(** ** Replacing one region *)

Lemma mm_replace m G i r bs r' bs' h' (f : Z -> Z) (e : grub_err_t) : mm_inv m G ->
  grub_mm_base m !! i = Some r -> G !! i = Some bs -> region_ok h' r' bs' ->
  (forall x, ~ r_lo r' <= x < r_hi r' -> h' !! x = hdrs m !! x) ->
  (forall j q, grub_mm_base m !! j = Some q -> i <> j -> apart r' q) ->
  mm_inv (mk_mm (<[i := r']> (grub_mm_base m)) h' f e) (<[i := bs']> G).
Proof.
  intros Hi Hr Hb Hok Hsame Hap. pose proof (lookup_lt_Some _ _ _ Hr) as Hlt.
  pose proof (lookup_lt_Some _ _ _ Hb) as HltG. constructor; cbn [grub_mm_base hdrs].
  - by rewrite !length_insert, (mi_len _ _ Hi).
  - intros j q cs. destruct (decide (i = j)) as [<-|Hne].
    + rewrite !list_lookup_insert_eq by done. by intros [= <-] [= <-].
    + rewrite !list_lookup_insert_ne by done. intros Hq Hc.
      pose proof (mi_ok _ _ Hi _ _ _ Hq Hc) as Hqo. pose proof (region_span _ _ _ Hqo).
      pose proof (region_span _ _ _ Hok). pose proof (Hap _ _ Hq Hne) as Ha.
      destruct Hqo. constructor; try done. eapply region_inv_same; [done|]. intros x Hx. apply Hsame.
      unfold apart, r_lo, GRUB_MM_ALIGN in *. lia.
  - intros j k q q'. destruct (decide (i = j)) as [<-|Hj], (decide (i = k)) as [<-|Hk]; try done.
    + rewrite list_lookup_insert_eq, list_lookup_insert_ne by done. intros [= <-] Hq _. by apply (Hap k).
    + rewrite list_lookup_insert_ne, list_lookup_insert_eq by done. intros Hq [= <-] _.
      destruct (Hap _ _ Hq Hj); [by right|by left].
    + rewrite !list_lookup_insert_ne by done. apply (mi_apart _ _ Hi).
Qed.

(** ** Looking a pointer up *)

Lemma find_region_spec ptr r : forall rs j i, rs !! i = Some r ->
  (forall k q, rs !! k = Some q ->
     (r_start q <? ptr) && (ptr <=? r_start q + r_size q) = bool_decide (k = i)) ->
  find_region ptr j rs = Some (j + i)%nat.
Proof.
  induction rs as [|q rs IH]; intros j i Hr Hk; [done|]. cbn [find_region]. rewrite (Hk 0%nat q eq_refl).
  destruct i as [|i].
  - rewrite bool_decide_true by done. f_equal. lia.
  - rewrite bool_decide_false by done. rewrite (IH (S j) i).
    + f_equal. lia.
    + done.
    + intros k q' Hq'. rewrite (Hk (S k) q' Hq'). apply bool_decide_ext. lia.
Qed.

Lemma cell_shift p : Z.shiftr (GRUB_MM_ALIGN * p) GRUB_MM_ALIGN_LOG2 = p.
Proof. unfold GRUB_MM_ALIGN, GRUB_MM_ALIGN_LOG2. rewrite Z.shiftr_div_pow2 by lia. change (2 ^ 5) with 32. dlia. Qed.

Lemma cell_aligned p : Z.land (GRUB_MM_ALIGN * p) (GRUB_MM_ALIGN - 1) = 0.
Proof.
  unfold GRUB_MM_ALIGN. change (32 - 1) with (Z.ones 5). rewrite Z.land_ones by lia. change (2 ^ 5) with 32. dlia.
Qed.

Lemma find_block m G i r p : mm_inv m G -> grub_mm_base m !! i = Some r -> r_lo r <= p < r_hi r ->
  find_region (GRUB_MM_ALIGN * (p + 1)) 0 (grub_mm_base m) = Some i.
Proof.
  intros Hi Hr Hp. apply (find_region_spec _ r _ 0%nat); [done|]. intros k q Hq.
  destruct (blocks_get _ _ _ _ Hi Hq) as (cs & _ & Hqo). pose proof (region_span _ _ _ Hqo).
  destruct (blocks_get _ _ _ _ Hi Hr) as (bs & _ & Hro). pose proof (region_span _ _ _ Hro).
  unfold r_start, sizeof_region. destruct (decide (k = i)) as [->|Hne].
  - rewrite bool_decide_true by done. rewrite Hr in Hq. injection Hq as <-.
    unfold r_lo, GRUB_MM_ALIGN in *. zres. done.
  - rewrite bool_decide_false by done. pose proof (mi_apart _ _ Hi _ _ _ _ Hq Hr Hne) as Ha.
    unfold apart, r_lo, GRUB_MM_ALIGN in *. apply andb_false_iff. zcase; auto; lia.
Qed.

Lemma get_header m G i r b : mm_inv m G -> grub_mm_base m !! i = Some r -> r_lo r <= baddr b < r_hi r ->
  entry_ok (hdrs m) b ->
  get_header_from_pointer (GRUB_MM_ALIGN * (baddr b + 1)) m = if bfree b then None else Some (baddr b, i).
Proof.
  intros Hi Hr Hp He. unfold get_header_from_pointer. rewrite cell_aligned. cbn [Z.eqb negb].
  rewrite (find_block _ _ _ _ _ Hi Hr Hp). step. rewrite cell_shift.
  replace (baddr b + 1 - 1) with (baddr b) by lia. rewrite (sm_lookup _ _ _ _ He). step. cbn [magic].
  by destruct (bfree b).
Qed.

(** ** The allocated blocks *)

Definition elsewhere (G : list (list block)) (i : nat) (p s : Z) : Prop :=
  exists j bs, j <> i /\ G !! j = Some bs /\ mk_block p s false ∈ bs.

Lemma live_split G i bs p s : G !! i = Some bs ->
  live G p s <-> mk_block p s false ∈ bs \/ elsewhere G i p s.
Proof.
  intros Hb. split.
  - intros (j & cs & Hj & Hin). destruct (decide (j = i)) as [->|Hne].
    + rewrite Hb in Hj. injection Hj as ->. by left.
    + right. by exists j, cs.
  - intros [Hin|(j & cs & _ & Hj & Hin)]; [by exists i, bs|by exists j, cs].
Qed.

Lemma live_replace G i bs bs' p s : G !! i = Some bs ->
  live (<[i := bs']> G) p s <-> mk_block p s false ∈ bs' \/ elsewhere G i p s.
Proof.
  intros Hb. rewrite (live_split _ i bs').
  2: { apply list_lookup_insert_eq. by apply lookup_lt_Some in Hb. }
  unfold elsewhere. f_equiv. split; intros (j & cs & Hne & Hj & Hin); exists j, cs;
    (split; [done|]); [rewrite list_lookup_insert_ne in Hj by done|rewrite list_lookup_insert_ne by done]; done.
Qed.

(** The cells of a block belong to no other block of any region. *)
Lemma block_unique m G i j bs cs b c x : mm_inv m G -> G !! i = Some bs -> G !! j = Some cs -> b ∈ bs -> c ∈ cs ->
  baddr b <= x < baddr b + bsize b -> baddr c <= x < baddr c + bsize c -> i = j /\ b = c.
Proof.
  intros Hi Hb Hc Hbi Hci Hxb Hxc. destruct (region_get _ _ _ _ Hi Hb) as (r & Hr & Hro).
  destruct (region_get _ _ _ _ Hi Hc) as (q & Hq & Hqo).
  pose proof (ri_tiles _ _ _ _ _ (ro_inv _ _ _ Hro)) as Ht. pose proof (tiles_in _ _ _ _ Ht Hbi).
  pose proof (tiles_in _ _ _ _ (ri_tiles _ _ _ _ _ (ro_inv _ _ _ Hqo)) Hci).
  pose proof (region_span _ _ _ Hro). pose proof (region_span _ _ _ Hqo).
  destruct (decide (i = j)) as [->|Hne].
  - split; [done|]. rewrite Hb in Hc. injection Hc as ->. by apply (tiles_same _ _ _ _ _ _ Ht Hbi Hci Hxb).
  - pose proof (mi_apart _ _ Hi _ _ _ _ Hr Hq Hne). unfold apart, r_lo, GRUB_MM_ALIGN in *. lia.
Qed.

(** Allocated blocks do not overlap. *)
Lemma live_disjoint m G p s q t : mm_inv m G -> live G p s -> live G q t ->
  (p = q /\ s = t) \/ p + s <= q \/ q + t <= p.
Proof.
  intros Hi (i & bs & Hb & Hbi) (j & cs & Hc & Hci).
  destruct (decide (p + s <= q \/ q + t <= p)) as [?|Hov]; [by right|]. left.
  assert (0 < s /\ 0 < t) as [? ?].
  { destruct (region_get _ _ _ _ Hi Hb) as (r & _ & [[_ Ht _ _ _ _] _ _ _ _ _]).
    destruct (region_get _ _ _ _ Hi Hc) as (r' & _ & [[_ Ht' _ _ _ _] _ _ _ _ _]).
    pose proof (tiles_in _ _ _ _ Ht Hbi). pose proof (tiles_in _ _ _ _ Ht' Hci). cbn in *. lia. }
  destruct (block_unique _ _ _ _ _ _ _ _ (Z.max p q) Hi Hb Hc Hbi Hci) as [_ E]; cbn; [lia|lia|].
  by injection E.
Qed.

(** A free block is no allocated one. *)
Lemma free_not_live m G i bs b q t x : mm_inv m G -> G !! i = Some bs -> b ∈ bs -> bfree b = true ->
  live G q t -> baddr b <= x < baddr b + bsize b -> ~ q <= x < q + t.
Proof.
  intros Hi Hb Hbi Hf (j & cs & Hc & Hci) Hx Hq.
  destruct (block_unique _ _ _ _ _ _ _ _ x Hi Hb Hc Hbi Hci) as [_ ->]; done.
Qed.

Lemma merged_live b1 p s b2 b1' a t b2' b : merged b1 p s b2 b1' a t b2' -> bfree b = false ->
  b ∈ b1' ++ mk_block a t true :: b2' <-> b ∈ b1 \/ b ∈ b2.
Proof.
  intros [H1 H2] Hf. rewrite elem_of_app, elem_of_cons.
  assert (forall x y, b <> mk_block x y true) as Hn by (intros x y ->; done).
  assert (b ∈ b1 <-> b ∈ b1') as ->.
  { destruct H1 as [(-> & _)| ->]; [done|]. rewrite elem_of_app, list_elem_of_singleton.
    pose proof (Hn a (p - a)). tauto. }
  assert (b ∈ b2 <-> b ∈ b2') as ->.
  { destruct H2 as [(-> & _)| ->]; [done|]. rewrite elem_of_cons.
    pose proof (Hn (p + s) (a + t - (p + s))). tauto. }
  pose proof (Hn a t). tauto.
Qed.

(** ** [grub_free] *)

(** The headers inside payloads of allocated blocks, and the bytes, are as before. *)
Definition payloads_kept (m m' : mm) (G : list (list block)) : Prop :=
  mem m' = mem m /\ forall p s x, live G p s -> p < x < p + s -> hdrs m' !! x = hdrs m !! x.

Lemma untouched_kept m G i r bs m' : mm_inv m G -> grub_mm_base m !! i = Some r -> G !! i = Some bs ->
  untouched bs (r_lo r) (r_hi r) (hdrs m) (hdrs m') -> mem m' = mem m -> payloads_kept m m' G.
Proof.
  intros Hi Hr Hb Hu Hm. split; [done|]. intros p s x Hl Hx. apply Hu.
  apply (live_split _ i bs _ _ Hb) in Hl as [Hin|(j & cs & Hne & Hj & Hin)].
  - right. by exists (mk_block p s false).
  - left. destruct (region_get _ _ _ _ Hi Hj) as (q & Hq & Hqo).
    pose proof (tiles_in _ _ _ _ (ri_tiles _ _ _ _ _ (ro_inv _ _ _ Hqo)) Hin) as Ht. cbn in Ht.
    pose proof (mi_ok _ _ Hi _ _ _ Hr Hb) as Hro.
    pose proof (region_span _ _ _ Hqo). pose proof (region_span _ _ _ Hro).
    pose proof (mi_apart _ _ Hi _ _ _ _ Hq Hr Hne). unfold apart, r_lo, GRUB_MM_ALIGN in *. lia.
Qed.

Lemma region_set_first h h' r bs bs' a : region_ok h r bs -> region_inv h' a (r_lo r) (r_hi r) bs' ->
  region_ok h' (set_first a r) bs'.
Proof. intros [Hi Hs Hp Hq Hl Hh] Hi'. by constructor. Qed.

Lemma grub_free_spec m G i b1 b2 p s : mm_inv m G -> G !! i = Some (b1 ++ mk_block p s false :: b2) ->
  exists m' b1' a t b2', grub_free (GRUB_MM_ALIGN * (p + 1)) m = Some m' /\
    merged b1 p s b2 b1' a t b2' /\ mm_inv m' (<[i := b1' ++ mk_block a t true :: b2']> G) /\
    payloads_kept m m' G /\ mm_errno m' = mm_errno m /\
    (forall q u, live (<[i := b1' ++ mk_block a t true :: b2']> G) q u <-> live G q u /\ q <> p).
Proof.
  intros Hi Hb. destruct (region_get _ _ _ _ Hi Hb) as (r & Hr & Hro).
  pose proof (ro_inv _ _ _ Hro) as Hri. pose proof (region_span _ _ _ Hro) as Hspan.
  assert (mk_block p s false ∈ b1 ++ mk_block p s false :: b2) as Hin by (apply elem_of_app; right; constructor).
  pose proof (tiles_in _ _ _ _ (ri_tiles _ _ _ _ _ Hri) Hin) as Hp. cbn in Hp.
  destruct (free_block_spec _ _ _ _ _ _ _ _ Hri) as (a' & h' & b1' & a & t & b2' & E & Hri' & Hm & Hu).
  exists (set_regions (<[i := set_first a' r]> (grub_mm_base m)) h' m), b1', a, t, b2'. split_and!; try done.
  - unfold grub_free. destruct (Z.eqb_spec (GRUB_MM_ALIGN * (p + 1)) 0) as [E0|_].
    { unfold r_lo, GRUB_MM_ALIGN in *. lia. }
    pose proof (get_header _ _ _ _ (mk_block p s false) Hi Hr) as Hg. cbn [baddr bfree] in Hg. rewrite Hg.
    + step. rewrite Hr. step. rewrite E. by step.
    + lia.
    + pose proof (ri_entries _ _ _ _ _ Hri) as He. rewrite Forall_forall in He. by apply He.
  - apply (mm_replace _ _ _ _ _ _ _ _ _ _ Hi Hr Hb).
    + by eapply region_set_first.
    + intros x Hx. apply Hu. by left.
    + intros j q Hq Hne. exact (mi_apart _ _ Hi i j r q Hr Hq Hne).
  - by apply (untouched_kept _ _ _ _ _ _ Hi Hr Hb).
  - intros q u. rewrite (live_replace _ _ _ _ _ _ Hb), (live_split _ _ _ _ _ Hb).
    rewrite (merged_live _ _ _ _ _ _ _ _ _ Hm) by done. rewrite elem_of_app, elem_of_cons.
    assert (forall c, c ∈ b1 \/ c ∈ b2 -> baddr c <> p) as Hne.
    { intros c Hc. pose proof (focus_outside _ _ _ _ _ _ _ _ _ Hri c Hc). lia. }
    assert (elsewhere G i q u -> q <> p) as Hel.
    { intros (j & cs & Hji & Hj & Hq) ->. destruct (region_get _ _ _ _ Hi Hj) as (r' & _ & [[_ Ht' _ _ _ _] _ _ _ _ _]).
      pose proof (tiles_in _ _ _ _ Ht' Hq). cbn in *.
      destruct (block_unique _ _ _ _ _ _ _ _ p Hi Hj Hb Hq Hin); cbn; lia || done. }
    pose proof (Hne (mk_block q u false)) as Hne'. cbn in Hne'.
    assert (mk_block q u false = mk_block p s false -> q = p) as Heq by (by intros [= ->]). tauto.
Qed.

(** ** The search through the regions *)

Lemma set_regions_same m i r : grub_mm_base m !! i = Some r ->
  set_regions (<[i := set_first (first r) r]> (grub_mm_base m)) (hdrs m) m = m.
Proof. intros Hr. rewrite list_insert_id; [by destruct m|]. rewrite Hr. by destruct r. Qed.

(** No free block has room for [n] cells at the alignment. *)
Definition nothing_fits (n align : Z) (G : list (list block)) : Prop :=
  forall i bs b, G !! i = Some bs -> b ∈ bs -> ~ fits n align b.

(** A new block of [n] cells at [p], out of free memory. *)
Definition allocated (m m' : mm) (G G' : list (list block)) (p n : Z) : Prop :=
  mm_inv m' G' /\ payloads_kept m m' G /\ mm_errno m' = mm_errno m /\
  (forall q t, live G' q t <-> live G q t \/ (q = p /\ t = n)) /\
  (forall q t x, live G q t -> q <= x < q + t -> ~ p <= x < p + n).

Lemma pieces_live cur s e n b : bfree b = false -> b ∈ pieces cur s e n <-> b = mk_block (cur + e) n false.
Proof.
  intros Hf. assert (forall x y, b <> mk_block x y true) as Hn by (intros x y ->; done).
  unfold pieces. rewrite elem_of_app, elem_of_cons.
  assert (forall (c : bool) x y, b ∈ (if c then [] else [mk_block x y true]) <-> False) as Hif.
  { intros [|] x y; [by rewrite elem_of_nil|]. rewrite list_elem_of_singleton. pose proof (Hn x y). tauto. }
  rewrite !Hif. tauto.
Qed.

Lemma malloc_in_region m G i r bs n k : mm_inv m G -> grub_mm_base m !! i = Some r -> G !! i = Some bs ->
  0 < n -> 0 <= k ->
  (exists p a h' G', grub_real_malloc (first r) n (2 ^ k) (hdrs m) = Some (Some (p + 1), a, h') /\
     (p + 1) mod 2 ^ k = 0 /\ allocated m (set_regions (<[i := set_first a r]> (grub_mm_base m)) h' m) G G' p n) \/
  ((forall b, b ∈ bs -> ~ fits n (2 ^ k) b) /\
   grub_real_malloc (first r) n (2 ^ k) (hdrs m) = Some (None, first r, hdrs m)).
Proof.
  intros Hi Hr Hb Hn Hk. pose proof (mi_ok _ _ Hi _ _ _ Hr Hb) as Hro. pose proof (ro_inv _ _ _ Hro) as Hri.
  destruct (real_malloc_spec _ _ _ _ _ n k Hri Hn Hk)
    as [(b1 & b2 & cur & s & e & a & h' & Ebs & He & Hes & Hal & E & Hri' & Hu)|[Hno E]]; [left|right; done].
  exists (cur + e), a, h', (<[i := b1 ++ pieces cur s e n ++ b2]> G). split_and!; try done.
  assert (mk_block cur s true ∈ bs) as Hin by (rewrite Ebs; apply elem_of_app; right; constructor).
  split; [|split; [|split; [done|split]]].
  - apply (mm_replace _ _ _ _ _ _ _ _ _ _ Hi Hr Hb).
    + by eapply region_set_first.
    + intros x Hx. apply Hu. by left.
    + intros j q Hq Hne. exact (mi_apart _ _ Hi i j r q Hr Hq Hne).
  - by apply (untouched_kept _ _ _ _ _ _ Hi Hr Hb).
  - intros q t. rewrite (live_replace _ _ _ _ _ _ Hb), (live_split _ _ _ _ _ Hb), Ebs.
    rewrite !elem_of_app, elem_of_cons, pieces_live by done.
    assert (mk_block q t false = mk_block (cur + e) n false <-> q = cur + e /\ t = n) as ->
      by (split; [by intros [= -> ->]|by intros [-> ->]]).
    assert (mk_block q t false <> mk_block cur s true) by done. tauto.
  - intros q t x Hl Hx Hp. eapply (free_not_live _ _ _ _ _ _ _ x Hi Hb Hin eq_refl Hl); cbn; lia.
Qed.

Lemma malloc_regions_spec m G n k : mm_inv m G -> 0 < n -> 0 <= k ->
  forall rs i, drop i (grub_mm_base m) = rs ->
  (exists p m' G', malloc_regions n (2 ^ k) i rs m = Some (Some (p + 1), m') /\ (p + 1) mod 2 ^ k = 0 /\
     allocated m m' G G' p n) \/
  (malloc_regions n (2 ^ k) i rs m = Some (None, m) /\
   forall j bs b, (i <= j)%nat -> G !! j = Some bs -> b ∈ bs -> ~ fits n (2 ^ k) b).
Proof.
  intros Hi Hn Hk. induction rs as [|r rs IH]; intros i Hd; cbn [malloc_regions].
  { right. split; [done|]. intros j bs b Hj Hb. apply lookup_lt_Some in Hb. rewrite <- (mi_len _ _ Hi) in Hb.
    apply (f_equal length) in Hd. rewrite length_drop in Hd. cbn in Hd. lia. }
  assert (grub_mm_base m !! i = Some r) as Hr.
  { pose proof (lookup_drop (grub_mm_base m) i 0) as Hl. rewrite Hd, Nat.add_0_r in Hl. done. }
  assert (drop (S i) (grub_mm_base m) = rs) as Hd'.
  { rewrite <- Nat.add_1_r, <- drop_drop, Hd. done. }
  destruct (blocks_get _ _ _ _ Hi Hr) as (bs & Hb & _).
  destruct (malloc_in_region _ _ _ _ _ n k Hi Hr Hb Hn Hk) as [(p & a & h' & G' & E & Hal & Ha)|[Hno E]].
  - left. eexists p, _, G'. rewrite E. step. split; [reflexivity|]. done.
  - rewrite E. step. rewrite set_regions_same by done.
    destruct (IH (S i) Hd') as [Hyes|[E' Hno']]; [by left|]. right. split; [done|].
    intros j cs b Hj Hc Hbi. destruct (decide (j = i)) as [->|Hne].
    + rewrite Hb in Hc. injection Hc as <-. by apply Hno.
    + apply (Hno' j cs); [lia|done..].
Qed.

(** ** Adding memory *)

(** The extents of the regions, in list order, and the bytes in them. *)
Definition spans (m : mm) : list (Z * Z) := (fun r => (ext_lo r, ext_hi r)) <$> grub_mm_base m.
Definition covered (l : list (Z * Z)) (x : Z) : Prop := exists i a b, l !! i = Some (a, b) /\ a <= x < b.

(** The bytes [addr, addr + size) are in no region. *)
Definition fresh (addr size : Z) (m : mm) : Prop :=
  forall i r, grub_mm_base m !! i = Some r -> ext_hi r <= addr \/ addr + size <= ext_lo r.

Lemma covered_replace l i a b a' b' x : l !! i = Some (a, b) -> a' <= a -> b <= b' ->
  covered (<[i := (a', b')]> l) x <-> covered l x \/ (a' <= x < b' /\ ~ a <= x < b).
Proof.
  intros Hi Ha Hb. pose proof (lookup_lt_Some _ _ _ Hi) as Hlt. split.
  - intros (j & c & d & Hj & Hx). destruct (decide (i = j)) as [<-|Hne].
    + rewrite list_lookup_insert_eq in Hj by done. injection Hj as <- <-.
      destruct (decide (a <= x < b)); [left; by exists i, a, b|by right].
    + rewrite list_lookup_insert_ne in Hj by done. left. by exists j, c, d.
  - intros [(j & c & d & Hj & Hx)|[Hx _]].
    + destruct (decide (i = j)) as [<-|Hne].
      * exists i, a', b'. rewrite list_lookup_insert_eq by done. rewrite Hi in Hj. injection Hj as <- <-.
        split; [done|lia].
      * exists j, c, d. by rewrite list_lookup_insert_ne.
    + exists i, a', b'. by rewrite list_lookup_insert_eq.
Qed.

Lemma spans_set_first m i r a h : grub_mm_base m !! i = Some r ->
  spans (set_regions (<[i := set_first a r]> (grub_mm_base m)) h m) = spans m.
Proof.
  intros Hr. unfold spans. cbn [grub_mm_base set_regions]. rewrite list_fmap_insert.
  apply list_insert_id. by rewrite list_lookup_fmap, Hr.
Qed.

Lemma grub_free_spans ptr m m' : grub_free ptr m = Some m' -> spans m' = spans m.
Proof.
  unfold grub_free. destruct (ptr =? 0); [by intros [= <-]|].
  destruct (get_header_from_pointer ptr m) as [[p i]|]; [|done]. step.
  destruct (grub_mm_base m !! i) as [r|] eqn:Er; [|done]. step.
  destruct (free_block (first r) p (hdrs m)) as [[a h]|]; [|done]. step.
  intros [= <-]. by apply spans_set_first.
Qed.

Lemma align_up_cell x : Z.shiftr (align_up x GRUB_MM_ALIGN) GRUB_MM_ALIGN_LOG2 = (x + 31) / 32.
Proof.
  unfold align_up, GRUB_MM_ALIGN, GRUB_MM_ALIGN_LOG2. change (32 - 1) with (2 ^ 5 - 1).
  rewrite mask_down by lia. rewrite Z.shiftr_div_pow2 by lia. change (2 ^ 5) with 32.
  change (32 - 1) with 31. dlia.
Qed.

Lemma low_bits x : Z.land x (GRUB_MM_ALIGN - 1) = x mod 32.
Proof. unfold GRUB_MM_ALIGN. change (32 - 1) with (Z.ones 5). by rewrite Z.land_ones by lia. Qed.

Lemma cells_of x : Z.shiftr x GRUB_MM_ALIGN_LOG2 = x / 32.
Proof. unfold GRUB_MM_ALIGN_LOG2. by rewrite Z.shiftr_div_pow2 by lia. Qed.

Lemma bytes_of x : Z.shiftl x GRUB_MM_ALIGN_LOG2 = 32 * x.
Proof. unfold GRUB_MM_ALIGN_LOG2. rewrite Z.shiftl_mul_pow2 by lia. change (2 ^ 5) with 32. lia. Qed.

(** What adding memory promises: the invariant, the same allocated blocks, the new extents. *)
Definition grown (m : mm) (G : list (list block)) (m' : mm) : Prop :=
  exists G', mm_inv m' G' /\ payloads_kept m m' G /\ mm_errno m' = mm_errno m /\
    (forall p s, live G' p s <-> live G p s).

(** A region [q] that becomes [q'], with [n] more cells at [h] as an allocated block, which is
    then freed. *)
Section Donate.
Context (m : mm) (G : list (list block)) (i : nat) (q q' : region) (h n : Z) (d1 d2 : list block).
Hypothesis Hi : mm_inv m G.
Hypothesis Hq : grub_mm_base m !! i = Some q.
Hypothesis Hb : G !! i = Some (d1 ++ d2).
Hypothesis Hout : ~ r_lo q <= h < r_hi q.
Hypothesis Hn : 0 < n.
Hypothesis Hfirst : first q' = first q.
Hypothesis Hsz : r_size q' mod GRUB_MM_ALIGN = 0.
Hypothesis Hpre : 0 <= pre_size q' < GRUB_MM_ALIGN.
Hypothesis Hpost : 0 <= post_size q' < GRUB_MM_ALIGN.
Hypothesis Hlow : 0 <= ext_lo q'.
Hypothesis Hhigh : ext_hi q' <= top.
Hypothesis Ht : tiles (r_lo q') (r_hi q') (d1 ++ mk_block h n false :: d2).
Hypothesis Hap : forall j r, grub_mm_base m !! j = Some r -> i <> j -> apart q' r.

Definition donated : mm :=
  set_regions (<[i := q']> (grub_mm_base m)) (put_magic_size h GRUB_MM_ALLOC_MAGIC n (hdrs m)) m.

Lemma donate_in : mk_block h n false ∈ d1 ++ mk_block h n false :: d2.
Proof. apply elem_of_app. right. constructor. Qed.

Lemma donated_inv : mm_inv donated (<[i := d1 ++ mk_block h n false :: d2]> G).
Proof.
  pose proof (mi_ok _ _ Hi _ _ _ Hq Hb) as Hqo. pose proof (ro_inv _ _ _ Hqo) as [_ Hqt Hqe Hqr Hqf Hqc].
  assert (ring (d1 ++ mk_block h n false :: d2) = ring (d1 ++ d2)) as Er
    by (rewrite !ring_app, ring_cons; by rewrite app_nil_r).
  assert (forall b, b ∈ d1 ++ d2 -> baddr b <> h) as Hne.
  { intros b Hbi. pose proof (tiles_in _ _ _ _ Hqt Hbi). lia. }
  apply (mm_replace _ _ _ _ _ _ _ _ _ _ Hi Hq Hb).
  - constructor; try done. constructor; try done.
    + unfold r_lo, ext_lo, GRUB_MM_ALIGN in *. lia.
    + assert (Forall (entry_ok (put_magic_size h GRUB_MM_ALLOC_MAGIC n (hdrs m))) (d1 ++ d2)) as He.
      { eapply entries_frame; [exact Hqe|]. intros b Hbi. rewrite sm_put_magic_size.
        by rewrite decide_False by (by apply Hne). }
      apply Forall_app in He as [He1 He2]. apply Forall_app. split; [done|]. constructor; [|done].
      unfold entry_ok. cbn. rewrite sm_put_magic_size. by rewrite decide_True.
    + rewrite Er. eapply chain_ext; [|exact Hqr]. intros a _. symmetry. apply next_put_magic_size.
    + rewrite Er, Hfirst. destruct Hqf as [?|[? [s Hs]]]; [by left|right]. split; [done|]. exists s.
      apply elem_of_app. rewrite elem_of_cons. apply elem_of_app in Hs. tauto.
    + apply coalesced_app in Hqc as [Hc1 Hc2]. apply coalesced_app. split; [done|]. cbn.
      split; [apply andb_false_r|]. destruct (last_free false d1); [by apply coalesced_weaken|done].
  - intros x Hx. apply put_magic_size_ne. intros ->. pose proof (tiles_in _ _ _ _ Ht donate_in) as Hh. cbn in Hh. lia.
  - done.
Qed.

Lemma donate_not_live p s x : live G p s -> p <= x < p + s -> h <> x.
Proof.
  intros Hl Hx <-. apply (live_split _ _ _ _ _ Hb) in Hl as [Hl|(j & cs & Hji & Hj & Hl)].
  - pose proof (mi_ok _ _ Hi _ _ _ Hq Hb) as Hqo.
    pose proof (tiles_in _ _ _ _ (ri_tiles _ _ _ _ _ (ro_inv _ _ _ Hqo)) Hl) as Hh. cbn in Hh. lia.
  - pose proof (lookup_lt_Some _ _ _ Hb) as Hlt.
    destruct (block_unique _ _ j i cs (d1 ++ mk_block h n false :: d2) _ _ h donated_inv
      ltac:(by rewrite list_lookup_insert_ne) ltac:(by apply list_lookup_insert_eq) Hl donate_in); cbn; lia || done.
Qed.

Lemma donate : exists m', grub_free (GRUB_MM_ALIGN * (h + 1)) donated = Some m' /\
  grown m G m' /\ spans m' = spans donated.
Proof.
  pose proof (lookup_lt_Some _ _ _ Hb) as Hlt.
  destruct (grub_free_spec _ _ i d1 d2 h n donated_inv ltac:(by apply list_lookup_insert_eq))
    as (m' & b1' & a & t & b2' & E & _ & Hi' & [Hmem Hh] & Herr & Hl).
  assert (forall p s, live (<[i := d1 ++ mk_block h n false :: d2]> G) p s <->
    live G p s \/ (p = h /\ s = n)) as Hl1.
  { intros p s. rewrite (live_replace _ _ _ _ _ _ Hb), (live_split _ _ _ _ _ Hb), !elem_of_app, elem_of_cons.
    assert (mk_block p s false = mk_block h n false <-> p = h /\ s = n) as ->
      by (split; [by intros [= -> ->]|by intros [-> ->]]). tauto. }
  exists m'. split; [done|]. split; [|by apply (grub_free_spans _ _ _ E)].
  eexists. split; [exact Hi'|]. split_and!.
  - split; [exact Hmem|]. intros p s x Hp Hx. rewrite (Hh p s x); [|apply Hl1; by left|done].
    cbn [donated hdrs set_regions]. apply put_magic_size_ne. intros ->. apply (donate_not_live p s h Hp); [lia|done].
  - exact Herr.
  - intros p s. rewrite Hl, Hl1.
    assert (live G p s -> p <> h) as Hne.
    { intros Hp ->. apply (donate_not_live _ _ h Hp); [|done]. destruct Hp as (j & cs & Hj & Hin).
      destruct (region_get _ _ _ _ Hi Hj) as (r' & _ & [[_ Ht' _ _ _ _] _ _ _ _ _]).
      pose proof (tiles_in _ _ _ _ Ht' Hin) as Hs. cbn in Hs. lia. }
    tauto.
Qed.
End Donate.

Lemma apart_grow q q' r addr size : ext_hi r <= addr \/ addr + size <= ext_lo r -> apart q r -> ext_lo r < ext_hi r ->
  (ext_lo q' = addr /\ ext_lo q = addr + size /\ ext_hi q' = ext_hi q) \/
  (ext_hi q = addr /\ ext_hi q' = addr + size /\ ext_lo q' = ext_lo q) -> apart q' r.
Proof. unfold apart. lia. Qed.

Lemma region_nonempty h r bs : region_ok h r bs -> ext_lo r < ext_hi r.
Proof. intros H%region_span. unfold r_lo, GRUB_MM_ALIGN in *. lia. Qed.

Section Extend.
Context (m : mm) (G : list (list block)) (i : nat) (q : region) (addr size : Z).
Hypothesis Hi : mm_inv m G.
Hypothesis Hq : grub_mm_base m !! i = Some q.
Hypothesis Haddr : 0 <= addr.
Hypothesis Hsize : 0 <= size.
Hypothesis Htop : addr + size <= top.
Hypothesis Hfresh : fresh addr size m.

Lemma extend_apart q' :
  (ext_lo q' = addr /\ ext_lo q = addr + size /\ ext_hi q' = ext_hi q) \/
  (ext_hi q = addr /\ ext_hi q' = addr + size /\ ext_lo q' = ext_lo q) ->
  forall j r, grub_mm_base m !! j = Some r -> i <> j -> apart q' r.
Proof.
  intros Hext j r Hr Hne. destruct (blocks_get _ _ _ _ Hi Hr) as (bs & _ & Hro).
  eapply apart_grow; [by apply (Hfresh j)|exact (mi_apart _ _ Hi i j q r Hq Hr Hne)|by eapply region_nonempty|done].
Qed.

Lemma extend_below_spec : addr + size + pre_size q = GRUB_MM_ALIGN * r_cell q ->
  exists m', extend_below addr size i q m = Some m' /\ grown m G m' /\
    spans m' = <[i := (addr, ext_hi q)]> (spans m).
Proof.
  intros Haq. destruct (blocks_get _ _ _ _ Hi Hq) as (bs & Hb & Hqo). pose proof (region_span _ _ _ Hqo) as Hspan.
  destruct (Hqo) as [Hri Hs Hp Hpo Hl Hh]. unfold extend_below. rewrite align_up_cell, cells_of, low_bits, bytes_of.
  set (r := (addr + 31) / 32). set (n := (pre_size q + size) / 32).
  assert (n = r_cell q - r) as En by (unfold n, r, GRUB_MM_ALIGN in *; dlia).
  assert (0 <= 32 * r - addr < 32) as Hr by (unfold r; dlia).
  assert (0 <= n) as Hn by (unfold n; dlia).
  destruct (Z.eqb_spec n 0) as [E0|E0].
  - set (q' := mk_region r (first q) (pre_size q + size) (post_size q) (r_size q)).
    assert (r_cell q' = r_cell q) as Ec by (cbn; lia).
    assert (ext_lo q' = addr) as Elo by (unfold ext_lo; rewrite Ec; cbn; lia).
    assert (ext_hi q' = ext_hi q) as Ehi by (unfold ext_hi, r_hi, r_lo; by rewrite Ec).
    assert (r_lo q' = r_lo q /\ r_hi q' = r_hi q) as [El Er] by (unfold r_hi, r_lo; by rewrite Ec).
    eexists. split; [reflexivity|]. split.
    + exists (<[i := bs]> G). rewrite (list_insert_id G i bs Hb). split_and!; try done.
      rewrite <- (list_insert_id G i bs Hb). apply (mm_replace _ _ _ _ _ _ _ _ _ _ Hi Hq Hb).
      * constructor; rewrite ?El, ?Er, ?Elo, ?Ehi; try done. cbn. unfold GRUB_MM_ALIGN in *. lia.
      * done.
      * apply extend_apart. left. unfold ext_lo at 2. unfold GRUB_MM_ALIGN in *. split_and!; lia || done.
    + unfold spans. cbn [grub_mm_base set_regions]. by rewrite list_fmap_insert, Elo, Ehi.
  - set (q' := mk_region r (first q) ((pre_size q + size) mod 32) (post_size q) (r_size q + 32 * n)).
    assert (r_hi q' = r_hi q) as Er by (unfold r_hi, r_lo, GRUB_MM_ALIGN in *; cbn; dlia).
    assert (ext_lo q' = addr) as Elo by (unfold ext_lo, GRUB_MM_ALIGN in *; cbn; dlia).
    assert (ext_hi q' = ext_hi q) as Ehi by (unfold ext_hi; by rewrite Er).
    destruct (donate m G i q q' (r + 2) n [] bs) as (m' & E & Hg & Hsp); try done.
    + unfold r_lo. lia.
    + lia.
    + cbn. unfold GRUB_MM_ALIGN in *. dlia.
    + cbn. unfold GRUB_MM_ALIGN in *. dlia.
    + by rewrite Elo.
    + by rewrite Ehi.
    + cbn. split; [done|]. split; [lia|]. rewrite Er.
      replace (r_lo q' + n) with (r_lo q) by (unfold r_lo; cbn; lia). apply Hri.
    + apply extend_apart. left. unfold ext_lo at 2. unfold GRUB_MM_ALIGN in *. split_and!; lia || done.
    + exists m'. split; [exact E|]. split; [done|]. rewrite Hsp. unfold spans. cbn [grub_mm_base donated set_regions].
      by rewrite list_fmap_insert, Elo, Ehi.
Qed.

Lemma extend_above_spec : r_start q + r_size q + post_size q = addr -> GRUB_MM_ALIGN <= size + post_size q ->
  exists m', extend_above addr size i q m = Some m' /\ grown m G m' /\
    spans m' = <[i := (ext_lo q, addr + size)]> (spans m).
Proof.
  intros Haq Hbig. destruct (blocks_get _ _ _ _ Hi Hq) as (bs & Hb & Hqo). pose proof (region_span _ _ _ Hqo) as Hspan.
  destruct (Hqo) as [Hri Hs Hp Hpo Hl Hh]. unfold extend_above. rewrite !cells_of, low_bits, bytes_of.
  assert ((addr - post_size q) / 32 = r_hi q) as -> by (unfold r_start, sizeof_region, r_lo, GRUB_MM_ALIGN in *; dlia).
  set (n := (size + post_size q) / 32).
  set (q' := mk_region (r_cell q) (first q) (pre_size q) ((post_size q + size) mod 32) (r_size q + 32 * n)).
  assert (0 < n) as Hn by (unfold n, GRUB_MM_ALIGN in *; dlia).
  assert (r_hi q' = r_hi q + n) as Er by (unfold r_hi, r_lo, GRUB_MM_ALIGN in *; cbn; dlia).
  assert (ext_hi q = addr) as Eq by (unfold ext_hi, r_start, sizeof_region, r_lo, GRUB_MM_ALIGN in *; lia).
  assert (ext_hi q' = addr + size) as Ehi
    by (unfold ext_hi in *; rewrite Er; unfold n, GRUB_MM_ALIGN in *; cbn; dlia).
  rewrite <- (app_nil_r bs) in Hb.
  destruct (donate m G i q q' (r_hi q) n bs []) as (m' & E & Hg & Hsp); try done.
  - lia.
  - cbn. unfold GRUB_MM_ALIGN in *. dlia.
  - cbn. unfold GRUB_MM_ALIGN in *. dlia.
  - by rewrite Ehi.
  - apply tiles_app. exists (r_hi q). split; [apply Hri|]. cbn. by rewrite Er.
  - apply extend_apart. by right.
  - exists m'. split; [exact E|]. split; [done|]. rewrite Hsp. unfold spans. cbn [grub_mm_base donated set_regions].
    rewrite list_fmap_insert, Ehi. done.
Qed.
End Extend.

(** ** A new region *)

Lemma insert_region_app r rs : exists l1 l2, rs = l1 ++ l2 /\ insert_region r rs = l1 ++ r :: l2.
Proof.
  induction rs as [|q rs (l1 & l2 & -> & IH)]; cbn.
  - by exists [], [].
  - destruct (r_size r <? r_size q); [by exists [], (q :: l1 ++ l2)|].
    exists (q :: l1), l2. by rewrite IH.
Qed.

(** Index [i <> length l1] of [l1 ++ x :: l2], as an index of [l1 ++ l2]. *)
Definition unshift (k i : nat) : nat := if decide (i < k)%nat then i else pred i.

Lemma lookup_middle_ne {A} (l1 l2 : list A) x i : i <> length l1 ->
  (l1 ++ x :: l2) !! i = (l1 ++ l2) !! unshift (length l1) i.
Proof.
  intros Hne. unfold unshift. destruct (decide (i < length l1)%nat).
  - by rewrite !lookup_app_l.
  - rewrite !lookup_app_r by lia. replace (i - length l1)%nat with (S (pred i - length l1)) by lia. done.
Qed.

Lemma unshift_inj k i j : i <> k -> j <> k -> unshift k i = unshift k j -> i = j.
Proof. unfold unshift. do 2 case_decide; lia. Qed.

Lemma mm_insert m l1 l2 g1 g2 r bs h' f e : mm_inv m (g1 ++ g2) -> grub_mm_base m = l1 ++ l2 ->
  length l1 = length g1 -> region_ok h' r bs ->
  (forall x, ~ r_lo r <= x < r_hi r -> h' !! x = hdrs m !! x) ->
  (forall j q, grub_mm_base m !! j = Some q -> apart r q) ->
  mm_inv (mk_mm (l1 ++ r :: l2) h' f e) (g1 ++ bs :: g2).
Proof.
  intros Hi Hb Hlen Hok Hsame Hap. constructor; cbn [grub_mm_base hdrs].
  - pose proof (mi_len _ _ Hi) as Hl. rewrite Hb, !length_app in Hl. rewrite !length_app. cbn. lia.
  - intros i q cs. destruct (decide (i = length l1)) as [->|Hne].
    + rewrite list_lookup_middle, Hlen, list_lookup_middle by done. by intros [= <-] [= <-].
    + rewrite lookup_middle_ne by done. rewrite Hlen in Hne |- *. rewrite lookup_middle_ne by done. rewrite <- Hb.
      intros Hq Hc. pose proof (mi_ok _ _ Hi _ _ _ Hq Hc) as Hqo. pose proof (region_span _ _ _ Hqo).
      pose proof (region_span _ _ _ Hok). pose proof (Hap _ _ Hq) as Ha.
      destruct Hqo. constructor; try done. eapply region_inv_same; [done|]. intros x Hx. apply Hsame.
      unfold apart, r_lo, GRUB_MM_ALIGN in *. lia.
  - intros i j q q' Hq Hq' Hij. destruct (decide (i = length l1)) as [->|Hni], (decide (j = length l1)) as [->|Hnj].
    + done.
    + rewrite list_lookup_middle in Hq by done. injection Hq as <-. rewrite lookup_middle_ne, <- Hb in Hq' by done.
      by eapply Hap.
    + rewrite list_lookup_middle in Hq' by done. injection Hq' as <-. rewrite lookup_middle_ne, <- Hb in Hq by done.
      destruct (Hap _ _ Hq); [by right|by left].
    + rewrite lookup_middle_ne, <- Hb in Hq, Hq' by done. eapply (mi_apart _ _ Hi); [exact Hq|exact Hq'|].
      intros E. by apply Hij, (unshift_inj (length l1)).
Qed.

Lemma live_insert_free g1 g2 a s p t : live (g1 ++ [mk_block a s true] :: g2) p t <-> live (g1 ++ g2) p t.
Proof.
  split.
  - intros (i & bs & Hi & Hin). destruct (decide (i = length g1)) as [->|Hne].
    + rewrite list_lookup_middle in Hi by done. injection Hi as <-. by apply list_elem_of_singleton in Hin.
    + rewrite lookup_middle_ne in Hi by done. by eexists _, bs.
  - intros (i & bs & Hi & Hin). destruct (decide (i < length g1)%nat).
    + exists i, bs. rewrite lookup_app_l in Hi |- * by done. done.
    + exists (S i), bs. split; [|done]. rewrite lookup_app_r in Hi by lia. rewrite lookup_app_r by lia.
      by replace (S i - length g1)%nat with (S (i - length g1)) by lia.
Qed.

Lemma covered_insert l1 l2 a b x : covered (l1 ++ (a, b) :: l2) x <-> covered (l1 ++ l2) x \/ a <= x < b.
Proof.
  assert (forall l, covered l x <-> Exists (fun ab => ab.1 <= x < ab.2) l) as Hc.
  { intros l. rewrite Exists_exists. split.
    - intros (i & c & d & Hi & Hx). exists (c, d). split; [by eapply list_elem_of_lookup_2|done].
    - intros ([c d] & Hin & Hx). apply list_elem_of_lookup in Hin as [i Hi]. by exists i, c, d. }
  rewrite !Hc, !Exists_app, Exists_cons. cbn. tauto.
Qed.

Lemma one_ring h a s : next_of h a = a -> chain (next_of h) (ring [mk_block a s true]).
Proof. by intros. Qed.

Lemma new_region_spec m G addr size : mm_inv m G -> 0 <= addr -> addr + size <= top -> fresh addr size m ->
  GRUB_MM_ALIGN + (- addr) mod GRUB_MM_ALIGN + sizeof_region <= size ->
  grown m G (new_region addr size m) /\
  forall x, covered (spans (new_region addr size m)) x <-> covered (spans m) x \/ addr <= x < addr + size.
Proof.
  intros Hi Ha Htop Hfresh Hbig. unfold new_region. rewrite align_up_cell, !cells_of, bytes_of.
  set (r := (addr + 31) / 32) in *. set (skip := GRUB_MM_ALIGN * r - addr) in *.
  assert (skip = (- addr) mod 32) as Hskip by (unfold skip, r, GRUB_MM_ALIGN; dlia).
  unfold GRUB_MM_ALIGN, sizeof_region in *. rewrite <- Hskip in Hbig. zres.
  assert (0 <= skip < 32) as Hs32 by (rewrite Hskip; apply Z.mod_pos_bound; lia).
  set (n := (size - (skip + 64)) / 32). assert (0 < n) as Hn by (unfold n; dlia).
  set (rg := mk_region r (r + 2) skip (size - (skip + 64) - 32 * n) (32 * n)).
  destruct (insert_region_app rg (grub_mm_base m)) as (l1 & l2 & Eb & E). rewrite E.
  assert (ext_lo rg = addr) as Elo by (unfold ext_lo, GRUB_MM_ALIGN; cbn; lia).
  assert (r_hi rg = r + 2 + n) as Er by (unfold r_hi, r_lo, GRUB_MM_ALIGN; cbn; dlia).
  assert (ext_hi rg = addr + size) as Ehi by (unfold ext_hi; rewrite Er; unfold GRUB_MM_ALIGN; cbn; lia).
  pose proof (mi_len _ _ Hi) as Hlen. rewrite Eb, length_app in Hlen.
  rewrite <- (take_drop (length l1) G) in Hi |- *. set (g1 := take _ G) in *. set (g2 := drop _ G) in *.
  assert (length l1 = length g1) as Hlg by (unfold g1; rewrite length_take; lia).
  assert (forall j q, grub_mm_base m !! j = Some q -> apart rg q) as Hap.
  { intros j q Hq. unfold apart. rewrite Elo, Ehi. destruct (Hfresh j q Hq); auto. }
  split.
  - exists (g1 ++ [mk_block (r + 2) n true] :: g2). split_and!.
    + apply (mm_insert m); try done.
      * constructor; try done; unfold GRUB_MM_ALIGN, rg; cbn [r_size pre_size post_size]; [|dlia|unfold n; dlia|fold rg; lia|fold rg; lia]. fold rg.
        constructor; cbn [first rg].
        -- unfold r_lo. cbn. unfold r. dlia.
        -- rewrite Er. by cbn.
        -- constructor; [|done]. unfold entry_ok, sm. cbn. by rewrite lookup_insert_eq.
        -- apply one_ring. rewrite next_insert. by rewrite decide_True.
        -- left. cbn. constructor.
        -- done.
      * intros x Hx. cbn [hdrs set_regions]. apply lookup_insert_ne. unfold r_lo in Hx. rewrite Er in Hx. cbn in Hx. lia.
    + split; [done|]. intros p s x (j & cs & Hj & Hin) Hx. cbn [hdrs set_regions]. apply lookup_insert_ne.
      destruct (region_get _ _ _ _ Hi Hj) as (q & Hq & Hqo).
      pose proof (tiles_in _ _ _ _ (ri_tiles _ _ _ _ _ (ro_inv _ _ _ Hqo)) Hin) as Ht. cbn in Ht.
      pose proof (region_span _ _ _ Hqo). pose proof (Hap _ _ Hq) as Haq. unfold apart in Haq.
      rewrite Elo, Ehi in Haq. unfold r_lo, GRUB_MM_ALIGN in *. lia.
    + done.
    + intros p s. apply live_insert_free.
  - intros x. unfold spans. cbn [grub_mm_base set_regions]. rewrite Eb, !fmap_app, fmap_cons, Elo, Ehi.
    apply covered_insert.
Qed.

(** ** [grub_mm_init_region] *)

(** Memory that starts where a region ends makes at least one cell with the bytes wasted there. *)
Definition no_sliver (addr size : Z) (m : mm) : Prop :=
  forall i r, grub_mm_base m !! i = Some r -> ext_hi r = addr -> GRUB_MM_ALIGN <= size + post_size r.

Lemma region_end h r bs : region_ok h r bs -> r_start r + r_size r + post_size r = ext_hi r.
Proof. intros H%region_span. unfold ext_hi, r_start, sizeof_region, r_lo, GRUB_MM_ALIGN in *. lia. Qed.

Lemma spans_lookup m i r : grub_mm_base m !! i = Some r -> spans m !! i = Some (ext_lo r, ext_hi r).
Proof. intros Hr. unfold spans. by rewrite list_lookup_fmap, Hr. Qed.

Lemma merge_region_spec m G addr size : mm_inv m G -> 0 <= addr -> 0 <= size -> addr + size <= top ->
  fresh addr size m -> no_sliver addr size m ->
  forall rs i, drop i (grub_mm_base m) = rs ->
  (exists m', merge_region addr size i rs m = Some (inl m') /\ grown m G m' /\
     forall x, covered (spans m') x <-> covered (spans m) x \/ addr <= x < addr + size) \/
  merge_region addr size i rs m = Some (inr tt).
Proof.
  intros Hi Ha Hs Htop Hfresh Hns. induction rs as [|q rs IH]; intros i Hd; cbn [merge_region]; [by right|].
  assert (grub_mm_base m !! i = Some q) as Hq.
  { pose proof (lookup_drop (grub_mm_base m) i 0) as Hl. rewrite Hd, Nat.add_0_r in Hl. done. }
  assert (drop (S i) (grub_mm_base m) = rs) as Hd' by (rewrite <- Nat.add_1_r, <- drop_drop, Hd; done).
  destruct (blocks_get _ _ _ _ Hi Hq) as (bs & _ & Hqo). pose proof (region_nonempty _ _ _ Hqo) as Hne.
  rewrite (region_end _ _ _ Hqo). pose proof (spans_lookup _ _ _ Hq) as Hsp.
  destruct (Z.eqb_spec (addr + size + pre_size q) (GRUB_MM_ALIGN * r_cell q)) as [E|_].
  { destruct (extend_below_spec m G i q addr size Hi Hq Ha Hs Hfresh E) as (m' & -> & Hg & Hs').
    left. exists m'. split; [done|]. split; [done|]. intros x. rewrite Hs'.
    assert (ext_lo q = addr + size) as El by (unfold ext_lo; lia).
    rewrite (covered_replace _ _ _ _ _ _ _ Hsp) by lia. rewrite El in *.
    split; (intros [?|?]; [by left|]); [right; lia|]. right. lia. }
  destruct (Z.eqb_spec (ext_hi q) addr) as [E|_]; [|by apply IH].
  destruct (extend_above_spec m G i q addr size Hi Hq Htop Hfresh) as (m' & -> & Hg & Hs').
  - by rewrite (region_end _ _ _ Hqo).
  - by apply (Hns i q).
  - left. exists m'. split; [done|]. split; [done|]. intros x. rewrite Hs'.
    rewrite (covered_replace _ _ _ _ _ _ _ Hsp) by lia. rewrite E in *.
    split; (intros [?|?]; [by left|]); right; lia.
Qed.

(** What is left of the request when the last page is excluded. *)
Definition usable (addr size : Z) : Z := Z.min size (top - addr).

Lemma grown_refl m G : mm_inv m G -> grown m G m.
Proof. intros Hi. exists G. by split_and!. Qed.

Lemma init_region_clamp addr size : 0 <= addr < top -> 0 <= size < 2 ^ 64 ->
  (u64 (Z.lnot 0x1000) <? addr) = false /\
  (if u64 (Z.lnot size) <? u64 (addr + 0x1000) then u64 (- 0x1000 - addr) else size) = usable addr size.
Proof.
  unfold usable, top. intros Ha Hs.
  assert (forall z, 0 <= z < 2 ^ 64 -> u64 (Z.lnot z) = 2 ^ 64 - 1 - z) as Hnot.
  { intros z Hz. unfold Z.lnot, wrap. replace (Z.pred (- z)) with (2 ^ 64 - 1 - z + (-1) * 2 ^ 64) by lia.
    rewrite Z.mod_add by lia. apply Z.mod_small. lia. }
  rewrite !Hnot by (pow2; lia). rewrite (wrap_small 64 (addr + 0x1000)) by (pow2; lia).
  assert (u64 (- 0x1000 - addr) = 2 ^ 64 - 0x1000 - addr) as ->.
  { unfold wrap. replace (- 0x1000 - addr) with (2 ^ 64 - 0x1000 - addr + (-1) * 2 ^ 64) by lia.
    rewrite Z.mod_add by lia. apply Z.mod_small. pow2. lia. }
  pow2. split; zcase; lia || done.
Qed.

Lemma init_region_grows m G addr size : mm_inv m G -> 0 <= addr < 2 ^ 64 -> 0 <= size < 2 ^ 64 ->
  fresh addr (usable addr size) m -> no_sliver addr (usable addr size) m ->
  exists m', grub_mm_init_region addr size m = Some m' /\ grown m G m' /\
    ((m' = m /\ (top <= addr \/
        usable addr size < GRUB_MM_ALIGN + (- addr) mod GRUB_MM_ALIGN + sizeof_region)) \/
     forall x, covered (spans m') x <-> covered (spans m) x \/ addr <= x < addr + usable addr size).
Proof.
  intros Hi Ha Hs Hfresh Hns. unfold grub_mm_init_region. destruct (Z.lt_ge_cases addr top) as [Ht|Ht].
  2: { exists m. split; [|split; [by apply grown_refl|by left; split; [|left]]].
    replace (u64 (Z.lnot 0x1000) <? addr) with true; [done|]. symmetry. apply Z.ltb_lt.
    change (u64 (Z.lnot 0x1000)) with (top - 1). lia. }
  destruct (init_region_clamp addr size) as [E1 E2]; [lia..|]. rewrite E1, E2.
  assert (0 <= usable addr size /\ addr + usable addr size <= top) as [Hu Hut] by (unfold usable; lia).
  destruct (merge_region_spec m G addr _ Hi ltac:(lia) Hu Hut Hfresh Hns _ 0%nat eq_refl)
    as [(m' & E & Hg & Hc)|E]; rewrite drop_0 in E; rewrite E; step.
  - exists m'. split; [done|]. split; [done|by right].
  - eexists. split; [reflexivity|].
    destruct (Z.lt_ge_cases (usable addr size) (GRUB_MM_ALIGN + (- addr) mod GRUB_MM_ALIGN + sizeof_region)) as [Hlt|Hge].
    + assert (new_region addr (usable addr size) m = m) as ->.
      { unfold new_region. rewrite align_up_cell. replace (_ <? _) with true; [done|]. symmetry. apply Z.ltb_lt.
        unfold GRUB_MM_ALIGN in *. dlia. }
      split; [by apply grown_refl|]. left. split; [done|by right].
    + destruct (new_region_spec m G addr _ Hi ltac:(lia) Hut Hfresh Hge) as [Hg Hc]. split; [done|by right].
Qed.

(** ** [grub_memalign] *)

(** The payload of the block is as before. *)
Definition payload_same (m m' : mm) (p s : Z) : Prop :=
  (forall x, p < x < p + s -> hdrs m' !! x = hdrs m !! x) /\
  (forall x, GRUB_MM_ALIGN * (p + 1) <= x < GRUB_MM_ALIGN * (p + s) -> mem m' x = mem m x).

(** Nothing is allocated, and nothing is lost but blocks of [C]. *)
Definition kept (C : Z -> Prop) (m : mm) (G : list (list block)) (m' : mm) (G' : list (list block)) : Prop :=
  mm_inv m' G' /\ (forall p s, live G' p s -> live G p s) /\
  (forall p s, live G p s -> ~ C p -> live G' p s /\ payload_same m m' p s).

(** The same with one new block of [n] cells at [p], apart from all that are kept. *)
Definition got (C : Z -> Prop) (m : mm) (G : list (list block)) (m' : mm) (G' : list (list block)) (p n : Z) : Prop :=
  mm_inv m' G' /\ live G' p n /\ (forall q t, live G' q t -> live G q t \/ (q = p /\ t = n)) /\
  (forall q t, live G q t -> ~ C q -> live G' q t /\ payload_same m m' q t /\ (p + n <= q \/ q + t <= p)).

(** What [grub_memalign] relies on when it asks for memory: the callback that adds regions and
    the disk cache return, keep the manager's invariant and leave every allocated block alone,
    the blocks that the cache owns excepted. *)
Class HeapGrower (C : Z -> Prop) (add : option (Z -> Z -> mm -> option (grub_err_t * mm)))
    (invalidate : mm -> option mm) : Prop := {
  add_region_keeps : forall f grow flags m G, add = Some f -> mm_inv m G ->
    exists e m' G', f grow flags m = Some (e, m') /\ kept C m G m' G';
  invalidate_keeps : forall m G, mm_inv m G -> exists m' G', invalidate m = Some m' /\ kept C m G m' G'
}.

Lemma payload_same_trans m1 m2 m3 p s : payload_same m1 m2 p s -> payload_same m2 m3 p s -> payload_same m1 m3 p s.
Proof. intros [H1 M1] [H2 M2]. split; intros x Hx; [by rewrite H2, H1|by rewrite M2, M1]. Qed.

Lemma kept_error C m G e : mm_inv m G -> kept C m G (grub_error e m) G.
Proof. intros [Hl Ho Ha]. split; [by constructor|]. split; [done|]. intros p s Hp _. split; [done|]. by split. Qed.

Lemma kept_trans C m1 G1 m2 G2 m3 G3 : kept C m1 G1 m2 G2 -> kept C m2 G2 m3 G3 -> kept C m1 G1 m3 G3.
Proof.
  intros (_ & Hb1 & Hk1) (Hi & Hb2 & Hk2). split; [done|]. split; [auto|]. intros p s Hp Hc.
  destruct (Hk1 p s Hp Hc) as [Hp2 Hs]. destruct (Hk2 p s Hp2 Hc) as [Hp3 Hs'].
  split; [done|]. by eapply payload_same_trans.
Qed.

Lemma kept_got C m1 G1 m2 G2 m3 G3 p n : kept C m1 G1 m2 G2 -> got C m2 G2 m3 G3 p n -> got C m1 G1 m3 G3 p n.
Proof.
  intros (_ & Hb1 & Hk1) (Hi & Hl & Hb2 & Hk2). split; [done|]. split; [done|]. split.
  - intros q t Hq. destruct (Hb2 q t Hq); auto.
  - intros q t Hq Hc. destruct (Hk1 q t Hq Hc) as [Hq2 Hs]. destruct (Hk2 q t Hq2 Hc) as (Hq3 & Hs' & Hd).
    split; [done|]. split; [by eapply payload_same_trans|done].
Qed.

Lemma live_pos m G p s : mm_inv m G -> live G p s -> 0 < p /\ 0 < s.
Proof.
  intros Hi (i & bs & Hb & Hin). destruct (region_get _ _ _ _ Hi Hb) as (r & _ & Hro).
  destruct Hro as [[Hp Ht _ _ _ _] _ _ _ _ _]. pose proof (tiles_in _ _ _ _ Ht Hin) as Hs. cbn in Hs. lia.
Qed.

Lemma payload_same_kept m m' G p s : payloads_kept m m' G -> live G p s -> payload_same m m' p s.
Proof. intros [Hm Hh] Hl. split; intros x Hx; [by apply (Hh p s)|by rewrite Hm]. Qed.

Lemma allocated_got C m G m' G' p n : mm_inv m G -> 0 < n -> allocated m m' G G' p n -> got C m G m' G' p n.
Proof.
  intros Hi Hn (Hi' & Hk & _ & Hl & Hd). split; [done|]. split; [apply Hl; by right|]. split; [by intros q t ?%Hl|].
  intros q t Hq _. split; [apply Hl; by left|]. split; [by eapply payload_same_kept|].
  destruct (live_pos _ _ _ _ Hi Hq) as [_ Ht].
  destruct (decide (p + n <= q \/ q + t <= p)) as [?|Hov]; [done|]. exfalso.
  apply (Hd q t (Z.max p q) Hq); lia.
Qed.

Section MemalignSpec.
Context (C : Z -> Prop) (add : option (Z -> Z -> mm -> option (grub_err_t * mm))) (invalidate : mm -> option mm).
Context `{!HeapGrower C add invalidate}.
Context (n k : Z) (Hn : 0 < n) (Hk : 0 <= k).

Definition memalign_result (m : mm) (G : list (list block)) (o : option (option Z * mm)) : Prop :=
  exists r m' G', o = Some (r, m') /\
  match r with
  | Some ptr => exists p, ptr = GRUB_MM_ALIGN * (p + 1) /\ (p + 1) mod 2 ^ k = 0 /\ got C m G m' G' p n
  | None => kept C m G m' G' /\ mm_errno m' = ERR_OUT_OF_MEMORY /\ nothing_fits n (2 ^ k) G'
  end.

Lemma memalign_result_kept m G m1 G1 o : kept C m G m1 G1 -> memalign_result m1 G1 o -> memalign_result m G o.
Proof.
  intros Hkept (r & m' & G' & Ho & Hr). exists r, m', G'. split; [done|]. destruct r as [ptr|].
  - destruct Hr as (p & Hp & Hal & Hg). exists p. split_and!; try done. by eapply kept_got.
  - destruct Hr as (Hk' & He & Hno). split_and!; try done. by eapply kept_trans.
Qed.

Lemma memalign_rounds_spec : forall fuel count grow m G, mm_inv m G ->
  (4 <= Z.of_nat fuel + count) -> 0 <= count <= 3 ->
  memalign_result m G (memalign_rounds add invalidate fuel count n (2 ^ k) grow m).
Proof.
  induction fuel as [|fuel IH]; intros count grow m G Hi Hf Hc; [lia|]. cbn [memalign_rounds].
  pose proof (fun f => add_region_keeps (add := add) f) as Hadd.
  destruct (malloc_regions_spec m G n k Hi Hn Hk _ 0%nat eq_refl) as [(p & m' & G' & E & Hal & Ha)|[E Hno]];
    rewrite drop_0 in E; rewrite E; step.
  { exists (Some (GRUB_MM_ALIGN * (p + 1))), m', G'. split; [done|]. exists p. split_and!; try done.
    by eapply allocated_got. }
  assert (memalign_result m G (out_of_memory m)) as Hoom.
  { exists None, (grub_error ERR_OUT_OF_MEMORY m), G. split; [done|]. split; [by apply kept_error|]. split; [done|].
    intros j bs b. apply Hno. lia. }
  assert (forall c g m1 G1, count < c <= 3 -> kept C m G m1 G1 ->
    memalign_result m G (memalign_rounds add invalidate fuel c n (2 ^ k) g m1)) as Hagain.
  { intros c g m1 G1 Hc' Hkept. eapply memalign_result_kept; [exact Hkept|]. apply IH; [apply Hkept|lia..]. }
  assert (forall g m1 G1, count < 3 -> kept C m G m1 G1 -> memalign_result m G
    (m2 ← invalidate m1; memalign_rounds add invalidate fuel 3 n (2 ^ k) g m2)) as H2.
  { intros g m1 G1 Hc' Hkept. destruct (invalidate_keeps m1 G1) as (m2 & G2 & -> & Hkept2); [apply Hkept|]. step.
    eapply Hagain; [lia|]. by eapply kept_trans. }
  assert (forall g m1 G1, count < 2 -> kept C m G m1 G1 -> memalign_result m G
    match add with
    | Some f => '(_, m2) ← f g GRUB_MM_ADD_REGION_NONE m1; memalign_rounds add invalidate fuel 2 n (2 ^ k) g m2
    | None => m2 ← invalidate m1; memalign_rounds add invalidate fuel 3 n (2 ^ k) g m2
    end) as H1.
  { intros g m1 G1 Hc' Hkept. destruct add as [f|] eqn:Eadd; [|eapply H2; [lia|done]].
    destruct (Hadd f g GRUB_MM_ADD_REGION_NONE m1 G1 eq_refl) as (e & m2 & G2 & -> & Hkept2); [apply Hkept|].
    step. eapply Hagain; [lia|]. by eapply kept_trans. }
  assert (kept C m G m G) as Hrefl by (split_and!; try done; by split_and!).
  destruct (Z.eqb_spec count 0) as [->|]; [|destruct (Z.eqb_spec count 1) as [->|];
    [by eapply H1|destruct (Z.eqb_spec count 2) as [->|]; [by eapply H2|done]]].
  destruct (heap_growth grow) as [g|]; [|done]. destruct add as [f|] eqn:Eadd.
  - destruct (Hadd f g GRUB_MM_ADD_REGION_CONSECUTIVE m G eq_refl) as (e & m1 & G1 & -> & Hkept); [done|].
    step. destruct e; try (by eapply H1). by eapply Hagain.
  - by eapply H1.
Qed.
End MemalignSpec.

(** ** The interface functions *)

Definition alignment (align : Z) : Prop := align = 0 \/ exists j, 0 <= j < 64 /\ align = 2 ^ j.

(** The request is beyond the size the code accepts. *)
Definition too_big (align size : Z) : Prop := 2 ^ 64 - 1 - 0x100000 < size + align.

Lemma lnot64 z : 0 <= z < 2 ^ 64 -> u64 (Z.lnot z) = 2 ^ 64 - 1 - z.
Proof.
  intros Hz. unfold Z.lnot, wrap. replace (Z.pred (- z)) with (2 ^ 64 - 1 - z + (-1) * 2 ^ 64) by lia.
  rewrite Z.mod_add by lia. apply Z.mod_small. lia.
Qed.

Lemma cells_spec size : 0 <= size < 2 ^ 64 - 31 -> 
  cells size = (size + 31) / 32 + 1 /\ size <= GRUB_MM_ALIGN * (cells size - 1) /\ 0 < cells size.
Proof.
  intros Hs. assert (cells size = (size + 31) / 32 + 1) as E.
  { unfold cells. replace (size + GRUB_MM_ALIGN - 1) with (size + 31) by (unfold GRUB_MM_ALIGN; lia).
    rewrite (wrap_small 64 (size + 31)) by (pow2; lia). rewrite cells_of. apply wrap_small. pow2. dlia. }
  rewrite E. unfold GRUB_MM_ALIGN. split; [done|]. dlia.
Qed.

Lemma align_cells_spec align : alignment align ->
  exists k, 0 <= k /\ align_cells align = 2 ^ k /\
    forall p, p mod 2 ^ k = 0 -> align <> 0 -> (GRUB_MM_ALIGN * p) mod align = 0.
Proof.
  unfold align_cells. rewrite cells_of. cbv zeta. unfold GRUB_MM_ALIGN. intros [->|(j & Hj & ->)]; [by exists 0|].
  destruct (Z.lt_ge_cases j 5) as [Hlt|Hge].
  - exists 0. split; [lia|]. rewrite Z.div_small.
    2: { split; [lia|]. change 32 with (2 ^ 5). apply Z.pow_lt_mono_r; lia. }
    split; [done|]. intros p _ _. replace 32 with (2 ^ (5 - j) * 2 ^ j).
    2: { rewrite <- Z.pow_add_r by lia. by replace (5 - j + j) with 5 by lia. }
    replace (2 ^ (5 - j) * 2 ^ j * p) with (2 ^ (5 - j) * p * 2 ^ j) by lia. apply Z.mod_mul. lia.
  - exists (j - 5). split; [lia|]. assert (2 ^ j = 2 ^ (j - 5) * 32) as E.
    { change 32 with (2 ^ 5). rewrite <- Z.pow_add_r by lia. f_equal. lia. }
    rewrite E, Z.div_mul by lia. destruct (Z.eqb_spec (2 ^ (j - 5)) 0); [lia|]. split; [done|].
    intros p Hp _. rewrite Z.mul_comm, Z.mul_mod_distr_r by lia. rewrite Hp. lia.
Qed.

Section Interface.
Context (C : Z -> Prop) (add : option (Z -> Z -> mm -> option (grub_err_t * mm))) (invalidate : mm -> option mm).
Context `{!HeapGrower C add invalidate}.

(** The outcome of an allocation of [size] bytes: a fresh block, or a failure that says so. *)
Definition alloc_outcome (align size : Z) (m : mm) (G : list (list block)) (r : option Z) (m' : mm)
    (G' : list (list block)) : Prop :=
  match r with
  | Some ptr => exists p, ptr = GRUB_MM_ALIGN * (p + 1) /\ (align <> 0 -> ptr mod align = 0) /\
      size <= GRUB_MM_ALIGN * (cells size - 1) /\ got C m G m' G' p (cells size)
  | None => kept C m G m' G' /\ mm_errno m' = ERR_OUT_OF_MEMORY /\
      (grub_mm_base m = [] \/ too_big align size \/ nothing_fits (cells size) (align_cells align) G')
  end.

Lemma memalign_outcome m G align size : mm_inv m G -> alignment align -> 0 <= size < 2 ^ 64 ->
  exists r m' G', grub_memalign add invalidate align size m = Some (r, m') /\ alloc_outcome align size m G r m' G'.
Proof.
  intros Hi Hal Hs. unfold grub_memalign.
  assert (grub_mm_base m = [] \/ too_big align size ->
    exists r m' G', out_of_memory m = Some (r, m') /\ alloc_outcome align size m G r m' G') as Hfail.
  { intros Hw. exists None, (grub_error ERR_OUT_OF_MEMORY m), G. split; [done|]. split; [by apply kept_error|].
    split; [done|]. tauto. }
  assert (0 <= align < 2 ^ 64) as Ha.
  { destruct Hal as [->|(j & Hj & ->)]; [lia|]. split; [lia|]. apply Z.pow_lt_mono_r; lia. }
  destruct (grub_mm_base m) as [|r0 rs] eqn:Eb; [apply Hfail; by left|].
  rewrite !lnot64 by (pow2; lia). destruct (Z.ltb_spec (2 ^ 64 - 1 - align) size) as [Hbig|Hb1].
  { apply Hfail. right. unfold too_big. lia. }
  destruct (Z.ltb_spec (2 ^ 64 - 1 - 0x100000) (size + align)) as [Hbig|Hb2]; [apply Hfail; by right|].
  destruct (cells_spec size) as (_ & Hcap & Hpos); [lia|].
  destruct (align_cells_spec align Hal) as (k & Hk & Ek & Hmod). unfold alloc_outcome. rewrite Ek.
  destruct (memalign_rounds_spec C add invalidate (cells size) k Hpos Hk 4 0 (size + align) m G Hi)
    as (r & m' & G' & E & Hr); [lia..|].
  exists r, m', G'. split; [exact E|]. destruct r as [ptr|].
  - destruct Hr as (p & -> & Hp & Hg). exists p. split_and!; try done. by apply Hmod.
  - destruct Hr as (Hkept & He & Hno). split_and!; try done. auto.
Qed.
End Interface.

(** ** Writing payloads *)

Lemma set_mem_inv m G f : mm_inv m G -> mm_inv (set_mem f m) G.
Proof. intros [Hl Ho Ha]. by constructor. Qed.

(** A write inside the new block leaves the others alone. *)
Lemma got_write C m G m' G' p n f : got C m G m' G' p n ->
  (forall x, ~ GRUB_MM_ALIGN * (p + 1) <= x < GRUB_MM_ALIGN * (p + n) -> f x = mem m' x) ->
  got C m G (set_mem f m') G' p n.
Proof.
  intros (Hi & Hl & Hb & Hk) Hf. split; [by apply set_mem_inv|]. split; [done|]. split; [done|].
  intros q t Hq Hc. destruct (Hk q t Hq Hc) as (Hq' & [Hh Hm] & Hd). split; [done|]. split; [|done].
  split; [done|]. intros x Hx. cbn [mem set_mem]. rewrite Hf; [by apply Hm|]. unfold GRUB_MM_ALIGN in *. lia.
Qed.

(** The block at [p] is released. *)
Definition freed (m : mm) (G : list (list block)) (m' : mm) (G' : list (list block)) (p : Z) : Prop :=
  mm_inv m' G' /\ payloads_kept m m' G /\ (forall q t, live G' q t <-> live G q t /\ q <> p).

Lemma live_header m G p s : mm_inv m G -> live G p s ->
  exists i, get_header_from_pointer (GRUB_MM_ALIGN * (p + 1)) m = Some (p, i) /\
    exists c, hdrs m !! p = Some c /\ GrubHeap.size c = s.
Proof.
  intros Hi (i & bs & Hb & Hin). destruct (region_get _ _ _ _ Hi Hb) as (r & Hr & Hro).
  pose proof (ro_inv _ _ _ Hro) as Hri. pose proof (tiles_in _ _ _ _ (ri_tiles _ _ _ _ _ Hri) Hin) as Ht. cbn in Ht.
  pose proof (ri_entries _ _ _ _ _ Hri) as He. rewrite Forall_forall in He. specialize (He _ Hin).
  exists i. split.
  - apply (get_header _ _ _ _ (mk_block p s false) Hi Hr); [cbn; lia|done].
  - eexists. split; [exact (sm_lookup _ _ _ _ He)|done].
Qed.

Lemma free_outcome m G p s : mm_inv m G -> live G p s ->
  exists m' G', grub_free (GRUB_MM_ALIGN * (p + 1)) m = Some m' /\ freed m G m' G' p.
Proof.
  intros Hi (i & bs & Hb & Hin). apply list_elem_of_split in Hin as (b1 & b2 & ->).
  destruct (grub_free_spec _ _ _ _ _ _ _ Hi Hb) as (m' & b1' & a & t & b2' & E & _ & Hi' & Hk & _ & Hl).
  exists m'. eexists. split; [exact E|]. by split_and!.
Qed.

Section Realloc.
Context (C : Z -> Prop) (add : option (Z -> Z -> mm -> option (grub_err_t * mm))) (invalidate : mm -> option mm).
Context `{!HeapGrower C add invalidate}.
Context (m : mm) (G : list (list block)) (p s : Z).
Hypothesis Hi : mm_inv m G.
Hypothesis Hl : live G p s.
Hypothesis Hc : ~ C p.

(** The new block [pq] of [n] cells starts with the payload of the old one, which is gone. *)
Definition moved (m' : mm) (G' : list (list block)) (pq n : Z) : Prop :=
  mm_inv m' G' /\ live G' pq n /\ (forall q t, live G' q t -> (live G q t /\ q <> p) \/ (q = pq /\ t = n)) /\
  (forall q t, live G q t -> ~ C q -> q <> p ->
     live G' q t /\ payload_same m m' q t /\ (pq + n <= q \/ q + t <= pq)) /\
  (forall x, 0 <= x < GRUB_MM_ALIGN * (s - 1) ->
     mem m' (GRUB_MM_ALIGN * (pq + 1) + x) = mem m (GRUB_MM_ALIGN * (p + 1) + x)).

Definition realloc_outcome (size : Z) (r : option Z) (m' : mm) (G' : list (list block)) : Prop :=
  (size = 0 /\ r = None /\ freed m G m' G' p) \/
  (0 < size <= GRUB_MM_ALIGN * (s - 1) /\ r = Some (GRUB_MM_ALIGN * (p + 1)) /\ m' = m /\ G' = G) \/
  (GRUB_MM_ALIGN * (s - 1) < size /\
   match r with
   | None => kept C m G m' G' /\ mm_errno m' = ERR_OUT_OF_MEMORY
   | Some q => exists pq, q = GRUB_MM_ALIGN * (pq + 1) /\ size <= GRUB_MM_ALIGN * (cells size - 1) /\
                 moved m' G' pq (cells size)
   end).

Lemma copy_moved m1 G1 pq n m2 G2 : s < n -> got C m G m1 G1 pq n ->
  freed (set_mem (memcpy (GRUB_MM_ALIGN * (pq + 1)) (GRUB_MM_ALIGN * (p + 1)) (Z.shiftl s GRUB_MM_ALIGN_LOG2) (mem m1)) m1)
    G1 m2 G2 p -> moved m2 G2 pq n.
Proof.
  rewrite bytes_of. intros Hsn Hg Hf. destruct (live_pos _ _ _ _ Hi Hl) as [_ Hs0].
  assert (live G1 p s /\ payload_same m m1 p s /\ (pq + n <= p \/ p + s <= pq)) as (Hp1 & [_ Hmp] & Hd)
    by (by apply (proj2 (proj2 (proj2 Hg)))).
  assert (got C m G (set_mem (memcpy (GRUB_MM_ALIGN * (pq + 1)) (GRUB_MM_ALIGN * (p + 1)) (32 * s) (mem m1)) m1) G1 pq n)
    as (_ & Hq1 & Hb & Hk).
  { apply got_write; [done|]. intros x Hx. unfold memcpy, GRUB_MM_ALIGN in *. zcase; lia || done. }
  destruct Hf as (Hi2 & Hkept & Hlive). assert (pq <> p) as Hne by lia.
  split; [done|]. split; [by apply Hlive|]. split; [|split].
  - intros q t Hq. apply Hlive in Hq as [Hq Hqp]. destruct (Hb q t Hq); [left|right]; done.
  - intros q t Hq Hqc Hqp. destruct (Hk q t Hq Hqc) as (Hq' & Hs' & Hd'). split; [by apply Hlive|]. split; [|done].
    eapply payload_same_trans; [exact Hs'|]. by eapply payload_same_kept.
  - intros x Hx. destruct Hkept as [-> _]. cbn [mem set_mem]. unfold memcpy, GRUB_MM_ALIGN in *. zres.
    rewrite Hmp by lia. f_equal. lia.
Qed.

Lemma realloc_spec size : 0 <= size < 2 ^ 64 - 31 ->
  exists r m' G', grub_realloc add invalidate (GRUB_MM_ALIGN * (p + 1)) size m = Some (r, m') /\
    realloc_outcome size r m' G'.
Proof.
  intros Hsz. destruct (live_pos _ _ _ _ Hi Hl) as [Hp0 Hs0]. unfold grub_realloc.
  destruct (Z.eqb_spec (GRUB_MM_ALIGN * (p + 1)) 0) as [E0|_]; [unfold GRUB_MM_ALIGN in *; lia|].
  destruct (Z.eqb_spec size 0) as [->|Hne].
  { destruct (free_outcome _ _ _ _ Hi Hl) as (m' & G' & -> & Hf). exists None, m', G'. split; [done|]. by left. }
  destruct (live_header _ _ _ _ Hi Hl) as (i & -> & c & Hh & Hcs). step. rewrite Hh. step. rewrite Hcs.
  destruct (cells_spec size) as (Ec & Hcap & _); [done|].
  destruct (Z.leb_spec (cells size) s) as [Hle|Hgt].
  { exists (Some (GRUB_MM_ALIGN * (p + 1))), m, G. split; [done|]. right. left. split; [|done].
    unfold GRUB_MM_ALIGN in *. lia. }
  assert (GRUB_MM_ALIGN * (s - 1) < size) as Hgrow by (rewrite Ec in Hgt; unfold GRUB_MM_ALIGN; dlia).
  unfold grub_malloc. destruct (memalign_outcome C add invalidate m G 0 size) as (r & m1 & G1 & -> & Hr);
    [done|by left|lia|]. step. destruct r as [q|].
  2: { destruct Hr as (Hk & He & _). exists None, m1, G1. split; [done|]. right. right. done. }
  destruct Hr as (pq & -> & _ & _ & Hg).
  destruct (proj2 (proj2 (proj2 Hg)) p s Hl Hc) as (Hl1 & _ & _).
  destruct (live_header _ _ _ _ (proj1 Hg) Hl1) as (i1 & _ & c1 & Hh1 & Hcs1). rewrite Hh1. step. rewrite Hcs1.
  match goal with |- context [grub_free _ (set_mem ?f m1)] =>
    destruct (free_outcome _ _ _ _ (set_mem_inv m1 G1 f (proj1 Hg)) Hl1) as (m2 & G2 & -> & Hf) end. step.
  exists (Some (GRUB_MM_ALIGN * (pq + 1))), m2, G2. split; [done|]. right. right. split; [done|].
  exists pq. split; [done|]. split; [done|]. by eapply copy_moved.
Qed.
End Realloc.

End GrubMm.
