(* ===== verification/GrubSession.v ===== *)
(** Clients of GRUB's memory manager: what any well-behaved sequence of calls to the interface
    of [GrubMm] (src/grub/grub-core/kern/mm.c) gets, whatever the order of the calls, and the
    two callbacks the manager asks for memory. *)

From S2P Require Import Prelude GrubStr GrubHeap GrubMm.

Module GrubSession.
Import GrubStr GrubHeap GrubMm.

(** * Ways to get memory *)

(** The disk cache owns no block. *)
Definition nobody : Z -> Prop := fun _ => False.

Lemma not_nobody p : ~ nobody p.
Proof. by intros []. Qed.

(** No callback is set, and no disk is cached. *)
#[export] Instance no_growth : HeapGrower nobody None Some.
Proof.
  constructor; [done|]. intros m G Hi. exists m, G. split; [done|]. by split_and!.
Qed.

(** A callback with one piece of memory to give, through [grub_mm_init_region]. *)
Definition freshb (addr size : Z) (m : mm) : bool :=
  forallb (fun r => (ext_hi r <=? addr) || (addr + size <=? ext_lo r)) (grub_mm_base m).

Definition no_sliverb (addr size : Z) (m : mm) : bool :=
  forallb (fun r => negb (ext_hi r =? addr) || (GRUB_MM_ALIGN <=? size + post_size r)) (grub_mm_base m).

Definition add_pool (addr size : Z) (grow flags : Z) (m : mm) : option (grub_err_t * mm) :=
  if freshb addr (usable addr size) m && no_sliverb addr (usable addr size) m then
    m ← grub_mm_init_region addr size m; Some (ERR_NONE, m)
  else Some (ERR_OUT_OF_MEMORY, m).

Lemma freshb_spec addr size m : freshb addr size m = true -> fresh addr size m.
Proof.
  unfold freshb. rewrite forallb_forall. intros H i r Hr.
  specialize (H r (proj1 (list_elem_of_In _ _) (list_elem_of_lookup_2 _ _ _ Hr))). cbn in H.
  apply orb_true_iff in H as [H%Z.leb_le|H%Z.leb_le]; auto.
Qed.

Lemma no_sliverb_spec addr size m : no_sliverb addr size m = true -> no_sliver addr size m.
Proof.
  unfold no_sliverb. rewrite forallb_forall. intros H i r Hr E.
  specialize (H r (proj1 (list_elem_of_In _ _) (list_elem_of_lookup_2 _ _ _ Hr))). cbn in H.
  rewrite (proj2 (Z.eqb_eq _ _) E) in H. cbn in H. by apply Z.leb_le in H.
Qed.

Lemma grown_kept C m G m' : grown m G m' -> exists G', kept C m G m' G'.
Proof.
  intros (G' & Hi & Hk & _ & Hl). exists G'. split; [done|]. split; [by intros p s ?%Hl|].
  intros p s Hp _. split; [by apply Hl|]. by eapply payload_same_kept.
Qed.

#[export] Instance pool_growth C addr size (Ha : 0 <= addr < 2 ^ 64) (Hs : 0 <= size < 2 ^ 64) :
  HeapGrower C (Some (add_pool addr size)) Some.
Proof.
  assert (forall m G, mm_inv m G -> kept C m G m G) as Hrefl.
  { intros m G Hi. by split_and!. }
  constructor; [|by intros m G Hi; exists m, G; split; [|apply Hrefl]].
  intros f grow flags m G [= <-] Hi. unfold add_pool.
  destruct (freshb addr (usable addr size) m && no_sliverb addr (usable addr size) m) eqn:E.
  - apply andb_true_iff in E as [Hf Hn].
    destruct (init_region_grows m G addr size Hi Ha Hs (freshb_spec _ _ _ Hf) (no_sliverb_spec _ _ _ Hn))
      as (m' & -> & Hg & _). step. destruct (grown_kept C _ _ _ Hg) as [G' Hk]. by exists ERR_NONE, m', G'.
  - exists ERR_OUT_OF_MEMORY, m, G. split; [done|]. by apply Hrefl.
Qed.

(** * Sessions *)

(** Requests of a client; the blocks it holds are numbered. *)
Inductive request :=
| RMemalign (align size : Z)
| RCalloc (nmemb size : Z)
| RRealloc (i : nat) (size : Z)
| RFree (i : nat).

(** The pointers the client holds, with the sizes it asked for. *)
Abbreviation held := (list (Z * Z)).

Section Session.
Variable add : option (Z -> Z -> mm -> option (grub_err_t * mm)).
Variable invalidate : mm -> option mm.

Definition keep (r : option Z) (size : Z) (l : held) : held :=
  match r with Some p => (p, size) :: l | None => l end.

Definition serve (q : request) (m : mm) (l : held) : option (mm * held) :=
  match q with
  | RMemalign align size =>
      '(r, m) ← grub_memalign add invalidate align size m; Some (m, keep r size l)
  | RCalloc nmemb size =>
      '(r, m) ← grub_calloc add invalidate nmemb size m; Some (m, keep r (nmemb * size) l)
  | RRealloc i size =>
      match l !! i with
      | None => Some (m, l)
      | Some (p, _) =>
          '(r, m) ← grub_realloc add invalidate p size m;
          Some (m, match r with
                   | Some q => (q, size) :: delete i l
                   | None => if size =? 0 then delete i l else l
                   end)
      end
  | RFree i =>
      match l !! i with
      | None => Some (m, l)
      | Some (p, _) => m ← grub_free p m; Some (m, delete i l)
      end
  end.

Fixpoint session (qs : list request) (m : mm) (l : held) : option (mm * held) :=
  match qs with
  | [] => Some (m, l)
  | q :: qs => '(m, l) ← serve q m l; session qs m l
  end.
End Session.

(** Sizes of 64 bits; those of [grub_realloc] small enough to be rounded up to cells. *)
Definition valid (q : request) : Prop :=
  match q with
  | RMemalign align size => alignment align /\ 0 <= size < 2 ^ 64
  | RCalloc nmemb size => 0 <= nmemb < 2 ^ 64 /\ 0 <= size < 2 ^ 64
  | RRealloc _ size => 0 <= size < 2 ^ 64 - 31
  | RFree _ => True
  end.

(** What the client holds are the allocated blocks, each once and each big enough. *)
Definition holds (G : list (list block)) (c : Z * Z) : Prop :=
  exists p s, c.1 = GRUB_MM_ALIGN * (p + 1) /\ live G p s /\ c.2 <= GRUB_MM_ALIGN * (s - 1).

Record session_inv (m : mm) (G : list (list block)) (l : held) : Prop := mk_session_inv {
  si_inv : mm_inv m G;
  si_nodup : NoDup l.*1;
  si_holds : Forall (holds G) l;
  si_live : forall p s, live G p s -> GRUB_MM_ALIGN * (p + 1) ∈ l.*1
}.

Lemma session_perm m G l l' : l ≡ₚ l' -> session_inv m G l -> session_inv m G l'.
Proof.
  intros Hp [Hi Hn Hh Hl]. constructor; [done|by rewrite <- Hp|by rewrite <- Hp|].
  intros p s Hps. rewrite <- Hp. by apply (Hl p s).
Qed.

(** The block of a pointer that is held. *)
Lemma held_block m G l c : session_inv m G l -> c ∈ l ->
  exists p s, c = (GRUB_MM_ALIGN * (p + 1), c.2) /\ live G p s /\ c.2 <= GRUB_MM_ALIGN * (s - 1).
Proof.
  intros Hs Hc. pose proof (si_holds _ _ _ Hs) as Hh. rewrite Forall_forall in Hh.
  destruct (Hh c Hc) as (p & s & Hp & Hl & Hcap). exists p, s. split; [|done]. destruct c; cbn in *. by rewrite Hp.
Qed.

Lemma pointer_inj p q : GRUB_MM_ALIGN * (p + 1) = GRUB_MM_ALIGN * (q + 1) -> p = q.
Proof. unfold GRUB_MM_ALIGN. lia. Qed.

Lemma kept_session m G l m' G' : session_inv m G l -> kept nobody m G m' G' -> session_inv m' G' l.
Proof.
  intros [Hi Hn Hh Hl] (Hi' & Hb & Hk). constructor; [done|done| |].
  - eapply Forall_impl; [exact Hh|]. intros c (p & s & Hp & Hps & Hc). exists p, s. split_and!; try done.
    by apply (Hk p s Hps (not_nobody p)).
  - intros p s Hps. by apply (Hl p s), Hb.
Qed.

Lemma got_session m G l m' G' p n size : session_inv m G l -> got nobody m G m' G' p n ->
  size <= GRUB_MM_ALIGN * (n - 1) -> session_inv m' G' ((GRUB_MM_ALIGN * (p + 1), size) :: l).
Proof.
  intros [Hi Hn Hh Hl] (Hi' & Hp & Hb & Hk) Hsize. destruct (live_pos _ _ _ _ Hi' Hp) as [_ Hn0].
  constructor; [done| | |].
  - rewrite fmap_cons. constructor; [|done]. intros (c & Hc & Hin)%list_elem_of_fmap.
    rewrite Forall_forall in Hh. destruct (Hh c Hin) as (q & s & Hq & Hqs & _). rewrite Hq in Hc. cbn in Hc.
    apply pointer_inj in Hc as ->. destruct (Hk q s Hqs (not_nobody q)) as (_ & _ & Hd).
    destruct (live_pos _ _ _ _ Hi Hqs). lia.
  - constructor; [by exists p, n|]. eapply Forall_impl; [exact Hh|]. intros c (q & s & Hq & Hqs & Hc).
    exists q, s. split_and!; try done. by apply (Hk q s Hqs (not_nobody q)).
  - intros q t Hq. rewrite fmap_cons, elem_of_cons. destruct (Hb q t Hq) as [Hq'|[-> _]]; [right|by left].
    by apply (Hl q t).
Qed.

Lemma freed_session m G l m' G' p c : session_inv m G (c :: l) -> c.1 = GRUB_MM_ALIGN * (p + 1) ->
  freed m G m' G' p -> session_inv m' G' l.
Proof.
  intros [Hi Hn Hh Hl] Hc (Hi' & _ & Hlive). rewrite fmap_cons in Hn. apply NoDup_cons in Hn as [Hni Hn].
  apply Forall_cons in Hh as [_ Hh]. constructor; [done|done| |].
  - apply Forall_forall. intros d Hd. rewrite Forall_forall in Hh. destruct (Hh d Hd) as (q & s & Hq & Hqs & Hcap).
    exists q, s. split_and!; try done. apply Hlive. split; [done|]. intros ->. apply Hni. rewrite Hc, <- Hq.
    apply list_elem_of_fmap. by exists d.
  - intros q t [Hq Hqp]%Hlive. pose proof (Hl q t Hq) as Hin. rewrite fmap_cons, Hc, elem_of_cons in Hin.
    destruct Hin as [E|?]; [|done]. by apply pointer_inj in E.
Qed.

Lemma moved_session m G l m' G' p s c pq n size : session_inv m G (c :: l) -> c.1 = GRUB_MM_ALIGN * (p + 1) ->
  live G p s -> moved nobody m G p s m' G' pq n -> size <= GRUB_MM_ALIGN * (n - 1) ->
  session_inv m' G' ((GRUB_MM_ALIGN * (pq + 1), size) :: l).
Proof.
  intros [Hi Hn Hh Hl] Hc Hps (Hi' & Hq & Hb & Hk & _) Hsize. rewrite fmap_cons in Hn.
  apply NoDup_cons in Hn as [Hni Hn]. apply Forall_cons in Hh as [_ Hh].
  destruct (live_pos _ _ _ _ Hi' Hq) as [_ Hn0].
  assert (forall d, d ∈ l -> exists q t, d.1 = GRUB_MM_ALIGN * (q + 1) /\ q <> p /\ live G q t /\
    d.2 <= GRUB_MM_ALIGN * (t - 1)) as Hd.
  { intros d Hd. rewrite Forall_forall in Hh. destruct (Hh d Hd) as (q & t & Hdq & Hqt & Hcap).
    exists q, t. split_and!; try done. intros ->. apply Hni. rewrite Hc, <- Hdq. apply list_elem_of_fmap. by exists d. }
  constructor; [done| | |].
  - rewrite fmap_cons. constructor; [|done]. intros (d & Hdq & Hin)%list_elem_of_fmap.
    destruct (Hd d Hin) as (q & t & Eq & Hqp & Hqt & _). rewrite Eq in Hdq. cbn in Hdq.
    apply pointer_inj in Hdq as ->. destruct (Hk q t Hqt (not_nobody q) Hqp) as (_ & _ & Hdis).
    destruct (live_pos _ _ _ _ Hi Hqt). lia.
  - constructor; [by exists pq, n|]. apply Forall_forall. intros d Hin.
    destruct (Hd d Hin) as (q & t & Eq & Hqp & Hqt & Hcap). exists q, t. split_and!; try done.
    by apply (Hk q t Hqt (not_nobody q) Hqp).
  - intros q t Hqt. rewrite fmap_cons, elem_of_cons. destruct (Hb q t Hqt) as [[Hqg Hqp]|[-> _]]; [right|by left].
    pose proof (Hl q t Hqg) as Hin. rewrite fmap_cons, Hc, elem_of_cons in Hin.
    destruct Hin as [E|?]; [|done]. by apply pointer_inj in E.
Qed.

(** ** [grub_calloc] *)

(** The outcome of [grub_calloc]. *)
Definition calloc_outcome (C : Z -> Prop) (sz : Z) (m : mm) (G : list (list block)) (r : option Z) (m' : mm)
    (G' : list (list block)) : Prop :=
  match r with
  | Some ptr => exists p, ptr = GRUB_MM_ALIGN * (p + 1) /\ sz <= GRUB_MM_ALIGN * (cells sz - 1) /\
      got C m G m' G' p (cells sz) /\ forall x, ptr <= x < ptr + sz -> mem m' x = 0
  | None => kept C m G m' G' /\
      mm_errno m' = if 2 ^ 64 <=? sz then ERR_OUT_OF_RANGE else ERR_OUT_OF_MEMORY
  end.

Section Callers.
Context (C : Z -> Prop) (add : option (Z -> Z -> mm -> option (grub_err_t * mm))) (invalidate : mm -> option mm).
Context `{!HeapGrower C add invalidate}.

Lemma calloc_spec m G nmemb size : mm_inv m G -> 0 <= nmemb -> 0 <= size ->
  exists r m' G', grub_calloc add invalidate nmemb size m = Some (r, m') /\
    calloc_outcome C (nmemb * size) m G r m' G'.
Proof.
  intros Hi Hn Hs. unfold grub_calloc, calloc_outcome. destruct (Z.leb_spec (2 ^ 64) (nmemb * size)) as [Hbig|Hok].
  { exists None, (grub_error ERR_OUT_OF_RANGE m), G. split; [done|]. split; [by apply kept_error|done]. }
  destruct (memalign_outcome C add invalidate m G 0 (nmemb * size)) as (r & m' & G' & -> & Hr);
    [done|by left|split; [lia|done]|]. step. destruct r as [ptr|].
  2: { exists None, m', G'. split; [done|]. by destruct Hr as (? & ? & _). }
  destruct Hr as (p & -> & _ & Hcap & Hg). eexists (Some _), _, G'. split; [done|]. exists p. split_and!; try done.
  - apply got_write; [done|]. intros x Hx. unfold memset, GRUB_MM_ALIGN in *. zcase; lia || done.
  - intros x Hx. cbn [mem set_mem]. unfold memset. by zres.
Qed.
End Callers.

(** ** Sessions keep the invariant *)

(** A region without allocated blocks is one free block. *)
Lemma all_free_one lo hi bs : tiles lo hi bs -> lo < hi -> coalesced false bs -> (forall b, b ∈ bs -> bfree b = true) ->
  bs = [mk_block lo (hi - lo) true].
Proof.
  intros Ht Hlt Hc Hf. destruct bs as [|[a s f] [|b2 bs]]; cbn in Ht.
  - lia.
  - assert (f = true) as -> by (apply (Hf (mk_block a s f)); constructor). destruct Ht as (-> & _ & <-).
    do 2 f_equal. lia.
  - exfalso. cbn in Hc. destruct Hc as (_ & Hc & _).
    assert (f = true) as -> by (apply (Hf (mk_block a s f)); constructor).
    rewrite (Hf b2) in Hc by (do 2 constructor). done.
Qed.

(** The regions hold nothing but one free block each. *)
Definition all_free (m : mm) (G : list (list block)) : Prop :=
  forall i r bs, grub_mm_base m !! i = Some r -> G !! i = Some bs ->
  bs = [mk_block (r_lo r) (r_hi r - r_lo r) true].

Lemma nothing_live m G : mm_inv m G -> (forall p s, ~ live G p s) -> all_free m G.
Proof.
  intros Hi Hl i r bs Hr Hb. pose proof (mi_ok _ _ Hi _ _ _ Hr Hb) as Hro.
  destruct (ro_inv _ _ _ Hro) as [_ Ht _ _ Hf Hc]. apply (all_free_one _ _ _ Ht); [|done|].
  - destruct bs as [|b bs].
    + destruct Hf as [Hf|[_ [s Hs]]]; [by apply elem_of_nil in Hf|by apply elem_of_nil in Hs].
    + pose proof (tiles_in _ _ _ b Ht (list_elem_of_here _ _)). lia.
  - intros [a s [|]] Hb'; [done|]. exfalso. apply (Hl a s). by exists i, bs.
Qed.

(** No two held blocks overlap. *)
Definition disjoint_held (l : held) : Prop :=
  forall i j c d, l !! i = Some c -> l !! j = Some d -> i <> j -> c.1 + c.2 <= d.1 \/ d.1 + d.2 <= c.1.

Lemma session_disjoint m G l : session_inv m G l -> disjoint_held l.
Proof.
  intros Hs i j c d Hc Hd Hij.
  destruct (held_block _ _ _ _ Hs (list_elem_of_lookup_2 _ _ _ Hc)) as (p & s & Ec & Hp & Hcp).
  destruct (held_block _ _ _ _ Hs (list_elem_of_lookup_2 _ _ _ Hd)) as (q & t & Ed & Hq & Hcq).
  destruct (live_disjoint _ _ _ _ _ _ (si_inv _ _ _ Hs) Hp Hq) as [[-> ->]|Hdis].
  - exfalso. apply Hij. apply (f_equal fst) in Ec, Ed. cbn in Ec, Ed.
    apply (NoDup_lookup l.*1 _ _ (GRUB_MM_ALIGN * (q + 1)) (si_nodup _ _ _ Hs)); rewrite list_lookup_fmap.
    + rewrite Hc. cbn. by rewrite Ec.
    + rewrite Hd. cbn. by rewrite Ed.
  - rewrite Ec, Ed. cbn. unfold GRUB_MM_ALIGN in *. lia.
Qed.

Section Sessions.
Context (add : option (Z -> Z -> mm -> option (grub_err_t * mm))) (invalidate : mm -> option mm).
Context `{!HeapGrower nobody add invalidate}.

Lemma serve_session q m G l : session_inv m G l -> valid q ->
  exists m' G' l', serve add invalidate q m l = Some (m', l') /\ session_inv m' G' l'.
Proof.
  intros Hs Hv. destruct q as [align size|nmemb size|i size|i]; cbn [serve]; cbn in Hv.
  - destruct (memalign_outcome nobody add invalidate m G align size (si_inv _ _ _ Hs)) as (r & m' & G' & -> & Hr);
      [apply Hv..|]. step. eexists m', G', _. split; [done|]. destruct r as [ptr|]; cbn [keep].
    + destruct Hr as (p & -> & _ & Hcap & Hg). by eapply got_session.
    + destruct Hr as (Hk & _). by eapply kept_session.
  - destruct (calloc_spec nobody add invalidate m G nmemb size (si_inv _ _ _ Hs)) as (r & m' & G' & -> & Hr);
      [lia..|]. step. eexists m', G', _. split; [done|]. destruct r as [ptr|]; cbn [keep].
    + destruct Hr as (p & -> & Hcap & Hg & _). by eapply got_session.
    + destruct Hr as (Hk & _). by eapply kept_session.
  - destruct (l !! i) as [[ptr sz]|] eqn:Hi; [|by exists m, G, l].
    pose proof (delete_Permutation _ _ _ Hi) as Hperm. pose proof (session_perm _ _ _ _ Hperm Hs) as Hs'.
    destruct (held_block _ _ _ (ptr, sz) Hs) as (p & s & E & Hp & _); [by eapply list_elem_of_lookup_2|].
    injection E as ->. destruct (realloc_spec nobody add invalidate m G p s (si_inv _ _ _ Hs) Hp (not_nobody p) size Hv)
      as (r & m' & G' & -> & Hr). step. eexists m', G', _. split; [done|].
    destruct Hr as [(-> & -> & Hf)|[(Hsz & -> & -> & ->)|(Hsz & Hr)]].
    + cbn. by eapply freed_session.
    + destruct Hs' as [Hi' Hn Hh Hl]. constructor; try done. constructor; [|by apply Forall_cons in Hh as [_ Hh]].
      exists p, s. cbn. split_and!; try done. lia.
    + destruct r as [q|].
      * destruct Hr as (pq & -> & Hcap & Hm). by eapply moved_session.
      * destruct (live_pos _ _ _ _ (si_inv _ _ _ Hs) Hp). destruct (Z.eqb_spec size 0) as [->|_].
        { unfold GRUB_MM_ALIGN in *. lia. }
        destruct Hr as (Hk & _). by eapply kept_session.
  - destruct (l !! i) as [[ptr sz]|] eqn:Hi; [|by exists m, G, l].
    pose proof (delete_Permutation _ _ _ Hi) as Hperm. pose proof (session_perm _ _ _ _ Hperm Hs) as Hs'.
    destruct (held_block _ _ _ (ptr, sz) Hs) as (p & s & E & Hp & _); [by eapply list_elem_of_lookup_2|].
    injection E as ->. destruct (free_outcome _ _ _ _ (si_inv _ _ _ Hs) Hp) as (m' & G' & -> & Hf). step.
    eexists m', G', _. split; [done|]. by eapply freed_session.
Qed.

Lemma session_keeps qs : forall m G l, session_inv m G l -> Forall valid qs ->
  exists m' G' l', session add invalidate qs m l = Some (m', l') /\ session_inv m' G' l'.
Proof.
  induction qs as [|q qs IH]; intros m G l Hs Hv; [by exists m, G, l|]. apply Forall_cons in Hv as [Hq Hv].
  destruct (serve_session q m G l Hs Hq) as (m1 & G1 & l1 & E & Hs1). cbn [session]. rewrite E. step.
  by apply (IH m1 G1 l1).
Qed.
End Sessions.

(** ** Freeing twice *)

Definition magic_at (h : heap) (a : Z) : option Z := magic <$> h !! a.

Lemma magic_put_next a v h x : magic_at (put_next a v h) x = magic_at h x.
Proof.
  unfold magic_at, put_next. destruct (decide (x = a)) as [->|]; [|by rewrite lookup_alter_ne].
  rewrite lookup_alter_eq. by destruct (h !! a).
Qed.

Lemma magic_put_size a v h x : magic_at (put_size a v h) x = magic_at h x.
Proof.
  unfold magic_at, put_size. destruct (decide (x = a)) as [->|]; [|by rewrite lookup_alter_ne].
  rewrite lookup_alter_eq. by destruct (h !! a).
Qed.

Lemma magic_put_magic a v h x : magic_at h x <> Some GRUB_MM_ALLOC_MAGIC -> v <> GRUB_MM_ALLOC_MAGIC ->
  magic_at (put_magic a v h) x <> Some GRUB_MM_ALLOC_MAGIC.
Proof.
  unfold magic_at, put_magic. intros Hx Hv. destruct (decide (x = a)) as [->|]; [|by rewrite lookup_alter_ne].
  rewrite lookup_alter_eq. destruct (h !! a); cbn; [|done]. by intros [= ?].
Qed.

(** The header of a freed block is not that of an allocated one, even where it was merged. *)
Lemma free_block_magic first p h first' h' : free_block first p h = Some (first', h') ->
  magic_at h' p <> Some GRUB_MM_ALLOC_MAGIC.
Proof.
  assert (magic_at (put_magic p GRUB_MM_FREE_MAGIC h) p <> Some GRUB_MM_ALLOC_MAGIC) as H0.
  { unfold magic_at, put_magic. rewrite lookup_alter_eq. by destruct (h !! p). }
  unfold free_block. destruct (h !! first) as [f|]; [|discriminate]. step.
  destruct (magic f =? GRUB_MM_ALLOC_MAGIC); [intros [= <- <-]; by rewrite magic_put_next|].
  destruct (free_loop _ _ _ _ _) as [[prev cur]|]; [|discriminate]. step.
  destruct (h !! cur) as [c|]; [|discriminate]. step. set (h1 := put_next cur p _).
  assert (magic_at h1 p <> Some GRUB_MM_ALLOC_MAGIC) as H1 by (unfold h1; by rewrite !magic_put_next).
  destruct (h1 !! next c) as [lo|]; [|discriminate]. step. destruct (h1 !! p) as [pb|]; [|discriminate]. step.
  set (ph := if next c + GrubHeap.size lo =? p then _ else _).
  assert (magic_at (snd ph) p <> Some GRUB_MM_ALLOC_MAGIC) as H2.
  { unfold ph. destruct (_ =? p); cbn [snd]; [|done]. rewrite magic_put_next, magic_put_size. by apply magic_put_magic. }
  destruct ph as [q h2]. cbn [snd] in *. destruct (h2 !! q) as [qb|]; [|discriminate]. step.
  destruct (h2 !! cur) as [cb|]; [|discriminate]. step. intros [= E].
  destruct (cur =? q + GrubHeap.size qb); injection E as _ <-; [|done].
  rewrite magic_put_next, magic_put_size. by apply magic_put_magic.
Qed.

Lemma free_needs_magic ptr m : ptr <> 0 -> (forall p, ptr = GRUB_MM_ALIGN * (p + 1) ->
  magic_at (hdrs m) p <> Some GRUB_MM_ALLOC_MAGIC) -> grub_free ptr m = None.
Proof.
  intros H0 Hm. unfold grub_free. rewrite (proj2 (Z.eqb_neq _ _) H0). unfold get_header_from_pointer.
  rewrite low_bits, cells_of. destruct (Z.eqb_spec (ptr mod 32) 0) as [Ea|]; cbn [negb]; [|done].
  destruct (find_region ptr 0 (grub_mm_base m)) as [i|]; [|done]. step.
  destruct (hdrs m !! (ptr / 32 - 1)) as [c|] eqn:Ec; [|done]. step.
  destruct (magic c =? GRUB_MM_FREE_MAGIC); [done|].
  destruct (Z.eqb_spec (magic c) GRUB_MM_ALLOC_MAGIC) as [E|]; [|done]. exfalso.
  apply (Hm (ptr / 32 - 1)); [unfold GRUB_MM_ALIGN; dlia|]. unfold magic_at. by rewrite Ec, <- E.
Qed.

(** ** A sliver above a region, and a size that wraps around *)

(** Less than a cell of memory right above a region makes an empty block outside the region,
    and freeing it is fatal. *)
Lemma sliver_above_is_fatal m G i q size : mm_inv m G -> grub_mm_base m !! i = Some q ->
  0 <= size -> size + post_size q < GRUB_MM_ALIGN -> extend_above (ext_hi q) size i q m = None.
Proof.
  intros Hi Hq Hs Hsl. destruct (blocks_get _ _ _ _ Hi Hq) as (bs & Hb & Hqo).
  pose proof (region_span _ _ _ Hqo) as Hspan. destruct Hqo as [_ Hsz Hpre Hpost _ _].
  unfold extend_above. rewrite !cells_of, bytes_of.
  assert ((ext_hi q - post_size q) / 32 = r_hi q) as -> by (unfold ext_hi, GRUB_MM_ALIGN in *; dlia).
  assert ((size + post_size q) / 32 = 0) as -> by (unfold GRUB_MM_ALIGN in *; dlia).
  unfold grub_free. destruct (Z.eqb_spec (GRUB_MM_ALIGN * (r_hi q + 1)) 0) as [E|_].
  { unfold GRUB_MM_ALIGN, r_lo in *. lia. }
  unfold get_header_from_pointer. rewrite cell_aligned. cbn [Z.eqb negb grub_mm_base set_regions].
  match goal with |- context [find_region ?x 0 ?l] => assert (find_region x 0 l = None) as Hnone end.
  2: by rewrite Hnone.
  assert (forall rs j, (forall r, r ∈ rs -> (r_start r <? GRUB_MM_ALIGN * (r_hi q + 1)) &&
    (GRUB_MM_ALIGN * (r_hi q + 1) <=? r_start r + r_size r) = false) ->
    find_region (GRUB_MM_ALIGN * (r_hi q + 1)) j rs = None) as Hfind.
  { induction rs as [|r rs IH]; intros j Hr; [done|]. cbn [find_region]. rewrite Hr by constructor.
    apply IH. intros r' Hr'. apply Hr. by constructor. }
  apply Hfind. intros r (j & Hj)%list_elem_of_lookup. pose proof (lookup_lt_Some _ _ _ Hq) as Hlt.
  apply andb_false_iff. destruct (decide (i = j)) as [<-|Hne].
  - rewrite list_lookup_insert_eq in Hj by done. injection Hj as <-. right. unfold r_start, sizeof_region. cbn.
    apply Z.leb_gt. unfold r_lo, GRUB_MM_ALIGN in *. lia.
  - rewrite list_lookup_insert_ne in Hj by done. destruct (blocks_get _ _ _ _ Hi Hj) as (cs & _ & Hro).
    pose proof (region_span _ _ _ Hro). pose proof (mi_apart _ _ Hi _ _ _ _ Hq Hj Hne).
    unfold apart, r_start, sizeof_region, r_lo, GRUB_MM_ALIGN in *. zcase; auto; lia.
Qed.

(** For sizes in the last 31 bytes below [2 ^ 64] the number of cells wraps around, and
    [grub_realloc] takes the request for one that the block already satisfies. *)
Lemma realloc_of_huge_size_succeeds add invalidate m G p s size : mm_inv m G -> live G p s ->
  2 ^ 64 - 31 <= size < 2 ^ 64 ->
  grub_realloc add invalidate (GRUB_MM_ALIGN * (p + 1)) size m = Some (Some (GRUB_MM_ALIGN * (p + 1)), m).
Proof.
  intros Hi Hl Hs. destruct (live_pos _ _ _ _ Hi Hl) as [Hp0 Hs0]. unfold grub_realloc.
  destruct (Z.eqb_spec (GRUB_MM_ALIGN * (p + 1)) 0) as [E0|_]; [unfold GRUB_MM_ALIGN in *; lia|].
  destruct (Z.eqb_spec size 0) as [->|_]; [pow2; lia|].
  destruct (live_header _ _ _ _ Hi Hl) as (i & -> & c & Hh & Hcs). step. rewrite Hh. step. rewrite Hcs.
  assert (cells size = 1) as ->; [|by zres].
  unfold cells. replace (size + GRUB_MM_ALIGN - 1) with ((size + 31 - 2 ^ 64) + 1 * 2 ^ 64) by (unfold GRUB_MM_ALIGN; lia).
  unfold wrap at 2. rewrite Z.mod_add by lia. rewrite Z.mod_small by (pow2; lia). rewrite cells_of.
  rewrite Z.div_small by (pow2; lia). done.
Qed.

(** * A concrete heap *)

Definition no_heap : mm := mk_mm [] ∅ (fun _ => 0) ERR_NONE.

(** 64 KiB at 1 MiB. *)
Definition small_heap : mm :=
  mk_mm [mk_region 32768 32770 0 0 65472] {[32770 := mk_header 32770 2046 GRUB_MM_FREE_MAGIC]} (fun _ => 0) ERR_NONE.

Lemma no_heap_inv : mm_inv no_heap [].
Proof. constructor; done. Qed.

Lemma small_heap_inv : exists G, mm_inv small_heap G /\ forall p s, ~ live G p s.
Proof.
  destruct (init_region_grows no_heap [] 0x100000 0x10000 no_heap_inv) as (m' & E & (G & Hi & _ & _ & Hl) & _);
    [lia..|done|done|].
  assert (Some m' = Some small_heap) as [= ->] by (rewrite <- E; vm_compute; reflexivity).
  exists G. split; [done|]. intros p s (i & bs & Hi' & _)%Hl. done.
Qed.

(** * Properties *)

(** C1: any sequence of [grub_memalign], [grub_calloc], [grub_realloc] and [grub_free] calls of
    a client that frees and resizes only what it holds, aligns to powers of two and asks
    [grub_realloc] for fewer than 2^64 - 31 bytes (beyond that, the rounding in [grub_realloc]
    wraps around and the old, too small block is returned as a success): every call returns (no walk of a ring
    fails to end, no fatal error), the blocks it holds at the end are disjoint, cell-aligned and
    non-NULL, and when it holds nothing every region is again one free block, so nothing leaks
    and nothing stays fragmented. *)
Theorem heap_session_safe add invalidate `{!HeapGrower nobody add invalidate} qs m G :
  mm_inv m G -> (forall p s, ~ live G p s) -> Forall valid qs ->
  exists m' G' l, session add invalidate qs m [] = Some (m', l) /\ mm_inv m' G' /\ disjoint_held l /\
    Forall (fun c => 0 < c.1 /\ c.1 mod GRUB_MM_ALIGN = 0) l /\ (l = [] -> all_free m' G').
Proof.
  intros Hi Hl Hv. assert (session_inv m G []) as Hs.
  { constructor; [done|constructor|constructor|]. intros p s Hp. by apply Hl in Hp. }
  destruct (session_keeps add invalidate qs m G [] Hs Hv) as (m' & G' & l & E & Hs').
  exists m', G', l. split; [done|]. split; [apply Hs'|]. split; [by eapply session_disjoint|]. split.
  - apply Forall_forall. intros c Hc. destruct (held_block _ _ _ _ Hs' Hc) as (p & s & Ec & Hp & _). rewrite Ec. cbn.
    destruct (live_pos _ _ _ _ (si_inv _ _ _ Hs') Hp). unfold GRUB_MM_ALIGN. dlia.
  - intros ->. apply nothing_live; [apply Hs'|]. intros p s Hp. by apply (si_live _ _ _ Hs'), elem_of_nil in Hp.
Qed.

Lemma heap_session_safe_witness : exists m' G' l,
  session None Some [RMemalign 0 100; RCalloc 3 40; RRealloc 1 5000; RMemalign 4096 1; RFree 0; RRealloc 0 0; RFree 0]
    small_heap [] = Some (m', l) /\ l = [] /\ all_free m' G'.
Proof.
  destruct small_heap_inv as (G & Hi & Hl).
  destruct (heap_session_safe None Some
    [RMemalign 0 100; RCalloc 3 40; RRealloc 1 5000; RMemalign 4096 1; RFree 0; RRealloc 0 0; RFree 0]
    small_heap G Hi Hl) as (m' & G' & l & E & _ & _ & _ & Hall).
  - repeat (apply Forall_cons_2); [..|apply Forall_nil_2]; cbn [valid]; try lia; try exact I.
    + split; [by left|lia].
    + split; [right; exists 12; split; [lia|reflexivity]|lia].
  - exists m', G', l. split; [exact E|]. assert (l = []) as Hnil.
    { assert (snd <$> Some (m', l) = Some []) as Hs by (rewrite <- E; vm_compute; reflexivity). by injection Hs. }
    split; [exact Hnil|exact (Hall Hnil)].
Defined.

(** C30: [grub_memalign] on a well-formed heap returns.  A pointer it returns is a multiple of
    the alignment and starts a new block with room for the request that overlaps no block
    allocated before, all of which (those of the disk cache excepted) are still allocated with
    their payloads untouched.  NULL comes with GRUB_ERR_OUT_OF_MEMORY and only when there is no
    region, the request is above the limit, or no free block of the heap, after asking for
    memory and dropping the caches, has room for it at that alignment. *)
Theorem grub_memalign_correct C add invalidate `{!HeapGrower C add invalidate} m G align size :
  mm_inv m G -> alignment align -> 0 <= size < 2 ^ 64 ->
  exists r m' G', grub_memalign add invalidate align size m = Some (r, m') /\
    match r with
    | Some ptr => exists p, ptr = GRUB_MM_ALIGN * (p + 1) /\ (align <> 0 -> ptr mod align = 0) /\
        size <= GRUB_MM_ALIGN * (cells size - 1) /\ got C m G m' G' p (cells size)
    | None => kept C m G m' G' /\ mm_errno m' = ERR_OUT_OF_MEMORY /\
        (grub_mm_base m = [] \/ too_big align size \/ nothing_fits (cells size) (align_cells align) G')
    end.
Proof. intros. by apply memalign_outcome. Qed.

Lemma grub_memalign_correct_witness : exists r m' G',
  grub_memalign (Some (add_pool 0x200000 0x200000)) Some 4096 0x20000 small_heap = Some (r, m') /\
  match r with Some ptr => ptr mod 4096 = 0 /\ exists p, live G' p (cells 0x20000) | None => False end.
Proof.
  destruct small_heap_inv as (G & Hi & _).
  destruct (@grub_memalign_correct nobody (Some (add_pool 0x200000 0x200000)) Some
    (pool_growth nobody 0x200000 0x200000 ltac:(lia) ltac:(lia)) small_heap G 4096 0x20000 Hi) as (r & m' & G' & E & Hr).
  - right. exists 12. split; [lia|reflexivity].
  - lia.
  - exists r, m', G'. split; [exact E|]. destruct r as [ptr|].
    + destruct Hr as (p & _ & Hal & _ & _ & Hl & _). split; [apply Hal; lia|exists p; exact Hl].
    + assert (fst <$> Some (@None Z, m') = Some (Some 0x3e0000)) as Hs by (rewrite <- E; vm_compute; reflexivity).
      discriminate.
Defined.

(** [grub_realloc] of an allocated block returns.  Size 0 frees it; a size that fits keeps
    it, nothing changed; a larger one either fails with GRUB_ERR_OUT_OF_MEMORY and the block
    as it was, or gives a new block with room for the request that starts with all the bytes of
    the old payload, the old block being free and every other block untouched. *)
Theorem grub_realloc_correct C add invalidate `{!HeapGrower C add invalidate} m G p s size :
  mm_inv m G -> live G p s -> ~ C p -> 0 <= size < 2 ^ 64 - 31 ->
  exists r m' G', grub_realloc add invalidate (GRUB_MM_ALIGN * (p + 1)) size m = Some (r, m') /\
    ((size = 0 /\ r = None /\ freed m G m' G' p) \/
     (0 < size <= GRUB_MM_ALIGN * (s - 1) /\ r = Some (GRUB_MM_ALIGN * (p + 1)) /\ m' = m /\ G' = G) \/
     (GRUB_MM_ALIGN * (s - 1) < size /\
      match r with
      | None => kept C m G m' G' /\ mm_errno m' = ERR_OUT_OF_MEMORY
      | Some q => exists pq, q = GRUB_MM_ALIGN * (pq + 1) /\ size <= GRUB_MM_ALIGN * (cells size - 1) /\
                    moved C m G p s m' G' pq (cells size)
      end)).
Proof. intros Hi Hl Hc Hs. exact (realloc_spec C add invalidate m G p s Hi Hl Hc size Hs). Qed.

(** The heap with one block of 100 bytes, filled with 7s. *)
Definition used_heap : mm :=
  match grub_malloc None Some 100 small_heap with
  | Some (Some p, m) => set_mem (memset p 7 100 (mem m)) m
  | _ => small_heap
  end.

Lemma used_heap_inv : exists G, mm_inv used_heap G /\ live G 34811 5.
Proof.
  destruct small_heap_inv as (G & Hi & _).
  destruct (memalign_outcome nobody None Some small_heap G 0 100 Hi) as (r & m' & G' & E & Hr);
    [by left|lia|].
  assert (fst <$> Some (r, m') = Some (Some (GRUB_MM_ALIGN * (34811 + 1)))) as Er
    by (rewrite <- E; vm_compute; reflexivity).
  injection Er as ->. destruct Hr as (p & Ep & _ & _ & Hi' & Hl & _). apply pointer_inj in Ep as <-.
  exists G'. split; [|exact Hl]. unfold used_heap, grub_malloc. rewrite E. by apply set_mem_inv.
Qed.

Lemma grub_realloc_correct_witness : exists r m' G',
  grub_realloc None Some (GRUB_MM_ALIGN * (34811 + 1)) 300 used_heap = Some (r, m') /\
  match r with Some q => mem m' (q + 99) = 7 /\ ~ live G' 34811 5 | None => False end.
Proof.
  destruct used_heap_inv as (G & Hi & Hl).
  destruct (grub_realloc_correct nobody None Some used_heap G 34811 5 300 Hi Hl (not_nobody _) ltac:(lia))
    as (r & m' & G' & E & Hr).
  exists r, m', G'. split; [exact E|]. unfold GRUB_MM_ALIGN in Hr.
  destruct Hr as [[? _]|[[? _]|[_ Hr]]]; [lia|lia|]. destruct r as [q|].
  - destruct Hr as (pq & Eq & Hcap & Hi' & Hq & Hb & _ & Hm). split.
    + rewrite Eq. unfold GRUB_MM_ALIGN in Hm. rewrite Hm by lia. vm_compute. reflexivity.
    + intros Hlive. destruct (Hb _ _ Hlive) as [[_ Hne]|[_ H5]]; [done|]. revert H5. vm_compute. discriminate.
  - assert (fst <$> Some (@None Z, m') = Some (Some 1113632)) as Hs by (rewrite <- E; vm_compute; reflexivity).
    discriminate.
Defined.

(** C34: [grub_mm_init_region] given memory no region has: it returns, the manager's invariant
    holds again with the same allocated blocks, their payloads untouched, and the regions now
    cover exactly the bytes they covered before and the new ones up to the last page of the
    address space, whether the memory extends a region from below, from above or makes a new
    one; otherwise nothing changes, which happens only for memory in the last page or too small
    for a region.  The memory must not be a sliver of less than a cell right above a region. *)
Theorem grub_mm_init_region_correct m G addr size : mm_inv m G -> 0 <= addr < 2 ^ 64 -> 0 <= size < 2 ^ 64 ->
  fresh addr (usable addr size) m -> no_sliver addr (usable addr size) m ->
  exists m', grub_mm_init_region addr size m = Some m' /\ grown m G m' /\
    ((m' = m /\ (top <= addr \/
        usable addr size < GRUB_MM_ALIGN + (- addr) mod GRUB_MM_ALIGN + sizeof_region)) \/
     forall x, covered (spans m') x <-> covered (spans m) x \/ addr <= x < addr + usable addr size).
Proof. apply init_region_grows. Qed.

(** Memory right below the heap, starting at an odd address, extends its region. *)
Lemma grub_mm_init_region_correct_witness : exists m',
  grub_mm_init_region 0xf0001 0xffff small_heap = Some m' /\ spans m' = [(0xf0001, 0x110000)] /\
  covered (spans m') 0xf0001.
Proof.
  destruct small_heap_inv as (G & Hi & _).
  destruct (grub_mm_init_region_correct small_heap G 0xf0001 0xffff Hi ltac:(lia) ltac:(lia)) as (m' & E & _ & Hc).
  - apply freshb_spec. vm_compute. reflexivity.
  - apply no_sliverb_spec. vm_compute. reflexivity.
  - exists m'. split; [exact E|].
    assert (spans <$> Some m' = Some [(0xf0001, 0x110000)]) as Hs by (rewrite <- E; vm_compute; reflexivity).
    injection Hs as Hs. split; [exact Hs|]. destruct Hc as [[_ [Ht|Ht]]|Hc].
    + exfalso. revert Ht. vm_compute. by intros [].
    + exfalso. revert Ht. vm_compute. discriminate.
    + apply Hc. right. vm_compute. split; [discriminate|reflexivity].
Defined.

(** Freeing an allocated block a second time is always caught: the first call returns and
    the second is a fatal error, whether or not the block was merged into its neighbours. *)
Theorem double_free_is_fatal m G p s : mm_inv m G -> live G p s ->
  exists m', grub_free (GRUB_MM_ALIGN * (p + 1)) m = Some m' /\ grub_free (GRUB_MM_ALIGN * (p + 1)) m' = None.
Proof.
  intros Hi Hl. destruct (free_outcome _ _ _ _ Hi Hl) as (m' & G' & E & _). exists m'. split; [done|].
  destruct (live_pos _ _ _ _ Hi Hl) as [Hp _]. apply free_needs_magic; [unfold GRUB_MM_ALIGN; lia|].
  intros q <-%pointer_inj. destruct (live_header _ _ _ _ Hi Hl) as (i & Hg & _).
  unfold grub_free in E. destruct (Z.eqb_spec (GRUB_MM_ALIGN * (p + 1)) 0) as [E0|_]; [unfold GRUB_MM_ALIGN in *; lia|].
  rewrite Hg in E. revert E. step. destruct (grub_mm_base m !! i) as [r|]; [|done]. step.
  destruct (free_block (first r) p (hdrs m)) as [[a h]|] eqn:Ef; [|done]. step. intros [= <-].
  cbn [hdrs set_regions]. by eapply free_block_magic.
Qed.

Lemma double_free_is_fatal_witness : exists m',
  grub_free (GRUB_MM_ALIGN * (34811 + 1)) used_heap = Some m' /\ grub_free (GRUB_MM_ALIGN * (34811 + 1)) m' = None.
Proof.
  destruct used_heap_inv as (G & Hi & Hl). exact (double_free_is_fatal used_heap G 34811 5 Hi Hl).
Defined.

End GrubSession.
