(* ===== verification/GrubQueue.v ===== *)
(** GRUB's priority queue, src/grub/grub-core/lib/priority_queue.c: a binary heap in a growing
    array, greatest element first.

    An element is the list of its [elsize] bytes, so the bytewise [swap] of the code exchanges
    two elements of the array.  Whether an allocation of [n] bytes succeeds is [alloc_ok n]; the
    elements that a grown array has at first are [junk], and [errno] is the error code that is
    set when [push] is called.  [None] is an access outside the array. *)

From stdpp Require Import sorting.
From S2P Require Import Prelude GrubStr.

Module GrubQueue.
Import GrubStr.

Abbreviation elt := (list Z).

Section Queue.
Variable alloc_ok : Z -> bool.
Variable junk : elt.
Variable errno : grub_err_t.
Variable cmp : elt -> elt -> Z.

Record priority_queue := mk_queue {
  elsize : Z;
  allocated : nat;
  used : nat;
  els : list elt
}.

Definition element (l : list elt) (k : nat) : option elt := l !! k.

Definition swap (m n : nat) (l : list elt) : option (list elt) :=
  x ← element l m;
  y ← element l n;
  Some (<[n := x]> (<[m := y]> l)).

Definition parent (v : nat) : nat := ((v - 1) / 2)%nat.
Definition left_child (v : nat) : nat := (2 * v + 1)%nat.
Definition right_child (v : nat) : nat := (2 * v + 2)%nat.

(** The outer option: defined behaviour; the inner one: NULL for an empty queue. *)
Definition grub_priority_queue_top (pq : priority_queue) : option (option elt) :=
  if (used pq =? 0)%nat then Some None
  else x ← element (els pq) 0; Some (Some x).

Definition grub_priority_queue_new (size : Z) : option priority_queue :=
  if 2 ^ 64 <=? 8 * size then None
  else if alloc_ok (8 * size) then
    if alloc_ok 40 then Some (mk_queue size 8 0 (replicate 8 (replicate (Z.to_nat size) 0))) else None
  else None.

(** [for (p = pq->used - 1; p; p = parent (p))]; [p] itself bounds the rounds. *)
Fixpoint sift_up (fuel p : nat) (l : list elt) : option (list elt) :=
  match fuel with
  | O => Some l
  | S fuel =>
      if (p =? 0)%nat then Some l
      else
        x ← element l p;
        y ← element l (parent p);
        if cmp x y <=? 0 then Some l
        else l ← swap p (parent p) l; sift_up fuel (parent p) l
  end.

(** How many elements of [size] bytes a block of [n] bytes has. *)
Definition capacity (size n : Z) : nat := Z.to_nat (n / size).

(** The array after [realloc (els, elsize * 2 * allocated)], in 64 bits: the elements that fit
    in the block asked for.  [inr]: the code returns; [realloc] of no bytes frees the array and
    sets no error. *)
Definition grow (pq : priority_queue) : priority_queue + grub_err_t * priority_queue :=
  let n := u64 (elsize pq * 2 * Z.of_nat (allocated pq)) in
  if n =? 0 then inr (errno, mk_queue (elsize pq) (allocated pq) (used pq) [])
  else if alloc_ok n then
    inl (mk_queue (elsize pq) (Z.to_nat (u64 (Z.of_nat (allocated pq) * 2))) (used pq)
           (resize (capacity (elsize pq) n) junk (els pq)))
  else inr (ERR_OUT_OF_MEMORY, pq).

Definition grub_priority_queue_push (pq : priority_queue) (el : elt) : option (grub_err_t * priority_queue) :=
  match (if (used pq =? allocated pq)%nat then grow pq else inl pq) with
  | inr r => Some r
  | inl pq =>
      let n := S (used pq) in
      _ ← element (els pq) (n - 1);
      l ← sift_up (n - 1) (n - 1) (<[(n - 1)%nat := el]> (els pq));
      Some (ERR_NONE, mk_queue (elsize pq) (allocated pq) n l)
  end.

(** The loop of [grub_priority_queue_pop]; the index grows, so [n] rounds are enough. *)
Fixpoint sift_down (fuel n p : nat) (l : list elt) : option (list elt) :=
  match fuel with
  | O => None
  | S fuel =>
      if negb (left_child p <? n)%nat then Some l else
      x ← element l p;
      a ← element l (left_child p);
      let right_smaller := 
        if (n <=? right_child p)%nat then Some true
        else b ← element l (right_child p); Some (cmp b x <=? 0) in
      rs ← right_smaller;
      if (cmp a x <=? 0) && rs then Some l
      else
        c ← (if (n <=? right_child p)%nat then Some (left_child p)
             else b ← element l (right_child p);
                  Some (if 0 <? cmp a b then left_child p else right_child p));
        l ← swap p c l;
        sift_down fuel n c l
  end.

(** Popping an empty queue reads below the array. *)
Definition grub_priority_queue_pop (pq : priority_queue) : option priority_queue :=
  if (used pq =? 0)%nat then None
  else
    l ← swap 0 (used pq - 1) (els pq);
    let n := (used pq - 1)%nat in
    l ← sift_down (S n) n 0 l;
    Some (mk_queue (elsize pq) (allocated pq) n l).

(** * Correctness *)

Definition below (x y : elt) : Prop := cmp x y <= 0.

Record pq_inv (pq : priority_queue) : Prop := mk_pq_inv {
  pq_room : length (els pq) = allocated pq;
  pq_used : (used pq <= allocated pq)%nat;
  pq_some : (0 < allocated pq)%nat;
  pq_size : 0 < elsize pq;
  pq_bytes : elsize pq * Z.of_nat (allocated pq) < 2 ^ 63;
  pq_heap : forall i x y, (0 < i < used pq)%nat -> els pq !! i = Some x -> els pq !! parent i = Some y -> below x y
}.

Definition contents (pq : priority_queue) : list elt := take (used pq) (els pq).

Lemma parent_lt i : (0 < i)%nat -> (parent i < i)%nat.
Proof. intros. unfold parent. apply Nat.Div0.div_lt_upper_bound. lia. Qed.

Lemma parent_child i p : (0 < i)%nat -> parent i = p <-> i = left_child p \/ i = right_child p.
Proof.
  intros Hi. unfold parent, left_child, right_child. pose proof (Nat.div_mod_eq (i - 1) 2).
  pose proof (Nat.mod_upper_bound (i - 1) 2). lia.
Qed.

Lemma swap_spec m n l x y : l !! m = Some x -> l !! n = Some y -> m <> n ->
  exists l', swap m n l = Some l' /\ length l' = length l /\ l' !! m = Some y /\ l' !! n = Some x /\
    (forall i, i <> m -> i <> n -> l' !! i = l !! i) /\ l' ≡ₚ l.
Proof.
  intros Hm Hn Hne. unfold swap, element. rewrite Hm, Hn. step. step.
  pose proof (lookup_lt_Some _ _ _ Hm). pose proof (lookup_lt_Some _ _ _ Hn).
  eexists. split; [done|]. split; [by rewrite !length_insert|]. split_and!.
  - rewrite list_lookup_insert_ne by done. by apply list_lookup_insert_eq.
  - apply list_lookup_insert_eq. by rewrite length_insert.
  - intros i Him Hin. by rewrite !list_lookup_insert_ne.
  - by apply Permutation_insert_swap.
Qed.

(** ** The loops *)

Section Order.
Hypothesis cmp_total : forall x y, below x y \/ below y x.
Hypothesis cmp_trans : forall x y z, below x y -> below y z -> below x z.

Lemma not_below x y : ~ cmp x y <= 0 -> below y x.
Proof. intros H. destruct (cmp_total x y); [done|done]. Qed.

(** A heap in the first [n] cells, but for the link from [p] to its parent. *)
Definition heap_but (n p : nat) (l : list elt) : Prop :=
  (forall i x y, (0 < i < n)%nat -> i <> p -> l !! i = Some x -> l !! parent i = Some y -> below x y) /\
  (forall i x y, (0 < i < n)%nat -> (0 < p)%nat -> parent i = p -> l !! i = Some x -> l !! parent p = Some y -> below x y).

Definition heap (n : nat) (l : list elt) : Prop :=
  forall i x y, (0 < i < n)%nat -> l !! i = Some x -> l !! parent i = Some y -> below x y.

Lemma sift_up_spec n : forall fuel p l, (p <= fuel)%nat -> (p < n <= length l)%nat -> heap_but n p l ->
  exists l', sift_up fuel p l = Some l' /\ length l' = length l /\ heap n l' /\ l' ≡ₚ l /\
    forall i, (n <= i)%nat -> l' !! i = l !! i.
Proof.
  assert (forall p l, p = 0%nat -> heap_but n p l -> heap n l) as Hroot.
  { intros p l -> [H _] i x y Hi. apply H; [done|lia]. }
  induction fuel as [|fuel IH]; intros p l Hf Hn Hb; cbn [sift_up].
  { exists l. split_and!; try done. apply (Hroot p); [lia|done]. }
  destruct (Nat.eqb_spec p 0) as [E|Hp]; [exists l; split_and!; try done; by apply (Hroot p)|].
  pose proof (parent_lt p ltac:(lia)) as Hlt.
  destruct (lookup_lt_is_Some_2 l p) as [x Hx]; [lia|]. destruct (lookup_lt_is_Some_2 l (parent p)) as [y Hy]; [lia|].
  unfold element. rewrite Hx, Hy. step. step. destruct Hb as [Hb1 Hb2]. destruct (Z.leb_spec (cmp x y) 0) as [Hle|Hgt].
  { exists l. split_and!; try done. intros i a b Hi Ha Hpb. destruct (decide (i = p)) as [->|Hne].
    - rewrite Hx in Ha. rewrite Hy in Hpb. by simplify_eq.
    - by eapply Hb1. }
  assert (below y x) as Hyx by (apply not_below; lia).
  destruct (swap_spec p (parent p) l x y Hx Hy ltac:(lia)) as (l1 & -> & Hlen & H1p & H1q & H1o & Hperm). step.
  destruct (IH (parent p) l1) as (l' & E & Hlen' & Hh & Hperm' & Ho); [lia|lia| |].
  - split.
    + intros i a b Hi Hne Ha Hpb. destruct (decide (i = p)) as [->|Hip].
      { by simplify_eq. }
      rewrite H1o in Ha by done. destruct (decide (parent i = p)) as [Ep|Hpp].
      { rewrite Ep, H1p in Hpb. injection Hpb as <-. eapply Hb2; [exact Hi|lia|exact Ep|exact Ha|exact Hy]. }
      destruct (decide (parent i = parent p)) as [Eq|Hqq].
      { rewrite Eq, H1q in Hpb. injection Hpb as <-. apply (cmp_trans a y x); [|done].
        eapply Hb1; [exact Hi|exact Hip|exact Ha|by rewrite Eq]. }
      rewrite H1o in Hpb by done. by eapply Hb1.
    + intros i a b Hi Hpos Ep Ha Hpb. pose proof (parent_lt (parent p) Hpos).
      rewrite H1o in Hpb by lia.
      assert (below y b) as Hyb by (apply (Hb1 (parent p)); done || lia).
      destruct (decide (i = p)) as [->|Hip]; [by simplify_eq|].
      pose proof (parent_lt i ltac:(lia)). rewrite H1o in Ha by lia.
      apply (cmp_trans a y b); [|done]. eapply Hb1; [exact Hi|exact Hip|exact Ha|by rewrite Ep].
  - exists l'. split_and!; try done; [by rewrite Hlen'|by rewrite Hperm'|].
    intros i Hi. rewrite Ho by done. apply H1o; lia.
Qed.

(** A heap but for the links from the children of [p]. *)
Definition heap_above (n p : nat) (l : list elt) : Prop :=
  (forall i x y, (0 < i < n)%nat -> parent i <> p -> l !! i = Some x -> l !! parent i = Some y -> below x y) /\
  (forall i x y, (0 < i < n)%nat -> (0 < p)%nat -> parent i = p -> l !! i = Some x -> l !! parent p = Some y -> below x y).

(** The child that the loop moves up is above the element and its brother. *)
Lemma choose_child n p l x a : (left_child p < n <= length l)%nat -> l !! p = Some x -> l !! left_child p = Some a ->
  exists rs c z, (if (n <=? right_child p)%nat then Some true
             else b ← element l (right_child p); Some (cmp b x <=? 0)) = Some rs /\
    (if (n <=? right_child p)%nat then Some (left_child p)
     else b ← element l (right_child p);
          Some (if 0 <? cmp a b then left_child p else right_child p)) = Some c /\
    (0 < c < n)%nat /\ parent c = p /\ l !! c = Some z /\
    (forall i w, (0 < i < n)%nat -> parent i = p -> l !! i = Some w -> below w z) /\
    ((cmp a x <=? 0) && rs = true -> forall i w, (0 < i < n)%nat -> parent i = p -> l !! i = Some w -> below w x) /\
    ((cmp a x <=? 0) && rs = false -> below x z).
Proof.
  intros Hn Hx Ha. assert (forall w, below w w) as Hrefl by (intros w; destruct (cmp_total w w); done).
  assert (parent (left_child p) = p /\ parent (right_child p) = p) as [Hl Hr].
  { split; apply parent_child; unfold left_child, right_child; lia. }
  assert (forall i, (0 < i)%nat -> parent i = p -> i = left_child p \/ i = right_child p) as Hch
    by (intros i Hi; by apply parent_child).
  destruct (Nat.leb_spec n (right_child p)) as [Hno|Hyes].
  - exists true, (left_child p), a. rewrite andb_true_r. split_and!; try done; try (unfold left_child in *; lia).
    + intros i w Hi Hp Hw. destruct (Hch i ltac:(lia) Hp) as [-> | ->]; [by simplify_eq|lia].
    + intros H%Z.leb_le i w Hi Hp Hw. destruct (Hch i ltac:(lia) Hp) as [-> | ->]; [by simplify_eq|lia].
    + intros H%Z.leb_gt. apply not_below. lia.
  - destruct (lookup_lt_is_Some_2 l (right_child p)) as [b Hb]; [lia|]. unfold element. rewrite Hb.
    assert (0 < right_child p)%nat by (unfold right_child; lia).
    assert (0 < left_child p)%nat by (unfold left_child; lia).
    exists (cmp b x <=? 0), (if 0 <? cmp a b then left_child p else right_child p), (if 0 <? cmp a b then a else b).
    assert (below b (if 0 <? cmp a b then a else b) /\ below a (if 0 <? cmp a b then a else b)) as [Hbz Haz].
    { destruct (Z.ltb_spec 0 (cmp a b)); [split; [|done]; apply not_below; lia|split; [done|unfold below; lia]]. }
    split_and!; try done; try (destruct (0 <? cmp a b); lia || done).
    + intros i w Hi Hp Hw. destruct (Hch i ltac:(lia) Hp) as [-> | ->]; by simplify_eq.
    + intros [H1%Z.leb_le H2%Z.leb_le]%andb_true_iff i w Hi Hp Hw.
      destruct (Hch i ltac:(lia) Hp) as [-> | ->]; by simplify_eq.
    + intros [H1%Z.leb_gt|H1%Z.leb_gt]%andb_false_iff.
      * apply (cmp_trans x a); [apply not_below; lia|done].
      * apply (cmp_trans x b); [apply not_below; lia|done].
Qed.

Lemma sift_down_spec n : forall fuel p l, (n - p < fuel)%nat -> (n <= length l)%nat -> (p < length l)%nat ->
  heap_above n p l ->
  exists l', sift_down fuel n p l = Some l' /\ length l' = length l /\ heap n l' /\ l' ≡ₚ l /\
    forall i, (n <= i)%nat -> (p < n)%nat -> l' !! i = l !! i.
Proof.
  induction fuel as [|fuel IH]; intros p l Hf Hn Hp Hb; [lia|]. cbn [sift_down].
  destruct (Nat.ltb_spec (left_child p) n) as [Hlc|Hlc]; cbn [negb].
  2: { exists l. split_and!; try done. intros i x y Hi Hx Hy. eapply (proj1 Hb); [exact Hi| |exact Hx|exact Hy].
    intros E. apply parent_child in E; [|lia]. unfold left_child, right_child in *. lia. }
  destruct (lookup_lt_is_Some_2 l p) as [x Hx]; [lia|]. destruct (lookup_lt_is_Some_2 l (left_child p)) as [a Ha]; [lia|].
  destruct (choose_child n p l x a ltac:(lia) Hx Ha) as (rs & c & z & Ers & Ec & Hc & Hpc & Hz & Hmax & Hstop & Hgo).
  change (element l p) with (l !! p). change (element l (left_child p)) with (l !! left_child p).
  rewrite Hx, Ha. step. step. rewrite Ers. step.
  destruct ((cmp a x <=? 0) && rs) eqn:Et.
  { exists l. split_and!; try done. intros i w y Hi Hw Hy. destruct (decide (parent i = p)) as [Ep|Hne].
    - rewrite Ep, Hx in Hy. injection Hy as <-. by eapply Hstop.
    - by eapply (proj1 Hb). }
  rewrite Ec. step. pose proof (parent_lt c ltac:(lia)) as Hcp. rewrite Hpc in Hcp.
  destruct (swap_spec p c l x z Hx Hz ltac:(lia)) as (l1 & -> & Hlen & H1p & H1c & H1o & Hperm). step.
  destruct Hb as [Hb1 Hb2].
  destruct (IH c l1) as (l' & E & Hlen' & Hh & Hperm' & Ho); [lia|lia|lia| |].
  - split.
    + intros i w y Hi Hne Hw Hy. destruct (decide (i = c)) as [->|Hic].
      { rewrite Hpc, H1p in Hy. rewrite H1c in Hw. simplify_eq. by apply Hgo. }
      destruct (decide (parent i = p)) as [Ep|Hpp].
      { rewrite Ep, H1p in Hy. injection Hy as <-. assert (i <> p) by (intros ->; pose proof (parent_lt p); lia).
        rewrite H1o in Hw by done. by eapply Hmax. }
      destruct (decide (i = p)) as [->|Hip].
      { rewrite H1p in Hw. injection Hw as <-. rewrite H1o in Hy by done. eapply (Hb2 c); [exact Hc|lia|done|done|done]. }
      rewrite H1o in Hw by done. rewrite H1o in Hy by done. by eapply Hb1.
    + intros i w y Hi _ Ep Hw Hy. rewrite Hpc, H1p in Hy. injection Hy as <-.
      pose proof (parent_lt i ltac:(lia)) as Hlt. rewrite Ep in Hlt.
      rewrite H1o in Hw by lia. eapply Hb1; [exact Hi|lia|exact Hw|by rewrite Ep].
  - exists l'. split_and!; try done; [by rewrite Hlen'|by rewrite Hperm'|].
    intros i Hi Hpn. rewrite Ho by lia. apply H1o; lia.
Qed.

(** ** The operations *)

Lemma contents_perm n (l l' : list elt) : l' ≡ₚ l -> (forall i, (n <= i)%nat -> l' !! i = l !! i) ->
  take n l' ≡ₚ take n l.
Proof.
  intros Hp Ho. apply (Permutation_app_inv_r (drop n l)). rewrite take_drop.
  assert (drop n l = drop n l') as ->; [|by rewrite take_drop].
  apply list_eq. intros i. rewrite !lookup_drop. symmetry. apply Ho. lia.
Qed.

(** Everything in a heap is below its first element. *)
Lemma heap_top n l x : heap n l -> l !! 0%nat = Some x -> forall y, y ∈ take n l -> below y x.
Proof.
  intros Hh Hx y Hy. apply list_elem_of_lookup in Hy as [i Hi]. apply lookup_take_Some in Hi as [Hi Hin].
  revert y Hi Hin. induction i as [i IH] using lt_wf_ind. intros y Hi Hin.
  destruct (decide (i = 0%nat)) as [->|Hne].
  - rewrite Hx in Hi. injection Hi as ->. by destruct (cmp_total y y).
  - pose proof (parent_lt i ltac:(lia)) as Hlt. pose proof (lookup_lt_Some _ _ _ Hi).
    destruct (lookup_lt_is_Some_2 l (parent i)) as [z Hz]; [lia|].
    apply (cmp_trans y z); [eapply Hh; [|exact Hi|exact Hz]; lia|]. apply (IH (parent i)); [done|done|lia].
Qed.

(** No block has half of the address space. *)
Hypothesis alloc_bound : forall n, alloc_ok n = true -> n < 2 ^ 63.

(** Doubling an array that fits in memory does not wrap around. *)
Lemma grow_spec pq : pq_inv pq ->
  grow pq = if alloc_ok (elsize pq * 2 * Z.of_nat (allocated pq))
    then inl (mk_queue (elsize pq) (allocated pq * 2) (used pq) (els pq ++ replicate (allocated pq) junk))
    else inr (ERR_OUT_OF_MEMORY, pq).
Proof.
  intros [Hr _ Hs Hz Hb _]. unfold grow. set (a := allocated pq) in *. change (2 ^ 63) with 9223372036854775808 in Hb.
  rewrite (wrap_small 64 (elsize pq * 2 * Z.of_nat a)) by (pow2; nia).
  rewrite (wrap_small 64 (Z.of_nat a * 2)) by (pow2; nia). rewrite (proj2 (Z.eqb_neq _ 0)) by nia.
  destruct (alloc_ok _); [|done]. do 2 f_equal; [lia|]. unfold capacity.
  replace (elsize pq * 2 * Z.of_nat a) with (Z.of_nat (2 * a) * elsize pq) by lia.
  rewrite Z.div_mul, Nat2Z.id by lia. rewrite resize_ge by lia. do 2 f_equal. lia.
Qed.

Lemma push_room_spec pq el : pq_inv pq -> (used pq < allocated pq)%nat ->
  exists pq', (_ ← element (els pq) (S (used pq) - 1);
      l ← sift_up (S (used pq) - 1) (S (used pq) - 1) (<[(S (used pq) - 1)%nat := el]> (els pq));
      Some (ERR_NONE, mk_queue (elsize pq) (allocated pq) (S (used pq)) l)) = Some (ERR_NONE, pq') /\
    pq_inv pq' /\ contents pq' ≡ₚ el :: contents pq /\ elsize pq' = elsize pq.
Proof.
  intros [Hr Hu Hs Hz0 Hb0 Hh] Hlt. replace (S (used pq) - 1)%nat with (used pq) by lia.
  destruct (lookup_lt_is_Some_2 (els pq) (used pq)) as [z Hz]; [lia|]. unfold element. rewrite Hz. step.
  destruct (sift_up_spec (S (used pq)) (used pq) (used pq) (<[used pq := el]> (els pq)))
    as (l & -> & Hlen & Hheap & Hperm & Ho).
  - done.
  - rewrite length_insert. lia.
  - split.
    + intros i x y Hi Hne Hx Hy. pose proof (parent_lt i ltac:(lia)).
      rewrite list_lookup_insert_ne in Hx by lia. rewrite list_lookup_insert_ne in Hy by lia.
      eapply Hh; [|exact Hx|exact Hy]. lia.
    + intros i x y Hi Hpos Ep. pose proof (parent_lt i ltac:(lia)). lia.
  - step. eexists. split; [done|]. rewrite length_insert in Hlen. split.
    + constructor; cbn [els used allocated]; try done; lia.
    + split; [|done]. unfold contents. cbn [els used]. rewrite (contents_perm _ _ _ Hperm Ho).
      rewrite (take_S_r _ _ el) by (apply list_lookup_insert_eq; lia).
      rewrite take_insert_ge by lia. by rewrite <- Permutation_cons_append.
Qed.

Lemma push_spec pq el : pq_inv pq ->
  (exists pq', grub_priority_queue_push pq el = Some (ERR_NONE, pq') /\ pq_inv pq' /\
     contents pq' ≡ₚ el :: contents pq /\ elsize pq' = elsize pq) \/
  (grub_priority_queue_push pq el = Some (ERR_OUT_OF_MEMORY, pq) /\ used pq = allocated pq /\
     alloc_ok (elsize pq * 2 * Z.of_nat (allocated pq)) = false).
Proof.
  intros Hinv. unfold grub_priority_queue_push. destruct (Nat.eqb_spec (used pq) (allocated pq)) as [E|Hne].
  2: { left. apply push_room_spec; [done|]. pose proof (pq_used _ Hinv). lia. }
  rewrite grow_spec by done.
  destruct (alloc_ok (elsize pq * 2 * Z.of_nat (allocated pq))) eqn:Ea; [|by right].
  left. destruct Hinv as [Hr Hu Hs Hz Hb Hh].
  set (pq1 := mk_queue (elsize pq) (allocated pq * 2) (used pq) (els pq ++ replicate (allocated pq) junk)).
  destruct (push_room_spec pq1 el) as (pq' & E1 & Hinv' & Hp & Hes).
  - constructor; cbn [els used allocated elsize pq1].
    + rewrite length_app, length_replicate. lia.
    + lia.
    + lia.
    + done.
    + apply alloc_bound in Ea. lia.
    + intros i x y Hi Hx Hy. pose proof (parent_lt i ltac:(lia)).
      rewrite lookup_app_l in Hx by lia. rewrite lookup_app_l in Hy by lia. by eapply Hh.
  - cbn. lia.
  - exists pq'. split; [exact E1|]. split; [done|]. split; [|exact Hes]. rewrite Hp. unfold contents. cbn [els used pq1].
    by rewrite take_app_le by lia.
Qed.

Lemma pop_spec pq : pq_inv pq -> (0 < used pq)%nat ->
  exists x pq', grub_priority_queue_top pq = Some (Some x) /\ grub_priority_queue_pop pq = Some pq' /\ pq_inv pq' /\
    contents pq ≡ₚ x :: contents pq' /\ elsize pq' = elsize pq /\ forall y, y ∈ contents pq -> below y x.
Proof.
  intros [Hr Hu Hs Hz0 Hb0 Hh] Hpos. destruct (lookup_lt_is_Some_2 (els pq) 0) as [x Hx]; [lia|].
  unfold grub_priority_queue_top, grub_priority_queue_pop, element. rewrite Hx.
  destruct (Nat.eqb_spec (used pq) 0) as [|_]; [lia|]. step. set (n := (used pq - 1)%nat).
  destruct (lookup_lt_is_Some_2 (els pq) n) as [z Hz]; [lia|].
  assert (exists l1, swap 0 n (els pq) = Some l1 /\ length l1 = length (els pq) /\ l1 !! n = Some x /\
    (forall i, i <> 0%nat -> i <> n -> l1 !! i = els pq !! i) /\ l1 ≡ₚ els pq /\
    (forall i, (used pq <= i)%nat -> l1 !! i = els pq !! i)) as (l1 & E1 & Hlen & H1n & H1o & Hperm & Hout).
  { destruct (decide (n = 0%nat)) as [E0|Hn0].
    - exists (els pq). rewrite E0 in *. split_and!; try done. unfold swap, element. rewrite Hx. step. step.
      by rewrite !(list_insert_id (els pq) 0 x Hx).
    - destruct (swap_spec 0 n (els pq) x z Hx Hz ltac:(lia)) as (l1 & E & ? & _ & ? & Ho & ?).
      exists l1. split_and!; try done. intros i Hi. apply Ho; lia. }
  rewrite E1. step.
  destruct (sift_down_spec n (S n) 0 l1) as (l' & -> & Hlen' & Hheap & Hperm' & Ho); [lia|lia|lia| |].
  { split; [|lia]. intros i a b Hi Hp Ha Hb. pose proof (parent_lt i ltac:(lia)).
    rewrite H1o in Ha by lia. rewrite H1o in Hb by lia. eapply Hh; [|exact Ha|exact Hb]. lia. }
  step. eexists x, _. split; [done|]. split; [done|]. split.
  { constructor; cbn [els used allocated]; try done; lia. }
  split; [|split; [done|exact (heap_top _ _ _ Hh Hx)]].
  assert (take (used pq) l1 ≡ₚ contents pq) as <- by (apply contents_perm; [done|exact Hout]).
  replace (used pq) with (S n) by lia. rewrite (take_S_r _ _ _ H1n), <- Permutation_cons_append.
  constructor. unfold contents. cbn [els used]. symmetry.
  destruct (decide (n = 0%nat)) as [->|Hn0]; [done|]. apply contents_perm; [done|]. intros i Hi. apply Ho; lia.
Qed.

(** ** Refinement: a bag from which the greatest element is taken *)

Inductive qop := Push (x : elt) | Pop.

(** [Pop] reports the top, or nothing when the queue is empty. *)
Fixpoint run (ops : list qop) (pq : priority_queue) : option (list (option elt) * priority_queue) :=
  match ops with
  | [] => Some ([], pq)
  | Push x :: ops => '(_, pq) ← grub_priority_queue_push pq x; run ops pq
  | Pop :: ops =>
      t ← grub_priority_queue_top pq;
      pq ← match t with None => Some pq | Some _ => grub_priority_queue_pop pq end;
      '(outs, pq) ← run ops pq;
      Some (t :: outs, pq)
  end.

(** [esz]: the size of an element.  A push may be refused only when there is no memory for
    twice the elements of the bag. *)
Inductive bag_run (esz : Z) : list qop -> list elt -> list (option elt) -> list elt -> Prop :=
| bag_done b b' : b ≡ₚ b' -> bag_run esz [] b [] b'
| bag_push x ops b outs b' : bag_run esz ops (x :: b) outs b' -> bag_run esz (Push x :: ops) b outs b'
| bag_no_memory x ops b outs b' :
    alloc_ok (esz * 2 * Z.of_nat (length b)) = false ->
    bag_run esz ops b outs b' -> bag_run esz (Push x :: ops) b outs b'
| bag_pop x b1 ops b outs b' : b ≡ₚ x :: b1 -> (forall y, y ∈ b -> below y x) ->
    bag_run esz ops b1 outs b' -> bag_run esz (Pop :: ops) b (Some x :: outs) b'
| bag_pop_empty ops outs b' : bag_run esz ops [] outs b' -> bag_run esz (Pop :: ops) [] (None :: outs) b'.

Lemma bag_run_perm esz ops : forall b c outs b', b ≡ₚ c -> bag_run esz ops b outs b' -> bag_run esz ops c outs b'.
Proof.
  intros b c outs b' Hp Hr. revert c Hp. induction Hr as [b b' Hb|x ops b outs b' _ IH|x ops b outs b' Hn _ IH|
    x b1 ops b outs b' Hb Hmax Hr IH|ops outs b' Hr IH]; intros c Hp.
  - constructor. by rewrite <- Hp.
  - apply bag_push, IH. by rewrite Hp.
  - apply bag_no_memory; [by rewrite <- Hp|]. by apply IH.
  - eapply bag_pop; [by rewrite <- Hp|intros y Hy; apply Hmax; by rewrite Hp|done].
  - apply Permutation_nil_l in Hp as <-. by apply bag_pop_empty.
Qed.

Lemma run_spec ops : forall pq, pq_inv pq ->
  exists outs pq', run ops pq = Some (outs, pq') /\ pq_inv pq' /\ bag_run (elsize pq) ops (contents pq) outs (contents pq').
Proof.
  induction ops as [|[x|] ops IH]; intros pq Hinv; cbn [run].
  - exists [], pq. split_and!; try done. by constructor.
  - destruct (push_spec pq x Hinv) as [(pq1 & -> & Hinv1 & Hp & Hes)|(-> & Hfull & Hf)]; step.
    + destruct (IH pq1 Hinv1) as (outs & pq' & -> & Hinv' & Hr). exists outs, pq'. split_and!; try done.
      apply bag_push. rewrite <- Hes. by eapply bag_run_perm.
    + destruct (IH pq Hinv) as (outs & pq' & -> & Hinv' & Hr). exists outs, pq'. split_and!; try done.
      apply bag_no_memory; [|done]. unfold contents. rewrite length_take, (pq_room _ Hinv), Hfull, Nat.min_id. exact Hf.
  - destruct (decide (used pq = 0%nat)) as [E0|Hne].
    + unfold grub_priority_queue_top. rewrite (proj2 (Nat.eqb_eq _ _) E0). step. step.
      destruct (IH pq Hinv) as (outs & pq' & -> & Hinv' & Hr). step. exists (None :: outs), pq'. split_and!; try done.
      unfold contents in *. rewrite E0 in *. by apply bag_pop_empty.
    + destruct (pop_spec pq Hinv ltac:(lia)) as (x & pq1 & -> & Epop & Hinv1 & Hp & Hes & Hmax). step. rewrite Epop. step.
      destruct (IH pq1 Hinv1) as (outs & pq' & -> & Hinv' & Hr). step. exists (Some x :: outs), pq'.
      split_and!; try done. rewrite Hes in Hr. by eapply bag_pop.
Qed.

Lemma new_inv size pq : 0 < size -> grub_priority_queue_new size = Some pq ->
  pq_inv pq /\ contents pq = [] /\ elsize pq = size.
Proof.
  intros Hs. unfold grub_priority_queue_new. destruct (2 ^ 64 <=? 8 * size); [done|].
  destruct (alloc_ok (8 * size)) eqn:Ea; [|done]. destruct (alloc_ok 40); [|done]. intros [= <-].
  split; [|done]. apply alloc_bound in Ea. constructor; cbn [els used allocated elsize]; try lia; done.
Qed.

(** ** Sorting with the queue *)

Lemma drain_sorted esz n : forall b outs b', length b = n -> bag_run esz (replicate n Pop) b outs b' ->
  exists l, outs = Some <$> l /\ l ≡ₚ b /\ b' = [] /\ StronglySorted (fun x y => below y x) l.
Proof.
  induction n as [|n IH]; intros b outs b' Hn Hr; cbn [replicate] in Hr.
  - apply nil_length_inv in Hn as ->. inversion Hr as [? ? Hb| | | |]; subst. apply Permutation_nil_l in Hb as <-.
    exists []. by repeat constructor.
  - inversion Hr as [| | |x b1 ops b0 outs1 b2 Hb Hmax Hr1|]; subst; [|done].
    destruct (IH b1 outs1 b') as (l & -> & Hl & -> & Hs); [|done|].
    { apply Permutation_length in Hb. cbn in Hb. lia. }
    exists (x :: l). split_and!; try done; [by rewrite Hb, Hl|]. constructor; [done|].
    apply Forall_forall. intros y Hy. apply Hmax. rewrite Hb. constructor. by rewrite <- Hl.
Qed.

Lemma push_all esz xs : forall ops b outs b',
  (forall n, n <= Z.of_nat (length b + length xs) -> alloc_ok (esz * 2 * n) = true) ->
  bag_run esz ((Push <$> xs) ++ ops) b outs b' -> bag_run esz ops (rev xs ++ b) outs b'.
Proof.
  induction xs as [|x xs IH]; intros ops b outs b' Hok Hr; cbn in *; [done|].
  inversion Hr as [|x' ops' b0 outs' b1 Hr'|x' ops' b0 outs' b1 Hf Hr'| |]; subst.
  - rewrite <- app_assoc. apply (IH ops (x :: b)); [|done]. intros n Hn. apply Hok. cbn in Hn. lia.
  - rewrite (Hok (Z.of_nat (length b))) in Hf by lia. done.
Qed.
End Order.
End Queue.

(** * Properties *)

(** The comparison is a total preorder. *)
Record total_preorder (cmp : elt -> elt -> Z) : Prop := mk_total_preorder {
  tp_total : forall x y, cmp x y <= 0 \/ cmp y x <= 0;
  tp_trans : forall x y z, cmp x y <= 0 -> cmp y z <= 0 -> cmp x z <= 0
}.

(** C23: a priority queue of elements of at least one byte behaves as a bag from which the
    greatest element is taken, for any sequence of pushes and pops and any total preorder: every
    operation stays inside the array and its loops end, every top is an element of the bag that
    no other exceeds, and a push is lost only when there is no memory for an array of twice the
    elements, the queue then being unchanged.  The allocator may refuse any request and grants
    none of 2^63 bytes or more, so that the unchecked product of the sizes does not wrap. *)
Theorem queue_refines_bag alloc_ok junk errno cmp size pq ops : total_preorder cmp ->
  (forall n, alloc_ok n = true -> n < 2 ^ 63) -> 0 < size -> grub_priority_queue_new alloc_ok size = Some pq ->
  exists outs pq', run alloc_ok junk errno cmp ops pq = Some (outs, pq') /\
    bag_run alloc_ok cmp size ops [] outs (contents pq').
Proof.
  intros [Ht Htr] Hb Hs Hnew. destruct (new_inv alloc_ok cmp Hb size pq Hs Hnew) as (Hinv & Hc & Hes).
  destruct (run_spec alloc_ok junk errno cmp Ht Htr Hb ops pq Hinv) as (outs & pq' & E & _ & Hr).
  exists outs, pq'. split; [done|]. by rewrite <- Hes, <- Hc.
Qed.

(** Elements ordered by their first byte. *)
Definition first_byte (x y : elt) : Z := at0 x - at0 y.

Lemma first_byte_order : total_preorder first_byte.
Proof. constructor; unfold first_byte; intros; lia. Qed.

(** A memory that grants requests of up to a megabyte. *)
Definition plenty (n : Z) : bool := n <=? 2 ^ 20.

Lemma plenty_bound n : plenty n = true -> n < 2 ^ 63.
Proof. intros H%Z.leb_le. change (2 ^ 20) with 1048576 in H. lia. Qed.

Lemma queue_refines_bag_witness : exists outs pq',
  run plenty [] ERR_NONE first_byte [Push [3]; Push [1]; Push [4]; Pop; Pop; Pop; Pop]
    (mk_queue 1 8 0 (replicate 8 [0])) = Some (outs, pq') /\
  bag_run plenty first_byte 1 [Push [3]; Push [1]; Push [4]; Pop; Pop; Pop; Pop] [] outs (contents pq') /\
  outs = [Some [4]; Some [3]; Some [1]; None].
Proof.
  destruct (queue_refines_bag plenty [] ERR_NONE first_byte 1 (mk_queue 1 8 0 (replicate 8 [0]))
    [Push [3]; Push [1]; Push [4]; Pop; Pop; Pop; Pop] first_byte_order plenty_bound eq_refl eq_refl) as (outs & pq' & E & Hr).
  exists outs, pq'. split; [exact E|]. split; [exact Hr|]. vm_compute in E. by injection E as <- _.
Defined.

(** Pushing any elements into a new queue and popping as many gives exactly these elements
    in descending order, when memory does not run out: the growing of the array included. *)
Theorem queue_sorts alloc_ok junk errno cmp size pq xs : total_preorder cmp ->
  (forall n, alloc_ok n = true -> n < 2 ^ 63) -> 0 < size -> grub_priority_queue_new alloc_ok size = Some pq ->
  (forall n, n <= size * 2 * Z.of_nat (length xs) -> alloc_ok n = true) ->
  exists l pq', run alloc_ok junk errno cmp ((Push <$> xs) ++ replicate (length xs) Pop) pq = Some (Some <$> l, pq') /\
    l ≡ₚ xs /\ StronglySorted (fun x y => cmp y x <= 0) l /\ contents pq' = [].
Proof.
  intros [Ht Htr] Hb Hs Hnew Hok. destruct (new_inv alloc_ok cmp Hb size pq Hs Hnew) as (Hinv & Hc & Hes).
  destruct (run_spec alloc_ok junk errno cmp Ht Htr Hb ((Push <$> xs) ++ replicate (length xs) Pop) pq Hinv)
    as (outs & pq' & E & _ & Hr).
  rewrite Hc, Hes in Hr. apply push_all in Hr.
  2: { intros n Hn. apply Hok. cbn in Hn. nia. }
  rewrite app_nil_r in Hr.
  destruct (drain_sorted alloc_ok cmp size (length xs) (rev xs) outs (contents pq')) as (l & -> & Hl & Hb' & Hsort);
    [apply length_rev|done|].
  exists l, pq'. split_and!; try done. by rewrite Hl, <- Permutation_rev.
Qed.

Lemma queue_sorts_witness : exists l pq',
  run plenty [] ERR_NONE first_byte ((Push <$> [[3]; [1]; [4]; [1]; [5]; [9]; [2]; [6]; [5]; [3]]) ++ replicate 10 Pop)
    (mk_queue 1 8 0 (replicate 8 [0])) = Some (Some <$> l, pq') /\
  l = [[9]; [6]; [5]; [5]; [4]; [3]; [3]; [2]; [1]; [1]].
Proof.
  destruct (queue_sorts plenty [] ERR_NONE first_byte 1 (mk_queue 1 8 0 (replicate 8 [0]))
    [[3]; [1]; [4]; [1]; [5]; [9]; [2]; [6]; [5]; [3]] first_byte_order plenty_bound eq_refl eq_refl) as (l & pq' & E & _).
  - intros n Hn. apply Z.leb_le. cbn in Hn. change (2 ^ 20) with 1048576. lia.
  - exists l, pq'. split; [exact E|]. change (length [[3]; [1]; [4]; [1]; [5]; [9]; [2]; [6]; [5]; [3]]) with 10%nat in E.
    assert (fst <$> Some (Some <$> l, pq') =
      Some (Some <$> [[9]; [6]; [5]; [5]; [4]; [3]; [3]; [2]; [1]; [1]])) as H by (rewrite <- E; vm_compute; reflexivity).
    injection H as H. exact (inj (fmap (M := list) (@Some elt)) l [[9]; [6]; [5]; [5]; [4]; [3]; [3]; [2]; [1]; [1]] H).
Defined.

(** The product is not checked: with elements of 2^60 bytes, an allocator without limits would
    be asked for a block of no bytes when the ninth element comes. *)
Lemma grow_wraps junk errno l :
  grow (fun _ => true) junk errno (mk_queue (2 ^ 60) 8 8 l) = inr (errno, mk_queue (2 ^ 60) 8 8 []).
Proof. reflexivity. Qed.

End GrubQueue.
