(* ===== verification/GrubEnvblk.v ===== *)
(** The environment block that GRUB keeps variables in across boots:
    src/grub/grub-core/lib/envblk.c and src/grub/include/grub/lib/envblk.h.

    A block is its buffer, a list of characters; pointers into it are indices and [pend] is its
    size.  [None] is an access outside the buffer, or the overflow of a length, which the code
    keeps in variables of type [int]. *)

From S2P Require Import Prelude GrubStr.

Module GrubEnvblk.
Import GrubStr.

Definition GRUB_ENVBLK_SIGNATURE : list Z := chars "# GRUB Environment Block" ++ [10].

(** ** Moving and filling *)

Definition sub (l : list Z) (i n : Z) : list Z := take (Z.to_nat n) (drop (Z.to_nat i) l).

(** [grub_memmove (l + dst, l + src, n)]. *)
Definition memmove (dst src n : Z) (l : list Z) : option (list Z) :=
  if (0 <=? dst) && (0 <=? src) && (0 <=? n) && (dst + n <=? zlen l) && (src + n <=? zlen l)
  then Some (sub l 0 dst ++ sub l src n ++ drop (Z.to_nat (dst + n)) l) else None.

(** Writing [data] at [dst]. *)
Definition store (dst : Z) (data l : list Z) : option (list Z) :=
  if (0 <=? dst) && (dst + zlen data <=? zlen l)
  then Some (sub l 0 dst ++ data ++ drop (Z.to_nat (dst + zlen data)) l) else None.

Definition memset (dst c n : Z) (l : list Z) : option (list Z) :=
  if n <? 0 then None else store dst (replicate (Z.to_nat n) c) l.

(** The [n] first characters of a string, [n] an [int] converted to a size. *)
Definition first_chars (name : list Z) (n : Z) : option (list Z) :=
  if (0 <=? n) && (n <=? zlen name) then Some (take (Z.to_nat n) name) else None.

(** [grub_memcmp (l + p, name, n) == 0]. *)
Definition memcmp_eq (l : list Z) (p : Z) (name : list Z) (n : Z) : option bool :=
  name ← first_chars name n;
  if (0 <=? p) && (p + n <=? zlen l) then Some (bool_decide (sub l p n = name)) else None.

(** ** Opening *)

(** The block, or the error that is set; [alloc_ok]: whether the allocation succeeds. *)
Definition grub_envblk_open (alloc_ok : bool) (buf : list Z) : option (list Z) * grub_err_t :=
  if (zlen buf <? zlen GRUB_ENVBLK_SIGNATURE + 1) ||
     negb (bool_decide (sub buf 0 (zlen GRUB_ENVBLK_SIGNATURE) = GRUB_ENVBLK_SIGNATURE))
  then (None, ERR_BAD_FILE_TYPE)
  else if alloc_ok then (Some buf, ERR_NONE) else (None, ERR_OUT_OF_MEMORY).

(** ** Scanning *)

(** The loop of [escaped_value_len], which counts in the [int] [n]. *)
Fixpoint count_escaped (value : list Z) (n : Z) : option Z :=
  match value with
  | [] => Some n
  | c :: value => n ← int_val (n + if (c =? 92) || (c =? 10) then 2 else 1); count_escaped value n
  end.

Definition escaped_value_len (value : list Z) : option Z := count_escaped value 0.

(** [while (p < pend && l[p] != '\n') p += l[p] == '\\' ? 2 : 1]; every round moves on, so the
    size of the buffer bounds them. *)
Fixpoint line_end (fuel : nat) (l : list Z) (p : Z) : option Z :=
  match fuel with
  | O => None
  | S fuel =>
      if negb (p <? zlen l) then Some p else
      c ← aget l p;
      if c =? 10 then Some p
      else line_end fuel l (if c =? 92 then p + 2 else p + 1)
  end.

Definition find_next_line (l : list Z) (p : Z) : option Z :=
  e ← line_end (S (length l)) l p; Some (e + 1).

(** [for (space = pend - 1; *space == '#'; space--)]. *)
Fixpoint last_used (fuel : nat) (l : list Z) (space : Z) : option Z :=
  match fuel with
  | O => None
  | S fuel => c ← aget l space; if c =? 35 then last_used fuel l (space - 1) else Some space
  end.

(** [while (p + len < pend && p[len] != '\n') len += p[len] == '\\' ? 2 : 1], the [int] [len]. *)
Fixpoint scan_len (fuel : nat) (l : list Z) (p len : Z) : option Z :=
  match fuel with
  | O => None
  | S fuel =>
      if negb (p + len <? zlen l) then Some len else
      c ← aget l (p + len);
      if c =? 10 then Some len
      else len ← int_val (len + if c =? 92 then 2 else 1); scan_len fuel l p len
  end.

(** ** [grub_envblk_set] *)

(** The search for [name], of length [nl], up to [limit]: where its line starts. *)
Fixpoint search (fuel : nat) (l name : list Z) (nl limit p : Z) : option (option Z) :=
  match fuel with
  | O => None
  | S fuel =>
      if negb (p + nl + 1 <? limit) then Some None else
      e ← memcmp_eq l p name nl;
      c ← aget l (p + nl);
      if e && (c =? 61) then Some (Some p)
      else p ← find_next_line l p; search fuel l name nl limit p
  end.

(** The index [int i] of the loop stays below the escaped length. *)
Fixpoint write_value (value : list Z) (p : Z) (l : list Z) : option (list Z) :=
  match value with
  | [] => aset l p 10
  | c :: value =>
      '(p, l) ← (if (c =? 92) || (c =? 10) then l ← aset l p 92; Some (p + 1, l) else Some (p, l));
      l ← aset l p c;
      write_value value (p + 1) l
  end.

Definition grub_envblk_set (l name value : list Z) : option (Z * list Z) :=
  let nl := s32 (zlen name) in
  vl ← escaped_value_len value;
  let p := zlen GRUB_ENVBLK_SIGNATURE in
  let pend := zlen l in
  space ← last_used (S (length l)) l (pend - 1);
  c ← aget l space;
  if negb (c =? 10) then Some (0, l) else
  let space := space + 1 in
  found ← search (S (length l)) l name nl space p;
  match found with
  | Some p =>
      skip ← int_val (nl + 1);
      let p := p + skip in
      len ← scan_len (S (length l)) l p 0;
      if pend <=? p + len then Some (0, l) else
      more ← int_val (vl - len);
      if pend - space <? more then Some (0, l)
      else
        l ← (if vl <? len then
               l ← memmove (p + vl) (p + len) (pend - (p + len)) l;
               memset (space - (len - vl)) 35 (len - vl) l
             else memmove (p + vl) (p + len) (pend - (p + vl)) l);
        l ← write_value value p l;
        Some (1, l)
  | None =>
      n ← int_val (nl + 1);
      n ← int_val (n + vl);
      n ← int_val (n + 1);
      if pend - space <? n then Some (0, l)
      else
        name ← first_chars name nl;
        l ← store space name l;
        l ← aset l (space + nl) 61;
        l ← write_value value (space + nl + 1) l;
        Some (1, l)
  end.

(** ** [grub_envblk_delete]; its scan of the value makes the same tests in another order *)

Definition grub_envblk_delete (l name : list Z) : option (list Z) :=
  let nl := s32 (zlen name) in
  let pend := zlen l in
  found ← search (S (length l)) l name nl pend (zlen GRUB_ENVBLK_SIGNATURE);
  match found with
  | None => Some l
  | Some p =>
      len ← int_val (nl + 1);
      len ← scan_len (S (length l)) l p len;
      if pend <=? p + len then Some l
      else
        len ← int_val (len + 1);
        l ← memmove p (p + len) (pend - (p + len)) l;
        memset (pend - len) 35 len l
  end.

(** ** [grub_envblk_iterate] *)

(** [while (p < pend && *p != '=') p++]. *)
Fixpoint name_end (fuel : nat) (l : list Z) (p : Z) : option Z :=
  match fuel with
  | O => None
  | S fuel =>
      if negb (p <? zlen l) then Some p else
      c ← aget l p; if c =? 61 then Some p else name_end fuel l (p + 1)
  end.

(** The characters of a value, from its escaped form. *)
Fixpoint unescape (fuel : nat) (l : list Z) (p : Z) : option (list Z) :=
  match fuel with
  | O => None
  | S fuel =>
      c ← aget l p;
      if c =? 10 then Some []
      else if c =? 92 then
        d ← aget l (p + 1); r ← unescape fuel l (p + 2); Some (d :: r)
      else r ← unescape fuel l (p + 1); Some (c :: r)
  end.

(** A C string in a buffer ends at its first NUL. *)
Fixpoint upto_nul (l : list Z) : list Z :=
  match l with [] => [] | c :: l => if c =? 0 then [] else c :: upto_nul l end.

Section Iterate.
Context {S : Type}.
Variable alloc_ok : Z -> bool.
Variable hook : list Z -> list Z -> S -> Z * S.

Fixpoint iterate_loop (fuel : nat) (l : list Z) (p : Z) (s : S) : option S :=
  match fuel with
  | O => None
  | Datatypes.S fuel =>
      if negb (p <? zlen l) then Some s else
      c ← aget l p;
      let next p s := p ← find_next_line l p; iterate_loop fuel l p s in
      if (c =? 35) || (c =? 10) || (c =? 13) then next p s
      else
        q ← name_end (Datatypes.S (length l)) l p;
        if q =? zlen l then Some s else
        let value_start := q + 1 in
        e ← line_end (Datatypes.S (length l)) l value_start;
        if zlen l <=? e then Some s
        else if negb (alloc_ok (e - p + 1)) then Some s
        else
          value ← unescape (Datatypes.S (length l)) l value_start;
          let '(ret, s) := hook (upto_nul (sub l p (q - p))) (upto_nul value) s in
          if negb (ret =? 0) then Some s else next e s
  end.

Definition grub_envblk_iterate (l : list Z) (s : S) : option S :=
  iterate_loop (Datatypes.S (length l)) l (zlen GRUB_ENVBLK_SIGNATURE) s.
End Iterate.

(** * What a block holds *)

Definition esc1 (c : Z) : list Z := if (c =? 92) || (c =? 10) then [92; c] else [c].
Definition escape (v : list Z) : list Z := mjoin (esc1 <$> v).

Abbreviation entry := (list Z * list Z)%type.

Definition render1 (e : entry) : list Z := e.1 ++ 61 :: escape e.2 ++ [10].
Definition render (env : list entry) : list Z := mjoin (render1 <$> env).

(** Characters that names may have, and the first character of a line that holds a variable. *)
Definition plain (c : Z) : Prop := c <> 0 /\ c <> 10 /\ c <> 61 /\ c <> 92.
Definition good_name (n : list Z) : Prop := Forall plain n /\ n <> [] /\ head n <> Some 35 /\ head n <> Some 13.
Definition good_value (v : list Z) : Prop := Forall (fun c => c <> 0) v.
Definition good_env (env : list entry) : Prop := Forall (fun e => good_name e.1 /\ good_value e.2) env.

Definition room (env : list entry) (n : Z) : Z := n - (zlen GRUB_ENVBLK_SIGNATURE + zlen (render env)).

(** A block of [n] characters with the variables [env]. *)
Definition holds (l : list Z) (env : list entry) : Prop :=
  0 <= room env (zlen l) /\
  l = GRUB_ENVBLK_SIGNATURE ++ render env ++ replicate (Z.to_nat (room env (zlen l))) 35.

(** ** Positions *)

Ltac zl := rewrite ?zlen_app, ?zlen_cons, ?zlen_replicate in *; cbn [app] in *;
  repeat match goal with
  | |- context [zlen ?l] => lazymatch goal with H : 0 <= zlen l |- _ => fail | _ => pose proof (zlen_nonneg l) end
  | H : context [zlen ?l] |- _ => lazymatch goal with H : 0 <= zlen l |- _ => fail | _ => pose proof (zlen_nonneg l) end
  end; try lia.

Lemma escape_cons c v : escape (c :: v) = esc1 c ++ escape v.
Proof. done. Qed.

Lemma count_escaped_spec v : forall n, 0 <= n -> n + zlen (escape v) < 2 ^ 31 -> count_escaped v n = Some (n + zlen (escape v)).
Proof.
  induction v as [|c v IH]; intros n Hn Hv; [by rewrite Z.add_0_r|]. cbn [count_escaped]. rewrite escape_cons, zlen_app in *.
  assert (zlen (esc1 c) = if (c =? 92) || (c =? 10) then 2 else 1) as E by (unfold esc1; by destruct (_ || _)).
  rewrite <- E. pose proof (zlen_nonneg (escape v)). pose proof (zlen_nonneg (esc1 c)). rewrite int_val_ok by lia. step.
  rewrite IH by lia. f_equal. lia.
Qed.

Lemma escaped_value_len_spec v : zlen (escape v) < 2 ^ 31 -> escaped_value_len v = Some (zlen (escape v)).
Proof. intros H. unfold escaped_value_len. by rewrite count_escaped_spec. Qed.

Lemma line_end_mono fuel l : forall p e, line_end fuel l p = Some e -> p <= e.
Proof.
  induction fuel as [|fuel IH]; intros p e; [done|]. cbn [line_end]. destruct (p <? zlen l); cbn [negb]; [|intros [= ->]; lia].
  destruct (aget l p) as [c|]; [|done]. step. destruct (c =? 10); [intros [= ->]; lia|].
  intros H%IH. destruct (c =? 92); lia.
Qed.

Lemma scan_len_spec fuel l p : forall len e, line_end fuel l (p + len) = Some e -> 0 <= len -> e - p < 2 ^ 31 ->
  scan_len fuel l p len = Some (e - p).
Proof.
  induction fuel as [|fuel IH]; intros len e; [done|]. cbn [line_end scan_len].
  destruct (p + len <? zlen l); cbn [negb]; [|intros [= <-] _ _; f_equal; lia].
  destruct (aget l (p + len)) as [c|]; [|done]. step. step. destruct (c =? 10); [intros [= <-] _ _; f_equal; lia|].
  intros H Hlen He. pose proof (line_end_mono _ _ _ _ H). rewrite int_val_ok by (destruct (c =? 92); lia). step.
  apply IH; [|destruct (c =? 92); lia|done]. rewrite <- H. f_equal. destruct (c =? 92); lia.
Qed.

Lemma first_chars_all name : first_chars name (zlen name) = Some name.
Proof.
  unfold first_chars. pose proof (zlen_nonneg name). zres. unfold zlen. by rewrite Nat2Z.id, firstn_all.
Qed.

Lemma memcmp_eq_all l p name : 0 <= p -> p + zlen name <= zlen l ->
  memcmp_eq l p name (zlen name) = Some (bool_decide (sub l p (zlen name) = name)).
Proof. intros Hp Hl. unfold memcmp_eq. rewrite first_chars_all. step. by zres. Qed.

Lemma int_len n : 0 <= n < 2 ^ 31 -> s32 n = n.
Proof. intros H. apply sgn_small; [lia|]. change (2 ^ (32 - 1)) with (2 ^ 31). lia. Qed.

Lemma sub_middle (a x b : list Z) : sub (a ++ x ++ b) (zlen a) (zlen x) = x.
Proof. unfold sub, zlen. rewrite !Nat2Z.id, drop_app_length, take_app_length. done. Qed.

Lemma sub_prefix (a b : list Z) : sub (a ++ b) 0 (zlen a) = a.
Proof. unfold sub, zlen. rewrite Nat2Z.id. change (Z.to_nat 0) with 0%nat. rewrite drop_0. apply take_app_length. Qed.

Lemma drop_prefix (a b : list Z) : drop (Z.to_nat (zlen a)) (a ++ b) = b.
Proof. unfold zlen. rewrite Nat2Z.id. apply drop_app_length. Qed.

Lemma store_middle (a x b d : list Z) : zlen x = zlen d -> store (zlen a) d (a ++ x ++ b) = Some (a ++ d ++ b).
Proof.
  intros E. unfold store. pose proof (zlen_nonneg a). pose proof (zlen_nonneg b). rewrite !zlen_app, E. zres.
  rewrite sub_prefix. do 3 f_equal. rewrite <- E, <- zlen_app, app_assoc. apply drop_prefix.
Qed.

(** A move to the left over [x], of the rest [r] of the buffer; [t] is what it leaves behind. *)
Lemma memmove_left (a x r : list Z) :
  exists t, memmove (zlen a) (zlen (a ++ x)) (zlen r) (a ++ x ++ r) = Some (a ++ r ++ t) /\ zlen t = zlen x /\
    exists u, x ++ r = u ++ t.
Proof.
  unfold memmove. pose proof (zlen_nonneg a). pose proof (zlen_nonneg x). pose proof (zlen_nonneg r).
  rewrite !zlen_app. zres. rewrite sub_prefix. exists (drop (length r) (x ++ r)). split_and!.
  - do 2 f_equal. rewrite app_assoc, <- zlen_app.
    assert (sub ((a ++ x) ++ r) (zlen (a ++ x)) (zlen r) = r) as E.
    { rewrite <- (app_nil_r r) at 1. apply sub_middle. }
    rewrite E. f_equal. unfold zlen. rewrite <- Nat2Z.inj_add, Nat2Z.id, <- app_assoc.
    rewrite drop_app. rewrite drop_ge by lia. by replace (length a + length r - length a)%nat with (length r) by lia.
  - unfold zlen. rewrite length_drop, length_app. lia.
  - exists (take (length r) (x ++ r)). by rewrite take_drop.
Qed.

(** A move to the right by the length of [t], which falls off the end. *)
Lemma memmove_right (a x r t : list Z) :
  exists w, memmove (zlen (a ++ x) + zlen t) (zlen (a ++ x)) (zlen r) (a ++ x ++ r ++ t) = Some (a ++ w ++ r) /\
    zlen w = zlen x + zlen t.
Proof.
  assert (sub (a ++ x ++ r ++ t) (zlen (a ++ x)) (zlen r) = r) as E1 by (rewrite app_assoc; apply sub_middle).
  assert (sub (a ++ x ++ r ++ t) 0 (zlen (a ++ x) + zlen t) = a ++ take (length x + length t) (x ++ r ++ t)) as E2.
  { unfold sub, zlen. change (Z.to_nat 0) with 0%nat. rewrite drop_0, take_app_ge by (rewrite length_app; lia).
    do 2 f_equal. rewrite length_app. lia. }
  exists (take (length x + length t) (x ++ r ++ t)). split.
  - unfold memmove. rewrite E1, E2. pose proof (zlen_nonneg a). pose proof (zlen_nonneg x). pose proof (zlen_nonneg r).
    pose proof (zlen_nonneg t). rewrite !zlen_app. zres.
    rewrite drop_ge by (unfold zlen; rewrite !length_app; lia). by rewrite app_nil_r, <- app_assoc.
  - unfold zlen. rewrite length_take, !length_app. lia.
Qed.

Lemma zlen_zero (w : list Z) : zlen w = 0 -> w = [].
Proof. destruct w; [done|]. rewrite zlen_cons. pose proof (zlen_nonneg w). lia. Qed.

Lemma zlen_pos (w : list Z) n : zlen w = 1 + n -> 0 <= n -> exists c w', w = c :: w' /\ zlen w' = n.
Proof. destruct w as [|c w]; [change (zlen []) with 0; lia|]. rewrite zlen_cons. intros. exists c, w. split; [done|lia]. Qed.

Lemma aset_snoc (a b : list Z) d e : aset (a ++ d :: b) (zlen a) e = Some ((a ++ [e]) ++ b).
Proof. rewrite aset_middle. by rewrite <- app_assoc. Qed.

Lemma zlen_snoc (a : list Z) e : zlen a + 1 = zlen (a ++ [e]).
Proof. rewrite zlen_app. done. Qed.

Lemma write_value_spec v : forall a w c b, zlen w = zlen (escape v) ->
  write_value v (zlen a) (a ++ w ++ c :: b) = Some (a ++ escape v ++ 10 :: b).
Proof.
  induction v as [|d v IH]; intros a w c b Hw; cbn [write_value].
  - apply zlen_zero in Hw as ->. apply aset_middle.
  - rewrite escape_cons in *. unfold esc1 in *. pose proof (zlen_nonneg (escape v)).
    destruct ((d =? 92) || (d =? 10)); rewrite zlen_app, ?zlen_cons in Hw; change (zlen []) with 0 in Hw.
    + destruct (zlen_pos w (1 + zlen (escape v))) as (w1 & w' & -> & Hw'); [lia..|].
      destruct (zlen_pos w' (zlen (escape v))) as (w2 & w'' & -> & Hw''); [lia..|].
      cbn [app]. rewrite aset_snoc. step. step. rewrite (zlen_snoc a 92), aset_snoc. step.
      rewrite (zlen_snoc _ d), IH by lia. by rewrite <- !app_assoc.
    + destruct (zlen_pos w (zlen (escape v))) as (w1 & w' & -> & Hw'); [lia..|].
      cbn [app]. step. rewrite aset_snoc. step. rewrite (zlen_snoc a d), IH by lia. by rewrite <- !app_assoc.
Qed.
(** ** Lines *)

Lemma line_end_step fuel a c b : c <> 10 -> c <> 92 ->
  line_end (S fuel) (a ++ c :: b) (zlen a) = line_end fuel ((a ++ [c]) ++ b) (zlen (a ++ [c])).
Proof.
  intros H1 H2. cbn [line_end]. rewrite aget_middle. rewrite zlen_app, zlen_cons. pose proof (zlen_nonneg b). zres.
  step. rewrite (proj2 (Z.eqb_neq c 10)), (proj2 (Z.eqb_neq c 92)) by done. by rewrite <- zlen_snoc, <- app_assoc.
Qed.

Lemma line_end_escaped fuel a c b :
  line_end (S fuel) (a ++ 92 :: c :: b) (zlen a) = line_end fuel ((a ++ [92; c]) ++ b) (zlen (a ++ [92; c])).
Proof.
  cbn [line_end]. rewrite aget_middle. rewrite !zlen_app, !zlen_cons. pose proof (zlen_nonneg b). zres.
  step. cbn [Z.eqb Pos.eqb]. rewrite <- app_assoc. done.
Qed.

Lemma line_end_stop fuel a b : line_end (S fuel) (a ++ 10 :: b) (zlen a) = Some (zlen a).
Proof.
  cbn [line_end]. rewrite aget_middle, zlen_app, zlen_cons. pose proof (zlen_nonneg b). zres. by step.
Qed.

Lemma line_end_plain x : forall fuel a b, Forall (fun c => c <> 10 /\ c <> 92) x ->
  line_end (length x + fuel) (a ++ x ++ b) (zlen a) = line_end fuel ((a ++ x) ++ b) (zlen (a ++ x)).
Proof.
  induction x as [|c x IH]; intros fuel a b Hx; [by rewrite app_nil_r|]. apply Forall_cons in Hx as [[H1 H2] Hx].
  cbn [length Nat.add app]. rewrite line_end_step, IH by done. by rewrite <- (app_assoc a [c] x).
Qed.

Lemma line_end_escape v : forall fuel a b,
  line_end (length v + fuel) (a ++ escape v ++ b) (zlen a) = line_end fuel ((a ++ escape v) ++ b) (zlen (a ++ escape v)).
Proof.
  induction v as [|c v IH]; intros fuel a b; [by rewrite app_nil_r|]. rewrite escape_cons. unfold esc1.
  cbn [length Nat.add]. destruct (Z.eqb_spec c 92), (Z.eqb_spec c 10); cbn [orb app];
    (rewrite line_end_escaped || rewrite line_end_step by done); rewrite IH;
    rewrite <- (app_assoc a [c] (escape v)) || rewrite <- (app_assoc a [92; c] (escape v)); done.
Qed.

Lemma line_end_value fuel a v b : (length v < fuel)%nat ->
  line_end fuel (a ++ escape v ++ 10 :: b) (zlen a) = Some (zlen (a ++ escape v)).
Proof.
  intros Hf. replace fuel with (length v + S (fuel - length v - 1))%nat by lia.
  rewrite line_end_escape. apply line_end_stop.
Qed.

Lemma length_escape v : (length v <= length (escape v))%nat.
Proof.
  induction v as [|c v IH]; [done|]. rewrite escape_cons, length_app. unfold esc1.
  destruct ((c =? 92) || (c =? 10)); cbn [length]; lia.
Qed.

Lemma plain_scan n : Forall plain n -> Forall (fun c => c <> 10 /\ c <> 92) (n ++ [61]).
Proof.
  intros Hn. apply Forall_app. split; [|by repeat constructor]. eapply Forall_impl; [exact Hn|].
  intros c (_ & ? & _ & ?). done.
Qed.

Lemma find_next_line_spec a e b : Forall plain e.1 ->
  find_next_line (a ++ render1 e ++ b) (zlen a) = Some (zlen (a ++ render1 e)).
Proof.
  intros Hn. unfold find_next_line, render1. pose proof (length_escape e.2) as Hl.
  replace (a ++ (e.1 ++ 61 :: escape e.2 ++ [10]) ++ b) with (a ++ (e.1 ++ [61%Z]) ++ escape e.2 ++ 10 :: b)
    by (rewrite <- !app_assoc; cbn [app]; by rewrite <- !app_assoc).
  set (l := a ++ (e.1 ++ [61%Z]) ++ escape e.2 ++ 10 :: b).
  assert (exists k, S (length l) = (length (e.1 ++ [61%Z]) + (length e.2 + S k))%nat) as [k Hk].
  { exists (length l - length (e.1 ++ [61%Z]) - length e.2)%nat. unfold l. rewrite !length_app. cbn [length]. lia. }
  rewrite Hk. unfold l. rewrite line_end_plain by (by apply plain_scan). rewrite line_end_escape, line_end_stop. step.
  f_equal. rewrite !zlen_app, !zlen_cons, !zlen_app. change (@zlen Z []) with 0. change (zlen [10]) with 1. lia.
Qed.

Lemma last_used_spec c k : forall fuel a b, c <> 35 -> (k < fuel)%nat ->
  last_used fuel (a ++ c :: replicate k 35 ++ b) (zlen a + Z.of_nat k) = Some (zlen a).
Proof.
  induction k as [|k IH]; intros fuel a b Hc Hf; (destruct fuel as [|fuel]; [lia|]); cbn [last_used].
  - rewrite Z.add_0_r. cbn [replicate app]. rewrite aget_middle. step. by rewrite (proj2 (Z.eqb_neq c 35)).
  - rewrite replicate_S_end, <- app_assoc. cbn [app].
    replace (zlen a + Z.of_nat (S k)) with (zlen (a ++ c :: replicate k 35))
      by (rewrite zlen_app, zlen_cons, zlen_replicate; lia).
    replace (a ++ c :: replicate k 35 ++ 35 :: b) with ((a ++ c :: replicate k 35) ++ 35 :: b) by (by rewrite <- app_assoc).
    rewrite aget_middle. step. cbn [Z.eqb Pos.eqb].
    replace (zlen (a ++ c :: replicate k 35) - 1) with (zlen a + Z.of_nat k)
      by (rewrite zlen_app, zlen_cons, zlen_replicate; lia).
    rewrite <- app_assoc. cbn [app]. apply IH; [done|lia].
Qed.

(** ** The search *)

(** The line at [a] is the variable [name] exactly when the test of the code says so. *)
Lemma match_line a e b name : Forall plain e.1 -> Forall plain name -> zlen a + zlen name + 1 <= zlen (a ++ render1 e ++ b) ->
  exists t c, memcmp_eq (a ++ render1 e ++ b) (zlen a) name (zlen name) = Some t /\
    aget (a ++ render1 e ++ b) (zlen a + zlen name) = Some c /\ t && (c =? 61) = bool_decide (e.1 = name).
Proof.
  intros He Hn Hlen. set (l := a ++ render1 e ++ b) in *. pose proof (zlen_nonneg a). pose proof (zlen_nonneg name).
  destruct (aget_Some l (zlen a + zlen name)) as [c Hc]; [lia|].
  exists (bool_decide (sub l (zlen a) (zlen name) = name)), c. split_and!; [|done|].
  { apply memcmp_eq_all; lia. }
  assert (forall i x, (render1 e ++ b) !! i = Some x -> l !! (length a + i)%nat = Some x) as Hl.
  { intros i x Hi. unfold l. rewrite lookup_app_r by lia. by replace (length a + i - length a)%nat with i by lia. }
  assert (sub l (zlen a) (zlen name) = take (length name) (render1 e ++ b)) as ->.
  { unfold sub, l, zlen. rewrite !Nat2Z.id, drop_app_length. done. }
  assert ((render1 e ++ b) !! length name = Some c) as Hc'.
  { unfold aget in Hc. revert Hc. zres. unfold l, zlen. rewrite <- Nat2Z.inj_add, Nat2Z.id.
    rewrite lookup_app_r by lia. by replace (length a + length name - length a)%nat with (length name) by lia. }
  unfold render1 in *. rewrite <- app_assoc in *. cbn [app] in *.
  destruct (lt_eq_lt_dec (length e.1) (length name)) as [[Hlt|Heq]|Hgt].
  - rewrite (bool_decide_false (_ = name)); [|].
    + cbn. symmetry. apply bool_decide_false. intros E. rewrite E in Hlt. lia.
    + intros E. assert (name !! length e.1 = Some 61) as H61.
      { rewrite <- E. rewrite lookup_take_lt by lia. by apply list_lookup_middle. }
      rewrite Forall_forall in Hn. by destruct (Hn 61 (list_elem_of_lookup_2 _ _ _ H61)) as (_ & _ & ? & _).
  - rewrite <- Heq in Hc' |- *. rewrite list_lookup_middle in Hc' by done. injection Hc' as <-.
    rewrite take_app_length. cbn. by rewrite andb_true_r.
  - rewrite lookup_app_l in Hc' by done. rewrite Forall_forall in He.
    destruct (He c (list_elem_of_lookup_2 _ _ _ Hc')) as (_ & _ & Hne & _).
    rewrite (proj2 (Z.eqb_neq c 61) Hne), andb_false_r. symmetry. apply bool_decide_false. intros E. rewrite E in Hgt. lia.
Qed.

Lemma render_cons e env : render (e :: env) = render1 e ++ render env.
Proof. done. Qed.

Lemma render_app e1 e2 : render (e1 ++ e2) = render e1 ++ render e2.
Proof. unfold render. by rewrite fmap_app, join_app. Qed.

Lemma render1_length e : zlen (render1 e) = zlen e.1 + zlen (escape e.2) + 2.
Proof. unfold render1. rewrite zlen_app, zlen_cons, zlen_app. change (zlen [10]) with 1. lia. Qed.

Definition plain_names (env : list entry) : Prop := Forall (fun e => Forall plain e.1) env.

Lemma search_found e1 : forall fuel a e e2 b limit, plain_names (e1 ++ [e]) -> e.1 ∉ e1.*1 -> (length e1 < fuel)%nat ->
  zlen (a ++ render (e1 ++ e :: e2)) <= limit <= zlen (a ++ render (e1 ++ e :: e2) ++ b) ->
  search fuel (a ++ render (e1 ++ e :: e2) ++ b) e.1 (zlen e.1) limit (zlen a) = Some (Some (zlen (a ++ render e1))).
Proof.
  induction e1 as [|d e1 IH]; intros fuel a e e2 b limit Hp Hn Hf Hlim; (destruct fuel as [|fuel]; [cbn in Hf; lia|]);
    cbn [app] in *; cbn [search]; rewrite render_cons in *; rewrite <- app_assoc in *.
  - apply Forall_cons in Hp as [Hp _].
    destruct (match_line a e (render e2 ++ b) e.1 Hp Hp) as (t & c & Et & Ec & E).
    { rewrite !zlen_app, render1_length. zl. }
    rewrite Et, Ec. assert (zlen a + zlen e.1 + 1 < limit) as Hlt.
    { rewrite !zlen_app, render1_length in Hlim. zl. }
    zres. step. step. rewrite E, bool_decide_true by done. by rewrite app_nil_r.
  - apply Forall_cons in Hp as [Hd Hp]. rewrite fmap_cons, not_elem_of_cons in Hn. destruct Hn as [Hne Hn].
    assert (Forall plain e.1) as He.
    { rewrite Forall_app in Hp. destruct Hp as [_ Hp]. by apply Forall_cons in Hp as [? _]. }
    rewrite !zlen_app, render1_length, render_app, render_cons, !zlen_app, render1_length in Hlim.
    destruct (match_line a d (render (e1 ++ e :: e2) ++ b) e.1 Hd He) as (t & c & Et & Ec & E).
    { rewrite !zlen_app, render1_length, render_app, render_cons, !zlen_app, render1_length. zl. }
    rewrite Et, Ec. assert (zlen a + zlen e.1 + 1 < limit) as Hlt by zl. zres. step. step.
    rewrite E, bool_decide_false by (intros E'; by apply Hne). cbv iota.
    rewrite find_next_line_spec by done. step. rewrite app_assoc, IH; try done.
    + by rewrite <- app_assoc.
    + cbn in Hf. lia.
    + rewrite !zlen_app, render1_length, render_app, render_cons, !zlen_app, render1_length. lia.
Qed.

Lemma search_absent env : forall fuel a b name limit l, plain_names env -> Forall plain name -> name ∉ env.*1 ->
  (length env < fuel)%nat -> l = a ++ render env ++ b -> zlen (a ++ render env) <= limit <= zlen l ->
  (forall f, (fuel - length env <= f)%nat -> search f l name (zlen name) limit (zlen (a ++ render env)) = Some None) ->
  search fuel l name (zlen name) limit (zlen a) = Some None.
Proof.
  induction env as [|d env IH]; intros fuel a b name limit l Hp Hname Hn Hf El Hlim Hend.
  - rewrite <- (app_nil_r a) at 1. apply Hend. cbn. lia.
  - destruct fuel as [|fuel]; [cbn in Hf; lia|]. cbn [search].
    destruct (Z.ltb_spec (zlen a + zlen name + 1) limit) as [Hlt|_]; [|done]. cbn [negb].
    apply Forall_cons in Hp as [Hd Hp]. rewrite fmap_cons, not_elem_of_cons in Hn. destruct Hn as [Hne Hn].
    rewrite render_cons, <- app_assoc in El.
    destruct (match_line a d (render env ++ b) name Hd Hname) as (t & c & Et & Ec & E); [rewrite <- El; lia|].
    rewrite <- El in Et, Ec. rewrite Et, Ec. step. step.
    rewrite E, bool_decide_false by (intros E'; by apply Hne). cbv iota.
    rewrite El, find_next_line_spec by done. step. rewrite <- El.
    apply (IH fuel (a ++ render1 d) b); try done.
    + cbn in Hf. lia.
    + rewrite El. by rewrite <- app_assoc.
    + rewrite render_cons in Hlim. by rewrite <- app_assoc.
    + intros f Hf'. rewrite <- app_assoc, <- render_cons. apply Hend. cbn [length]. lia.
Qed.

Lemma length_render env : (length env <= length (render env))%nat.
Proof.
  induction env as [|e env IH]; [done|]. rewrite render_cons, length_app. unfold render1. rewrite length_app. cbn. lia.
Qed.

Lemma search_past_end fuel a k name : (1 < fuel)%nat -> good_name name ->
  search fuel (a ++ replicate k 35) name (zlen name) (zlen (a ++ replicate k 35)) (zlen a) = Some None.
Proof.
  intros Hf (Hp & Hne & H35 & _). destruct fuel as [|[|fuel]]; [lia|lia|]. cbn [search].
  set (l := a ++ replicate k 35). assert (zlen l = zlen a + Z.of_nat k) as Hl by (unfold l; rewrite zlen_app, zlen_replicate; lia).
  destruct (Z.ltb_spec (zlen a + zlen name + 1) (zlen l)) as [Hlt|_]; [|done]. cbn [negb].
  destruct name as [|c name]; [done|]. pose proof (zlen_nonneg a). rewrite zlen_cons in *. pose proof (zlen_nonneg name).
  assert (memcmp_eq l (zlen a) (c :: name) (1 + zlen name) = Some false) as ->.
  { rewrite <- (zlen_cons c name), memcmp_eq_all by (rewrite ?zlen_cons; lia). rewrite zlen_cons. f_equal. apply bool_decide_false. intros E.
    destruct k as [|k]; [lia|]. unfold sub, l in E. replace (Z.to_nat (zlen a)) with (length a) in E by (unfold zlen; lia). rewrite drop_app_length in E.
    replace (Z.to_nat (1 + zlen name)) with (S (length name)) in E by (unfold zlen; lia).
    cbn in E. injection E as E _. by rewrite <- E in H35. }
  step. destruct (aget_Some l (zlen a + (1 + zlen name))) as [x Hx]; [lia|]. rewrite Hx. step. cbn [andb].
  unfold find_next_line. assert (line_end (S (length l)) l (zlen a) = Some (zlen l)) as ->.
  { unfold l. rewrite <- (app_nil_r (replicate k 35)).
    assert (S (length (a ++ replicate k 35%Z ++ [])) = length (replicate k 35%Z) + S (length a))%nat as ->
      by (rewrite !length_app; cbn; lia).
    rewrite line_end_plain by (apply Forall_replicate; lia). rewrite !app_nil_r. cbn [line_end].
    rewrite (proj2 (Z.ltb_ge _ _)) by lia. done. }
  step. step. rewrite (proj2 (Z.ltb_ge (zlen l + 1 + (1 + zlen name) + 1) (zlen l))) by lia. done.
Qed.

(** * Setting, deleting, listing *)

Fixpoint upsert (n v : list Z) (env : list entry) : list entry :=
  match env with
  | [] => [(n, v)]
  | e :: env => if decide (e.1 = n) then (n, v) :: env else e :: upsert n v env
  end.

Fixpoint remove1 (n : list Z) (env : list entry) : list entry :=
  match env with
  | [] => []
  | e :: env => if decide (e.1 = n) then env else e :: remove1 n env
  end.

Lemma find_entry (n : list Z) (env : list entry) :
  n ∉ env.*1 \/ exists (e1 : list entry) v e2, env = e1 ++ (n, v) :: e2 /\ n ∉ e1.*1.
Proof.
  induction env as [|[m w] env [IH|(e1 & v & e2 & -> & Hn)]]; [left; apply not_elem_of_nil|..];
    (destruct (decide (m = n)) as [->|Hne]; [right; exists (@nil entry), w; eexists; split; [reflexivity|apply not_elem_of_nil]|]).
  - left. rewrite fmap_cons, not_elem_of_cons. split; [by intros ->|done].
  - right. exists ((m, w) :: e1), v, e2. split; [done|]. rewrite fmap_cons, not_elem_of_cons. split; [by intros ->|done].
Qed.

Lemma upsert_absent n v env : n ∉ env.*1 -> upsert n v env = env ++ [(n, v)].
Proof.
  induction env as [|e env IH]; [done|]. rewrite fmap_cons, not_elem_of_cons. intros [Hne Hn]. cbn.
  rewrite decide_False by (intros E; by apply Hne). by rewrite IH.
Qed.

Lemma upsert_present n v e1 w e2 : n ∉ e1.*1 -> upsert n v (e1 ++ (n, w) :: e2) = e1 ++ (n, v) :: e2.
Proof.
  induction e1 as [|e e1 IH]; [cbn; by rewrite decide_True|]. rewrite fmap_cons, not_elem_of_cons. intros [Hne Hn]. cbn.
  rewrite decide_False by (intros E; by apply Hne). by rewrite IH.
Qed.

Lemma remove1_absent n env : n ∉ env.*1 -> remove1 n env = env.
Proof.
  induction env as [|e env IH]; [done|]. rewrite fmap_cons, not_elem_of_cons. intros [Hne Hn]. cbn.
  rewrite decide_False by (intros E; by apply Hne). by rewrite IH.
Qed.

Lemma remove1_present n e1 w e2 : n ∉ e1.*1 -> remove1 n (e1 ++ (n, w) :: e2) = e1 ++ e2.
Proof.
  induction e1 as [|e e1 IH]; [cbn; by rewrite decide_True|]. rewrite fmap_cons, not_elem_of_cons. intros [Hne Hn]. cbn.
  rewrite decide_False by (intros E; by apply Hne). by rewrite IH.
Qed.

Lemma good_plain env : good_env env -> plain_names env.
Proof. intros H. eapply Forall_impl; [exact H|]. by intros e [[? _] _]. Qed.

(** The used part of a block ends with a newline. *)
Lemma used_last env : exists a, GRUB_ENVBLK_SIGNATURE ++ render env = a ++ [10].
Proof.
  destruct env as [|e env] using rev_ind.
  - exists (chars "# GRUB Environment Block"). by rewrite app_nil_r.
  - exists (GRUB_ENVBLK_SIGNATURE ++ render env ++ e.1 ++ 61 :: escape e.2). rewrite render_app. unfold render at 2.
    cbn [fmap list_fmap mjoin list_join]. unfold render1. rewrite <- !app_assoc. cbn [app].
    by rewrite <- !app_assoc, app_nil_r.
Qed.

Lemma holds_of a env n : zlen a = n -> a = GRUB_ENVBLK_SIGNATURE ++ render env ++ replicate (Z.to_nat (room env n)) 35 ->
  0 <= room env n -> holds a env.
Proof. intros <- E Hr. by split. Qed.

Section Set_.
Context (env : list entry) (n v : list Z) (k : nat).
Hypothesis He : good_env env.
Hypothesis Hn : good_name n.
Hypothesis Hint : zlen (render1 (n, v)) < 2 ^ 31.

Definition used : list Z := GRUB_ENVBLK_SIGNATURE ++ render env.
Definition blk : list Z := used ++ replicate k 35.

Lemma blk_len : zlen blk = zlen used + Z.of_nat k.
Proof. unfold blk. by rewrite zlen_app, zlen_replicate. Qed.

Lemma blk_space : last_used (S (length blk)) blk (zlen blk - 1) = Some (zlen used - 1) /\
  aget blk (zlen used - 1) = Some 10.
Proof.
  destruct (used_last env) as [a Ea]. rewrite blk_len. unfold blk, used. rewrite Ea, zlen_app, <- app_assoc.
  change (zlen [10]) with 1. cbn [app]. replace (zlen a + 1 - 1) with (zlen a) by lia. split; [|apply aget_middle].
  replace (zlen a + 1 + Z.of_nat k - 1) with (zlen a + Z.of_nat k) by lia.
  rewrite <- (app_nil_r (replicate k 35)). apply last_used_spec; [done|]. rewrite !length_app. cbn.
  rewrite length_app, length_replicate. lia.
Qed.

Lemma length_env_blk : (length env < S (length blk))%nat.
Proof.
  pose proof (length_render env). unfold blk, used. rewrite !length_app. lia.
Qed.

Lemma set_new : n ∉ env.*1 ->
  grub_envblk_set blk n v = Some
    (if Z.of_nat k <? zlen (render1 (n, v)) then (0, blk)
     else (1, used ++ render1 (n, v) ++ replicate (k - Z.to_nat (zlen (render1 (n, v)))) 35)).
Proof.
  intros Ha. pose proof (zlen_nonneg n) as Hn0. pose proof (zlen_nonneg (escape v)) as Hv0.
  pose proof Hint as Hi. rewrite render1_length in Hi. cbn [fst snd] in Hi. unfold grub_envblk_set.
  rewrite escaped_value_len_spec by lia. step. rewrite (int_len (zlen n)) by lia. destruct blk_space as [-> Ec]. step. rewrite Ec. step. cbn [Z.eqb Pos.eqb negb].
  replace (zlen used - 1 + 1) with (zlen used) by lia.
  assert (search (S (length blk)) blk n (zlen n) (zlen used) (zlen GRUB_ENVBLK_SIGNATURE) = Some None) as ->.
  { apply (search_absent env _ _ (replicate k 35)); try done.
    - by apply good_plain.
    - apply Hn.
    - apply length_env_blk.
    - rewrite blk_len. unfold used. lia.
    - intros [|f] Hf'; [pose proof length_env_blk; lia|]. cbn [search]. pose proof (zlen_nonneg n).
      by rewrite (proj2 (Z.ltb_ge _ _)) by (unfold used; lia). }
  step. rewrite render1_length, blk_len. cbn [fst snd]. rewrite (int_val_ok (zlen n + 1)) by lia. step.
  rewrite (int_val_ok (zlen n + 1 + zlen (escape v))) by lia. step.
  rewrite (int_val_ok (zlen n + 1 + zlen (escape v) + 1)) by lia. step.
  replace (zlen used + Z.of_nat k - zlen used) with (Z.of_nat k) by lia.
  replace (zlen n + 1 + zlen (escape v) + 1) with (zlen n + zlen (escape v) + 2) by lia.
  destruct (Z.ltb_spec (Z.of_nat k) (zlen n + zlen (escape v) + 2)) as [Hlt|Hge]; [done|].
  set (r := (k - Z.to_nat (zlen n + zlen (escape v) + 2))%nat).
  assert (k = length n + (1 + (length (escape v) + (1 + r))))%nat as Ek by (unfold r, zlen in *; lia).
  rewrite first_chars_all. step. unfold blk. rewrite Ek, !replicate_add.
  rewrite (store_middle used (replicate (length n) 35) _ n) by (rewrite zlen_replicate; done). step.
  rewrite <- zlen_app. rewrite (app_assoc used n). cbn [replicate app]. rewrite aset_snoc. step.
  rewrite (zlen_snoc (used ++ n) 61).
  rewrite write_value_spec by (rewrite zlen_replicate; done). step.
  unfold render1. cbn [fst snd]. rewrite <- !app_assoc. cbn [app]. by rewrite <- !app_assoc.
Qed.
End Set_.

(** What is left of the value and the padding after the move and the fill. *)
Lemma pad_again (u t : list Z) (j k : nat) : length t = j -> (exists u', u ++ replicate k 35 = u' ++ t) ->
  exists x, replicate k 35 ++ t = x ++ replicate k 35 /\ length x = j.
Proof.
  intros Hj [u' E]. apply app_eq_inv in E as [(y & -> & E)|(y & -> & E)].
  - exists (replicate k 35 ++ y). subst t. split; [by rewrite <- app_assoc|].
    rewrite length_app, length_replicate in *. lia.
  - assert (t = replicate j 35) as Et.
    { pose proof (f_equal (drop (length y)) E) as Ed. rewrite drop_app_length, drop_replicate in Ed.
      rewrite <- Ed, length_replicate in Hj. rewrite <- Ed. by rewrite Hj. }
    exists (replicate j 35). split; [|apply length_replicate]. rewrite Et, <- !replicate_add. f_equal. lia.
Qed.

Section Replace.
Context (e1 e2 : list entry) (n w v : list Z) (k : nat).
Hypothesis He : good_env (e1 ++ (n, w) :: e2).
Hypothesis Hfirst : n ∉ e1.*1.

Definition before : list Z := GRUB_ENVBLK_SIGNATURE ++ render e1 ++ n ++ [61].
Definition after : list Z := 10 :: render e2.
Definition rblk (x : list Z) (k : nat) : list Z := before ++ escape x ++ after ++ replicate k 35.

Lemma rblk_render x j : rblk x j =
  GRUB_ENVBLK_SIGNATURE ++ render (e1 ++ (n, x) :: e2) ++ replicate j 35.
Proof.
  unfold rblk, before, after. rewrite render_app, render_cons. unfold render1. cbn [fst snd].
  rewrite <- !app_assoc. cbn [app]. by rewrite <- !app_assoc.
Qed.

Lemma replace_names : plain_names (e1 ++ [(n, w)]).
Proof.
  apply good_plain in He. unfold plain_names in *. rewrite Forall_app, Forall_cons in He. apply Forall_app.
  split; [tauto|]. constructor; [tauto|done].
Qed.

(** The search finds the variable, with the limit of [set] and that of [delete]. *)
Lemma replace_found limit : zlen (before ++ escape w ++ after) <= limit <= zlen (rblk w k) ->
  search (S (length (rblk w k))) (rblk w k) n (zlen n) limit (zlen GRUB_ENVBLK_SIGNATURE) =
  Some (Some (zlen (GRUB_ENVBLK_SIGNATURE ++ render e1))).
Proof.
  intros Hl. rewrite rblk_render in *. apply (search_found e1 _ _ (n, w)); [apply replace_names|done| |].
  - pose proof (length_render (e1 ++ (n, w) :: e2)) as H. rewrite !length_app in *. cbn [length] in *. lia.
  - split; [|apply Hl]. etrans; [|apply Hl]. rewrite render_app, render_cons, !zlen_app, render1_length.
    unfold before, after. rewrite !zlen_app, !zlen_cons. cbn [fst snd]. change (@zlen Z []) with 0. lia.
Qed.

Lemma replace_len x j : zlen (rblk x j) = zlen before + zlen (escape x) + zlen after + Z.of_nat j.
Proof. unfold rblk. rewrite !zlen_app, zlen_replicate. lia. Qed.

Lemma replace_value_end : line_end (S (length (rblk w k))) (rblk w k) (zlen before) = Some (zlen before + zlen (escape w)).
Proof.
  unfold rblk, after. cbn [app]. rewrite line_end_value; [by rewrite zlen_app|].
  pose proof (length_escape w). rewrite !length_app. cbn [length]. rewrite !length_app. lia.
Qed.

(** Making room: [esc v] characters between the two parts, and the padding adjusted. *)
Lemma make_room : zlen (escape v) - zlen (escape w) <= Z.of_nat k ->
  let p := zlen before in let pend := zlen (rblk w k) in
  let vl := zlen (escape v) in let len := zlen (escape w) in let space := pend - Z.of_nat k in
  exists x, zlen x = vl /\
    (if vl <? len then
       l ← memmove (p + vl) (p + len) (pend - (p + len)) (rblk w k);
       memset (space - (len - vl)) 35 (len - vl) l
     else memmove (p + vl) (p + len) (pend - (p + vl)) (rblk w k)) =
    Some (before ++ x ++ after ++ replicate (Z.to_nat (Z.of_nat k + len - vl)) 35).
Proof.
  intros Hk p pend vl len space. pose proof (zlen_nonneg (escape v)). pose proof (zlen_nonneg (escape w)).
  pose proof (zlen_nonneg after). pose proof (replace_len w k) as Hpend. destruct (Z.ltb_spec vl len) as [Hlt|Hge].
  - set (x := take (Z.to_nat vl) (escape w)). set (y := drop (Z.to_nat vl) (escape w)).
    assert (escape w = x ++ y) as Exy by (unfold x, y; by rewrite take_drop).
    assert (zlen x = vl) as Hx by (unfold x, len, vl, zlen in *; rewrite length_take; lia).
    assert (zlen y = len - vl) as Hy by (unfold y, len, vl, zlen in *; rewrite length_drop; lia).
    exists x. split; [done|]. unfold rblk at 1. rewrite Exy, <- app_assoc, (app_assoc before x).
    destruct (memmove_left (before ++ x) y (after ++ replicate k 35)) as (t & E & Ht & u & Eu).
    assert (zlen (before ++ x) = p + vl) as Hbx by (rewrite zlen_app; lia).
    rewrite (zlen_app (before ++ x) y), Hbx, Hy in E. replace (p + vl + (len - vl)) with (p + len) in E by lia.
    assert (zlen (after ++ replicate k 35) = pend - (p + len)) as Hr.
    { rewrite zlen_app, zlen_replicate. unfold pend, p, len. lia. }
    rewrite Hr in E. rewrite E. step.
    destruct (pad_again (y ++ after) t (length t) k eq_refl) as (z & Ez & Hz).
    { exists u. by rewrite <- app_assoc. }
    rewrite <- (app_assoc after), Ez. unfold memset. rewrite (proj2 (Z.ltb_ge (len - vl) 0)) by lia.
    rewrite (app_assoc (before ++ x) after).
    replace (space - (len - vl)) with (zlen ((before ++ x) ++ after))
      by (rewrite zlen_app, Hbx; unfold space, pend, p, len; lia).
    rewrite store_middle.
    2: { rewrite zlen_replicate. assert (zlen z = zlen t) by (unfold zlen; by rewrite Hz). lia. }
    rewrite <- replicate_add, <- !app_assoc. do 5 f_equal. lia.
  - replace (pend - (p + vl)) with (zlen (after ++ replicate (Z.to_nat (Z.of_nat k + len - vl)) 35))
      by (rewrite zlen_app, zlen_replicate; unfold pend, p, len, vl in *; lia).
    destruct (memmove_right before (escape w) (after ++ replicate (Z.to_nat (Z.of_nat k + len - vl)) 35)
      (replicate (Z.to_nat (vl - len)) 35)) as (x & E & Hx).
    rewrite zlen_replicate, Z2Nat.id in E, Hx by lia. rewrite zlen_app in E. fold len p in E, Hx.
    replace (p + len + (vl - len)) with (p + vl) in E by lia.
    exists x. split; [lia|]. rewrite <- E. f_equal. unfold rblk. do 2 f_equal. rewrite <- app_assoc. f_equal.
    rewrite <- replicate_add. f_equal. lia.
Qed.

Lemma set_old : zlen (rblk w k) < 2 ^ 31 -> zlen (escape v) < 2 ^ 31 ->
  grub_envblk_set (rblk w k) n v = Some
    (if Z.of_nat k <? zlen (escape v) - zlen (escape w) then (0, rblk w k)
     else (1, rblk v (Z.to_nat (Z.of_nat k + zlen (escape w) - zlen (escape v))))).
Proof.
  intros Hint Hv. pose proof (zlen_nonneg after) as Hafter. pose proof (replace_len w k) as Hpend.
  pose proof (zlen_nonneg n) as Hn0. pose proof (zlen_nonneg (escape v)) as Hv0. pose proof (zlen_nonneg (escape w)) as Hw0.
  assert (zlen before = zlen GRUB_ENVBLK_SIGNATURE + zlen (render e1) + zlen n + 1) as Hbef
    by (unfold before; rewrite !zlen_app; change (zlen [61]) with 1; lia).
  pose proof (zlen_nonneg (render e1)). pose proof (zlen_nonneg GRUB_ENVBLK_SIGNATURE).
  assert (rblk w k = blk (e1 ++ (n, w) :: e2) k) as Eb by (rewrite rblk_render; unfold blk, used; by rewrite <- app_assoc).
  assert (zlen (rblk w k) = zlen (used (e1 ++ (n, w) :: e2)) + Z.of_nat k) as Hu by (rewrite Eb; apply blk_len).
  unfold grub_envblk_set. rewrite escaped_value_len_spec by lia. step. rewrite (int_len (zlen n)) by lia.
  destruct (blk_space (e1 ++ (n, w) :: e2) k) as [E1 E2]. rewrite <- Eb in E1, E2.
  rewrite E1. step. rewrite E2. step. cbn [Z.eqb Pos.eqb negb].
  replace (zlen (used (e1 ++ (n, w) :: e2)) - 1 + 1) with (zlen (rblk w k) - Z.of_nat k) by lia.
  rewrite replace_found by (rewrite Hpend, !zlen_app; lia). step.
  rewrite (int_val_ok (zlen n + 1)) by lia. step.
  replace (zlen (GRUB_ENVBLK_SIGNATURE ++ render e1) + (zlen n + 1)) with (zlen before) by (rewrite Hbef, !zlen_app; lia).
  rewrite (scan_len_spec _ _ _ _ (zlen before + zlen (escape w)));
    [|rewrite Z.add_0_r; apply replace_value_end|lia|lia].
  step. replace (zlen before + zlen (escape w) - zlen before) with (zlen (escape w)) by lia.
  assert (0 < zlen after) as Ha0 by (unfold after; rewrite zlen_cons; pose proof (zlen_nonneg (render e2)); lia).
  rewrite (proj2 (Z.leb_gt (zlen (rblk w k)) _)) by lia. rewrite (int_val_ok (zlen (escape v) - _)) by lia. step.
  replace (zlen (rblk w k) - (zlen (rblk w k) - Z.of_nat k)) with (Z.of_nat k) by lia.
  destruct (Z.ltb_spec (Z.of_nat k) (zlen (escape v) - zlen (escape w))) as [|Hk]; [done|].
  destruct (make_room Hk) as (x & Hx & E). cbv zeta in E. rewrite E. step.
  unfold after. cbn [app]. rewrite write_value_spec by done. by step.
Qed.
End Replace.

Lemma delete_old e1 e2 n w k : good_env (e1 ++ (n, w) :: e2) -> n ∉ e1.*1 -> zlen (rblk e1 e2 n w k) < 2 ^ 31 ->
  grub_envblk_delete (rblk e1 e2 n w k) n =
  Some (GRUB_ENVBLK_SIGNATURE ++ render (e1 ++ e2) ++ replicate (k + length (render1 (n, w))) 35).
Proof.
  intros He Hn Hint. pose proof (zlen_nonneg (after e2)) as Ha. pose proof (replace_len e1 e2 n w k) as Hl.
  pose proof (zlen_nonneg n) as Hn0. pose proof (zlen_nonneg (escape w)) as Hw0. pose proof (zlen_nonneg (render e1)).
  pose proof (zlen_nonneg GRUB_ENVBLK_SIGNATURE).
  assert (zlen (before e1 n) = zlen (GRUB_ENVBLK_SIGNATURE ++ render e1) + (zlen n + 1)) as Hbef
    by (unfold before; rewrite !zlen_app; change (zlen [61]) with 1; lia).
  assert (0 < zlen (after e2)) by (unfold after; rewrite zlen_cons; pose proof (zlen_nonneg (render e2)); lia).
  assert (zlen (GRUB_ENVBLK_SIGNATURE ++ render e1) = zlen GRUB_ENVBLK_SIGNATURE + zlen (render e1)) as Hsig by apply zlen_app.
  unfold grub_envblk_delete. rewrite (int_len (zlen n)) by lia. rewrite replace_found by (done || rewrite Hl, !zlen_app; lia). step.
  rewrite (int_val_ok (zlen n + 1)) by lia. step.
  rewrite (scan_len_spec _ _ _ _ (zlen (before e1 n) + zlen (escape w))); [|rewrite <- Hbef; apply replace_value_end|lia|lia].
  step. set (a := GRUB_ENVBLK_SIGNATURE ++ render e1) in *.
  assert (zlen (before e1 n) + zlen (escape w) - zlen a + 1 = zlen (render1 (n, w))) as Elen.
  { unfold a, before. rewrite render1_length, !zlen_app. cbn [fst snd]. change (zlen [61]) with 1. lia. }
  rewrite (proj2 (Z.leb_gt (zlen _) _)) by lia. rewrite int_val_ok by lia. step. rewrite Elen.
  assert (rblk e1 e2 n w k = a ++ render1 (n, w) ++ render e2 ++ replicate k 35) as E.
  { rewrite rblk_render, render_app, render_cons. unfold a. by rewrite <- !app_assoc. }
  rewrite E. destruct (memmove_left a (render1 (n, w)) (render e2 ++ replicate k 35)) as (t & Em & Ht & _).
  rewrite zlen_app in Em. replace (zlen (a ++ render1 (n, w) ++ render e2 ++ replicate k 35) - (zlen a + zlen (render1 (n, w))))
    with (zlen (render e2 ++ replicate k 35)) by (rewrite !zlen_app; lia).
  rewrite Em. step. unfold memset. pose proof (zlen_nonneg (render1 (n, w))).
  rewrite (proj2 (Z.ltb_ge _ 0)) by lia.
  replace (zlen (a ++ render1 (n, w) ++ render e2 ++ replicate k 35) - zlen (render1 (n, w)))
    with (zlen (a ++ render e2 ++ replicate k 35)) by (rewrite !zlen_app; lia).
  rewrite (app_assoc a (render e2 ++ replicate k 35) t). rewrite <- (app_nil_r t).
  rewrite (store_middle (a ++ render e2 ++ replicate k 35) t []) by (rewrite zlen_replicate; lia).
  rewrite app_nil_r. f_equal. unfold a. rewrite render_app, <- !app_assoc. do 3 f_equal.
  rewrite <- replicate_add. f_equal. unfold zlen. lia.
Qed.

Lemma delete_absent env n k : good_env env -> good_name n -> n ∉ env.*1 -> zlen n < 2 ^ 31 ->
  grub_envblk_delete (blk env k) n = Some (blk env k).
Proof.
  intros He Hn Ha Hint. unfold grub_envblk_delete. pose proof (zlen_nonneg n). rewrite (int_len (zlen n)) by lia.
  assert (search (S (length (blk env k))) (blk env k) n (zlen n) (zlen (blk env k)) (zlen GRUB_ENVBLK_SIGNATURE) = Some None) as ->.
  { assert (length env + 1 < length (blk env k))%nat as Hlen.
    { pose proof (length_render env). unfold blk, used. rewrite !length_app. cbn. lia. }
    apply (search_absent env _ _ (replicate k 35)); try done.
    - by apply good_plain.
    - apply Hn.
    - lia.
    - rewrite blk_len. unfold used. pose proof (zlen_nonneg (GRUB_ENVBLK_SIGNATURE ++ render env)). lia.
    - intros f Hf. unfold blk. apply search_past_end; [lia|done]. }
  by step.
Qed.

(** ** Listing *)

Lemma name_end_spec n : forall fuel a b, Forall plain n -> (length n < fuel)%nat ->
  name_end fuel (a ++ n ++ 61 :: b) (zlen a) = Some (zlen (a ++ n)).
Proof.
  induction n as [|c n IH]; intros fuel a b Hp Hf; (destruct fuel as [|fuel]; [cbn in Hf; lia|]); cbn [name_end app];
    rewrite aget_middle, zlen_app, zlen_cons.
  - pose proof (zlen_nonneg b). zres. step. by rewrite app_nil_r.
  - pose proof (zlen_nonneg (n ++ 61 :: b)). apply Forall_cons in Hp as [(_ & _ & Hc & _) Hp]. zres. step.
    rewrite (proj2 (Z.eqb_neq c 61)) by done. rewrite (zlen_snoc a c).
    replace (a ++ c :: n ++ 61 :: b) with ((a ++ [c]) ++ n ++ 61 :: b) by (by rewrite <- app_assoc).
    rewrite IH by (done || cbn in Hf; lia). by rewrite <- app_assoc.
Qed.

Lemma unescape_spec v : forall fuel a b, (length v < fuel)%nat ->
  unescape fuel (a ++ escape v ++ 10 :: b) (zlen a) = Some v.
Proof.
  induction v as [|c v IH]; intros fuel a b Hf; (destruct fuel as [|fuel]; [cbn in Hf; lia|]); cbn [unescape].
  - cbn [escape fmap list_fmap mjoin list_join app]. rewrite aget_middle. by step.
  - rewrite escape_cons. unfold esc1. cbn [length] in Hf.
    assert (forall d, unescape (S fuel) (a ++ 92 :: d :: escape v ++ 10 :: b) (zlen a) = Some (d :: v)) as Hesc.
    { intros d. cbn [unescape]. rewrite aget_middle. step. cbn [Z.eqb Pos.eqb].
      replace (a ++ 92 :: d :: escape v ++ 10 :: b) with ((a ++ [92]) ++ d :: escape v ++ 10 :: b) by (by rewrite <- app_assoc).
      rewrite (zlen_snoc a 92), aget_middle. step.
      replace (zlen a + 2) with (zlen ((a ++ [92]) ++ [d])) by (rewrite !zlen_app; change (zlen [92]) with 1; change (zlen [d]) with 1; lia).
      replace ((a ++ [92]) ++ d :: escape v ++ 10 :: b) with (((a ++ [92]) ++ [d]) ++ escape v ++ 10 :: b) by (by rewrite <- !app_assoc).
      rewrite IH by lia. by step. }
    destruct ((c =? 92) || (c =? 10)) eqn:E; [exact (Hesc c)|]. apply orb_false_iff in E as [E92 E10].
    cbn [app]. rewrite aget_middle. step. rewrite E10, E92, (zlen_snoc a c).
    replace (a ++ c :: escape v ++ 10 :: b) with ((a ++ [c]) ++ escape v ++ 10 :: b) by (by rewrite <- app_assoc).
    rewrite IH by lia. by step.
Qed.

Lemma upto_nul_id l : Forall (fun c => c <> 0) l -> upto_nul l = l.
Proof.
  induction 1 as [|c l Hc _ IH]; [done|]. cbn. rewrite (proj2 (Z.eqb_neq c 0)) by done. by rewrite IH.
Qed.

(** What [grub_envblk_iterate] is to do: call the hook on each variable until it asks to stop. *)
Fixpoint each {S} (hook : list Z -> list Z -> S -> Z * S) (env : list entry) (s : S) : S :=
  match env with
  | [] => s
  | e :: env => let '(ret, s) := hook e.1 e.2 s in if negb (ret =? 0) then s else each hook env s
  end.

Lemma blank_next a k : (0 < k)%nat ->
  find_next_line (a ++ replicate k 35) (zlen a) = Some (zlen (a ++ replicate k 35) + 1).
Proof.
  intros Hk. unfold find_next_line. rewrite <- (app_nil_r (replicate k 35)).
  assert (S (length (a ++ replicate k 35%Z ++ [])) = length (replicate k 35%Z) + S (length a))%nat as ->
    by (rewrite !length_app; cbn; lia).
  rewrite line_end_plain by (apply Forall_replicate; lia). rewrite !app_nil_r. cbn [line_end].
  rewrite (proj2 (Z.ltb_ge _ _)) by lia. done.
Qed.

Section Listing.
Context {S : Type} (alloc_ok : Z -> bool) (hook : list Z -> list Z -> S -> Z * S).
Hypothesis always_ok : forall n, alloc_ok n = true.

Lemma iterate_blank fuel a k s : (1 < fuel)%nat ->
  iterate_loop alloc_ok hook fuel (a ++ replicate k 35) (zlen a) s = Some s.
Proof.
  intros Hf. destruct fuel as [|[|fuel]]; [lia|lia|]. destruct k as [|k].
  - cbn [replicate]. rewrite app_nil_r. cbn [iterate_loop]. rewrite (proj2 (Z.ltb_ge _ _)) by lia. done.
  - pose proof (blank_next a (Datatypes.S k) ltac:(lia)) as Hb. cbn [replicate] in *. cbn [iterate_loop].
    set (l := a ++ 35 :: replicate k 35) in *.
    assert (aget l (zlen a) = Some 35) as -> by apply aget_middle.
    assert (zlen a < zlen l) by (unfold l; rewrite zlen_app, zlen_cons; pose proof (zlen_nonneg (replicate k 35)); lia).
    zres. step. cbn [Z.eqb Pos.eqb orb]. rewrite Hb. step. by rewrite (proj2 (Z.ltb_ge (zlen l + 1) _)) by lia.
Qed.

Lemma iterate_entry fuel a e b s : good_name e.1 -> good_value e.2 ->
  iterate_loop alloc_ok hook (Datatypes.S fuel) (a ++ render1 e ++ b) (zlen a) s =
  let '(ret, s) := hook e.1 e.2 s in
  if negb (ret =? 0) then Some s else iterate_loop alloc_ok hook fuel (a ++ render1 e ++ b) (zlen (a ++ render1 e)) s.
Proof.
  intros (Hp & Hne & H35 & H13) Hv. cbn [iterate_loop].
  assert (a ++ render1 e ++ b = a ++ e.1 ++ 61 :: escape e.2 ++ 10 :: b) as El.
  { unfold render1. rewrite <- !app_assoc. cbn [app]. by rewrite <- !app_assoc. }
  rewrite El. set (l := a ++ e.1 ++ 61 :: escape e.2 ++ 10 :: b).
  pose proof (zlen_nonneg a). pose proof (zlen_nonneg e.1). pose proof (zlen_nonneg (escape e.2)). pose proof (zlen_nonneg b).
  assert (zlen l = zlen a + zlen e.1 + zlen (escape e.2) + zlen b + 2) as Hl
    by (unfold l; rewrite !zlen_app, zlen_cons, zlen_app, zlen_cons; lia).
  zres. assert (exists c n', e.1 = c :: n' /\ aget l (zlen a) = Some c) as (c & n' & En & ->).
  { destruct e.1 as [|c n'] eqn:En; [done|]. exists c, n'. split; [done|]. apply aget_middle. }
  step. assert ((c =? 35) || (c =? 10) || (c =? 13) = false) as ->.
  { rewrite En in *. cbn in H35, H13. apply Forall_cons in Hp as [(_ & ? & _) _].
    apply orb_false_iff. split; [apply orb_false_iff; split|]; apply Z.eqb_neq; congruence. }
  assert (name_end (Datatypes.S (length l)) l (zlen a) = Some (zlen (a ++ e.1))) as ->.
  { apply name_end_spec; [done|]. unfold l. rewrite !length_app. cbn. lia. }
  step. rewrite (proj2 (Z.eqb_neq _ _)) by (rewrite zlen_app; lia).
  assert (l = (a ++ e.1 ++ [61]) ++ escape e.2 ++ 10 :: b) as El2 by (unfold l; rewrite <- !app_assoc; done).
  assert (zlen (a ++ e.1) + 1 = zlen (a ++ e.1 ++ [61])) as -> by (rewrite (zlen_snoc _ 61); by rewrite <- app_assoc).
  pose proof (length_escape e.2) as Hle.
  assert (length e.2 < Datatypes.S (length l))%nat as Hfuel by (rewrite El2, !length_app; lia).
  assert (line_end (Datatypes.S (length l)) l (zlen (a ++ e.1 ++ [61])) = Some (zlen ((a ++ e.1 ++ [61]) ++ escape e.2))) as ->
    by (rewrite El2 at 2; by apply line_end_value).
  step. rewrite (proj2 (Z.leb_gt (zlen l) _)) by (rewrite !zlen_app; change (zlen [61]) with 1; lia).
  rewrite always_ok. cbn [negb].
  assert (unescape (Datatypes.S (length l)) l (zlen (a ++ e.1 ++ [61])) = Some e.2) as ->
    by (rewrite El2 at 2; by apply unescape_spec).
  step. assert (sub l (zlen a) (zlen (a ++ e.1) - zlen a) = e.1) as ->.
  { replace (zlen (a ++ e.1) - zlen a) with (zlen e.1) by (rewrite zlen_app; lia). apply sub_middle. }
  rewrite (upto_nul_id e.1) by (eapply Forall_impl; [exact Hp|]; by intros x [? _]).
  rewrite (upto_nul_id e.2) by done. destruct (hook e.1 e.2 s) as [ret s']. destruct (negb (ret =? 0)); [done|].
  unfold find_next_line.
  assert (line_end (Datatypes.S (length l)) l (zlen ((a ++ e.1 ++ [61]) ++ escape e.2)) =
    Some (zlen ((a ++ e.1 ++ [61]) ++ escape e.2))) as ->.
  { rewrite El2 at 2. rewrite (app_assoc (a ++ e.1 ++ [61])). apply line_end_stop. }
  step. step. f_equal. rewrite !zlen_app, render1_length. change (zlen [61]) with 1. lia.
Qed.

Lemma iterate_spec env : forall fuel a k s, good_env env -> (length env + 1 < fuel)%nat ->
  iterate_loop alloc_ok hook fuel (a ++ render env ++ replicate k 35) (zlen a) s = Some (each hook env s).
Proof.
  induction env as [|e env IH]; intros fuel a k s He Hf.
  - apply iterate_blank. cbn in Hf. lia.
  - apply Forall_cons in He as [[Hn Hv] He]. destruct fuel as [|fuel]; [cbn in Hf; lia|].
    rewrite render_cons, <- app_assoc, iterate_entry by done. cbn [each].
    destruct (hook e.1 e.2 s) as [ret s']. destruct (negb (ret =? 0)); [done|].
    rewrite app_assoc. apply IH; [done|]. cbn in Hf. lia.
Qed.
End Listing.

(** ** Blocks and their variables *)

Lemma holds_blk l env : holds l env -> l = blk env (Z.to_nat (room env (zlen l))).
Proof. intros [_ E]. rewrite E at 1. unfold blk, used. by rewrite <- app_assoc. Qed.

Lemma blk_holds env k n : zlen (blk env k) = n -> Z.of_nat k = room env n -> holds (blk env k) env.
Proof.
  intros Hn Hk. split; [rewrite Hn; lia|]. rewrite Hn, <- Hk, Nat2Z.id. unfold blk, used. by rewrite <- app_assoc.
Qed.

Lemma good_upsert n v env : good_env env -> good_name n -> good_value v -> good_env (upsert n v env).
Proof.
  intros He Hn Hv. induction He as [|e env Hee He IH]; cbn; [apply Forall_singleton; by split|].
  destruct (decide (e.1 = n)); by constructor.
Qed.

Lemma good_remove1 n env : good_env env -> good_env (remove1 n env).
Proof. intros He. induction He as [|e env Hee He IH]; cbn; [by apply Forall_nil|]. destruct (decide (e.1 = n)); [done|by constructor]. Qed.

Lemma set_spec l env n v : zlen l < 2 ^ 31 -> zlen (render1 (n, v)) < 2 ^ 31 -> holds l env -> good_env env -> good_name n ->
  grub_envblk_set l n v = Some (0, l) /\ room (upsert n v env) (zlen l) < 0 \/
  exists l', grub_envblk_set l n v = Some (1, l') /\ zlen l' = zlen l /\ holds l' (upsert n v env).
Proof.
  intros Hbl Hint Hl He Hn. pose proof (holds_blk _ _ Hl) as Eb. destruct Hl as [Hr _]. set (k := Z.to_nat (room env (zlen l))) in *.
  assert (zlen l = zlen (used env) + Z.of_nat k) as Hlen by (rewrite Eb; apply blk_len).
  destruct (find_entry n env) as [Ha|(e1 & w & e2 & E & Ha)].
  - rewrite (upsert_absent _ _ _ Ha). pose proof (set_new env n v k He Hn Hint Ha) as Eset. rewrite <- Eb in Eset. rewrite Eset.
    set (e := render1 (n, v)). assert (room (env ++ [(n, v)]) (zlen l) = Z.of_nat k - zlen e) as Hroom.
    { unfold room, used in *. rewrite render_app, zlen_app. unfold render at 2. cbn [fmap list_fmap mjoin list_join].
      rewrite app_nil_r. fold e. rewrite zlen_app in Hlen. lia. }
    rewrite Hroom. pose proof (zlen_nonneg e). destruct (Z.ltb_spec (Z.of_nat k) (zlen e)) as [Hlt|Hge].
    + left. split; [done|lia].
    + right. set (j := (k - Z.to_nat (zlen e))%nat). assert (Z.of_nat j = Z.of_nat k - zlen e) as Hj by (unfold j; lia).
      assert (used env ++ e ++ replicate j 35 = blk (env ++ [(n, v)]) j) as Eu.
      { unfold blk, used. rewrite render_app. unfold render at 3. cbn [fmap list_fmap mjoin list_join].
        by rewrite app_nil_r, <- !app_assoc. }
      assert (zlen (used env ++ e ++ replicate j 35) = zlen l) as Hz by (rewrite !zlen_app, zlen_replicate; lia).
      eexists. split; [done|]. split; [done|]. rewrite Eu in *. apply (blk_holds _ _ (zlen l)); [done|lia].
  - subst env. rewrite (upsert_present _ _ _ _ _ Ha).
    assert (blk (e1 ++ (n, w) :: e2) k = rblk e1 e2 n w k) as Er.
    { rewrite rblk_render. unfold blk, used. by rewrite <- app_assoc. }
    rewrite Er in Eb. rewrite render1_length in Hint. pose proof (zlen_nonneg n). cbn [fst snd] in Hint.
    pose proof (set_old e1 e2 n w v k He Ha ltac:(by rewrite <- Eb) ltac:(lia)) as Eset. rewrite <- Eb in Eset. rewrite Eset.
    assert (room (e1 ++ (n, v) :: e2) (zlen l) = Z.of_nat k + zlen (escape w) - zlen (escape v)) as Hroom.
    { unfold room, used in *. rewrite render_app, render_cons, !zlen_app, render1_length in *. cbn [fst snd] in *. lia. }
    rewrite Hroom. destruct (Z.ltb_spec (Z.of_nat k) (zlen (escape v) - zlen (escape w))) as [Hlt|Hge].
    + left. split; [done|lia].
    + right. set (j := Z.to_nat (Z.of_nat k + zlen (escape w) - zlen (escape v))).
      assert (rblk e1 e2 n v j = blk (e1 ++ (n, v) :: e2) j) as Er'.
      { rewrite rblk_render. unfold blk, used. by rewrite <- app_assoc. }
      assert (zlen (rblk e1 e2 n v j) = zlen l) as Hz by (rewrite Eb, !replace_len; unfold j; lia).
      eexists. split; [done|]. split; [done|]. rewrite Er' in *. apply (blk_holds _ _ (zlen l)); [done|]. unfold j. lia.
Qed.

Lemma delete_spec l env n : zlen l < 2 ^ 31 -> zlen n < 2 ^ 31 -> holds l env -> good_env env -> good_name n ->
  exists l', grub_envblk_delete l n = Some l' /\ zlen l' = zlen l /\ holds l' (remove1 n env).
Proof.
  intros Hbl Hint Hl He Hn. pose proof (holds_blk _ _ Hl) as Eb. destruct (find_entry n env) as [Ha|(e1 & w & e2 & E & Ha)].
  - exists l. rewrite (remove1_absent _ _ Ha). split; [|done]. rewrite Eb at 1. rewrite delete_absent by done. by rewrite <- Eb.
  - subst env. destruct Hl as [Hr _]. set (k := Z.to_nat (room (e1 ++ (n, w) :: e2) (zlen l))) in *.
    rewrite (remove1_present _ _ _ _ Ha). set (j := (k + length (render1 (n, w)))%nat).
    assert (l = rblk e1 e2 n w k) as Er by (rewrite Eb, rblk_render; unfold blk, used; by rewrite <- app_assoc).
    assert (GRUB_ENVBLK_SIGNATURE ++ render (e1 ++ e2) ++ replicate j 35 = blk (e1 ++ e2) j) as Ej
      by (unfold blk, used; by rewrite <- app_assoc).
    assert (zlen l = zlen GRUB_ENVBLK_SIGNATURE + zlen (render (e1 ++ (n, w) :: e2)) + Z.of_nat k) as Hlen
      by (rewrite Eb, blk_len; unfold used; rewrite zlen_app; lia).
    rewrite render_app, render_cons, !zlen_app in Hlen.
    exists (blk (e1 ++ e2) j). assert (zlen (blk (e1 ++ e2) j) = zlen l) as Hz.
    { rewrite blk_len. unfold used, j. rewrite render_app, !zlen_app. unfold zlen in *. lia. }
    split; [|split; [done|]].
    + rewrite Er. rewrite (delete_old e1 e2 n w k He Ha) by (by rewrite <- Er). by f_equal.
    + apply (blk_holds _ _ (zlen l)); [done|]. unfold room, j. rewrite render_app, zlen_app. unfold zlen in *. lia.
Qed.

(** * Properties *)

(** Changes to the variables of a block. *)
Inductive change := Set_var (n v : list Z) | Delete_var (n : list Z).

(** The names and values of a change, and that their lengths are [int]s. *)
Definition good_change (c : change) : Prop :=
  match c with
  | Set_var n v => good_name n /\ good_value v /\ zlen n + zlen (escape v) + 2 < 2 ^ 31
  | Delete_var n => good_name n /\ zlen n < 2 ^ 31
  end.

(** The code: the results of the [grub_envblk_set] calls and the buffer. *)
Fixpoint apply_changes (cs : list change) (l : list Z) : option (list Z * list Z) :=
  match cs with
  | [] => Some ([], l)
  | Set_var n v :: cs => '(r, l) ← grub_envblk_set l n v; '(rs, l) ← apply_changes cs l; Some (r :: rs, l)
  | Delete_var n :: cs => l ← grub_envblk_delete l n; apply_changes cs l
  end.

(** The specification, on the list of variables of a block of [size] characters: a variable is
    set exactly when the result fits. *)
Fixpoint change_vars (size : Z) (cs : list change) (env : list entry) : list Z * list entry :=
  match cs with
  | [] => ([], env)
  | Set_var n v :: cs =>
      if room (upsert n v env) size <? 0 then
        let '(rs, env) := change_vars size cs env in (0 :: rs, env)
      else let '(rs, env) := change_vars size cs (upsert n v env) in (1 :: rs, env)
  | Delete_var n :: cs => change_vars size cs (remove1 n env)
  end.

Lemma changes_spec cs : forall l env, zlen l < 2 ^ 31 -> holds l env -> good_env env -> Forall good_change cs ->
  exists l', apply_changes cs l = Some ((change_vars (zlen l) cs env).1, l') /\ zlen l' = zlen l /\
    holds l' (change_vars (zlen l) cs env).2 /\ good_env (change_vars (zlen l) cs env).2.
Proof.
  induction cs as [|[n v|n] cs IH]; intros l env Hb Hl He Hcs; cbn [apply_changes change_vars].
  - by exists l.
  - apply Forall_cons in Hcs as [(Hn & Hv & Hi) Hcs].
    destruct (set_spec l env n v Hb ltac:(by rewrite render1_length) Hl He Hn) as [[-> Hr]|(l1 & -> & Hz & Hl1)]; step.
    + rewrite (proj2 (Z.ltb_lt _ _) Hr). destruct (IH l env Hb Hl He Hcs) as (l' & -> & Hrest). step. exists l'.
      by destruct (change_vars (zlen l) cs env).
    + rewrite (proj2 (Z.ltb_ge _ _)) by (rewrite <- Hz; apply Hl1).
      destruct (IH l1 (upsert n v env) ltac:(lia) Hl1 (good_upsert _ _ _ He Hn Hv) Hcs) as (l' & -> & Hrest). step. exists l'.
      rewrite Hz in *. by destruct (change_vars (zlen l) cs (upsert n v env)).
  - apply Forall_cons in Hcs as [[Hn Hi] Hcs]. destruct (delete_spec l env n Hb Hi Hl He Hn) as (l1 & -> & Hz & Hl1). step.
    destruct (IH l1 (remove1 n env) ltac:(lia) Hl1 (good_remove1 _ _ He) Hcs) as (l' & E & Hrest). rewrite Hz in *. by exists l'.
Qed.

(** The hook that lists everything. *)
Definition collect (n v : list Z) (s : list entry) : Z * list entry := (0, s ++ [(n, v)]).

Lemma each_collect env : forall s, each collect env s = s ++ env.
Proof.
  induction env as [|[n v] env IH]; intros s; [by rewrite app_nil_r|]. cbn. rewrite IH. by rewrite <- app_assoc.
Qed.

Lemma iterate_holds {S} alloc_ok (hook : list Z -> list Z -> S -> Z * S) l env s : (forall n, alloc_ok n = true) ->
  holds l env -> good_env env -> grub_envblk_iterate alloc_ok hook l s = Some (each hook env s).
Proof.
  intros Ha Hl He. unfold grub_envblk_iterate. rewrite (holds_blk _ _ Hl). unfold blk, used. rewrite <- app_assoc.
  apply iterate_spec; [done|done|]. pose proof (length_render env). rewrite !length_app. cbn. lia.
Qed.

(** C22: the environment block is a faithful store.  From any well-formed block of fewer than
    2^31 characters, any sequence of settings and deletions of names and values whose lengths,
    escapes included, fit in an [int] stays inside the buffer, overflows no length, keeps the
    size and the format of the block, and leaves exactly the variables that the same changes
    leave in an abstract list: an existing variable keeps its place, a new one goes to the end, a
    value may hold any characters, newlines and backslashes included; a setting is refused, with
    nothing changed, exactly when its result does not fit.  The block then opens, and iterating
    over it gives exactly those variables, memory not failing. *)
Theorem envblk_stores_variables alloc_ok l env cs : (forall n, alloc_ok n = true) ->
  holds l env -> good_env env -> zlen GRUB_ENVBLK_SIGNATURE < zlen l < 2 ^ 31 -> Forall good_change cs ->
  exists l', apply_changes cs l = Some ((change_vars (zlen l) cs env).1, l') /\ zlen l' = zlen l /\
    grub_envblk_open true l' = (Some l', ERR_NONE) /\
    grub_envblk_iterate alloc_ok collect l' [] = Some (change_vars (zlen l) cs env).2.
Proof.
  intros Ha Hl He [Hsig Hb] Hcs. destruct (changes_spec cs l env Hb Hl He Hcs) as (l' & E & Hz & Hl' & He').
  exists l'. split; [done|]. split; [done|]. split.
  - unfold grub_envblk_open. rewrite (proj2 (Z.ltb_ge _ _)) by lia.
    assert (sub l' 0 (zlen GRUB_ENVBLK_SIGNATURE) = GRUB_ENVBLK_SIGNATURE) as Hs.
    { destruct Hl' as [_ ->]. apply sub_prefix. }
    by rewrite (bool_decide_true _ Hs).
  - rewrite (iterate_holds _ _ _ _ _ Ha Hl' He'). by rewrite each_collect.
Qed.

(** A block of 100 characters without variables. *)
Definition empty_block : list Z := GRUB_ENVBLK_SIGNATURE ++ replicate 75 35.

Definition some_changes : list change :=
  [Set_var (chars "saved_entry") (chars "Linux"); Set_var (chars "note") [97; 10; 92; 98];
   Set_var (chars "saved_entry") (chars "0"); Delete_var (chars "note"); Set_var (chars "x") (replicate 80 97)].

Lemma envblk_stores_variables_witness : exists l',
  apply_changes some_changes empty_block = Some ([1; 1; 1; 0], l') /\
  grub_envblk_iterate (fun _ => true) collect l' [] = Some [(chars "saved_entry", chars "0")].
Proof.
  destruct (envblk_stores_variables (fun _ => true) empty_block [] some_changes) as (l' & E & _ & _ & Hi).
  - intros n. reflexivity.
  - split; [vm_compute; discriminate|vm_compute; reflexivity].
  - apply Forall_nil_2.
  - split; vm_compute; reflexivity.
  - assert (forall c, c ∈ some_changes -> good_change c) as Hg; [|by apply Forall_forall].
    assert (forallb (fun c => bool_decide (c <> 0 /\ c <> 10 /\ c <> 61 /\ c <> 92))
      (chars "saved_entry" ++ chars "note" ++ chars "x") = true) as Hplain by (vm_compute; reflexivity).
    assert (forall n, (forall c, c ∈ n -> c ∈ chars "saved_entry" ++ chars "note" ++ chars "x") -> Forall plain n) as Hp.
    { intros n Hn. apply Forall_forall. intros c Hc. rewrite forallb_forall in Hplain.
      specialize (Hplain c (proj1 (list_elem_of_In _ _) (Hn c Hc))). by apply bool_decide_eq_true in Hplain. }
    assert (good_name (chars "saved_entry") /\ good_name (chars "note") /\ good_name (chars "x")) as (H1 & H2 & H3).
    { split_and!; (split; [apply Hp; intros c; rewrite !elem_of_app; tauto|]; split_and!; discriminate). }
    assert (forall v, forallb (fun c => negb (c =? 0)) v = true -> good_value v) as Hv.
    { intros v H. apply Forall_forall. intros c Hc. rewrite forallb_forall in H.
      specialize (H c (proj1 (list_elem_of_In _ _) Hc)). by destruct (Z.eqb_spec c 0). }
    intros c Hc. unfold some_changes in Hc. rewrite !elem_of_cons, elem_of_nil in Hc.
    destruct Hc as [->|[->|[->|[->|[->|[]]]]]]; cbn [good_change];
      (split; [done|]); try (split; [apply Hv; reflexivity|]); vm_compute; reflexivity.
  - exists l'. assert (change_vars (zlen empty_block) some_changes [] = ([1; 1; 1; 0], [(chars "saved_entry", chars "0")]))
      as Ec by (vm_compute; reflexivity).
    rewrite Ec in E, Hi. split; [exact E|exact Hi].
Defined.

End GrubEnvblk.
