(* ===== verification/GrubPrintf.v ===== *)
(** Formatted output of GRUB: the [printf] family of src/grub/grub-core/kern/misc.c, for 64-bit
    pointers, and the check of formats that come from outside.

    A format is a C string; pointers into it are suffixes.  Arguments come from a [va_list], a
    list of raw 64-bit words.  What is at the address of a string or GUID argument is given by
    [string_at] and [guid_at].  [None] is undefined behaviour: a read past the end of the
    format or of the arguments, or at an address where nothing is. *)

From S2P Require Import Prelude GrubStr GrubNum.

Module GrubPrintf.
Import GrubStr GrubNum.

Inductive arg_type :=
| INT | LONG | LONGLONG | UNSIGNED_INT | UNSIGNED_LONG | UNSIGNED_LONGLONG | STRING | GUID.

#[export] Instance arg_type_eq_dec : EqDecision arg_type.
Proof. solve_decision. Defined.

(** [INT + longfmt] and [UNSIGNED_INT + longfmt]. *)
Definition int_type (longfmt : Z) : arg_type :=
  if longfmt =? 0 then INT else if longfmt =? 1 then LONG else LONGLONG.
Definition unsigned_type (longfmt : Z) : arg_type :=
  if longfmt =? 0 then UNSIGNED_INT else if longfmt =? 1 then UNSIGNED_LONG else UNSIGNED_LONGLONG.

(** [c = *fmt++]; past the terminating NUL there is no suffix any more. *)
Definition getc (s : list Z) : Z * option (list Z) :=
  match s with [] => (0, None) | c :: s => (c, Some s) end.

(** [c = *fmt++] at a pointer that may be past the end. *)
Definition getc_at (s : option (list Z)) : option (Z * option (list Z)) := s ← s; Some (getc s).

Definition skip_char (c : Z) (s : list Z) : list Z := if at0 s =? c then tail s else s.
Definition skip_digits (s : list Z) : list Z := skip_while grub_isdigit s.

(** A second flag, the width, the precision. *)
Definition skip_params (s : list Z) : list Z :=
  skip_digits (skip_char 46 (skip_digits (skip_char 45 s))).

(** ** [parse_printf_arg_fmt] *)

Definition is_conversion (c : Z) : bool :=
  (c =? 120) || (c =? 88) || (c =? 117) || (c =? 100) || (c =? 111) || (c =? 99) || (c =? 67) || (c =? 115).

(** The first pass: the number of arguments, or the error of the check. *)
Fixpoint count_args (fuel : nat) (fmt_check : bool) (s : list Z) (count : Z) : option (grub_err_t + Z) :=
  match fuel with
  | O => None
  | S fuel =>
      match s with
      | [] => Some (inr count)
      | c :: s =>
          if negb (c =? 37) then count_args fuel fmt_check s count else
          let s := skip_digits (skip_char 45 s) in
          if (at0 s =? 36) && fmt_check then Some (inl ERR_BAD_ARGUMENT) else
          let s := skip_params (skip_char 36 s) in
          let '(c, s) := getc s in
          '(c, s) ← (if c =? 122 then getc_at s
                     else
                       '(c, s) ← (if c =? 108 then getc_at s else Some (c, s));
                       if c =? 108 then getc_at s else Some (c, s));
          let next s count := s ← s; count_args fuel fmt_check s count in
          if c =? 112 then
            s ← s; next (Some (skip_char 71 s)) (count + 1)
          else if is_conversion c then next s (count + 1)
          else if c =? 37 then next s count
          else if fmt_check then Some (inl ERR_BAD_ARGUMENT) else next s count
      end
  end.

(** The second pass: the types of the arguments. *)
Fixpoint set_types (fuel : nat) (s : list Z) (n : Z) (types : list arg_type) : option (list arg_type) :=
  match fuel with
  | O => None
  | S fuel =>
      match s with
      | [] => Some types
      | c :: s =>
          if negb (c =? 37) then set_types fuel s n types else
          let curn := n in
          let n := n + 1 in
          let s := skip_char 45 s in
          let p := s in
          let s := skip_digits s in
          curn_s ← (if at0 s =? 36 then
                      v ← grub_strtoul p 10;
                      Some (if value v =? 0 then None else Some (value v - 1, tail s))
                    else Some (Some (curn, s)));
          match curn_s with
          | None => set_types fuel s n types
          | Some (curn, s) =>
              let s := skip_params s in
              let '(c, s) := getc s in
              if c =? 37 then s ← s; set_types fuel s (n - 1) types else
              '(c, s, longfmt) ← (if c =? 122 then '(c, s) ← getc_at s; Some (c, s, 1) else Some (c, s, 0));
              '(c, s, longfmt) ← (if c =? 108 then '(c, s) ← getc_at s; Some (c, s, 1) else Some (c, s, longfmt));
              '(c, s, longfmt) ← (if c =? 108 then '(c, s) ← getc_at s; Some (c, s, 2) else Some (c, s, longfmt));
              s ← s;
              let set t := <[Z.to_nat curn := t]> types in
              if Z.of_nat (length types) <=? curn then set_types fuel s n types
              else if (c =? 120) || (c =? 88) || (c =? 111) || (c =? 117) then
                set_types fuel s n (set (unsigned_type longfmt))
              else if c =? 100 then set_types fuel s n (set (int_type longfmt))
              else if c =? 112 then
                if at0 s =? 71 then set_types fuel (tail s) n (set GUID)
                else set_types fuel s n (set UNSIGNED_LONGLONG)
              else if c =? 115 then set_types fuel s n (set STRING)
              else if (c =? 67) || (c =? 99) then set_types fuel s n (set INT)
              else set_types fuel s n types
          end
      end
  end.

Section Printf.
Variable alloc_ok : Z -> bool.

(** The error and the types of the arguments. *)
Definition parse_printf_arg_fmt (fmt0 : list Z) (fmt_check : bool) (max_args : Z)
  : option (grub_err_t * list arg_type) :=
  r ← count_args (S (length fmt0)) fmt_check fmt0 0;
  match r with
  | inl e => Some (e, [])
  | inr count =>
      if fmt_check && (max_args <? count) then Some (ERR_BAD_ARGUMENT, []) else
      let have := (count <=? 32) || alloc_ok (count * 8) in
      if negb have && fmt_check then Some (ERR_OUT_OF_MEMORY, []) else
      let count := if have then count else 32 in
      types ← set_types (S (length fmt0)) fmt0 0 (replicate (Z.to_nat count) INT);
      Some (ERR_NONE, types)
  end.

(** [va_arg], and the conversion to [long long]. *)
Definition fetch (t : arg_type) (v : Z) : Z :=
  match t with
  | INT => s32 v
  | UNSIGNED_INT => u32 v
  | _ => s64 v
  end.

Fixpoint fetch_all (types : list arg_type) (va : list Z) : option (list Z) :=
  match types, va with
  | [], _ => Some []
  | t :: types, v :: va => r ← fetch_all types va; Some (fetch t v :: r)
  | _ :: _, [] => None
  end.

Definition parse_printf_args (fmt0 va : list Z) : option (list Z) :=
  '(_, types) ← parse_printf_arg_fmt fmt0 false 0;
  fetch_all types va.

(** ** Writing *)

Record out := mk_out { str : list Z; count : Z }.

Section Write.
Variable max_len : Z.

(** An [unsigned char] stored into a [char]. *)
Definition write_char (o : out) (ch : Z) : out :=
  mk_out (if count o <? max_len then str o ++ [s8 ch] else str o) (count o + 1).

Definition write_chars (l : list Z) (o : out) : out := fold_left write_char l o.

(** The characters of a string up to a limit that need not be reached. *)
Definition take_upto (n : Z) (l : list Z) : list Z := if zlen l <=? n then l else take (Z.to_nat n) l.

Definition fill_of (len format1 : Z) : Z := if len <? format1 then format1 - len else 0.

(** Padding on the left or on the right. *)
Definition write_padded (format1 : Z) (rightfill : bool) (zerofill : Z) (l : list Z) (o : out) : out :=
  let fill := replicate (Z.to_nat (fill_of (zlen l) format1)) zerofill in
  let o := if negb rightfill then write_chars fill o else o in
  let o := write_chars l o in
  if rightfill then write_chars fill o else o.

Definition write_number (format1 : Z) (rightfill : bool) (zerofill c value : Z) (o : out) : option out :=
  tmp ← grub_lltoa c (u64 value);
  Some (write_padded format1 rightfill zerofill tmp o).

Record guid := mk_guid { data1 : Z; data2 : Z; data3 : Z; data4 : list Z }.

Definition hex (width v : Z) (o : out) : option out := write_number width false 48 120 v o.

Definition write_guid (g : guid) (o : out) : option out :=
  o ← hex 8 (data1 g) o;
  o ← hex 4 (data2 g) (write_char o 45);
  o ← hex 4 (data3 g) (write_char o 45);
  let o := write_char o 45 in
  d0 ← data4 g !! 0%nat; o ← hex 2 d0 o;
  d1 ← data4 g !! 1%nat; o ← hex 2 d1 o;
  let o := write_char o 45 in
  d2 ← data4 g !! 2%nat; o ← hex 2 d2 o;
  d3 ← data4 g !! 3%nat; o ← hex 2 d3 o;
  d4 ← data4 g !! 4%nat; o ← hex 2 d4 o;
  d5 ← data4 g !! 5%nat; o ← hex 2 d5 o;
  d6 ← data4 g !! 6%nat; o ← hex 2 d6 o;
  d7 ← data4 g !! 7%nat; hex 2 d7 o.

(** The bytes of a code point in UTF-8. *)
Definition utf8_bytes (code : Z) : list Z :=
  let '(code, shift, mask) :=
    if code <=? 0x7f then (code, 0, 0)
    else if code <=? 0x7ff then (code, 6, 0xc0)
    else if code <=? 0xffff then (code, 12, 0xe0)
    else if code <=? 0x10ffff then (code, 18, 0xf0)
    else (63, 0, 0) in
  let cont s := Z.lor 0x80 (Z.land 0x3f (Z.shiftr code s)) in
  Z.lor mask (Z.shiftr code shift) ::
  (if shift =? 18 then [cont 12; cont 6; cont 0]
   else if shift =? 12 then [cont 6; cont 0]
   else if shift =? 6 then [cont 0] else []).

(** ** [grub_vsnprintf_real] *)

Variable string_at : Z -> option (list Z).
Variable guid_at : Z -> option guid.

(** What a directive says, from [rescan] on: the argument, the two numbers, the fill, the side,
    and the rest of the format; [inr]: an invalid position, the directive is dropped. *)
Record spec := mk_spec { curn : Z; format1 : Z; format2 : Z; zerofill : Z; rightfill : bool; rest : list Z }.

Fixpoint scan_spec (fuel : nat) (cur : Z) (s : list Z) : option (spec + list Z) :=
  match fuel with
  | O => None
  | S fuel =>
      let rightfill := at0 s =? 45 in
      let s := skip_char 45 s in
      '(zf, f1, s) ← (if grub_isdigit (at0 s) then
                        v ← grub_strtoul s 10;
                        Some (if at0 s =? 48 then 48 else 32, u32 (value v), endp v)
                      else Some (32, 0, s));
      let s := skip_char 46 s in
      '(f2, s) ← (if grub_isdigit (at0 s) then
                    v ← grub_strtoul s 10; Some (u32 (value v), endp v)
                  else Some (2 ^ 32 - 1, s));
      if at0 s =? 36 then
        if f1 =? 0 then Some (inr s)
        else scan_spec fuel (f1 - 1) (tail s)
      else Some (inl (mk_spec cur f1 f2 zf rightfill s))
  end.

(** [z], [l], [ll] and the conversion character. *)
Definition conversion (s : list Z) : option (Z * option (list Z)) :=
  let '(c, s) := getc s in
  '(c, s) ← (if c =? 122 then getc_at s else Some (c, s));
  '(c, s) ← (if c =? 108 then getc_at s else Some (c, s));
  if c =? 108 then getc_at s else Some (c, s).

(** The output of one conversion, and the rest of the format. *)
Definition convert (sp : spec) (c : Z) (s : list Z) (arg : Z) (o : out) : option (out * list Z) :=
  let number c o := o ← write_number (format1 sp) (rightfill sp) (zerofill sp) c arg o; Some (o, s) in
  if c =? 112 then
    if at0 s =? 71 then
      g ← guid_at arg; o ← write_guid g o; Some (o, tail s)
    else number 120 (write_char (write_char o 48) 120)
  else if (c =? 120) || (c =? 88) || (c =? 117) || (c =? 100) || (c =? 111) then number c o
  else if c =? 99 then Some (write_char o (Z.land arg 0xff), s)
  else if c =? 67 then Some (write_chars (utf8_bytes (u32 arg)) o, s)
  else if c =? 115 then
    p ← (if arg =? 0 then Some (chars "(null)") else string_at arg);
    Some (write_padded (format1 sp) (rightfill sp) (zerofill sp) (take_upto (format2 sp) p) o, s)
  else Some (write_char o c, s).

Fixpoint vsnprintf_loop (fuel : nat) (s : list Z) (n : Z) (args : list Z) (o : out) : option out :=
  match fuel with
  | O => None
  | S fuel =>
      match s with
      | [] => Some o
      | c :: s =>
          if negb (c =? 37) then vsnprintf_loop fuel s n args (write_char o c) else
          r ← scan_spec (S (length s)) n s;
          match r with
          | inr s => vsnprintf_loop fuel s (n + 1) args o
          | inl sp =>
              '(c, s) ← conversion (rest sp);
              if c =? 37 then s ← s; vsnprintf_loop fuel s n args (write_char o c)
              else
                s ← s;
                if zlen args <=? curn sp then vsnprintf_loop fuel s (n + 1) args o
                else
                  arg ← aget args (curn sp);
                  '(o, s) ← convert sp c s arg o;
                  vsnprintf_loop fuel s (n + 1) args o
          end
      end
  end.

(** The number of characters of the whole text as an [int], and the string that is stored. *)
Definition grub_vsnprintf_real (fmt0 args : list Z) : option (Z * list Z) :=
  o ← vsnprintf_loop (S (length fmt0)) fmt0 0 args (mk_out [] 0);
  Some (s32 (count o), str o ++ [0]).
End Write.

Variable string_at : Z -> option (list Z).
Variable guid_at : Z -> option guid.

(** The result and, unless [n] is 0, what is stored. *)
Definition grub_vsnprintf (n : Z) (fmt va : list Z) : option (Z * option (list Z)) :=
  if n =? 0 then Some (0, None)
  else
    args ← parse_printf_args fmt va;
    '(c, s) ← grub_vsnprintf_real (n - 1) string_at guid_at fmt args;
    Some (c, Some s).

Definition PREALLOC_SIZE : Z := 255.

(** The allocation is repeated with the size that is needed. *)
Fixpoint xvasprintf_loop (fuel : nat) (size : Z) (fmt args : list Z) : option (option (list Z)) :=
  match fuel with
  | O => None
  | S fuel =>
      if negb (alloc_ok (u64 (size + 1))) then Some None else
      '(c, s) ← grub_vsnprintf_real size string_at guid_at fmt args;
      let c := u64 c in
      if c <=? size then Some (Some s) else xvasprintf_loop fuel c fmt args
  end.

Definition grub_xvasprintf (fmt va : list Z) : option (option (list Z)) :=
  args ← parse_printf_args fmt va;
  xvasprintf_loop 2 PREALLOC_SIZE fmt args.

(** The result, and the characters before the terminator of the buffer that goes to
    [grub_xputs]; without memory the text is cut. *)
Definition grub_vprintf (fmt va : list Z) : option (Z * list Z) :=
  args ← parse_printf_args fmt va;
  '(c, s) ← grub_vsnprintf_real PREALLOC_SIZE string_at guid_at fmt args;
  let c := u64 c in
  '(c, s) ← (if PREALLOC_SIZE <? c then
               if alloc_ok (u64 (c + 1)) then
                 '(c, s) ← grub_vsnprintf_real c string_at guid_at fmt args; Some (u64 c, s)
               else Some (c, take (Z.to_nat (PREALLOC_SIZE - 3)) s ++ [46; 46; 46; 0])
             else Some (c, s));
  Some (s32 c, take (length s - 1) s).

(** Whether its allocation fails. *)
Definition grub_vprintf_fails (fmt va : list Z) : option bool :=
  args ← parse_printf_args fmt va;
  '(c, _) ← grub_vsnprintf_real PREALLOC_SIZE string_at guid_at fmt args;
  Some ((PREALLOC_SIZE <? u64 c) && negb (alloc_ok (u64 (u64 c + 1)))).

(** ** [grub_printf_fmt_check] *)

Definition GRUB_SIZE_MAX : Z := 2 ^ 64 - 1.

(** [None] is a NULL pointer. *)
Definition grub_printf_fmt_check (fmt fmt_expected : option (list Z)) : option grub_err_t :=
  match fmt, fmt_expected with
  | Some fmt, Some fmt_expected =>
      '(e, expected) ← parse_printf_arg_fmt fmt_expected true GRUB_SIZE_MAX;
      match e with
      | ERR_NONE =>
          '(e, types) ← parse_printf_arg_fmt fmt true (Z.of_nat (length expected));
          match e with
          | ERR_NONE =>
              if bool_decide (types = take (length types) expected) then Some ERR_NONE else Some ERR_BAD_ARGUMENT
          | _ => Some e
          end
      | _ => Some e
      end
  | _, _ => Some ERR_BAD_ARGUMENT
  end.
End Printf.

(** * Truncation *)

(** [o] is what a buffer of [m] characters holds of the text [l]. *)
Definition shows (m : Z) (o : out) (l : list Z) : Prop := str o = take (Z.to_nat m) l /\ count o = zlen l.

Lemma write_char_shows m o l ch : shows m o l -> shows m (write_char m o ch) (l ++ [s8 ch]).
Proof.
  intros [Hs Hc]. unfold write_char, shows. cbn [str count]. rewrite Hs, Hc. split; [|by rewrite zlen_app].
  unfold zlen. destruct (Z.ltb_spec (Z.of_nat (length l)) m) as [Hlt|Hge].
  - rewrite !take_ge by (rewrite ?length_app; cbn; lia). done.
  - by rewrite take_app_le by lia.
Qed.

Lemma write_chars_shows m x : forall o l, shows m o l -> shows m (write_chars m x o) (l ++ (s8 <$> x)).
Proof.
  induction x as [|c x IH]; intros o l Ho; [by rewrite app_nil_r|]. cbn [write_chars fold_left fmap list_fmap].
  replace (l ++ s8 c :: (s8 <$> x)) with ((l ++ [s8 c]) ++ (s8 <$> x)) by (by rewrite <- app_assoc).
  apply IH. by apply write_char_shows.
Qed.

(** The text of a padded field. *)
Definition padded (w : Z) (left : bool) (fill : Z) (x : list Z) : list Z :=
  let f := replicate (Z.to_nat (fill_of (zlen x) w)) fill in if left then x ++ f else f ++ x.

Lemma write_padded_shows m w left fill x o l : shows m o l ->
  shows m (write_padded m w left fill x o) (l ++ (s8 <$> padded w left fill x)).
Proof.
  intros Ho. unfold write_padded, padded. destruct left; cbn [negb]; rewrite fmap_app, app_assoc; by do 2 apply write_chars_shows.
Qed.

(** An operation adds a text that does not depend on the size of the buffer. *)
Definition adds (f : Z -> out -> option out) : Prop :=
  exists x : option (list Z), forall m o l, shows m o l ->
    match x with Some x => exists o', f m o = Some o' /\ shows m o' (l ++ x) | None => f m o = None end.

Lemma adds_ret : adds (fun _ o => Some o).
Proof. exists (Some []). intros m o l Ho. exists o. by rewrite app_nil_r. Qed.

Lemma adds_bind f g : adds f -> adds g -> adds (fun m o => o ← f m o; g m o).
Proof.
  intros [[x|] Hf] [y Hg].
  - exists (y ← y; Some (x ++ y)). intros m o l Ho. destruct (Hf m o l Ho) as (o1 & -> & Ho1).
    specialize (Hg m o1 _ Ho1). destruct y as [y|]; cbn.
    + destruct Hg as (o2 & E & Ho2). exists o2. by rewrite <- app_assoc in Ho2.
    + done.
  - exists None. intros m o l Ho. by rewrite (Hf m o l Ho).
Qed.

Lemma adds_char c : adds (fun m o => Some (write_char m o c)).
Proof. exists (Some [s8 c]). intros m o l Ho. eexists. split; [done|]. by apply write_char_shows. Qed.

Lemma adds_number w left fill c v : adds (fun m o => write_number m w left fill c v o).
Proof.
  unfold write_number. destruct (grub_lltoa c (u64 v)) as [t|]; [|by exists None].
  exists (Some (s8 <$> padded w left fill t)). intros m o l Ho. eexists. split; [done|]. by apply write_padded_shows.
Qed.

Lemma adds_none : adds (fun _ _ => None).
Proof. by exists None. Qed.

Lemma adds_ext f g : (forall m o, f m o = g m o) -> adds f -> adds g.
Proof. intros H [x Hf]. exists x. intros m o l Ho. rewrite <- H. by apply Hf. Qed.
Lemma adds_chars x : adds (fun m o => Some (write_chars m x o)).
Proof. exists (Some (s8 <$> x)). intros m o l Ho. eexists. split; [done|]. by apply write_chars_shows. Qed.

Lemma adds_padded w left fill x : adds (fun m o => Some (write_padded m w left fill x o)).
Proof. exists (Some (s8 <$> padded w left fill x)). intros m o l Ho. eexists. split; [done|]. by apply write_padded_shows. Qed.

Lemma adds_then (h : Z -> out -> out) f : adds (fun m o => Some (h m o)) -> adds f -> adds (fun m o => f m (h m o)).
Proof. intros Hh Hf. exact (adds_bind _ _ Hh Hf). Qed.

Lemma adds_option {A} (x : option A) f : (forall a, adds (f a)) -> adds (fun m o => a ← x; f a m o).
Proof. intros Hf. destruct x as [a|]; [exact (Hf a)|apply adds_none]. Qed.

Create HintDb adds.
#[export] Hint Resolve adds_ret adds_char adds_chars adds_number adds_padded adds_none : adds.

(** Splits an operation into its parts. *)
Ltac adds_tac :=
  repeat first
    [ solve [eauto with adds]
    | match goal with
      | |- adds (fun m o => (@?f m o) ≫= (fun o' => @?g m o')) => apply (adds_bind f g)
      | |- adds (fun m o => ?x ≫= (fun a => @?f m o a)) => apply (adds_option x (fun a m o => f m o a)); intros ?
      end ].

Lemma adds_hex w v : adds (fun m o => hex m w v o).
Proof. apply adds_number. Qed.

Lemma adds_dash_hex w v : adds (fun m o => hex m w v (write_char m o 45)).
Proof. apply (adds_then (fun m o => write_char m o 45) (fun m o => hex m w v o)); [apply adds_char|apply adds_hex]. Qed.
#[export] Hint Resolve adds_hex adds_dash_hex : adds.

Lemma adds_guid g : adds (fun m o => write_guid m g o).
Proof.
  unfold write_guid. cbv zeta. adds_tac.
Qed.

(** A conversion adds a text and consumes a part of the format that do not depend on the buffer. *)
Lemma convert_adds string_at guid_at sp c s arg : exists g s', adds g /\
  forall m o, convert m string_at guid_at sp c s arg o = (o ← g m o; Some (o, s')).
Proof.
  unfold convert.
  assert (forall w left fill c', exists g s', adds g /\ forall m o,
    (o ← write_number m w left fill c' arg o; Some (o, s)) = (o ← g m o; Some (o, s'))) as Hnum.
  { intros. eexists _, s. split; [apply adds_number|done]. }
  destruct (c =? 112).
  - destruct (at0 s =? 71).
    + exists (fun m o => g ← guid_at arg; write_guid m g o), (tail s). split.
      * apply adds_option. intros. apply adds_guid.
      * intros m o. by destruct (guid_at arg).
    + exists (fun m o => write_number m (format1 sp) (rightfill sp) (zerofill sp) 120 arg (write_char m (write_char m o 48) 120)), s.
      split; [|done].
      apply (adds_then (fun m o => write_char m o 48) (fun m o => write_number m _ _ _ _ _ (write_char m o 120))); [apply adds_char|].
      apply (adds_then (fun m o => write_char m o 120) (fun m o => write_number m _ _ _ _ _ o)); [apply adds_char|apply adds_number].
  - destruct (_ || _); [apply Hnum|].
    destruct (c =? 99); [eexists _, s; split; [apply adds_char|done]|].
    destruct (c =? 67); [eexists _, s; split; [apply adds_chars|done]|].
    destruct (c =? 115); [|eexists _, s; split; [apply adds_char|done]].
    exists (fun m o => p ← (if arg =? 0 then Some (chars "(null)") else string_at arg);
      Some (write_padded m (format1 sp) (rightfill sp) (zerofill sp) (take_upto (format2 sp) p) o)), s.
    split; [apply adds_option; intros; apply adds_padded|].
    intros m o. by destruct (if arg =? 0 then _ else _).
Qed.

Lemma loop_adds string_at guid_at args fuel : forall s n,
  adds (fun m o => vsnprintf_loop m string_at guid_at fuel s n args o).
Proof.
  induction fuel as [|fuel IH]; intros s n; [apply adds_none|].
  destruct s as [|c s]; [apply adds_ret|]. cbn [vsnprintf_loop].
  assert (forall s n d, adds (fun m o => vsnprintf_loop m string_at guid_at fuel s n args (write_char m o d))) as IHc.
  { intros. apply (adds_then (fun m o => write_char m o _) (fun m o => vsnprintf_loop m string_at guid_at fuel _ _ args o)); [apply adds_char|apply IH]. }
  destruct (negb (c =? 37)); [apply IHc|].
  apply adds_option. intros [sp|s1]; [|apply IH].
  apply adds_option. intros [d s1].
  destruct (d =? 37); [apply adds_option; intros; apply IHc|].
  apply adds_option. intros s2.
  destruct (zlen args <=? curn sp); [apply IH|].
  apply adds_option. intros arg.
  destruct (convert_adds string_at guid_at sp d s2 arg) as (g & s3 & Hg & E).
  apply (adds_ext (fun m o => o ← g m o; vsnprintf_loop m string_at guid_at fuel s3 (n + 1) args o)).
  - intros m o. rewrite E. by destruct (g m o).
  - apply adds_bind; [done|apply IH].
Qed.

(** The text of a format, in a buffer of any size. *)
Lemma real_shows string_at guid_at fmt args : exists text, forall m, 0 <= m ->
  grub_vsnprintf_real m string_at guid_at fmt args =
  (text ← text; Some (s32 (zlen text), take (Z.to_nat m) text ++ [0])).
Proof.
  destruct (loop_adds string_at guid_at args (S (length fmt)) fmt 0) as [text H]. exists text. intros m Hm.
  unfold grub_vsnprintf_real. specialize (H m (mk_out [] 0) []).
  destruct text as [text|].
  - destruct H as (o & -> & Hs & Hc); [by split; [rewrite take_nil|]|]. step. by rewrite Hs, Hc.
  - by rewrite H by (split; [rewrite take_nil|]; done).
Qed.

End GrubPrintf.
