(* ===== verification/GrubFormat.v ===== *)
(** What the formats of GRUB mean: a reference definition of the text of a format, built from
    literal characters and directives, and the proof that the [printf] family of
    src/grub/grub-core/kern/misc.c writes it. *)

From S2P Require Import Prelude GrubStr GrubNum GrubPrintf.

Module GrubFormat.
Import GrubStr GrubNum GrubPrintf.

(** * Formats *)

Inductive len_mod := no_len | len_z | len_l | len_ll.

Inductive conv := conv_d | conv_u | conv_x | conv_X | conv_o | conv_c | conv_C | conv_s | conv_p | conv_pG.

(** A directive without a position: the [-] flag, the digits of the width and of the
    precision, the length modifier and the conversion. *)
Record directive := mk_directive {
  d_left : bool;
  d_width : list Z;
  d_prec : option (list Z);
  d_len : len_mod;
  d_conv : conv
}.

Inductive item := Lit (c : Z) | Percent | Dir (d : directive).

Definition len_chars (l : len_mod) : list Z :=
  match l with no_len => [] | len_z => chars "z" | len_l => chars "l" | len_ll => chars "ll" end.

Definition conv_chars (c : conv) : list Z :=
  match c with
  | conv_d => chars "d" | conv_u => chars "u" | conv_x => chars "x" | conv_X => chars "X" | conv_o => chars "o"
  | conv_c => chars "c" | conv_C => chars "C" | conv_s => chars "s" | conv_p => chars "p" | conv_pG => chars "pG"
  end.

Definition prec_chars (p : option (list Z)) : list Z := match p with Some p => 46 :: p | None => [] end.

Definition flag_chars (left : bool) : list Z := if left then [45] else [].

Definition spec_chars (d : directive) : list Z := len_chars (d_len d) ++ conv_chars (d_conv d).

Definition render_item (i : item) : list Z :=
  match i with
  | Lit c => [c]
  | Percent => [37; 37]
  | Dir d => 37 :: flag_chars (d_left d) ++ d_width d ++ prec_chars (d_prec d) ++ spec_chars d
  end.

Fixpoint render (l : list item) : list Z :=
  match l with [] => [] | i :: l => render_item i ++ render l end.

(** * Their text *)

Definition dec_value (ds : list Z) : Z := horner 10 0 ((fun c => c - 48) <$> ds).

Definition d_type (d : directive) : arg_type :=
  match d_conv d, d_len d with
  | conv_d, no_len => INT
  | conv_d, len_ll => LONGLONG
  | conv_d, _ => LONG
  | (conv_u | conv_x | conv_X | conv_o), no_len => UNSIGNED_INT
  | (conv_u | conv_x | conv_X | conv_o), len_ll => UNSIGNED_LONGLONG
  | (conv_u | conv_x | conv_X | conv_o), _ => UNSIGNED_LONG
  | (conv_c | conv_C), _ => INT
  | conv_s, _ => STRING
  | conv_p, _ => UNSIGNED_LONGLONG
  | conv_pG, _ => GUID
  end.

(** A number in a base, most significant digit first. *)
Definition numeral (base : Z) (digit : Z -> Z) (n : Z) : list Z := digit <$> rev (le_digits base 64 n).

Definition signed (v : Z) : list Z :=
  if v <? 0 then 45 :: numeral 10 (fun d => d + 48) (- v) else numeral 10 (fun d => d + 48) v.

Definition unsigned (v : Z) : list Z := numeral 10 (fun d => d + 48) (u64 v).
Definition octal (v : Z) : list Z := numeral 8 (fun d => d + 48) (u64 v).
Definition hexadecimal (a : Z) (v : Z) : list Z :=
  numeral 16 (fun d => if d <? 10 then d + 48 else d - 10 + a) (u64 v).

(** UTF-8 by arithmetic; what is not a code point is a question mark. *)
Definition utf8 (c : Z) : list Z :=
  if c <? 0x80 then [c]
  else if c <? 0x800 then [0xc0 + c / 64; 0x80 + c mod 64]
  else if c <? 0x10000 then [0xe0 + c / 4096; 0x80 + c / 64 mod 64; 0x80 + c mod 64]
  else if c <? 0x110000 then [0xf0 + c / 262144; 0x80 + c / 4096 mod 64; 0x80 + c / 64 mod 64; 0x80 + c mod 64]
  else chars "?".

Definition guid_text (g : guid) : option (list Z) :=
  let hx w v := padded w false 48 (hexadecimal 97 v) in
  match data4 g with
  | b0 :: b1 :: b2 :: b3 :: b4 :: b5 :: b6 :: b7 :: _ =>
      Some (hx 8 (data1 g) ++ [45] ++ hx 4 (data2 g) ++ [45] ++ hx 4 (data3 g) ++ [45] ++
            hx 2 b0 ++ hx 2 b1 ++ [45] ++ hx 2 b2 ++ hx 2 b3 ++ hx 2 b4 ++ hx 2 b5 ++ hx 2 b6 ++ hx 2 b7)
  | _ => None
  end.

(** The precision; without digits it is the largest [unsigned int]. *)
Definition prec_value (p : option (list Z)) : Z :=
  match p with Some (c :: p) => dec_value (c :: p) | _ => 2 ^ 32 - 1 end.

Section Text.
Variable string_at : Z -> option (list Z).
Variable guid_at : Z -> option guid.


(** The text of a directive for the value of its argument. *)
Definition field (d : directive) (v : Z) : option (list Z) :=
  let pad := padded (dec_value (d_width d)) (d_left d) (if at0 (d_width d) =? 48 then 48 else 32) in
  match d_conv d with
  | conv_d => Some (pad (signed v))
  | conv_u => Some (pad (unsigned v))
  | conv_x => Some (pad (hexadecimal 97 v))
  | conv_X => Some (pad (hexadecimal 65 v))
  | conv_o => Some (pad (octal v))
  | conv_c => Some [v mod 256]
  | conv_C => Some (utf8 (u32 v))
  | conv_s => s ← (if v =? 0 then Some (chars "(null)") else string_at v); Some (pad (take_upto (prec_value (d_prec d)) s))
  | conv_p => Some (chars "0x" ++ pad (hexadecimal 97 v))
  | conv_pG => g ← guid_at v; guid_text g
  end.

(** The text of a format: each directive takes the next argument. *)
Fixpoint text_of (l : list item) (va : list Z) : option (list Z) :=
  match l with
  | [] => Some []
  | Lit c :: l => t ← text_of l va; Some (c :: t)
  | Percent :: l => t ← text_of l va; Some (37 :: t)
  | Dir d :: l =>
      match va with
      | v :: va => f ← field d (fetch (d_type d) v); t ← text_of l va; Some (f ++ t)
      | [] => None
      end
  end.
End Text.

(** * Well-formed formats *)

Definition numeral_ok (ds : list Z) : Prop := Forall (fun c => grub_isdigit c = true) ds /\ dec_value ds < 2 ^ 32.

#[export] Instance numeral_ok_dec ds : Decision (numeral_ok ds).
Proof. apply _. Defined.

(** Literals are characters other than NUL and [%]; a [G] may not follow [%p]. *)
Fixpoint wf (l : list item) : Prop :=
  match l with
  | [] => True
  | Lit c :: l => is_char c /\ c <> 0 /\ c <> 37 /\ wf l
  | Percent :: l => wf l
  | Dir d :: l =>
      numeral_ok (d_width d) /\ numeral_ok (default [] (d_prec d)) /\
      (d_conv d = conv_p -> at0 (render l) <> 71) /\ wf l
  end.

Definition directives (l : list item) : list directive := omap (fun i => match i with Dir d => Some d | _ => None end) l.
Definition types_of (l : list item) : list arg_type := d_type <$> directives l.

(** * Scanning a directive *)

(** What may follow the numbers of a directive. *)
Definition starts_spec (s : list Z) : Prop :=
  grub_isdigit (at0 s) = false /\ at0 s <> 36 /\ at0 s <> 45 /\ at0 s <> 46.

Lemma spec_starts d r : starts_spec (spec_chars d ++ r).
Proof. unfold starts_spec, spec_chars. destruct (d_len d), (d_conv d); cbn; done. Qed.

Lemma skip_char_ne c s : at0 s <> c -> skip_char c s = s.
Proof. intros H. unfold skip_char. by rewrite (proj2 (Z.eqb_neq _ _) H). Qed.

Lemma skip_digits_app ds r : Forall (fun c => grub_isdigit c = true) ds ->
  grub_isdigit (at0 r) = false -> skip_digits (ds ++ r) = r.
Proof.
  intros Hd Hr. unfold skip_digits. induction Hd as [|c ds Hc _ IH]; [|cbn; by rewrite Hc].
  destruct r as [|c r]; [done|]. cbn in *. by rewrite Hr.
Qed.

(** Digits in front of other characters are no flag and no dot. *)
Lemma digits_at0 ds r c : Forall (fun c => grub_isdigit c = true) ds -> grub_isdigit c = false ->
  at0 r <> c -> at0 (ds ++ r) <> c.
Proof. intros Hd Hc Hr. destruct Hd as [|c' ds Hc' _]; [done|]. cbn. intros ->. congruence. Qed.
Section Scan.
Variable d : directive.
Variable r : list Z.
Hypothesis Hw : numeral_ok (d_width d).
Hypothesis Hp : numeral_ok (default [] (d_prec d)).

Definition numbers : list Z := prec_chars (d_prec d) ++ spec_chars d ++ r.
Definition body : list Z := flag_chars (d_left d) ++ d_width d ++ numbers.

Lemma numbers_at0 c : c = 36 \/ c = 45 \/ grub_isdigit c = true -> at0 numbers <> c.
Proof.
  clear Hw Hp. unfold numbers. destruct (spec_starts d r) as (H1 & H2 & H3 & _). intros Hc.
  destruct (d_prec d) as [p|]; cbn [prec_chars app at0].
  - intros <-. vm_compute in Hc. intuition done.
  - intros <-. destruct Hc as [|[|]]; congruence.
Qed.

Lemma numbers_digit : grub_isdigit (at0 numbers) = false.
Proof.
  destruct (grub_isdigit (at0 numbers)) eqn:E; [|done]. exfalso. by apply (numbers_at0 (at0 numbers)); auto.
Qed.

Lemma body_flag : skip_char 45 body = d_width d ++ numbers.
Proof.
  unfold body. destruct (d_left d); [done|]. apply skip_char_ne.
  apply digits_at0; [apply Hw|done|]. apply numbers_at0. auto.
Qed.

Lemma body_width : skip_digits (skip_char 45 body) = numbers.
Proof. rewrite body_flag. apply skip_digits_app; [apply Hw|apply numbers_digit]. Qed.

Lemma numbers_params : skip_params numbers = spec_chars d ++ r.
Proof.
  unfold skip_params. rewrite (skip_char_ne 45 numbers) by (apply numbers_at0; auto).
  assert (skip_digits numbers = numbers) as -> by (apply (skip_digits_app []); [constructor|apply numbers_digit]).
  destruct (spec_starts d r) as (H1 & H2 & H3 & H4). unfold numbers.
  destruct (d_prec d) as [p|] eqn:E.
  - change (skip_char 46 (prec_chars (Some p) ++ spec_chars d ++ r)) with (p ++ spec_chars d ++ r).
    apply skip_digits_app; [|done]. apply Hp.
  - rewrite skip_char_ne by done. by apply (skip_digits_app []).
Qed.
End Scan.

Lemma count_dir fuel chk d r k : numeral_ok (d_width d) -> numeral_ok (default [] (d_prec d)) ->
  (d_conv d = conv_p -> at0 r <> 71) ->
  count_args (S fuel) chk (37 :: body d r) k = count_args fuel chk r (k + 1).
Proof.
  intros Hw Hp Hg. cbn [count_args]. change (negb (37 =? 37)) with false. cbv iota.
  rewrite body_width by done. rewrite (proj2 (Z.eqb_neq _ _) (numbers_at0 d r 36 ltac:(auto))).
  rewrite (skip_char_ne 36 (numbers d r)) by (apply numbers_at0; auto). rewrite numbers_params by done.
  unfold spec_chars. destruct (d_len d), (d_conv d); try reflexivity;
    (transitivity (count_args fuel chk (skip_char 71 r) (k + 1)); [reflexivity|by rewrite skip_char_ne by auto]).
Qed.

Lemma set_types_dir fuel d r a (k : nat) : numeral_ok (d_width d) -> numeral_ok (default [] (d_prec d)) ->
  (d_conv d = conv_p -> at0 r <> 71) ->
  set_types (S fuel) (37 :: body d r) (zlen a) (a ++ replicate (S k) INT)
  = set_types fuel r (zlen (a ++ [d_type d])) ((a ++ [d_type d]) ++ replicate k INT).
Proof.
  intros Hw Hp Hg. cbn [set_types]. change (negb (37 =? 37)) with false. cbv iota.
  rewrite body_width by done. rewrite (proj2 (Z.eqb_neq _ _) (numbers_at0 d r 36 ltac:(auto))). step. cbv iota.
  rewrite numbers_params by done.
  rewrite length_app, zlen_app. change (zlen [d_type d]) with 1.
  assert ((Z.of_nat (length a + length (replicate (S k) INT)) <=? zlen a) = false) as Hc
    by (apply Z.leb_gt; unfold zlen; cbn [length replicate]; lia).
  rewrite Hc.
  assert (forall t, <[Z.to_nat (zlen a) := t]> (a ++ replicate (S k) INT) = (a ++ [t]) ++ replicate k INT) as Hi.
  { intros t. unfold zlen. rewrite Nat2Z.id, insert_app_r_alt, Nat.sub_diag by done. by rewrite <- app_assoc. }
  rewrite <- Hi. unfold spec_chars, d_type.
  destruct (d_len d), (d_conv d); try reflexivity;
    match goal with |- _ = ?g =>
      transitivity (if at0 r =? 71 then set_types fuel (tail r) (zlen a + 1) (<[Z.to_nat (zlen a) := GUID]> (a ++ replicate (S k) INT)) else g);
      [reflexivity|by rewrite (proj2 (Z.eqb_neq _ _) (Hg eq_refl))]
    end.
Qed.
(** * Numbers inside a format *)

Lemma isdigit_in c : grub_isdigit c = true -> is_char c /\ digit_in 10 c = Some (c - 48).
Proof.
  intros H. unfold digit_in, raw_digit. rewrite H. unfold grub_isdigit, is_char in *.
  apply andb_prop in H as [?%Z.leb_le ?%Z.leb_le]. zres. split; [lia|done].
Qed.

Lemma not_digit_in c : is_char c -> grub_isdigit c = false -> digit_in 10 c = None.
Proof.
  intros Hc H. unfold digit_in, raw_digit. rewrite H. unfold grub_isalpha, grub_tolower.
  destruct (_ || _) eqn:E; [|done].
  apply orb_prop in E as [E|E]; apply andb_prop in E as [?%Z.leb_le ?%Z.leb_le]; (zcase; try lia; done).
Qed.

Lemma horner_digits_mono num ds : 0 <= num -> Forall (fun c => grub_isdigit c = true) ds ->
  num <= horner 10 num ((fun c => c - 48) <$> ds).
Proof.
  intros Hn Hd. apply horner_mono; [lia|done|]. apply Forall_fmap. eapply Forall_impl; [exact Hd|].
  intros c Hc. cbn. unfold grub_isdigit in Hc. apply andb_prop in Hc as [?%Z.leb_le _]. lia.
Qed.

(** The digits in front of something else. *)
Lemma strtoull_loop_app ds r : Forall (fun c => grub_isdigit c = true) ds -> is_char (at0 r) ->
  grub_isdigit (at0 r) = false -> forall num found, 0 <= num ->
  horner 10 num ((fun c => c - 48) <$> ds) < 2 ^ 64 -> found || bool_decide (ds <> []) = true ->
  strtoull_loop 10 num found (ds ++ r) = Some (mk_parsed (horner 10 num ((fun c => c - 48) <$> ds)) r ERR_NONE).
Proof.
  intros Hd Hr Hnd. induction Hd as [|c ds Hc Hd IH]; intros num found Hn Hlt Hf.
  - rewrite orb_false_r in Hf. subst found. change (horner 10 num _) with num.
    destruct r as [|c r]; [done|]. cbn [app strtoull_loop].
    pose proof (digit_value_in 10 c Hr ltac:(lia)) as Hdv. rewrite (not_digit_in c Hr Hnd) in Hdv.
    destruct (digit_value c) as [d'|]; [|done]. by destruct (u64 10 <=? d').
  - destruct (isdigit_in c Hc) as [Hch Hin]. pose proof (digit_in_range 10 c _ Hch Hin) as Hrange.
    rewrite fmap_cons in *. change (horner 10 num (c - 48 :: ((fun c => c - 48) <$> ds)))
      with (horner 10 (num * 10 + (c - 48)) ((fun c => c - 48) <$> ds)) in *.
    pose proof (horner_digits_mono (num * 10 + (c - 48)) ds ltac:(lia) Hd) as Hm.
    cbn [app strtoull_loop]. pose proof (digit_value_in 10 c Hch ltac:(lia)) as Hdv. rewrite Hin in Hdv.
    destruct (digit_value c) as [d'|]; [|discriminate]. destruct (u64 10 <=? d'); [discriminate|]. injection Hdv as ->.
    destruct (overflow_test 10 num (c - 48)) as (qr & -> & Hov); [lia|lia|lia|]. step. rewrite Hov. zres.
    rewrite wrap_small by lia. apply IH; [lia|done|done].
Qed.

Lemma guess_base_10 s : guess_base s 10 = (10, s).
Proof. unfold guess_base. cbn [Z.eqb orb andb]. by destruct (at0 s =? 48), (at0 (tail s) =? 120). Qed.

Lemma strtoul_app ds r : numeral_ok ds -> ds <> [] -> is_char (at0 r) -> grub_isdigit (at0 r) = false ->
  grub_strtoul (ds ++ r) 10 = Some (mk_parsed (dec_value ds) r ERR_NONE).
Proof.
  intros [Hd Hv] Hne Hr Hnd. unfold grub_strtoul, grub_strtoull.
  assert (skip_while grub_isspace (ds ++ r) = ds ++ r) as ->.
  { destruct Hd as [|c ds Hc _]; [done|]. cbn. unfold grub_isdigit, grub_isspace in *.
    apply andb_prop in Hc as [?%Z.leb_le ?%Z.leb_le]. by zres. }
  rewrite guess_base_10. apply strtoull_loop_app; [done..|lia| |by rewrite bool_decide_true].
  unfold dec_value in Hv. pow2. lia.
Qed.

Lemma dec_value_range ds : numeral_ok ds -> 0 <= dec_value ds < 2 ^ 32.
Proof. intros [Hd Hv]. split; [|done]. apply horner_digits_mono; [lia|done]. Qed.

(** * The directive as [grub_vsnprintf_real] reads it *)

Definition spec_of (d : directive) (n : Z) (r : list Z) : spec :=
  mk_spec n (dec_value (d_width d)) (prec_value (d_prec d)) (if at0 (d_width d) =? 48 then 48 else 32) (d_left d) r.

Lemma spec_is_char d r : is_char (at0 (spec_chars d ++ r)).
Proof. unfold is_char, spec_chars. destruct (d_len d), (d_conv d); cbn; lia. Qed.

Lemma numbers_is_char d r : is_char (at0 (numbers d r)).
Proof. unfold numbers. destruct (d_prec d); [cbn; unfold is_char; lia|apply spec_is_char]. Qed.

(** The width, with the fill it stands for. *)
Lemma scan_width d r : numeral_ok (d_width d) ->
  (if grub_isdigit (at0 (d_width d ++ numbers d r)) then
     v ← grub_strtoul (d_width d ++ numbers d r) 10;
     Some (if at0 (d_width d ++ numbers d r) =? 48 then 48 else 32, u32 (value v), endp v)
   else Some (32, 0, d_width d ++ numbers d r))
  = Some (if at0 (d_width d) =? 48 then 48 else 32, dec_value (d_width d), numbers d r).
Proof.
  intros Hw. pose proof (numbers_digit d r) as Hn. pose proof (numbers_is_char d r) as Hc.
  pose proof (dec_value_range _ Hw) as Hv. destruct (d_width d) as [|c w] eqn:E; [by cbn; rewrite Hn|].
  rewrite strtoul_app by done. destruct Hw as [Hw _]. inversion Hw as [|? ? Hcd]; subst.
  cbn [app at0]. rewrite Hcd. step. cbn [value endp]. by rewrite wrap_small by lia.
Qed.

(** The dot and the precision. *)
Lemma scan_prec d r : numeral_ok (default [] (d_prec d)) ->
  (let s := skip_char 46 (numbers d r) in
   if grub_isdigit (at0 s) then v ← grub_strtoul s 10; Some (u32 (value v), endp v) else Some (2 ^ 32 - 1, s))
  = Some (prec_value (d_prec d), spec_chars d ++ r).
Proof.
  intros Hp. destruct (spec_starts d r) as (Hd & _ & _ & H46). pose proof (spec_is_char d r) as Hc.
  unfold numbers. destruct (d_prec d) as [p|].
  - change (skip_char 46 (prec_chars (Some p) ++ spec_chars d ++ r)) with (p ++ spec_chars d ++ r). cbv zeta.
    change (numeral_ok p) in Hp. pose proof (dec_value_range _ Hp) as Hv. destruct p as [|c p]; [cbn [app]; by rewrite Hd|].
    rewrite strtoul_app by done. destruct Hp as [Hp _]. inversion Hp as [|? ? Hcd]; subst.
    cbn [app at0]. rewrite Hcd. step. cbn [value endp prec_value]. by rewrite wrap_small by lia.
  - cbn [prec_chars app]. rewrite skip_char_ne by done. cbv zeta. by rewrite Hd.
Qed.

Lemma scan_dir fuel d r n : numeral_ok (d_width d) -> numeral_ok (default [] (d_prec d)) ->
  scan_spec (S fuel) n (body d r) = Some (inl (spec_of d n (spec_chars d ++ r))).
Proof.
  intros Hw Hp. cbn [scan_spec]. rewrite body_flag, scan_width by done. step.
  rewrite scan_prec by done. step. destruct (spec_starts d r) as (_ & H36 & _).
  rewrite (proj2 (Z.eqb_neq _ _) H36). unfold spec_of. repeat f_equal. unfold body.
  pose proof (numbers_at0 d r 45 ltac:(auto)) as H45.
  destruct (d_left d); [done|]. cbn [flag_chars app]. apply Z.eqb_neq, digits_at0; [apply Hw|done|done].
Qed.
(** * The text of one directive *)

Lemma lltoa_signed v : - 2 ^ 63 <= v < 2 ^ 63 -> grub_lltoa 100 (u64 v) = Some (signed v).
Proof.
  intros Hv. pose proof (wrap_range 64 v ltac:(lia)) as Hr. rewrite lltoa_spec by done. cbv zeta.
  rewrite sgn_wrap, sgn_small by (change (64 - 1) with 63; lia). change (100 =? 100) with true. rewrite andb_true_r.
  unfold signed. destruct (Z.ltb_spec v 0).
  - by rewrite wrap_small by (pow2; lia).
  - by rewrite wrap_small by (pow2; lia).
Qed.

Lemma lltoa_unsigned c v : c <> 100 ->
  grub_lltoa c (u64 v) = Some (numeral (conv_base c) (conv_char c) (u64 v)).
Proof.
  intros Hc. rewrite lltoa_spec by (apply wrap_range; lia). cbv zeta. by rewrite (proj2 (Z.eqb_neq _ _) Hc), andb_false_r.
Qed.

Lemma hexadecimal_spec c a v : (c = 120 /\ a = 97) \/ (c = 88 /\ a = 65) ->
  grub_lltoa c (u64 v) = Some (hexadecimal a v).
Proof.
  intros Hc. rewrite lltoa_unsigned by lia. unfold hexadecimal, numeral.
  assert (conv_base c = 16) as -> by (destruct Hc as [[-> _]|[-> _]]; done). f_equal.
  apply list_fmap_ext. intros _ d _. destruct Hc as [[-> ->]|[-> ->]]; unfold conv_char, hexchar; cbn [Z.eqb Pos.eqb orb]; zcase; lia.
Qed.

(** Writing a number whose numeral is known. *)
Lemma write_number_shows m w left fill c v t o l : shows m o l -> grub_lltoa c (u64 v) = Some t ->
  exists o', write_number m w left fill c v o = Some o' /\ shows m o' (l ++ (s8 <$> padded w left fill t)).
Proof.
  intros Ho E. unfold write_number. rewrite E. step. eexists. split; [done|]. by apply write_padded_shows.
Qed.

Lemma hex_shows m w v o l : shows m o l ->
  exists o', hex m w v o = Some o' /\ shows m o' (l ++ (s8 <$> padded w false 48 (hexadecimal 97 v))).
Proof. intros Ho. apply write_number_shows; [done|]. apply hexadecimal_spec. auto. Qed.

#[local] Opaque padded.
Lemma write_guid_shows m g t o l : guid_text g = Some t -> shows m o l ->
  exists o', write_guid m g o = Some o' /\ shows m o' (l ++ (s8 <$> t)).
Proof.
  unfold guid_text, write_guid. intros Ht Ho. destruct (data4 g) as [|b0 [|b1 [|b2 [|b3 [|b4 [|b5 [|b6 [|b7 tl]]]]]]]]; try done.
  injection Ht as <-. cbn [lookup list_lookup]. cbv zeta.
  repeat first
    [ rewrite bind_ret; cbv beta
    | match goal with
      | H : shows m ?o ?l |- context [hex m ?w ?v ?o] =>
          let o' := fresh "o" in let E := fresh "E" in let H' := fresh "Ho" in
          destruct (hex_shows m w v o l H) as (o' & E & H'); rewrite E; clear E H
      | H : shows m ?o ?l |- context [write_char m ?o ?c] =>
          apply (write_char_shows m o l c) in H; generalize dependent (write_char m o c); intros
      end ].
  eexists. split; [reflexivity|].
  repeat rewrite ?fmap_app, ?fmap_cons. rewrite <- !app_assoc in *. done.
Qed.
#[local] Transparent padded.

Lemma lor_add a x : 0 <= x < 64 -> a = 0x80 \/ (a = 0xc0 /\ x < 32) \/ (a = 0xe0 /\ x < 16) \/ (a = 0xf0 /\ x < 8) ->
  Z.lor a x = a + x.
Proof.
  pose (P := fun a x => Z.lor a x =? a + x). intros Hx Ha.
  assert (forall a n, ztest n (P a) = true -> 0 <= x < n -> Z.lor a x = a + x) as H
    by (intros b n Ht Hn; apply Z.eqb_eq, (ztest_spec n (P b)); done).
  destruct Ha as [->|[[-> ?]|[[-> ?]|[-> ?]]]];
    [apply (H _ 64)|apply (H _ 32)|apply (H _ 16)|apply (H _ 8)]; solve [reflexivity|lia].
Qed.

Lemma cont_byte c s : 0 <= s -> Z.lor 0x80 (Z.land 0x3f (Z.shiftr c s)) = 0x80 + c / 2 ^ s mod 64.
Proof.
  intros Hs. rewrite Z.land_comm. change 0x3f with (Z.ones 6). rewrite Z.land_ones, Z.shiftr_div_pow2 by lia.
  change (2 ^ 6) with 64. apply lor_add; [apply Z.mod_pos_bound; lia|auto].
Qed.

Lemma utf8_bytes_spec c : 0 <= c -> utf8_bytes c = utf8 c.
Proof.
  intros Hc. unfold utf8_bytes, utf8.
  destruct (Z.leb_spec c 0x7f); [zres; cbn [Z.eqb]; by rewrite Z.lor_0_l, Z.shiftr_0_r|].
  destruct (Z.leb_spec c 0x7ff).
  { zres. cbn [Z.eqb Pos.eqb]. rewrite cont_byte, Z.shiftr_div_pow2, lor_add by (change (2 ^ 6) with 64; dlia).
    by rewrite Z.div_1_r. }
  destruct (Z.leb_spec c 0xffff).
  { zres. cbn [Z.eqb Pos.eqb]. rewrite !cont_byte, Z.shiftr_div_pow2, lor_add by (change (2 ^ 12) with 4096; dlia).
    by rewrite Z.div_1_r. }
  destruct (Z.leb_spec c 0x10ffff); [|zres; done].
  zres. cbn [Z.eqb Pos.eqb]. rewrite !cont_byte, Z.shiftr_div_pow2, lor_add by (change (2 ^ 18) with 262144; dlia).
  by rewrite Z.div_1_r.
Qed.
Lemma conversion_dir d r :
  conversion (spec_chars d ++ r) = Some (at0 (conv_chars (d_conv d)), Some (tail (conv_chars (d_conv d)) ++ r)).
Proof. unfold spec_chars. by destruct (d_len d), (d_conv d). Qed.

Lemma fetch_range t v : - 2 ^ 63 <= fetch t v < 2 ^ 63.
Proof.
  pose proof (sgn_range 32 v ltac:(lia)). pose proof (sgn_range 64 v ltac:(lia)). pose proof (wrap_range 32 v ltac:(lia)).
  change (32 - 1) with 31 in *. change (64 - 1) with 63 in *. pow2. destruct t; cbn [fetch]; lia.
Qed.

(** A number printed in the field of its directive. *)
Lemma number_field m d n r c v t o l s : shows m o l -> grub_lltoa c (u64 v) = Some t ->
  exists o', (o ← write_number m (format1 (spec_of d n r)) (rightfill (spec_of d n r)) (zerofill (spec_of d n r)) c v o; Some (o, s))
             = Some (o', s : list Z) /\
    shows m o' (l ++ (s8 <$> padded (dec_value (d_width d)) (d_left d) (if at0 (d_width d) =? 48 then 48 else 32) t)).
Proof.
  intros Ho E. unfold spec_of. cbn [format1 rightfill zerofill].
  destruct (write_number_shows m (dec_value (d_width d)) (d_left d) (if at0 (d_width d) =? 48 then 48 else 32) c v t o l Ho E)
    as (o' & -> & Ho'). by exists o'.
Qed.

Lemma convert_dir m string_at guid_at d n r s v f o l :
  field string_at guid_at d v = Some f -> - 2 ^ 63 <= v < 2 ^ 63 -> (d_conv d = conv_p -> at0 r <> 71) -> shows m o l ->
  exists o', convert m string_at guid_at (spec_of d n s) (at0 (conv_chars (d_conv d))) (tail (conv_chars (d_conv d)) ++ r) v o
             = Some (o', r) /\ shows m o' (l ++ (s8 <$> f)).
Proof.
  intros Hf Hv Hg Ho. unfold field in Hf. destruct (d_conv d); cbv beta zeta in Hf.
  - injection Hf as <-. exact (number_field m d n s 100 v _ o l r Ho (lltoa_signed v Hv)).
  - injection Hf as <-. exact (number_field m d n s 117 v _ o l r Ho (lltoa_unsigned 117 v ltac:(done))).
  - injection Hf as <-. exact (number_field m d n s 120 v _ o l r Ho (hexadecimal_spec 120 97 v ltac:(auto))).
  - injection Hf as <-. exact (number_field m d n s 88 v _ o l r Ho (hexadecimal_spec 88 65 v ltac:(auto))).
  - injection Hf as <-. exact (number_field m d n s 111 v _ o l r Ho (lltoa_unsigned 111 v ltac:(done))).
  - injection Hf as <-. exists (write_char m o (Z.land v 0xff)). split; [done|].
    change 0xff with (Z.ones 8). rewrite Z.land_ones by lia. by apply write_char_shows.
  - injection Hf as <-. exists (write_chars m (utf8_bytes (u32 v)) o). split; [done|].
    rewrite <- utf8_bytes_spec by (apply wrap_range; lia). by apply write_chars_shows.
  - destruct (if v =? 0 then _ else _) as [p|] eqn:E; [|done]. injection Hf as <-.
    eexists. split; [|by apply write_padded_shows].
    transitivity (p ← (if v =? 0 then Some (chars "(null)") else string_at v);
      Some (write_padded m (dec_value (d_width d)) (d_left d) (if at0 (d_width d) =? 48 then 48 else 32)
             (take_upto (prec_value (d_prec d)) p) o, r)); [reflexivity|by rewrite E].
  - injection Hf as <-.
    apply (write_char_shows m _ _ 48), (write_char_shows m _ _ 120) in Ho. rewrite <- app_assoc in Ho.
    destruct (number_field m d n s 120 v _ _ _ r Ho (hexadecimal_spec 120 97 v ltac:(auto))) as (o' & E & Ho').
    exists o'. split; [|by rewrite <- app_assoc in Ho'].
    rewrite <- E. unfold convert. cbn [conv_chars tail app codes]. by rewrite (proj2 (Z.eqb_neq _ _) (Hg eq_refl)).
  - destruct (guid_at v) as [g|] eqn:E; [|done]. cbn [mbind option_bind] in Hf.
    destruct (write_guid_shows m g f o l Hf Ho) as (o' & E' & Ho'). exists o'. split; [|done].
    transitivity (g ← guid_at v; o ← write_guid m g o; Some (o, r)); [reflexivity|]. rewrite E. step. by rewrite E'.
Qed.
(** * Whole formats *)

Lemma render_dir d l : render (Dir d :: l) = 37 :: body d (render l).
Proof. cbn [render render_item app]. unfold body, numbers. by rewrite <- !app_assoc. Qed.

Lemma length_body d r : (length r < length (body d r))%nat.
Proof. unfold body, numbers, spec_chars. rewrite !length_app. destruct (d_conv d); cbn; lia. Qed.

(** Induction over a well-formed format together with fuel for its characters. *)
Lemma format_ind (P : nat -> list item -> Prop) :
  (forall fuel, P (S fuel) []) ->
  (forall fuel c l, is_char c -> c <> 37 -> c <> 0 -> wf l -> P fuel l -> P (S fuel) (Lit c :: l)) ->
  (forall fuel l, wf l -> P fuel l -> P (S fuel) (Percent :: l)) ->
  (forall fuel d l, numeral_ok (d_width d) -> numeral_ok (default [] (d_prec d)) ->
     (d_conv d = conv_p -> at0 (render l) <> 71) -> wf l -> P fuel l -> P (S fuel) (Dir d :: l)) ->
  forall l fuel, wf l -> (length (render l) < fuel)%nat -> P fuel l.
Proof.
  intros Hnil Hlit Hpct Hdir l. induction l as [|i l IH]; intros fuel Hl Hf; (destruct fuel as [|fuel]; [lia|]); [done|].
  destruct i as [c| |d].
  - destruct Hl as (? & ? & ? & ?). apply Hlit; try done. apply IH; [done|]. cbn in Hf. lia.
  - apply Hpct; [done|]. apply IH; [done|]. cbn in Hf. lia.
  - destruct Hl as (? & ? & ? & ?). apply Hdir; try done. apply IH; [done|].
    rewrite render_dir in Hf. cbn [length] in Hf. pose proof (length_body d (render l)). lia.
Qed.

Lemma count_render l fuel : wf l -> (length (render l) < fuel)%nat ->
  forall chk k, count_args fuel chk (render l) k = Some (inr (k + zlen (directives l))).
Proof.
  revert l fuel. apply (format_ind (fun fuel l => forall chk k, _)).
  - intros fuel chk k. cbn. by rewrite Z.add_0_r.
  - intros fuel c l _ Hc _ _ IH chk k. cbn [render render_item app count_args].
    rewrite (proj2 (Z.eqb_neq _ _) Hc). apply IH.
  - intros fuel l _ IH chk k. apply IH.
  - intros fuel d l Hw Hp Hg _ IH chk k. rewrite render_dir, count_dir, IH by done.
    change (directives (Dir d :: l)) with (d :: directives l). rewrite zlen_cons. do 2 f_equal. lia.
Qed.

Lemma set_types_render l fuel : wf l -> (length (render l) < fuel)%nat ->
  forall a, set_types fuel (render l) (zlen a) (a ++ replicate (length (directives l)) INT) = Some (a ++ types_of l).
Proof.
  revert l fuel. apply (format_ind (fun fuel l => forall a, _)).
  - done.
  - intros fuel c l _ Hc _ _ IH a. cbn [render render_item app set_types].
    rewrite (proj2 (Z.eqb_neq _ _) Hc). apply IH.
  - intros fuel l _ IH a. rewrite <- IH.
    transitivity (set_types fuel (render l) (zlen a + 1 - 1) (a ++ replicate (length (directives l)) INT)); [reflexivity|].
    f_equal. lia.
  - intros fuel d l Hw Hp Hg _ IH a. rewrite render_dir.
    change (length (directives (Dir d :: l))) with (S (length (directives l))).
    rewrite set_types_dir, IH by done. by rewrite <- app_assoc.
Qed.

(** The arguments are taken from the list one by one, at the types of the directives. *)
Fixpoint args_of (l : list item) (va : list Z) : list Z :=
  match l, va with
  | Dir d :: l, v :: va => fetch (d_type d) v :: args_of l va
  | Dir _ :: _, [] => []
  | _ :: l, va => args_of l va
  | [], _ => []
  end.

Lemma fetch_args string_at guid_at l : forall va t, text_of string_at guid_at l va = Some t ->
  fetch_all (types_of l) va = Some (args_of l va).
Proof.
  induction l as [|[c| |d] l IH]; intros va t Ht; [done|..]; cbn [text_of] in Ht.
  - destruct (text_of _ _ l va) as [t'|] eqn:E; [|done]. exact (IH va t' E).
  - destruct (text_of _ _ l va) as [t'|] eqn:E; [|done]. exact (IH va t' E).
  - destruct va as [|v va]; [done|]. destruct (field _ _ d _) as [f|]; [|done]. cbn in Ht.
    destruct (text_of _ _ l va) as [t'|] eqn:E; [|done].
    change (types_of (Dir d :: l)) with (d_type d :: types_of l). cbn [fetch_all args_of]. by rewrite (IH va t' E).
Qed.

Lemma loop_render m string_at guid_at l fuel : wf l -> (length (render l) < fuel)%nat ->
  forall a va t o k, text_of string_at guid_at l va = Some t -> shows m o k ->
  exists o', vsnprintf_loop m string_at guid_at fuel (render l) (zlen a) (a ++ args_of l va) o = Some o' /\
    shows m o' (k ++ (s8 <$> t)).
Proof.
  revert l fuel. apply (format_ind (fun fuel l => forall a va t o k,
    text_of string_at guid_at l va = Some t -> shows m o k ->
    exists o', vsnprintf_loop m string_at guid_at fuel (render l) (zlen a) (a ++ args_of l va) o = Some o' /\
      shows m o' (k ++ (s8 <$> t)))).
  - intros fuel a va t o k [= <-] Ho. exists o. split; [done|]. rewrite fmap_nil. by rewrite app_nil_r.
  - intros fuel c l Hch Hc _ _ IH a va t o k Ht Ho. cbn [text_of] in Ht.
    destruct (text_of _ _ l va) as [t'|] eqn:E; [|done]. injection Ht as <-.
    cbn [render render_item app vsnprintf_loop args_of]. rewrite (proj2 (Z.eqb_neq _ _) Hc).
    destruct (IH a va t' (write_char m o c) _ E (write_char_shows _ _ _ c Ho)) as (o' & E' & Ho').
    exists o'. split; [exact E'|]. by rewrite <- app_assoc in Ho'.
  - intros fuel l _ IH a va t o k Ht Ho. cbn [text_of] in Ht.
    destruct (text_of _ _ l va) as [t'|] eqn:E; [|done]. injection Ht as <-.
    destruct (IH a va t' (write_char m o 37) _ E (write_char_shows _ _ _ 37 Ho)) as (o' & E' & Ho').
    exists o'. split; [exact E'|]. by rewrite <- app_assoc in Ho'.
  - intros fuel d l Hw Hp Hg _ IH a va t o k Ht Ho. rewrite render_dir. destruct va as [|v va]; [done|].
    cbn [text_of] in Ht. destruct (field _ _ d _) as [f|] eqn:Ef; [|done]. cbn [mbind option_bind] in Ht.
    destruct (text_of _ _ l va) as [t'|] eqn:E; [|done]. injection Ht as <-.
    cbn [vsnprintf_loop args_of]. change (negb (37 =? 37)) with false. cbv iota.
    rewrite scan_dir by done. step. cbn [rest spec_of]. rewrite conversion_dir. step.
    assert ((at0 (conv_chars (d_conv d)) =? 37) = false) as -> by (by destruct (d_conv d)). step.
    change (curn (spec_of d (zlen a) (spec_chars d ++ render l))) with (zlen a).
    assert ((zlen (a ++ fetch (d_type d) v :: args_of l va) <=? zlen a) = false) as ->
      by (apply Z.leb_gt; rewrite zlen_app, zlen_cons; pose proof (zlen_nonneg (args_of l va)); lia).
    rewrite aget_middle. step.
    destruct (convert_dir m string_at guid_at d (zlen a) (render l) (spec_chars d ++ render l) _ f o k Ef
      (fetch_range _ _) Hg Ho) as (o1 & E1 & Ho1).
    rewrite E1. step.
    destruct (IH (a ++ [fetch (d_type d) v]) va t' o1 _ E Ho1) as (o' & E' & Ho').
    exists o'. rewrite zlen_app, <- app_assoc in E'. split; [exact E'|].
    by rewrite fmap_app, app_assoc.
Qed.
Section Family.
Variable alloc_ok : Z -> bool.
Variable string_at : Z -> option (list Z).
Variable guid_at : Z -> option guid.

(** There is room for the arguments of a format: 32 of them are on the stack. *)
Definition room (l : list item) : bool :=
  (zlen (directives l) <=? 32) || alloc_ok (zlen (directives l) * 8).

Lemma parse_fmt_render l chk k : wf l -> room l = true -> zlen (directives l) <= k ->
  parse_printf_arg_fmt alloc_ok (render l) chk k = Some (ERR_NONE, types_of l).
Proof.
  intros Hl Hr Hk. unfold parse_printf_arg_fmt. rewrite count_render by (done || lia). step.
  rewrite Z.add_0_l. assert ((k <? zlen (directives l)) = false) as -> by (by apply Z.ltb_ge).
  rewrite andb_false_r. unfold room in Hr. rewrite Hr. cbn [negb andb].
  unfold zlen. rewrite Nat2Z.id. pose proof (set_types_render l (S (length (render l))) Hl ltac:(lia) []) as E.
  cbn [app] in E. change (zlen []) with 0 in E. by rewrite E.
Qed.

Lemma parse_render l : wf l -> room l = true -> forall chk k, chk = true \/ zlen (directives l) <= k ->
  parse_printf_arg_fmt alloc_ok (render l) chk k =
  Some (if chk && (k <? zlen (directives l)) then (ERR_BAD_ARGUMENT, []) else (ERR_NONE, types_of l)).
Proof.
  intros Hl Hr chk k Hk. destruct (Z.ltb_spec k (zlen (directives l))) as [Hlt|Hge].
  - destruct Hk as [->|]; [|lia]. unfold parse_printf_arg_fmt. rewrite count_render by (done || lia). step.
    rewrite Z.add_0_l. by rewrite (proj2 (Z.ltb_lt _ _) Hlt).
  - rewrite andb_false_r. by apply parse_fmt_render.
Qed.

Lemma parse_unchecked l k : wf l -> room l = true ->
  parse_printf_arg_fmt alloc_ok (render l) false k = Some (ERR_NONE, types_of l).
Proof.
  intros Hl Hr. rewrite <- (parse_fmt_render l false (zlen (directives l)) Hl Hr) by lia. done.
Qed.

Lemma parse_args_render l va t : wf l -> room l = true -> text_of string_at guid_at l va = Some t ->
  parse_printf_args alloc_ok (render l) va = Some (args_of l va).
Proof.
  intros Hl Hr Ht. unfold parse_printf_args. rewrite parse_unchecked by done. step. exact (fetch_args _ _ _ _ _ Ht).
Qed.

Lemma real_render l va t m : wf l -> text_of string_at guid_at l va = Some t ->
  grub_vsnprintf_real m string_at guid_at (render l) (args_of l va)
  = Some (s32 (zlen t), take (Z.to_nat m) (s8 <$> t) ++ [0]).
Proof.
  intros Hl Ht. unfold grub_vsnprintf_real.
  destruct (loop_render m string_at guid_at l (S (length (render l))) Hl ltac:(lia) [] va t (mk_out [] 0) [] Ht)
    as (o' & E & Hs & Hc); [by split; [rewrite take_nil|]|].
  change (zlen []) with 0 in E. cbn [app] in *. rewrite E. step. rewrite Hs, Hc.
  assert (zlen (s8 <$> t) = zlen t) as -> by (unfold zlen; by rewrite length_fmap). done.
Qed.

Lemma vsnprintf_render l va t n : wf l -> room l = true -> text_of string_at guid_at l va = Some t -> 0 < n ->
  grub_vsnprintf alloc_ok string_at guid_at n (render l) va
  = Some (s32 (zlen t), Some (take (Z.to_nat (n - 1)) (s8 <$> t) ++ [0])).
Proof.
  intros Hl Hr Ht Hn. unfold grub_vsnprintf. rewrite (proj2 (Z.eqb_neq n 0)) by lia.
  rewrite (parse_args_render _ _ _ Hl Hr Ht). step. by rewrite (real_render _ _ _ _ Hl Ht).
Qed.

(** ** The format check *)

Lemma types_length l : zlen (types_of l) = zlen (directives l).
Proof. unfold zlen, types_of. by rewrite length_fmap. Qed.

Lemma fmt_check_render l e : wf l -> wf e -> room l = true -> room e = true -> zlen (directives e) <= GRUB_SIZE_MAX ->
  grub_printf_fmt_check alloc_ok (Some (render l)) (Some (render e)) =
  Some (if bool_decide (types_of l `prefix_of` types_of e) then ERR_NONE else ERR_BAD_ARGUMENT).
Proof.
  intros Hl He Hrl Hre Hmax. unfold grub_printf_fmt_check. rewrite parse_fmt_render by done. step. cbv iota.
  rewrite parse_render by auto. step. fold (zlen (types_of e)). rewrite types_length.
  destruct (Z.ltb_spec (zlen (directives e)) (zlen (directives l))) as [Hlt|Hge]; cbn [andb].
  - rewrite bool_decide_false; [done|]. intros Hp%prefix_length.
    pose proof (types_length l). pose proof (types_length e). unfold zlen in *. lia.
  - case_bool_decide as H; case_bool_decide as H'; try done.
    + destruct H'. rewrite H. apply prefix_take.
    + destruct H. destruct H' as [k ->]. by rewrite take_app_length.
Qed.

(** What the caller of a format passes for a type. *)
Definition arg_ok (t : arg_type) (v : Z) : Prop :=
  match t with
  | STRING => fetch t v = 0 \/ is_Some (string_at (fetch t v))
  | GUID => exists g, guid_at (fetch t v) = Some g /\ length (data4 g) = 8%nat
  | _ => True
  end.

Lemma arg_ok_field d v : arg_ok (d_type d) v -> is_Some (field string_at guid_at d (fetch (d_type d) v)).
Proof.
  unfold arg_ok, field. destruct (d_type d) eqn:E; unfold d_type in E; destruct (d_conv d), (d_len d); try done; intros H; eauto.
  all: try solve [destruct H as [->|[s Hs]]; [by eexists|]; destruct (_ =? 0); [by eexists|]; rewrite Hs; by eexists].
  all: destruct H as (g & -> & Hg); cbn [mbind option_bind]; unfold guid_text;
    destruct (data4 g) as [|? [|? [|? [|? [|? [|? [|? [|? tl]]]]]]]]; try done; by eexists.
Qed.

Lemma args_ok_text l : forall va, Forall2 arg_ok (types_of l) (take (length (types_of l)) va) ->
  is_Some (text_of string_at guid_at l va).
Proof.
  induction l as [|[c| |d] l IH]; intros va H; [by eexists|..].
  - destruct (IH va H) as [t E]. cbn [text_of]. rewrite E. by eexists.
  - destruct (IH va H) as [t E]. cbn [text_of]. rewrite E. by eexists.
  - change (types_of (Dir d :: l)) with (d_type d :: types_of l) in H. destruct va as [|v va]; [inversion H|].
    cbn [length take] in H. apply Forall2_cons in H as [Hv Hva]. cbn [text_of].
    destruct (arg_ok_field d v Hv) as [f ->]. destruct (IH va Hva) as [t ->]. by eexists.
Qed.
End Family.

(** C18: [grub_vsnprintf] writes what the format says: literal characters as they are, [%%] as
    one percent sign, and every directive as its argument, arguments in order: numbers (sign and
    digits in the base of the conversion) and strings (up to the precision) padded to the width
    with blanks or zeros on the side the flag says; a pointer as "0x" and its digits, only the
    digits padded; a character, a code in UTF-8 and a GUID as they are, the width ignored.  The
    format is well formed and room for its directives is found.  The result is the length of the
    whole text, as an [int]; the buffer gets the part that fits, and a NUL. *)
Theorem printf_writes_the_text alloc_ok string_at guid_at l va t n :
  wf l -> room alloc_ok l = true -> text_of string_at guid_at l va = Some t -> 0 < n ->
  grub_vsnprintf alloc_ok string_at guid_at n (render l) va
  = Some (s32 (zlen t), Some (take (Z.to_nat (n - 1)) (s8 <$> t) ++ [0])).
Proof. apply vsnprintf_render. Qed.

(** "<%-6s|%08lx|%d%%>" with a string, 48879 and -42. *)
Definition sample : list item :=
  [Lit 60; Dir (mk_directive true [54] None no_len conv_s); Lit 124;
   Dir (mk_directive false [48; 56] None len_l conv_x); Lit 124;
   Dir (mk_directive false [] None no_len conv_d); Percent; Lit 62].

Definition sample_strings (a : Z) : option (list Z) := if a =? 4096 then Some (chars "grub") else None.

Lemma printf_writes_the_text_witness :
  wf sample /\ render sample = chars "<%-6s|%08lx|%d%%>" /\
  grub_vsnprintf (fun _ => true) sample_strings (fun _ => None) 13 (render sample) [4096; 48879; 2 ^ 32 - 42]
  = Some (22, Some (chars "<grub  |0000" ++ [0])).
Proof.
  assert (wf sample) as Hwf by (repeat split; try (unfold is_char; lia); try done; by repeat constructor).
  split; [exact Hwf|]. split; [reflexivity|].
  exact (printf_writes_the_text (fun _ => true) sample_strings (fun _ => None) sample [4096; 48879; 2 ^ 32 - 42]
    (chars "<grub  |0000beef|-42%>") 13 Hwf ltac:(reflexivity) ltac:(vm_compute; reflexivity) ltac:(lia)).
Defined.

(** ** The callers of [grub_vsnprintf_real] *)

Section Callers.
Variable alloc_ok : Z -> bool.
Variable string_at : Z -> option (list Z).
Variable guid_at : Z -> option guid.
Variables fmt args t : list Z.
Hypothesis Ht : zlen t < 2 ^ 31.
Hypothesis Hreal : forall m, 0 <= m ->
  grub_vsnprintf_real m string_at guid_at fmt args = Some (zlen t, take (Z.to_nat m) t ++ [0]).

Lemma u64_len : u64 (zlen t) = zlen t /\ u64 (zlen t + 1) = zlen t + 1.
Proof. pose proof (zlen_nonneg t). split; apply wrap_small; pow2; lia. Qed.

Lemma take_whole m : zlen t <= m -> take (Z.to_nat m) t = t.
Proof. intros. apply take_ge. unfold zlen in *. lia. Qed.

Lemma xvasprintf_whole :
  xvasprintf_loop alloc_ok string_at guid_at 2 255 fmt args
  = Some (if alloc_ok 256 && ((zlen t <=? 255) || alloc_ok (zlen t + 1)) then Some (t ++ [0]) else None).
Proof.
  destruct u64_len as [E1 E2]. pose proof (zlen_nonneg t).
  cbn [xvasprintf_loop]. change (u64 (255 + 1)) with 256. destruct (alloc_ok 256); [|done]. cbn [negb andb].
  rewrite Hreal by lia. step. rewrite E1. destruct (Z.leb_spec (zlen t) 255); cbn [orb].
  - by rewrite take_whole.
  - rewrite E2. destruct (alloc_ok (zlen t + 1)); [|done]. cbn [negb].
    rewrite Hreal by lia. step. rewrite E1, Z.leb_refl, take_whole by lia. done.
Qed.

Lemma vprintf_whole :
  ('(c, s) ← grub_vsnprintf_real 255 string_at guid_at fmt args;
   let c := u64 c in
   '(c, s) ← (if 255 <? c then
                if alloc_ok (u64 (c + 1)) then
                  '(c, s) ← grub_vsnprintf_real c string_at guid_at fmt args; Some (u64 c, s)
                else Some (c, take (Z.to_nat (255 - 3)) s ++ [46; 46; 46; 0])
              else Some (c, s));
   Some (s32 c, take (length s - 1) s))
  = Some (zlen t, if (zlen t <=? 255) || alloc_ok (zlen t + 1) then t else take 252 t ++ chars "...").
Proof.
  destruct u64_len as [E1 E2]. pose proof (zlen_nonneg t).
  assert (forall l : list Z, take (length (l ++ [0%Z]) - 1) (l ++ [0%Z]) = l) as Hlast.
  { intros l. rewrite length_app. cbn [length]. by rewrite Nat.add_sub, take_app_length. }
  assert (s32 (zlen t) = zlen t) as E3 by (apply sgn_small; [lia|change (32 - 1) with 31; lia]).
  rewrite Hreal by lia. step. rewrite E1. destruct (Z.leb_spec (zlen t) 255); cbn [orb].
  - rewrite (proj2 (Z.ltb_ge 255 (zlen t))) by lia. step. by rewrite take_whole, Hlast, E3 by lia.
  - rewrite (proj2 (Z.ltb_lt 255 (zlen t))) by lia. rewrite E2. destruct (alloc_ok (zlen t + 1)).
    + rewrite Hreal by lia. step. rewrite E1, take_whole by lia. step. by rewrite Hlast, E3.
    + step. change (Z.to_nat (255 - 3)) with 252%nat. change (Z.to_nat 255) with 255%nat.
      assert (take 252 (take 255 t ++ [0]) = take 252 t) as ->
        by (rewrite take_app_le, take_take by (rewrite length_take; unfold zlen in *; lia); done).
      change [46; 46; 46; 0] with ([46; 46; 46] ++ [0]). by rewrite app_assoc, Hlast, E3.
Qed.
End Callers.

(** The text that reaches the terminal. *)
Definition printed (alloc_ok : Z -> bool) (t : list Z) : list Z :=
  if (zlen t <=? 255) || alloc_ok (zlen t + 1) then t else take 252 t ++ chars "...".

Lemma vprintf_render alloc_ok string_at guid_at l va t : wf l -> room alloc_ok l = true ->
  text_of string_at guid_at l va = Some t -> zlen t < 2 ^ 31 ->
  grub_vprintf alloc_ok string_at guid_at (render l) va = Some (zlen t, printed alloc_ok (s8 <$> t)).
Proof.
  intros Hl Hr Ht Hlen. unfold grub_vprintf, PREALLOC_SIZE. rewrite (parse_args_render _ _ _ _ _ _ Hl Hr Ht), bind_ret.
  assert (zlen (s8 <$> t) = zlen t) as E by (unfold zlen; by rewrite length_fmap).
  pose proof (zlen_nonneg t).
  etransitivity; [apply (vprintf_whole alloc_ok string_at guid_at (render l) (args_of l va) (s8 <$> t))|].
  - lia.
  - intros m Hm. rewrite (real_render _ _ _ _ _ _ Hl Ht). by rewrite E, sgn_small by (change (32 - 1) with 31; lia).
  - unfold printed. by rewrite E.
Qed.

(** There is no memory to print all of a text. *)
Definition cut (alloc_ok : Z -> bool) (t : list Z) : bool := (255 <? zlen t) && negb (alloc_ok (zlen t + 1)).

Lemma vprintf_fails_render alloc_ok string_at guid_at l va t : wf l -> room alloc_ok l = true ->
  text_of string_at guid_at l va = Some t -> zlen t < 2 ^ 31 ->
  grub_vprintf_fails alloc_ok string_at guid_at (render l) va = Some (cut alloc_ok t).
Proof.
  intros Hl Hr Ht Hlen. unfold grub_vprintf_fails, PREALLOC_SIZE. rewrite (parse_args_render _ _ _ _ _ _ Hl Hr Ht), bind_ret.
  rewrite (real_render _ _ _ _ _ _ Hl Ht), bind_ret by lia. pose proof (zlen_nonneg t).
  rewrite sgn_small by (change (32 - 1) with 31; lia). by rewrite !wrap_small by (pow2; lia).
Qed.

(** All functions of the family agree on one text, for every format and every argument list:
    [grub_vsnprintf] stores as much of it as the buffer holds and returns its length;
    [grub_xvasprintf] allocates at most twice and returns all of it; [grub_vprintf] prints all
    of it, or, when there is no memory for more than 255 characters, 252 of them and three dots. *)
Theorem printf_family_agrees alloc_ok string_at guid_at fmt va : exists text : option (list Z),
  (forall n, 0 < n -> grub_vsnprintf alloc_ok string_at guid_at n fmt va
     = (t ← text; Some (s32 (zlen t), Some (take (Z.to_nat (n - 1)) t ++ [0])))) /\
  match text with
  | None => grub_xvasprintf alloc_ok string_at guid_at fmt va = None \/ alloc_ok 256 = false
  | Some t => zlen t < 2 ^ 31 ->
      grub_xvasprintf alloc_ok string_at guid_at fmt va
      = Some (if alloc_ok 256 && ((zlen t <=? 255) || alloc_ok (zlen t + 1)) then Some (t ++ [0]) else None) /\
      grub_vprintf alloc_ok string_at guid_at fmt va
      = Some (zlen t, if (zlen t <=? 255) || alloc_ok (zlen t + 1) then t else take 252 t ++ chars "...")
  end.
Proof.
  unfold grub_vsnprintf, grub_xvasprintf, grub_vprintf.
  destruct (parse_printf_args alloc_ok fmt va) as [args|].
  2:{ exists None. split; [|by left]. intros n Hn. by rewrite (proj2 (Z.eqb_neq n 0)) by lia. }
  rewrite !bind_ret. destruct (real_shows string_at guid_at fmt args) as [text Hreal]. exists text. split.
  { intros n Hn. rewrite (proj2 (Z.eqb_neq n 0)), bind_ret, Hreal by lia. by destruct text. }
  assert (forall m, 0 <= m -> forall t, text = Some t -> zlen t < 2 ^ 31 ->
    grub_vsnprintf_real m string_at guid_at fmt args = Some (zlen t, take (Z.to_nat m) t ++ [0])) as Hr.
  { intros m Hm t -> Ht. rewrite Hreal by done. step. pose proof (zlen_nonneg t).
    by rewrite sgn_small by (change (32 - 1) with 31; lia). }
  unfold PREALLOC_SIZE. destruct text as [t|].
  - intros Ht. split; [by apply xvasprintf_whole; auto|by apply vprintf_whole; auto].
  - cbn [xvasprintf_loop]. change (u64 (255 + 1)) with 256. destruct (alloc_ok 256); [left|by right].
    cbn [negb]. by rewrite Hreal by lia.
Qed.
(** C37: A format made of literals and directives passes [grub_printf_fmt_check] exactly when the
    types of its arguments are the first of those of the expected format, and then it is safe:
    printed with any arguments the expected format may be printed with, it reads no argument
    that is not there and no string or GUID that is none, whatever the size of the buffer. *)
Theorem checked_format_is_safe alloc_ok string_at guid_at l e va :
  wf l -> wf e -> room alloc_ok l = true -> room alloc_ok e = true -> zlen (directives e) <= GRUB_SIZE_MAX ->
  Forall2 (arg_ok string_at guid_at) (types_of e) va ->
  if bool_decide (types_of l `prefix_of` types_of e) then
    grub_printf_fmt_check alloc_ok (Some (render l)) (Some (render e)) = Some ERR_NONE /\
    forall n, 0 <= n -> is_Some (grub_vsnprintf alloc_ok string_at guid_at n (render l) va)
  else grub_printf_fmt_check alloc_ok (Some (render l)) (Some (render e)) = Some ERR_BAD_ARGUMENT.
Proof.
  intros Hl He Hrl Hre Hmax Hva. rewrite fmt_check_render by done. case_bool_decide as Hp; [|done]. split; [done|].
  intros n Hn. destruct (args_ok_text string_at guid_at l va) as [t Ht].
  { destruct Hp as [k Hk]. rewrite Hk in Hva. apply Forall2_app_inv_l in Hva as (v1 & v2 & H1 & _ & ->).
    by rewrite (Forall2_length _ _ _ H1), take_app_length. }
  destruct (Z.eq_dec n 0) as [->|]; [by eexists|]. by rewrite (vsnprintf_render _ _ _ l va t) by (done || lia).
Qed.

Definition sample_expected : list item :=
  [Dir (mk_directive false [] None no_len conv_s); Dir (mk_directive false [] None no_len conv_d)].

Definition sample_checked : list item := [Lit 62; Dir (mk_directive true [52] (Some [50]) no_len conv_s); Percent].

Lemma checked_format_is_safe_witness :
  grub_printf_fmt_check (fun _ => true) (Some (chars ">%-4.2s%%")) (Some (chars "%s%d")) = Some ERR_NONE /\
  forall n, 0 <= n -> is_Some (grub_vsnprintf (fun _ => true) sample_strings (fun _ => None) n (chars ">%-4.2s%%") [4096; 7]).
Proof.
  assert (wf sample_checked) as Hl by (repeat split; try (unfold is_char; lia); try done; by repeat constructor).
  assert (wf sample_expected) as He by (repeat split; try done; by repeat constructor).
  assert (Forall2 (arg_ok sample_strings (fun _ => None)) (types_of sample_expected) [4096; 7]) as Ha.
  { constructor; [right; by eexists|by repeat constructor]. }
  exact (checked_format_is_safe (fun _ => true) sample_strings (fun _ => None) sample_checked sample_expected [4096; 7]
    Hl He ltac:(reflexivity) ltac:(reflexivity) ltac:(vm_compute; discriminate) Ha).
Defined.

(** The check and the printer do not read the flags of a directive alike.  The check takes
    "%5-%" for an escaped percent sign and accepts the format, for a caller that passes two
    integers; the printer ends the directive at the dash and prints the second integer as the
    address of a string. *)
Theorem fmt_check_accepts_confusion :
  grub_printf_fmt_check (fun _ => true) (Some (chars "%5-%s%d%d")) (Some (chars "%d%d")) = Some ERR_NONE /\
  (forall string_at guid_at n a b, 0 < n -> 0 < b < 2 ^ 31 -> string_at b = None ->
     grub_vsnprintf (fun _ => true) string_at guid_at n (chars "%5-%s%d%d") [a; b] = None).
Proof.
  split; [vm_compute; reflexivity|]. intros string_at guid_at n a b Hn Hb Hs.
  unfold grub_vsnprintf, parse_printf_args. rewrite (proj2 (Z.eqb_neq n 0)) by lia.
  assert (parse_printf_arg_fmt (fun _ => true) (chars "%5-%s%d%d") false 0 = Some (ERR_NONE, [INT; INT])) as ->
    by (vm_compute; reflexivity).
  step. change (fetch_all [INT; INT] [a; b]) with (Some [s32 a; s32 b]). step.
  rewrite (sgn_small 32 b) by (change (32 - 1) with 31; lia).
  assert ((b =? 0) = false) as Hb0 by (by apply Z.eqb_neq; lia).
  unfold grub_vsnprintf_real.
  assert (vsnprintf_loop (n - 1) string_at guid_at (S (length (chars "%5-%s%d%d"))) (chars "%5-%s%d%d") 0 [s32 a; b] (mk_out [] 0)
    = ('(o, s) ← (p ← (if b =? 0 then Some (chars "(null)") else string_at b);
         Some (write_padded (n - 1) 0 false 32 (take_upto (2 ^ 32 - 1) p) (write_char (n - 1) (mk_out [] 0) 45), chars "%d%d"));
       vsnprintf_loop (n - 1) string_at guid_at 8 s 2 [s32 a; b] o)) as -> by reflexivity.
  by rewrite Hb0, Hs.
Qed.

End GrubFormat.
