(* ===== verification/GrubDatetime.v ===== *)
(** Dates of GRUB: src/grub/grub-core/lib/datetime.c and [grub_datetime2unixtime] of
    src/grub/include/grub/datetime.h, against the Gregorian calendar.  [None] of
    [grub_unixtime2datetime] is undefined behaviour: the start of the day, [days_epoch *
    SECPERDAY], is computed as an [int]. *)

From S2P Require Import Prelude GrubStr GrubNum.

Module GrubDatetime.
Import GrubNum.

Record grub_datetime := mk_datetime {
  year : Z;
  month : Z;
  day : Z;
  hour : Z;
  minute : Z;
  second : Z
}.

Definition SECPERMIN : Z := 60.
Definition SECPERHOUR : Z := 60 * SECPERMIN.
Definition SECPERDAY : Z := 24 * SECPERHOUR.
Definition DAYSPERYEAR : Z := 365.
Definition DAYSPER4YEARS : Z := 4 * DAYSPERYEAR + 1.
Definition DAYSPER100YEARS : Z := 100 * DAYSPERYEAR + 24.
Definition DAYSPER400YEARS : Z := 400 * DAYSPERYEAR + 97.

Definition months : list Z := [31; 28; 31; 30; 31; 30; 31; 31; 30; 31; 30; 31].

(** ** [grub_get_weekday], in 32-bit unsigned arithmetic *)

Definition grub_get_weekday (t : grub_datetime) : Z :=
  let a := if month t <=? 2 then 1 else 0 in
  let y := u32 (year t - a) in
  let m := u32 (month t + 12 * a - 2) in
  u32 (day t + y + y / 4 - y / 100 + y / 400 + u32 (31 * m) / 12) mod 7.

(** ** [grub_unixtime2datetime] *)

(** The day of the time, rounded towards the past. *)
Definition days_epoch (nix : Z) : option Z :=
  if nix <? 0 then
    qr ← grub_divmod64 (u64 (SECPERDAY - nix - 1)) SECPERDAY; Some (s32 (- fst qr))
  else qr ← grub_divmod64 (u64 nix) SECPERDAY; Some (s32 (fst qr)).

(** The year and the day in it, from the days since 1 January of the year 1. *)
Definition split_year (days : Z) : Z * Z :=
  let year := u16 (1 + 400 * (days / DAYSPER400YEARS)) in
  let days := days mod DAYSPER400YEARS in
  let '(year, days) :=
    if days / DAYSPER100YEARS =? 4 then (u16 (year + 396), u32 (days - (396 * DAYSPERYEAR + 96)))
    else (u16 (year + 100 * (days / DAYSPER100YEARS)), days mod DAYSPER100YEARS) in
  let year := u16 (year + 4 * (days / DAYSPER4YEARS)) in
  let days := days mod DAYSPER4YEARS in
  if days / DAYSPERYEAR =? 4 then (u16 (year + 3), u32 (days - 3 * DAYSPERYEAR))
  else (u16 (year + days / DAYSPERYEAR), days mod DAYSPERYEAR).

Definition bisextile (year : Z) : bool :=
  (year mod 4 =? 0) && (negb (year mod 100 =? 0) || (year mod 400 =? 0)).

Definition month_length (leap : bool) (i len : Z) : Z := if (i =? 1) && leap then 29 else len.

(** The month loop: the index of the month and the days into it. *)
Fixpoint split_month (leap : bool) (lens : list Z) (i days : Z) : Z * Z :=
  match lens with
  | [] => (i, days)
  | len :: lens =>
      if month_length leap i len <=? days then
        split_month leap lens (i + 1) (u32 (days - month_length leap i len))
      else (i, days)
  end.

Definition grub_unixtime2datetime (nix : Z) : option grub_datetime :=
  de ← days_epoch nix;
  start ← int_val (de * SECPERDAY);
  let secs_in_day := u32 (nix - start) in
  let days := u32 (4 * DAYSPER400YEARS + 369 * DAYSPERYEAR + 3 * 24 + 17 + de) in
  let '(year, days) := split_year days in
  let '(i, days) := split_month (bisextile year) months 0 days in
  Some (mk_datetime year (u8 (i + 1)) (u8 (1 + days)) (u8 (secs_in_day / SECPERHOUR))
          (u8 (secs_in_day mod SECPERHOUR / SECPERMIN)) (u8 (secs_in_day mod SECPERHOUR mod SECPERMIN))).

(** ** [grub_datetime2unixtime]; [None] is the result 0 *)

Definition monthssum : list Z := [0; 31; 59; 90; 120; 151; 181; 212; 243; 273; 304; 334].

Definition grub_datetime2unixtime (t : grub_datetime) : option Z :=
  let SECPERYEAR := 365 * SECPERDAY in
  let SECPER4YEARS := 4 * SECPERYEAR + SECPERDAY in
  if (12 <? month t) || (month t <? 1) then None else
  let ret := 3 * SECPERYEAR + SECPERDAY in
  let y4 := Z.shiftr (year t - 1) 2 - 1973 ÷ 4 in
  let ay := year t - 1973 - 4 * y4 in
  let ret := ret + y4 * SECPER4YEARS in
  let ret := ret + ay * SECPERYEAR in
  let ret := ret - ((year t - 1) ÷ 100 - (year t - 1) ÷ 400 - 15) * SECPERDAY in
  sum ← aget monthssum (month t - 1);
  let ret := ret + sum * SECPERDAY in
  let bisextile := (ay =? 3) && (negb (year t mod 100 =? 0) || (year t mod 400 =? 0)) in
  let ret := if bisextile && (3 <=? month t) then ret + SECPERDAY else ret in
  let ret := ret + (day t - 1) * SECPERDAY in
  len ← aget months (month t - 1);
  if ((len <? day t) && negb (bisextile && (month t =? 2) && (day t =? 29))) || (day t <? 1) then None else
  let ret := ret + hour t * SECPERHOUR in
  if 23 <? hour t then None else
  let ret := ret + minute t * 60 in
  if 59 <? minute t then None else
  let ret := ret + second t in
  if 60 <? second t then None else
  if ((1980 <? year t) && (ret <? 0)) || ((year t <? 1960) && (0 <? ret)) then None else
  Some ret.
(** * The Gregorian calendar *)

(** Every fourth year, but no full century except every fourth one. *)
Definition leap (y : Z) : bool :=
  if y mod 400 =? 0 then true else if y mod 100 =? 0 then false else y mod 4 =? 0.

(** The days before a year and before a month. *)
Definition days_before_year (y : Z) : Z := 365 * (y - 1) + (y - 1) / 4 - (y - 1) / 100 + (y - 1) / 400.

Definition month_days (l : bool) (m : Z) : Z :=
  if m =? 2 then if l then 29 else 28
  else if (m =? 4) || (m =? 6) || (m =? 9) || (m =? 11) then 30 else 31.

Definition days_before_month (l : bool) (m : Z) : Z :=
  foldr Z.add 0 (month_days l <$> (Z.of_nat <$> seq 1 (Z.to_nat (m - 1)))).

(** The number of a day: 1 January of the year 1 is day 0. *)
Definition day_number (t : grub_datetime) : Z :=
  days_before_year (year t) + days_before_month (leap (year t)) (month t) + day t - 1.

Definition EPOCH : Z := 719162.

(** Seconds from the start of 1970. *)
Definition unix_seconds (t : grub_datetime) : Z :=
  (day_number t - EPOCH) * 86400 + hour t * 3600 + minute t * 60 + second t.

Definition valid_date (t : grub_datetime) : Prop :=
  1 <= year t < 65536 /\ 1 <= month t <= 12 /\ 1 <= day t <= month_days (leap (year t)) (month t).

Definition valid_time (t : grub_datetime) : Prop := 0 <= hour t < 24 /\ 0 <= minute t < 60 /\ 0 <= second t < 60.

Definition year_length (y : Z) : Z := if leap y then 366 else 365.

Lemma leap_bisextile y : leap y = bisextile y.
Proof.
  unfold leap, bisextile. destruct (Z.eqb_spec (y mod 400) 0), (Z.eqb_spec (y mod 100) 0), (Z.eqb_spec (y mod 4) 0);
    done || (exfalso; dlia).
Qed.

(** ** Years *)

Lemma leap_digits y q4 q100 q400 r : y = 400 * q400 + 100 * q100 + 4 * q4 + r -> 0 <= q100 <= 3 -> 0 <= q4 <= 24 -> 0 <= r <= 3 ->
  days_before_year (y + 1) = 146097 * q400 + 36524 * q100 + 1461 * q4 + 365 * r /\
  leap (y + 1) = (r =? 3) && (negb (q4 =? 24) || (q100 =? 3)).
Proof.
  intros Hy H100 H4 Hr. rewrite leap_bisextile. unfold days_before_year, bisextile. replace (y + 1 - 1) with y by lia.
  assert (y / 4 = 100 * q400 + 25 * q100 + q4) as -> by (symmetry; apply (Z.div_unique_pos _ _ _ r); lia).
  assert (y / 100 = 4 * q400 + q100) as -> by (symmetry; apply (Z.div_unique_pos _ _ _ (4 * q4 + r)); lia).
  assert (y / 400 = q400) as -> by (symmetry; apply (Z.div_unique_pos _ _ _ (100 * q100 + 4 * q4 + r)); lia).
  split; [lia|].
  destruct (Z.eqb_spec r 3) as [->|Hr3].
  - assert ((y + 1) mod 4 = 0) as -> by (symmetry; apply (Z.mod_unique_pos _ _ (100 * q400 + 25 * q100 + q4 + 1)); lia).
    cbn [andb]. change (0 =? 0) with true. cbv iota. destruct (Z.eqb_spec q4 24) as [->|H24]; cbn [negb orb].
    + assert ((y + 1) mod 100 = 0) as -> by (symmetry; apply (Z.mod_unique_pos _ _ (4 * q400 + q100 + 1)); lia).
      change (0 =? 0) with true. cbn [negb orb andb]. destruct (Z.eqb_spec q100 3) as [->|H3].
      * apply Z.eqb_eq. symmetry. apply (Z.mod_unique_pos _ _ (q400 + 1)); lia.
      * apply Z.eqb_neq. rewrite <- (Z.mod_unique_pos (y + 1) 400 q400 (100 * q100 + 100)) by lia. lia.
    + rewrite <- (Z.mod_unique_pos (y + 1) 100 (4 * q400 + q100) (4 * q4 + 4)) by lia.
      by rewrite (proj2 (Z.eqb_neq (4 * q4 + 4) 0)) by lia.
  - by rewrite <- (Z.mod_unique_pos (y + 1) 4 (100 * q400 + 25 * q100 + q4) (r + 1)), (proj2 (Z.eqb_neq (r + 1) 0)) by lia.
Qed.

(** Every year number has such digits. *)
Lemma year_digits y : 0 <= y -> exists q400 q100 q4 r, y = 400 * q400 + 100 * q100 + 4 * q4 + r /\ 0 <= q400 /\
  0 <= q100 <= 3 /\ 0 <= q4 <= 24 /\ 0 <= r <= 3.
Proof.
  intros Hy. exists (y / 400), (y mod 400 / 100), (y mod 100 / 4), (y mod 4). dlia.
Qed.

Lemma days_before_next y : 1 <= y -> days_before_year (y + 1) = days_before_year y + year_length y.
Proof.
  intros Hy. destruct (year_digits (y - 1)) as (q400 & q100 & q4 & r & E & ? & ? & ? & ?); [lia|].
  destruct (leap_digits _ _ _ _ _ E) as [E1 E2]; [lia..|]. replace (y - 1 + 1) with y in * by lia.
  unfold year_length. rewrite E2.
  destruct (Z.eqb_spec r 3) as [->|]; cbn [andb].
  2:{ destruct (leap_digits y q4 q100 q400 (r + 1)) as [-> _]; lia. }
  destruct (Z.eqb_spec q4 24) as [->|]; cbn [negb orb].
  2:{ destruct (leap_digits y (q4 + 1) q100 q400 0) as [-> _]; lia. }
  destruct (Z.eqb_spec q100 3) as [->|].
  - destruct (leap_digits y 0 0 (q400 + 1) 0) as [-> _]; lia.
  - destruct (leap_digits y 0 (q100 + 1) q400 0) as [-> _]; lia.
Qed.

Lemma days_before_mono y z : 1 <= y -> y < z -> days_before_year y + year_length y <= days_before_year z.
Proof.
  intros Hy Hz. rewrite <- days_before_next by done. replace z with (y + 1 + Z.of_nat (Z.to_nat (z - (y + 1)))) by lia.
  generalize (Z.to_nat (z - (y + 1))). intros n. induction n as [|n IH]; [rewrite Z.add_0_r; lia|].
  replace (y + 1 + Z.of_nat (S n)) with (y + 1 + Z.of_nat n + 1) by lia. rewrite (days_before_next (y + 1 + Z.of_nat n)) by lia.
  unfold year_length at 1. destruct (leap _); lia.
Qed.

Lemma year_bound y days : 1 <= y -> days_before_year y <= days -> days < days_before_year 65536 -> y < 65536.
Proof.
  intros Hy Hd Hlt. destruct (Z.lt_ge_cases y 65536) as [|Hge]; [done|].
  destruct (Z.eq_dec y 65536) as [->|]; [lia|]. pose proof (days_before_mono 65536 y ltac:(lia) ltac:(lia)).
  unfold year_length in *. destruct (leap 65536); lia.
Qed.

(** A day from the digits of its year. *)
Lemma digits_day q400 q100 q4 r d days : 0 <= q400 -> 0 <= q100 <= 3 -> 0 <= q4 <= 24 -> 0 <= r <= 3 ->
  days = 146097 * q400 + 36524 * q100 + 1461 * q4 + 365 * r + d -> days < days_before_year 65536 ->
  0 <= d < (if (r =? 3) && (negb (q4 =? 24) || (q100 =? 3)) then 366 else 365) ->
  let y := 400 * q400 + 100 * q100 + 4 * q4 + r + 1 in
  1 <= y < 65536 /\ 0 <= d < year_length y /\ days = days_before_year y + d.
Proof.
  intros H400 H100 H4 Hr Hd Hlt Hb y.
  destruct (leap_digits (400 * q400 + 100 * q100 + 4 * q4 + r) q4 q100 q400 r) as [E1 E2]; [lia..|]. fold y in E1, E2.
  assert (1 <= y) by lia. pose proof (year_bound y days ltac:(lia) ltac:(lia) Hlt). unfold year_length. rewrite E2. lia.
Qed.

(** [split_year] finds the year and the day in it. *)
Lemma split_year_spec days : 0 <= days < days_before_year 65536 ->
  exists y d, split_year days = (y, d) /\ 1 <= y < 65536 /\ 0 <= d < year_length y /\ days = days_before_year y + d.
Proof.
  intros Hd. unfold split_year, DAYSPER400YEARS, DAYSPER100YEARS, DAYSPER4YEARS, DAYSPERYEAR.
  change (400 * 365 + 97) with 146097. change (100 * 365 + 24) with 36524. change (4 * 365 + 1) with 1461.
  pose proof (Z.div_mod days 146097 ltac:(lia)) as E400. pose proof (Z.mod_pos_bound days 146097 ltac:(lia)) as R400.
  assert (0 <= days / 146097) as Q400 by (apply Z.div_pos; lia).
  set (q400 := days / 146097) in *. set (r400 := days mod 146097) in *. clearbody q400 r400.
  pose proof (Z.div_mod r400 36524 ltac:(lia)) as E100. pose proof (Z.mod_pos_bound r400 36524 ltac:(lia)) as R100.
  assert (0 <= r400 / 36524 <= 4) as Q100 by dlia.
  set (q100 := r400 / 36524) in *. set (r100 := r400 mod 36524) in *. clearbody q100 r100.
  destruct (Z.eqb_spec q100 4) as [E|Hne].
  { assert (r400 = 146096) as -> by lia. destruct (digits_day q400 3 24 3 365 days) as (Hy & H1 & H2); [lia|lia|lia|lia|lia|lia|done|].
    eexists _, _. split; [|split; [exact Hy|split; [exact H1|exact H2]]].
    change (146096 - (396 * 365 + 96)) with 1460. wsmall. change (1460 / 1461) with 0. change (1460 mod 1461) with 1460.
    change (1460 / 365 =? 4) with true. cbv iota. wsmall_in. f_equal; lia. }
  pose proof (Z.div_mod r100 1461 ltac:(lia)) as E4. pose proof (Z.mod_pos_bound r100 1461 ltac:(lia)) as R4.
  assert (0 <= r100 / 1461 <= 24) as Q4 by dlia.
  set (q4 := r100 / 1461) in *. set (r4 := r100 mod 1461) in *. clearbody q4 r4.
  pose proof (Z.div_mod r4 365 ltac:(lia)) as E1. pose proof (Z.mod_pos_bound r4 365 ltac:(lia)) as R1.
  assert (0 <= r4 / 365 <= 4) as Q1 by dlia.
  set (q1 := r4 / 365) in *. set (r1 := r4 mod 365) in *. clearbody q1 r1.
  destruct (Z.eqb_spec q1 4) as [->|Hne1].
  - destruct (digits_day q400 q100 q4 3 365 days) as (Hy & H1 & H2); [lia|lia|lia|lia|lia|lia| |].
    { rewrite (proj2 (Z.eqb_neq q4 24)) by lia. cbn. lia. }
    eexists _, _. split; [|split; [exact Hy|split; [exact H1|exact H2]]]. wsmall_in. f_equal; lia.
  - destruct (digits_day q400 q100 q4 q1 r1 days) as (Hy & H1 & H2); [lia|lia|lia|lia|lia|lia| |].
    { destruct (_ && _); lia. }
    eexists _, _. split; [|split; [exact Hy|split; [exact H1|exact H2]]]. wsmall_in. f_equal; lia.
Qed.

(** ** Months *)

Lemma split_month_spec (l : bool) d : 0 <= d < (if l then 366 else 365) ->
  exists i k, split_month l months 0 d = (i, k) /\ 0 <= i < 12 /\ 0 <= k < month_days l (i + 1) /\
    d = days_before_month l (i + 1) + k.
Proof.
  pose (P := fun l d => let '(i, k) := split_month l months 0 d in
    (0 <=? i) && (i <? 12) && (0 <=? k) && (k <? month_days l (i + 1)) && (d =? days_before_month l (i + 1) + k)).
  intros Hd. assert (P l d = true) as HP.
  { destruct l; [apply (ztest_spec 366 (P true))|apply (ztest_spec 365 (P false))]; vm_compute; done. }
  unfold P in HP. destruct (split_month l months 0 d) as [i k]. exists i, k.
  repeat (apply andb_prop in HP as [HP ?]). split; [done|]. lia.
Qed.
(** ** From seconds to dates *)

Definition first_second : Z := - EPOCH * 86400.
Definition end_second : Z := (days_before_year 65536 - EPOCH) * 86400.

(** The days whose start is an [int]: 14 December 1901 to 19 January 2038. *)
Definition first_time : Z := -24855 * 86400.
Definition end_time : Z := 24856 * 86400.

Lemma days_epoch_spec nix : first_second <= nix < end_second -> days_epoch nix = Some (nix / 86400).
Proof.
  change first_second with (-62135596800). change end_second with 2005949145600. intros Hn.
  unfold days_epoch. change SECPERDAY with 86400. destruct (Z.ltb_spec nix 0).
  - rewrite divmod64_spec by (wsmall; pow2; lia). wsmall. step. cbn [fst]. f_equal.
    replace (- ((86400 - nix - 1) / 86400)) with (nix / 86400) by dlia.
    apply sgn_small; [lia|]. change (2 ^ (32 - 1)) with 2147483648. dlia.
  - rewrite divmod64_spec by (wsmall; pow2; lia). wsmall. step. cbn [fst]. f_equal.
    apply sgn_small; [lia|]. change (2 ^ (32 - 1)) with 2147483648. dlia.
Qed.

Lemma month_days_bound l m : 28 <= month_days l m <= 31.
Proof. unfold month_days. destruct (m =? 2), l, ((m =? 4) || (m =? 6) || (m =? 9) || (m =? 11)); lia. Qed.

Lemma day_start_spec nix : int_val (nix / 86400 * 86400) =
  if (first_time <=? nix) && (nix <? end_time) then Some (nix / 86400 * 86400) else None.
Proof.
  change first_time with (-2147472000). change end_time with 2147558400.
  destruct (Z.leb_spec (-2147472000) nix); [destruct (Z.ltb_spec nix 2147558400)|]; cbn [andb].
  - apply int_val_ok. change (2 ^ 31) with 2147483648. dlia.
  - apply int_val_None. change (2 ^ 31) with 2147483648. dlia.
  - apply int_val_None. change (2 ^ 31) with 2147483648. dlia.
Qed.

Lemma times_in_years nix : first_time <= nix < end_time -> first_second <= nix < end_second.
Proof.
  change first_time with (-2147472000). change end_time with 2147558400.
  change first_second with (-62135596800). change end_second with 2005949145600. lia.
Qed.

Lemma unixtime2datetime_undefined nix : first_second <= nix < first_time \/ end_time <= nix < end_second ->
  grub_unixtime2datetime nix = None.
Proof.
  intros Hn. unfold grub_unixtime2datetime. change first_time with (-2147472000) in Hn. change end_time with 2147558400 in Hn.
  change first_second with (-62135596800) in Hn. change end_second with 2005949145600 in Hn.
  rewrite days_epoch_spec by (change first_second with (-62135596800); change end_second with 2005949145600; lia). step.
  change SECPERDAY with 86400. rewrite day_start_spec. change first_time with (-2147472000). change end_time with 2147558400.
  destruct (Z.leb_spec (-2147472000) nix), (Z.ltb_spec nix 2147558400); done || lia.
Qed.

Lemma unixtime2datetime_spec nix : first_time <= nix < end_time ->
  exists t, grub_unixtime2datetime nix = Some t /\ valid_date t /\ valid_time t /\ unix_seconds t = nix.
Proof.
  intros Ht. pose proof (times_in_years nix Ht) as Hn. unfold grub_unixtime2datetime. rewrite days_epoch_spec by done. step.
  change SECPERDAY with 86400. rewrite day_start_spec, (proj2 (Z.leb_le _ _) (proj1 Ht)), (proj2 (Z.ltb_lt _ _) (proj2 Ht)).
  cbn [andb]. step. clear Ht.
  pose proof (Z.div_mod nix 86400 ltac:(lia)) as En. pose proof (Z.mod_pos_bound nix 86400 ltac:(lia)) as Rn.
  replace (nix - nix / 86400 * 86400) with (nix mod 86400) by lia. rewrite (wrap_small 32 (nix mod 86400)) by (pow2; lia).
  set (q := nix / 86400) in *. set (s := nix mod 86400) in *. clearbody q s.
  assert (0 <= EPOCH + q < days_before_year 65536) as Hd by (unfold first_second, end_second in Hn; lia).
  change (4 * DAYSPER400YEARS + 369 * DAYSPERYEAR + 3 * 24 + 17 + q) with (EPOCH + q).
  rewrite (wrap_small 32 (EPOCH + q)) by (change (days_before_year 65536) with 23936166 in Hd; pow2; lia).
  destruct (split_year_spec (EPOCH + q) Hd) as (y & d & -> & Hy & Hyd & E).
  unfold year_length in Hyd. rewrite leap_bisextile in Hyd. destruct (split_month_spec (bisextile y) d Hyd) as (i & k & -> & Hi & Hk & E').
  pose proof (month_days_bound (bisextile y) (i + 1)) as Hb.
  change SECPERHOUR with 3600. change SECPERMIN with 60.
  assert (0 <= s / 3600 < 24) by dlia. assert (0 <= s mod 3600 / 60 < 60) by dlia. assert (0 <= s mod 3600 mod 60 < 60) by dlia.
  assert (s = s / 3600 * 3600 + s mod 3600 / 60 * 60 + s mod 3600 mod 60) as Es by dlia.
  rewrite !(wrap_small 8) by (pow2; lia).
  eexists. split; [reflexivity|]. unfold valid_date, valid_time, unix_seconds, day_number. rewrite leap_bisextile.
  cbn [year month day hour minute second]. lia.
Qed.

(** ** From dates to seconds *)

Lemma monthssum_spec (l : bool) m : 1 <= m <= 12 -> exists s len, aget monthssum (m - 1) = Some s /\ aget months (m - 1) = Some len /\
  s + (if l && (3 <=? m) then 1 else 0) = days_before_month l m /\
  len = month_days false m.
Proof.
  intros Hm. pose (P := fun l x => let m := x + 1 in match aget monthssum (m - 1), aget months (m - 1) with
    | Some s, Some len => (s + (if l && (3 <=? m) then 1 else 0) =? days_before_month l m) &&
        (len =? month_days false m) | _, _ => false end).
  assert (P l (m - 1) = true) as HP by (destruct l; (apply ztest_spec with 12; [vm_compute; reflexivity|lia])).
  unfold P in HP. replace (m - 1 + 1) with m in HP by lia.
  destruct (aget monthssum (m - 1)) as [s|], (aget months (m - 1)) as [len|]; try done. exists s, len.
  apply andb_prop in HP as [?%Z.eqb_eq ?%Z.eqb_eq]. done.
Qed.
(** The conversion in terms of whole days, once the month is in range. *)
Lemma year_part y : 1 <= y ->
  let y4 := Z.shiftr (y - 1) 2 - 1973 ÷ 4 in
  let ay := y - 1973 - 4 * y4 in
  3 * (365 * 86400) + 86400 + y4 * (4 * (365 * 86400) + 86400) + ay * (365 * 86400)
    - ((y - 1) ÷ 100 - (y - 1) ÷ 400 - 15) * 86400 = (days_before_year y - EPOCH) * 86400 /\
  (ay =? 3) && (negb (y mod 100 =? 0) || (y mod 400 =? 0)) = leap y.
Proof.
  intros Hy. rewrite Z.shiftr_div_pow2, !Z.quot_div_nonneg by lia. change (2 ^ 2) with 4. change (1973 / 4) with 493.
  rewrite leap_bisextile. unfold days_before_year, EPOCH, bisextile. split; [lia|].
  f_equal. assert (y mod 4 = 0 <-> y - 1973 - 4 * ((y - 1) / 4 - 493) = 3) as H by dlia.
  destruct (Z.eqb_spec (y mod 4) 0), (Z.eqb_spec (y - 1973 - 4 * ((y - 1) / 4 - 493)) 3); tauto.
Qed.

(** The checks after the month, with the seconds of the date. *)
Definition accepted (t : grub_datetime) : Prop :=
  1 <= month t <= 12 /\ 1 <= day t <= month_days (leap (year t)) (month t) /\
  hour t <= 23 /\ minute t <= 59 /\ second t <= 60.

#[export] Instance accepted_dec t : Decision (accepted t).
Proof. unfold accepted. apply _. Defined.

Lemma day_check (l : bool) m d len : len = month_days false m ->
  ((len <? d) && negb (l && (m =? 2) && (d =? 29))) || (d <? 1) = negb (bool_decide (1 <= d <= month_days l m)).
Proof.
  intros ->. unfold month_days. destruct l, (Z.eqb_spec m 2); cbn [andb];
    case_bool_decide; zcase; try done; lia.
Qed.

(** A month lies within its year. *)
Lemma month_in_year (l : bool) m : 1 <= m <= 12 ->
  0 <= days_before_month l m /\ days_before_month l m + month_days l m <= (if l then 366 else 365).
Proof.
  intros Hm. pose (P := fun l x => (0 <=? days_before_month l (x + 1)) &&
    (days_before_month l (x + 1) + month_days l (x + 1) <=? if l : bool then 366 else 365)).
  assert (P l (m - 1) = true) as HP by (destruct l; (apply ztest_spec with 12; [vm_compute; reflexivity|lia])).
  unfold P in HP. replace (m - 1 + 1) with m in HP by lia. apply andb_prop in HP as [?%Z.leb_le ?%Z.leb_le]. done.
Qed.

(** The last check of the code never fails. *)
Lemma sign_ok t : 1 <= year t -> accepted t -> 0 <= hour t -> 0 <= minute t -> 0 <= second t ->
  ((1980 <? year t) && (unix_seconds t <? 0)) || ((year t <? 1960) && (0 <? unix_seconds t)) = false.
Proof.
  intros Hy (Hm & Hd & ? & ? & ?) ? ? ?. 
  destruct (month_in_year (leap (year t)) (month t) Hm) as [Hb0 Hb1]. fold (year_length (year t)) in Hb1.
  apply orb_false_intro; apply andb_false_iff.
  - destruct (Z.ltb_spec 1980 (year t)); [right|by left]. apply Z.ltb_ge. unfold unix_seconds, day_number.
    pose proof (days_before_mono 1980 (year t) ltac:(lia) ltac:(lia)) as Hmono.
    change (days_before_year 1980 + year_length 1980) with 723180 in Hmono. unfold EPOCH. nia.
  - destruct (Z.ltb_spec (year t) 1960); [right|by left]. apply Z.ltb_ge. unfold unix_seconds, day_number.
    pose proof (days_before_mono (year t) 1960 ltac:(lia) ltac:(lia)) as Hmono.
    change (days_before_year 1960) with 715509 in Hmono. unfold EPOCH. nia.
Qed.

Lemma datetime2unixtime_spec t : 1 <= year t < 65536 -> 0 <= hour t -> 0 <= minute t -> 0 <= second t ->
  grub_datetime2unixtime t = if bool_decide (accepted t) then Some (unix_seconds t) else None.
Proof.
  intros Hy Hh Hmi Hs. unfold grub_datetime2unixtime. change SECPERDAY with 86400. change SECPERHOUR with 3600. cbv zeta.
  destruct (year_part (year t) ltac:(lia)) as [Ey El]. cbv zeta in Ey, El.
  destruct (decide (1 <= month t <= 12)) as [Hm|Hm].
  2:{ rewrite bool_decide_false by (unfold accepted; tauto).
      destruct (Z.ltb_spec 12 (month t)); [done|]. destruct (Z.ltb_spec (month t) 1); [done|lia]. }
  rewrite (proj2 (Z.ltb_ge 12 (month t))), (proj2 (Z.ltb_ge (month t) 1)) by lia. cbn [orb].
  destruct (monthssum_spec (leap (year t)) (month t) Hm) as (s & len & -> & -> & Esum & Elen). step. step.
  rewrite El, Ey. clear Ey El.
  assert ((if leap (year t) && (3 <=? month t) then (days_before_year (year t) - EPOCH) * 86400 + s * 86400 + 86400
           else (days_before_year (year t) - EPOCH) * 86400 + s * 86400)
    + (day t - 1) * 86400 + hour t * 3600 + minute t * 60 + second t = unix_seconds t) as ->.
  { unfold unix_seconds, day_number. rewrite <- Esum. destruct (leap (year t) && (3 <=? month t)); lia. }
  rewrite (day_check (leap (year t)) (month t) (day t) len Elen).
  destruct (bool_decide (accepted t)) eqn:E; [apply bool_decide_eq_true in E|apply bool_decide_eq_false in E].
  - rewrite sign_ok by (done || lia). destruct E as (_ & ? & ? & ? & ?). rewrite bool_decide_true by lia. by zres.
  - case_bool_decide as Hd; [|done]. cbn [negb].
    destruct (Z.ltb_spec 23 (hour t)); [done|]. destruct (Z.ltb_spec 59 (minute t)); [done|].
    destruct (Z.ltb_spec 60 (second t)); [done|]. destruct E. done.
Qed.
(** ** Dates are determined by their seconds *)

Lemma month_order (l : bool) m k : 1 <= m -> m < k -> k <= 12 -> days_before_month l m + month_days l m <= days_before_month l k.
Proof.
  intros Hm Hk H12. pose (P := fun l x => let m := x / 12 + 1 in let k := x mod 12 + 1 in
    negb (m <? k) || (days_before_month l m + month_days l m <=? days_before_month l k)).
  assert (P l (12 * (m - 1) + (k - 1)) = true) as HP
    by (destruct l; (apply ztest_spec with 144; [vm_compute; reflexivity|lia])).
  unfold P in HP. replace ((12 * (m - 1) + (k - 1)) / 12 + 1) with m in HP by dlia.
  replace ((12 * (m - 1) + (k - 1)) mod 12 + 1) with k in HP by dlia.
  rewrite (proj2 (Z.ltb_lt m k) Hk) in HP. by apply Z.leb_le.
Qed.

Lemma day_of_year t : valid_date t ->
  0 <= days_before_month (leap (year t)) (month t) + day t - 1 < year_length (year t).
Proof.
  intros (_ & Hm & Hd). destruct (month_in_year (leap (year t)) (month t) Hm). unfold year_length. lia.
Qed.

Lemma day_number_inj t u : valid_date t -> valid_date u -> day_number t = day_number u ->
  year t = year u /\ month t = month u /\ day t = day u.
Proof.
  intros Ht Hu E. pose proof (day_of_year t Ht) as Rt. pose proof (day_of_year u Hu) as Ru.
  destruct Ht as (Hyt & Hmt & Hdt), Hu as (Hyu & Hmu & Hdu). unfold day_number in E.
  assert (year t = year u) as Ey.
  { destruct (Z.lt_total (year t) (year u)) as [Hlt|[|Hlt]]; [|done|].
    - pose proof (days_before_mono (year t) (year u) ltac:(lia) Hlt). lia.
    - pose proof (days_before_mono (year u) (year t) ltac:(lia) Hlt). lia. }
  rewrite Ey in *. split; [done|].
  destruct (Z.lt_total (month t) (month u)) as [Hlt|[Em|Hlt]].
  - pose proof (month_order (leap (year u)) (month t) (month u) ltac:(lia) Hlt ltac:(lia)). lia.
  - rewrite Em in *. split; [done|lia].
  - pose proof (month_order (leap (year u)) (month u) (month t) ltac:(lia) Hlt ltac:(lia)). lia.
Qed.

Lemma unix_seconds_inj t u : valid_date t -> valid_time t -> valid_date u -> valid_time u ->
  unix_seconds t = unix_seconds u -> t = u.
Proof.
  intros Ht (Hht & Hmt & Hst) Hu (Hhu & Hmu & Hsu) E. unfold unix_seconds in E.
  destruct (day_number_inj t u Ht Hu) as (? & ? & ?); [lia|].
  destruct t, u. cbn [year month day hour minute second] in *. f_equal; lia.
Qed.

(** ** Weekdays *)

Lemma mod7_eq a b k : a = b + k * 7 -> a mod 7 = b mod 7.
Proof. intros ->. apply Z.mod_add. lia. Qed.

(** The formula without machine arithmetic. *)
Lemma weekday_formula (l : bool) y m d s : 1 <= m <= 12 ->
  s = (if 2 <? m then if l then 1 else 0 else 0) ->
  (d + (y + if m <=? 2 then 0 else 1) + s + 31 * (m + 12 * (if m <=? 2 then 1 else 0) - 2) / 12) mod 7
  = (365 * y + days_before_month l m + d) mod 7.
Proof.
  intros Hm ->.
  pose (e := fun (l : bool) m => 31 * (m + 12 * (if m <=? 2 then 1 else 0) - 2) / 12 + (if m <=? 2 then 0 else 1)
     + (if 2 <? m then if l then 1 else 0 else 0) - days_before_month l m).
  assert (e l m mod 7 = 0) as He.
  { pose (P := fun l x => e l (x + 1) mod 7 =? 0). replace m with (m - 1 + 1) by lia.
    apply Z.eqb_eq. change (P l (m - 1) = true). destruct l; (apply ztest_spec with 12; [vm_compute; reflexivity|lia]). }
  pose proof (Z.div_mod (e l m) 7 ltac:(lia)) as E. unfold e in *.
  apply (mod7_eq _ _ (e l m / 7 - 52 * y)). unfold e. lia.
Qed.

(** Three months into the year the leap days of the year itself count. *)
Lemma leap_days y : 1 <= y ->
  y / 4 - y / 100 + y / 400 = (y - 1) / 4 - (y - 1) / 100 + (y - 1) / 400 + (if leap y then 1 else 0).
Proof.
  intros Hy. pose proof (days_before_next y Hy) as H. unfold days_before_year, year_length in H.
  replace (y + 1 - 1) with y in H by lia. destruct (leap y); lia.
Qed.

Lemma weekday_spec t : valid_date t -> grub_get_weekday t = (day_number t + 1) mod 7.
Proof.
  intros (Hy & Hm & Hd). pose proof (month_days_bound (leap (year t)) (month t)). unfold grub_get_weekday, day_number.
  pose proof (weekday_formula (leap (year t)) (year t - 1) (month t)) as H'.
  pose proof (leap_days (year t) ltac:(lia)) as Hl. unfold days_before_year.
  set (A := (year t - 1) / 4 - (year t - 1) / 100 + (year t - 1) / 400) in *.
  replace (365 * (year t - 1) + (year t - 1) / 4 - (year t - 1) / 100 + (year t - 1) / 400 +
    days_before_month (leap (year t)) (month t) + day t - 1 + 1)
    with (365 * (year t - 1) + days_before_month (leap (year t)) (month t) + (day t + A)) by (unfold A; lia).
  rewrite <- (H' _ _ Hm eq_refl).
  assert (0 <= A <= 65536) by (unfold A; dlia).
  clear H'. destruct (Z.leb_spec (month t) 2) as [Hle|Hgt].
  - rewrite (proj2 (Z.ltb_ge 2 (month t))) by lia.
    assert (0 <= 31 * (month t + 12 * 1 - 2) / 12 <= 31) by dlia.
    assert (0 <= year t - 1 + A) by lia.
    rewrite (wrap_small 32 (month t + 12 * 1 - 2)), (wrap_small 32 (year t - 1)), (wrap_small 32 (31 * _)) by (pow2; lia).
    replace (day t + (year t - 1) + (year t - 1) / 4 - (year t - 1) / 100 + (year t - 1) / 400 + 31 * (month t + 12 * 1 - 2) / 12)
      with (day t + A + (year t - 1) + 31 * (month t + 12 * 1 - 2) / 12) by (unfold A; lia).
    rewrite wrap_small by (pow2; lia). f_equal. lia.
  - rewrite (proj2 (Z.ltb_lt 2 (month t))) by lia. replace (year t - 0) with (year t) by lia.
    assert (0 <= 31 * (month t + 12 * 0 - 2) / 12 <= 31) by dlia.
    rewrite (wrap_small 32 (month t + 12 * 0 - 2)), (wrap_small 32 (year t)), (wrap_small 32 (31 * _)) by (pow2; lia).
    replace (day t + year t + year t / 4 - year t / 100 + year t / 400 + 31 * (month t + 12 * 0 - 2) / 12)
      with (day t + A + (year t - 1 + 1) + (if leap (year t) then 1 else 0) + 31 * (month t + 12 * 0 - 2) / 12) by lia.
    rewrite wrap_small by (pow2; destruct (leap (year t)); lia). done.
Qed.

(** C24: from 14 December 1901 to 19 January 2038, the days whose first second is an [int],
    [grub_unixtime2datetime] gives the date and time of the Gregorian calendar, before and after
    1970, and [grub_datetime2unixtime] is its inverse, both ways.  Outside of these days (and
    within the years 1 to 65535) [grub_unixtime2datetime] has no defined result, its product
    overflowing, while [grub_datetime2unixtime] still gives the seconds of every valid date. *)
Theorem unixtime_datetime_inverse :
  (forall nix, first_time <= nix < end_time ->
     exists t, grub_unixtime2datetime nix = Some t /\ valid_date t /\ valid_time t /\
       unix_seconds t = nix /\ grub_datetime2unixtime t = Some nix) /\
  (forall nix, first_second <= nix < first_time \/ end_time <= nix < end_second -> grub_unixtime2datetime nix = None) /\
  (forall t, valid_date t -> valid_time t -> grub_datetime2unixtime t = Some (unix_seconds t) /\
     (first_time <= unix_seconds t < end_time -> grub_unixtime2datetime (unix_seconds t) = Some t)).
Proof.
  assert (forall t, valid_date t -> valid_time t -> grub_datetime2unixtime t = Some (unix_seconds t)) as Hto.
  { intros t (Hy & Hm & Hd) (Hh & Hmi & Hs). rewrite datetime2unixtime_spec by lia.
    rewrite bool_decide_true; [done|]. unfold accepted. lia. }
  split; [|split].
  - intros nix Hn. destruct (unixtime2datetime_spec nix Hn) as (t & E & Hd & Ht & Hs). exists t.
    rewrite Hto, Hs by done. done.
  - apply unixtime2datetime_undefined.
  - intros t Hd Ht. split; [by apply Hto|]. intros Hr.
    destruct (unixtime2datetime_spec (unix_seconds t) Hr) as (u & -> & Hdu & Htu & Hs).
    f_equal. by apply unix_seconds_inj.
Qed.

(** For the years from 1 on, [grub_datetime2unixtime] accepts exactly the dates and times that
    exist, the 60th second included, and returns their seconds since 1970. *)
Theorem datetime2unixtime_correct t : 1 <= year t < 65536 -> 0 <= hour t -> 0 <= minute t -> 0 <= second t ->
  grub_datetime2unixtime t = if bool_decide (accepted t) then Some (unix_seconds t) else None.
Proof. apply datetime2unixtime_spec. Qed.

Lemma datetime2unixtime_correct_witness :
  grub_datetime2unixtime (mk_datetime 1900 2 29 0 0 0) = None /\
  grub_datetime2unixtime (mk_datetime 2000 2 29 23 59 60) = Some 951868800.
Proof.
  split.
  - exact (datetime2unixtime_correct (mk_datetime 1900 2 29 0 0 0) ltac:(cbn; lia) ltac:(cbn; lia) ltac:(cbn; lia) ltac:(cbn; lia)).
  - exact (datetime2unixtime_correct (mk_datetime 2000 2 29 23 59 60) ltac:(cbn; lia) ltac:(cbn; lia) ltac:(cbn; lia) ltac:(cbn; lia)).
Defined.

(** [grub_get_weekday] is the weekday of the calendar: 0, Sunday, to 6, Saturday, with
    1 January of the year 1 a Monday and one weekday further every day. *)
Theorem weekday_correct t : valid_date t -> grub_get_weekday t = (day_number t + 1) mod 7.
Proof. apply weekday_spec. Qed.

Lemma weekday_correct_witness : grub_get_weekday (mk_datetime 2024 2 29 0 0 0) = 4.
Proof.
  exact (weekday_correct (mk_datetime 2024 2 29 0 0 0)
    ltac:(unfold valid_date; cbn [year month day]; change (month_days (leap 2024) 2) with 29; lia)).
Defined.

End GrubDatetime.
