(* ===== verification/GrubStrOrder.v ===== *)
(** [grub_strcmp] as an order on C strings. *)

From S2P Require Import Prelude GrubStr GrubNum.

Module GrubStrOrder.
Import GrubStr GrubNum.

(** A C string: no NUL inside. *)
Definition cstr (s : list Z) : Prop := Forall (fun c => c <> 0 /\ is_char c) s.

Lemma strcmp_eq a b : cstr a -> cstr b -> (grub_strcmp a b =? 0) = bool_decide (a = b).
Proof.
  intros Ha. revert b. induction Ha as [|x a [Hx0 Hx] Ha IH]; intros b Hb; destruct Hb as [|y b [Hy0 Hy] Hb]; cbn [grub_strcmp at0].
  - done.
  - rewrite bool_decide_false by done. apply Z.eqb_neq. unfold wrap, is_char in *. pow2. dlia.
  - rewrite bool_decide_false by done. apply Z.eqb_neq. unfold wrap, is_char in *. pow2. dlia.
  - destruct (Z.eqb_spec x y) as [->|Hne].
    + rewrite IH by done. apply bool_decide_ext. split; [by intros ->|by intros [= ->]].
    + rewrite bool_decide_false by congruence. apply Z.eqb_neq. unfold wrap, is_char in *. pow2. dlia.
Qed.

Lemma strcmp_zero a b : cstr a -> cstr b -> grub_strcmp a b = 0 <-> a = b.
Proof. intros Ha Hb. rewrite <- Z.eqb_eq, strcmp_eq by done. apply bool_decide_eq_true. Qed.

Lemma strcmp_refl a : cstr a -> grub_strcmp a a = 0.
Proof. intros Ha. by apply strcmp_zero. Qed.

Lemma strcmp_opp a : forall b, grub_strcmp a b = - grub_strcmp b a.
Proof.
  induction a as [|x a IH]; intros [|y b]; cbn [grub_strcmp at0]; [lia..|].
  rewrite (Z.eqb_sym y x). destruct (x =? y); [apply IH|lia].
Qed.

Lemma strcmp_trans a : forall b c, cstr a -> cstr b -> cstr c ->
  grub_strcmp a b < 0 -> grub_strcmp b c < 0 -> grub_strcmp a c < 0.
Proof.
  assert (forall x, is_char x -> x <> 0 -> 0 < u8 x) as Hpos by (intros x; unfold is_char, wrap; pow2; dlia).
  assert (forall x y, is_char x -> is_char y -> u8 x = u8 y -> x = y) as Hinj by (intros x y; unfold is_char, wrap; pow2; dlia).
  induction a as [|x a IH]; intros [|y b] [|z c] Ha Hb Hc; cbn [grub_strcmp at0]; try (intros; lia).
  - apply Forall_cons in Hc as [[Hz0 Hz] _]. pose proof (Hpos z Hz Hz0). change (u8 0) with 0. lia.
  - apply Forall_cons in Ha as [[Hx0 Hx] _]. pose proof (Hpos x Hx Hx0). change (u8 0) with 0. lia.
  - apply Forall_cons in Hb as [[Hy0 Hy] _]. pose proof (Hpos y Hy Hy0). change (u8 0) with 0. lia.
  - apply Forall_cons in Ha as [[Hx0 Hx] Ha], Hb as [[Hy0 Hy] Hb], Hc as [[Hz0 Hz] Hc].
    destruct (Z.eqb_spec x y) as [<-|Hxy], (Z.eqb_spec x z) as [<-|Hxz].
    + by apply IH.
    + done.
    + destruct (Z.eqb_spec y x) as [->|]; [done|]. lia.
    + destruct (Z.eqb_spec y z) as [->|]; [done|]. lia.
Qed.
End GrubStrOrder.
