(* ===== verification/GrubEnv.v ===== *)
(** The environment of GRUB: variables in a hash table (src/grub/grub-core/kern/env.c,
    include/grub/env.h, env_private.h) and the stack of contexts with their menus
    (src/grub/grub-core/normal/context.c).

    A chain of the hash table is the list of its variables; a pointer to a variable is its
    chain and its position there.  Hooks are functions of the name and the value of the
    variable they are called for; whether an allocation succeeds may depend on its size. *)

From stdpp Require Import sorting.
From S2P Require Import Prelude GrubStr GrubNum GrubStrOrder.

Module GrubEnv.
Import GrubStr GrubNum GrubStrOrder.

Definition HASHSZ : Z := 13.

(** What a hook returns: the value to show, or NULL; the value to store, or NULL with an error. *)
Definition read_hook_t : Type := list Z -> list Z -> option (list Z).
Definition write_hook_t : Type := list Z -> list Z -> grub_err_t + list Z.

Record grub_env_var := mk_var {
  name : list Z;
  value : list Z;
  read_hook : option read_hook_t;
  write_hook : option write_hook_t;
  global : bool
}.

Definition set_value (v : list Z) (x : grub_env_var) : grub_env_var :=
  mk_var (name x) v (read_hook x) (write_hook x) (global x).
Definition set_hooks (r : option read_hook_t) (w : option write_hook_t) (x : grub_env_var) : grub_env_var :=
  mk_var (name x) (value x) r w (global x).
Definition set_global (x : grub_env_var) : grub_env_var :=
  mk_var (name x) (value x) (read_hook x) (write_hook x) true.

(** The chains of a context. *)
Abbreviation context := (list (list grub_env_var)).

Definition empty_context : context := replicate (Z.to_nat HASHSZ) [].

Definition chain (c : context) (i : nat) : list grub_env_var := default [] (c !! i).

(** ** kern/env.c *)

Fixpoint hash_loop (i : Z) (s : list Z) : Z :=
  match s with [] => i | c :: s => hash_loop (u32 (i + 5 * c)) s end.

Definition grub_env_hashval (s : list Z) : nat := Z.to_nat (hash_loop 0 s mod HASHSZ).

(** The position in a chain of the first variable of that name. *)
Fixpoint find_in (n : list Z) (l : list grub_env_var) : option (nat * grub_env_var) :=
  match l with
  | [] => None
  | x :: l => if grub_strcmp (name x) n =? 0 then Some (0%nat, x)
              else '(p, y) ← find_in n l; Some (S p, y)
  end.

(** Chain, position and what is there. *)
Definition grub_env_find (c : context) (n : list Z) : option (nat * nat * grub_env_var) :=
  let idx := grub_env_hashval n in
  '(p, x) ← find_in n (chain c idx); Some (idx, p, x).

(** A variable changed in place. *)
Definition update (c : context) (i p : nat) (x : grub_env_var) : context := <[i := <[p := x]> (chain c i)]> c.

Definition grub_env_insert (c : context) (x : grub_env_var) : context :=
  let idx := grub_env_hashval (name x) in <[idx := x :: chain c idx]> c.

Definition grub_env_remove (c : context) (i p : nat) : context := <[i := delete p (chain c i)]> c.

Section Allocation.
Variable alloc_ok : Z -> bool.

Definition grub_strdup (s : list Z) : option (list Z) := if alloc_ok (zlen s + 1) then Some s else None.

Definition sizeof_var : Z := 64.

Definition grub_env_set (c : context) (n val : list Z) : grub_err_t * context :=
  match grub_env_find c n with
  | Some (i, p, x) =>
      let new := match write_hook x with
                 | Some hook => hook (name x) val
                 | None => match grub_strdup val with Some v => inr v | None => inl ERR_OUT_OF_MEMORY end
                 end in
      match new with
      | inl e => (e, c)
      | inr v => (ERR_NONE, update c i p (set_value v x))
      end
  | None =>
      if negb (alloc_ok sizeof_var) then (ERR_OUT_OF_MEMORY, c) else
      match grub_strdup n with
      | None => (ERR_OUT_OF_MEMORY, c)
      | Some n' =>
          match grub_strdup val with
          | None => (ERR_OUT_OF_MEMORY, c)
          | Some v => (ERR_NONE, grub_env_insert c (mk_var n' v None None false))
          end
      end
  end.

Definition grub_env_get (c : context) (n : list Z) : option (list Z) :=
  '(_, x) ← grub_env_find c n;
  match read_hook x with
  | Some hook => hook (name x) (value x)
  | None => Some (value x)
  end.

Definition grub_env_get_bool (c : context) (n : list Z) (if_unset : bool) : bool :=
  match grub_env_get c n with
  | None => if_unset
  | Some v =>
      if grub_strlen v <? 1 then if_unset
      else if (grub_strcmp v (chars "0") =? 0) || (grub_strcmp v (chars "false") =? 0)
              || (grub_strcmp v (chars "disable") =? 0) || (grub_strcmp v (chars "no") =? 0) then false
      else true
  end.

Definition grub_env_unset (c : context) (n : list Z) : context :=
  match grub_env_find c n with
  | None => c
  | Some (i, p, x) =>
      match read_hook x, write_hook x with
      | None, None => grub_env_remove c i p
      | _, _ => snd (grub_env_set c n [])
      end
  end.

(** The place in the sorted list: before the first greater name. *)
Fixpoint insert_sorted (x : grub_env_var) (l : list grub_env_var) : list grub_env_var :=
  match l with
  | [] => [x]
  | y :: l' => if 0 <? grub_strcmp (name y) (name x) then x :: l else y :: insert_sorted x l'
  end.

Definition grub_env_update_get_sorted (c : context) : list grub_env_var :=
  fold_left (fun sorted x => insert_sorted x sorted) (concat c) [].

(** [None]: the variable that was just set is not found, a NULL dereference. *)
Definition grub_register_variable_hook (c : context) (n : list Z) (r : option read_hook_t) (w : option write_hook_t)
  : option (grub_err_t * context) :=
  match grub_env_find c n with
  | Some (i, p, x) => Some (ERR_NONE, update c i p (set_hooks r w x))
  | None =>
      let '(e, c) := grub_env_set c n [] in
      if decide (e = ERR_NONE) then
        '(i, p, x) ← grub_env_find c n; Some (ERR_NONE, update c i p (set_hooks r w x))
      else Some (e, c)
  end.

Definition grub_env_export (c : context) (n : list Z) : option (grub_err_t * context) :=
  match grub_env_find c n with
  | Some (i, p, x) => Some (ERR_NONE, update c i p (set_global x))
  | None =>
      let '(e, c) := grub_env_set c n [] in
      if decide (e = ERR_NONE) then
        '(i, p, x) ← grub_env_find c n; Some (ERR_NONE, update c i p (set_global x))
      else Some (e, c)
  end.

(** ** normal/context.c *)

Record menu := mk_menu { entry_list : list Z; msize : Z }.

(** The current context and menu first. *)
Record state := mk_state {
  contexts : list context;
  menus : list (option menu);
  grub_extractor_level : Z
}.

Definition current (s : state) : option context := head (contexts s).

Definition grub_env_get_menu (s : state) : option (option menu) := head (menus s).

Definition grub_env_set_menu (s : state) (m : option menu) : option state :=
  match menus s with
  | _ :: ms => Some (mk_state (contexts s) (m :: ms) (grub_extractor_level s))
  | [] => None
  end.

Definition grub_env_unset_menu (s : state) : option state := grub_env_set_menu s None.

Definition grub_env_context_close (s : state) : option (grub_err_t * state) :=
  match contexts s, menus s with
  | _ :: (_ :: _) as cs, _ :: ms => Some (ERR_NONE, mk_state cs ms (grub_extractor_level s))
  | [_], _ => Some (ERR_BAD_ARGUMENT, s)
  | _, _ => None
  end.

(** The copy loop over the exported variables; [inl]: no memory for one of them. *)
Fixpoint copy_vars (export_all : bool) (l : list grub_env_var) (c : context) : option (grub_err_t + context) :=
  match l with
  | [] => Some (inr c)
  | x :: l =>
      if global x || export_all then
        let '(e, c) := grub_env_set c (name x) (value x) in
        if decide (e = ERR_NONE) then
          '(_, c) ← grub_env_export c (name x);
          '(_, c) ← grub_register_variable_hook c (name x) (read_hook x) (write_hook x);
          copy_vars export_all l c
        else Some (inl e)
      else copy_vars export_all l c
  end.

Definition sizeof_context : Z := 112.
Definition sizeof_menu_pointer : Z := 16.

Definition grub_env_new_context (export_all : bool) (s : state) : option (grub_err_t * state) :=
  if negb (alloc_ok sizeof_context) then Some (ERR_OUT_OF_MEMORY, s) else
  if negb (alloc_ok sizeof_menu_pointer) then Some (ERR_OUT_OF_MEMORY, s) else
  prev ← current s;
  let opened c := mk_state (c :: contexts s) (None :: menus s) (grub_extractor_level s) in
  r ← copy_vars export_all (concat prev) empty_context;
  match r with
  | inr c => Some (ERR_NONE, opened c)
  | inl e => '(_, s) ← grub_env_context_close (opened empty_context); Some (e, s)
  end.

Definition grub_env_context_open (s : state) : option (grub_err_t * state) := grub_env_new_context false s.

Definition set_level (l : Z) (s : state) : state := mk_state (contexts s) (menus s) l.

Definition grub_env_extractor_open (source : bool) (s : state) : option (grub_err_t * state) :=
  grub_env_new_context source (set_level (s32 (grub_extractor_level s + 1)) s).

(** The entries of the inner menu go to the end of those of the outer one. *)
Definition grub_env_extractor_close (source : bool) (s : state) : option (grub_err_t * state) :=
  '(m, s) ← (if source then
               m ← grub_env_get_menu s; s ← grub_env_unset_menu s; Some (m, s)
             else Some (None, s));
  '(e, s) ← grub_env_context_close s;
  s ← (match source, m with
       | true, Some m =>
           menu2 ← grub_env_get_menu s;
           menu2 ← menu2;
           grub_env_set_menu s (Some (mk_menu (entry_list menu2 ++ entry_list m) (s32 (msize menu2 + msize m))))
       | _, _ => Some s
       end);
  Some (e, set_level (s32 (grub_extractor_level s - 1)) s).

Definition on_current (f : context -> option (grub_err_t * context)) (s : state) : option (grub_err_t * state) :=
  match contexts s with
  | c :: cs => '(e, c) ← f c; Some (e, mk_state (c :: cs) (menus s) (grub_extractor_level s))
  | [] => None
  end.

(** The arguments are exported one by one; errors are ignored. *)
Fixpoint export_args (args : list (list Z)) (s : state) : option state :=
  match args with
  | [] => Some s
  | a :: args => '(_, s) ← on_current (fun c => grub_env_export c a) s; export_args args s
  end.

Definition grub_cmd_export (args : list (list Z)) (s : state) : option (grub_err_t * state) :=
  match args with
  | [] => Some (ERR_BAD_ARGUMENT, s)
  | _ => s ← export_args args s; Some (ERR_NONE, s)
  end.
End Allocation.
(** * Hash table and map *)

Abbreviation vmap := (gmap (list Z) grub_env_var).

Record wf_context (c : context) : Prop := mk_wf {
  wf_len : length c = 13%nat;
  wf_hash : forall i x, x ∈ chain c i -> cstr (name x) /\ grub_env_hashval (name x) = i;
  wf_nodup : forall i, NoDup (name <$> chain c i)
}.

(** The table holds the variables of the map. *)
Record refines (c : context) (m : vmap) : Prop := mk_refines {
  ref_wf : wf_context c;
  ref_lookup : forall n x, m !! n = Some x <-> name x = n /\ x ∈ chain c (grub_env_hashval n)
}.

Lemma hash_bound n : (grub_env_hashval n < 13)%nat.
Proof. unfold grub_env_hashval, HASHSZ. pose proof (Z.mod_pos_bound (hash_loop 0 n) 13). lia. Qed.

Lemma chain_insert c i j l : wf_context c -> (i < 13)%nat ->
  chain (<[i := l]> c) j = if decide (i = j) then l else chain c j.
Proof.
  intros Hc Hi. unfold chain. destruct (decide (i = j)) as [<-|Hne].
  - by rewrite list_lookup_insert_eq by (rewrite (wf_len c Hc); lia).
  - by rewrite list_lookup_insert_ne.
Qed.

Lemma find_in_spec n l : cstr n -> (forall x, x ∈ l -> cstr (name x)) ->
  match find_in n l with
  | Some (p, x) => l !! p = Some x /\ name x = n
  | None => forall x, x ∈ l -> name x <> n
  end.
Proof.
  intros Hn. induction l as [|y l IH]; intros Hl; cbn [find_in]; [intros x Hx; inversion Hx|].
  rewrite strcmp_eq by (done || (apply Hl; constructor)). case_bool_decide as E; [done|].
  specialize (IH (fun x Hx => Hl x (list_elem_of_further _ _ _ Hx))).
  destruct (find_in n l) as [[p x]|]; [done|]. intros x Hx. apply elem_of_cons in Hx as [->|Hx]; [done|by apply IH].
Qed.

(** The variables of a chain other than the one at a position. *)
Lemma chain_others (l : list grub_env_var) p x y : NoDup (name <$> l) -> l !! p = Some x ->
  (forall z, z ∈ <[p := y]> l <-> z = y \/ (z ∈ l /\ name z <> name x)) /\
  (forall z, z ∈ delete p l <-> z ∈ l /\ name z <> name x) /\
  (name y = name x -> name <$> <[p := y]> l = name <$> l) /\
  NoDup (name <$> delete p l).
Proof.
  intros Hnd Hp. apply list_elem_of_split_length in Hp as (l1 & l2 & -> & ->).
  rewrite insert_app_r_alt, Nat.sub_diag, delete_middle by done. cbn [insert list_insert].
  rewrite fmap_app, fmap_cons in Hnd. apply NoDup_app in Hnd as (H1 & H12 & H2).
  apply NoDup_cons in H2 as [Hx H2].
  assert (forall z, z ∈ l1 \/ z ∈ l2 -> name z <> name x) as Hne.
  { intros z [Hz|Hz] E.
    - apply (H12 (name z)); [by apply list_elem_of_fmap_2|]. rewrite E. constructor.
    - apply Hx. rewrite <- E. by apply list_elem_of_fmap_2. }
  split; [|split; [|split]].
  - intros z. rewrite !elem_of_app, !elem_of_cons. specialize (Hne z). split; [|intros [->|[[?|[->|?]] ?]]; tauto]. tauto.
  - intros z. rewrite !elem_of_app, !elem_of_cons. specialize (Hne z). split; [|intros [[?|[->|?]] ?]; tauto]. tauto.
  - intros E. by rewrite !fmap_app, !fmap_cons, E.
  - rewrite fmap_app. apply NoDup_app. split; [done|]. split; [|done].
    intros n Hn1 Hn2. apply (H12 n Hn1). by constructor.
Qed.
Lemma env_find_spec c m n : refines c m -> cstr n ->
  match grub_env_find c n with
  | Some (i, p, x) => i = grub_env_hashval n /\ chain c i !! p = Some x /\ name x = n /\ m !! n = Some x
  | None => m !! n = None
  end.
Proof.
  intros [Hc Hm] Hn. unfold grub_env_find.
  pose proof (find_in_spec n (chain c (grub_env_hashval n)) Hn (fun x Hx => proj1 (wf_hash c Hc _ x Hx))) as H.
  destruct (find_in n _) as [[p x]|]; cbn [mbind option_bind].
  - destruct H as [Hp E]. repeat split; try done. apply Hm. split; [done|]. by eapply list_elem_of_lookup_2.
  - apply eq_None_not_Some. intros [x Hx]. apply Hm in Hx as [E Hx]. by apply (H x).
Qed.

Lemma update_refines c m p x y : refines c m -> chain c (grub_env_hashval (name x)) !! p = Some x -> name y = name x ->
  refines (update c (grub_env_hashval (name x)) p y) (<[name x := y]> m).
Proof.
  intros [Hc Hm] Hp Hy. set (i := grub_env_hashval (name x)) in *. pose proof (hash_bound (name x)) as Hi. fold i in Hi.
  destruct (chain_others (chain c i) p x y (wf_nodup c Hc i) Hp) as (Hin & _ & Hnames & _). unfold update.
  assert (x ∈ chain c i) as Hx by (by eapply list_elem_of_lookup_2).
  split; [split|].
  - rewrite length_insert. apply Hc.
  - intros j z. rewrite chain_insert by done. destruct (decide (i = j)) as [<-|]; [|apply Hc].
    rewrite Hin. intros [->|[Hz _]]; [|by apply Hc]. rewrite Hy. by apply Hc.
  - intros j. rewrite chain_insert by done. destruct (decide (i = j)) as [<-|]; [|apply Hc].
    rewrite Hnames by done. apply Hc.
  - intros n z. rewrite chain_insert by done. destruct (decide (name x = n)) as [<-|Hne].
    + rewrite lookup_insert_eq, decide_True by done. rewrite Hin. split; [intros [= <-]; auto|].
      intros [E [->|[_ ?]]]; [done|congruence].
    + rewrite lookup_insert_ne by done. rewrite Hm. destruct (decide (i = grub_env_hashval n)) as [E|]; [|done].
      rewrite Hin, <- E. split; [intros [<- Hz]; auto|]. intros [E' [->|[Hz _]]]; [congruence|done].
Qed.

Lemma insert_refines c m x : refines c m -> cstr (name x) -> m !! name x = None ->
  refines (grub_env_insert c x) (<[name x := x]> m).
Proof.
  intros [Hc Hm] Hx Hnone. unfold grub_env_insert. set (i := grub_env_hashval (name x)) in *.
  pose proof (hash_bound (name x)) as Hi. fold i in Hi.
  assert (forall z, z ∈ chain c i -> name z <> name x) as Hne.
  { intros z Hz E. assert (m !! name x = Some z) as H' by (apply Hm; done). congruence. }
  split; [split|].
  - rewrite length_insert. apply Hc.
  - intros j z. rewrite chain_insert by done. destruct (decide (i = j)) as [<-|]; [|apply Hc].
    intros [->|Hz]%elem_of_cons; [done|by apply Hc].
  - intros j. rewrite chain_insert by done. destruct (decide (i = j)) as [<-|]; [|apply Hc].
    rewrite fmap_cons. apply NoDup_cons. split; [|apply Hc]. intros (z & E & Hz)%list_elem_of_fmap. by apply (Hne z).
  - intros n z. rewrite chain_insert by done. destruct (decide (name x = n)) as [<-|Hn].
    + rewrite lookup_insert_eq, decide_True by done. rewrite elem_of_cons. split; [intros [= <-]; auto|].
      intros [E [->|Hz]]; [done|]. by destruct (Hne z).
    + rewrite lookup_insert_ne by done. rewrite Hm. destruct (decide (i = grub_env_hashval n)) as [E|]; [|done].
      rewrite elem_of_cons, <- E. split; [tauto|]. intros [E' [->|Hz]]; [congruence|done].
Qed.

Lemma remove_refines c m p x : refines c m -> chain c (grub_env_hashval (name x)) !! p = Some x ->
  refines (grub_env_remove c (grub_env_hashval (name x)) p) (delete (name x) m).
Proof.
  intros [Hc Hm] Hp. set (i := grub_env_hashval (name x)) in *. pose proof (hash_bound (name x)) as Hi. fold i in Hi.
  destruct (chain_others (chain c i) p x x (wf_nodup c Hc i) Hp) as (_ & Hin & _ & Hnd). unfold grub_env_remove.
  split; [split|].
  - rewrite length_insert. apply Hc.
  - intros j z. rewrite chain_insert by done. destruct (decide (i = j)) as [<-|]; [|apply Hc].
    rewrite Hin. intros [Hz _]. by apply Hc.
  - intros j. rewrite chain_insert by done. by destruct (decide (i = j)) as [<-|]; [|apply Hc].
  - intros n z. rewrite chain_insert by done. destruct (decide (name x = n)) as [<-|Hne].
    + rewrite lookup_delete_eq, decide_True by done. rewrite Hin. split; [done|]. tauto.
    + rewrite lookup_delete_ne by done. rewrite Hm. destruct (decide (i = grub_env_hashval n)) as [E|]; [|done].
      rewrite Hin, <- E. split; [intros [<- Hz]; auto|]. tauto.
Qed.

Lemma empty_refines : refines empty_context ∅.
Proof.
  assert (forall i, chain empty_context i = []) as He.
  { intros i. unfold chain, empty_context. destruct (replicate _ _ !! i) as [l|] eqn:E; [|done].
    by apply lookup_replicate in E as [-> _]. }
  split; [split|].
  - done.
  - intros i x. rewrite He. intros H. inversion H.
  - intros i. rewrite He. constructor.
  - intros n x. rewrite He, lookup_empty. split; [done|]. intros [_ H]. inversion H.
Qed.

(** * The abstract environment *)

Section Abstract.
Variable alloc_ok : Z -> bool.

Definition fits (n v : list Z) : bool := alloc_ok sizeof_var && alloc_ok (zlen n + 1) && alloc_ok (zlen v + 1).

Definition a_set (m : vmap) (n v : list Z) : grub_err_t * vmap :=
  match m !! n with
  | Some x =>
      match (match write_hook x with
             | Some hook => hook n v
             | None => if alloc_ok (zlen v + 1) then inr v else inl ERR_OUT_OF_MEMORY
             end) with
      | inr v => (ERR_NONE, <[n := set_value v x]> m)
      | inl e => (e, m)
      end
  | None => if fits n v then (ERR_NONE, <[n := mk_var n v None None false]> m) else (ERR_OUT_OF_MEMORY, m)
  end.

Definition a_get (m : vmap) (n : list Z) : option (list Z) :=
  x ← m !! n; match read_hook x with Some hook => hook n (value x) | None => Some (value x) end.

Definition a_unset (m : vmap) (n : list Z) : vmap :=
  match m !! n with
  | None => m
  | Some x => match read_hook x, write_hook x with None, None => delete n m | _, _ => snd (a_set m n []) end
  end.

(** Changing a variable, which is made first when there is none. *)
Definition a_change (f : grub_env_var -> grub_env_var) (m : vmap) (n : list Z) : grub_err_t * vmap :=
  match m !! n with
  | Some x => (ERR_NONE, <[n := f x]> m)
  | None => if fits n [] then (ERR_NONE, <[n := f (mk_var n [] None None false)]> m) else (ERR_OUT_OF_MEMORY, m)
  end.

(** ** One context *)

Lemma env_set_spec c m n v : refines c m -> cstr n ->
  exists c', grub_env_set alloc_ok c n v = (fst (a_set m n v), c') /\ refines c' (snd (a_set m n v)).
Proof.
  intros Hr Hn. pose proof (env_find_spec c m n Hr Hn) as Hf. unfold grub_env_set, a_set, grub_strdup, fits.
  destruct (grub_env_find c n) as [[[i p] x]|].
  - destruct Hf as (-> & Hp & <- & ->).
    destruct (write_hook x) as [hook|].
    + destruct (hook (name x) v) as [e|v']; [by exists c|]. eexists. split; [done|]. by apply update_refines.
    + destruct (alloc_ok (zlen v + 1)); [|by exists c]. eexists. split; [done|]. by apply update_refines.
  - rewrite Hf. destruct (alloc_ok sizeof_var); [|by exists c]. destruct (alloc_ok (zlen n + 1)); [|by exists c].
    destruct (alloc_ok (zlen v + 1)); [|by exists c]. eexists. split; [done|].
    by apply (insert_refines c m (mk_var n v None None false)).
Qed.

Lemma env_get_spec c m n : refines c m -> cstr n -> grub_env_get c n = a_get m n.
Proof.
  intros Hr Hn. pose proof (env_find_spec c m n Hr Hn) as Hf. unfold grub_env_get, a_get.
  destruct (grub_env_find c n) as [[[i p] x]|]; [|by rewrite Hf].
  destruct Hf as (_ & _ & <- & ->). done.
Qed.

Lemma env_unset_spec c m n : refines c m -> cstr n -> refines (grub_env_unset alloc_ok c n) (a_unset m n).
Proof.
  intros Hr Hn. pose proof (env_find_spec c m n Hr Hn) as Hf. unfold grub_env_unset, a_unset.
  assert (refines (snd (grub_env_set alloc_ok c n [])) (snd (a_set m n []))) as Hset.
  { by destruct (env_set_spec c m n [] Hr Hn) as (c' & -> & H). }
  destruct (grub_env_find c n) as [[[i p] x]|]; [|by rewrite Hf].
  destruct Hf as (-> & Hp & E & ->). destruct (read_hook x), (write_hook x); try done. rewrite <- E in *. by apply remove_refines.
Qed.

(** A change of a variable that is there or has just been made. *)
Lemma change_spec c m n f : refines c m -> cstr n -> (forall x, name (f x) = name x) ->
  exists c', match grub_env_find c n with
  | Some (i, p, x) => Some (ERR_NONE, update c i p (f x))
  | None =>
      let '(e, c) := grub_env_set alloc_ok c n [] in
      if decide (e = ERR_NONE) then '(i, p, x) ← grub_env_find c n; Some (ERR_NONE, update c i p (f x))
      else Some (e, c)
  end = Some (fst (a_change f m n), c') /\ refines c' (snd (a_change f m n)).
Proof.
  intros Hr Hn Hfn. pose proof (env_find_spec c m n Hr Hn) as Hf. unfold a_change.
  destruct (grub_env_find c n) as [[[i p] x]|].
  - destruct Hf as (-> & Hp & E & ->). eexists. split; [done|]. rewrite <- E in *. by apply update_refines.
  - rewrite Hf. destruct (env_set_spec c m n [] Hr Hn) as (c' & -> & Hr'). unfold a_set in *. rewrite Hf in *.
    destruct (fits n []); cbn [fst snd] in *; [|by eexists].
    pose proof (env_find_spec c' _ n Hr' Hn) as Hf'. rewrite decide_True by done.
    destruct (grub_env_find c' n) as [[[i p] x]|]; [|by rewrite lookup_insert_eq in Hf'].
    destruct Hf' as (-> & Hp & E & Hx). rewrite lookup_insert_eq in Hx. injection Hx as <-.
    eexists. split; [done|]. cbn [snd]. rewrite <- (insert_insert_eq m n (f _) (mk_var n [] None None false)).
    exact (update_refines c' _ p (mk_var n [] None None false) (f _) Hr' Hp (Hfn _)).
Qed.

(** ** All variables of a context *)

Lemma elem_of_concat_chain c m x : refines c m -> x ∈ concat c <-> m !! name x = Some x.
Proof.
  intros [Hc Hm]. rewrite Hm, list_elem_of_In, in_concat. unfold chain. split.
  - intros (l & Hl & Hx). apply list_elem_of_In in Hl, Hx. apply list_elem_of_lookup in Hl as [i Hi].
    split; [done|]. assert (x ∈ chain c i) as Hxi by (unfold chain; by rewrite Hi).
    destruct (wf_hash c Hc i x Hxi) as [_ ->]. by rewrite Hi.
  - intros [_ Hx]. destruct (c !! grub_env_hashval (name x)) as [l|] eqn:E; [|inversion Hx].
    exists l. split; [|by apply list_elem_of_In]. apply list_elem_of_In. by eapply list_elem_of_lookup_2.
Qed.

Lemma concat_names (cs : context) k :
  (forall i l, cs !! i = Some l -> NoDup (name <$> l) /\ forall x, x ∈ l -> grub_env_hashval (name x) = (k + i)%nat) ->
  NoDup (name <$> concat cs).
Proof.
  revert k. induction cs as [|l cs IH]; intros k H; [constructor|]. cbn [concat]. rewrite fmap_app. apply NoDup_app.
  destruct (H 0%nat l eq_refl) as [Hl Hh].
  split; [done|]. split; [|apply (IH (S k)); intros i l' Hl'; destruct (H (S i) l' Hl') as [? Hh']; split; [done|];
    intros x Hx; rewrite (Hh' x Hx); lia].
  intros n (x & -> & Hx)%list_elem_of_fmap (y & E & Hy)%list_elem_of_fmap.
  apply list_elem_of_In, in_concat in Hy as (l' & Hl' & Hy). apply list_elem_of_In in Hl', Hy.
  apply list_elem_of_lookup in Hl' as [i Hi]. destruct (H (S i) l' Hi) as [_ Hh'].
  specialize (Hh x Hx). specialize (Hh' y Hy). rewrite <- E in Hh'. lia.
Qed.

Lemma context_names c : wf_context c -> NoDup (name <$> concat c).
Proof.
  intros Hc. apply (concat_names c 0). intros i l Hl.
  assert (chain c i = l) as <- by (unfold chain; by rewrite Hl). split; [apply Hc|]. intros x Hx. by apply Hc.
Qed.

(** ** Opening a context *)

Definition selected (all : bool) (x : grub_env_var) : bool := global x || all.

(** The variables a new context starts with. *)
Definition exported (all : bool) (m : vmap) : vmap := omap (fun x => if selected all x then Some (set_global x) else None) m.

Definition copy_fits (all : bool) (x : grub_env_var) : bool := negb (selected all x) || fits (name x) (value x).

Fixpoint a_copy (all : bool) (l : list grub_env_var) (m : vmap) : vmap :=
  match l with
  | [] => m
  | x :: l => a_copy all l (if selected all x then <[name x := set_global x]> m else m)
  end.

Lemma copy_one c m x : refines c m -> cstr (name x) -> m !! name x = None -> fits (name x) (value x) = true ->
  exists c', (let '(e, c) := grub_env_set alloc_ok c (name x) (value x) in
    if decide (e = ERR_NONE) then
      '(_, c) ← grub_env_export alloc_ok c (name x);
      '(_, c) ← grub_register_variable_hook alloc_ok c (name x) (read_hook x) (write_hook x);
      Some c
    else None) = Some c' /\ refines c' (<[name x := set_global x]> m).
Proof.
  intros Hr Hn Hnone Hfit. destruct (env_set_spec c m (name x) (value x) Hr Hn) as (c1 & -> & Hr1).
  unfold a_set in *. rewrite Hnone, Hfit in *. cbn [fst snd] in *. rewrite decide_True by done.
  destruct (change_spec c1 _ (name x) set_global Hr1 Hn) as (c2 & E2 & Hr2); [done|].
  change (grub_env_export alloc_ok c1 (name x) = Some (fst (a_change set_global (<[name x := mk_var (name x) (value x) None None false]> m) (name x)), c2)) in E2.
  rewrite E2. step. unfold a_change in Hr2. rewrite lookup_insert_eq in Hr2. cbn [snd] in Hr2. rewrite insert_insert_eq in Hr2.
  destruct (change_spec c2 _ (name x) (set_hooks (read_hook x) (write_hook x)) Hr2 Hn) as (c3 & E3 & Hr3); [done|].
  match type of E3 with _ = Some (?e, _) =>
    change (grub_register_variable_hook alloc_ok c2 (name x) (read_hook x) (write_hook x) = Some (e, c3)) in E3 end.
  rewrite E3. step. unfold a_change in Hr3. rewrite lookup_insert_eq in Hr3. cbn [snd] in Hr3. rewrite insert_insert_eq in Hr3.
  exists c3. split; [done|]. by destruct x.
Qed.

Lemma copy_spec all l : forall c m, refines c m -> NoDup (name <$> l) ->
  (forall x, x ∈ l -> cstr (name x) /\ m !! name x = None) ->
  if forallb (copy_fits all) l
  then exists c', copy_vars alloc_ok all l c = Some (inr c') /\ refines c' (a_copy all l m)
  else copy_vars alloc_ok all l c = Some (inl ERR_OUT_OF_MEMORY).
Proof.
  induction l as [|x l IH]; intros c m Hr Hnd Hl; [by exists c|]. rewrite fmap_cons in Hnd. apply NoDup_cons in Hnd as [Hx Hnd].
  destruct (Hl x (list_elem_of_here _ _)) as [Hcx Hnone].
  assert (forall y, y ∈ l -> name y <> name x) as Hne by (intros y Hy E; apply Hx; rewrite <- E; by apply list_elem_of_fmap_2).
  cbn [forallb copy_vars a_copy]. unfold copy_fits at 1. unfold selected. destruct (global x || all) eqn:Es; cbn [negb orb].
  - destruct (fits (name x) (value x)) eqn:Ef; cbn [andb].
    + destruct (copy_one c m x Hr Hcx Hnone Ef) as (c' & E & Hr').
      specialize (IH c' _ Hr' Hnd). unfold selected in IH.
      destruct (grub_env_set alloc_ok c (name x) (value x)) as [e c1]. destruct (decide (e = ERR_NONE)); [|done].
      destruct (grub_env_export alloc_ok c1 (name x)) as [[? c2]|]; [|done]. cbn [mbind option_bind] in *.
      destruct (grub_register_variable_hook _ c2 _ _ _) as [[? c3]|]; [|done]. cbn [mbind option_bind] in *.
      injection E as ->. apply IH. intros y Hy. destruct (Hl y (list_elem_of_further _ _ _ Hy)) as [? Hy2].
      split; [done|]. by rewrite lookup_insert_ne by (by apply not_eq_sym, Hne).
    + destruct (env_set_spec c m (name x) (value x) Hr Hcx) as (c1 & -> & _). unfold a_set. by rewrite Hnone, Ef.
  - apply IH; [done|done|]. intros y Hy. apply Hl. by constructor.
Qed.

Lemma a_copy_lookup all l : forall m n y, NoDup (name <$> l) -> (forall x, x ∈ l -> m !! name x = None) ->
  a_copy all l m !! n = Some y <-> m !! n = Some y \/ exists x, x ∈ l /\ selected all x = true /\ name x = n /\ y = set_global x.
Proof.
  induction l as [|x l IH]; intros m n y Hnd Hl; cbn [a_copy].
  { split; [auto|]. intros [|(x & Hx & _)]; [done|inversion Hx]. }
  rewrite fmap_cons in Hnd. apply NoDup_cons in Hnd as [Hx Hnd].
  pose proof (Hl x (list_elem_of_here _ _)) as Hnone.
  assert (forall y, y ∈ l -> name y <> name x) as Hne by (intros z Hz E; apply Hx; rewrite <- E; by apply list_elem_of_fmap_2).
  destruct (selected all x) eqn:Es; rewrite IH; clear IH; try done.
  - setoid_rewrite elem_of_cons. destruct (decide (name x = n)) as [<-|Hn].
    + rewrite lookup_insert_eq, Hnone. split.
      * intros [[= <-]|(z & Hz & ? & ? & ?)]; [right; exists x; auto|]. by destruct (Hne z).
      * intros [|(z & [->|Hz] & ? & ? & ->)]; [done|by left|]. by destruct (Hne z).
    + rewrite lookup_insert_ne by done. split; [intros [|(z & ? & ?)]; [by left|right; exists z; tauto]|].
      intros [|(z & [->|Hz] & ? & ? & ?)]; [by left|done|]. right. exists z. tauto.
  - intros z Hz. rewrite lookup_insert_ne by (by apply not_eq_sym, Hne). apply Hl. by constructor.
  - setoid_rewrite elem_of_cons. split; [intros [|(z & ? & ?)]; [by left|right; exists z; tauto]|].
    intros [|(z & [->|Hz] & ? & ? & ?)]; [by left|congruence|]. right. exists z. tauto.
  - intros z Hz. apply Hl. by constructor.
Qed.

Lemma a_copy_exported all c m : refines c m -> a_copy all (concat c) ∅ = exported all m.
Proof.
  intros Hr. apply map_eq. intros n. apply option_eq. intros y.
  rewrite a_copy_lookup by (try apply context_names, Hr; intros; apply lookup_empty).
  rewrite lookup_empty. unfold exported. rewrite lookup_omap, bind_Some. split.
  - intros [|(x & Hx & Es & <- & ->)]; [done|]. apply (elem_of_concat_chain c m x Hr) in Hx. exists x. by rewrite Es.
  - intros (x & Hx & Hy). right. destruct (selected all x) eqn:Es; [|done]. injection Hy as <-.
    exists x. pose proof (proj1 (ref_lookup c m Hr n x) Hx) as [E _]. subst n. rewrite (elem_of_concat_chain c m x Hr). auto.
Qed.

Lemma copy_context all c m : refines c m ->
  if forallb (copy_fits all) (concat c)
  then exists c', copy_vars alloc_ok all (concat c) empty_context = Some (inr c') /\ refines c' (exported all m)
  else copy_vars alloc_ok all (concat c) empty_context = Some (inl ERR_OUT_OF_MEMORY).
Proof.
  intros Hr. rewrite <- (a_copy_exported all c m Hr). apply copy_spec.
  - apply empty_refines.
  - apply context_names, Hr.
  - intros x Hx. split; [|apply lookup_empty]. apply (elem_of_concat_chain c m x Hr) in Hx.
    pose proof (proj1 (ref_lookup c m Hr _ x) Hx) as [_ Hx']. by destruct (wf_hash c (ref_wf c m Hr) _ x Hx').
Qed.

Lemma copy_fits_all all c m : refines c m ->
  forallb (copy_fits all) (concat c) = bool_decide (map_Forall (fun _ x => copy_fits all x = true) m).
Proof.
  intros Hr. apply eq_true_iff_eq. rewrite forallb_forall, bool_decide_eq_true. split.
  - intros H n x Hx. apply H, list_elem_of_In. rewrite (elem_of_concat_chain c m x Hr).
    by destruct (proj1 (ref_lookup c m Hr n x) Hx) as [-> _].
  - intros H x Hx%list_elem_of_In. apply (H (name x)). by rewrite <- (elem_of_concat_chain c m x Hr).
Qed.

(** ** Sessions *)

Inductive op :=
| Set_var (n v : list Z) | Get_var (n : list Z) | Unset_var (n : list Z) | Export_var (n : list Z)
| Hook_var (n : list Z) (r : option read_hook_t) (w : option write_hook_t)
| Open_context | Close_context.

Inductive outcome := Err (e : grub_err_t) | Val (v : option (list Z)) | Done.

Definition op_name (o : op) : list Z :=
  match o with
  | Set_var n _ | Get_var n | Unset_var n | Export_var n | Hook_var n _ _ => n
  | _ => []
  end.

(** A call of the interface, on the current context. *)
Definition exec (o : op) (s : state) : option (outcome * state) :=
  let call f := '(e, s) ← f s; Some (Err e, s) in
  match o with
  | Set_var n v => call (on_current (fun c => Some (grub_env_set alloc_ok c n v)))
  | Export_var n => call (on_current (fun c => grub_env_export alloc_ok c n))
  | Hook_var n r w => call (on_current (fun c => grub_register_variable_hook alloc_ok c n r w))
  | Get_var n => c ← current s; Some (Val (grub_env_get c n), s)
  | Unset_var n =>
      '(_, s) ← on_current (fun c => Some (ERR_NONE, grub_env_unset alloc_ok c n)) s; Some (Done, s)
  | Open_context => call (grub_env_context_open alloc_ok)
  | Close_context => call grub_env_context_close
  end.

Fixpoint run (os : list op) (s : state) : option (list outcome * state) :=
  match os with
  | [] => Some ([], s)
  | o :: os => '(r, s) ← exec o s; '(rs, s) ← run os s; Some (r :: rs, s)
  end.

(** The same on a stack of maps. *)
Definition a_exec (o : op) (ms : list vmap) : outcome * list vmap :=
  match ms with
  | [] => (Done, [])
  | m :: ms' =>
      let call r := (Err (fst r), snd r :: ms') in
      match o with
      | Set_var n v => call (a_set m n v)
      | Export_var n => call (a_change set_global m n)
      | Hook_var n r w => call (a_change (set_hooks r w) m n)
      | Get_var n => (Val (a_get m n), ms)
      | Unset_var n => (Done, a_unset m n :: ms')
      | Open_context =>
          if alloc_ok sizeof_context && alloc_ok sizeof_menu_pointer &&
             bool_decide (map_Forall (fun _ x => copy_fits false x = true) m)
          then (Err ERR_NONE, exported false m :: ms)
          else (Err ERR_OUT_OF_MEMORY, ms)
      | Close_context => match ms' with [] => (Err ERR_BAD_ARGUMENT, ms) | _ => (Err ERR_NONE, ms') end
      end
  end.

Fixpoint a_run (os : list op) (ms : list vmap) : list outcome * list vmap :=
  match os with
  | [] => ([], ms)
  | o :: os => let '(r, ms) := a_exec o ms in let '(rs, ms) := a_run os ms in (r :: rs, ms)
  end.

Definition stack_refines (s : state) (ms : list vmap) : Prop :=
  Forall2 refines (contexts s) ms /\ length (menus s) = length (contexts s) /\ contexts s <> [].

Lemma exec_spec o s ms : stack_refines s ms -> cstr (op_name o) ->
  exists s', exec o s = Some (fst (a_exec o ms), s') /\ stack_refines s' (snd (a_exec o ms)).
Proof.
  intros (Hs & Hlen & Hne) Hn. destruct s as [cs mn lv]. cbn [contexts menus] in *.
  destruct Hs as [|c m cs ms Hr Hs]; [done|]. clear Hne.
  assert (forall c' m', refines c' m' -> stack_refines (mk_state (c' :: cs) mn lv) (m' :: ms)) as Hput
    by (intros; repeat split; try done; by constructor).
  destruct o as [n v|n|n|n|n r w| |]; cbn [op_name] in Hn; unfold exec, on_current, current; cbn [contexts menus grub_extractor_level a_exec].
  - destruct (env_set_spec c m n v Hr Hn) as (c' & -> & Hr'). eexists. split; [reflexivity|]. by apply Hput.
  - cbn [head mbind option_bind]. eexists. split; [by rewrite (env_get_spec c m n Hr Hn)|]. by apply Hput.
  - eexists. split; [reflexivity|]. by apply Hput, env_unset_spec.
  - destruct (change_spec c m n set_global Hr Hn) as (c' & E & Hr'); [done|].
    change (grub_env_export alloc_ok c n = Some (fst (a_change set_global m n), c')) in E. rewrite E.
    eexists. split; [reflexivity|]. by apply Hput.
  - destruct (change_spec c m n (set_hooks r w) Hr Hn) as (c' & E & Hr'); [done|].
    change (grub_register_variable_hook alloc_ok c n r w = Some (fst (a_change (set_hooks r w) m n), c')) in E. rewrite E.
    eexists. split; [reflexivity|]. by apply Hput.
  - pose proof (copy_context false c m Hr) as Hcp. rewrite (copy_fits_all false c m Hr) in Hcp.
    unfold grub_env_context_open, grub_env_new_context, current. cbn [contexts menus head].
    destruct (alloc_ok sizeof_context); [|eexists; split; [reflexivity|by apply Hput]].
    destruct (alloc_ok sizeof_menu_pointer); [|eexists; split; [reflexivity|by apply Hput]]. cbn [negb andb].
    rewrite bind_ret. destruct (bool_decide _).
    + destruct Hcp as (c' & -> & Hr'). eexists. split; [reflexivity|]. split; [|split; [cbn [menus contexts length] in *; lia|done]].
      constructor; [done|by constructor].
    + rewrite Hcp. eexists. split; [reflexivity|]. by apply Hput.
  - unfold grub_env_context_close. cbn [contexts menus]. destruct Hs as [|c2 m2 cs ms Hr2 Hs].
    + eexists. split; [reflexivity|]. by apply Hput.
    + destruct mn as [|x mn]; [done|]. eexists. split; [reflexivity|]. cbn [length] in Hlen.
      split; [by constructor|]. split; [cbn [menus contexts length] in *; lia|done].
Qed.

Lemma env_run_spec os : forall s ms, stack_refines s ms -> Forall (fun o => cstr (op_name o)) os ->
  exists s', run os s = Some (fst (a_run os ms), s') /\ stack_refines s' (snd (a_run os ms)).
Proof.
  induction os as [|o os IH]; intros s ms Hs Ho; [by exists s|]. apply Forall_cons in Ho as [Ho Hos].
  destruct (exec_spec o s ms Hs Ho) as (s1 & E1 & Hs1). destruct (IH s1 _ Hs1 Hos) as (s2 & E2 & Hs2).
  cbn [run a_run]. rewrite E1. step. rewrite E2. step. exists s2. destruct (a_exec o ms) as [r ms1]. cbn [fst snd] in *.
  destruct (a_run os ms1) as [rs ms2]. done.
Qed.

End Abstract.
(** * The sorted listing *)

Definition name_lt (x y : grub_env_var) : Prop := grub_strcmp (name x) (name y) < 0.

Lemma insert_sorted_perm x l : insert_sorted x l ≡ₚ x :: l.
Proof.
  induction l as [|y l IH]; [done|]. cbn [insert_sorted]. destruct (0 <? _); [done|].
  rewrite IH. apply Permutation_swap.
Qed.

Lemma insert_sorted_hd x y l : HdRel name_lt y l -> name_lt y x -> HdRel name_lt y (insert_sorted x l).
Proof.
  intros Hl Hx. destruct l as [|z l]; [by constructor|]. cbn [insert_sorted]. destruct (0 <? _); constructor; [done|].
  by inversion Hl.
Qed.

Lemma insert_sorted_sorted x l : Sorted name_lt l -> cstr (name x) ->
  (forall y, y ∈ l -> cstr (name y) /\ name y <> name x) -> Sorted name_lt (insert_sorted x l).
Proof.
  intros Hs Hx. induction Hs as [|y l Hs IH Hd]; intros Hl; [by repeat constructor|]. cbn [insert_sorted].
  destruct (Hl y (list_elem_of_here _ _)) as [Hcy Hne].
  pose proof (strcmp_eq (name y) (name x) Hcy Hx) as E. rewrite bool_decide_false in E by done. apply Z.eqb_neq in E.
  destruct (Z.ltb_spec 0 (grub_strcmp (name y) (name x))).
  - constructor; [by constructor|]. constructor. unfold name_lt. rewrite strcmp_opp. lia.
  - constructor.
    + apply IH. intros z Hz. apply Hl. by constructor.
    + apply insert_sorted_hd; [done|]. unfold name_lt. lia.
Qed.

Lemma sort_spec l : forall acc, Sorted name_lt acc -> NoDup (name <$> l ++ acc) -> (forall x, x ∈ l ++ acc -> cstr (name x)) ->
  Sorted name_lt (fold_left (fun s x => insert_sorted x s) l acc) /\
  fold_left (fun s x => insert_sorted x s) l acc ≡ₚ l ++ acc.
Proof.
  induction l as [|x l IH]; intros acc Hs Hnd Hc; [done|]. cbn [fold_left].
  rewrite <- app_comm_cons, fmap_cons in Hnd. apply NoDup_cons in Hnd as [Hx Hnd].
  pose proof (insert_sorted_perm x acc) as Hp.
  destruct (IH (insert_sorted x acc)) as [H1 H2].
  - apply insert_sorted_sorted; [done|apply Hc; constructor|]. intros y Hy.
    assert (y ∈ l ++ acc) as Hy' by (apply elem_of_app; auto). split; [apply Hc; by constructor|].
    intros E. apply Hx. rewrite <- E. by apply list_elem_of_fmap_2.
  - rewrite Hp. rewrite fmap_app, fmap_cons, <- Permutation_middle, <- fmap_app. by constructor.
  - intros y. rewrite Hp. rewrite <- Permutation_middle. apply Hc.
  - split; [done|]. rewrite H2, Hp. by rewrite <- Permutation_middle.
Qed.

Lemma listing_spec c m : refines c m ->
  Sorted name_lt (grub_env_update_get_sorted c) /\
  forall x, x ∈ grub_env_update_get_sorted c <-> m !! name x = Some x.
Proof.
  intros Hr. unfold grub_env_update_get_sorted.
  destruct (sort_spec (concat c) []) as [H1 H2].
  - constructor.
  - rewrite app_nil_r. apply context_names, Hr.
  - intros x. rewrite app_nil_r, (elem_of_concat_chain c m x Hr). intros Hx.
    pose proof (proj1 (ref_lookup c m Hr _ x) Hx) as [_ Hx']. by destruct (wf_hash c (ref_wf c m Hr) _ x Hx').
  - split; [done|]. intros x. rewrite H2, app_nil_r. by apply elem_of_concat_chain.
Qed.

Definition initial_state : state := mk_state [empty_context] [None] 0.

Lemma initial_refines : stack_refines initial_state [∅].
Proof. repeat split; [|done..]. constructor; [apply empty_refines|constructor]. Qed.

(** C19: the environment is a stack of finite maps.  Whatever sequence of calls is made from the
    initial context (setting, reading, unsetting, exporting, hooking variables, opening and
    closing contexts), every call returns what the maps say, memory shortage and errors of
    hooks included: the hash table never loses, duplicates or mixes up a variable, a new
    context starts with the exported variables and their hooks, and closing it brings the old
    one back unchanged. *)
Theorem env_refines_maps alloc_ok os : Forall (fun o => cstr (op_name o)) os ->
  exists s, run alloc_ok os initial_state = Some (fst (a_run alloc_ok os [∅]), s) /\
    stack_refines s (snd (a_run alloc_ok os [∅])).
Proof. apply env_run_spec, initial_refines. Qed.

(** [timeout] is exported with a hook that refuses empty values; [x] is local and shadows nothing. *)
Definition refuse_empty : write_hook_t := fun _ v => match v with [] => inl ERR_BAD_ARGUMENT | _ => inr v end.

Definition sample_ops : list op :=
  [Set_var (chars "timeout") (chars "5"); Export_var (chars "timeout");
   Hook_var (chars "timeout") None (Some refuse_empty); Set_var (chars "x") (chars "1");
   Open_context; Get_var (chars "x"); Set_var (chars "timeout") []; Unset_var (chars "timeout");
   Get_var (chars "timeout"); Set_var (chars "timeout") (chars "9"); Get_var (chars "timeout"); Close_context;
   Get_var (chars "timeout"); Get_var (chars "x"); Close_context].

Lemma env_refines_maps_witness :
  exists s, run (fun _ => true) sample_ops initial_state = Some
    ([Err ERR_NONE; Err ERR_NONE; Err ERR_NONE; Err ERR_NONE; Err ERR_NONE; Val None; Err ERR_BAD_ARGUMENT; Done;
      Val (Some (chars "5")); Err ERR_NONE; Val (Some (chars "9")); Err ERR_NONE; Val (Some (chars "5"));
      Val (Some (chars "1")); Err ERR_BAD_ARGUMENT], s).
Proof.
  destruct (env_refines_maps (fun _ => true) sample_ops) as (s & E & _).
  - repeat constructor; unfold is_char; vm_compute; try discriminate; intuition discriminate.
  - exists s. rewrite E. vm_compute. reflexivity.
Defined.

(** [grub_env_update_get_sorted] lists exactly the variables of the current context, each one
    once, in the order of their names. *)
Theorem env_listing_sorted alloc_ok os outs s c :
  Forall (fun o => cstr (op_name o)) os -> run alloc_ok os initial_state = Some (outs, s) -> current s = Some c ->
  Sorted name_lt (grub_env_update_get_sorted c) /\
  exists m, head (snd (a_run alloc_ok os [∅])) = Some m /\
    forall x, x ∈ grub_env_update_get_sorted c <-> m !! name x = Some x.
Proof.
  intros Ho Hrun Hc. destruct (env_run_spec alloc_ok os initial_state [∅] initial_refines Ho) as (s' & E & Hs & _).
  rewrite Hrun in E. injection E as _ ->. unfold current in Hc.
  destruct Hs as [|c' m cs ms Hr _]; [done|]. injection Hc as ->.
  destruct (listing_spec c m Hr) as [H1 H2]. split; [done|]. by exists m.
Qed.

Lemma env_listing_sorted_witness :
  exists outs s c, run (fun _ => true) [Set_var (chars "b") (chars "1"); Set_var (chars "a") (chars "2")] initial_state = Some (outs, s) /\
    current s = Some c /\ Sorted name_lt (grub_env_update_get_sorted c) /\
    name <$> grub_env_update_get_sorted c = [chars "a"; chars "b"].
Proof.
  eexists _, _, _. split; [vm_compute; reflexivity|]. split; [reflexivity|]. split; [|reflexivity].
  eapply (env_listing_sorted (fun _ => true) [Set_var (chars "b") (chars "1"); Set_var (chars "a") (chars "2")]).
  - repeat constructor; unfold is_char; vm_compute; try discriminate; intuition discriminate.
  - vm_compute. reflexivity.
  - reflexivity.
Defined.

End GrubEnv.
