(* ===== verification/GrubList.v ===== *)
(** Doubly linked lists of GRUB (src/grub/grub-core/kern/list.c, include/grub/list.h), with
    their pointers: the [prev] field of an element points to the variable that points to the
    element, the head of the list or the [next] field of the element before it. *)

From S2P Require Import Prelude GrubStr.

Module GrubList.
Import GrubStr.

(** A variable that holds a pointer to an element. *)
Inductive slot := Head | Next (a : Z).

#[export] Instance slot_eq_dec : EqDecision slot.
Proof. solve_decision. Defined.

Section Lists.
Context {D : Type}.

Record node := mk_node { next : option Z; prev : option slot; data : D }.

(** The head of one list, and the elements at their addresses. *)
Record store := mk_store { head_ptr : option Z; nodes : gmap Z node }.

(** [*p]; [None] when there is no such element. *)
Definition load (s : store) (p : slot) : option (option Z) :=
  match p with Head => Some (head_ptr s) | Next a => next <$> nodes s !! a end.

(** [*p = v]. *)
Definition put (s : store) (p : slot) (v : option Z) : option store :=
  match p with
  | Head => Some (mk_store v (nodes s))
  | Next a => x ← nodes s !! a; Some (mk_store (head_ptr s) (<[a := mk_node v (prev x) (data x)]> (nodes s)))
  end.

(** [a->prev = p]. *)
Definition set_prev (s : store) (a : Z) (p : option slot) : option store :=
  x ← nodes s !! a; Some (mk_store (head_ptr s) (<[a := mk_node (next x) p (data x)]> (nodes s))).

Definition set_data (s : store) (a : Z) (d : D) : option store :=
  x ← nodes s !! a; Some (mk_store (head_ptr s) (<[a := mk_node (next x) (prev x) d]> (nodes s))).

Definition grub_list_push (s : store) (head : slot) (item : Z) : option store :=
  s ← set_prev s item (Some head);
  h ← load s head;
  s ← (match h with Some h => set_prev s h (Some (Next item)) | None => Some s end);
  h ← load s head;
  s ← put s (Next item) h;
  put s head (Some item).

Definition grub_list_remove (s : store) (item : Z) : option store :=
  x ← nodes s !! item;
  s ← (match prev x with Some p => put s p (next x) | None => Some s end);
  x ← nodes s !! item;
  s ← (match next x with Some n => set_prev s n (prev x) | None => Some s end);
  s ← put s (Next item) None;
  set_prev s item None.

(** The first element of that name; the list is walked along [next]. *)
Fixpoint grub_named_list_find (fuel : nat) (s : store) (name_of : D -> list Z) (item : option Z) (n : list Z)
  : option (option Z) :=
  match item, fuel with
  | None, _ => Some None
  | Some a, S fuel =>
      x ← nodes s !! a;
      if grub_strcmp (name_of (data x)) n =? 0 then Some (Some a)
      else grub_named_list_find fuel s name_of (next x) n
  | Some _, O => None
  end.

(** * What is in the store *)

Definition prev_of (s : store) (a : Z) : option (option slot) := prev <$> nodes s !! a.
Definition data_of (s : store) (a : Z) : option D := data <$> nodes s !! a.

Lemma put_spec s p v : is_Some (load s p) -> exists s', put s p v = Some s' /\
  (forall q, load s' q = if decide (p = q) then Some v else load s q) /\
  (forall a, prev_of s' a = prev_of s a) /\ (forall a, data_of s' a = data_of s a).
Proof.
  unfold load, put, prev_of, data_of. intros Hp. destruct p as [|a].
  - eexists. split; [done|]. split; [|done]. intros [|b]; [by rewrite decide_True|by rewrite decide_False].
  - destruct (nodes s !! a) as [x|] eqn:E; [|by destruct Hp]. eexists. split; [done|]. cbn [head_ptr nodes].
    split; [|split].
    + intros [|b]; [by rewrite decide_False|]. destruct (decide (a = b)) as [->|Hne].
      * by rewrite lookup_insert_eq, decide_True.
      * rewrite lookup_insert_ne, decide_False by congruence. done.
    + intros b. destruct (decide (a = b)) as [->|Hne]; [by rewrite lookup_insert_eq, E|by rewrite lookup_insert_ne].
    + intros b. destruct (decide (a = b)) as [->|Hne]; [by rewrite lookup_insert_eq, E|by rewrite lookup_insert_ne].
Qed.

Lemma set_prev_spec s a p : is_Some (prev_of s a) -> exists s', set_prev s a p = Some s' /\
  (forall q, load s' q = load s q) /\
  (forall b, prev_of s' b = if decide (a = b) then Some p else prev_of s b) /\ (forall b, data_of s' b = data_of s b).
Proof.
  unfold load, set_prev, prev_of, data_of. intros Ha. destruct (nodes s !! a) as [x|] eqn:E; [|by destruct Ha].
  eexists. split; [done|]. cbn [head_ptr nodes]. split; [|split].
  - intros [|b]; [done|]. destruct (decide (a = b)) as [->|Hne]; [by rewrite lookup_insert_eq, E|by rewrite lookup_insert_ne].
  - intros b. destruct (decide (a = b)) as [->|Hne]; [by rewrite lookup_insert_eq|by rewrite lookup_insert_ne].
  - intros b. destruct (decide (a = b)) as [->|Hne]; [by rewrite lookup_insert_eq, E|by rewrite lookup_insert_ne].
Qed.

Lemma set_data_spec s a d : is_Some (data_of s a) -> exists s', set_data s a d = Some s' /\
  (forall q, load s' q = load s q) /\ (forall b, prev_of s' b = prev_of s b) /\
  (forall b, data_of s' b = if decide (a = b) then Some d else data_of s b).
Proof.
  unfold load, set_data, prev_of, data_of. intros Ha. destruct (nodes s !! a) as [x|] eqn:E; [|by destruct Ha].
  eexists. split; [done|]. cbn [head_ptr nodes]. split; [|split].
  - intros [|b]; [done|]. destruct (decide (a = b)) as [->|Hne]; [by rewrite lookup_insert_eq, E|by rewrite lookup_insert_ne].
  - intros b. destruct (decide (a = b)) as [->|Hne]; [by rewrite lookup_insert_eq, E|by rewrite lookup_insert_ne].
  - intros b. destruct (decide (a = b)) as [->|Hne]; [by rewrite lookup_insert_eq|by rewrite lookup_insert_ne].
Qed.

(** An element is there when any of its fields is. *)
Lemma present s a : is_Some (prev_of s a) <-> is_Some (load s (Next a)).
Proof. unfold prev_of, load. by destruct (nodes s !! a); split; intros [? ?]. Qed.

(** * Lists in the store *)

(** The elements from a slot on, up to the slot after the last of them. *)
Fixpoint part (s : store) (p : slot) (l : list Z) (q : slot) : Prop :=
  match l with
  | [] => p = q
  | a :: l => load s p = Some (Some a) /\ prev_of s a = Some (Some p) /\ part s (Next a) l q
  end.

(** All of a list. *)
Definition seg (s : store) (p : slot) (l : list Z) : Prop := exists q, part s p l q /\ load s q = Some None.

(** The slots of a part, the last one left out. *)
Fixpoint slots (p : slot) (l : list Z) : list slot := match l with [] => [] | a :: l => p :: slots (Next a) l end.

Lemma part_app s l1 l2 : forall p q, part s p (l1 ++ l2) q <-> exists r, part s p l1 r /\ part s r l2 q.
Proof.
  induction l1 as [|a l1 IH]; intros p q; cbn [app part].
  - split; [intros H; by exists p|]. by intros (r & <- & H).
  - rewrite IH. split; [intros (H1 & H2 & r & H3 & H4); by exists r|]. intros (r & (H1 & H2 & H3) & H4). eauto.
Qed.

Lemma part_end s l : forall p q, part s p l q -> q = match last l with Some a => Next a | None => p end.
Proof.
  induction l as [|a l IH]; intros p q; cbn [part]; [done|]. intros (_ & _ & H). rewrite (IH _ _ H).
  rewrite last_cons. by destruct (last l).
Qed.

Lemma part_frame s s' l : forall p q, part s p l q ->
  (forall r, r ∈ slots p l -> load s' r = load s r) -> (forall a, a ∈ l -> prev_of s' a = prev_of s a) -> part s' p l q.
Proof.
  induction l as [|a l IH]; intros p q H Hr Ha; [done|]. destruct H as (H1 & H2 & H3). split; [|split].
  - rewrite Hr by constructor. done.
  - rewrite Ha by constructor. done.
  - apply IH; [done|intros r Hin; apply Hr; by constructor|intros b Hin; apply Ha; by constructor].
Qed.

Lemma in_slots l : forall p r, r ∈ slots p l -> r = p \/ exists a, r = Next a /\ a ∈ l.
Proof.
  induction l as [|a l IH]; intros p r; cbn [slots]; [intros H; inversion H|]. intros [->|H]%elem_of_cons; [by left|].
  destruct (IH _ _ H) as [->|(b & -> & Hb)]; right; [exists a|exists b]; split; try done; by constructor.
Qed.

(** The last slot of a part is none of its other slots. *)
Lemma end_not_slot s l : forall p q, NoDup l -> (forall a, a ∈ l -> p <> Next a) -> part s p l q -> q ∉ slots p l.
Proof.
  induction l as [|a l IH]; intros p q Hnd Hp H; cbn [slots]; [intros Hin; inversion Hin|].
  apply NoDup_cons in Hnd as [Ha Hnd]. destruct H as (_ & _ & H). rewrite elem_of_cons. intros [->|Hin].
  - pose proof (part_end _ _ _ _ H) as E. destruct (last l) as [b|] eqn:El.
    + apply (Hp b); [|done]. constructor. by apply last_Some_elem_of.
    + by apply (Hp a); [constructor|].
  - revert Hin. apply IH; [done| |done]. intros b Hb [= ->]. done.
Qed.

(** ** Linking an element in, and out *)

Section Link.
Variables (s s' : store) (l1 l2 : list Z) (a : Z) (p q : slot).
Hypothesis Hnd : NoDup (l1 ++ a :: l2).
Hypothesis H1 : part s Head l1 p.

Lemma link_facts : NoDup l1 /\ NoDup l2 /\ (a ∉ l1) /\ (a ∉ l2) /\ (forall b, b ∈ l1 -> b ∉ l2) /\ p <> Next a /\
  (forall b, b ∈ l2 -> p <> Next b).
Proof.
  apply NoDup_app in Hnd as (? & Hdis & [? ?]%NoDup_cons).
  assert (forall b, b ∈ a :: l2 -> p <> Next b) as Hp.
  { intros b Hb ->. pose proof (part_end _ _ _ _ H1) as E. destruct (last l1) as [c|] eqn:El; [|done]. injection E as ->.
    apply (Hdis c); [by apply last_Some_elem_of|done]. }
  repeat split; try done.
  - intros Ha. apply (Hdis a Ha). constructor.
  - intros b Hb Hb2. apply (Hdis b Hb). by constructor.
  - apply Hp. constructor.
  - intros b Hb. apply Hp. by constructor.
Qed.

Lemma front_same : (forall r, r <> p -> r <> Next a -> load s' r = load s r) ->
  (forall b, b <> a -> head l2 <> Some b -> prev_of s' b = prev_of s b) -> part s' Head l1 p.
Proof.
  destruct link_facts as (Hn1 & _ & Ha1 & _ & Hdis & _ & _). intros Hr Hb.
  apply (part_frame s); [done| |].
  - intros r Hin. pose proof (end_not_slot s l1 Head p Hn1 (fun _ _ => ltac:(discriminate)) H1) as Hq. apply Hr; [congruence|].
    intros ->. destruct (in_slots _ _ _ Hin) as [|(b & [= E] & Hb')]; [done|]. apply Ha1. by rewrite E.
  - intros b Hin. apply Hb; [congruence|]. intros E. apply (Hdis b Hin). destruct l2; [done|]. injection E as ->. constructor.
Qed.

(** The elements after the one that moves, behind their new first slot. *)
Lemma back_same r0 r1 : part s r0 l2 q -> load s q = Some None -> (forall b, b ∈ l2 -> r0 <> Next b) ->
  load s' r1 = load s r0 ->
  (forall b, b ∈ l2 -> load s' (Next b) = load s (Next b)) ->
  (forall b, b ∈ l2 -> prev_of s' b = if decide (head l2 = Some b) then Some (Some r1) else prev_of s b) ->
  seg s' r1 l2.
Proof.
  destruct link_facts as (_ & Hn2 & _ & _ & _ & _ & _). intros H2 Hq Hr0 E Hl Hp.
  destruct l2 as [|b l]; cbn [part] in H2.
  - subst q. exists r1. by rewrite E.
  - destruct H2 as (E0 & _ & H2). apply NoDup_cons in Hn2 as [Hb Hn].
    exists q. split.
    + split; [by rewrite E|]. split; [by rewrite Hp, decide_True by constructor|].
      apply (part_frame s); [done| |].
      * intros r Hin. destruct (in_slots _ _ _ Hin) as [->|(c & -> & Hc)]; apply Hl; by constructor.
      * intros c Hc. rewrite Hp by (by constructor). rewrite decide_False; [done|]. intros [= ->]. done.
    + pose proof (part_end _ _ _ _ H2) as Eq. destruct (last l) as [c|] eqn:El; subst q; rewrite Hl; try done; constructor.
      by apply last_Some_elem_of.
Qed.

Lemma link_in : part s p l2 q -> load s q = Some None ->
  (forall r, load s' r = if decide (r = p) then Some (Some a) else if decide (r = Next a) then load s p else load s r) ->
  (forall b, prev_of s' b = if decide (b = a) then Some (Some p) else
     if decide (head l2 = Some b) then Some (Some (Next a)) else prev_of s b) ->
  seg s' Head (l1 ++ a :: l2).
Proof.
  intros H2 Hq Hl Hp. destruct link_facts as (_ & _ & _ & Ha2 & _ & Hpa & Hp2).
  assert (part s' Head l1 p) as F.
  { apply front_same; [intros r ? ?; by rewrite Hl, !decide_False|intros b ? ?; by rewrite Hp, !decide_False]. }
  destruct (back_same p (Next a) H2 Hq) as (q' & B & Bq).
  - done.
  - rewrite Hl. rewrite decide_False, decide_True by congruence. done.
  - intros b Hb. rewrite Hl, !decide_False by (try congruence; apply not_eq_sym, Hp2, Hb). done.
  - intros b Hb. rewrite Hp, decide_False by congruence. done.
  - exists q'. split; [|done]. apply part_app. exists p. split; [done|]. cbn [part].
    rewrite Hl, Hp, !decide_True by done. done.
Qed.

Lemma link_out : part s (Next a) l2 q -> load s q = Some None ->
  (forall r, load s' r = if decide (r = Next a) then Some None else if decide (r = p) then load s (Next a) else load s r) ->
  (forall b, prev_of s' b = if decide (b = a) then Some None else
     if decide (head l2 = Some b) then Some (Some p) else prev_of s b) ->
  seg s' Head (l1 ++ l2).
Proof.
  intros H2 Hq Hl Hp. destruct link_facts as (_ & _ & _ & Ha2 & _ & Hpa & Hp2).
  assert (part s' Head l1 p) as F.
  { apply front_same; [intros r ? ?; by rewrite Hl, !decide_False|intros b ? ?; by rewrite Hp, !decide_False]. }
  destruct (back_same (Next a) p H2 Hq) as (q' & B & Bq).
  - intros b Hb [= ->]. done.
  - rewrite Hl. rewrite decide_False, decide_True by congruence. done.
  - intros b Hb. rewrite Hl, !decide_False by (try congruence; apply not_eq_sym, Hp2, Hb). done.
  - intros b Hb. rewrite Hp, decide_False by congruence. done.
  - exists q'. split; [|done]. apply part_app. by exists p.
Qed.
End Link.

(** ** The operations *)

Definition same_data (s s' : store) : Prop := forall b, data_of s' b = data_of s b.

(** The store a list needs: its elements are there. *)
Lemma part_present s l : forall p q b, part s p l q -> b ∈ l -> is_Some (prev_of s b).
Proof.
  induction l as [|a l IH]; intros p q b H Hb; [inversion Hb|]. destruct H as (_ & E & H).
  apply elem_of_cons in Hb as [->|Hb]; [by rewrite E|by eapply IH].
Qed.

Lemma part_slot s l p q : is_Some (load s p) -> part s p l q -> is_Some (load s q).
Proof.
  intros Hp H. rewrite (part_end _ _ _ _ H). destruct (last l) as [b|] eqn:E; [|done].
  apply present. eapply part_present; [done|]. by apply last_Some_elem_of.
Qed.

Lemma head_load s p l q : part s p l q -> load s q = Some None -> load s p = Some (head l).
Proof. destruct l as [|a l]; [by intros <-|]. by intros (-> & _). Qed.

(** [grub_list_push] puts an element that is in no list in front. *)
Lemma list_push_spec s l a : seg s Head l -> NoDup (a :: l) -> is_Some (prev_of s a) ->
  exists s', grub_list_push s Head a = Some s' /\ seg s' Head (a :: l) /\ same_data s s'.
Proof.
  intros (q & H & Hq) Hnd Ha. unfold grub_list_push. pose proof (head_load _ _ _ _ H Hq) as Eh.
  pose proof (proj1 (NoDup_cons _ _) Hnd) as [Hal _].
  destruct (set_prev_spec s a (Some Head) Ha) as (s1 & -> & L1 & P1 & D1). step. rewrite L1, Eh. step.
  assert (exists s2, match head l with Some h => set_prev s1 h (Some (Next a)) | None => Some s1 end = Some s2 /\
    (forall r, load s2 r = load s1 r) /\ (forall b, prev_of s2 b = if decide (head l = Some b) then Some (Some (Next a)) else prev_of s1 b) /\
    same_data s1 s2) as (s2 & -> & L2 & P2 & D2).
  { destruct l as [|h l]; [by exists s1|]. cbn [head].
    destruct (set_prev_spec s1 h (Some (Next a))) as (s2 & -> & L2 & P2 & D2).
    - rewrite P1, decide_False by (intros ->; apply Hal; constructor). eapply part_present; [done|constructor].
    - exists s2. repeat split; try done. intros b. rewrite P2.
      destruct (decide (h = b)) as [->|]; [by rewrite decide_True|by rewrite decide_False by congruence]. }
  step. rewrite L2, L1, Eh. step.
  destruct (put_spec s2 (Next a) (head l)) as (s3 & -> & L3 & P3 & D3).
  { apply present. rewrite P2, P1. destruct (decide (head l = Some a)); [by eexists|]. rewrite decide_True by done. by eexists. }
  step. destruct (put_spec s3 Head (Some a)) as (s4 & -> & L4 & P4 & D4); [by rewrite L3, L2, L1, Eh|].
  exists s4. split; [done|]. split; [|intros b; by rewrite D4, D3, D2, D1].
  apply (link_in s s4 [] l a Head q Hnd eq_refl H Hq).
  - intros r. rewrite L4, L3, L2, L1, Eh. destruct (decide (Head = r)) as [<-|]; [by rewrite decide_True|].
    rewrite (decide_False (P := r = Head)) by congruence. destruct (decide (Next a = r)) as [<-|]; [by rewrite decide_True|].
    by rewrite decide_False by congruence.
  - intros b. rewrite P4, P3, P2, P1. destruct (decide (a = b)) as [<-|]; [rewrite (decide_False (P := head l = Some a))|by rewrite (decide_False (P := b = a)) by congruence].
    + by rewrite !decide_True.
    + intros E. destruct l; [done|]. injection E as ->. apply Hal. constructor.
Qed.

(** [grub_list_remove] takes an element of the list out, and leaves its links empty. *)
Lemma list_remove_spec s l1 l2 a : seg s Head (l1 ++ a :: l2) -> NoDup (l1 ++ a :: l2) ->
  exists s', grub_list_remove s a = Some s' /\ seg s' Head (l1 ++ l2) /\ same_data s s'.
Proof.
  intros (q & H & Hq) Hnd. apply part_app in H as (p & H1 & Ep & Pa & H2).
  destruct (link_facts s l1 l2 a p Hnd H1) as (_ & _ & _ & Ha2 & _ & Hpa & _).
  pose proof (head_load _ _ _ _ H2 Hq) as En. unfold grub_list_remove.
  unfold load in En. unfold prev_of in Pa. destruct (nodes s !! a) as [x|] eqn:Ex; [|done]. injection En as En. injection Pa as Pa.
  step. rewrite Pa, En.
  destruct (put_spec s p (head l2)) as (s1 & -> & L1 & P1 & D1); [by rewrite Ep|]. step.
  assert (exists x1, nodes s1 !! a = Some x1 /\ next x1 = head l2 /\ prev x1 = Some p) as (x1 & -> & En1 & Pa1).
  { pose proof (L1 (Next a)) as E1. pose proof (P1 a) as E2. unfold prev_of in E2. rewrite Ex in E2. cbn in E2.
    rewrite decide_False in E1 by done. cbn [load] in E1. rewrite Ex in E1. cbn in E1.
    destruct (nodes s1 !! a) as [x1|]; [|done]. exists x1. injection E1 as ->. injection E2 as ->. by rewrite En, Pa. }
  step. rewrite En1, Pa1.
  assert (exists s2, match head l2 with Some n => set_prev s1 n (Some p) | None => Some s1 end = Some s2 /\
    (forall r, load s2 r = load s1 r) /\ (forall b, prev_of s2 b = if decide (head l2 = Some b) then Some (Some p) else prev_of s1 b) /\
    same_data s1 s2) as (s2 & -> & L2 & P2 & D2).
  { destruct l2 as [|n l2]; [by exists s1|]. cbn [head].
    destruct (set_prev_spec s1 n (Some p)) as (s2 & -> & L2 & P2 & D2).
    - rewrite P1. eapply part_present; [done|constructor].
    - exists s2. repeat split; try done. intros b. rewrite P2.
      destruct (decide (n = b)) as [->|]; [by rewrite decide_True|by rewrite decide_False by congruence]. }
  step. assert (load s (Next a) = Some (head l2)) as Es by (cbn [load]; rewrite Ex; cbn; by rewrite En).
  destruct (put_spec s2 (Next a) None) as (s3 & -> & L3 & P3 & D3); [rewrite L2, L1, decide_False by done; by rewrite Es|]. step.
  destruct (set_prev_spec s3 a None) as (s4 & -> & L4 & P4 & D4).
  { rewrite P3, P2. destruct (decide (head l2 = Some a)); [by eexists|]. rewrite P1. unfold prev_of. rewrite Ex. by eexists. }
  exists s4. split; [done|]. split; [|intros b; by rewrite D4, D3, D2, D1].
  apply (link_out s s4 l1 l2 a p q Hnd H1 H2 Hq).
  - intros r. rewrite L4, L3, L2, L1, Es. destruct (decide (Next a = r)) as [<-|]; [by rewrite decide_True|].
    rewrite (decide_False (P := r = Next a)) by congruence. destruct (decide (p = r)) as [<-|]; [by rewrite decide_True|].
    by rewrite decide_False by congruence.
  - intros b. rewrite P4, P3, P2, P1. destruct (decide (a = b)) as [<-|]; [by rewrite decide_True|].
    by rewrite (decide_False (P := b = a)) by congruence.
Qed.

End Lists.
Arguments node : clear implicits.
Arguments store : clear implicits.
(** Pushing and removing keep the links of a list right in both directions: after
    [grub_list_push] of an element that is in no list it comes first, and [grub_list_remove]
    then takes out any one element, the pushed one or another, from the front, the middle or
    the end, and leaves the others in order and their contents alone. *)
Theorem list_push_remove_correct {D} (s : store D) l a :
  seg s Head l -> NoDup (a :: l) -> is_Some (prev_of s a) ->
  exists s1, grub_list_push s Head a = Some s1 /\ seg s1 Head (a :: l) /\ same_data s s1 /\
    forall l1 b l2, a :: l = l1 ++ b :: l2 ->
      exists s2, grub_list_remove s1 b = Some s2 /\ seg s2 Head (l1 ++ l2) /\ same_data s s2.
Proof.
  intros Hl Hnd Ha. destruct (list_push_spec s l a Hl Hnd Ha) as (s1 & E1 & H1 & D1). exists s1. repeat split; try done.
  intros l1 b l2 E. rewrite E in *. destruct (list_remove_spec s1 l1 l2 b H1 Hnd) as (s2 & E2 & H2 & D2).
  exists s2. repeat split; try done. intros c. by rewrite D2, D1.
Qed.

(** Two elements in a list, and a third that is in none. *)
Definition sample_store : store unit :=
  mk_store (Some 8) (list_to_map [(8, mk_node (Some 16) (Some Head) tt); (16, mk_node None (Some (Next 8)) tt); (24, mk_node None None tt)]).

Lemma list_push_remove_correct_witness :
  exists s1 s2, grub_list_push sample_store Head 24 = Some s1 /\ grub_list_remove s1 8 = Some s2 /\ seg s2 Head [24; 16].
Proof.
  destruct (list_push_remove_correct sample_store [8; 16] 24) as (s1 & E1 & _ & _ & H).
  - exists (Next 16). by repeat split.
  - apply (bool_decide_eq_true_1 _). vm_compute. reflexivity.
  - by eexists.
  - destruct (H [24] 8 [16] eq_refl) as (s2 & E2 & H2 & _). by exists s1, s2.
Defined.

End GrubList.
