(* ===== verification/GrubCommand.v ===== *)
(** The command table of GRUB (src/grub/grub-core/kern/command.c, include/grub/command.h): one
    doubly linked list, ordered by name and priority.

    The address of a new command is what the allocator returned, [None] for NULL.  Strings that
    the table only keeps (summary and description) may be NULL too. *)

From stdpp Require Import sorting.
From S2P Require Import Prelude GrubStr GrubNum GrubStrOrder GrubList.

Module GrubCommand.
Import GrubStr GrubNum GrubStrOrder GrubList.

Definition GRUB_COMMAND_PRIO_MASK : Z := 0xff.
Definition GRUB_COMMAND_FLAG_ACTIVE : Z := 0x100.

(** The function of a command. *)
Inductive callback := Callback (address : Z) | grub_cmd_lockdown.

Record grub_command := mk_command {
  name : list Z;
  prio : Z;
  func : callback;
  flags : Z;
  summary : list Z;
  description : option (list Z)
}.

Definition set_prio (p : Z) (c : grub_command) : grub_command :=
  mk_command (name c) p (func c) (flags c) (summary c) (description c).

Abbreviation table := (store grub_command).

(** The loop over the list: where the command goes, and whether an earlier one of the same name
    has a higher priority. *)
Fixpoint find_place (fuel : nat) (s : table) (cmd : grub_command) (p : slot) (q : option Z) (inactive : bool)
  : option (table * slot * option Z * bool) :=
  match q, fuel with
  | None, _ => Some (s, p, q, inactive)
  | Some a, S fuel =>
      x ← nodes s !! a;
      let r := grub_strcmp (name cmd) (name (data x)) in
      if r <? 0 then Some (s, p, q, inactive)
      else if 0 <? r then find_place fuel s cmd (Next a) (next x) inactive
      else if Z.land (prio (data x)) GRUB_COMMAND_PRIO_MASK <=? prio cmd then
        s ← set_data s a (set_prio (Z.land (prio (data x)) (Z.lnot GRUB_COMMAND_FLAG_ACTIVE)) (data x));
        Some (s, p, q, inactive)
      else find_place fuel s cmd (Next a) (next x) true
  | Some _, O => None
  end.

Definition grub_register_command_prio (address : option Z) (s : table) (n : list Z) (f : callback)
  (summary description : option (list Z)) (prio : Z) : option (option Z * table) :=
  match address with
  | None => Some (None, s)
  | Some a =>
      let cmd := mk_command n prio f 0 (default [] summary) description in
      let s := mk_store (head_ptr s) (<[a := mk_node None None cmd]> (nodes s)) in
      '(s, p, q, inactive) ← find_place (S (size (nodes s))) s cmd Head (head_ptr s) false;
      s ← put s p (Some a);
      s ← put s (Next a) q;
      s ← (match q with Some q => set_prev s q (Some (Next a)) | None => Some s end);
      s ← set_prev s a (Some p);
      s ← (if (inactive : bool) then Some s else set_data s a (set_prio (Z.lor prio GRUB_COMMAND_FLAG_ACTIVE) cmd));
      Some (Some a, s)
  end.

Definition grub_register_command_lockdown (lockdown : bool) (address : option Z) (s : table) (n : list Z) (f : callback)
  (summary description : option (list Z)) : option (option Z * table) :=
  grub_register_command_prio address s n (if lockdown then grub_cmd_lockdown else f) summary description 0.

Definition grub_register_command address s n f summary description :=
  grub_register_command_prio address s n f summary description 0.
Definition grub_register_command_p1 address s n f summary description :=
  grub_register_command_prio address s n f summary description 1.

Definition is_active (p : Z) : bool := negb (Z.land p GRUB_COMMAND_FLAG_ACTIVE =? 0).

Definition grub_unregister_command (s : table) (cmd : option Z) : option table :=
  match cmd with
  | None => Some s
  | Some a =>
      x ← nodes s !! a;
      s ← (match is_active (prio (data x)), next x with
           | true, Some b =>
               y ← nodes s !! b;
               set_data s b (set_prio (Z.lor (prio (data y)) GRUB_COMMAND_FLAG_ACTIVE) (data y))
           | _, _ => Some s
           end);
      s ← grub_list_remove s a;
      Some (mk_store (head_ptr s) (delete a (nodes s)))
  end.

Definition grub_command_find (s : table) (n : list Z) : option (option Z) :=
  grub_named_list_find (S (size (nodes s))) s name (head_ptr s) n.

(** * The commands of a table *)

(** A command with the priority it was registered with, and when. *)
Record entry := mk_entry { e_addr : Z; e_cmd : grub_command; e_time : nat }.

Definition e_name (e : entry) : list Z := name (e_cmd e).
Definition e_prio (e : entry) : Z := prio (e_cmd e).

Definition good_entry (e : entry) : Prop := cstr (e_name e) /\ 0 <= e_prio e < 256.

(** The first goes before the second: by name; for one name the higher priority, then the later. *)
Definition before (e f : entry) : Prop :=
  grub_strcmp (e_name e) (e_name f) < 0 \/
  (e_name e = e_name f /\ (e_prio f < e_prio e \/ (e_prio f = e_prio e /\ (e_time f < e_time e)%nat))).

(** What the table holds for the entries: the first of each name is active. *)
Definition stored1 (pn : option (list Z)) (e : entry) : grub_command :=
  set_prio (e_prio e + (if decide (pn = Some (e_name e)) then 0 else GRUB_COMMAND_FLAG_ACTIVE)) (e_cmd e).

Fixpoint stored (s : table) (pn : option (list Z)) (l : list entry) : Prop :=
  match l with
  | [] => True
  | e :: l => data_of s (e_addr e) = Some (stored1 pn e) /\ stored s (Some (e_name e)) l
  end.

Record holds (s : table) (l : list entry) : Prop := mk_holds {
  h_seg : seg s Head (e_addr <$> l);
  h_nodup : NoDup (e_addr <$> l);
  h_sorted : StronglySorted before l;
  h_good : Forall good_entry l;
  h_stored : stored s None l;
  h_dom : forall a, is_Some (data_of s a) -> a ∈ e_addr <$> l
}.

Lemma before_trans e f g : good_entry e -> good_entry f -> good_entry g -> before e f -> before f g -> before e g.
Proof.
  intros [He _] [Hf _] [Hg _] [H1|[E1 H1]] [H2|[E2 H2]].
  - left. by apply (strcmp_trans _ (e_name f)).
  - left. by rewrite <- E2.
  - left. by rewrite E1.
  - right. split; [congruence|]. lia.
Qed.

(** The flag in the priority. *)
Lemma flag_bits b (fl : bool) : 0 <= b < 256 ->
  let p := b + (if fl then 0 else GRUB_COMMAND_FLAG_ACTIVE) in
  Z.land p GRUB_COMMAND_PRIO_MASK = b /\ is_active p = negb fl /\
  Z.land p (Z.lnot GRUB_COMMAND_FLAG_ACTIVE) = b /\ Z.lor p GRUB_COMMAND_FLAG_ACTIVE = b + GRUB_COMMAND_FLAG_ACTIVE.
Proof.
  intros Hb. pose (P := fun (fl : bool) b => let p := b + (if fl then 0 else GRUB_COMMAND_FLAG_ACTIVE) in
    bool_decide (Z.land p GRUB_COMMAND_PRIO_MASK = b /\ is_active p = negb fl /\
     Z.land p (Z.lnot GRUB_COMMAND_FLAG_ACTIVE) = b /\ Z.lor p GRUB_COMMAND_FLAG_ACTIVE = b + GRUB_COMMAND_FLAG_ACTIVE)).
  assert (P fl b = true) as HP by (destruct fl; (apply ztest_spec with 256; [vm_compute; reflexivity|lia])).
  by apply bool_decide_eq_true in HP.
Qed.

Lemma stored1_prio pn e : 0 <= e_prio e < 256 ->
  Z.land (prio (stored1 pn e)) GRUB_COMMAND_PRIO_MASK = e_prio e /\
  is_active (prio (stored1 pn e)) = bool_decide (pn <> Some (e_name e)) /\
  Z.land (prio (stored1 pn e)) (Z.lnot GRUB_COMMAND_FLAG_ACTIVE) = e_prio e /\
  Z.lor (prio (stored1 pn e)) GRUB_COMMAND_FLAG_ACTIVE = e_prio e + GRUB_COMMAND_FLAG_ACTIVE.
Proof.
  intros Hp. unfold stored1. cbn [prio set_prio]. destruct (decide (pn = Some (e_name e))).
  - rewrite bool_decide_false by tauto. apply (flag_bits (e_prio e) true Hp).
  - rewrite bool_decide_true by done. apply (flag_bits (e_prio e) false Hp).
Qed.

(** Only the data of the entries matter. *)
Lemma stored_ext s s' l : forall pn, (forall e, e ∈ l -> data_of s' (e_addr e) = data_of s (e_addr e)) ->
  stored s pn l -> stored s' pn l.
Proof.
  induction l as [|e l IH]; intros pn Hd; [done|]. intros [H1 H2]. split; [by rewrite Hd by constructor|].
  apply IH; [|done]. intros f Hf. apply Hd. by constructor.
Qed.

Definition last_name (pn : option (list Z)) (l : list entry) : option (list Z) :=
  match last l with Some e => Some (e_name e) | None => pn end.

Lemma stored_app s l1 l2 : forall pn, stored s pn (l1 ++ l2) <-> stored s pn l1 /\ stored s (last_name pn l1) l2.
Proof.
  induction l1 as [|e l1 IH]; intros pn; cbn [app stored]; [unfold last_name; cbn; tauto|]. rewrite IH. unfold last_name.
  rewrite last_cons. destruct (last l1); tauto.
Qed.
(** ** Finding the place of a new command *)

Definition name_le (pn : option (list Z)) (n : list Z) : Prop :=
  match pn with Some m => cstr m /\ grub_strcmp m n <= 0 | None => True end.

(** What [find_place] returns for the entries [la ++ lb] from slot [p] on. *)
Record placed (s s' : table) (e : entry) (p p' : slot) (pn : option (list Z)) (la lb : list entry) : Prop := mk_placed {
  pl_load : forall r, load s' r = load s r;
  pl_prev : forall b, prev_of s' b = prev_of s b;
  pl_part : part s p (e_addr <$> la) p';
  pl_la : Forall (fun f => before f e) la;
  pl_lb : Forall (before e) lb;
  pl_data : forall b, b ∉ e_addr <$> lb -> data_of s' b = data_of s b;
  pl_stored_a : stored s' pn la;
  pl_stored_b : stored s' (Some (e_name e)) lb
}.

Lemma set_prio_twice p q c : set_prio p (set_prio q c) = set_prio p c.
Proof. done. Qed.

Lemma stored1_other pn n f : cstr (e_name f) -> name_le pn n -> grub_strcmp n (e_name f) < 0 ->
  stored1 pn f = stored1 (Some n) f.
Proof.
  intros Hf Hpn Hlt. unfold stored1. rewrite !decide_False; [done| |].
  - intros [= ->]. rewrite (strcmp_refl _ Hf) in Hlt. lia.
  - intros ->. destruct Hpn as [_ Hle]. rewrite strcmp_opp in Hle. lia.
Qed.

Lemma node_data s a x (d : grub_command) : nodes s !! a = Some x -> data_of s a = Some d -> data x = d.
Proof. unfold data_of. intros -> [= <-]. done. Qed.

Lemma node_next {D} (s : store D) a x v : nodes s !! a = Some x -> load s (Next a) = Some v -> next x = v.
Proof. cbn [load]. intros -> [= <-]. done. Qed.

(** One more entry in front. *)
Lemma last_name_cons pn f la : last_name pn (f :: la) = last_name (Some (e_name f)) la.
Proof. unfold last_name. rewrite last_cons. by destruct (last la). Qed.

Lemma placed_cons s s' e f p p' pn la lb : load s p = Some (Some (e_addr f)) -> prev_of s (e_addr f) = Some (Some p) ->
  data_of s (e_addr f) = Some (stored1 pn f) -> (e_addr f ∉ e_addr <$> lb) -> before f e ->
  placed s s' e (Next (e_addr f)) p' (Some (e_name f)) la lb -> placed s s' e p p' pn (f :: la) lb.
Proof.
  intros Lp Pf Df Hlb Hb [P1 P2 P3 P4 P5 P6 P7 P8]. split; try done.
  - by constructor.
  - split; [|done]. by rewrite P6.
Qed.

(** The place in front of a command of the same name that is not better: it is no longer active. *)
Lemma placed_before s e f l p pn : data_of s (e_addr f) = Some (stored1 pn f) -> (e_addr f ∉ e_addr <$> l) -> e_name e = e_name f ->
  Forall (before e) (f :: l) -> stored s (Some (e_name f)) l ->
  exists s', set_data s (e_addr f) (set_prio (e_prio f) (stored1 pn f)) = Some s' /\ placed s s' e p p pn [] (f :: l).
Proof.
  intros Df Hfl En Hall Hst.
  destruct (set_data_spec s (e_addr f) (set_prio (e_prio f) (stored1 pn f))) as (s' & E & L & P & D); [by rewrite Df|].
  exists s'. split; [done|]. split; try done.
  - intros b Hb. rewrite D, decide_False; [done|]. intros Eb. apply Hb. rewrite <- Eb. constructor.
  - split.
    + rewrite D, decide_True by done. unfold stored1 at 2. by rewrite decide_True, Z.add_0_r by congruence.
    + apply (stored_ext s); [|done]. intros g Hgl. rewrite D, decide_False; [done|]. intros Eg. apply Hfl.
      rewrite Eg. by apply list_elem_of_fmap_2.
Qed.

Lemma find_place_spec s cmd e q : e_cmd e = cmd -> good_entry e -> load s q = Some None ->
  forall l fuel p pn inactive,
  part s p (e_addr <$> l) q -> NoDup (e_addr <$> l) -> Forall good_entry l -> StronglySorted before l -> stored s pn l ->
  (forall f, f ∈ l -> (e_time f < e_time e)%nat) -> (length l <= fuel)%nat ->
  name_le pn (e_name e) -> inactive = bool_decide (pn = Some (e_name e)) ->
  (inactive = true -> forall f, f ∈ l -> 0 <= grub_strcmp (e_name f) (e_name e)) ->
  exists s' p' la lb, l = la ++ lb /\
    find_place fuel s cmd p (head (e_addr <$> l)) inactive
    = Some (s', p', head (e_addr <$> lb), bool_decide (last_name pn la = Some (e_name e))) /\
    placed s s' e p p' pn la lb.
Proof.
  intros Ecmd [Hce Hpe] Hq l. induction l as [|f l IH]; intros fuel p pn inactive Hl Hnd Hg Hs Hst Ht Hfuel Hpn Hin Hina.
  { exists s, p, [], []. split; [done|]. split; [by destruct fuel; rewrite Hin|]. by split. }
  destruct fuel as [|fuel]; [cbn in Hfuel; lia|].
  rewrite fmap_cons in *. destruct Hl as (Lp & Pf & Hl). apply NoDup_cons in Hnd as [Hfl Hnd].
  apply Forall_cons in Hg as [[Hcf Hpf] Hg]. apply StronglySorted_inv in Hs as [Hs Hfs]. destruct Hst as [Df Hst].
  pose proof (head_load _ _ _ _ Hl Hq) as Ln.
  cbn [head find_place]. unfold prev_of in Pf. destruct (nodes s !! e_addr f) as [x|] eqn:Ex; [|done]. step.
  rewrite (node_data _ _ _ _ Ex Df), (node_next _ _ _ _ Ex Ln). rewrite <- Ecmd.
  change (name (e_cmd e)) with (e_name e). change (name (stored1 pn f)) with (e_name f).
  assert (forall g, g ∈ l -> before e f -> before e g) as Htr.
  { intros g Hgl He. rewrite Forall_forall in Hg, Hfs. by apply (before_trans e f g); [split|split|apply Hg|..|apply Hfs]. }
  assert (before e f -> Forall (before e) (f :: l)) as Hall.
  { intros He. constructor; [done|]. apply Forall_forall. eauto. }
  destruct (stored1_prio pn f Hpf) as (Hmask & _ & Hclear & _). rewrite Hmask, Hclear.
  destruct (Z.ltb_spec (grub_strcmp (e_name e) (e_name f)) 0) as [Hlt|Hge].
  { exists s, p, [], (f :: l). split; [done|]. split; [by rewrite Hin|]. split; try done.
    - apply Hall. by left.
    - split; [|done]. by rewrite <- (stored1_other pn (e_name e) f). }
  assert (forall inactive', (length l <= fuel)%nat -> before f e -> inactive' = bool_decide (e_name f = e_name e) ->
    (inactive' = true -> forall g, g ∈ l -> 0 <= grub_strcmp (e_name g) (e_name e)) ->
    exists s' p' la lb, f :: l = la ++ lb /\
      find_place fuel s (e_cmd e) (Next (e_addr f)) (head (e_addr <$> l)) inactive'
      = Some (s', p', head (e_addr <$> lb), bool_decide (last_name pn la = Some (e_name e))) /\
      placed s s' e p p' pn la lb) as Hnext.
  { intros inactive' Hf Hb Hi Hia.
    destruct (IH fuel (Next (e_addr f)) (Some (e_name f)) inactive') as (s' & p' & la & lb & -> & E & P); try done.
    - intros g Hgl. apply Ht. by constructor.
    - split; [done|]. rewrite strcmp_opp. lia.
    - rewrite Hi. apply bool_decide_ext. split; congruence.
    - rewrite <- Ecmd in E. rewrite E. exists s', p', (f :: la), lb. rewrite last_name_cons. split; [done|]. split; [done|].
      apply placed_cons; try done.
      + unfold prev_of. by rewrite Ex.
      + intros Hin'. apply Hfl. rewrite fmap_app. apply elem_of_app. by right. }
  cbn [length] in Hfuel. destruct (Z.ltb_spec 0 (grub_strcmp (e_name e) (e_name f))) as [Hgt|Hle].
  - assert (e_name f <> e_name e) as Hne.
    { intros E. rewrite (proj2 (strcmp_zero _ _ Hce Hcf)) in Hgt by done. lia. }
    apply Hnext; [lia| | |].
    + left. rewrite strcmp_opp. lia.
    + rewrite (bool_decide_false (e_name f = e_name e)) by done. destruct inactive; [|done].
      specialize (Hina eq_refl f (list_elem_of_here _ _)). rewrite strcmp_opp in Hina. lia.
    + intros ->. specialize (Hina eq_refl f (list_elem_of_here _ _)). rewrite strcmp_opp in Hina. lia.
  - assert (e_name e = e_name f) as En.
    { apply strcmp_zero; [done..|lia]. }
    change (prio (e_cmd e)) with (e_prio e). destruct (Z.leb_spec (e_prio f) (e_prio e)) as [Hp|Hp].
    + destruct (placed_before s e f l p pn Df Hfl En) as (s' & -> & P); [|done|].
      { apply Hall. right. split; [done|]. pose proof (Ht f (list_elem_of_here _ _)). lia. }
      step. exists s', p, [], (f :: l). split; [done|]. split; [by rewrite Hin|done].
    + apply Hnext; [lia| |by rewrite bool_decide_true|].
      * right. split; [done|]. lia.
      * intros _ g Hgl. rewrite Forall_forall in Hfs. destruct (Hfs g Hgl) as [Hb|[Hb _]].
        -- rewrite En, strcmp_opp. lia.
        -- rewrite En, <- Hb, strcmp_refl by done. lia.
Qed.
(** ** Registering *)

Lemma present_nodes {D} (s : store D) p l q : part s p l q -> forall a, a ∈ l -> is_Some (nodes s !! a).
Proof. intros H a Ha. pose proof (part_present _ _ _ _ _ H Ha) as [x Hx]. unfold prev_of in Hx. by destruct (nodes s !! a). Qed.

Lemma length_nodes {D} (s : store D) p l q : part s p l q -> NoDup l -> (length l <= size (nodes s))%nat.
Proof.
  intros H Hnd. rewrite <- (size_dom (D := gset Z) (nodes s)). rewrite <- (size_list_to_set (C := gset Z) l Hnd).
  apply subseteq_size. intros a Ha%elem_of_list_to_set. apply elem_of_dom. by eapply present_nodes.
Qed.

(** A store with one more element, linked nowhere. *)
Lemma new_node s a (x : node grub_command) : nodes s !! a = None -> let s' := mk_store (head_ptr s) (<[a := x]> (nodes s)) in
  (forall r, r <> Next a -> load s' r = load s r) /\ (forall b, b <> a -> prev_of s' b = prev_of s b) /\
  (forall b, b <> a -> data_of s' b = data_of s b) /\ load s' (Next a) = Some (next x) /\ data_of s' a = Some (data x).
Proof.
  intros Ha s'. unfold load, prev_of, data_of, s'. cbn [head_ptr nodes]. rewrite !lookup_insert_eq.
  repeat split; try done.
  - intros [|b] Hb; [done|]. by rewrite lookup_insert_ne by congruence.
  - intros b Hb. by rewrite lookup_insert_ne by congruence.
  - intros b Hb. by rewrite lookup_insert_ne by congruence.
Qed.

(** The assignments that link the new command in. *)
Lemma link_steps (s : table) la lb a p q : NoDup (la ++ a :: lb) -> part s Head la p -> part s p lb q -> load s q = Some None ->
  is_Some (load s (Next a)) ->
  exists s1 s2 s3 s4, put s p (Some a) = Some s1 /\ put s1 (Next a) (head lb) = Some s2 /\
    match head lb with Some b => set_prev s2 b (Some (Next a)) | None => Some s2 end = Some s3 /\
    set_prev s3 a (Some p) = Some s4 /\ seg s4 Head (la ++ a :: lb) /\ same_data s s4.
Proof.
  intros Hnd H1 H2 Hq Ha. destruct (link_facts s la lb a p Hnd H1) as (_ & _ & _ & Ha2 & _ & Hpa & _).
  pose proof (head_load _ _ _ _ H2 Hq) as Ep.
  destruct (put_spec s p (Some a)) as (s1 & E1 & L1 & P1 & D1); [by rewrite Ep|].
  destruct (put_spec s1 (Next a) (head lb)) as (s2 & E2 & L2 & P2 & D2); [by rewrite L1, decide_False by done|].
  assert (exists s3, match head lb with Some b => set_prev s2 b (Some (Next a)) | None => Some s2 end = Some s3 /\
    (forall r, load s3 r = load s2 r) /\ (forall b, prev_of s3 b = if decide (head lb = Some b) then Some (Some (Next a)) else prev_of s2 b) /\
    same_data s2 s3) as (s3 & E3 & L3 & P3 & D3).
  { destruct lb as [|b lb]; [by exists s2|]. cbn [head].
    destruct (set_prev_spec s2 b (Some (Next a))) as (s3 & E3 & L3 & P3 & D3).
    - rewrite P2, P1. eapply part_present; [done|constructor].
    - exists s3. repeat split; try done. intros c. rewrite P3.
      destruct (decide (b = c)) as [->|]; [by rewrite decide_True|by rewrite decide_False by congruence]. }
  destruct (set_prev_spec s3 a (Some p)) as (s4 & E4 & L4 & P4 & D4).
  { rewrite P3. destruct (decide _); [by eexists|]. rewrite P2, P1. by apply present. }
  exists s1, s2, s3, s4. repeat split; try done; [|intros b; by rewrite D4, D3, D2, D1].
  apply (link_in s s4 la lb a p q Hnd H1 H2 Hq).
  - intros r. rewrite L4, L3, L2, L1, Ep. destruct (decide (Next a = r)) as [<-|].
    + by rewrite decide_False, decide_True by congruence.
    + rewrite (decide_False (P := r = Next a)) by congruence. destruct (decide (p = r)) as [<-|]; [by rewrite decide_True|].
      by rewrite decide_False by congruence.
  - intros b. rewrite P4, P3, P2, P1. destruct (decide (a = b)) as [<-|]; [by rewrite decide_True|].
    by rewrite (decide_False (P := b = a)) by congruence.
Qed.

Lemma seg_ext {D} (s s' : store D) p l : (forall r, load s' r = load s r) -> (forall b, prev_of s' b = prev_of s b) ->
  seg s p l -> seg s' p l.
Proof. intros Hl Hp (q & H & Hq). exists q. split; [by apply (part_frame s)|by rewrite Hl]. Qed.

Lemma sorted_insert la lb e : StronglySorted before (la ++ lb) -> Forall (fun f => before f e) la -> Forall (before e) lb ->
  StronglySorted before (la ++ e :: lb).
Proof.
  induction la as [|f la IH]; intros Hs Ha Hb; [by constructor|]. cbn [app] in *.
  apply StronglySorted_inv in Hs as [Hs Hf]. apply Forall_cons in Ha as [Hfe Ha].
  apply Forall_app in Hf as [Hf1 Hf2]. constructor; [by apply IH|]. apply Forall_app. split; [done|]. by constructor.
Qed.

(** The first command of its name is marked active. *)
Lemma mark_active s pn e : 0 <= e_prio e < 256 -> data_of s (e_addr e) = Some (e_cmd e) ->
  exists s', (if bool_decide (pn = Some (e_name e)) then Some s
      else set_data s (e_addr e) (set_prio (Z.lor (e_prio e) GRUB_COMMAND_FLAG_ACTIVE) (e_cmd e))) = Some s' /\
    (forall r, load s' r = load s r) /\ (forall b, prev_of s' b = prev_of s b) /\
    (forall b, data_of s' b = if decide (e_addr e = b) then Some (stored1 pn e) else data_of s b).
Proof.
  intros Hpr De. unfold stored1. destruct (flag_bits (e_prio e) true Hpr) as (_ & _ & _ & Hor). cbv zeta in Hor. rewrite Z.add_0_r in Hor.
  case_bool_decide as Hb.
  - exists s. rewrite decide_True by done. repeat split; try done. intros b.
    destruct (decide (e_addr e = b)) as [<-|]; [|done]. rewrite De, Z.add_0_r. by destruct e as [? [] ?].
  - destruct (set_data_spec s (e_addr e) (set_prio (Z.lor (e_prio e) GRUB_COMMAND_FLAG_ACTIVE) (e_cmd e))) as (s' & E & L & P & D); [by rewrite De|].
    exists s'. rewrite decide_False by done. repeat split; try done. intros b. rewrite D. destruct (decide (e_addr e = b)); [|done]. by rewrite Hor.
Qed.

(** The list does not reach a new element. *)
Lemma new_node_part s a x q l : part s Head l q -> nodes s !! a = None -> load s q = Some None ->
  let s0 := mk_store (head_ptr s) (<[a := x : node grub_command]> (nodes s)) in (a ∉ l) /\ part s0 Head l q /\ load s0 q = Some None.
Proof.
  intros Hl Ha Hq s0. destruct (new_node s a x Ha) as (L0 & P0 & _).
  assert (a ∉ l) as Hal by (intros Hin; pose proof (present_nodes _ _ _ _ Hl a Hin) as [y Hy]; congruence).
  split; [done|]. split.
  - apply (part_frame s); [done| |].
    + intros r Hr. apply L0. intros E. destruct (in_slots _ _ _ Hr) as [->|(b & -> & Hb)]; [done|]. injection E as ->. done.
    + intros b Hb. apply P0. congruence.
  - rewrite <- Hq. apply L0. rewrite (part_end _ _ _ _ Hl). destruct (last l) as [b|] eqn:El; [|done].
    intros [= ->]. apply Hal. by apply last_Some_elem_of.
Qed.

Lemma cmd_register_spec s l a n f su de pr t : holds s l -> nodes s !! a = None -> cstr n -> 0 <= pr < 256 ->
  (forall g, g ∈ l -> (e_time g < t)%nat) ->
  exists s' l', grub_register_command_prio (Some a) s n f su de pr = Some (Some a, s') /\ holds s' l' /\
    l' ≡ₚ mk_entry a (mk_command n pr f 0 (default [] su) de) t :: l.
Proof.
  intros [(q & Hl & Hq) Hnd Hs Hg Hst Hdom] Ha Hn Hpr Ht. unfold grub_register_command_prio.
  set (cmd := mk_command n pr f 0 (default [] su) de). set (e := mk_entry a cmd t).
  destruct (new_node s a (mk_node None None cmd) Ha) as (L0 & P0 & D0 & La & Da).
  set (s0 := mk_store (head_ptr s) (<[a := mk_node None None cmd]> (nodes s))) in *. cbv zeta.
  destruct (new_node_part s a (mk_node None None cmd) q (e_addr <$> l) Hl Ha Hq) as (Hal & Hl0 & Hq0). fold s0 in Hl0, Hq0.
  destruct (find_place_spec s0 cmd e q eq_refl ltac:(done) Hq0 l (S (size (nodes s0))) Head None false)
    as (s1 & p & la & lb & -> & E & P); try done.
  { apply (stored_ext s); [|done]. intros g Hg'. apply D0. intros Eg. apply Hal. rewrite <- Eg. by apply list_elem_of_fmap_2. }
  { rewrite <- (length_fmap e_addr l). pose proof (length_nodes _ _ _ _ Hl0 Hnd). lia. }
  assert (head_ptr s0 = head (e_addr <$> la ++ lb)) as Eh.
  { pose proof (head_load _ _ _ _ Hl0 Hq0) as H. cbn [load] in H. congruence. }
  rewrite Eh, E. step. destruct P as [PL PP Ppart Pla Plb Pd Psa Psb].
  rewrite fmap_app in Hl0. apply part_app in Hl0 as (p2 & Hpa & Hpb).
  pose proof (part_end _ _ _ _ Ppart) as Ep. pose proof (part_end _ _ _ _ Hpa) as Ep2. assert (p2 = p) as -> by congruence.
  rewrite fmap_app in Hal, Hnd. apply not_elem_of_app in Hal as [Hala Halb].
  assert (NoDup ((e_addr <$> la) ++ a :: (e_addr <$> lb))) as Hnd'.
  { rewrite <- Permutation_middle. constructor; [|done]. by apply not_elem_of_app. }
  destruct (link_steps s1 (e_addr <$> la) (e_addr <$> lb) a p q) as (s2 & s3 & s4 & s5 & -> & E3 & E4 & E5 & Hseg & Hsame); try done.
  { by apply (part_frame s0). } { by apply (part_frame s0). } { by rewrite PL. } { by rewrite PL, La. }
  step. rewrite E3. step. rewrite E4. step. rewrite E5. step.
  assert (data_of s5 a = Some cmd) as Da5 by (rewrite Hsame, Pd by done; exact Da).
  destruct (mark_active s5 (last_name None la) e Hpr Da5) as (s6 & E6 & L6 & P6 & D6). change (e_addr e) with a in D6, E6.
  change (e_cmd e) with cmd in E6. change (e_prio e) with pr in E6.
  rewrite E6. step. exists s6, (la ++ e :: lb). split; [done|]. split; [|by rewrite <- Permutation_middle].
  assert (forall l' : list entry, (a ∉ (e_addr <$> l')) -> forall g, g ∈ l' -> data_of s6 (e_addr g) = data_of s1 (e_addr g)) as Hother.
  { intros l' Hl' g Hgl. rewrite D6, decide_False; [by rewrite Hsame|]. intros Eg. apply Hl'. rewrite Eg. by apply list_elem_of_fmap_2. }
  split.
  - rewrite fmap_app, fmap_cons. by apply (seg_ext s5).
  - rewrite fmap_app, fmap_cons. done.
  - by apply sorted_insert.
  - apply Forall_app in Hg as [? ?]. apply Forall_app. split; [done|]. by constructor.
  - rewrite stored_app. split; [apply (stored_ext s1); [by apply Hother|done]|]. split.
    + by rewrite D6, decide_True.
    + apply (stored_ext s1); [by apply Hother|done].
  - intros b Hb. rewrite <- Permutation_middle, fmap_cons. destruct (decide (b = a)) as [->|Hne]; [constructor|].
    apply elem_of_cons. right. destruct (decide (b ∈ e_addr <$> lb)); [rewrite fmap_app; apply elem_of_app; auto|].
    apply Hdom. by rewrite D6, decide_False, Hsame, Pd, D0 in Hb by congruence.
Qed.
(** ** Unregistering *)

Lemma sorted_remove la lb e : StronglySorted before (la ++ e :: lb) -> StronglySorted before (la ++ lb).
Proof.
  induction la as [|f la IH]; cbn [app]; intros [Hs Hf]%StronglySorted_inv; [done|].
  constructor; [by apply IH|]. apply Forall_app in Hf as [? [? ?]%Forall_cons]. by apply Forall_app.
Qed.

Lemma removed_node {D} (s : store D) a p l : seg s p l -> a ∉ l -> p <> Next a ->
  seg (mk_store (head_ptr s) (delete a (nodes s))) p l.
Proof.
  intros (q & H & Hq) Ha Hp. exists q.
  assert (forall r, r <> Next a -> load (mk_store (head_ptr s) (delete a (nodes s))) r = load s r) as Hl.
  { intros [|b] Hb; [done|]. cbn [load nodes]. by rewrite lookup_delete_ne by congruence. }
  split.
  - apply (part_frame s); [done| |].
    + intros r Hr. apply Hl. destruct (in_slots _ _ _ Hr) as [->|(b & -> & Hb)]; [done|]. congruence.
    + intros b Hb. unfold prev_of. cbn [nodes]. by rewrite lookup_delete_ne by congruence.
  - rewrite Hl; [done|]. rewrite (part_end _ _ _ _ H). destruct (last l) as [b|] eqn:E; [|done].
    intros [= ->]. apply Ha. by apply last_Some_elem_of.
Qed.

(** The names around an entry: in order, those of one name together. *)
Lemma names_around la lb e f : StronglySorted before (la ++ e :: f :: lb) -> Forall good_entry (la ++ e :: f :: lb) ->
  last_name None la = Some (e_name f) -> e_name e = e_name f.
Proof.
  intros Hs Hg Hl. unfold last_name in Hl. destruct (last la) as [g|] eqn:El; [|done]. injection Hl as Hl.
  apply last_Some in El as [la' ->]. rewrite <- app_assoc in *. cbn [app] in *.
  assert (StronglySorted before (g :: e :: f :: lb)) as H.
  { clear -Hs. induction la' as [|x la' IH]; [done|]. cbn [app] in Hs. apply StronglySorted_inv in Hs as [Hs _]. by apply IH. }
  apply Forall_app in Hg as [_ ([Hcg _] & ([Hce _] & ([Hcf _] & _)%Forall_cons)%Forall_cons)%Forall_cons].
  apply StronglySorted_inv in H as [H [Hge _]%Forall_cons]. apply StronglySorted_inv in H as [_ [Hef _]%Forall_cons].
  destruct Hef as [Hef|[E _]]; [|done]. destruct Hge as [Hge|[E _]]; [|congruence].
  pose proof (strcmp_trans _ _ _ Hcg Hce Hcf Hge Hef) as Hlt. rewrite Hl in Hlt.
  rewrite strcmp_refl in Hlt by done. lia.
Qed.

(** The flag of the command that goes moves to the next of its name. *)
Lemma move_flag s la lb e : StronglySorted before (la ++ e :: lb) -> Forall good_entry (la ++ e :: lb) -> NoDup (e_addr <$> la ++ lb) ->
  stored s (Some (e_name e)) lb ->
  exists s1, match bool_decide (last_name None la <> Some (e_name e)), head (e_addr <$> lb) with
      | true, Some b => y ← nodes s !! b; set_data s b (set_prio (Z.lor (prio (data y)) GRUB_COMMAND_FLAG_ACTIVE) (data y))
      | _, _ => Some s end = Some s1 /\
    (forall r, load s1 r = load s r) /\ (forall b, prev_of s1 b = prev_of s b) /\
    (forall b, b ∉ e_addr <$> lb -> data_of s1 b = data_of s b) /\ (forall b, is_Some (data_of s1 b) -> is_Some (data_of s b)) /\
    stored s1 (last_name None la) lb.
Proof.
  intros Hs Hg Hnd Hsb. destruct lb as [|f lb]; [exists s; by case_bool_decide|]. cbn [fmap list_fmap head]. case_bool_decide as Hfirst.
  2: { exists s. rewrite Hfirst. destruct Hsb as [H1 H2]. repeat split; auto. }
  destruct Hsb as [Hsf Hsb]. pose proof Hg as [_ [_ [[_ Hpf] _]%Forall_cons]%Forall_cons]%Forall_app.
  assert (exists y, nodes s !! e_addr f = Some y /\ data y = stored1 (Some (e_name e)) f) as (y & Ey & Dy).
  { unfold data_of in Hsf. destruct (nodes s !! e_addr f) as [y|]; [|done]. injection Hsf as Hsf. eauto. }
  rewrite Ey. step. rewrite Dy. destruct (stored1_prio (Some (e_name e)) f Hpf) as (_ & _ & _ & ->).
  destruct (set_data_spec s (e_addr f) (set_prio (e_prio f + GRUB_COMMAND_FLAG_ACTIVE) (stored1 (Some (e_name e)) f)))
    as (s1 & -> & L1 & P1 & D1); [by rewrite Hsf|].
  exists s1. repeat split; try done.
  - intros b Hb. rewrite D1, decide_False; [done|]. intros Eb. apply Hb. rewrite <- Eb. constructor.
  - intros b. rewrite D1. destruct (decide (e_addr f = b)) as [<-|]; [by rewrite Hsf|done].
  - rewrite D1, decide_True by done. unfold stored1 at 2. rewrite decide_False; [done|].
    intros Hln. apply Hfirst. by rewrite (names_around la lb e f Hs Hg Hln).
  - apply (stored_ext s); [|done]. intros g Hgl. rewrite D1, decide_False; [done|]. intros Eg.
    rewrite fmap_app in Hnd. apply NoDup_app in Hnd as (_ & _ & Hnd). rewrite fmap_cons in Hnd.
    apply NoDup_cons in Hnd as [Hf _]. apply Hf. rewrite Eg. by apply list_elem_of_fmap_2.
Qed.

Lemma unregister_spec s la lb e : holds s (la ++ e :: lb) ->
  exists s', grub_unregister_command s (Some (e_addr e)) = Some s' /\ holds s' (la ++ lb).
Proof.
  intros [Hseg Hnd Hs Hg Hst Hdom]. set (a := e_addr e). unfold grub_unregister_command.
  rewrite fmap_app, fmap_cons in *. fold a in Hseg, Hnd, Hdom.
  apply stored_app in Hst as [Hsa [Hse Hsb]]. fold a in Hse.
  pose proof (proj1 (Forall_app _ _ _) Hg) as [Hga [Hge Hgb]%Forall_cons].
  assert ((a ∉ (e_addr <$> la)) /\ (a ∉ (e_addr <$> lb)) /\ NoDup (e_addr <$> la ++ lb)) as (Ha1 & Ha2 & Hnd').
  { rewrite <- Permutation_middle in Hnd. apply NoDup_cons in Hnd as [[? ?]%not_elem_of_app ?]. by rewrite fmap_app. }
  destruct Hseg as (q & Hl & Hq). pose proof Hl as Hl'. apply part_app in Hl' as (p & _ & _ & Pa & Hlb).
  pose proof (head_load _ _ _ _ Hlb Hq) as En. unfold prev_of in Pa.
  destruct (nodes s !! a) as [x|] eqn:Ex; [|done]. step.
  rewrite (node_data _ _ _ _ Ex Hse), (node_next _ _ _ _ Ex En).
  destruct (stored1_prio (last_name None la) e (proj2 Hge)) as (_ & Hact & _). rewrite Hact.
  destruct (move_flag s la lb e Hs Hg Hnd' Hsb) as (s1 & -> & L1 & P1 & D1 & M1 & S1).
  step. destruct (list_remove_spec s1 (e_addr <$> la) (e_addr <$> lb) a) as (s2 & -> & Hseg2 & Hsame); [|done|].
  { apply (seg_ext s); [done|done|]. by exists q. }
  step. eexists. split; [done|].
  assert (forall l' : list entry, (a ∉ (e_addr <$> l')) -> forall g, g ∈ l' ->
    data_of (mk_store (head_ptr s2) (delete a (nodes s2))) (e_addr g) = data_of s1 (e_addr g)) as Hother.
  { intros l' Hl' g Hgl. rewrite <- (Hsame (e_addr g)). unfold data_of. cbn [nodes]. rewrite lookup_delete_ne; [done|].
    intros Eg. apply Hl'. rewrite Eg. by apply list_elem_of_fmap_2. }
  split.
  - rewrite fmap_app. apply removed_node; [done| |done]. by apply not_elem_of_app.
  - done.
  - by eapply sorted_remove.
  - by apply Forall_app.
  - apply stored_app. split; [|by apply (stored_ext s1); [apply Hother|]].
    apply (stored_ext s); [|done]. intros g Hgl. rewrite (Hother la Ha1 g Hgl). apply D1. intros Hin.
    rewrite fmap_app in Hnd'. apply NoDup_app in Hnd' as (_ & Hdis & _). apply (Hdis (e_addr g)); [by apply list_elem_of_fmap_2|done].
  - intros b Hb. destruct (decide (b = a)) as [->|Hne].
    { unfold data_of in Hb. cbn [nodes] in Hb. rewrite lookup_delete_eq in Hb. by destruct Hb. }
    assert (is_Some (data_of s b)) as Hb'.
    { apply M1. rewrite <- (Hsame b). unfold data_of in *. cbn [nodes] in Hb. by rewrite lookup_delete_ne in Hb. }
    apply Hdom in Hb'. rewrite <- Permutation_middle in Hb'. apply elem_of_cons in Hb' as [?|?]; [done|]. by rewrite fmap_app.
Qed.
(** ** Finding *)

Definition named (n : list Z) (l : list entry) : option entry := head (filter (fun e => e_name e = n) l).

Lemma named_cons n e l : named n (e :: l) = if decide (e_name e = n) then Some e else named n l.
Proof. unfold named. rewrite filter_cons. by destruct (decide (e_name e = n)). Qed.

Lemma find_loop_spec s n q : cstr n -> load s q = Some None -> forall l fuel p pn,
  part s p (e_addr <$> l) q -> stored s pn l -> Forall good_entry l -> (length l <= fuel)%nat ->
  grub_named_list_find fuel s name (head (e_addr <$> l)) n = Some (e_addr <$> named n l).
Proof.
  intros Hn Hq l. induction l as [|e l IH]; intros fuel p pn Hl Hst Hg Hfuel; [by destruct fuel|].
  destruct fuel as [|fuel]; [cbn in Hfuel; lia|]. rewrite fmap_cons in *. destruct Hl as (_ & Pe & Hl), Hst as [De Hst].
  apply Forall_cons in Hg as [[Hce _] Hg]. pose proof (head_load _ _ _ _ Hl Hq) as Ln. unfold prev_of in Pe.
  cbn [head grub_named_list_find]. destruct (nodes s !! e_addr e) as [x|] eqn:Ex; [|done]. step.
  rewrite (node_data _ _ _ _ Ex De), (node_next _ _ _ _ Ex Ln). change (name (stored1 pn e)) with (e_name e).
  rewrite strcmp_eq, named_cons by done. destruct (decide (e_name e = n)) as [E|E].
  - by rewrite bool_decide_true.
  - rewrite bool_decide_false by done. cbn [length] in Hfuel. apply (IH _ (Next (e_addr e)) (Some (e_name e))); [done..|lia].
Qed.

Lemma find_spec s l n : holds s l -> cstr n -> grub_command_find s n = Some (e_addr <$> named n l).
Proof.
  intros [(q & Hl & Hq) Hnd _ Hg Hst _] Hn. unfold grub_command_find.
  assert (head_ptr s = head (e_addr <$> l)) as ->.
  { pose proof (head_load _ _ _ _ Hl Hq) as H. cbn [load] in H. congruence. }
  apply (find_loop_spec s n q Hn Hq l _ Head None); [done..|].
  rewrite <- (length_fmap e_addr l). pose proof (length_nodes _ _ _ _ Hl Hnd). lia.
Qed.

Lemma named_first n l e : named n l = Some e -> exists la lb, l = la ++ e :: lb /\ e_name e = n /\ forall f, f ∈ la -> e_name f <> n.
Proof.
  induction l as [|f l IH]; [done|]. rewrite named_cons. destruct (decide (e_name f = n)) as [E|E].
  - intros [= <-]. exists [], l. repeat split; try done. intros g Hg. inversion Hg.
  - intros H. destruct (IH H) as (la & lb & -> & En & Hla). exists (f :: la), lb. repeat split; try done.
    intros g [->|Hg]%elem_of_cons; [done|by apply Hla].
Qed.

Lemma named_none n l : named n l = None -> forall e, e ∈ l -> e_name e <> n.
Proof.
  induction l as [|f l IH]; intros H e He; [inversion He|]. rewrite named_cons in H. destruct (decide _) as [|E]; [done|].
  apply elem_of_cons in He as [->|He]; [done|by apply IH].
Qed.

Lemma sorted_before la lb e : StronglySorted before (la ++ e :: lb) ->
  (forall f, f ∈ la -> before f e) /\ (forall f, f ∈ lb -> before e f).
Proof.
  induction la as [|g la IH]; cbn [app]; intros [Hs Hf]%StronglySorted_inv.
  - split; [intros f Hin; inversion Hin|by apply Forall_forall].
  - destruct (IH Hs) as [H1 H2]. split; [|done]. intros f [->|Hin]%elem_of_cons; [|by apply H1].
    apply Forall_app in Hf as [_ [? _]%Forall_cons]. done.
Qed.

(** The command found is the best of its name. *)
Lemma named_best n l e f : StronglySorted before l -> Forall good_entry l -> named n l = Some e -> f ∈ l -> e_name f = n ->
  f = e \/ e_prio f < e_prio e \/ (e_prio f = e_prio e /\ (e_time f < e_time e)%nat).
Proof.
  intros Hs Hg Hn Hf En. destruct (named_first n l e Hn) as (la & lb & -> & Ee & Hla).
  destruct (sorted_before la lb e Hs) as [_ Hlb].
  apply elem_of_app in Hf as [Hf|[->|Hf]%elem_of_cons]; [by destruct (Hla f Hf)|by left|]. right.
  destruct (Hlb f Hf) as [Hlt|[_ H]]; [|done]. rewrite Ee, En in Hlt.
  apply Forall_app in Hg as [_ [[Hce _] _]%Forall_cons]. rewrite Ee in Hce.
  rewrite strcmp_refl in Hlt by done. lia.
Qed.

(** The active command of a name is the one that is found. *)
Lemma active_iff_found la lb e : StronglySorted before (la ++ e :: lb) -> Forall good_entry (la ++ e :: lb) ->
  NoDup (e_addr <$> la ++ e :: lb) ->
  last_name None la = Some (e_name e) <-> e_addr <$> named (e_name e) (la ++ e :: lb) <> Some (e_addr e).
Proof.
  intros Hs Hg Hnd. destruct (named (e_name e) (la ++ e :: lb)) as [g|] eqn:En.
  2:{ exfalso. apply (named_none _ _ En e); [apply elem_of_app; right; constructor|done]. }
  cbn [fmap option_fmap option_map]. destruct (named_first _ _ _ En) as (l1 & l2 & E & Eg & Hl1). split.
  - intros Hl [= Ea]. unfold last_name in Hl. destruct (last la) as [h|] eqn:El; [|done]. injection Hl as Hl.
    assert (length l1 = length la) as Hlen.
    { assert ((e_addr <$> la ++ e :: lb) !! length la = Some (e_addr e)) as H1
        by (rewrite fmap_app, fmap_cons, <- (length_fmap e_addr la); by apply list_lookup_middle).
      assert ((e_addr <$> la ++ e :: lb) !! length l1 = Some (e_addr e)) as H2
        by (rewrite E, fmap_app, fmap_cons, <- (length_fmap e_addr l1), <- Ea; by apply list_lookup_middle).
      by eapply NoDup_lookup. }
    apply (f_equal (take (length la))) in E. rewrite take_app_length, <- Hlen, take_app_length in E. subst l1.
    apply (Hl1 h); [by apply last_Some_elem_of|congruence].
  - intros Hne. unfold last_name. assert (g ∈ la) as Hgla.
    { assert (g ∈ la ++ e :: lb) as Hin by (rewrite E; apply elem_of_app; right; constructor).
      apply elem_of_app in Hin as [Hin|[->|Hin]%elem_of_cons]; [done|done|]. exfalso.
      assert (e ∈ l1 ++ g :: l2) as He by (rewrite <- E; apply elem_of_app; right; constructor).
      apply elem_of_app in He as [He|[->|He]%elem_of_cons]; [by apply (Hl1 e He)|done|].
      destruct (sorted_before la lb e Hs) as [_ Hlb]. rewrite E in Hs. destruct (sorted_before l1 l2 g Hs) as [_ Hl2].
      specialize (Hlb g Hin). specialize (Hl2 e He). unfold before in *. rewrite Eg in *.
      apply Forall_app in Hg as [_ [[Hce _] _]%Forall_cons]. pose proof (strcmp_refl _ Hce). lia. }
    destruct (last la) as [h|] eqn:El; [|apply last_None in El; subst la; inversion Hgla].
    apply last_Some in El as [la' ->]. f_equal. apply elem_of_app in Hgla as [Hgla|Hgla%list_elem_of_singleton]; [|congruence].
    rewrite <- app_assoc in Hs. cbn [app] in Hs.
    destruct (sorted_before la' (e :: lb) h Hs) as [Hb1 Hb2]. specialize (Hb1 g Hgla). specialize (Hb2 e (list_elem_of_here _ _)).
    destruct Hb1 as [Hb1|[? _]]; [|congruence]. destruct Hb2 as [Hb2|[? _]]; [|done].
    rewrite <- Eg in Hb2. pose proof (strcmp_opp (e_name g) (e_name h)). lia.
Qed.
(** * Sessions *)

(** A registration, with the address of the new command, or the removal of a command. *)
Inductive op :=
| Register (a : Z) (n : list Z) (f : callback) (su de : option (list Z)) (pr : Z)
| Unregister (a : Z).

Definition exec (o : op) (s : table) : option table :=
  match o with
  | Register a n f su de pr => '(_, s) ← grub_register_command_prio (Some a) s n f su de pr; Some s
  | Unregister a => grub_unregister_command s (Some a)
  end.

Fixpoint run (os : list op) (s : table) : option table :=
  match os with [] => Some s | o :: os => s ← exec o s; run os s end.

(** The commands that are registered, the latest first. *)
Definition live1 (t : nat) (o : op) (l : list entry) : list entry :=
  match o with
  | Register a n f su de pr => mk_entry a (mk_command n pr f 0 (default [] su) de) t :: l
  | Unregister a => filter (fun e => e_addr e <> a) l
  end.

Fixpoint live (t : nat) (os : list op) (l : list entry) : list entry :=
  match os with [] => l | o :: os => live (S t) os (live1 t o l) end.

(** Addresses of new commands are not in use, and only registered commands are removed. *)
Definition good_op (o : op) (l : list entry) : Prop :=
  match o with
  | Register a n _ _ _ pr => (a ∉ (e_addr <$> l)) /\ cstr n /\ 0 <= pr < 256
  | Unregister a => a ∈ e_addr <$> l
  end.

Fixpoint good_ops (t : nat) (os : list op) (l : list entry) : Prop :=
  match os with [] => True | o :: os => good_op o l /\ good_ops (S t) os (live1 t o l) end.

#[export] Instance good_op_dec o l : Decision (good_op o l).
Proof. destruct o; unfold good_op, cstr, is_char; apply _. Defined.

#[export] Instance good_ops_dec t os l : Decision (good_ops t os l).
Proof. revert t l. induction os as [|o os IH]; intros t l; cbn [good_ops]; apply _. Defined.

Definition empty_table : table := mk_store None ∅.

Lemma filter_others la lb e : NoDup (e_addr <$> la ++ e :: lb) ->
  filter (fun f => e_addr f <> e_addr e) (la ++ e :: lb) = la ++ lb.
Proof.
  intros Hnd. rewrite fmap_app, fmap_cons in Hnd. rewrite <- Permutation_middle in Hnd.
  apply NoDup_cons in Hnd as [[Ha Hb]%not_elem_of_app _].
  rewrite filter_app, filter_cons_False by (by intros H; apply H).
  assert (forall l : list entry, (e_addr e ∉ (e_addr <$> l)) -> filter (fun f => e_addr f <> e_addr e) l = l) as Hf.
  { induction l as [|f l IH]; [done|]. rewrite fmap_cons. intros [Hne Hl]%not_elem_of_cons.
    rewrite filter_cons_True by congruence. by rewrite IH. }
  by rewrite !Hf.
Qed.

Lemma cmd_run_spec os : forall t s l lv, holds s l -> l ≡ₚ lv -> (forall e, e ∈ lv -> (e_time e < t)%nat) -> good_ops t os lv ->
  exists s' l', run os s = Some s' /\ holds s' l' /\ l' ≡ₚ live t os lv.
Proof.
  induction os as [|o os IH]; intros t s l lv Hh Hp Ht Hg; [by exists s, l|]. destruct Hg as [Ho Hg]. cbn [run live].
  destruct o as [a n f su de pr|a]; cbn [exec live1 good_op] in *.
  - destruct Ho as (Ha & Hn & Hpr). rewrite <- Hp in Ha.
    assert (nodes s !! a = None) as Hnone.
    { destruct (nodes s !! a) as [x|] eqn:E; [|done]. exfalso. apply Ha, (h_dom s l Hh). unfold data_of. rewrite E. by eexists. }
    destruct (cmd_register_spec s l a n f su de pr t Hh Hnone Hn Hpr) as (s1 & l1 & -> & Hh1 & Hp1).
    { intros g Hgl. apply Ht. by rewrite <- Hp. }
    step. apply (IH (S t) s1 l1); [done|by rewrite Hp1, Hp| |done].
    intros e [->|He]%elem_of_cons; [cbn; lia|]. specialize (Ht e He). lia.
  - rewrite <- Hp in Ho. apply list_elem_of_fmap in Ho as (e & -> & He). apply list_elem_of_split in He as (la & lb & ->).
    destruct (unregister_spec s la lb e Hh) as (s1 & -> & Hh1). step.
    apply (IH (S t) s1 (la ++ lb)); [done| | |done].
    + rewrite <- (filter_others la lb e (h_nodup _ _ Hh)). by rewrite Hp.
    + intros f [_ Hf]%list_elem_of_filter. specialize (Ht f Hf). lia.
Qed.

Lemma empty_holds : holds empty_table [].
Proof.
  split; try done; try constructor.
  - exists Head. by split.
  - intros a. unfold data_of, empty_table. cbn [nodes]. rewrite lookup_empty. by intros [? ?].
Qed.

(** C20: the command table always knows the right command.  After any sequence of registrations and
    removals, a lookup by name finds the registered command of the highest priority, the latest
    among equals, or nothing when there is none; and exactly the commands that are found carry
    the active flag, every other field as it was registered. *)
Theorem command_table_correct os : good_ops 0 os [] ->
  exists s, run os empty_table = Some s /\
    (forall n, cstr n -> exists r, grub_command_find s n = Some r /\
       match r with
       | Some a => exists e, e ∈ live 0 os [] /\ e_addr e = a /\ e_name e = n /\
           forall f, f ∈ live 0 os [] -> e_name f = n ->
             f = e \/ e_prio f < e_prio e \/ (e_prio f = e_prio e /\ (e_time f < e_time e)%nat)
       | None => forall e, e ∈ live 0 os [] -> e_name e <> n
       end) /\
    (forall e, e ∈ live 0 os [] -> data_of s (e_addr e) =
       Some (set_prio (e_prio e + if decide (grub_command_find s (e_name e) = Some (Some (e_addr e)))
                                  then GRUB_COMMAND_FLAG_ACTIVE else 0) (e_cmd e))).
Proof.
  intros Hg. destruct (cmd_run_spec os 0 empty_table [] [] empty_holds) as (s & l & E & Hh & Hp); [done| |done|].
  { intros e He. inversion He. }
  exists s. split; [done|]. assert (forall e, e ∈ live 0 os [] <-> e ∈ l) as Hin by (intros e; by rewrite Hp). clear Hp Hg E. pose proof Hh as [_ Hnd Hs Hgood Hst _]. split.
  - intros n Hn. rewrite (find_spec s l n Hh Hn). eexists. split; [done|]. destruct (named n l) as [e|] eqn:En; cbn [fmap option_fmap option_map].
    + destruct (named_first n l e En) as (la & lb & Hl & Ee & _). exists e. split; [|split; [done|split; [done|]]].
      * apply Hin. rewrite Hl. apply elem_of_app. right. constructor.
      * intros f Hf%Hin Hfn. by apply (named_best n l e f).
    + intros e He%Hin. by apply (named_none n l).
  - intros e He%Hin. apply list_elem_of_split in He as (la & lb & ->).
    pose proof (active_iff_found la lb e Hs Hgood Hnd) as Hiff. apply stored_app in Hst as [_ [Hd _]]. rewrite Hd. unfold stored1.
    rewrite (find_spec s (la ++ e :: lb) (e_name e) Hh) by (by apply Forall_app in Hgood as [_ [[? _] _]%Forall_cons]).
    do 3 f_equal. destruct (decide (last_name None la = Some (e_name e))) as [Hl|Hl].
    + rewrite decide_False; [done|]. intros [= H]. by apply Hiff in Hl.
    + rewrite decide_True; [done|]. f_equal. destruct (decide (e_addr <$> named (e_name e) (la ++ e :: lb) = Some (e_addr e))); tauto.
Qed.

Definition sample_ops : list op :=
  [Register 16 (chars "ls") (Callback 1) None None 0; Register 32 (chars "cat") (Callback 2) None None 0;
   Register 48 (chars "ls") (Callback 3) None None 1; Register 64 (chars "ls") (Callback 4) None None 0; Unregister 48].

Lemma command_table_correct_witness :
  exists s, run sample_ops empty_table = Some s /\ grub_command_find s (chars "ls") = Some (Some 64) /\
    grub_command_find s (chars "help") = Some None.
Proof.
  destruct (command_table_correct sample_ops) as (s & E & _).
  - apply (bool_decide_eq_true_1 _). vm_compute. reflexivity.
  - exists s. split; [exact E|]. vm_compute in E. injection E as <-. split; vm_compute; reflexivity.
Defined.

End GrubCommand.
