(* ===== verification/GrubErr.v ===== *)
(** Errors of GRUB (src/grub/grub-core/kern/err.c): the active error and its message, the stack
    of saved errors, and the printing of both.

    What is printed is kept as a list of characters; [string_at] gives the strings behind the
    pointers that a format takes, and [errmsg_at] is the address of [grub_errmsg].  Messages are
    not translated.  Printing more than 255 characters needs memory: when there is none the text is
    cut, and the error that the allocator raises in the meantime replaces the message; [mm_file] is
    what the compiler puts for [__FILE__] in kern/mm.c. *)

From S2P Require Import Prelude GrubStr GrubNum GrubPrintf GrubFormat.

Module GrubErr.
Import GrubStr GrubNum GrubPrintf GrubFormat.

Definition GRUB_ERROR_STACK_SIZE : Z := 10.
Definition GRUB_MAX_ERRMSG : Z := 256.

Record grub_error_saved := mk_saved { saved_errno : grub_err_t; saved_errmsg : list Z }.

Record errors := mk_errors {
  grub_errno : grub_err_t;
  grub_errmsg : list Z;
  grub_error_stack_items : list grub_error_saved;
  grub_error_stack_pos : Z;
  grub_error_stack_assert : bool;
  grub_err_printed_errors : Z;
  console : list Z
}.

(** The characters of an array before the first NUL; without one the array is read out of bounds. *)
Fixpoint cstring (l : list Z) : option (list Z) :=
  match l with
  | [] => None
  | c :: l => if c =? 0 then Some [] else s ← cstring l; Some (c :: s)
  end.

(** [data] stored from an index on. *)
Definition write_at (l : list Z) (i : Z) (data : list Z) : option (list Z) :=
  if (0 <=? i) && (i + zlen data <=? zlen l)
  then Some (take (Z.to_nat i) l ++ data ++ drop (Z.to_nat (i + zlen data)) l) else None.

Section Errors.
Variable alloc_ok : Z -> bool.
Variable string_at : Z -> option (list Z).
Variable guid_at : Z -> option guid.

(** [grub_vsnprintf] into an array from an index on; the result and the array. *)
Definition snprintf_at (buf : list Z) (i n : Z) (fmt va : list Z) : option (Z * list Z) :=
  '(m, s) ← grub_vsnprintf alloc_ok string_at guid_at n fmt va;
  match s with
  | None => Some (m, buf)
  | Some s => buf ← write_at buf i s; Some (m, buf)
  end.

(** [file] and [function] are addresses of strings, [va] the arguments of [fmt]. *)
Definition grub_error (s : errors) (n : grub_err_t) (file function line : Z) (fmt va : list Z) : option errors :=
  '(m, buf) ← snprintf_at (grub_errmsg s) 0 GRUB_MAX_ERRMSG (chars "%s:%s:%d:") [file; function; line];
  let m := if m <? 0 then 0 else m in
  '(_, buf) ← snprintf_at buf m (u64 (GRUB_MAX_ERRMSG - m)) fmt va;
  Some (mk_errors n buf (grub_error_stack_items s) (grub_error_stack_pos s) (grub_error_stack_assert s)
          (grub_err_printed_errors s) (console s)).

Definition grub_error_push (s : errors) : option errors :=
  if grub_error_stack_pos s <? GRUB_ERROR_STACK_SIZE then
    items ← aset (grub_error_stack_items s) (grub_error_stack_pos s) (mk_saved (grub_errno s) (grub_errmsg s));
    Some (mk_errors ERR_NONE (grub_errmsg s) items (grub_error_stack_pos s + 1) (grub_error_stack_assert s)
            (grub_err_printed_errors s) (console s))
  else Some (mk_errors ERR_NONE (grub_errmsg s) (grub_error_stack_items s) (grub_error_stack_pos s) true
               (grub_err_printed_errors s) (console s)).

Definition grub_error_pop (s : errors) : option (bool * errors) :=
  if 0 <? grub_error_stack_pos s then
    let pos := grub_error_stack_pos s - 1 in
    x ← aget (grub_error_stack_items s) pos;
    Some (true, mk_errors (saved_errno x) (saved_errmsg x) (grub_error_stack_items s) pos (grub_error_stack_assert s)
                  (grub_err_printed_errors s) (console s))
  else Some (false, mk_errors ERR_NONE (grub_errmsg s) (grub_error_stack_items s) (grub_error_stack_pos s)
                      (grub_error_stack_assert s) (grub_err_printed_errors s) (console s)).

End Errors.

Definition set_errno (e : grub_err_t) (s : errors) : errors :=
  mk_errors e (grub_errmsg s) (grub_error_stack_items s) (grub_error_stack_pos s) (grub_error_stack_assert s)
    (grub_err_printed_errors s) (console s).

(** What goes to the terminal. *)
Definition put_text (t : list Z) (s : errors) : errors :=
  mk_errors (grub_errno s) (grub_errmsg s) (grub_error_stack_items s) (grub_error_stack_pos s) (grub_error_stack_assert s)
    (grub_err_printed_errors s) (console s ++ t).

Section Printing.
Variable alloc_ok : Z -> bool.
Variable string_at : Z -> option (list Z).
Variable guid_at : Z -> option guid.
Variable mm_file : list Z.

(** The error that [grub_memalign] raises when there is no memory. *)
Definition out_of_memory (s : errors) : option errors :=
  grub_error alloc_ok (fun a => [mm_file; chars "grub_memalign"] !! Z.to_nat (a - 1)) (fun _ => None) s ERR_OUT_OF_MEMORY 1 2 552
    (chars "out of memory") [].

(** [grub_vprintf]: the text on the terminal; an error of the allocation is forgotten, but not its
    message. *)
Definition vprintf_to (fmt va : list Z) (s : errors) : option errors :=
  '(_, t) ← grub_vprintf alloc_ok string_at guid_at fmt va;
  failed ← grub_vprintf_fails alloc_ok string_at guid_at fmt va;
  s ← (if (failed : bool) then s ← out_of_memory s; Some (set_errno ERR_NONE s) else Some s);
  Some (put_text t s).
End Printing.

Section Reports.
Variable alloc_ok : Z -> bool.
Variable string_at : Z -> option (list Z).
Variable guid_at : Z -> option guid.
Variable mm_file : list Z.
Variable errmsg_at : Z.

(** [grub_err_printf] of a format whose only string, if any, is [grub_errmsg]. *)
Definition grub_err_printf (s : errors) (fmt va : list Z) : option errors :=
  vprintf_to alloc_ok (fun a => if a =? errmsg_at then cstring (grub_errmsg s) else string_at a) guid_at mm_file fmt va s.

Definition count_printed (s : errors) : errors :=
  mk_errors (grub_errno s) (grub_errmsg s) (grub_error_stack_items s) (grub_error_stack_pos s) (grub_error_stack_assert s)
    (s32 (grub_err_printed_errors s + 1)) (console s).

(** The [do]/[while] loop; the stack has at most ten items. *)
Fixpoint print_loop (fuel : nat) (s : errors) : option errors :=
  match fuel with
  | O => None
  | S fuel =>
      s ← (if decide (grub_errno s = ERR_NONE) then Some s
           else
             s ← grub_err_printf s (chars "error: %s." ++ [10]) [errmsg_at];
             Some (count_printed s));
      '(more, s) ← grub_error_pop s;
      if (more : bool) then print_loop fuel s else Some s
  end.

Definition grub_print_error (s : errors) : option errors :=
  s ← print_loop 11 s;
  if grub_error_stack_assert s
  then
    s ← grub_err_printf s (chars "assert: error stack overflow detected!" ++ [10]) [];
    Some (mk_errors (grub_errno s) (grub_errmsg s) (grub_error_stack_items s) (grub_error_stack_pos s) false
            (grub_err_printed_errors s) (console s))
  else Some s.
End Reports.

(** * What the error handling promises *)

(** An error with its message as a string; the errors on the stack, the latest first. *)
Abbreviation reported := (grub_err_t * list Z)%type.

Record board := mk_board {
  current : reported;
  saved : list reported;
  overflowed : bool;
  printed_errors : Z;
  screen : list Z
}.

Definition string_of (l : list Z) : list Z := default [] (cstring l).

Definition view (s : errors) : board :=
  mk_board (grub_errno s, string_of (grub_errmsg s))
    ((fun x => (saved_errno x, string_of (saved_errmsg x))) <$>
       rev (take (Z.to_nat (grub_error_stack_pos s)) (grub_error_stack_items s)))
    (grub_error_stack_assert s) (grub_err_printed_errors s) (console s).

Definition push (b : board) : board :=
  let full := (10 <=? zlen (saved b)) in
  mk_board (ERR_NONE, snd (current b)) (if full then saved b else current b :: saved b)
    (overflowed b || full) (printed_errors b) (screen b).

Definition pop (b : board) : board :=
  match saved b with
  | x :: l => mk_board x l (overflowed b) (printed_errors b) (screen b)
  | [] => mk_board (ERR_NONE, snd (current b)) [] (overflowed b) (printed_errors b) (screen b)
  end.

Definition error_line (msg : list Z) : list Z := chars "error: " ++ msg ++ chars "." ++ [10].
Definition assert_line : list Z := chars "assert: error stack overflow detected!" ++ [10].

Definition is_error (x : reported) : bool := negb (bool_decide (fst x = ERR_NONE)).

Section Board.
Variable alloc_ok : Z -> bool.
Variable string_at : Z -> option (list Z).
Variable guid_at : Z -> option guid.
Variable mm_file : list Z.

(** A message: the place and the text, cut at 255 characters. *)
Definition message (t : list Z) : list Z := run (fun c => c =? 0) (take 255 (s8 <$> t)).

(** The message that is left when an error has been printed: its own, or that of the allocator. *)
Definition left_message (x : reported) : list Z :=
  if is_error x && cut alloc_ok (error_line (snd x)) then message (mm_file ++ chars ":grub_memalign:552:out of memory") else snd x.

(** The active error and the errors of the stack go to the screen, the latest first, then the
    note about an overflow; the message of the oldest one stays behind. *)
Definition report (b : board) : board :=
  let errors := filter (fun x => is_error x = true) (current b :: saved b) in
  mk_board (ERR_NONE, left_message (default (current b) (last (saved b)))) [] false
    (s32 (printed_errors b + zlen errors))
    (screen b ++ concat ((fun x => printed alloc_ok (error_line (snd x))) <$> errors)
       ++ (if overflowed b then assert_line else [])).

Definition raise (n : grub_err_t) (t : list Z) (b : board) : board :=
  mk_board (n, message t) (saved b) (overflowed b) (printed_errors b) (screen b).

(** ** Sequences of calls *)

Inductive op := Raise (n : grub_err_t) (file function line : Z) (fmt : list item) (va : list Z) | Push | Pop | Report.

Definition run_op (errmsg_at : Z) (o : op) (s : errors) : option errors :=
  match o with
  | Raise n file function line fmt va => grub_error alloc_ok string_at guid_at s n file function line (render fmt) va
  | Push => grub_error_push s
  | Pop => '(_, s) ← grub_error_pop s; Some s
  | Report => grub_print_error alloc_ok string_at guid_at mm_file errmsg_at s
  end.

Fixpoint run_ops (errmsg_at : Z) (l : list op) (s : errors) : option errors :=
  match l with [] => Some s | o :: l => s ← run_op errmsg_at o s; run_ops errmsg_at l s end.

Definition str_dir : item := Dir (mk_directive false [] None no_len conv_s).
Definition int_dir : item := Dir (mk_directive false [] None no_len conv_d).

(** "%s:%s:%d:" *)
Definition prefix_items : list item := [str_dir; Lit 58; str_dir; Lit 58; int_dir; Lit 58].

Definition place (file function line : Z) : option (list Z) := text_of string_at guid_at prefix_items [file; function; line].

(** The strings exist, and the place has at most 256 characters. *)
Definition op_ok (o : op) : Prop :=
  match o with
  | Raise _ file function line fmt va =>
      wf fmt /\ room alloc_ok fmt = true /\ is_Some (text_of string_at guid_at fmt va) /\
      exists t, place file function line = Some t /\ zlen t <= GRUB_MAX_ERRMSG
  | _ => True
  end.

Definition apply_op (o : op) (b : board) : board :=
  match o with
  | Raise n file function line fmt va =>
      match place file function line, text_of string_at guid_at fmt va with
      | Some t, Some t' => raise n (t ++ t') b
      | _, _ => b
      end
  | Push => push b
  | Pop => pop b
  | Report => report b
  end.
End Board.

(** * The invariant *)

Record msg_ok (l : list Z) : Prop := mk_msg_ok {
  mo_len : zlen l = GRUB_MAX_ERRMSG;
  mo_char : Forall is_char l;
  mo_nul : 0 ∈ l
}.

Record err_inv (s : errors) : Prop := mk_err_inv {
  ei_items : zlen (grub_error_stack_items s) = GRUB_ERROR_STACK_SIZE;
  ei_pos : 0 <= grub_error_stack_pos s <= GRUB_ERROR_STACK_SIZE;
  ei_printed : s32 (grub_err_printed_errors s) = grub_err_printed_errors s;
  ei_msg : msg_ok (grub_errmsg s);
  ei_saved : Forall (fun x => msg_ok (saved_errmsg x)) (grub_error_stack_items s)
}.

Lemma cstring_Some l : 0 ∈ l -> cstring l = Some (run (fun c => c =? 0) l).
Proof.
  induction l as [|c l IH]; intros H; [by apply elem_of_nil in H|]. cbn [cstring run]. destruct (Z.eqb_spec c 0) as [->|Hc]; [done|].
  apply elem_of_cons in H as [H|H]; [done|]. by rewrite (IH H).
Qed.

Lemma saved_length s : err_inv s -> zlen (saved (view s)) = grub_error_stack_pos s.
Proof.
  intros H. destruct H. unfold view. cbn [saved]. unfold zlen, GRUB_ERROR_STACK_SIZE in *. rewrite length_fmap, length_rev, length_take. lia.
Qed.

Lemma push_refines s : err_inv s -> exists s', grub_error_push s = Some s' /\ err_inv s' /\ view s' = push (view s).
Proof.
  intros H. pose proof (saved_length s H) as Hlen. unfold grub_error_push, push. rewrite Hlen.
  destruct H as [Hi Hp Hn Hm Hs]. destruct (Z.ltb_spec (grub_error_stack_pos s) GRUB_ERROR_STACK_SIZE) as [Hlt|Hge].
  - rewrite aset_Some by lia. step. unfold GRUB_ERROR_STACK_SIZE in *. eexists. split; [done|].
    rewrite (proj2 (Z.leb_gt _ _) Hlt), orb_false_r. split.
    + split; cbn; [by rewrite zlen_insert|unfold GRUB_ERROR_STACK_SIZE; lia|done|done|]. by apply Forall_insert.
    + unfold view. cbn [grub_error_stack_items grub_error_stack_pos grub_error_stack_assert grub_errno grub_errmsg
        grub_err_printed_errors console current saved overflowed printed_errors screen fst snd].
      replace (Z.to_nat (grub_error_stack_pos s + 1)) with (S (Z.to_nat (grub_error_stack_pos s))) by lia.
      rewrite (take_S_r _ _ (mk_saved (grub_errno s) (grub_errmsg s))) by (apply list_lookup_insert_eq; unfold zlen in *; lia).
      rewrite rev_app_distr. cbn [rev app]. by rewrite take_insert_ge by lia.
  - eexists. split; [done|]. unfold GRUB_ERROR_STACK_SIZE in *. rewrite (proj2 (Z.leb_le _ _) Hge), orb_true_r. split; [|done]. split; cbn; done || (unfold GRUB_ERROR_STACK_SIZE; lia).
Qed.

Lemma pop_refines s : err_inv s -> exists s', grub_error_pop s = Some (bool_decide (saved (view s) <> []), s') /\
  err_inv s' /\ view s' = pop (view s).
Proof.
  intros [Hi Hp Hn Hm Hs]. unfold grub_error_pop, view, pop. cbn [saved].
  destruct (Z.ltb_spec 0 (grub_error_stack_pos s)) as [Hlt|Hge].
  - destruct (aget_Some (grub_error_stack_items s) (grub_error_stack_pos s - 1)) as [x Hx]; [lia|]. rewrite Hx. step.
    unfold aget in Hx. destruct (Z.leb_spec 0 (grub_error_stack_pos s - 1)); [|done].
    replace (Z.to_nat (grub_error_stack_pos s)) with (S (Z.to_nat (grub_error_stack_pos s - 1))) by lia.
    rewrite (take_S_r _ _ _ Hx), rev_app_distr. cbn [rev app fmap list_fmap]. rewrite bool_decide_true by done.
    eexists. split; [done|]. split; [|done]. split; cbn; try done; try lia.
    by apply (Forall_lookup_1 _ _ _ _ Hs Hx).
  - replace (grub_error_stack_pos s) with 0 by lia. cbn [Z.to_nat take rev fmap list_fmap]. rewrite bool_decide_false by (intros H; by apply H).
    eexists. split; [done|]. split; [|done]. split; cbn; done || lia.
Qed.
(** * Printing *)

Definition error_items : list item := (Lit <$> chars "error: ") ++ [str_dir; Lit 46; Lit 10].
Definition assert_items : list item := Lit <$> assert_line.

Lemma run_sub {P : Z -> Prop} f l : Forall P l -> Forall P (run f l).
Proof. induction 1 as [|c l Hc Hl IH]; cbn [run]; [done|]. destruct (f c); [done|by constructor]. Qed.

Lemma run_length f l : zlen (run f l) <= zlen l.
Proof.
  induction l as [|c l IH]; cbn [run]; [done|]. destruct (f c); rewrite ?zlen_cons; [|lia].
  pose proof (zlen_nonneg l). change (@zlen Z []) with 0. lia.
Qed.

Lemma msg_ok_string l : msg_ok l -> cstring l = Some (string_of l) /\ zlen (string_of l) <= 256 /\ Forall is_char (string_of l).
Proof.
  intros [Hl Hc Hz]. unfold string_of. rewrite (cstring_Some l Hz). cbn [default from_option id]. split; [done|].
  split; [|by apply run_sub]. change 256 with GRUB_MAX_ERRMSG. rewrite <- Hl. apply run_length.
Qed.

Lemma s8_chars l : Forall is_char l -> s8 <$> l = l.
Proof.
  induction 1 as [|c l Hc Hl IH]; [done|]. cbn [fmap list_fmap]. rewrite IH. f_equal. apply sgn_small; [lia|exact Hc].
Qed.

Lemma text_lits string_at guid_at l k va :
  text_of string_at guid_at ((Lit <$> l) ++ k) va = (t ← text_of string_at guid_at k va; Some (l ++ t)).
Proof.
  induction l as [|c l IH]; cbn [fmap list_fmap app text_of]; [by destruct (text_of _ _ k va)|].
  rewrite IH. by destruct (text_of _ _ k va).
Qed.

(** [%s] with a string of less than 4 GiB. *)
Lemma text_str string_at guid_at v s k va : 0 < v < 2 ^ 63 -> string_at v = Some s -> zlen s <= 2 ^ 32 - 1 ->
  text_of string_at guid_at (str_dir :: k) (v :: va) = (t ← text_of string_at guid_at k va; Some (s ++ t)).
Proof.
  intros Hv Hs Hlen. cbn [text_of str_dir d_type d_conv d_len fetch field d_width d_left d_prec].
  rewrite sgn_small by (change (64 - 1) with 63; lia). rewrite (proj2 (Z.eqb_neq v 0)), Hs by lia.
  cbn [mbind option_bind]. unfold take_upto, prec_value. rewrite (proj2 (Z.leb_le (zlen s) (2 ^ 32 - 1)) Hlen).
  unfold padded, fill_of. change (dec_value []) with 0. by rewrite (proj2 (Z.ltb_ge (zlen _) 0)) by apply zlen_nonneg.
Qed.

(** * Raising an error *)

Lemma write_at_Some l i d : 0 <= i -> i + zlen d <= zlen l ->
  write_at l i d = Some (take (Z.to_nat i) l ++ d ++ drop (Z.to_nat (i + zlen d)) l).
Proof. intros Hi Hd. unfold write_at. rewrite (proj2 (Z.leb_le _ _) Hi), (proj2 (Z.leb_le _ _) Hd). done. Qed.

Lemma zlen_s8 t : zlen (s8 <$> t) = zlen t.
Proof. unfold zlen. by rewrite length_fmap. Qed.

Lemma s8_is_char t : Forall is_char (s8 <$> t).
Proof. apply Forall_fmap, Forall_forall. intros c _. exact (sgn_range 8 c ltac:(lia)). Qed.

(** The end of the text that follows the place is cut so that the NUL fits. *)
Lemma message_buffer (a b buf : list Z) : zlen a <= 255 -> zlen buf = 256 ->
  exists r, write_at buf 0 (take 255 a ++ [0]) ≫= (fun buf => write_at buf (zlen a) (take (Z.to_nat (255 - zlen a)) b ++ [0]))
    = Some (take 255 (a ++ b) ++ 0 :: r) /\ r `suffix_of` buf /\ zlen (take 255 (a ++ b) ++ 0 :: r) = 256.
Proof.
  intros Ha Hb. rewrite (take_ge a 255) by (unfold zlen in *; lia).
  assert (take 255 (a ++ b) = a ++ take (Z.to_nat (255 - zlen a)) b) as ->.
  { rewrite take_app, (take_ge a 255) by (unfold zlen in *; lia). do 2 f_equal. unfold zlen in *. lia. }
  rewrite write_at_Some by (rewrite ?zlen_app; change (zlen [0]) with 1; pose proof (zlen_nonneg a); lia).
  rewrite bind_ret. change (take (Z.to_nat 0) buf) with (@nil Z). rewrite (app_nil_l (_ ++ _)), zlen_app, Z.add_0_l. change (zlen [0]) with 1.
  set (c := take (Z.to_nat (255 - zlen a)) b). pose proof (zlen_nonneg a).
  assert (zlen c <= 255 - zlen a) as Hc by (unfold c, zlen in *; rewrite length_take; lia).
  pose proof (zlen_nonneg c). set (k := Z.to_nat (zlen a + 1)).
  assert (zlen (drop k buf) = 256 - (zlen a + 1)) as Hk by (unfold k, zlen in *; rewrite length_drop; lia).
  rewrite write_at_Some by (rewrite ?zlen_app; change (zlen [0]) with 1; pose proof (zlen_nonneg a); lia).
  rewrite zlen_app. change (zlen [0]) with 1. rewrite <- app_assoc.
  rewrite (take_app_length' a) by (unfold zlen; lia).
  replace (Z.to_nat (zlen a + (zlen c + 1))) with (length a + (1 + Z.to_nat (zlen c)))%nat by (unfold zlen in *; lia).
  rewrite <- drop_drop, drop_app_length. cbn [app drop Nat.add].
  exists (drop (Z.to_nat (zlen c)) (drop k buf)). rewrite <- !app_assoc. cbn [app]. split; [done|]. split.
  - rewrite drop_drop. apply suffix_drop.
  - rewrite !zlen_app, zlen_cons. unfold zlen in *. rewrite !length_drop in *. lia.
Qed.

Section Raising.
Variable alloc_ok : Z -> bool.
Variable string_at : Z -> option (list Z).
Variable guid_at : Z -> option guid.

Lemma snprintf_at_render buf i n l va t : wf l -> room alloc_ok l = true -> text_of string_at guid_at l va = Some t -> 0 < n ->
  snprintf_at alloc_ok string_at guid_at buf i n (render l) va =
  (buf ← write_at buf i (take (Z.to_nat (n - 1)) (s8 <$> t) ++ [0]); Some (s32 (zlen t), buf)).
Proof. intros Hl Hr Ht Hn. unfold snprintf_at. by rewrite (vsnprintf_render _ _ _ _ _ _ _ Hl Hr Ht Hn). Qed.

Lemma prefix_wf : wf prefix_items.
Proof. repeat split; unfold is_char; try done; try lia; apply Forall_nil_2. Qed.

Lemma grub_error_spec s n file function line l va t t' : zlen (grub_errmsg s) = 256 -> Forall is_char (grub_errmsg s) ->
  place string_at guid_at file function line = Some t -> zlen t <= 256 ->
  wf l -> room alloc_ok l = true -> text_of string_at guid_at l va = Some t' ->
  exists r, let msg := take 255 (s8 <$> t ++ t') ++ 0 :: r in
  grub_error alloc_ok string_at guid_at s n file function line (render l) va
  = Some (mk_errors n msg (grub_error_stack_items s) (grub_error_stack_pos s) (grub_error_stack_assert s)
            (grub_err_printed_errors s) (console s)) /\ zlen msg = 256 /\ Forall is_char msg.
Proof.
  intros Hlen Hc Ht Hle Hl Hr Ht'. unfold grub_error. change (chars "%s:%s:%d:") with (render prefix_items).
  rewrite (snprintf_at_render _ _ _ _ _ _ prefix_wf eq_refl Ht) by (unfold GRUB_MAX_ERRMSG; lia).
  change (Z.to_nat (GRUB_MAX_ERRMSG - 1)) with 255%nat. pose proof (zlen_nonneg t).
  assert (s32 (zlen t) = zlen t) as Em by (apply sgn_small; [lia|change (32 - 1) with 31; lia]).
  assert (Forall is_char [0]) as H0 by (repeat constructor; unfold is_char; lia).
  destruct (Z.eq_dec (zlen t) 256) as [E|E].
  - assert (length (s8 <$> t) = 256%nat) as E' by (rewrite length_fmap; unfold zlen in E; lia).
    exists []. rewrite fmap_app, take_app_le by lia. rewrite write_at_Some
      by (rewrite ?zlen_app; unfold zlen in *; rewrite ?length_take; cbn [length]; lia).
    rewrite !bind_ret, Em, E. cbn [Z.ltb Z.compare Pos.compare Pos.compare_cont]. change (u64 (GRUB_MAX_ERRMSG - 256)) with 0.
    change (snprintf_at alloc_ok string_at guid_at ?b 256 0 (render l) va) with (Some (0, b)).
    cbn [mbind option_bind Z.to_nat take app]. rewrite Z.add_0_l.
    assert (drop (Z.to_nat (zlen (take 255 (s8 <$> t) ++ [0]))) (grub_errmsg s) = []) as ->.
    { apply drop_ge. unfold zlen in *. rewrite length_app, length_take. cbn [length]. lia. }
    rewrite app_nil_r. split; [done|]. split.
    + unfold zlen. rewrite length_app, length_take. cbn [length]. lia.
    + apply Forall_app. split; [apply Forall_take, s8_is_char|done].
  - destruct (message_buffer (s8 <$> t) (s8 <$> t') (grub_errmsg s)) as (r & Er & Hs & Hz); [rewrite zlen_s8; lia|lia|].
    exists r. rewrite fmap_app. rewrite zlen_s8 in Er. destruct (write_at _ 0 _) as [buf|]; [|done].
    rewrite bind_ret in Er. rewrite !bind_ret, Em. rewrite (proj2 (Z.ltb_ge (zlen t) 0)) by lia.
    unfold GRUB_MAX_ERRMSG. rewrite (wrap_small 64) by lia.
    rewrite (snprintf_at_render _ _ _ _ _ _ Hl Hr Ht') by lia.
    replace (Z.to_nat (256 - zlen t - 1)) with (Z.to_nat (255 - zlen t)) by lia. rewrite Er, !bind_ret. split; [done|]. split; [done|].
    destruct Hs as [k Hk]. rewrite Hk in Hc. apply Forall_app in Hc as [_ Hc]. apply Forall_app. split.
    + apply Forall_take, Forall_app. split; apply s8_is_char.
    + constructor; [unfold is_char; lia|done].
Qed.
Lemma run_nul (l r : list Z) : run (fun c => c =? 0) (l ++ 0 :: r) = run (fun c => c =? 0) l.
Proof. induction l as [|c l IH]; [done|]. cbn [app run]. by rewrite IH. Qed.

Lemma raise_refines (mm_file : list Z) s n file function line l va : err_inv s -> op_ok alloc_ok string_at guid_at (Raise n file function line l va) ->
  exists s', grub_error alloc_ok string_at guid_at s n file function line (render l) va = Some s' /\ err_inv s' /\
    view s' = apply_op alloc_ok string_at guid_at mm_file (Raise n file function line l va) (view s).
Proof.
  intros [Hi Hp Hn [Hl Hc _] Hs] (Hw & Hr & [t' Ht'] & t & Ht & Hle).
  destruct (grub_error_spec s n file function line l va t t' Hl Hc Ht Hle Hw Hr Ht') as (r & -> & Hz & Hmc).
  assert (0 ∈ take 255 (s8 <$> t ++ t') ++ 0 :: r) as H0 by (apply elem_of_app; right; apply elem_of_cons; by left).
  eexists. split; [done|]. split; [by split|].
  cbn [apply_op]. rewrite Ht, Ht'. unfold view, raise. cbn [grub_errno grub_errmsg saved].
  unfold string_of at 1. rewrite (cstring_Some _ H0), run_nul. done.
Qed.

End Raising.
(** The error of the allocator. *)
Lemma out_of_memory_refines alloc_ok mm_file s : err_inv s -> zlen mm_file <= 200 -> exists s', out_of_memory alloc_ok mm_file s = Some s' /\ err_inv s' /\
  view s' = raise ERR_OUT_OF_MEMORY (mm_file ++ chars ":grub_memalign:552:out of memory") (view s).
Proof.
  intros Hs Hf. set (names := fun a => [mm_file; chars "grub_memalign"] !! Z.to_nat (a - 1)).
  assert (place names (fun _ => None) 1 2 552 = Some (mm_file ++ chars ":grub_memalign:552:")) as Hp.
  { unfold place, prefix_items. rewrite (text_str names _ 1 mm_file) by (done || lia).
    change [Lit 58; str_dir; Lit 58; int_dir; Lit 58] with ((Lit <$> [58]) ++ [str_dir; Lit 58; int_dir; Lit 58]). rewrite text_lits, (text_str names _ 2 (chars "grub_memalign")) by (done || lia).
    replace (text_of names (fun _ => None) [Lit 58; int_dir; Lit 58] [552]) with (Some (chars ":552:")) by (vm_compute; reflexivity). done. }
  assert (text_of names (fun _ => None) (Lit <$> chars "out of memory") [] = Some (chars "out of memory")) as Ht by (vm_compute; reflexivity).
  destruct (raise_refines alloc_ok names (fun _ => None) mm_file s ERR_OUT_OF_MEMORY 1 2 552 (Lit <$> chars "out of memory") [] Hs) as (s' & E & H' & V).
  - split; [repeat split; unfold is_char; try done; lia|]. split; [done|]. split; [by rewrite Ht|].
    eexists. split; [exact Hp|]. unfold GRUB_MAX_ERRMSG. rewrite zlen_app. change (zlen (chars ":grub_memalign:552:")) with 19. lia.
  - exists s'. split; [exact E|]. split; [done|]. rewrite V. cbn [apply_op]. rewrite Hp, Ht, <- app_assoc. done.
Qed.

Section Printing.
Variable alloc_ok : Z -> bool.
Variable string_at : Z -> option (list Z).
Variable guid_at : Z -> option guid.
Variable mm_file : list Z.
Hypothesis Hfile : zlen mm_file <= 200.
Variable errmsg_at : Z.
Hypothesis Hat : 0 < errmsg_at < 2 ^ 63.

(** The state after printing a text. *)
Definition after_text (t : list Z) (b : board) : board :=
  mk_board (if cut alloc_ok t then (ERR_NONE, message (mm_file ++ chars ":grub_memalign:552:out of memory")) else current b)
    (saved b) (overflowed b) (printed_errors b) (screen b ++ printed alloc_ok t).

Lemma put_text_inv t s : err_inv s -> err_inv (put_text t s).
Proof. intros []. by split. Qed.

Lemma vprintf_to_refines strings guids l va t s : wf l -> room alloc_ok l = true -> text_of strings guids l va = Some t -> zlen t < 2 ^ 31 ->
  Forall is_char t -> err_inv s ->
  exists s', vprintf_to alloc_ok strings guids mm_file (render l) va s = Some s' /\ err_inv s' /\ view s' = after_text t (view s).
Proof.
  intros Hl Hr Ht Hlen Hc Hs. unfold vprintf_to. rewrite (vprintf_render _ _ _ _ _ t), (vprintf_fails_render _ _ _ _ _ t), !bind_ret by done.
  rewrite s8_chars by done. unfold after_text. destruct (cut alloc_ok t).
  - destruct (out_of_memory_refines alloc_ok mm_file s Hs Hfile) as (s' & -> & H' & V). rewrite !bind_ret. eexists. split; [done|].
    split; [apply put_text_inv; destruct H'; by split|]. 
    change (view (put_text ?t (set_errno ?e s'))) with
      (mk_board (e, snd (current (view s'))) (saved (view s')) (overflowed (view s')) (printed_errors (view s')) (screen (view s') ++ t)).
    by rewrite V.
  - rewrite bind_ret. eexists. split; [done|]. split; [by apply put_text_inv|]. done.
Qed.

Lemma print_message s : err_inv s -> exists s',
  grub_err_printf alloc_ok string_at guid_at mm_file errmsg_at s (chars "error: %s." ++ [10]) [errmsg_at] = Some s' /\ err_inv s' /\
  view s' = after_text (error_line (string_of (grub_errmsg s))) (view s).
Proof.
  intros Hs. destruct (msg_ok_string _ (ei_msg s Hs)) as (E & Hl & Hc). unfold grub_err_printf.
  change (chars "error: %s." ++ [10]) with (render error_items). apply vprintf_to_refines; [| | | | |done].
  - repeat split; unfold is_char; try done; try lia; apply Forall_nil_2.
  - done.
  - unfold error_items. rewrite text_lits, (text_str _ _ errmsg_at (string_of (grub_errmsg s))); [done|done| |lia].
    by rewrite Z.eqb_refl.
  - unfold error_line. rewrite !zlen_app. change (zlen (chars "error: ")) with 7. change (zlen (chars ".")) with 1. change (zlen [10]) with 1. lia.
  - unfold error_line. repeat (apply Forall_app; split); try done. all: repeat constructor; done.
Qed.

Lemma print_assert s : err_inv s -> exists s',
  grub_err_printf alloc_ok string_at guid_at mm_file errmsg_at s (chars "assert: error stack overflow detected!" ++ [10]) [] = Some s' /\ err_inv s' /\
  view s' = after_text assert_line (view s).
Proof.
  intros Hs. unfold grub_err_printf. change (chars "assert: error stack overflow detected!" ++ [10]) with (render assert_items).
  apply vprintf_to_refines; [| | |done| |done].
  - repeat split; unfold is_char; try done; lia.
  - done.
  - rewrite <- (app_nil_r assert_items). apply text_lits.
  - repeat constructor; done.
Qed.
End Printing.
(** ** The loop *)

Section Reporting.
Variable alloc_ok : Z -> bool.
Variable string_at : Z -> option (list Z).
Variable guid_at : Z -> option guid.
Variable mm_file : list Z.
Hypothesis Hfile : zlen mm_file <= 200.
Variable errmsg_at : Z.
Hypothesis Hat : 0 < errmsg_at < 2 ^ 63.

(** The active error is printed. *)
Definition show_current (b : board) : board :=
  if is_error (current b) then
    let b := after_text alloc_ok mm_file (error_line (snd (current b))) b in
    mk_board (current b) (saved b) (overflowed b) (s32 (printed_errors b + 1)) (screen b)
  else b.

Lemma show_refines s : err_inv s -> exists s',
  (if decide (grub_errno s = ERR_NONE) then Some s
   else
     s ← grub_err_printf alloc_ok string_at guid_at mm_file errmsg_at s (chars "error: %s." ++ [10]) [errmsg_at];
     Some (count_printed s)) = Some s' /\
  err_inv s' /\ view s' = show_current (view s).
Proof.
  intros H. unfold show_current, is_error. cbn [view current fst]. destruct (decide (grub_errno s = ERR_NONE)) as [E|E].
  - exists s. by rewrite bool_decide_true by done.
  - rewrite bool_decide_false by done. cbn [negb].
    destruct (print_message alloc_ok string_at guid_at mm_file Hfile errmsg_at Hat s H) as (s1 & -> & H1 & V1). rewrite bind_ret. eexists. split; [done|].
    split; [destruct H1; split; cbn; try done; apply sgn_sgn|]. cbn [snd] in *. cbv zeta. unfold string_of in V1. unfold string_of. rewrite <- V1. done.
Qed.

(** What is left on the board when the stack is empty, but for the note about an overflow. *)
Definition report_all (b : board) : board :=
  let errors := filter (fun x => is_error x = true) (current b :: saved b) in
  mk_board (ERR_NONE, left_message alloc_ok mm_file (default (current b) (last (saved b)))) [] (overflowed b)
    (s32 (printed_errors b + zlen errors))
    (screen b ++ concat ((fun x => printed alloc_ok (error_line (snd x))) <$> errors)).

Lemma filter_errors (c : reported) l : filter (fun x => is_error x = true) (c :: l) =
  if is_error c then c :: filter (fun x => is_error x = true) l else filter (fun x => is_error x = true) l.
Proof. rewrite filter_cons. by destruct (is_error c). Qed.

Lemma report_all_step b : s32 (printed_errors b) = printed_errors b ->
  report_all b = match saved b with [] => pop (show_current b) | _ => report_all (pop (show_current b)) end.
Proof.
  destruct b as [c l ov n out]. cbn [printed_errors]. intros Hn. unfold report_all, show_current, left_message, pop, after_text.
  cbn [current saved overflowed printed_errors screen]. rewrite (filter_errors c). destruct l as [|x l].
  - cbn [last default from_option id]. rewrite filter_nil. destruct (is_error c); cbn [fmap list_fmap concat andb current saved overflowed printed_errors screen];
      rewrite !app_nil_r.
    + by destruct (cut alloc_ok _).
    + change (@zlen reported []) with 0. by rewrite Z.add_0_r, Hn.
  - rewrite last_cons. assert (default c match last l with Some y => Some y | None => Some x end = default x (last l)) as -> by (by destruct (last l)).
    destruct (is_error c); cbn [saved current overflowed printed_errors screen]; [|done].
    rewrite zlen_cons, sgn_add_l, Z.add_assoc. cbn [fmap list_fmap concat]. by rewrite (app_assoc out).
Qed.

Lemma print_loop_refines fuel : forall s, err_inv s -> (length (saved (view s)) < fuel)%nat ->
  exists s', print_loop alloc_ok string_at guid_at mm_file errmsg_at fuel s = Some s' /\ err_inv s' /\ view s' = report_all (view s).
Proof.
  induction fuel as [|fuel IH]; intros s Hs Hf; [lia|]. cbn [print_loop].
  destruct (show_refines s Hs) as (s1 & -> & H1 & V1). rewrite bind_ret.
  destruct (pop_refines s1 H1) as (s2 & -> & H2 & V2). step.
  rewrite report_all_step by apply Hs. rewrite <- V1, <- V2.
  assert (saved (view s1) = saved (view s)) as E by (rewrite V1; unfold show_current; by destruct (is_error _)). rewrite E.
  destruct (saved (view s)) as [|x l] eqn:El.
  - rewrite bool_decide_false by (intros F; by apply F). by exists s2.
  - rewrite bool_decide_true by done. apply IH; [done|]. rewrite V2. unfold pop. rewrite E. cbn in *. lia.
Qed.

(** What is left then is the note about an overflow. *)
Lemma report_note b : report alloc_ok mm_file b =
  (let r := report_all b in
   mk_board (current r) [] false (printed_errors r) (screen r ++ if overflowed r then assert_line else [])).
Proof. unfold report, report_all. cbv zeta. cbn [current screen overflowed printed_errors]. by rewrite app_assoc. Qed.

Lemma report_refines s : err_inv s ->
  exists s', grub_print_error alloc_ok string_at guid_at mm_file errmsg_at s = Some s' /\ err_inv s' /\ view s' = report alloc_ok mm_file (view s).
Proof.
  intros Hs. unfold grub_print_error. pose proof (saved_length s Hs) as Hl. pose proof (ei_pos s Hs) as Hp.
  unfold GRUB_ERROR_STACK_SIZE, zlen in *.
  destruct (print_loop_refines 11 s Hs) as (s1 & -> & H1 & V1); [lia|]. step.
  assert (saved (view s1) = []) as El by (by rewrite V1). rewrite report_note, <- V1. cbv zeta.
  change (overflowed (view s1)) with (grub_error_stack_assert s1).
  destruct (grub_error_stack_assert s1) eqn:E.
  - destruct (print_assert alloc_ok string_at guid_at mm_file Hfile errmsg_at s1 H1) as (s2 & -> & H2 & V2). rewrite bind_ret. eexists. split; [done|].
    split; [destruct H2; by split|].
    change (view (mk_errors _ _ _ _ _ _ _)) with (mk_board (current (view s2)) (saved (view s2)) false (printed_errors (view s2)) (screen (view s2))).
    rewrite V2. cbn [after_text current saved printed_errors screen]. by rewrite El.
  - exists s1. split; [done|]. split; [done|]. rewrite app_nil_r, <- El. unfold view. cbn. by rewrite E.
Qed.
End Reporting.
(** * The properties *)

Section Session.
Variable alloc_ok : Z -> bool.
Variable string_at : Z -> option (list Z).
Variable guid_at : Z -> option guid.
Variable mm_file : list Z.
Hypothesis Hfile : zlen mm_file <= 200.
Variable errmsg_at : Z.
Hypothesis Hat : 0 < errmsg_at < 2 ^ 63.

Lemma op_refines o s : err_inv s -> op_ok alloc_ok string_at guid_at o ->
  exists s', run_op alloc_ok string_at guid_at mm_file errmsg_at o s = Some s' /\ err_inv s' /\
    view s' = apply_op alloc_ok string_at guid_at mm_file o (view s).
Proof.
  intros Hs Ho. destruct o as [n file function line l va| | |]; cbn [run_op apply_op].
  - by apply (raise_refines alloc_ok string_at guid_at mm_file).
  - by apply push_refines.
  - destruct (pop_refines s Hs) as (s' & -> & H & V). by exists s'.
  - by apply report_refines.
Qed.
End Session.

(** C21: The error handling is a message board: every sequence of calls of [grub_error],
    [grub_error_push], [grub_error_pop] and [grub_print_error] in which the place of every error
    (file, function and line) takes at most 256 characters runs without touching memory out of
    bounds and has the effect of the abstract operations, whichever allocations fail.  A raised
    error replaces the active one, its message the place and the text, cut at 255 characters;
    pushing saves the active error unless ten are saved, which is noted; popping brings the latest
    one back; reporting prints every error, the latest first, then the note, and leaves no error:
    a line of more than 255 characters that cannot be allocated is cut, and the allocator's message
    takes the place of its message.  (A longer place overflows the message.) *)
Theorem errors_refine_board alloc_ok string_at guid_at mm_file errmsg_at ops : 0 < errmsg_at < 2 ^ 63 -> zlen mm_file <= 200 ->
  forall s, err_inv s -> Forall (op_ok alloc_ok string_at guid_at) ops ->
  exists s', run_ops alloc_ok string_at guid_at mm_file errmsg_at ops s = Some s' /\ err_inv s' /\
    view s' = fold_left (fun b o => apply_op alloc_ok string_at guid_at mm_file o b) ops (view s).
Proof.
  intros Hat Hfile. induction ops as [|o ops IH]; intros s Hs Ho; [by exists s|]. apply Forall_cons in Ho as [Ho Hops].
  destruct (op_refines alloc_ok string_at guid_at mm_file Hfile errmsg_at Hat o s Hs Ho) as (s1 & E & H1 & V1).
  cbn [run_ops fold_left]. rewrite E, <- V1. apply IH; done.
Qed.

(** With all allocations nothing is cut. *)
Lemma report_always alloc_ok mm_file b : (forall n, alloc_ok n = true) -> report alloc_ok mm_file b = report (fun _ => true) mm_file b.
Proof.
  intros Ha. unfold report, left_message, cut. rewrite Ha. do 3 f_equal. f_equal. apply list_fmap_ext. intros i x _.
  unfold printed. by rewrite Ha.
Qed.

(** The state at the start of the program. *)
Definition start : errors :=
  mk_errors ERR_NONE (replicate 256 0) (replicate 10 (mk_saved ERR_NONE (replicate 256 0))) 0 false 0 [].

Lemma msg_ok_zero : msg_ok (replicate 256 0).
Proof. split; [done| |by left]. apply Forall_replicate. unfold is_char. lia. Qed.

Lemma start_inv : err_inv start.
Proof. split; try done. - apply msg_ok_zero. - apply Forall_replicate, msg_ok_zero. Qed.

Definition sample_names (a : Z) : option (list Z) :=
  if a =? 8 then Some (chars "a.c") else if a =? 16 then Some (chars "f") else if a =? 24 then Some (chars "no file") else None.

Definition no_guid (_ : Z) : option guid := None.

(** "%s!" about a missing file, saved; then an error of memory, and both are printed. *)
Definition sample_ops : list op :=
  [Raise ERR_BAD_ARGUMENT 8 16 12 [str_dir; Lit 33] [24]; Push; Raise ERR_OUT_OF_MEMORY 8 16 40 [] []; Report].

Lemma errors_refine_board_witness :
  exists s', run_ops (fun _ => false) sample_names no_guid (chars "kern/mm.c") 4096 sample_ops start = Some s' /\
    console s' = error_line (chars "a.c:f:40:") ++ error_line (chars "a.c:f:12:no file!").
Proof.
  destruct (errors_refine_board (fun _ => false) sample_names no_guid (chars "kern/mm.c") 4096 sample_ops ltac:(lia) ltac:(done) start start_inv) as (s' & E & _ & V).
  - repeat constructor; cbn [wf str_dir d_width d_prec default from_option id d_conv]; unfold is_char; try done; try lia;
      try (by eexists); exists (chars "a.c:f:12:") || exists (chars "a.c:f:40:"); by vm_compute.
  - exists s'. split; [exact E|]. change (console s') with (screen (view s')). rewrite V. vm_compute. reflexivity.
Defined.

(** When file name, function name and line take more than 256 characters, [grub_error] writes
    out of bounds, whatever the message: the length that [grub_snprintf] returns is that of the
    whole text and not of what was stored, so that the size left for the message wraps around. *)
Theorem long_place_overflows alloc_ok string_at guid_at s n file function line l va t t' : zlen (grub_errmsg s) = 256 ->
  place string_at guid_at file function line = Some t -> 256 < zlen t < 2 ^ 31 ->
  wf l -> room alloc_ok l = true -> text_of string_at guid_at l va = Some t' ->
  grub_error alloc_ok string_at guid_at s n file function line (render l) va = None.
Proof.
  intros Hlen Ht Hgt Hl Hr Ht'. unfold grub_error. change (chars "%s:%s:%d:") with (render prefix_items).
  rewrite (snprintf_at_render _ _ _ _ _ _ _ _ _ prefix_wf eq_refl Ht) by (unfold GRUB_MAX_ERRMSG; lia).
  destruct (write_at _ 0 _) as [buf|] eqn:E; [|done]. rewrite !bind_ret. unfold GRUB_MAX_ERRMSG in *.
  rewrite sgn_small, (proj2 (Z.ltb_ge (zlen t) 0)) by (change (32 - 1) with 31; lia).
  assert (u64 (256 - zlen t) = 2 ^ 64 + 256 - zlen t) as ->.
  { unfold wrap. symmetry. apply (Z.mod_unique _ _ (-1)); lia. }
  rewrite (snprintf_at_render _ _ _ _ _ _ _ _ _ Hl Hr Ht') by lia.
  unfold write_at in E |- *. destruct (_ && _) eqn:Hb in E; [|done]. injection E as <-.
  apply andb_prop in Hb as [_ Hb%Z.leb_le]. rewrite (proj2 (Z.leb_gt (zlen t + _) _)).
  - by rewrite andb_false_r.
  - rewrite !zlen_app. unfold zlen in *. rewrite !length_app in *. rewrite length_take, length_drop. cbn [length] in *. lia.
Qed.

Definition long_name (a : Z) : option (list Z) := if a =? 8 then Some (replicate 300 97) else Some (chars "f").

Lemma long_place_overflows_witness :
  grub_error (fun _ => true) long_name no_guid start ERR_BAD_ARGUMENT 8 16 12 (render []) [] = None.
Proof.
  apply (long_place_overflows (fun _ => true) long_name no_guid start ERR_BAD_ARGUMENT 8 16 12 [] []
    (replicate 300 97 ++ chars ":f:12:") []); try done; by vm_compute.
Defined.

End GrubErr.
