(* ===== verification/GrubRescue.v ===== *)
(** The rescue shell of GRUB: running a command line (src/grub/grub-core/kern/rescue_parser.c) and
    a script (grub_parser_execute of kern/parser.c), over the parser, the environment, the command
    table and the error handling.

    A reader is the list of the lines it will deliver, each with what reading it prints.  What
    commands do when they are called is an interface, [Commands]; its laws are [CommandsOk].
    Errors raised in the parser and in the environment go through [fail], which stands for the calls
    of [grub_error] in them: it depends on the call in which the error is raised, since the hook of a
    variable has messages of its own.  Copies of lines are always allocated. *)

From S2P Require Import Prelude GrubStr GrubNum GrubBuffer GrubParser GrubPrintf GrubFormat GrubStrOrder.
From S2P Require Import GrubEnv GrubList GrubCommand GrubErr.

Module GrubRescue.
Import GrubStr GrubNum GrubParser GrubPrintf GrubFormat GrubStrOrder GrubList.

Record world := mk_world {
  env : GrubEnv.state;
  cmds : GrubCommand.table;
  errs : GrubErr.errors
}.

Definition set_env (e : GrubEnv.state) (w : world) : world := mk_world e (cmds w) (errs w).
Definition set_errs (e : GrubErr.errors) (w : world) : world := mk_world (env w) (cmds w) e.

(** What goes to the terminal. *)
Abbreviation put_text := GrubErr.put_text.

(** The calls that raise errors: setting a variable, and splitting a line with those that follow it. *)
Inductive origin := At_set (n v : list Z) | At_split (line : list Z) (lines : list (list Z)).

(** A command is called with its address, its function and its arguments.  [mm_file] is what the
    compiler puts for [__FILE__] in kern/mm.c. *)
Class Commands := {
  call : Z -> GrubCommand.callback -> list (list Z) -> world -> option world;
  fail : origin -> grub_err_t -> GrubErr.errors -> GrubErr.errors;
  mm_file : list Z
}.

Section Rescue.
Context `{Commands}.
Variable alloc_ok : Z -> bool.

(** [grub_printf] with strings as arguments: they are at the addresses 1, 2, ... *)
Definition grub_printf (fmt : list Z) (strings : list (list Z)) (w : world) : option world :=
  s ← GrubErr.vprintf_to alloc_ok (fun a => strings !! Z.to_nat (a - 1)) (fun _ => None) mm_file fmt (seqZ 1 (zlen strings)) (errs w);
  Some (set_errs s w).

Definition get_var (w : world) (n : list Z) : option (list Z) := c ← GrubEnv.current (env w); GrubEnv.grub_env_get c n.

(** [grub_env_set]; an error becomes the active one. *)
Definition assign (n v : list Z) (w : world) : option world :=
  '(e, s) ← GrubEnv.on_current (fun c => Some (GrubEnv.grub_env_set alloc_ok c n v)) (env w);
  Some (set_env s (if bool_decide (e = ERR_NONE) then w else set_errs (fail (At_set n v) e (errs w)) w)).

(** What follows a [=], and what is before it. *)
Definition split_assignment (s : list Z) : option (list Z * list Z) :=
  val ← grub_strchr s 61; Some (take (length s - length val) s, tail val).

(** The command that a line stands for. *)
Definition run_args (args : list (list Z)) (w : world) : option world :=
  match args with
  | [] => Some w
  | name :: rest =>
      match (if bool_decide (rest = []) then split_assignment name else None) with
      | Some (n, v) => assign n v w
      | None =>
          if bool_decide (name = []) then Some w else
          cmd ← GrubCommand.grub_command_find (cmds w) name;
          match cmd with
          | Some a => x ← nodes (cmds w) !! a; call a (GrubCommand.func (data x)) rest w
          | None =>
              w ← grub_printf (chars "Unknown command `%s'." ++ [10]) [name] w;
              help ← GrubCommand.grub_command_find (cmds w) (chars "help");
              match help with
              | Some _ => grub_printf (chars "Try `help' for usage" ++ [10]) [] w
              | None => Some w
              end
          end
      end
  end.

(** The lines after the first one that [lines] still has, and the world.  A line that has been split
    leaves no error. *)
Definition grub_rescue_parse_line (line : list Z) (lines : list (list Z * list Z)) (w : world)
  : option (list (list Z * list Z) * world) :=
  '(e, args, rest) ← split_getline alloc_ok (get_var w) line (Some (fst <$> lines));
  let n := (length lines - length (default [] rest))%nat in
  let w := set_errs (put_text (concat (snd <$> take n lines)) (errs w)) w in
  w ← (if bool_decide (e = ERR_NONE) then run_args args (set_errs (GrubErr.set_errno ERR_NONE (errs w)) w)
       else Some (set_errs (fail (At_split line (fst <$> lines)) e (errs w)) w));
  Some (drop n lines, w).

(** ** [grub_parser_execute] *)

(** The lines that [grub_parser_execute_getline] gives one after the other; nothing is printed. *)
Fixpoint source_lines (fuel : nat) (source : option (list Z)) : list (list Z * list Z) :=
  match fuel, grub_parser_execute_getline source with
  | S fuel, (Some line, source) => (line, []) :: source_lines fuel source
  | _, _ => []
  end.

Definition script_lines (source : option (list Z)) : list (list Z * list Z) :=
  source_lines (S (length (default [] source))) source.

(** The source after a number of lines. *)
Fixpoint skip_lines (n : nat) (source : option (list Z)) : option (list Z) :=
  match n with O => source | S n => skip_lines n (snd (grub_parser_execute_getline source)) end.

Definition print_error (w : world) : option world :=
  e ← GrubErr.grub_print_error alloc_ok (fun _ => None) (fun _ => None) mm_file 1 (errs w); Some (set_errs e w).

Fixpoint execute_loop (fuel : nat) (source : option (list Z)) (w : world) : option world :=
  match source, fuel with
  | None, _ => Some w
  | Some _, O => None
  | Some _, S fuel =>
      let '(line, source) := grub_parser_execute_getline source in
      let lines := script_lines source in
      '(rest, w) ← grub_rescue_parse_line (default [] line) lines w;
      w ← print_error w;
      execute_loop fuel (skip_lines (length lines - length rest) source) w
  end.

(** A line has at least its end. *)
Definition grub_parser_execute (source : list Z) (w : world) : option (grub_err_t * world) :=
  w ← execute_loop (S (length source)) (Some source) w;
  Some (GrubErr.grub_errno (errs w), w).
End Rescue.
(** * What a line means *)

(** The contexts as maps, the commands in the order of the table, and the message board. *)
Record aworld := mk_aworld {
  vars : list GrubEnv.vmap;
  entries : list GrubCommand.entry;
  board : GrubErr.board
}.

Definition set_board (b : GrubErr.board) (a : aworld) : aworld := mk_aworld (vars a) (entries a) b.

(** No error is active any more; its message stays. *)
Definition a_clear (a : aworld) : aworld :=
  set_board (GrubErr.mk_board (ERR_NONE, snd (GrubErr.current (board a))) (GrubErr.saved (board a)) (GrubErr.overflowed (board a))
    (GrubErr.printed_errors (board a)) (GrubErr.screen (board a))) a.

Definition a_put (t : list Z) (a : aworld) : aworld :=
  set_board (GrubErr.mk_board (GrubErr.current (board a)) (GrubErr.saved (board a)) (GrubErr.overflowed (board a))
    (GrubErr.printed_errors (board a)) (GrubErr.screen (board a) ++ t)) a.

(** Texts of more than 2 GiB are out of reach of [grub_printf]. *)
Definition a_printf (t : list Z) (a : aworld) : option aworld := if zlen t <? 2 ^ 31 then Some (a_put t a) else None.

Definition a_get_var (a : aworld) (n : list Z) : option (list Z) := m ← head (vars a); GrubEnv.a_get m n.

Record refines (w : world) (a : aworld) : Prop := mk_refines {
  r_env : GrubEnv.stack_refines (env w) (vars a);
  r_cmds : GrubCommand.holds (cmds w) (entries a);
  r_inv : GrubErr.err_inv (errs w);
  r_view : GrubErr.view (errs w) = board a
}.

(** Values of variables are strings of at most 2 GiB. *)
Definition vars_ok (a : aworld) : Prop := forall n v, a_get_var a n = Some v -> cstr v /\ zlen v <= 2 ^ 31.

(** The laws of the interface: a call has the effect that [a_call] says on the abstract world, and an
    error of setting a variable becomes the active one with the message of that call. *)
Class CommandsOk `{Commands} := {
  a_call : Z -> GrubCommand.callback -> list (list Z) -> aworld -> option aworld;
  message : list Z -> list Z -> grub_err_t -> list Z;
  call_ok addr f args w a a' : refines w a -> vars_ok a -> Forall cstr args -> a_call addr f args a = Some a' ->
    exists w', call addr f args w = Some w' /\ refines w' a';
  fail_ok n v e s : GrubErr.err_inv s -> GrubErr.err_inv (fail (At_set n v) e s) /\
    GrubErr.view (fail (At_set n v) e s) = GrubErr.mk_board (e, message n v e) (GrubErr.saved (GrubErr.view s)) (GrubErr.overflowed (GrubErr.view s))
      (GrubErr.printed_errors (GrubErr.view s)) (GrubErr.screen (GrubErr.view s));
  mm_file_ok : zlen mm_file <= 200
}.

Section Meaning.
Context `{CommandsOk}.

Definition a_fail (n v : list Z) (e : grub_err_t) (a : aworld) : aworld :=
  set_board (GrubErr.mk_board (e, message n v e) (GrubErr.saved (board a)) (GrubErr.overflowed (board a))
    (GrubErr.printed_errors (board a)) (GrubErr.screen (board a))) a.

Definition a_assign (n v : list Z) (a : aworld) : option aworld :=
  match vars a with
  | [] => None
  | m :: ms =>
      let '(e, m) := GrubEnv.a_set (fun _ => true) m n v in
      let a := if bool_decide (e = ERR_NONE) then a else a_fail n v e a in
      Some (mk_aworld (m :: ms) (entries a) (board a))
  end.

Definition unknown_line (name : list Z) : list Z := chars "Unknown command `" ++ name ++ chars "'." ++ [10].
Definition help_line : list Z := chars "Try `help' for usage" ++ [10].

(** A line with one word [n=v] is an assignment; otherwise the first word is the command, the
    best one of that name. *)
Definition a_run_args (args : list (list Z)) (a : aworld) : option aworld :=
  match args with
  | [] => Some a
  | name :: rest =>
      match (if bool_decide (rest = []) then split_assignment name else None) with
      | Some (n, v) => a_assign n v a
      | None =>
          if bool_decide (name = []) then Some a else
          match GrubCommand.named name (entries a) with
          | Some e => a_call (GrubCommand.e_addr e) (GrubCommand.func (GrubCommand.e_cmd e)) rest a
          | None =>
              a ← a_printf (unknown_line name) a;
              Some (match GrubCommand.named (chars "help") (entries a) with Some _ => a_put help_line a | None => a end)
          end
      end
  end.

(** The words of a line, with the lines that continue it; the lines that are left.  An error that was
    active is forgotten. *)
Definition a_line (line : list Z) (lines : list (list Z * list Z)) (a : aworld) : option (list (list Z * list Z) * aworld) :=
  let ls := all_lines line (Some (fst <$> lines)) in
  let n := (length lines - length (lex_rest (a_get_var a) ls lex_start))%nat in
  a' ← a_run_args (split_reference (a_get_var a) ls) (a_clear (a_put (concat (snd <$> take n lines)) a));
  Some (drop n lines, a').

(** Errors are printed after every line. *)
Definition a_print_error (a : aworld) : aworld := set_board (GrubErr.report (fun _ => true) mm_file (board a)) a.

(** A script runs line by line. *)
Inductive script_runs : list (list Z * list Z) -> aworld -> aworld -> Prop :=
| Script_end a : script_runs [] a a
| Script_line line echo lines rest a a1 a2 : vars_ok a -> a_line line lines a = Some (rest, a1) ->
    script_runs rest (a_print_error a1) a2 -> script_runs ((line, echo) :: lines) a a2.
End Meaning.

(** * The lexer and the variables *)

Section Lexer.
Variables e1 e2 : list Z -> option (list Z).
Hypothesis agree : forall n, cstr n -> e1 n = e2 n.
Hypothesis values : forall n v, e1 n = Some v -> cstr v.

Record lex_ok (l : lex) : Prop := mk_lex_ok { lo_done : Forall cstr (ldone l); lo_cur : cstr (lcur l); lo_name : cstr (lname l) }.

Lemma lex_var_ext s l : lex_ok l -> lex_var e1 s l = lex_var e2 s l /\ lex_ok (lex_var e1 s l).
Proof.
  intros [Hd Hc Hn]. unfold lex_var. destruct (check_varstate _ && _); [|by split].
  rewrite <- (agree _ Hn). split; [done|]. split; cbn [ldone lcur lname]; [done| |constructor].
  apply Forall_app. split; [done|]. destruct (e1 (lname l)) as [v|] eqn:E; [by apply (values _ _ E)|constructor].
Qed.

Lemma lex_end_ok l : lex_ok l -> lex_ok (lex_end l).
Proof.
  intros [Hd Hc Hn]. unfold lex_end. case_bool_decide; split; cbn [ldone lcur lname]; try done; [|constructor].
  apply Forall_app. split; [done|by repeat constructor].
Qed.

Definition lex_next (e : list Z -> option (list Z)) (ns : parser_state) (use : Z) (l : lex) : lex :=
  let l' := lex_var e ns l in
  let kept := if use =? 0 then [] else [use] in
  if check_varstate ns then mk_lex (ldone l') (lcur l') (lname l' ++ kept) ns
  else if bool_decide (ns = TEXT) && negb (bool_decide (lstate l = ESC)) && grub_isspace use then lex_end l'
  else mk_lex (ldone l') (lcur l' ++ kept) (lname l') ns.

Lemma lex_char_next e c l : lex_char e c l =
  lex_next e (fst (grub_parser_cmdline_state (lstate l) c)) (snd (grub_parser_cmdline_state (lstate l) c)) l.
Proof. rewrite lex_char_eq. by destruct (grub_parser_cmdline_state (lstate l) c). Qed.

Lemma lex_next_ext ns use l : use = 0 \/ is_char use -> lex_ok l -> lex_next e1 ns use l = lex_next e2 ns use l /\ lex_ok (lex_next e1 ns use l).
Proof.
  intros Hu Hl. unfold lex_next. destruct (lex_var_ext ns l Hl) as [<- [Hd Hcu Hn]]. set (l' := lex_var e1 ns l) in *.
  assert (cstr (if use =? 0 then [] else [use])) as Hk.
  { destruct (Z.eqb_spec use 0); [constructor|]. destruct Hu as [->|]; [done|]. by apply Forall_singleton. }
  split; [done|]. destruct (check_varstate ns); [split; cbn; try done; by apply Forall_app|].
  destruct (_ && _); [by apply lex_end_ok|split; cbn; try done; by apply Forall_app].
Qed.

Lemma lex_char_ext c l : c <> 0 /\ is_char c -> lex_ok l -> lex_char e1 c l = lex_char e2 c l /\ lex_ok (lex_char e1 c l).
Proof.
  intros [H0 Hc] Hl. rewrite (lex_char_next e1), (lex_char_next e2). apply lex_next_ext; [|done].
  destruct (use_spec (lstate l) c H0) as [->|]; auto.
Qed.

Lemma lex_line_ext line : forall l, cstr line -> lex_ok l -> lex_line e1 line l = lex_line e2 line l /\ lex_ok (lex_line e1 line l).
Proof.
  unfold lex_line. induction line as [|c line IH]; intros l Hline Hl; [done|]. apply Forall_cons in Hline as [Hc Hline].
  rewrite !run_line_cons. destruct (lex_char_ext c l Hc Hl) as [<- Hl']. exact (IH _ Hline Hl').
Qed.

Lemma lex_lines_ext lines : forall l, Forall cstr lines -> lex_ok l ->
  lex_lines e1 lines l = lex_lines e2 lines l /\ lex_rest e1 lines l = lex_rest e2 lines l /\ lex_ok (lex_lines e1 lines l).
Proof.
  induction lines as [|line lines IH]; intros l Hls Hl; [done|]. apply Forall_cons in Hls as [Hline Hls].
  cbn [lex_lines lex_rest]. destruct (lex_line_ext line l Hline Hl) as [<- Hl']. destruct (needs_more _); [by apply IH|done].
Qed.

Lemma split_reference_ext lines : Forall cstr lines ->
  split_reference e1 lines = split_reference e2 lines /\ lex_rest e1 lines lex_start = lex_rest e2 lines lex_start /\
  Forall cstr (split_reference e1 lines).
Proof.
  intros Hls. assert (lex_ok lex_start) as H0 by (split; constructor). unfold split_reference.
  destruct (lex_lines_ext lines lex_start Hls H0) as (<- & <- & Hl). destruct (lex_var_ext TEXT _ Hl) as [<- Hv].
  split; [done|]. split; [done|]. apply (lex_end_ok _ Hv).
Qed.
End Lexer.
(** * Running a line *)

Lemma put_refines t w a : refines w a -> refines (set_errs (put_text t (errs w)) w) (a_put t a).
Proof.
  intros [He Hc [] Hv]. split; cbn [env cmds errs set_errs a_put set_board vars entries board]; [done|done|by split|]. by rewrite <- Hv.
Qed.

Lemma clear_refines w a : refines w a -> refines (set_errs (GrubErr.set_errno ERR_NONE (errs w)) w) (a_clear a).
Proof.
  intros [He Hc [] Hv]. split; cbn [env cmds errs set_errs a_clear set_board vars entries board]; [done|done|by split|]. by rewrite <- Hv.
Qed.

Lemma stack_head w a : refines w a -> exists c cs m ms, GrubEnv.contexts (env w) = c :: cs /\ vars a = m :: ms /\
  GrubEnv.refines c m /\ Forall2 GrubEnv.refines cs ms.
Proof.
  intros [(Hs & _ & Hne) _ _ _]. destruct Hs as [|c m cs ms Hr Hs]; [done|]. by exists c, cs, m, ms.
Qed.

Lemma get_var_agrees w a n : refines w a -> cstr n -> get_var w n = a_get_var a n.
Proof.
  intros Hr Hn. destruct (stack_head w a Hr) as (c & cs & m & ms & Ec & Em & Hc & _).
  unfold get_var, a_get_var, GrubEnv.current. rewrite Ec, Em. cbn [head]. rewrite !bind_ret. by apply GrubEnv.env_get_spec.
Qed.

(** A name that is no C string finds a variable with a name that is one. *)
Lemma get_var_values w a : refines w a -> vars_ok a -> forall n v, get_var w n = Some v -> cstr v /\ zlen v <= 2 ^ 31.
Proof.
  intros Hr Hok n v. destruct (stack_head w a Hr) as (c & cs & m & ms & Ec & Em & [Hwf Hm] & _).
  unfold get_var, GrubEnv.current. rewrite Ec. cbn [head]. rewrite bind_ret. unfold GrubEnv.grub_env_get, GrubEnv.grub_env_find.
  destruct (GrubEnv.find_in n _) as [[p x]|] eqn:E; [|done]. rewrite !bind_ret. cbn [snd]. intros Hv.
  assert (m !! GrubEnv.name x = Some x) as Hx.
  { apply Hm. split; [done|]. assert (x ∈ GrubEnv.chain c (GrubEnv.grub_env_hashval n)) as Hin.
    { clear -E. revert p E. induction (GrubEnv.chain c _) as [|y l IH]; intros p E; [done|]. cbn [GrubEnv.find_in] in E.
      destruct (_ =? 0); [injection E as _ <-; by left|].
      destruct (GrubEnv.find_in n l) as [[q z]|]; [|done]. injection E as _ ->. right. by apply (IH q). }
    destruct (GrubEnv.wf_hash c Hwf _ x Hin) as [_ ->]. done. }
  apply (Hok (GrubEnv.name x)). unfold a_get_var. rewrite Em. cbn [head]. rewrite bind_ret.
  unfold GrubEnv.a_get. rewrite Hx, bind_ret. exact Hv.
Qed.

Section Printing.
Context `{CommandsOk}.
Variable alloc_ok : Z -> bool.
Hypothesis always_ok : forall n, alloc_ok n = true.

Lemma printf_refines l strings t w a : wf l -> Forall is_char t -> zlen t < 2 ^ 31 ->
  text_of (fun a => strings !! Z.to_nat (a - 1)) (fun _ => None) l (seqZ 1 (zlen strings)) = Some t -> refines w a ->
  exists w', grub_printf alloc_ok (render l) strings w = Some w' /\ refines w' (a_put t a).
Proof.
  intros Hl Hc Ht E [He Hcm Hi Hv]. unfold grub_printf.
  destruct (GrubErr.vprintf_to_refines alloc_ok mm_file mm_file_ok _ _ l _ t (errs w) Hl ltac:(unfold room; by rewrite always_ok, orb_true_r) E Ht Hc Hi) as (s & -> & Hs & Vs).
  rewrite bind_ret. eexists. split; [done|]. split; [done|done|done|]. cbn [errs set_errs a_put set_board board]. rewrite Vs, Hv.
  unfold GrubErr.after_text, cut, printed. by rewrite !always_ok, andb_false_r, orb_true_r.
Qed.

Definition unknown_items : list item := (Lit <$> chars "Unknown command `") ++ [GrubErr.str_dir; Lit 39; Lit 46; Lit 10].

Lemma unknown_refines name w a a' : refines w a -> cstr name -> a_printf (unknown_line name) a = Some a' ->
  exists w', grub_printf alloc_ok (chars "Unknown command `%s'." ++ [10]) [name] w = Some w' /\ refines w' a'.
Proof.
  intros Hr Hn Ha. unfold a_printf in Ha. destruct (Z.ltb_spec (zlen (unknown_line name)) (2 ^ 31)) as [Hlen|]; [|done].
  injection Ha as <-. change (chars "Unknown command `%s'." ++ [10]) with (render unknown_items).
  apply printf_refines; [..|done].
  - repeat split; unfold is_char; try done; try lia; apply Forall_nil_2.
  - unfold unknown_line. repeat (apply Forall_app; split); [repeat constructor; done| |repeat constructor; done..].
    eapply Forall_impl; [exact Hn|]. by intros c [_ Hc].
  - exact Hlen.
  - unfold unknown_items. rewrite GrubErr.text_lits. change (seqZ 1 (zlen [name])) with [1].
    assert (zlen name <= 2 ^ 32 - 1) as Hle.
    { unfold unknown_line in Hlen. rewrite !zlen_app in Hlen. pose proof (zlen_nonneg (chars "Unknown command `")).
      pose proof (zlen_nonneg (chars "'.")). pose proof (zlen_nonneg [10]). lia. }
    by rewrite (GrubErr.text_str _ _ 1 name) by (done || lia).
Qed.

Lemma help_refines w a : refines w a ->
  exists w', grub_printf alloc_ok (chars "Try `help' for usage" ++ [10]) [] w = Some w' /\ refines w' (a_put help_line a).
Proof.
  intros Hr. change (chars "Try `help' for usage" ++ [10]) with (render (Lit <$> help_line)).
  apply printf_refines; [..|done].
  - repeat split; unfold is_char; try done; lia.
  - repeat constructor; done.
  - done.
  - rewrite <- (app_nil_r (Lit <$> help_line)). apply GrubErr.text_lits.
Qed.
End Printing.
Lemma help_cstr : cstr (chars "help").
Proof. change (cstr [104; 101; 108; 112]). unfold cstr, is_char. rewrite !Forall_cons. repeat split; try lia. constructor. Qed.

Section Lines.
Context `{CommandsOk}.
Variable alloc_ok : Z -> bool.
Hypothesis always_ok : forall n, alloc_ok n = true.

Lemma fail_refines n v e w a : refines w a -> refines (set_errs (fail (At_set n v) e (errs w)) w) (a_fail n v e a).
Proof.
  intros [He Hc Hi Hv]. destruct (fail_ok n v e (errs w) Hi) as [Hi' Hv']. split; try done.
  cbn [errs set_errs a_fail set_board board]. by rewrite Hv', Hv.
Qed.

Lemma set_always m n v : GrubEnv.a_set alloc_ok m n v = GrubEnv.a_set (fun _ => true) m n v.
Proof.
  unfold GrubEnv.a_set, GrubEnv.fits. rewrite !always_ok. by destruct (m !! n) as [x|].
Qed.

Lemma assign_refines n v w a a' : refines w a -> cstr n -> a_assign n v a = Some a' ->
  exists w', assign alloc_ok n v w = Some w' /\ refines w' a'.
Proof.
  intros Hr Hn Ha. destruct (stack_head w a Hr) as (c & cs & m & ms & Ec & Em & Hc & Hcs).
  pose proof (r_env w a Hr) as (_ & Hmenus & _). rewrite Ec in Hmenus.
  unfold assign, GrubEnv.on_current. rewrite Ec, bind_ret. unfold a_assign in Ha. rewrite Em in Ha.
  destruct (GrubEnv.env_set_spec alloc_ok c m n v Hc Hn) as (c' & E & Hc'). rewrite set_always in E, Hc'. rewrite E, !bind_ret.
  destruct (GrubEnv.a_set (fun _ => true) m n v) as [e m']. cbn [fst snd] in *. injection Ha as <-. eexists. split; [done|].
  assert (refines (if bool_decide (e = ERR_NONE) then w else set_errs (fail (At_set n v) e (errs w)) w)
    (if bool_decide (e = ERR_NONE) then a else a_fail n v e a)) as [_ H2 H3 H4] by (case_bool_decide; [done|by apply fail_refines]).
  split; try done. cbn [env set_env vars]. split; [by constructor|]. done.
Qed.

Lemma split_assignment_ok s n v : cstr s -> split_assignment s = Some (n, v) -> cstr n.
Proof.
  intros Hs. unfold split_assignment. destruct (grub_strchr s 61) as [val|]; [|done]. rewrite bind_ret. intros [= <- _].
  by apply Forall_take.
Qed.

(** The command that is found is the entry of the table, with its function. *)
Lemma found_entry w a name e : refines w a -> GrubCommand.named name (entries a) = Some e ->
  exists x, nodes (cmds w) !! GrubCommand.e_addr e = Some x /\ GrubCommand.func (data x) = GrubCommand.func (GrubCommand.e_cmd e).
Proof.
  intros [_ [_ _ _ _ Hst _] _ _] Hn. destruct (GrubCommand.named_first _ _ _ Hn) as (la & lb & E & _). rewrite E in Hst.
  apply GrubCommand.stored_app in Hst as [_ [Hd _]]. unfold data_of in Hd.
  destruct (nodes (cmds w) !! GrubCommand.e_addr e) as [x|]; [|done]. exists x. split; [done|]. injection Hd as ->. done.
Qed.

Lemma run_args_refines args w a a' : refines w a -> vars_ok a -> Forall cstr args -> a_run_args args a = Some a' ->
  exists w', run_args alloc_ok args w = Some w' /\ refines w' a'.
Proof.
  intros Hr Hok Hargs Ha. destruct args as [|name rest]; [injection Ha as <-; by exists w|]. apply Forall_cons in Hargs as [Hn Hrest].
  unfold run_args, a_run_args in *. destruct (if bool_decide (rest = []) then _ else _) as [[n v]|] eqn:E.
  - apply (assign_refines n v w a a' Hr); [|done]. apply (split_assignment_ok name n v Hn). by destruct (bool_decide (rest = [])).
  - destruct (bool_decide (name = [])); [injection Ha as <-; by exists w|].
    rewrite (GrubCommand.find_spec _ _ _ (r_cmds w a Hr) Hn), bind_ret.
    destruct (GrubCommand.named name (entries a)) as [e|] eqn:En; cbn [fmap option_fmap option_map].
    + destruct (found_entry w a name e Hr En) as (x & -> & Hx). rewrite bind_ret, Hx. by apply (call_ok _ _ _ w a a').
    + destruct (a_printf (unknown_line name) a) as [a1|] eqn:E1; [|done]. rewrite bind_ret in Ha.
      destruct (unknown_refines alloc_ok always_ok name w a a1 Hr Hn E1) as (w1 & -> & Hr1). rewrite bind_ret.
      rewrite (GrubCommand.find_spec _ _ _ (r_cmds w1 a1 Hr1)), bind_ret by apply help_cstr.
      apply (inj Some) in Ha as <-. destruct (GrubCommand.named (chars "help") (entries a1)); cbn [fmap option_fmap option_map];
        [by apply help_refines|by exists w1].
Qed.

Lemma vars_ok_put t a : vars_ok a -> vars_ok (a_put t a).
Proof. done. Qed.

Lemma total_text ls : Forall cstr ls -> Forall (fun s => text s) ls.
Proof. intros Hls. eapply Forall_impl; [exact Hls|]. intros s Hs. eapply Forall_impl; [exact Hs|]. by intros c [Hc _]. Qed.

Lemma line_refines line lines w a rest a' : refines w a -> vars_ok a -> cstr line -> Forall cstr (fst <$> lines) ->
  total (line :: (fst <$> lines)) <= 2 ^ 31 -> a_line line lines a = Some (rest, a') ->
  exists w', grub_rescue_parse_line alloc_ok line lines w = Some (rest, w') /\ refines w' a'.
Proof.
  intros Hr Hok Hl Hls Htot Ha. unfold a_line in Ha. unfold grub_rescue_parse_line.
  set (ls := all_lines line (Some (fst <$> lines))) in *.
  assert (Forall cstr ls) as Hall by (unfold ls; destruct line; cbn [all_lines default from_option id]; [done|by constructor]).
  assert (total ls <= 2 ^ 31) as Htot' by (unfold ls; by destruct line).
  pose proof (get_var_values w a Hr Hok) as Hval.
  destruct (split_reference_ext (get_var w) (a_get_var a)) with (lines := ls) as (Es & Er & Hargs);
    [by intros n; apply get_var_agrees|by intros n v Hv; apply (Hval n v Hv)|done|].
  assert (forall n v, get_var w n = Some v -> text v /\ zlen v <= 2 ^ 31) as Htext.
  { intros n v Hv. destruct (Hval n v Hv) as [Hc Hz]. split; [|done]. eapply Forall_impl; [exact Hc|]. by intros c [Hc0 _]. }
  rewrite (split_getline_spec alloc_ok (get_var w) always_ok Htext line (Some (fst <$> lines)) (total_text _ Hall) Htot').
  rewrite bind_ret. unfold lines_left. cbn [default from_option id]. rewrite bool_decide_true by done.
  fold ls. rewrite Es, Er in *. set (n := (length lines - _)%nat) in *.
  destruct (a_run_args _ (a_clear _)) as [a1|] eqn:Ea in Ha; [|done]. rewrite bind_ret in Ha. injection Ha as <- <-.
  destruct (run_args_refines _ _ _ _ (clear_refines _ _ (put_refines (concat (snd <$> take n lines)) w a Hr)) (vars_ok_put _ a Hok) Hargs Ea)
    as (w1 & -> & Hr1). rewrite bind_ret. by exists w1.
Qed.
End Lines.
(** * Running a script *)

Definition src_len (source : option (list Z)) : nat := match source with None => 0 | Some s => S (length s) end.

Lemma strchr_suffix s c p : grub_strchr s c = Some p -> c <> 0 -> exists l, s = l ++ p /\ p = c :: tail p.
Proof.
  intros H Hc. induction s as [|x s IH]; cbn [grub_strchr] in H; [by destruct (Z.eqb_spec 0 c)|].
  destruct (Z.eqb_spec x c) as [->|Hx]; [injection H as <-; by exists []|].
  destruct (IH H) as (l & -> & Hp). exists (x :: l). by split.
Qed.

(** A line of a source: it comes first, and the rest is shorter. *)
Lemma getline_spec s : exists line rest, grub_parser_execute_getline (Some s) = (Some line, rest) /\
  (exists l, s = line ++ l ++ default [] rest) /\ (src_len rest < src_len (Some s))%nat.
Proof.
  cbn [grub_parser_execute_getline]. destruct (grub_strchr s 10) as [p|] eqn:E.
  - destruct (strchr_suffix s 10 p E) as (l & -> & Hp); [done|]. eexists _, _. split; [done|].
    rewrite length_app, Nat.add_sub, take_app_length. split.
    + exists [10]. cbn [default from_option id app]. by rewrite <- Hp.
    + cbn [src_len]. rewrite Hp. cbn [tail length]. rewrite length_app. cbn [length]. lia.
  - eexists _, _. split; [done|]. split; [exists []; cbn; by rewrite app_nil_r|cbn; lia].
Qed.

Lemma source_lines_fuel n : forall m source, (src_len source <= n)%nat -> (src_len source <= m)%nat ->
  source_lines n source = source_lines m source.
Proof.
  induction n as [|n IH]; intros m [s|] Hn Hm; try (cbn in Hn; lia); try (destruct m; done).
  destruct m as [|m]; [cbn in Hm; lia|]. cbn [source_lines].
  destruct (getline_spec s) as (line & rest & -> & _ & Hlt). f_equal. apply IH; lia.
Qed.

Lemma script_lines_cons s line rest : grub_parser_execute_getline (Some s) = (Some line, rest) ->
  script_lines (Some s) = (line, []) :: script_lines rest.
Proof.
  intros E. destruct (getline_spec s) as (line' & rest' & E' & _ & Hlt). rewrite E in E'. injection E' as <- <-.
  unfold script_lines at 1. change (default [] (Some s)) with s. cbn [source_lines]. rewrite E. f_equal. unfold script_lines.
  apply source_lines_fuel; destruct rest as [r|]; cbn in *; lia.
Qed.

Lemma script_lines_skip n : forall source, script_lines (skip_lines n source) = drop n (script_lines source).
Proof.
  induction n as [|n IH]; intros source; [done|]. cbn [skip_lines]. rewrite IH. destruct source as [s|].
  - destruct (getline_spec s) as (line & rest & E & _). by rewrite E, (script_lines_cons s line rest E).
  - change (script_lines _) with (@nil (list Z * list Z)). by rewrite drop_nil.
Qed.

Lemma script_lines_ok n : forall source, (src_len source <= n)%nat -> cstr (default [] source) ->
  Forall cstr (fst <$> script_lines source) /\ total (fst <$> script_lines source) <= zlen (default [] source) /\
  (length (script_lines source) <= src_len source)%nat.
Proof.
  induction n as [|n IH]; intros [s|] Hn Hs; try (cbn in Hn; lia); try (split; [constructor|split; [done|cbn; lia]]).
  destruct (getline_spec s) as (line & rest & E & (l & Hl) & Hlt). rewrite (script_lines_cons s line rest E).
  cbn [default from_option id] in Hs. rewrite Hl in Hs. apply Forall_app in Hs as [Hline Hs]. apply Forall_app in Hs as [_ Hrest].
  destruct (IH rest) as (H1 & H2 & H3); [lia|done|]. rewrite fmap_cons. cbn [fst]. split; [by constructor|]. split.
  - unfold total in *. cbn [concat]. cbn [default from_option id]. rewrite Hl, !zlen_app. pose proof (zlen_nonneg l). lia.
  - cbn [length]. lia.
Qed.

Lemma total_drop n ls : total (drop n ls) <= total ls.
Proof.
  rewrite <- (take_drop n ls) at 2. unfold total. rewrite concat_app, zlen_app. pose proof (zlen_nonneg (concat (take n ls))). lia.
Qed.

Section Scripts.
Context `{CommandsOk}.
Variable alloc_ok : Z -> bool.
Hypothesis always_ok : forall n, alloc_ok n = true.

Lemma print_error_refines w a : refines w a -> exists w', print_error alloc_ok w = Some w' /\ refines w' (a_print_error a).
Proof.
  intros [He Hc Hi Hv]. unfold print_error.
  destruct (GrubErr.report_refines alloc_ok (fun _ => None) (fun _ => None) mm_file mm_file_ok 1 ltac:(lia) (errs w) Hi) as (e & -> & Hi' & Hv').
  rewrite bind_ret. eexists. split; [done|]. split; try done. cbn [errs set_errs a_print_error set_board board].
  rewrite Hv', Hv. apply GrubErr.report_always. done.
Qed.

Lemma execute_refines lines a a' : script_runs lines a a' -> forall source w fuel, script_lines source = lines ->
  refines w a -> Forall cstr (fst <$> lines) -> total (fst <$> lines) <= 2 ^ 31 -> (length lines <= fuel)%nat ->
  exists w', execute_loop alloc_ok fuel source w = Some w' /\ refines w' a'.
Proof.
  induction 1 as [a|line echo lines rest a a1 a2 Hok Ha _ IH]; intros source w fuel Es Hr Hls Htot Hf.
  - destruct source as [s|]; [|by destruct fuel; exists w].
    destruct (getline_spec s) as (line & rest & E & _). by rewrite (script_lines_cons s line rest E) in Es.
  - destruct source as [s|]; [|done]. destruct fuel as [|fuel]; [cbn in Hf; lia|].
    destruct (getline_spec s) as (line' & src & E & _). rewrite (script_lines_cons s line' src E) in Es.
    injection Es as -> <- Es. cbn [execute_loop]. rewrite E, Es. cbn [default from_option id].
    rewrite fmap_cons in Hls, Htot. cbn [fst] in *. apply Forall_cons in Hls as [Hl Hls].
    destruct (line_refines alloc_ok always_ok line lines w a rest a1 Hr Hok Hl Hls Htot Ha) as (w1 & -> & Hr1). rewrite bind_ret.
    destruct (print_error_refines w1 a1 Hr1) as (w2 & -> & Hr2). rewrite bind_ret.
    unfold a_line in Ha. set (n := (length lines - length (lex_rest _ _ _))%nat) in *.
    destruct (a_run_args _ (a_clear _)) as [a3|] eqn:Ea in Ha; [|done]. rewrite bind_ret in Ha. injection Ha as <- _.
    apply IH; [|done|..].
    + rewrite script_lines_skip, Es, length_drop. f_equal. unfold n. lia.
    + rewrite fmap_drop. by apply Forall_drop.
    + rewrite fmap_drop. pose proof (total_drop n (fst <$> lines)). unfold total in *. cbn [concat] in Htot. rewrite zlen_app in Htot.
      pose proof (zlen_nonneg line). lia.
    + rewrite length_drop. cbn [length] in Hf. lia.
Qed.
End Scripts.

End GrubRescue.
