(* ===== verification/GrubCore.v ===== *)
(** The commands that GRUB always has (src/grub/grub-core/kern/corecmd.c): [set] and [unset] as
    an instance of the interface of the rescue shell; [ls] and [insmod] are commands of another
    instance, over which this one is built.  [file] is what the compiler puts for [__FILE__],
    [unset_line] what it puts for [__LINE__] in a call that spans two lines. *)

From stdpp Require Import sorting.
From S2P Require Import Prelude GrubStr GrubNum GrubParser GrubPrintf GrubFormat GrubStrOrder GrubEnv.
From S2P Require Import GrubList GrubCommand GrubErr GrubRescue.

Module GrubCore.
Import GrubStr GrubNum GrubPrintf GrubFormat GrubStrOrder GrubList GrubRescue.

Definition GRUB_COMMAND_FLAG_EXTRACTOR : Z := 0x200.

(** The addresses of the functions. *)
Definition cmd_set_at : Z := 1.
Definition cmd_unset_at : Z := 2.
Definition cmd_ls_at : Z := 3.
Definition cmd_insmod_at : Z := 4.

Section Core.
Context `{Commands}.
Variable alloc_ok : Z -> bool.
Variable file : list Z.
Variable unset_line : Z.

(** [grub_error] with a message without arguments. *)
Definition raise (e : grub_err_t) (function : list Z) (line : Z) (fmt : list Z) (w : world) : option world :=
  s ← GrubErr.grub_error alloc_ok (fun a => [file; function] !! Z.to_nat (a - 1)) (fun _ => None) (errs w) e 1 2 line fmt [];
  Some (set_errs s w).

(** The loop over the sorted variables. *)
Fixpoint list_vars (l : list GrubEnv.grub_env_var) (w : world) : option world :=
  match l with
  | [] => Some w
  | x :: l =>
      w ← grub_printf alloc_ok (chars "%s='%s'" ++ [10]) [GrubEnv.name x; default [] (get_var w (GrubEnv.name x))] w;
      list_vars l w
  end.

Definition grub_core_cmd_set (args : list (list Z)) (w : world) : option world :=
  match args with
  | [] => c ← GrubEnv.current (env w); list_vars (GrubEnv.grub_env_update_get_sorted c) w
  | var :: _ =>
      match split_assignment var with
      | None => raise ERR_BAD_ARGUMENT (chars "grub_core_cmd_set") 53 (chars "not an assignment") w
      | Some (n, v) => assign alloc_ok n v w
      end
  end.

(** The error that [grub_env_unset] leaves behind is that of the hook of the variable. *)
Definition unset_error (c : GrubEnv.context) (n : list Z) : grub_err_t :=
  match GrubEnv.grub_env_find c n with
  | Some (_, _, x) =>
      match GrubEnv.read_hook x, GrubEnv.write_hook x with
      | None, None => ERR_NONE
      | _, _ => fst (GrubEnv.grub_env_set alloc_ok c n [])
      end
  | None => ERR_NONE
  end.

Definition grub_core_cmd_unset (args : list (list Z)) (w : world) : option world :=
  match args with
  | [] => raise ERR_BAD_ARGUMENT (chars "grub_core_cmd_unset") unset_line (chars "one argument expected") w
  | n :: _ =>
      '(e, s) ← GrubEnv.on_current (fun c => Some (unset_error c n, GrubEnv.grub_env_unset alloc_ok c n)) (env w);
      Some (set_env s (if bool_decide (e = ERR_NONE) then w else set_errs (fail (At_set n []) e (errs w)) w))
  end.

(** The calls of these commands, and of all others. *)
Definition core_call (addr : Z) (f : GrubCommand.callback) (args : list (list Z)) (w : world) : option world :=
  match f with
  | GrubCommand.Callback a =>
      if a =? cmd_set_at then grub_core_cmd_set args w
      else if a =? cmd_unset_at then grub_core_cmd_unset args w
      else call addr f args w
  | _ => call addr f args w
  end.

(** [addrs] are the addresses that the allocations give. *)
Definition grub_register_core_commands (addrs : list (option Z)) (s : GrubCommand.table) : option GrubCommand.table :=
  match addrs with
  | [a1; a2; a3; a4] =>
      '(cmd, s) ← GrubCommand.grub_register_command a1 s (chars "set") (GrubCommand.Callback cmd_set_at)
        (Some (chars "[ENVVAR=VALUE]")) (Some (chars "Set an environment variable."));
      s ← (match cmd with
           | Some a =>
               x ← nodes s !! a;
               let d := data x in
               set_data s a (GrubCommand.mk_command (GrubCommand.name d) (GrubCommand.prio d) (GrubCommand.func d)
                 (Z.lor (GrubCommand.flags d) GRUB_COMMAND_FLAG_EXTRACTOR) (GrubCommand.summary d) (GrubCommand.description d))
           | None => Some s
           end);
      '(_, s) ← GrubCommand.grub_register_command a2 s (chars "unset") (GrubCommand.Callback cmd_unset_at)
        (Some (chars "ENVVAR")) (Some (chars "Remove an environment variable."));
      '(_, s) ← GrubCommand.grub_register_command a3 s (chars "ls") (GrubCommand.Callback cmd_ls_at)
        (Some (chars "[ARG]")) (Some (chars "List devices or files."));
      '(_, s) ← GrubCommand.grub_register_command a4 s (chars "insmod") (GrubCommand.Callback cmd_insmod_at)
        (Some (chars "MODULE")) (Some (chars "Insert a module."));
      Some s
  | _ => None
  end.
End Core.
(** * What the commands do *)

Definition strings (l : list (list Z)) (a : Z) : option (list Z) := l !! Z.to_nat (a - 1).

(** The variables of a context in the order of their names. *)
Definition sorted_vars (m : GrubEnv.vmap) : list GrubEnv.grub_env_var :=
  fold_left (fun s x => GrubEnv.insert_sorted x s) (snd <$> map_to_list m) [].

Definition var_line (n v : list Z) : list Z := n ++ chars "='" ++ v ++ chars "'" ++ [10].

Section Meaning.
Context `{CommandsOk}.
Variable file : list Z.
Variable unset_line : Z.

Definition a_raise (e : grub_err_t) (function : list Z) (line : Z) (text : list Z) (a : aworld) : aworld :=
  set_board (GrubErr.apply_op (fun _ => true) (strings [file; function]) (fun _ => None) mm_file
    (GrubErr.Raise e 1 2 line (Lit <$> text) []) (board a)) a.

Fixpoint a_list_vars (l : list GrubEnv.grub_env_var) (a : aworld) : option aworld :=
  match l with
  | [] => Some a
  | x :: l => a ← a_printf (var_line (GrubEnv.name x) (default [] (a_get_var a (GrubEnv.name x)))) a; a_list_vars l a
  end.

(** Without an argument all variables are listed; an argument has to be an assignment. *)
Definition a_cmd_set (args : list (list Z)) (a : aworld) : option aworld :=
  match args with
  | [] => m ← head (vars a); a_list_vars (sorted_vars m) a
  | var :: _ =>
      match split_assignment var with
      | None => Some (a_raise ERR_BAD_ARGUMENT (chars "grub_core_cmd_set") 53 (chars "not an assignment") a)
      | Some (n, v) => a_assign n v a
      end
  end.

Definition a_unset_error (m : GrubEnv.vmap) (n : list Z) : grub_err_t :=
  match m !! n with
  | Some x =>
      match GrubEnv.read_hook x, GrubEnv.write_hook x with
      | None, None => ERR_NONE
      | _, _ => fst (GrubEnv.a_set (fun _ => true) m n [])
      end
  | None => ERR_NONE
  end.

(** A variable with hooks is set to the empty string instead of being removed. *)
Definition a_cmd_unset (args : list (list Z)) (a : aworld) : option aworld :=
  match args with
  | [] => Some (a_raise ERR_BAD_ARGUMENT (chars "grub_core_cmd_unset") unset_line (chars "one argument expected") a)
  | n :: _ =>
      match vars a with
      | [] => None
      | m :: ms =>
          let e := a_unset_error m n in
          let a := if bool_decide (e = ERR_NONE) then a else a_fail n [] e a in
          Some (mk_aworld (GrubEnv.a_unset (fun _ => true) m n :: ms) (entries a) (board a))
      end
  end.

Definition a_core_call (addr : Z) (f : GrubCommand.callback) (args : list (list Z)) (a : aworld) : option aworld :=
  match f with
  | GrubCommand.Callback fa =>
      if fa =? cmd_set_at then a_cmd_set args a
      else if fa =? cmd_unset_at then a_cmd_unset args a
      else a_call addr f args a
  | _ => a_call addr f args a
  end.
End Meaning.

(** * The listing *)

Definition name_before (x y : GrubEnv.grub_env_var) : Prop :=
  cstr (GrubEnv.name x) /\ cstr (GrubEnv.name y) /\ GrubEnv.name_lt x y.

#[local] Instance name_before_trans : Transitive name_before.
Proof.
  intros x y z (Hx & Hy & Hxy) (_ & Hz & Hyz). split; [done|]. split; [done|]. by apply (strcmp_trans _ (GrubEnv.name y)).
Qed.

Lemma sorted_name_before l : Sorted GrubEnv.name_lt l -> (forall x, x ∈ l -> cstr (GrubEnv.name x)) -> Sorted name_before l.
Proof.
  induction 1 as [|x l Hs IH Hd]; intros Hc; [constructor|]. constructor; [apply IH; intros y Hy; apply Hc; by constructor|].
  destruct Hd as [|y l Hd]; constructor. split; [apply Hc; by left|]. split; [|done]. apply Hc. by apply list_elem_of_further, list_elem_of_here.
Qed.

(** The maps have the variables under their names. *)
Lemma sorted_vars_spec c m : GrubEnv.refines c m -> GrubEnv.grub_env_update_get_sorted c = sorted_vars m.
Proof.
  intros Hr. pose proof (GrubEnv.ref_lookup c m Hr) as Hm.
  assert (forall x, x ∈ snd <$> map_to_list m <-> m !! GrubEnv.name x = Some x) as Hin.
  { intros x. rewrite list_elem_of_fmap. split.
    - intros ([k y] & -> & Hk%elem_of_map_to_list). cbn [snd]. by destruct (proj1 (Hm k y) Hk) as [-> _].
    - intros Hx. exists (GrubEnv.name x, x). split; [done|]. by apply elem_of_map_to_list. }
  assert (forall x, m !! GrubEnv.name x = Some x -> cstr (GrubEnv.name x)) as Hc.
  { intros x Hx. apply Hm in Hx as [_ Hx]. by destruct (GrubEnv.wf_hash c (GrubEnv.ref_wf c m Hr) _ x Hx). }
  destruct (GrubEnv.sort_spec (snd <$> map_to_list m) []) as [S1 P1].
  { constructor. }
  { rewrite app_nil_r, <- list_fmap_compose.
    rewrite (list_fmap_ext _ fst); [apply NoDup_fst_map_to_list|]. intros i [k y] Hi. cbn.
    apply list_elem_of_lookup_2, elem_of_map_to_list in Hi. by destruct (proj1 (Hm k y) Hi). }
  { intros x. rewrite app_nil_r, Hin. apply Hc. }
  destruct (GrubEnv.sort_spec (concat c) []) as [S2 P2].
  { constructor. }
  { rewrite app_nil_r. apply GrubEnv.context_names, Hr. }
  { intros x. rewrite app_nil_r, (GrubEnv.elem_of_concat_chain c m x Hr). apply Hc. }
  rewrite app_nil_r in P1, P2. unfold GrubEnv.grub_env_update_get_sorted, sorted_vars in *.
  assert (forall l x, l ≡ₚ (snd <$> map_to_list m) \/ l ≡ₚ concat c -> x ∈ l -> m !! GrubEnv.name x = Some x) as Hel.
  { intros l x [E|E]; rewrite E; [apply Hin|]. apply (GrubEnv.elem_of_concat_chain c m x Hr). }
  apply (Sorted_unique_strong name_before).
  - intros x y _ _ (_ & _ & H1) (_ & _ & H2). unfold GrubEnv.name_lt in *. rewrite strcmp_opp in H2. lia.
  - apply sorted_name_before; [done|]. intros x Hx. apply Hc, (Hel _ x (or_intror P2) Hx).
  - apply sorted_name_before; [done|]. intros x Hx. apply Hc, (Hel _ x (or_introl P1) Hx).
  - rewrite P1, P2. apply NoDup_Permutation.
    + apply (NoDup_fmap_1 GrubEnv.name), GrubEnv.context_names, Hr.
    + apply NoDup_fmap_2_strong; [|apply NoDup_map_to_list]. intros [k x] [k' x'] Hk%elem_of_map_to_list Hk'%elem_of_map_to_list E.
      cbn [snd] in E. subst x'. destruct (proj1 (Hm k x) Hk) as [<- _], (proj1 (Hm k' x) Hk') as [<- _]. done.
    + intros x. by rewrite (GrubEnv.elem_of_concat_chain c m x Hr), Hin.
Qed.
(** * The instance *)

Section Instance_.
Context `{CommandsOk}.
Variable alloc_ok : Z -> bool.
Hypothesis always_ok : forall n, alloc_ok n = true.
Variable file : list Z.
Variable unset_line : Z.

(** The place of an error fits into the message. *)
Definition place_ok (function : list Z) (line : Z) : Prop :=
  exists t, GrubErr.place (strings [file; function]) (fun _ => None) 1 2 line = Some t /\ zlen t <= GrubErr.GRUB_MAX_ERRMSG.

Hypothesis set_place : place_ok (chars "grub_core_cmd_set") 53.
Hypothesis unset_place : place_ok (chars "grub_core_cmd_unset") unset_line.

Lemma wf_lits l : Forall (fun c => is_char c /\ c <> 0 /\ c <> 37) l -> wf (Lit <$> l).
Proof. induction 1 as [|c l (H1 & H2 & H3) _ IH]; [done|]. exact (conj H1 (conj H2 (conj H3 IH))). Qed.

Lemma render_lits l : render (Lit <$> l) = l.
Proof. induction l as [|c l IH]; [done|]. rewrite fmap_cons. cbn [render render_item app]. by rewrite IH. Qed.

Lemma core_raise_refines e function line text w a : place_ok function line -> wf (Lit <$> text) -> refines w a ->
  exists w', raise alloc_ok file e function line text w = Some w' /\ refines w' (a_raise file e function line text a).
Proof.
  intros Hp Hw [He Hc Hi Hv]. unfold raise.
  destruct (GrubErr.raise_refines alloc_ok (strings [file; function]) (fun _ => None) mm_file (errs w) e 1 2 line (Lit <$> text) [] Hi)
    as (s & E & Hi' & Hv').
  - split; [done|]. split; [unfold room; by rewrite always_ok, orb_true_r|]. split; [|done].
    rewrite <- (app_nil_r (Lit <$> text)), GrubErr.text_lits. by eexists.
  - rewrite render_lits in E. unfold strings in E. rewrite E, bind_ret. eexists. split; [done|]. split; try done.
    cbn [errs set_errs a_raise set_board board]. rewrite Hv', Hv. done.
Qed.

Definition var_items : list item := GrubErr.str_dir :: (Lit <$> chars "='") ++ [GrubErr.str_dir; Lit 39; Lit 10].

Lemma cstr_chars s : cstr s -> Forall is_char s.
Proof. intros Hs. eapply Forall_impl; [exact Hs|]. by intros c [_ Hc]. Qed.

Lemma var_line_refines n v w a a' : refines w a -> cstr n -> cstr v -> a_printf (var_line n v) a = Some a' ->
  exists w', grub_printf alloc_ok (chars "%s='%s'" ++ [10]) [n; v] w = Some w' /\ refines w' a'.
Proof.
  intros Hr Hn Hv Ha. unfold a_printf in Ha. destruct (Z.ltb_spec (zlen (var_line n v)) (2 ^ 31)) as [Hlen|]; [|done].
  injection Ha as <-. change (chars "%s='%s'" ++ [10]) with (render var_items).
  apply printf_refines; [done|..|done].
  - repeat split; unfold is_char; try done; try lia; apply Forall_nil_2.
  - unfold var_line. repeat (apply Forall_app; split); try (repeat constructor; done); by apply cstr_chars.
  - exact Hlen.
  - change (seqZ 1 (zlen [n; v])) with [1; 2]. unfold var_line in Hlen. rewrite !zlen_app in Hlen.
    pose proof (zlen_nonneg (chars "='")). pose proof (zlen_nonneg (chars "'")). pose proof (zlen_nonneg [10]).
    pose proof (zlen_nonneg n). pose proof (zlen_nonneg v).
    unfold var_items. rewrite (GrubErr.text_str _ _ 1 n), GrubErr.text_lits, (GrubErr.text_str _ _ 2 v) by (done || lia). done.
Qed.

Lemma printf_keeps_vars t a a' : a_printf t a = Some a' -> vars a' = vars a.
Proof. unfold a_printf. destruct (_ <? _); [|done]. by intros [= <-]. Qed.

Lemma list_vars_refines l : forall w a a', (forall x, x ∈ l -> cstr (GrubEnv.name x)) -> vars_ok a -> refines w a ->
  a_list_vars l a = Some a' -> exists w', list_vars alloc_ok l w = Some w' /\ refines w' a'.
Proof.
  induction l as [|x l IH]; intros w a a' Hl Hok Hr Ha; cbn [list_vars a_list_vars] in *; [injection Ha as <-; by exists w|].
  destruct (a_printf _ a) as [a1|] eqn:E1; [|done]. rewrite bind_ret in Ha.
  assert (cstr (GrubEnv.name x)) as Hx by (apply Hl; by left). rewrite (get_var_agrees w a _ Hr Hx).
  destruct (var_line_refines (GrubEnv.name x) (default [] (a_get_var a (GrubEnv.name x))) w a a1) as (w1 & -> & Hr1); try done.
  { destruct (a_get_var a (GrubEnv.name x)) as [v|] eqn:Ev; [by apply (Hok _ _ Ev)|constructor]. }
  rewrite bind_ret. apply (IH w1 a1 a'); [intros y Hy; apply Hl; by right| |done..].
  intros n v. unfold a_get_var. rewrite (printf_keeps_vars _ _ _ E1). apply Hok.
Qed.

Lemma set_refines args w a a' : refines w a -> vars_ok a -> Forall cstr args -> a_cmd_set file args a = Some a' ->
  exists w', grub_core_cmd_set alloc_ok file args w = Some w' /\ refines w' a'.
Proof.
  intros Hr Hok Hargs Ha. unfold grub_core_cmd_set, a_cmd_set in *. destruct args as [|var rest].
  - destruct (stack_head w a Hr) as (c & cs & m & ms & Ec & Em & Hc & _). unfold GrubEnv.current. rewrite Ec. rewrite Em in Ha.
    cbn [head] in *. rewrite bind_ret in *. rewrite (sorted_vars_spec c m Hc).
    apply (list_vars_refines _ w a a'); try done. intros x. rewrite <- (sorted_vars_spec c m Hc).
    rewrite (proj2 (GrubEnv.listing_spec c m Hc)). intros Hx. apply (GrubEnv.ref_lookup c m Hc) in Hx as [_ Hx].
    by destruct (GrubEnv.wf_hash c (GrubEnv.ref_wf c m Hc) _ x Hx).
  - apply Forall_cons in Hargs as [Hvar _]. destruct (split_assignment var) as [[n v]|] eqn:E.
    + apply (assign_refines alloc_ok always_ok n v w a a' Hr); [|done]. by apply (split_assignment_ok var n v).
    + injection Ha as <-. apply core_raise_refines; [done| |done].
      apply wf_lits. change (chars "not an assignment") with (codes "not an assignment"). by repeat constructor.
Qed.

Lemma unset_error_agrees c m n : GrubEnv.refines c m -> cstr n -> unset_error alloc_ok c n = a_unset_error m n.
Proof.
  intros Hr Hn. unfold unset_error, a_unset_error. pose proof (GrubEnv.env_find_spec c m n Hr Hn) as Hf.
  destruct (GrubEnv.env_set_spec alloc_ok c m n [] Hr Hn) as (c' & -> & _). rewrite (set_always alloc_ok always_ok).
  destruct (GrubEnv.grub_env_find c n) as [[[i p] x]|]; [|by rewrite Hf]. by destruct Hf as (_ & _ & _ & ->).
Qed.

Lemma unset_always m n : GrubEnv.a_unset alloc_ok m n = GrubEnv.a_unset (fun _ => true) m n.
Proof. unfold GrubEnv.a_unset. by rewrite (set_always alloc_ok always_ok). Qed.

Lemma unset_refines args w a a' : refines w a -> Forall cstr args -> a_cmd_unset file unset_line args a = Some a' ->
  exists w', grub_core_cmd_unset alloc_ok file unset_line args w = Some w' /\ refines w' a'.
Proof.
  intros Hr Hargs Ha. unfold grub_core_cmd_unset, a_cmd_unset in *. destruct args as [|n rest].
  - injection Ha as <-. apply core_raise_refines; [done| |done].
    apply wf_lits. change (chars "one argument expected") with (codes "one argument expected"). by repeat constructor.
  - apply Forall_cons in Hargs as [Hn _]. destruct (stack_head w a Hr) as (c & cs & m & ms & Ec & Em & Hc & Hcs).
    pose proof (r_env w a Hr) as (_ & Hmenus & _). rewrite Ec in Hmenus. unfold GrubEnv.on_current. rewrite Ec, !bind_ret.
    rewrite Em in Ha. injection Ha as <-. rewrite (unset_error_agrees c m n Hc Hn). set (e := a_unset_error m n).
    eexists. split; [done|].
    assert (refines (if bool_decide (e = ERR_NONE) then w else set_errs (fail (At_set n []) e (errs w)) w)
      (if bool_decide (e = ERR_NONE) then a else a_fail n [] e a)) as [_ H2 H3 H4] by (case_bool_decide; [done|by apply fail_refines]).
    split; try done. cbn [env set_env vars]. split; [|done]. constructor; [|done]. rewrite <- unset_always.
    by apply GrubEnv.env_unset_spec.
Qed.

(** The rescue shell with these commands. *)
Instance core_commands : Commands := {| call := core_call alloc_ok file unset_line; fail := fail; mm_file := mm_file |}.

Instance core_commands_ok : CommandsOk.
Proof.
  refine {| a_call := a_core_call file unset_line; message := message |}.
  - intros addr f args w a a' Hr Hok Hargs Ha. cbn [call core_commands]. unfold core_call, a_core_call in *.
    destruct f as [fa|]; [|by apply (call_ok _ _ _ w a a')]. destruct (fa =? cmd_set_at); [by apply (set_refines _ w a a')|].
    destruct (fa =? cmd_unset_at); [by apply (unset_refines _ w a a')|]. by apply (call_ok _ _ _ w a a').
  - exact fail_ok.
  - match goal with Hc : CommandsOk |- _ => exact (@mm_file_ok _ Hc) end.
Defined.

End Instance_.

(** * Registration *)

Import GrubCommand.

Definition with_flags (fl : Z) (c : grub_command) : grub_command :=
  mk_command (name c) (prio c) (func c) fl (summary c) (description c).

Lemma set_flags_holds s la e lb fl : GrubCommand.holds s (la ++ e :: lb) ->
  exists x s', nodes s !! e_addr e = Some x /\ flags (data x) = flags (e_cmd e) /\
    set_data s (e_addr e) (with_flags fl (data x)) = Some s' /\
    GrubCommand.holds s' (la ++ mk_entry (e_addr e) (with_flags fl (e_cmd e)) (e_time e) :: lb).
Proof.
  intros [(q & Hl & Hq) Hnd Hs Hg Hst Hdom]. apply stored_app in Hst as [Hla [He Hlb]].
  unfold data_of in He. destruct (nodes s !! e_addr e) as [x|] eqn:Ex; [|done]. injection He as He.
  destruct (set_data_spec s (e_addr e) (with_flags fl (data x))) as (s' & E & L1 & P1 & D1); [unfold data_of; by rewrite Ex|].
  set (e' := mk_entry (e_addr e) (with_flags fl (e_cmd e)) (e_time e)).
  assert (e_addr <$> la ++ e' :: lb = e_addr <$> la ++ e :: lb) as Ea by (by rewrite !fmap_app).
  assert (forall f, f ∈ la ++ lb -> e_addr f <> e_addr e) as Hne.
  { intros f Hf Hfe. rewrite fmap_app, fmap_cons, NoDup_app in Hnd. destruct Hnd as (_ & Hd & Hnd%NoDup_cons).
    destruct Hnd as [Hnd _]. apply elem_of_app in Hf as [Hf|Hf].
    - apply (Hd (e_addr f)); [by apply list_elem_of_fmap_2|]. rewrite Hfe. by left.
    - apply Hnd. rewrite <- Hfe. by apply list_elem_of_fmap_2. }
  exists x, s'. split; [done|]. split; [by rewrite He|]. split; [done|]. split.
  - rewrite Ea. apply (seg_ext s s' Head _ L1 P1). by exists q.
  - by rewrite Ea.
  - clear -Hs. induction la as [|f la IH]; cbn [app] in *; apply StronglySorted_inv in Hs as [Hs Hf]; constructor; try done.
    + by apply IH.
    + apply Forall_app in Hf as [Hf1 Hf2]. apply Forall_cons in Hf2 as [Hf2 Hf3]. apply Forall_app. split; [done|]. by constructor.
  - apply Forall_app in Hg as [Hg1 Hg2]. apply Forall_cons in Hg2 as [Hg2 Hg3]. apply Forall_app. split; [done|]. by constructor.
  - apply stored_app. split; [|split].
    + apply (stored_ext s); [|done]. intros f Hf. rewrite D1, decide_False; [done|]. intros Hfe. apply (Hne f); [apply elem_of_app; by left|done].
    + rewrite D1, decide_True by done. by rewrite He.
    + apply (stored_ext s); [|done]. intros f Hf. rewrite D1, decide_False; [done|]. intros Hfe. apply (Hne f); [apply elem_of_app; by right|done].
  - intros b Hb. rewrite Ea. apply Hdom. rewrite D1 in Hb. destruct (decide (e_addr e = b)) as [<-|]; [|done].
    unfold data_of. by rewrite Ex.
Qed.
Lemma register_fresh s l a n f su de t : GrubCommand.holds s l -> a ∉ e_addr <$> l -> cstr n -> (forall g, g ∈ l -> (e_time g < t)%nat) ->
  exists s' l', grub_register_command (Some a) s n f su de = Some (Some a, s') /\ GrubCommand.holds s' l' /\
    l' ≡ₚ mk_entry a (mk_command n 0 f 0 (default [] su) de) t :: l.
Proof.
  intros Hs Ha Hn Ht. apply cmd_register_spec; try done. destruct (nodes s !! a) as [x|] eqn:E; [|done].
  destruct Ha. apply (h_dom s l Hs). unfold data_of. by rewrite E.
Qed.

(** The entries of the four commands. *)
Definition core_entries (a1 a2 a3 a4 : Z) (t : nat) : list entry :=
  [mk_entry a4 (mk_command (chars "insmod") 0 (Callback cmd_insmod_at) 0 (chars "MODULE") (Some (chars "Insert a module."))) (t + 3);
   mk_entry a3 (mk_command (chars "ls") 0 (Callback cmd_ls_at) 0 (chars "[ARG]") (Some (chars "List devices or files."))) (t + 2);
   mk_entry a2 (mk_command (chars "unset") 0 (Callback cmd_unset_at) 0 (chars "ENVVAR") (Some (chars "Remove an environment variable."))) (t + 1);
   mk_entry a1 (mk_command (chars "set") 0 (Callback cmd_set_at) GRUB_COMMAND_FLAG_EXTRACTOR (chars "[ENVVAR=VALUE]")
     (Some (chars "Set an environment variable."))) t].

Ltac names := match goal with |- cstr ?s => let l := eval vm_compute in s in change (cstr l) end;
  unfold cstr, is_char; rewrite !Forall_cons; repeat split; try lia; constructor.

Lemma register_core_spec s l a1 a2 a3 a4 t : GrubCommand.holds s l -> NoDup ([a1; a2; a3; a4] ++ (e_addr <$> l)) ->
  (forall g, g ∈ l -> (e_time g < t)%nat) ->
  exists s' l', grub_register_core_commands [Some a1; Some a2; Some a3; Some a4] s = Some s' /\ GrubCommand.holds s' l' /\
    l' ≡ₚ core_entries a1 a2 a3 a4 t ++ l.
Proof.
  cbn [app]. rewrite !NoDup_cons. intros Hs (N1 & N2 & N3 & N4 & _) Ht. unfold grub_register_core_commands.
  rewrite !elem_of_cons in *.
  destruct (register_fresh s l a1 (chars "set") (Callback cmd_set_at) (Some (chars "[ENVVAR=VALUE]"))
    (Some (chars "Set an environment variable.")) t Hs) as (s1 & l1 & -> & H1 & E1); [tauto|names|done|]. rewrite !bind_ret.
  set (e1 := mk_entry a1 _ t) in E1.
  assert (e1 ∈ l1) as Hin by (rewrite E1; by left). apply list_elem_of_split in Hin as (la & lb & ->).
  destruct (set_flags_holds s1 la e1 lb GRUB_COMMAND_FLAG_EXTRACTOR H1) as (x & s2 & Ex & Ef & E2 & H2).
  cbn [e_addr e1] in Ex, E2. rewrite Ex, !bind_ret. cbn [e_cmd e1 flags] in Ef. rewrite Ef.
  change (Z.lor 0 GRUB_COMMAND_FLAG_EXTRACTOR) with GRUB_COMMAND_FLAG_EXTRACTOR. unfold with_flags in E2. rewrite E2, !bind_ret.
  assert (la ++ lb ≡ₚ l) as Elab by (rewrite <- Permutation_middle in E1; by apply (Permutation_cons_inv (a := e1))).
  clear E1 H1. set (e2 := mk_entry _ _ _) in H2. set (l2 := la ++ e2 :: lb) in *.
  assert (l2 ≡ₚ e2 :: l) as P2 by (unfold l2; by rewrite <- Permutation_middle, Elab). clearbody l2.
  destruct (register_fresh s2 l2 a2 (chars "unset") (Callback cmd_unset_at) (Some (chars "ENVVAR"))
    (Some (chars "Remove an environment variable.")) (t + 1) H2) as (s3 & l3 & -> & H3 & P3).
  { rewrite P2, fmap_cons, elem_of_cons. cbn [e_addr e2 e1]. intuition congruence. }
  { names. }
  { intros g. rewrite P2, elem_of_cons. intros [->|Hg]; [cbn; lia|]. pose proof (Ht g Hg). lia. }
  rewrite !bind_ret.
  destruct (register_fresh s3 l3 a3 (chars "ls") (Callback cmd_ls_at) (Some (chars "[ARG]"))
    (Some (chars "List devices or files.")) (t + 2) H3) as (s4 & l4 & -> & H4 & P4).
  { rewrite P3, P2, !fmap_cons, !elem_of_cons. cbn [e_addr e2 e1]. intuition congruence. }
  { names. }
  { intros g. rewrite P3, P2, !elem_of_cons. intros [->|[->|Hg]]; [cbn; lia..|]. pose proof (Ht g Hg). lia. }
  rewrite !bind_ret.
  destruct (register_fresh s4 l4 a4 (chars "insmod") (Callback cmd_insmod_at) (Some (chars "MODULE"))
    (Some (chars "Insert a module.")) (t + 3) H4) as (s5 & l5 & -> & H5 & P5).
  { rewrite P4, P3, P2, !fmap_cons, !elem_of_cons. cbn [e_addr e2 e1]. intuition congruence. }
  { names. }
  { intros g. rewrite P4, P3, P2, !elem_of_cons. intros [->|[->|[->|Hg]]]; [cbn; lia..|]. pose proof (Ht g Hg). lia. }
  rewrite !bind_ret. exists s5, l5. split; [done|]. split; [done|]. by rewrite P5, P4, P3, P2.
Qed.

End GrubCore.
