(* ===== verification/GrubVgaText.v ===== *)
(** The text terminal of a PC as GRUB drives it before its modules are loaded:
    src/grub/grub-core/term/i386/pc/vga_text.c and the plain output of
    src/grub/grub-core/kern/term.c, which sends every character of a string to the terminal.

    The screen is the list of its 80 * 25 cells, a character and a color each; [None] is an
    access outside of it.  The specification is the text that is seen: the characters of the
    cells, the cells with a color of no foreground included. *)

From S2P Require Import Prelude.

Module GrubVgaText.

Definition COLS : Z := 80.
Definition ROWS : Z := 25.

Record vga_text := mk_vga {
  screen : list Z;
  curr_x : Z;
  curr_y : Z;
  cur_color : Z;
  cursor_high : Z;  (** the registers of the cursor *)
  cursor_low : Z
}.

Definition set_screen (s : list Z) (t : vga_text) : vga_text :=
  mk_vga s (curr_x t) (curr_y t) (cur_color t) (cursor_high t) (cursor_low t).
Definition set_pos (x y : Z) (t : vga_text) : vga_text :=
  mk_vga (screen t) x y (cur_color t) (cursor_high t) (cursor_low t).

(** ** vga_text.c *)

Definition screen_write_char (x y c : Z) (s : list Z) : option (list Z) :=
  if (x <? COLS) && (y <? ROWS) && (0 <=? x) && (0 <=? y) then aset s (y * COLS + x) (u16 c) else Some s.

Definition screen_read_char (x y : Z) (s : list Z) : option Z :=
  c ← aget s (y * COLS + x); Some (sgn 16 c).

Definition update_cursor (t : vga_text) : vga_text :=
  let pos := u32 (curr_y t * COLS + curr_x t) in
  mk_vga (screen t) (curr_x t) (curr_y t) (cur_color t) (u8 (Z.shiftr pos 8)) (Z.land pos 0xFF).

(** A character in the current color. *)
Definition colored (c : Z) (t : vga_text) : Z := Z.lor c (Z.shiftl (cur_color t) 8).

Definition inc_y (t : vga_text) : option vga_text :=
  let t := set_pos 0 (curr_y t) t in
  if curr_y t <? ROWS - 1 then Some (set_pos 0 (curr_y t + 1) t)
  else
    s ← for_range 0 (ROWS - 1) (fun y => for_range 0 COLS (fun x s =>
          c ← screen_read_char x (y + 1) s; screen_write_char x y c s)) (screen t);
    s ← for_range 0 COLS (fun x s => screen_write_char x (ROWS - 1) (colored 32 t) s) s;
    Some (set_screen s t).

Definition inc_x (t : vga_text) : option vga_text :=
  if COLS - 1 <=? curr_x t then inc_y t else Some (set_pos (curr_x t + 1) (curr_y t) t).

Definition grub_vga_text_putchar (c : Z) (t : vga_text) : option vga_text :=
  t ← (if c =? 8 then
         if curr_x t =? 0 then Some t
         else s ← screen_write_char (curr_x t) (curr_y t) 32 (screen t);
              Some (set_pos (curr_x t - 1) (curr_y t) (set_screen s t))
       else if c =? 10 then inc_y t
       else if c =? 13 then Some (set_pos 0 (curr_y t) t)
       else s ← screen_write_char (curr_x t) (curr_y t) (colored c t) (screen t); inc_x (set_screen s t));
  Some (update_cursor t).

Definition grub_vga_text_gotoxy (x y : Z) (t : vga_text) : vga_text := update_cursor (set_pos x y t).

Definition grub_vga_text_cls (t : vga_text) : option vga_text :=
  s ← for_range 0 (ROWS * COLS) (fun i s => aset s i (u16 (colored 32 t))) (screen t);
  Some (grub_vga_text_gotoxy 0 0 (set_screen s t)).

Inductive grub_term_color_state := GRUB_TERM_COLOR_UNDEFINED | GRUB_TERM_COLOR_STANDARD | GRUB_TERM_COLOR_NORMAL | GRUB_TERM_COLOR_HIGHLIGHT.

Definition GRUB_TERM_DEFAULT_STANDARD_COLOR : Z := 0x07.

(** [normal], [highlight]: the variables [grub_term_normal_color] and
    [grub_term_highlight_color]. *)
Definition grub_vga_text_setcolorstate (normal highlight : Z) (state : grub_term_color_state) (t : vga_text) : vga_text :=
  let color := match state with
    | GRUB_TERM_COLOR_STANDARD => Z.land GRUB_TERM_DEFAULT_STANDARD_COLOR 0x7f
    | GRUB_TERM_COLOR_NORMAL => Z.land normal 0x7f
    | GRUB_TERM_COLOR_HIGHLIGHT => Z.land highlight 0x7f
    | GRUB_TERM_COLOR_UNDEFINED => cur_color t
    end in
  mk_vga (screen t) (curr_x t) (curr_y t) color (cursor_high t) (cursor_low t).

(** ** kern/term.c, with this terminal as the only active one *)

Definition GRUB_TERM_TAB_WIDTH : Z := 8.

Definition grub_putcode_dumb (code : Z) (t : vga_text) : option vga_text :=
  if code =? 9 then
    for_range 0 (GRUB_TERM_TAB_WIDTH - curr_x t mod GRUB_TERM_TAB_WIDTH) (fun _ => grub_vga_text_putchar 32) t
  else
    t ← grub_vga_text_putchar code t;
    if code =? 10 then grub_vga_text_putchar 13 t else Some t.

Fixpoint grub_xputs_dumb (str : list Z) (t : vga_text) : option vga_text :=
  match str with
  | [] => Some t
  | c :: str =>
      let code := u32 (s8 c) in
      let code := if 0x7f <? code then 63 else code in
      t ← grub_putcode_dumb code t;
      grub_xputs_dumb str t
  end.

(** * The text on the screen *)

Definition glyph (c : Z) : Z := c mod 256.
Definition text_of (t : vga_text) : list Z := glyph <$> screen t.

(** A text at the start of a row, blanks behind it. *)
Definition pad_row (text : list Z) : list Z := text ++ replicate (80 - length text) 32.

(** The screen [s] with [text] alone in row [y]. *)
Definition with_row (y : Z) (text s : list Z) : list Z :=
  take (Z.to_nat (80 * y)) s ++ pad_row text ++ drop (Z.to_nat (80 * y + 80)) s.

(** A screen and the row of the cursor after the end of a line. *)
Definition next_row (y : Z) (s : list Z) : list Z * Z :=
  if y <? 24 then (s, y + 1) else (drop 80 s ++ replicate 80 32, 24).

(** ** Scrolling *)

Lemma glyph_u16 c : glyph (u16 c) = glyph c.
Proof. unfold glyph, wrap. apply Z.mod_mod_divide. by exists 256. Qed.

Lemma glyph_colored c t : 0 <= c < 256 -> glyph (u16 (colored c t)) = c.
Proof.
  intros Hc. rewrite glyph_u16. unfold glyph, colored. change 256 with (2 ^ 8). apply Z.bits_inj'. intros i Hi.
  rewrite <- Z.land_ones, Z.land_spec, Z.lor_spec, Z.testbit_ones, Z.shiftl_spec by lia.
  destruct (Z.ltb_spec i 8).
  - rewrite (Z.testbit_neg_r (cur_color t)) by lia. rewrite orb_false_r. destruct (Z.leb_spec 0 i); [|lia]. by rewrite andb_true_r.
  - rewrite andb_false_r, andb_false_r. symmetry. apply (Z.bits_above_log2 c i); [lia|].
    destruct (Z.eq_dec c 0) as [->|]; [cbn; lia|]. apply Z.log2_lt_pow2; [lia|].
    apply Z.lt_le_trans with (2 ^ 8); [lia|]. apply Z.pow_le_mono_r; lia.
Qed.

Lemma write_char x y c s : 0 <= x < 80 -> 0 <= y < 25 ->
  screen_write_char x y c s = aset s (y * 80 + x) (u16 c).
Proof. intros Hx Hy. unfold screen_write_char, COLS, ROWS. by zres. Qed.

Lemma scroll_rows s : zlen s = 2000 ->
  for_range 0 24 (fun y => for_range 0 80 (fun x s => c ← screen_read_char x (y + 1) s; screen_write_char x y c s)) s =
  Some (fill_upto 1920 (u16 <$> drop 80 s) s).
Proof.
  intros Hs. set (l := u16 <$> drop 80 s). assert (zlen l = 1920) as Hl.
  { unfold l, zlen in *. rewrite length_fmap, length_drop. lia. }
  destruct (for_range_inv (fun y r => r = fill_upto (80 * y) l s) 0 24
    (fun y => for_range 0 80 (fun x s => c ← screen_read_char x (y + 1) s; screen_write_char x y c s)) s)
    as (s' & E & ->); [lia| |done|exact E].
  intros y r Hy ->. destruct (for_range_inv (fun x r => r = fill_upto (80 * y + x) l s) 0 80
    (fun x s => c ← screen_read_char x (y + 1) s; screen_write_char x y c s) (fill_upto (80 * y) l s))
    as (s' & E & ->); [lia| |by rewrite Z.add_0_r|].
  - intros x r Hx ->. unfold screen_read_char, COLS. rewrite fill_upto_above by lia.
    destruct (aget_Some s ((y + 1) * 80 + x)) as [v Hv]; [lia|]. rewrite Hv. step. step. rewrite write_char by lia.
    rewrite wrap_sgn. replace (y * 80 + x) with (80 * y + x) by lia. eexists. split.
    + apply fill_upto_step; [lia|]. unfold aget, l in *. rewrite (proj2 (Z.leb_le 0 ((y + 1) * 80 + x))) in Hv by lia.
      rewrite (proj2 (Z.leb_le 0 (80 * y + x))) by lia. rewrite list_lookup_fmap, lookup_drop. replace (80 + Z.to_nat (80 * y + x))%nat with (Z.to_nat ((y + 1) * 80 + x)) by lia.
      by rewrite Hv.
    + f_equal. lia.
  - eexists. split; [exact E|]. f_equal. lia.
Qed.

Lemma clear_row c s : zlen s = 2000 ->
  for_range 0 80 (fun x s => screen_write_char x 24 c s) s = Some (take 1920 s ++ replicate 80 (u16 c)).
Proof.
  intros Hs. set (l := take 1920 s ++ replicate 80 (u16 c)).
  assert (zlen l = 2000) as Hl. { unfold l, zlen in *. rewrite length_app, length_take, length_replicate. lia. }
  assert (fill_upto 1920 l s = s) as E0.
  { unfold fill_upto, l. unfold zlen in Hs. change (Z.to_nat 1920) with 1920%nat.
    rewrite take_app_le by (rewrite length_take; lia). rewrite take_take, Nat.min_id. apply take_drop. }
  destruct (for_range_inv (fun x r => r = fill_upto (1920 + x) l s) 0 80 (fun x s => screen_write_char x 24 c s) s)
    as (s' & E & ->); [lia| |by rewrite Z.add_0_r, E0|].
  - intros x r Hx ->. rewrite write_char by lia. eexists. split.
    + change (24 * 80 + x) with (1920 + x). apply fill_upto_step; [lia|]. unfold aget, l.
      rewrite (proj2 (Z.leb_le 0 _)) by lia. unfold zlen in Hs.
      rewrite lookup_app_r by (rewrite length_take; lia). apply lookup_replicate_2. rewrite length_take. lia.
    + f_equal. lia.
  - rewrite E. f_equal. apply fill_upto_all; unfold zlen in *; lia.
Qed.

(** The end of a line, as text. *)
Lemma inc_y_text t : zlen (screen t) = 2000 -> 0 <= curr_y t < 25 ->
  exists t', inc_y t = Some t' /\ zlen (screen t') = 2000 /\ curr_x t' = 0 /\ cur_color t' = cur_color t /\
    (text_of t', curr_y t') = next_row (curr_y t) (text_of t).
Proof.
  intros Hs Hy. unfold inc_y, next_row, ROWS, COLS. cbn [curr_y set_pos screen]. change (25 - 1) with 24.
  destruct (Z.ltb_spec (curr_y t) 24); [by eexists|]. rewrite scroll_rows by done. step.
  set (s1 := fill_upto _ _ _). assert (s1 = (u16 <$> drop 80 (screen t)) ++ drop 1920 (screen t)) as E1.
  { unfold s1, fill_upto. rewrite take_ge; [done|]. rewrite length_fmap, length_drop. unfold zlen in *. lia. }
  assert (zlen s1 = 2000) as H1. { rewrite E1. unfold zlen in *. rewrite length_app, length_fmap, !length_drop. lia. }
  rewrite clear_row by done. step. eexists. split; [done|]. cbn [screen set_screen curr_x curr_y set_pos cur_color].
  split. { unfold zlen in *. rewrite length_app, length_take, length_replicate. lia. }
  split; [done|]. split; [done|]. f_equal; [|lia]. unfold text_of. cbn [screen set_screen].
  rewrite E1, take_app_length' by (rewrite length_fmap, length_drop; unfold zlen in *; lia).
  rewrite fmap_app, fmap_replicate, <- list_fmap_compose. f_equal.
  - rewrite <- fmap_drop. apply list_fmap_ext. intros i c _. apply glyph_u16.
  - by rewrite glyph_colored.
Qed.

(** ** Typing in a row *)

(** The cursor is behind [text], which is alone in row [y] but for the cell under the cursor; the
    rest of the screen shows [s0]. *)
Record in_row (s0 : list Z) (y : Z) (text : list Z) (t : vga_text) : Prop := mk_in_row {
  ir_len : zlen (screen t) = 2000;
  ir_y : curr_y t = y;
  ir_x : curr_x t = zlen text;
  ir_text : forall i c, aget text i = Some c -> aget (text_of t) (80 * y + i) = Some c;
  ir_blank : forall i, zlen text < i < 80 -> aget (text_of t) (80 * y + i) = Some 32;
  ir_rest : forall j, j < 80 * y \/ 80 * y + 80 <= j -> aget (text_of t) j = aget s0 j
}.

(** Nothing under the cursor. *)
Definition clean (t : vga_text) : Prop := aget (text_of t) (80 * curr_y t + curr_x t) = Some 32.

Lemma text_of_set s t i c : 0 <= i < zlen (screen t) -> s = <[Z.to_nat i := c]> (screen t) ->
  forall j, aget (text_of (set_screen s t)) j = if j =? i then Some (glyph c) else aget (text_of t) j.
Proof.
  intros Hi -> j. unfold text_of. cbn [screen set_screen]. rewrite list_fmap_insert.
  assert (0 <= i < zlen (glyph <$> screen t)) by (unfold zlen in *; rewrite length_fmap; lia).
  destruct (Z.eqb_spec j i) as [->|Hne]; [by rewrite aget_insert_eq|]. apply aget_insert_ne; lia.
Qed.

(** One cell of the row of the cursor. *)
Lemma put_cell x y c t : zlen (screen t) = 2000 -> 0 <= x < 80 -> 0 <= y < 25 ->
  exists s, screen_write_char x y c (screen t) = Some s /\ zlen s = 2000 /\
    forall j, aget (text_of (set_screen s t)) j = if j =? 80 * y + x then Some (glyph c) else aget (text_of t) j.
Proof.
  intros Hs Hx Hy. rewrite write_char, aset_Some by lia. eexists. split; [done|]. split; [by rewrite zlen_insert|].
  intros j. rewrite <- (glyph_u16 c). apply text_of_set; [lia|]. do 2 f_equal. lia.
Qed.

Lemma text_cursor t : text_of (update_cursor t) = text_of t.
Proof. done. Qed.

Definition visible (c : Z) : Prop := 32 <= c < 127.

Lemma put_visible s0 y text t c : visible c -> 0 <= y < 25 -> zlen text < 79 -> in_row s0 y text t ->
  exists t', grub_vga_text_putchar c t = Some t' /\ in_row s0 y (text ++ [c]) t' /\ clean t'.
Proof.
  intros Hc Hy Hlt [Hs Ey Ex Ht Hb Hr]. pose proof (zlen_nonneg text). unfold grub_vga_text_putchar, visible in *.
  rewrite (proj2 (Z.eqb_neq c 8)), (proj2 (Z.eqb_neq c 10)), (proj2 (Z.eqb_neq c 13)) by lia.
  destruct (put_cell (curr_x t) (curr_y t) (colored c t) t) as (s & -> & Hs' & Hj); [lia..|]. step.
  unfold inc_x, COLS. cbn [curr_x set_screen]. rewrite (proj2 (Z.leb_gt _ _)) by lia. step.
  eexists. split; [done|].
  assert (glyph (colored c t) = c) as Eg by (rewrite <- glyph_u16; apply glyph_colored; lia). rewrite Eg, Ex, Ey in Hj.
  change (forall j, aget (text_of (update_cursor (set_pos (curr_x t + 1) (curr_y t) (set_screen s t)))) j =
    if j =? 80 * y + zlen text then Some c else aget (text_of t) j) in Hj.
  split; [|unfold clean; rewrite Hj; cbn [curr_x curr_y update_cursor set_pos set_screen]; rewrite Ex, Ey,
    (proj2 (Z.eqb_neq _ _)) by lia; rewrite <- (Hb (zlen text + 1)) by lia; done].
  constructor; try (intros; rewrite Hj); cbn [screen curr_x curr_y update_cursor set_pos set_screen]; rewrite ?zlen_app;
    change (zlen [c]) with 1 in *; try done; try lia.
  - destruct (Z.eqb_spec (80 * y + i) (80 * y + zlen text)) as [E|Hne].
    + assert (i = zlen text) as -> by lia. by rewrite aget_middle in H0.
    + apply Ht. pose proof (aget_range _ _ _ H0) as Hi. rewrite zlen_app in Hi. change (zlen [c]) with 1 in Hi.
      unfold aget in *. rewrite (proj2 (Z.leb_le 0 i)) in * by lia. rewrite lookup_app_l in H0 by (unfold zlen in *; lia). done.
  - rewrite zlen_app in H0. change (zlen [c]) with 1 in H0. rewrite (proj2 (Z.eqb_neq _ _)) by lia. apply Hb. lia.
  - rewrite (proj2 (Z.eqb_neq _ _)) by lia. by apply Hr.
Qed.

Lemma aget_app_l {A} (l k : list A) i x : aget l i = Some x -> aget (l ++ k) i = Some x.
Proof. unfold aget. destruct (0 <=? i); [|done]. intros H. by apply lookup_app_l_Some. Qed.

Lemma put_back s0 y text x t : 0 <= y < 25 -> zlen text < 79 -> in_row s0 y (text ++ [x]) t ->
  exists t', grub_vga_text_putchar 8 t = Some t' /\ in_row s0 y text t' /\ (x = 32 -> clean t').
Proof.
  intros Hy Hlt [Hs Ey Ex Ht Hb Hr]. pose proof (zlen_nonneg text). rewrite zlen_app in Ex, Hb. change (zlen [x]) with 1 in *.
  unfold grub_vga_text_putchar. cbn [Z.eqb Pos.eqb]. rewrite (proj2 (Z.eqb_neq (curr_x t) 0)) by lia.
  destruct (put_cell (curr_x t) (curr_y t) 32 t) as (s & -> & Hs' & Hj); [lia..|]. step. step.
  eexists. split; [done|]. rewrite Ex, Ey in Hj. change (glyph 32) with 32 in Hj.
  change (forall j, aget (text_of (update_cursor (set_pos (curr_x t - 1) (curr_y t) (set_screen s t)))) j =
    if j =? 80 * y + (zlen text + 1) then Some 32 else aget (text_of t) j) in Hj. split.
  - constructor; try (intros; rewrite Hj); cbn [screen curr_x curr_y update_cursor set_pos set_screen]; try done; try lia.
    + pose proof (aget_range _ _ _ H0). rewrite (proj2 (Z.eqb_neq _ _)) by lia. by apply Ht, aget_app_l.
    + destruct (Z.eqb_spec (80 * y + i) (80 * y + (zlen text + 1))); [done|]. apply Hb. lia.
    + rewrite (proj2 (Z.eqb_neq _ _)) by lia. by apply Hr.
  - intros ->. unfold clean. rewrite Hj. cbn [curr_x curr_y update_cursor set_pos set_screen]. rewrite Ex, Ey.
    rewrite (proj2 (Z.eqb_neq _ _)) by lia. replace (zlen text + 1 - 1) with (zlen text) by lia. apply Ht, aget_middle.
Qed.

(** ** Strings *)

Lemma xputs_app a b t : grub_xputs_dumb (a ++ b) t = (t ← grub_xputs_dumb a t; grub_xputs_dumb b t).
Proof.
  revert t. induction a as [|c a IH]; intros t; [done|]. cbn [app grub_xputs_dumb].
  destruct (grub_putcode_dumb _ t); [|done]. by rewrite !bind_ret.
Qed.

(** A character of ASCII is sent as it is. *)
Lemma xputs_one c str t : 0 <= c < 128 -> c <> 9 -> c <> 10 ->
  grub_xputs_dumb (c :: str) t = (t ← grub_vga_text_putchar c t; grub_xputs_dumb str t).
Proof.
  intros Hc H9 H10. cbn [grub_xputs_dumb]. rewrite sgn_small by (change (2 ^ (8 - 1)) with 128; lia). wsmall.
  rewrite (proj2 (Z.ltb_ge 127 c)) by lia. unfold grub_putcode_dumb.
  rewrite (proj2 (Z.eqb_neq c 9)), (proj2 (Z.eqb_neq c 10)) by done.
  destruct (grub_vga_text_putchar c t); [|done]. by rewrite !bind_ret.
Qed.

Lemma xputs_visible s0 y str : forall text t, Forall visible str -> 0 <= y < 25 -> zlen text + zlen str < 80 ->
  in_row s0 y text t -> clean t -> exists t', grub_xputs_dumb str t = Some t' /\ in_row s0 y (text ++ str) t' /\ clean t'.
Proof.
  induction str as [|c str IH]; intros text t Hv Hy Hlen Hr Hc; [rewrite app_nil_r; by exists t|].
  apply Forall_cons in Hv as [Hc0 Hv]. rewrite zlen_cons in Hlen. pose proof (zlen_nonneg str).
  rewrite xputs_one by (unfold visible in Hc0; lia).
  destruct (put_visible s0 y text t c) as (t1 & -> & Hr1 & Hc1); [done|done|lia|done|]. step.
  destruct (IH (text ++ [c]) t1) as (t' & E & Hr' & Hc'); [done|done|rewrite zlen_app; change (zlen [c]) with 1; lia|done|done|].
  exists t'. by rewrite <- app_assoc in Hr'.
Qed.

(** Backspace, blank, backspace takes the last character back. *)
Lemma xputs_erase s0 y text x t : 0 <= y < 25 -> zlen text < 79 -> in_row s0 y (text ++ [x]) t ->
  exists t', grub_xputs_dumb [8; 32; 8] t = Some t' /\ in_row s0 y text t' /\ clean t'.
Proof.
  intros Hy Hlt Hr. rewrite xputs_one by lia. destruct (put_back s0 y text x t) as (t1 & -> & Hr1 & _); [done..|]. step.
  rewrite xputs_one by lia. destruct (put_visible s0 y text t1 32) as (t2 & -> & Hr2 & _); [done..|]. step.
  rewrite xputs_one by lia. destruct (put_back s0 y text 32 t2) as (t3 & -> & Hr3 & Hc3); [done..|]. step.
  exists t3. split; [done|]. split; [done|]. by apply Hc3.
Qed.

(** The whole screen, from the row. *)
Lemma in_row_text s0 y text t : 0 <= y < 25 -> zlen text < 80 -> zlen s0 = 2000 -> in_row s0 y text t -> clean t ->
  text_of t = with_row y text s0.
Proof.
  intros Hy Hlt Hs0 [Hs Ey Ex Ht Hb Hr] Hc. unfold clean in Hc. rewrite Ex, Ey in Hc.
  assert (zlen (text_of t) = 2000) as Hlen by (unfold text_of, zlen in *; by rewrite length_fmap).
  assert (length (pad_row text) = 80%nat) as Hp by (unfold pad_row, zlen in *; rewrite length_app, length_replicate; lia).
  assert (forall j, (j < 2000)%nat -> text_of t !! j = aget (text_of t) (Z.of_nat j)) as Eg.
  { intros j _. unfold aget. rewrite (proj2 (Z.leb_le 0 _)) by lia. by rewrite Nat2Z.id. }
  apply list_eq. intros j. unfold with_row. unfold zlen in Hs0, Hlen.
  destruct (decide (j < 2000)%nat) as [Hj|Hj].
  2: { rewrite !lookup_ge_None_2; [done| |lia]. rewrite !length_app, length_take, length_drop, Hp. lia. }
  rewrite Eg by done. destruct (decide (j < Z.to_nat (80 * y))%nat) as [H1|H1].
  { rewrite lookup_app_l by (rewrite length_take; lia). rewrite lookup_take_lt by done. rewrite Hr by lia.
    unfold aget. rewrite (proj2 (Z.leb_le 0 _)) by lia. by rewrite Nat2Z.id. }
  rewrite lookup_app_r by (rewrite length_take; lia). rewrite length_take. rewrite Nat.min_l by lia.
  destruct (decide (j < Z.to_nat (80 * y + 80))%nat) as [H2|H2].
  2: { rewrite lookup_app_r by lia. rewrite Hp, lookup_drop. rewrite Hr by lia. unfold aget. rewrite (proj2 (Z.leb_le 0 _)) by lia.
       rewrite Nat2Z.id. f_equal. lia. }
  rewrite lookup_app_l by lia. set (i := (j - Z.to_nat (80 * y))%nat). replace (Z.of_nat j) with (80 * y + Z.of_nat i) by lia.
  unfold pad_row, zlen in *. destruct (decide (i < length text)%nat) as [Hi|Hi].
  - rewrite lookup_app_l by done. destruct (lookup_lt_is_Some_2 text i Hi) as [c Hci]. rewrite Hci. apply Ht.
    unfold aget. rewrite (proj2 (Z.leb_le 0 _)) by lia. by rewrite Nat2Z.id.
  - rewrite lookup_app_r by lia. rewrite lookup_replicate_2 by lia.
    destruct (decide (i = length text)) as [->|]; [done|]. apply Hb. lia.
Qed.

(** An empty row with the cursor at its start. *)
Lemma empty_row t y : zlen (screen t) = 2000 -> curr_x t = 0 -> curr_y t = y -> 0 <= y < 25 ->
  with_row y [] (text_of t) = text_of t -> in_row (text_of t) y [] t /\ clean t.
Proof.
  intros Hs Hx Ey Hy Hb. assert (forall i, 0 <= i < 80 -> aget (text_of t) (80 * y + i) = Some 32) as Hbl.
  { intros i Hi. rewrite <- Hb. unfold aget, with_row. change (pad_row []) with (replicate 80 32).
    rewrite (proj2 (Z.leb_le 0 _)) by lia. assert (length (text_of t) = 2000%nat) by (unfold text_of, zlen in *; rewrite length_fmap; lia).
    rewrite lookup_app_r by (rewrite length_take; lia). rewrite length_take. rewrite lookup_app_l by (rewrite length_replicate; lia).
    apply lookup_replicate_2. lia. }
  split.
  - constructor; try done.
    + intros i c H%aget_range. change (@zlen Z []) with 0 in H. lia.
    + intros i Hi. apply Hbl. change (@zlen Z []) with 0 in Hi. lia.
  - unfold clean. rewrite Hx, Ey. by apply Hbl.
Qed.

(** The end of a line. *)
Lemma xputs_newline t : zlen (screen t) = 2000 -> 0 <= curr_y t < 25 ->
  exists t', grub_xputs_dumb [10] t = Some t' /\ zlen (screen t') = 2000 /\ curr_x t' = 0 /\
    (text_of t', curr_y t') = next_row (curr_y t) (text_of t).
Proof.
  intros Hs Hy. destruct (inc_y_text t Hs Hy) as (t1 & E & Hs1 & Hx & _ & Ht). cbn [grub_xputs_dumb].
  change (u32 (s8 10)) with 10. change (127 <? 10) with false. cbv iota. unfold grub_putcode_dumb, grub_vga_text_putchar.
  cbn [Z.eqb Pos.eqb]. rewrite E. rewrite !bind_ret. eexists. split; [done|].
  cbn [screen curr_x curr_y update_cursor set_pos]. done.
Qed.

End GrubVgaText.
