(* ===== verification/GrubShell.v ===== *)
(** The interactive rescue shell of GRUB (src/grub/grub-core/kern/rescue_reader.c): reading and
    editing a line, and the loop that runs the lines; and the properties of the shell as a whole,
    with the commands of [GrubCore].

    Keys are the results of [grub_getkey], one after the other; when they run out the shell waits
    for a key.  Refreshing the terminal has no
    effect on what was written to it. *)

From stdpp Require Import sorting.
From S2P Require Import Prelude GrubStr GrubNum GrubParser GrubPrintf GrubFormat GrubStrOrder GrubEnv.
From S2P Require Import GrubList GrubCommand GrubErr GrubRescue GrubCore GrubVgaText.

Module GrubShell.
Import GrubStr GrubNum GrubParser GrubPrintf GrubFormat GrubStrOrder GrubList GrubRescue GrubCore.

Definition GRUB_RESCUE_BUF_SIZE : Z := 256.

(** The loop over the keys: the buffer, what is written to the terminal, and the keys that are
    left, [None] while the line is not finished. *)
Fixpoint read_keys (keys linebuf : list Z) (pos : Z) (out : list Z) : option (list Z * list Z * option (list Z)) :=
  match keys with
  | [] => Some (linebuf, out, None)
  | c :: keys =>
      if (c =? 10) || (c =? 13) then Some (linebuf, out ++ [10], Some keys)
      else if grub_isprint c then
        if pos <? GRUB_RESCUE_BUF_SIZE - 1 then
          linebuf ← aset linebuf pos c; read_keys keys linebuf (pos + 1) (out ++ [c])
        else read_keys keys linebuf pos out
      else if c =? 8 then
        if 0 <? pos then
          linebuf ← aset linebuf (pos - 1) 0; read_keys keys linebuf (pos - 1) (out ++ [c; 32; c])
        else read_keys keys linebuf pos out
      else read_keys keys linebuf pos out
  end.

Definition prompt (cont : bool) : list Z := if cont then chars "> " else chars "grub rescue> ".

(** The line, what is written, and the keys that are left. *)
Definition grub_rescue_read_line (cont : bool) (keys : list Z) : option (list Z * list Z * option (list Z)) :=
  '(linebuf, out, keys) ← read_keys keys (replicate (Z.to_nat GRUB_RESCUE_BUF_SIZE) 0) 0 (prompt cont);
  Some (cstring linebuf, out, keys).

(** The lines that further calls with [cont] deliver, and what the call that waits has written. *)
Fixpoint typed_lines (fuel : nat) (keys : list Z) : option (list (list Z * list Z) * list Z) :=
  match fuel with
  | O => None
  | S fuel =>
      '(line, out, keys) ← grub_rescue_read_line true keys;
      match keys with
      | None => Some ([], out)
      | Some keys => '(lines, waiting) ← typed_lines fuel keys; Some ((line, out) :: lines, waiting)
      end
  end.

Fixpoint skip_typed (n : nat) (keys : list Z) : option (list Z) :=
  match n with
  | O => Some keys
  | S n => '(_, _, keys) ← grub_rescue_read_line true keys; keys ← keys; skip_typed n keys
  end.

Definition write_text (t : list Z) (w : world) : world := set_errs (put_text t (errs w)) w.

Section Shell.
Context `{Commands}.
Variable alloc_ok : Z -> bool.

(** The [while (1)] loop up to the call that waits for a key.  To see whether the typed lines are
    enough the parser is given one more: when it takes that one too, the shell waits for it in
    the middle of a command line. *)
Fixpoint run_loop (fuel : nat) (keys : list Z) (w : world) : option world :=
  match fuel with
  | O => None
  | S fuel =>
      w ← print_error alloc_ok w;
      let w := set_errs (GrubErr.set_errno ERR_NONE (errs w)) w in
      '(line, out, keys) ← grub_rescue_read_line false keys;
      let w := write_text out w in
      match keys with
      | None => Some w
      | Some keys =>
          if bool_decide (line = []) then run_loop fuel keys w
          else
            '(lines, waiting) ← typed_lines (S (length keys)) keys;
            '(_, _, more) ← split_getline alloc_ok (get_var w) line (Some ((fst <$> lines) ++ [[]]));
            if bool_decide (more = Some []) then Some (write_text (concat (snd <$> lines) ++ waiting) w)
            else
              '(rest, w) ← grub_rescue_parse_line alloc_ok line lines w;
              keys ← skip_typed (length lines - length rest) keys;
              run_loop fuel keys w
      end
  end.

(** With the command line disabled, or needing a password, the function stalls after a message. *)
Definition grub_rescue_run (cli_disabled cli_need_auth : bool) (keys : list Z) (w : world) : option world :=
  if cli_disabled || cli_need_auth then Some (write_text (chars "Rescue mode has been disabled..." ++ [10]) w)
  else run_loop (S (length keys)) keys (write_text (chars "Entering rescue mode..." ++ [10]) w).
End Shell.

(** * Typing a line *)

Definition is_newline (c : Z) : bool := (c =? 10) || (c =? 13).

(** The text of a line after a key: printable characters are added while there is room, backspace
    takes the last one away, other keys do nothing. *)
Definition edit (text : list Z) (c : Z) : list Z :=
  if grub_isprint c then if zlen text <? 255 then text ++ [c] else text
  else if c =? 8 then take (length text - 1) text
  else text.

Definition edited (keys text : list Z) : list Z := fold_left edit keys text.

(** What is written while a line is typed. *)
Fixpoint echo (keys text : list Z) : list Z :=
  match keys with
  | [] => []
  | c :: keys =>
      (if grub_isprint c then if zlen text <? 255 then [c] else []
       else if c =? 8 then if bool_decide (text = []) then [] else [8; 32; 8]
       else []) ++ echo keys (edit text c)
  end.

(** The keys of the finished lines, and of the unfinished one. *)
Fixpoint split_keys (keys : list Z) : list (list Z) * list Z :=
  match keys with
  | [] => ([], [])
  | c :: keys =>
      let '(lines, rest) := split_keys keys in
      if is_newline c then ([] :: lines, rest)
      else match lines with [] => ([], c :: rest) | l :: lines => ((c :: l) :: lines, rest) end
  end.

(** The buffer with a text in it. *)
Definition buf (text : list Z) : list Z := text ++ replicate (256 - length text) 0.

Lemma buf_len text : zlen text <= 255 -> zlen (buf text) = 256.
Proof. intros H. unfold buf, zlen in *. rewrite length_app, length_replicate. lia. Qed.

Lemma buf_add text c : zlen text < 255 -> aset (buf text) (zlen text) c = Some (buf (text ++ [c])).
Proof.
  intros H. rewrite aset_Some by (rewrite buf_len by lia; pose proof (zlen_nonneg text); lia). f_equal.
  unfold buf, zlen in *. rewrite Nat2Z.id, insert_app_r_alt, Nat.sub_diag, <- app_assoc by lia. f_equal.
  rewrite length_app. replace (256 - length text)%nat with (S (256 - (length text + length [c]))) by (cbn [length]; lia). done.
Qed.

Lemma buf_del text c : zlen text < 255 -> aset (buf (text ++ [c])) (zlen text) 0 = Some (buf text).
Proof.
  intros H. assert (zlen (text ++ [c]) = zlen text + 1) as E by (rewrite zlen_app; done).
  rewrite aset_Some by (rewrite buf_len by lia; pose proof (zlen_nonneg text); lia). f_equal.
  unfold buf, zlen in *. rewrite Nat2Z.id, <- app_assoc, insert_app_r_alt, Nat.sub_diag by lia. f_equal.
  rewrite length_app. replace (256 - length text)%nat with (S (256 - (length text + length [c]))) by (cbn [length]; lia). done.
Qed.

Definition printable (text : list Z) : Prop := Forall (fun c => grub_isprint c = true) text /\ zlen text <= 255.

Lemma edit_printable text c : printable text -> printable (edit text c).
Proof.
  intros [Ht Hl]. unfold edit. destruct (grub_isprint c) eqn:E.
  - destruct (Z.ltb_spec (zlen text) 255); [|by split]. split; [apply Forall_app; split; [done|by constructor]|].
    rewrite zlen_app. change (zlen [c]) with 1. lia.
  - destruct (c =? 8); [|by split]. split; [by apply Forall_take|]. unfold zlen in *. rewrite length_take. lia.
Qed.

Lemma edited_printable keys : forall text, printable text -> printable (edited keys text).
Proof. induction keys as [|c keys IH]; intros text H; [done|]. apply IH, edit_printable, H. Qed.

Lemma read_keys_spec keys : forall text out, printable text ->
  let '(lines, rest) := split_keys keys in
  match lines with
  | l :: lines => exists keys', read_keys keys (buf text) (zlen text) out
      = Some (buf (edited l text), out ++ echo l text ++ [10], Some keys') /\ split_keys keys' = (lines, rest) /\
      (length keys' < length keys)%nat
  | [] => read_keys keys (buf text) (zlen text) out = Some (buf (edited rest text), out ++ echo rest text, None)
  end.
Proof.
  induction keys as [|c keys IH]; intros text out Ht; cbn [split_keys read_keys]; [by rewrite app_nil_r|].
  destruct (split_keys keys) as [lines rest] eqn:Es. fold (is_newline c). destruct (is_newline c).
  { exists keys. split; [done|]. split; [done|]. cbn [length]. lia. }
  assert (exists add, (if grub_isprint c then
      if zlen text <? GRUB_RESCUE_BUF_SIZE - 1 then
        linebuf ← aset (buf text) (zlen text) c; read_keys keys linebuf (zlen text + 1) (out ++ [c])
      else read_keys keys (buf text) (zlen text) out
    else if c =? 8 then
      if 0 <? zlen text then
        linebuf ← aset (buf text) (zlen text - 1) 0; read_keys keys linebuf (zlen text - 1) (out ++ [c; 32; c])
      else read_keys keys (buf text) (zlen text) out
    else read_keys keys (buf text) (zlen text) out) = read_keys keys (buf (edit text c)) (zlen (edit text c)) (out ++ add) /\
    forall k, echo (c :: k) text = add ++ echo k (edit text c)) as (add & -> & Hadd).
  { destruct Ht as [_ Hl]. cbn [echo]. eexists. split; [|done]. unfold edit, GRUB_RESCUE_BUF_SIZE.
    destruct (grub_isprint c); [|destruct (Z.eqb_spec c 8) as [->|]].
    - change (256 - 1) with 255. destruct (Z.ltb_spec (zlen text) 255); [|by rewrite app_nil_r].
      rewrite buf_add, bind_ret by done. rewrite zlen_app. done.
    - destruct text as [|c text _] using rev_ind; [by rewrite app_nil_r|]. rewrite zlen_app in *. change (zlen [c]) with 1 in *.
      rewrite bool_decide_false by (by destruct text). pose proof (zlen_nonneg text).
      rewrite (proj2 (Z.ltb_lt 0 (zlen text + 1))) by lia. replace (zlen text + 1 - 1) with (zlen text) by lia.
      rewrite buf_del, bind_ret by lia. rewrite length_app, Nat.add_sub, take_app_length. done.
    - by rewrite app_nil_r. }
  specialize (IH (edit text c) (out ++ add) (edit_printable text c Ht)). destruct lines as [|l lines].
  - rewrite IH, Hadd, app_assoc. done.
  - destruct IH as (keys' & -> & Ek & Hlen). exists keys'. rewrite Hadd, !app_assoc. split; [done|]. split; [done|]. cbn [length]. lia.
Qed.
(** ** The reader *)

Lemma cstring_buf text : printable text -> cstring (buf text) = text.
Proof.
  intros [Ht Hl]. unfold buf. replace (256 - length text)%nat with (S (255 - length text)) by (unfold zlen in *; lia).
  cbn [replicate]. apply cstring_app. eapply Forall_impl; [exact Ht|]. intros c Hc ->. done.
Qed.

Definition line_text (l : list Z) : list Z := edited l [].
Definition line_echo (cont : bool) (l : list Z) : list Z := prompt cont ++ echo l [] ++ [10].
Definition cont_line (l : list Z) : list Z * list Z := (line_text l, line_echo true l).

Lemma printable_nil : printable [].
Proof. split; [constructor|done]. Qed.

Lemma read_line_spec cont keys :
  let '(lines, rest) := split_keys keys in
  match lines with
  | l :: lines => exists keys', grub_rescue_read_line cont keys = Some (line_text l, line_echo cont l, Some keys') /\
      split_keys keys' = (lines, rest) /\ (length keys' < length keys)%nat
  | [] => grub_rescue_read_line cont keys = Some (line_text rest, prompt cont ++ echo rest [], None)
  end.
Proof.
  pose proof (read_keys_spec keys [] (prompt cont) printable_nil) as H. unfold grub_rescue_read_line.
  change (replicate (Z.to_nat GRUB_RESCUE_BUF_SIZE) 0) with (buf []). change (zlen []) with 0 in H.
  destruct (split_keys keys) as [[|l lines] rest].
  - rewrite H, bind_ret, cstring_buf by (apply edited_printable, printable_nil). done.
  - destruct H as (keys' & -> & Hk). exists keys'. rewrite bind_ret, cstring_buf by (apply edited_printable, printable_nil). done.
Qed.

Lemma typed_lines_spec fuel : forall keys, (length keys < fuel)%nat ->
  typed_lines fuel keys = Some (cont_line <$> fst (split_keys keys), prompt true ++ echo (snd (split_keys keys)) []).
Proof.
  induction fuel as [|fuel IH]; intros keys Hf; [lia|]. cbn [typed_lines]. pose proof (read_line_spec true keys) as H.
  destruct (split_keys keys) as [[|l lines] rest]; [by rewrite H|]. destruct H as (keys' & -> & Hk & Hlen). rewrite bind_ret.
  rewrite IH by lia. rewrite Hk. done.
Qed.

Lemma skip_typed_spec n : forall keys, (n <= length (fst (split_keys keys)))%nat ->
  exists keys', skip_typed n keys = Some keys' /\ split_keys keys' = (drop n (fst (split_keys keys)), snd (split_keys keys)) /\
    (length keys' <= length keys)%nat.
Proof.
  induction n as [|n IH]; intros keys Hn; cbn [skip_typed]; [exists keys; split; [done|]; split; [by destruct (split_keys keys)|lia]|].
  pose proof (read_line_spec true keys) as H. destruct (split_keys keys) as [[|l lines] rest]; [cbn in Hn; lia|].
  destruct H as (keys' & -> & Hk & Hlen). rewrite !bind_ret. destruct (IH keys') as (keys2 & -> & Hk2 & Hl2).
  - rewrite Hk. cbn in *. lia.
  - exists keys2. rewrite Hk in Hk2. split; [done|]. split; [done|lia].
Qed.

Lemma line_text_ok l : cstr (line_text l) /\ zlen (line_text l) <= zlen l.
Proof.
  destruct (edited_printable l [] printable_nil) as [H _]. split.
  - eapply Forall_impl; [exact H|]. intros c Hc. unfold grub_isprint, is_char in *. lia.
  - unfold line_text, edited. assert (forall text, zlen (fold_left edit l text) <= zlen text + zlen l) as Hb; [|apply (Hb [])].
    clear H. induction l as [|c l IH]; intros text; cbn [fold_left]; [change (@zlen Z []) with 0; lia|].
    pose proof (IH (edit text c)). rewrite zlen_cons.
    assert (zlen (edit text c) <= zlen text + 1); [|lia]. unfold edit.
    destruct (grub_isprint c); [destruct (_ <? _); rewrite ?zlen_app; change (zlen [c]) with 1; lia|].
    destruct (c =? 8); [|lia]. unfold zlen. rewrite length_take. lia.
Qed.

Lemma split_keys_total keys : total (fst (split_keys keys)) + zlen (snd (split_keys keys)) <= zlen keys.
Proof.
  unfold total. induction keys as [|c keys IH]; [done|]. cbn [split_keys]. destruct (split_keys keys) as [lines rest].
  cbn [fst snd] in *. rewrite zlen_cons. destruct (is_newline c); [cbn [fst snd concat app]; lia|].
  destruct lines as [|l lines]; cbn [fst snd concat app] in *; rewrite !zlen_cons; lia.
Qed.

Lemma cont_total ls : total (fst <$> (cont_line <$> ls)) <= total ls.
Proof.
  unfold total. induction ls as [|l ls IH]; [done|]. rewrite !fmap_cons. cbn [concat fst cont_line].
  rewrite !zlen_app. destruct (line_text_ok l). lia.
Qed.

Lemma cont_cstr ls : Forall cstr (fst <$> (cont_line <$> ls)).
Proof. induction ls as [|l ls IH]; [constructor|]. rewrite !fmap_cons. constructor; [apply line_text_ok|done]. Qed.

(** ** Lines that are not finished *)

Lemma lex_more e x lines : forall l, lines <> [] \/ needs_more (lstate l) = true ->
  lex_rest e (lines ++ [x]) l = if needs_more (lstate (lex_lines e lines l)) then [] else lex_rest e lines l ++ [x].
Proof.
  induction lines as [|line lines IH]; intros l H.
  - destruct H as [H|H]; [done|]. cbn [app lex_rest lex_lines]. rewrite H. destruct (needs_more (lstate (lex_line e x l))); reflexivity.
  - cbn [app lex_rest lex_lines]. destruct (needs_more (lstate (lex_line e line l))) eqn:E; [apply IH; right; exact E|]. by rewrite E.
Qed.
(** * A session *)

Section Session.
Context `{CommandsOk}.
Variable alloc_ok : Z -> bool.
Hypothesis always_ok : forall n, alloc_ok n = true.

(** The errors are printed, then the prompt and the line that is typed. *)
Definition prompted (l : list Z) (a : aworld) : aworld := a_put (line_echo false l) (a_print_error a).

(** The words of a line are complete when it does not end inside quotes or with a backslash. *)
Definition complete (a : aworld) (lines : list (list Z)) : bool :=
  negb (needs_more (lstate (lex_lines (a_get_var a) lines lex_start))).

(** What happens on the keys of the lines that are finished and of the one that is not. *)
Inductive session_runs : list (list Z) -> list Z -> aworld -> aworld -> Prop :=
| Session_wait rest a : session_runs [] rest a (a_put (prompt false ++ echo rest []) (a_print_error a))
| Session_blank l ls rest a a' : line_text l = [] -> session_runs ls rest (prompted l a) a' -> session_runs (l :: ls) rest a a'
| Session_line l ls rest n a a1 a' : line_text l <> [] -> vars_ok a ->
    complete (prompted l a) (line_text <$> l :: ls) = true -> (n <= length ls)%nat ->
    a_line (line_text l) (cont_line <$> ls) (prompted l a) = Some (cont_line <$> drop n ls, a1) ->
    session_runs (drop n ls) rest a1 a' -> session_runs (l :: ls) rest a a'
| Session_more l ls rest a : line_text l <> [] -> vars_ok a -> complete (prompted l a) (line_text <$> l :: ls) = false ->
    session_runs (l :: ls) rest a
      (a_put (concat (line_echo true <$> ls) ++ prompt true ++ echo rest []) (prompted l a)).

(** Errors are gone before the number is reset. *)
Lemma reset_refines w a : refines w a -> fst (GrubErr.current (board a)) = ERR_NONE ->
  refines (set_errs (GrubErr.set_errno ERR_NONE (errs w)) w) a.
Proof.
  intros [He Hc Hi Hv] Hn. destruct Hi. split; cbn [env cmds errs set_errs]; [done|done|by split|].
  rewrite <- Hv in Hn |- *. cbn [GrubErr.current GrubErr.view fst] in Hn. unfold GrubErr.view. cbn. by rewrite Hn.
Qed.

Lemma prompt_refines w a t : refines w a -> exists w', print_error alloc_ok w = Some w' /\
  refines (write_text t (set_errs (GrubErr.set_errno ERR_NONE (errs w')) w')) (a_put t (a_print_error a)).
Proof.
  intros Hr. destruct (print_error_refines alloc_ok always_ok w a Hr) as (w' & E & Hr'). exists w'. split; [done|].
  apply (put_refines t (set_errs (GrubErr.set_errno ERR_NONE (errs w')) w')). by apply reset_refines.
Qed.

(** Whether the typed lines are enough. *)
Lemma enough_spec w a l ls : refines w a -> vars_ok a -> line_text l <> [] -> total (l :: ls) <= 2 ^ 31 ->
  exists e args more, split_getline alloc_ok (get_var w) (line_text l) (Some ((fst <$> (cont_line <$> ls)) ++ [[]])) = Some (e, args, more) /\
    bool_decide (more = Some []) = negb (complete a (line_text <$> l :: ls)).
Proof.
  intros Hr Hok Hl Htot. pose proof (get_var_values w a Hr Hok) as Hval.
  set (lines := (fst <$> (cont_line <$> ls)) ++ [[]]).
  assert (all_lines (line_text l) (Some lines) = (line_text <$> l :: ls) ++ [[]]) as Eall.
  { rewrite fmap_cons, <- app_comm_cons. unfold lines. rewrite <- list_fmap_compose. by destruct (line_text l). }
  assert (Forall cstr ((line_text <$> l :: ls) ++ [[]])) as Hc.
  { apply Forall_app. split; [|by repeat constructor]. apply Forall_fmap, Forall_forall. intros k _. apply line_text_ok. }
  assert (total ((line_text <$> l :: ls) ++ [[]]) <= 2 ^ 31) as Ht.
  { unfold total in *. rewrite concat_app, zlen_app. change (zlen (concat [[]])) with 0.
    pose proof (cont_total (l :: ls)) as H1. rewrite <- list_fmap_compose in H1. unfold total in H1.
    change (fst ∘ cont_line) with line_text in H1. lia. }
  assert (forall n v, get_var w n = Some v -> text v /\ zlen v <= 2 ^ 31) as Htext.
  { intros n v Hv. destruct (Hval n v Hv) as [Hcv Hz]. split; [|done]. eapply Forall_impl; [exact Hcv|]. by intros c [Hc0 _]. }
  rewrite <- Eall in Hc, Ht.
  rewrite (split_getline_spec alloc_ok (get_var w) always_ok Htext (line_text l) (Some lines) (total_text _ Hc) Ht).
  eexists _, _, _. split; [done|]. unfold lines_left. rewrite Eall in *.
  destruct (split_reference_ext (get_var w) (a_get_var a)) with (lines := (line_text <$> l :: ls) ++ [[]]) as (_ & -> & _);
    [by intros n; apply get_var_agrees|by intros n v Hv; apply (Hval n v Hv)|done|].
  rewrite lex_more by (left; done). unfold complete. rewrite negb_involutive.
  destruct (needs_more _); [by rewrite bool_decide_true|]. rewrite bool_decide_false; [done|].
  intros [= E%app_eq_nil]. by destruct E.
Qed.

Lemma session_refines ls rest a a' : session_runs ls rest a a' -> forall keys w fuel, split_keys keys = (ls, rest) ->
  refines w a -> total ls <= 2 ^ 31 -> (length keys < fuel)%nat ->
  exists w', run_loop alloc_ok fuel keys w = Some w' /\ refines w' a'.
Proof.
  induction 1 as [rest a|l ls rest a a' Hl _ IH|l ls rest n a a1 a' Hl Hok Hcomp Hn Ha _ IH|l ls rest a Hl Hok Hcomp];
    intros keys w fuel Ek Hr Htot Hf; (destruct fuel as [|fuel]; [lia|]); cbn [run_loop].
  - destruct (prompt_refines w a (prompt false ++ echo rest []) Hr) as (w1 & -> & Hr1). rewrite bind_ret.
    pose proof (read_line_spec false keys) as Hk. rewrite Ek in Hk. rewrite Hk, bind_ret. by eexists.
  - destruct (prompt_refines w a (line_echo false l) Hr) as (w1 & -> & Hr1). rewrite bind_ret.
    pose proof (read_line_spec false keys) as Hk. rewrite Ek in Hk. destruct Hk as (keys' & -> & Ek' & Hlen). rewrite bind_ret.
    rewrite bool_decide_true by done. apply IH; try done; [|lia].
    unfold total in *. cbn [concat] in Htot. rewrite zlen_app in Htot. pose proof (zlen_nonneg l). lia.
  - destruct (prompt_refines w a (line_echo false l) Hr) as (w1 & -> & Hr1). rewrite bind_ret.
    pose proof (read_line_spec false keys) as Hk. rewrite Ek in Hk. destruct Hk as (keys' & -> & Ek' & Hlen). rewrite bind_ret.
    rewrite bool_decide_false by done. rewrite typed_lines_spec, bind_ret, Ek' by lia. cbn [fst snd].
    destruct (enough_spec _ _ l ls Hr1 Hok Hl Htot) as (e & args & more & -> & Hmore). rewrite bind_ret, Hmore.
    fold (prompted l a). rewrite Hcomp. cbn [negb].
    assert (total (line_text l :: (fst <$> (cont_line <$> ls))) <= 2 ^ 31) as Htot'.
    { pose proof (cont_total ls). destruct (line_text_ok l). unfold total in *. cbn [concat] in *. rewrite zlen_app in *. lia. }
    destruct (line_refines alloc_ok always_ok _ _ _ _ _ _ Hr1 Hok (proj1 (line_text_ok l)) (cont_cstr ls) Htot' Ha)
      as (w2 & -> & Hr2). rewrite bind_ret, !length_fmap, length_drop.
    destruct (skip_typed_spec (length ls - (length ls - n)) keys') as (keys2 & -> & Ek2 & Hlen2); [rewrite Ek'; cbn; lia|].
    rewrite bind_ret. replace (length ls - (length ls - n))%nat with n in Ek2 by lia. rewrite Ek' in Ek2.
    apply IH; try done; [|lia]. pose proof (total_drop n ls). unfold total in *. cbn [concat] in Htot. rewrite zlen_app in Htot.
    pose proof (zlen_nonneg l). lia.
  - destruct (prompt_refines w a (line_echo false l) Hr) as (w1 & -> & Hr1). rewrite bind_ret.
    pose proof (read_line_spec false keys) as Hk. rewrite Ek in Hk. destruct Hk as (keys' & -> & Ek' & Hlen). rewrite bind_ret.
    rewrite bool_decide_false by done. rewrite typed_lines_spec, bind_ret, Ek' by lia. cbn [fst snd].
    destruct (enough_spec _ _ l ls Hr1 Hok Hl Htot) as (e & args & more & -> & Hmore). rewrite bind_ret, Hmore.
    fold (prompted l a). rewrite Hcomp. cbn [negb]. eexists. split; [done|].
    rewrite <- list_fmap_compose. change (snd ∘ cont_line) with (line_echo true). by apply put_refines.
Qed.
End Session.
(** * The reference as a program *)

Section Reference.
Context `{CommandsOk}.

(** No hooks, and values that are strings of at most 2 GiB. *)
Definition vars_check (a : aworld) : bool :=
  match vars a with
  | [] => true
  | m :: _ => forallb (fun '(_, x) => match GrubEnv.read_hook x with Some _ => false | None => true end
      && forallb (fun c => negb (c =? 0) && (-128 <=? c) && (c <? 128)) (GrubEnv.value x)
      && (zlen (GrubEnv.value x) <=? 2 ^ 31)) (map_to_list m)
  end.

Lemma vars_check_ok a : vars_check a = true -> vars_ok a.
Proof.
  unfold vars_check, vars_ok, a_get_var. destruct (vars a) as [|m ms]; [done|]. intros Hm n v. cbn [head]. rewrite bind_ret.
  unfold GrubEnv.a_get. destruct (m !! n) as [x|] eqn:Hx; [|done]. rewrite bind_ret.
  apply elem_of_map_to_list, list_elem_of_In in Hx. pose proof (proj1 (forallb_forall _ _) Hm _ Hx) as Hc. cbn beta iota in Hc.
  destruct (GrubEnv.read_hook x); [done|]. intros [= <-]. apply andb_prop in Hc as [Hc Hlen]. cbn [andb] in Hc. split; [|lia].
  apply Forall_forall. intros c Hin. apply list_elem_of_In in Hin. pose proof (proj1 (forallb_forall _ _) Hc c Hin) as Hb.
  cbn beta in Hb. unfold is_char. lia.
Qed.

Fixpoint run_script (fuel : nat) (lines : list (list Z * list Z)) (a : aworld) : option aworld :=
  match lines, fuel with
  | [], _ => Some a
  | (line, _) :: lines, S fuel =>
      if vars_check a then '(rest, a1) ← a_line line lines a; run_script fuel rest (a_print_error a1) else None
  | _, O => None
  end.

Lemma run_script_runs fuel : forall lines a a', run_script fuel lines a = Some a' -> script_runs lines a a'.
Proof.
  induction fuel as [|fuel IH]; intros [|[line e] lines] a a'; cbn [run_script]; try done; try (intros [= <-]; constructor).
  destruct (vars_check a) eqn:Ec; [|done]. destruct (a_line line lines a) as [[rest a1]|] eqn:Ea; [|done]. rewrite bind_ret. intros Hr.
  apply (Script_line line e lines rest a a1 a'); [by apply vars_check_ok|done|by apply IH].
Qed.

Fixpoint run_session (fuel : nat) (ls : list (list Z)) (rest : list Z) (a : aworld) : option aworld :=
  match ls, fuel with
  | [], _ => Some (a_put (prompt false ++ echo rest []) (a_print_error a))
  | l :: ls, S fuel =>
      if bool_decide (line_text l = []) then run_session fuel ls rest (prompted l a)
      else if vars_check a then
        if complete (prompted l a) (line_text <$> l :: ls) then
          '(rs, a1) ← a_line (line_text l) (cont_line <$> ls) (prompted l a);
          run_session fuel (drop (length ls - length rs) ls) rest a1
        else Some (a_put (concat (line_echo true <$> ls) ++ prompt true ++ echo rest []) (prompted l a))
      else None
  | _, O => None
  end.

Lemma run_session_runs fuel : forall ls rest a a', run_session fuel ls rest a = Some a' -> session_runs ls rest a a'.
Proof.
  induction fuel as [|fuel IH]; intros [|l ls] rest a a'; cbn [run_session]; try done; try (intros [= <-]; constructor).
  case_bool_decide as Hl; [intros Hr; apply Session_blank; [done|by apply IH]|].
  destruct (vars_check a) eqn:Ec; [|done]. apply vars_check_ok in Ec.
  destruct (complete _ _) eqn:Hc; [|by intros [= <-]; apply Session_more].
  destruct (a_line _ _ _) as [[rs a1]|] eqn:Ea; [|done]. rewrite bind_ret. intros Hr.
  assert (rs = cont_line <$> drop (length ls - length rs) ls) as Ers.
  { unfold a_line in Ea. set (k := (length (cont_line <$> ls) - _)%nat) in Ea. destruct (a_run_args _ _); [|done].
    rewrite bind_ret in Ea. injection Ea as <- _. rewrite length_drop, length_fmap, fmap_drop.
    destruct (Nat.le_gt_cases k (length ls)); [by replace (length ls - (length ls - k))%nat with k by lia|].
    rewrite !drop_ge; [done|rewrite length_fmap; lia..]. }
  rewrite Ers in Ea. apply (Session_line l ls rest (length ls - length rs) a a1 a'); try done; [lia|by apply IH].
Qed.
End Reference.

(** * The properties *)

(** C16: Running a script with [grub_parser_execute] has the effect of its lines one after the
    other: each line, with the lines that continue it, is split into words with the variables
    of that moment; [n=v] alone assigns, otherwise the best command of the name of the first
    word is called with the other words, an unknown name is reported; then all errors are
    printed.  An error that was active before a line is split is forgotten.  The result is the
    last error.  Whatever commands there are, as long as they keep the laws of the interface and
    memory can be allocated; for scripts of up to 2^31 characters. *)
Theorem script_execution_correct `{CommandsOk} alloc_ok source w a a' : (forall n, alloc_ok n = true) ->
  refines w a -> cstr source -> zlen source <= 2 ^ 31 -> script_runs (script_lines (Some source)) a a' ->
  exists w', grub_parser_execute alloc_ok source w = Some (fst (GrubErr.current (board a')), w') /\ refines w' a'.
Proof.
  intros Hal Hr Hs Hlen Hrun. destruct (script_lines_ok (S (length source)) (Some source)) as (Hc & Ht & Hl); [cbn; lia|done|].
  unfold grub_parser_execute. cbn [default from_option id src_len] in *.
  destruct (execute_refines alloc_ok Hal _ _ _ Hrun (Some source) w (S (length source)) eq_refl Hr Hc) as (w' & -> & Hr'); [lia|lia|].
  rewrite bind_ret. exists w'. split; [|done]. by rewrite <- (r_view w' a' Hr').
Qed.

(** C17: The interactive shell: with the command line enabled and no password needed, and as long as
    memory can be allocated, whatever keys are typed (up to 2^31 of them), [grub_rescue_run] prints
    the errors and the prompt, reads a line, runs it as above, and comes back, until it waits for a
    key; a line that ends inside quotes or with a backslash is continued at the second prompt before
    anything is run, and empty lines do nothing.  With the command line disabled, or a password
    needed, it prints a message and stalls: no key is read and nothing is run. *)
Theorem rescue_session_correct `{CommandsOk} alloc_ok cli_disabled cli_need_auth keys ls rest w a a' : (forall n, alloc_ok n = true) ->
  refines w a -> zlen keys <= 2 ^ 31 -> split_keys keys = (ls, rest) ->
  (if cli_disabled || cli_need_auth then a' = a_put (chars "Rescue mode has been disabled..." ++ [10]) a
   else session_runs ls rest (a_put (chars "Entering rescue mode..." ++ [10]) a) a') ->
  exists w', grub_rescue_run alloc_ok cli_disabled cli_need_auth keys w = Some w' /\ refines w' a'.
Proof.
  intros Hal Hr Hlen Ek Hrun. unfold grub_rescue_run. destruct (cli_disabled || cli_need_auth).
  - subst a'. eexists. split; [done|]. by apply put_refines.
  - pose proof (split_keys_total keys) as Ht. rewrite Ek in Ht. cbn [fst snd] in Ht. pose proof (zlen_nonneg rest).
    apply (session_refines alloc_ok Hal _ _ _ _ Hrun); [done|by apply put_refines|lia|lia].
Qed.
(** ** A sample *)

(** No further commands; an error has no message. *)
#[local] Instance no_commands : Commands :=
  {| call := fun _ _ _ _ => None; mm_file := chars "kern/mm.c";
     fail := fun _ e s => GrubErr.mk_errors e (replicate 256 0) (GrubErr.grub_error_stack_items s)
       (GrubErr.grub_error_stack_pos s) (GrubErr.grub_error_stack_assert s) (GrubErr.grub_err_printed_errors s) (GrubErr.console s) |}.

#[local] Instance no_commands_ok : CommandsOk.
Proof.
  refine {| a_call := fun _ _ _ _ => None; message := fun _ _ _ => [] |}; [done| |done].
  intros n v e s [Hi Hp Hn Hm Hs]. split; [|done]. split; try done. apply GrubErr.msg_ok_zero.
Defined.

Definition always (_ : Z) : bool := true.
Definition core_file : list Z := chars "kern/corecmd.c".

Lemma set_place_ok : place_ok core_file (chars "grub_core_cmd_set") 53.
Proof. exists (chars "kern/corecmd.c:grub_core_cmd_set:53:"). by vm_compute. Qed.

Lemma unset_place_ok : place_ok core_file (chars "grub_core_cmd_unset") 68.
Proof. exists (chars "kern/corecmd.c:grub_core_cmd_unset:68:"). by vm_compute. Qed.

Definition sample_commands : Commands := core_commands always core_file 68.
Definition sample_commands_ok : @CommandsOk sample_commands :=
  core_commands_ok always (fun _ => eq_refl) core_file 68 set_place_ok unset_place_ok.

(** The four commands of the table, in its order. *)
Definition sample_entries : list GrubCommand.entry :=
  match core_entries 16 32 48 64 0 with [i; l; u; s] => [i; l; s; u] | l => l end.

Lemma sorted_entries_unique l k : StronglySorted GrubCommand.before l -> StronglySorted GrubCommand.before k -> l ≡ₚ k -> l = k.
Proof.
  apply StronglySorted_unique_strong. intros e f _ _. unfold GrubCommand.before. rewrite (strcmp_opp (GrubCommand.e_name f)).
  intros [H1|[E1 H1]] [H2|[E2 H2]]; try lia.
  - rewrite E2 in H1. pose proof (strcmp_opp (GrubCommand.e_name e) (GrubCommand.e_name e)). lia.
  - rewrite E1 in H2. pose proof (strcmp_opp (GrubCommand.e_name f) (GrubCommand.e_name f)). lia.
Qed.

Definition sample_world (t : GrubCommand.table) : world := mk_world GrubEnv.initial_state t GrubErr.start.
Definition sample_aworld : aworld := mk_aworld [∅] sample_entries (GrubErr.view GrubErr.start).

Lemma sample_refines : exists t, grub_register_core_commands [Some 16; Some 32; Some 48; Some 64] GrubCommand.empty_table = Some t /\
  refines (sample_world t) sample_aworld.
Proof.
  destruct (register_core_spec GrubCommand.empty_table [] 16 32 48 64 0 GrubCommand.empty_holds) as (t & l & E & Hh & Hl).
  - by apply (bool_decide_unpack _).
  - intros g Hg. inversion Hg.
  - exists t. split; [done|]. split; [apply GrubEnv.initial_refines| |apply GrubErr.start_inv|done].
    assert (l = sample_entries) as El; [|by rewrite El in Hh]. apply sorted_entries_unique.
    + apply (GrubCommand.h_sorted _ _ Hh).
    + repeat constructor; left; by vm_compute.
    + rewrite Hl, app_nil_r. apply perm_skip, perm_skip, perm_swap.
Qed.

(** Two assignments; an error; a command that does not exist; all variables. *)
Definition sample_script : list Z :=
  chars "x=5" ++ [10] ++ chars "set y=${x}${x}" ++ [10] ++ chars "set z" ++ [10] ++ chars "boot 'a" ++ [10] ++ chars "b'" ++ [10] ++ chars "set".

Lemma script_execution_correct_witness :
  exists t, grub_register_core_commands [Some 16; Some 32; Some 48; Some 64] GrubCommand.empty_table = Some t /\
  exists w', @grub_parser_execute sample_commands always sample_script (sample_world t) = Some (ERR_NONE, w') /\
    GrubErr.console (errs w') =
      chars "error: kern/corecmd.c:grub_core_cmd_set:53:not an assignment." ++ [10] ++
      chars "Unknown command `boot'." ++ [10] ++ chars "x='5'" ++ [10] ++ chars "y='55'" ++ [10].
Proof.
  destruct sample_refines as (t & Et & Hr). exists t. split; [exact Et|].
  destruct (@run_script sample_commands sample_commands_ok 10 (script_lines (Some sample_script)) sample_aworld) as [a'|] eqn:Ea;
    [|exfalso; revert Ea; vm_compute; discriminate].
  destruct (@script_execution_correct sample_commands sample_commands_ok always sample_script (sample_world t) sample_aworld a'
    (fun _ => eq_refl) Hr) as (w' & E & Hr').
  - apply Forall_forall. intros c Hc. revert c Hc. apply Forall_forall. vm_compute. repeat constructor; discriminate.
  - vm_compute. discriminate.
  - exact (run_script_runs 10 _ _ _ Ea).
  - assert (fst (GrubErr.current (board a')) = ERR_NONE /\ GrubErr.screen (board a') =
      chars "error: kern/corecmd.c:grub_core_cmd_set:53:not an assignment." ++ [10] ++
      chars "Unknown command `boot'." ++ [10] ++ chars "x='5'" ++ [10] ++ chars "y='55'" ++ [10]) as [Ee Es].
    { revert Ea. vm_compute. intros [= <-]. split; reflexivity. }
    exists w'. rewrite Ee in E. split; [exact E|]. rewrite <- Es, <- (r_view w' a' Hr'). reflexivity.
Defined.
(** The keys of two lines, the second one continued, with a wrong key taken back, and the start of
    a third one. *)
Definition sample_keys : list Z :=
  chars "y=3" ++ [8] ++ chars "5" ++ [13] ++ [10] ++ chars "set z='" ++ [10] ++ chars "$y'" ++ [10] ++ chars "set" ++ [10] ++ chars "bo".

Lemma rescue_session_correct_witness :
  exists t, grub_register_core_commands [Some 16; Some 32; Some 48; Some 64] GrubCommand.empty_table = Some t /\
  exists w', @grub_rescue_run sample_commands always false false sample_keys (sample_world t) = Some w' /\
    GrubErr.console (errs w') =
      chars "Entering rescue mode..." ++ [10] ++ chars "grub rescue> y=3" ++ [8; 32; 8] ++ chars "5" ++ [10] ++
      chars "grub rescue> " ++ [10] ++ chars "grub rescue> set z='" ++ [10] ++ chars "> $y'" ++ [10] ++
      chars "grub rescue> set" ++ [10] ++ chars "y='5'" ++ [10] ++ chars "z='$y'" ++ [10] ++ chars "grub rescue> bo".
Proof.
  destruct sample_refines as (t & Et & Hr). exists t. split; [exact Et|].
  destruct (@run_session sample_commands sample_commands_ok 10 (fst (split_keys sample_keys)) (snd (split_keys sample_keys))
    (a_put (chars "Entering rescue mode..." ++ [10]) sample_aworld)) as [a'|] eqn:Ea; [|exfalso; revert Ea; vm_compute; discriminate].
  destruct (@rescue_session_correct sample_commands sample_commands_ok always false false sample_keys (fst (split_keys sample_keys))
    (snd (split_keys sample_keys)) (sample_world t) sample_aworld a' (fun _ => eq_refl) Hr) as (w' & E & Hr').
  - vm_compute. discriminate.
  - vm_compute. reflexivity.
  - exact (run_session_runs 10 _ _ _ _ Ea).
  - exists w'. split; [exact E|]. change (GrubErr.console (errs w')) with (GrubErr.screen (GrubErr.view (errs w'))).
    rewrite (r_view w' a' Hr'). revert Ea. vm_compute. intros [= <-]. reflexivity.
Defined.

(** * What is seen while a line is typed *)

Import GrubVgaText.

(** While the keys are typed, the prompt and the line stay within one row of the terminal. *)
Definition fits (cont : bool) (keys : list Z) : Prop :=
  forall n, zlen (prompt cont) + zlen (fold_left edit (take n keys) []) < 80.

(** The output for one key. *)
Lemma echo_key s0 y p text t k : printable text -> 0 <= y < 25 -> zlen p + zlen text < 80 -> zlen p + zlen (edit text k) < 80 ->
  in_row s0 y (p ++ text) t -> clean t ->
  exists t', grub_xputs_dumb (if grub_isprint k then if zlen text <? 255 then [k] else []
    else if k =? 8 then if bool_decide (text = []) then [] else [8; 32; 8] else []) t = Some t' /\
    in_row s0 y (p ++ edit text k) t' /\ clean t'.
Proof.
  intros Ht Hy H0 H1 Hr Hc. pose proof (zlen_nonneg p). unfold edit in *. destruct (grub_isprint k) eqn:Ek.
  - destruct (zlen text <? 255); [|by exists t]. rewrite zlen_app in H1. change (zlen [k]) with 1 in H1.
    destruct (xputs_visible s0 y [k] (p ++ text) t) as (t' & E & Hr' & Hc'); try done.
    + repeat constructor; unfold visible, grub_isprint in *; lia.
    + rewrite zlen_app. change (zlen [k]) with 1. lia.
    + exists t'. by rewrite <- app_assoc in Hr'.
  - destruct (k =? 8); [|by exists t]. destruct text as [|x text _] using rev_ind; [by exists t|].
    rewrite bool_decide_false by (by destruct text). rewrite length_app, Nat.add_sub, take_app_length in *.
    rewrite app_assoc in Hr. apply (xputs_erase s0 y (p ++ text) x t); [done| |done].
    rewrite zlen_app in *. change (zlen [x]) with 1 in H0. lia.
Qed.

Lemma echo_shows s0 y p keys : forall text t, printable text -> 0 <= y < 25 ->
  (forall n, zlen p + zlen (edited (take n keys) text) < 80) -> in_row s0 y (p ++ text) t -> clean t ->
  exists t', grub_xputs_dumb (echo keys text) t = Some t' /\ in_row s0 y (p ++ edited keys text) t' /\ clean t'.
Proof.
  induction keys as [|k keys IH]; intros text t Ht Hy Hf Hr Hc; [by exists t|]. cbn [echo]. rewrite xputs_app.
  destruct (echo_key s0 y p text t k Ht Hy (Hf 0%nat) (Hf 1%nat) Hr Hc) as (t1 & -> & Hr1 & Hc1). step.
  apply IH; [by apply edit_printable|done| |done|done]. intros n. apply (Hf (S n)).
Qed.

Lemma prompt_visible cont : Forall visible (prompt cont) /\ zlen (prompt cont) < 80.
Proof. destruct cont; (split; [|done]); repeat constructor; done. Qed.

(** The terminal after the prompt and the keys, and after the end of the line. *)
Lemma line_shown cont keys t : zlen (screen t) = 2000 -> curr_x t = 0 -> 0 <= curr_y t < 25 ->
  with_row (curr_y t) [] (text_of t) = text_of t -> fits cont keys ->
  exists t1 t', grub_xputs_dumb (prompt cont ++ echo keys []) t = Some t1 /\
    text_of t1 = with_row (curr_y t) (prompt cont ++ line_text keys) (text_of t) /\
    curr_y t1 = curr_y t /\ curr_x t1 = zlen (prompt cont ++ line_text keys) /\
    grub_xputs_dumb (prompt cont ++ echo keys [] ++ [10]) t = Some t' /\ curr_x t' = 0 /\
    (text_of t', curr_y t') = next_row (curr_y t) (text_of t1).
Proof.
  intros Hs Hx Hy Hb Hf. set (y := curr_y t) in *. destruct (empty_row t y Hs Hx eq_refl Hy Hb) as [Hr Hc].
  destruct (prompt_visible cont) as [Hv Hp].
  destruct (xputs_visible (text_of t) y (prompt cont) [] t Hv Hy Hp Hr Hc) as (t0 & E0 & Hr0 & Hc0). cbn [app] in Hr0.
  destruct (echo_shows (text_of t) y (prompt cont) keys [] t0) as (t1 & E1 & Hr1 & Hc1);
    [apply printable_nil|done|exact Hf|by rewrite app_nil_r|done|].
  destruct (xputs_newline t1) as (t' & E' & _ & Hx' & Ht'); [apply Hr1|by rewrite (ir_y _ _ _ _ Hr1)|].
  exists t1, t'. rewrite app_assoc, (xputs_app (prompt cont ++ _)), xputs_app, E0, bind_ret, E1, bind_ret.
  rewrite (ir_y _ _ _ _ Hr1) in Ht'. split; [done|]. split; [|split; [apply Hr1|split; [apply Hr1|done]]].
  apply in_row_text; try done.
  - rewrite zlen_app. specialize (Hf (length keys)). rewrite firstn_all in Hf. exact Hf.
  - unfold text_of, zlen in *. by rewrite length_fmap.
Qed.

Lemma split_keys_line keys c more : Forall (fun k => is_newline k = false) keys -> is_newline c = true ->
  split_keys (keys ++ c :: more) = (keys :: fst (split_keys more), snd (split_keys more)).
Proof.
  intros Hk Hc. induction Hk as [|k keys Hk _ IH]; cbn [app split_keys].
  - rewrite Hc. by destruct (split_keys more).
  - by rewrite IH, Hk.
Qed.

Lemma read_keys_rest keys c more : Forall (fun k => is_newline k = false) keys -> is_newline c = true ->
  forall b p o r, read_keys (keys ++ c :: more) b p o = Some r -> snd r = Some more.
Proof.
  intros Hk Hc. induction Hk as [|k keys Hk _ IH]; intros b p o r; cbn [app read_keys].
  - fold (is_newline c). rewrite Hc. by intros [= <-].
  - fold (is_newline k). rewrite Hk. destruct (grub_isprint k); [|destruct (k =? 8); [|apply IH]].
    all: destruct (_ <? _); [destruct (aset b _ _) as [b'|]; [|done]|]; apply IH.
Qed.

(** C36: reading a line never writes outside the 256 bytes of the buffer: the line has the
    printable keys in order, without those that backspace took back, at most 255 of them.  What
    is written shows it on the VGA text terminal: from the start of an empty row, and as long as
    the prompt and the line take fewer than the 80 columns of that row while they are typed, the row
    shows just the prompt and the line with the cursor at its end, the rest of the screen is as it
    was, and the key that ends the line moves the cursor to the next row, the screen scrolling
    when there is none.  (Once the line has wrapped, a character that is taken back from
    the start of a row stays on the screen.) *)
Theorem read_line_shows_the_line cont keys c more : Forall (fun k => is_newline k = false) keys -> is_newline c = true ->
  exists line out, line = fold_left edit keys [] /\ printable line /\
    grub_rescue_read_line cont (keys ++ c :: more) = Some (line, prompt cont ++ out ++ [10], Some more) /\
    forall t, zlen (screen t) = 2000 -> curr_x t = 0 -> 0 <= curr_y t < 25 ->
      with_row (curr_y t) [] (text_of t) = text_of t -> fits cont keys ->
      exists t1 t', grub_xputs_dumb (prompt cont ++ out) t = Some t1 /\
        text_of t1 = with_row (curr_y t) (prompt cont ++ line) (text_of t) /\
        curr_y t1 = curr_y t /\ curr_x t1 = zlen (prompt cont ++ line) /\
        grub_xputs_dumb (prompt cont ++ out ++ [10]) t = Some t' /\ curr_x t' = 0 /\
        (text_of t', curr_y t') = next_row (curr_y t) (text_of t1).
Proof.
  intros Hk Hc. exists (line_text keys), (echo keys []). split; [done|]. split; [apply edited_printable, printable_nil|].
  split; [|intros t; apply line_shown].
  pose proof (read_line_spec cont (keys ++ c :: more)) as H. rewrite (split_keys_line keys c more Hk Hc) in H.
  destruct H as (keys' & E & _). rewrite E. unfold grub_rescue_read_line in E.
  destruct (read_keys _ _ _ _) as [[[b o] r]|] eqn:Er; [|done]. apply (read_keys_rest _ _ _ Hk Hc) in Er. cbn [snd] in Er.
  rewrite bind_ret in E. injection E as _ _ E. assert (keys' = more) as -> by congruence. reflexivity.
Qed.

(** A cleared screen, the cursor in the last row. *)
Definition sample_screen : vga_text := mk_vga (replicate 2000 0x0720) 0 24 7 0 0.

Lemma read_line_shows_the_line_witness :
  exists out, grub_rescue_read_line false (chars "lx" ++ [8] ++ chars "s" ++ [13] ++ chars "boot") =
    Some (chars "ls", prompt false ++ out ++ [10], Some (chars "boot")) /\
    exists t1 t', grub_xputs_dumb (prompt false ++ out) sample_screen = Some t1 /\
      drop 1920 (text_of t1) = pad_row (chars "grub rescue> ls") /\ curr_x t1 = 15 /\
      grub_xputs_dumb (prompt false ++ out ++ [10]) sample_screen = Some t' /\
      text_of t' = replicate 1840 32 ++ pad_row (chars "grub rescue> ls") ++ replicate 80 32.
Proof.
  destruct (read_line_shows_the_line false (chars "lx" ++ [8] ++ chars "s") 13 (chars "boot")) as (line & out & El & _ & E & Hs).
  - repeat constructor.
  - reflexivity.
  - exists out. change (line = chars "ls") in El. subst line. split; [exact E|].
    destruct (Hs sample_screen) as (t1 & t' & E1 & Ht1 & _ & Hx1 & E' & _ & Ht').
    + vm_compute. reflexivity.
    + reflexivity.
    + cbn. lia.
    + vm_compute. reflexivity.
    + intros n. do 5 (destruct n as [|n]; [vm_compute; reflexivity|]). cbn [take]. vm_compute. reflexivity.
    + exists t1, t'. split; [exact E1|]. rewrite Ht1 in *. split; [vm_compute; reflexivity|]. split; [rewrite Hx1; reflexivity|].
      split; [exact E'|]. apply (f_equal fst) in Ht'. cbn [fst] in Ht'. rewrite Ht'. vm_compute. reflexivity.
Defined.

(** A line of 67 characters fills the row behind the prompt.  Taking the last one back leaves it
    on the screen: the terminal does not go back from the start of a row. *)
Theorem wrapped_character_stays :
  grub_rescue_read_line false (replicate 67 97 ++ [8; 10]) =
    Some (replicate 66 97, prompt false ++ replicate 67 97 ++ [8; 32; 8] ++ [10], Some []) /\
  exists t', grub_xputs_dumb (prompt false ++ replicate 67 97 ++ [8; 32; 8])
      (mk_vga (replicate 2000 0x0720) 0 0 7 0 0) = Some t' /\
    take 80 (text_of t') = prompt false ++ replicate 67 97 /\ curr_x t' = 0 /\ curr_y t' = 1.
Proof.
  split; [vm_compute; reflexivity|]. eexists. split; [vm_compute; reflexivity|]. split; [vm_compute; reflexivity|].
  split; reflexivity.
Qed.

End GrubShell.
