(* ===== verification/GrubDisk.v ===== *)
(** The disk layer of GRUB (src/grub/grub-core/kern/disk.c, kern/disk_common.c, lib/disk.c,
    include/grub/disk.h): the range check over nested partitions, the cache of 32 KiB units, and
    reading and writing through it.

    The drivers are the interface [Devices]: reading and writing native sectors of the disk that
    an open disk names, with whatever medium is behind them.  [memory] says of every allocation,
    in the order they are made, whether it succeeds and whether the memory manager dropped the
    cache on the way.  A hook is told about reads and may only return a code.  Debug output is
    off, so that saving the error around it has no effect. *)

From S2P Require Import Prelude GrubStr.

Module GrubDisk.
Import GrubStr.

Definition GRUB_DISK_SECTOR_SIZE : Z := 0x200.
Definition GRUB_DISK_SECTOR_BITS : Z := 9.
Definition GRUB_DISK_CACHE_NUM : Z := 1021.
Definition GRUB_DISK_CACHE_BITS : Z := 6.
Definition GRUB_DISK_CACHE_SIZE : Z := Z.shiftl 1 GRUB_DISK_CACHE_BITS.
Definition GRUB_DISK_MAX_SECTORS : Z := Z.shiftl 1 (60 - GRUB_DISK_SECTOR_BITS).
Definition GRUB_DISK_SIZE_UNKNOWN : Z := 0xffffffffffffffff.
Definition MAX_READ_RECURSION_DEPTH : Z := 16.

(** The bytes of a cache unit. *)
Definition unit_bytes : Z := Z.shiftl GRUB_DISK_SECTOR_SIZE GRUB_DISK_CACHE_BITS.

Record grub_partition := mk_partition {
  number : Z;
  start : Z;
  len : Z;
  offset : Z;
  index : Z;
  partmap : list Z;
  msdostype : Z
}.

(** What a hook is told: sector, offset, length and data. *)
Definition read_hook_t : Type := Z -> Z -> Z -> list Z -> grub_err_t.

(** An open disk; its partition first, then the partitions that contain it. *)
Record grub_disk := mk_disk {
  disk_name : list Z;
  dev_id : Z;
  total_sectors : Z;
  log_sector_size : Z;
  max_agglomerate : Z;
  id : Z;
  partition : list grub_partition;
  read_hook : option read_hook_t
}.

Definition set_partition (p : list grub_partition) (k : grub_disk) : grub_disk :=
  mk_disk (disk_name k) (dev_id k) (total_sectors k) (log_sector_size k) (max_agglomerate k) (id k) p (read_hook k).

(** Reading and writing a number of native sectors of a disk. *)
Class Devices (D : Type) := {
  disk_read : D -> grub_disk -> Z -> Z -> grub_err_t + list Z;
  disk_write : D -> grub_disk -> Z -> Z -> list Z -> grub_err_t * D
}.

Record grub_disk_cache := mk_cache {
  c_dev_id : Z;
  c_disk_id : Z;
  c_sector : Z;
  c_data : option (list Z);
  c_lock : bool
}.

Definition empty_cache : grub_disk_cache := mk_cache 0 0 0 None false.

Definition set_lock (b : bool) (c : grub_disk_cache) : grub_disk_cache :=
  mk_cache (c_dev_id c) (c_disk_id c) (c_sector c) (c_data c) b.
Definition drop_data (b : bool) (c : grub_disk_cache) : grub_disk_cache :=
  mk_cache (c_dev_id c) (c_disk_id c) (c_sector c) None b.

(** [size] bytes from a position of a buffer. *)
Definition slice (l : list Z) (off size : Z) : option (list Z) :=
  if (0 <=? off) && (0 <=? size) && (off + size <=? zlen l)
  then Some (take (Z.to_nat size) (drop (Z.to_nat off) l)) else None.

(** ** Ranges *)

Definition grub_disk_to_native_sector (k : grub_disk) (sector : Z) : Z :=
  Z.shiftr sector (log_sector_size k - GRUB_DISK_SECTOR_BITS).
Definition grub_disk_from_native_sector (k : grub_disk) (sector : Z) : Z :=
  u64 (Z.shiftl sector (log_sector_size k - GRUB_DISK_SECTOR_BITS)).

(** The sectors that a range touches. *)
Definition range_sectors (offset size : Z) : Z :=
  Z.shiftr (u64 (offset + size + GRUB_DISK_SECTOR_SIZE - 1)) GRUB_DISK_SECTOR_BITS.

Fixpoint adjust_partitions (parts : list grub_partition) (sector offset size : Z) : option Z :=
  match parts with
  | [] => Some sector
  | p :: parts =>
      if (len p <=? sector) || (u64 (len p - sector) <? range_sectors offset size) then None
      else adjust_partitions parts (u64 (sector + start p)) offset size
  end.

(** The sector of the disk and the offset in it. *)
Definition grub_disk_adjust_range (k : grub_disk) (sector offset size : Z) : grub_err_t + Z * Z :=
  let sector := u64 (sector + Z.shiftr offset GRUB_DISK_SECTOR_BITS) in
  let offset := Z.land offset (GRUB_DISK_SECTOR_SIZE - 1) in
  match adjust_partitions (partition k) sector offset size with
  | None => inl ERR_OUT_OF_RANGE
  | Some sector =>
      let total := grub_disk_from_native_sector k (total_sectors k) in
      let total := if GRUB_DISK_MAX_SECTORS <? total then GRUB_DISK_MAX_SECTORS else total in
      if (total <=? sector) || (u64 (total - sector) <? range_sectors offset size) then inl ERR_OUT_OF_RANGE
      else inr (sector, offset)
  end.

Definition grub_disk_cache_get_index (dev_id disk_id sector : Z) : nat :=
  Z.to_nat (u64 (dev_id * 524287 + disk_id * 2606459 + u32 (Z.shiftr sector GRUB_DISK_CACHE_BITS)) mod GRUB_DISK_CACHE_NUM).

Definition grub_disk_native_sectors (k : grub_disk) : Z :=
  match partition k with
  | p :: _ => len p
  | [] =>
      if negb (total_sectors k =? GRUB_DISK_SIZE_UNKNOWN) then grub_disk_from_native_sector k (total_sectors k)
      else GRUB_DISK_SIZE_UNKNOWN
  end.

(** ** The state *)

Section Disk.
Context {D : Type} `{Devices D}.
Variable memory : nat -> Z -> bool * bool.

Record state := mk_state {
  grub_disk_cache_table : list grub_disk_cache;
  medium : D;
  grub_errno : grub_err_t;
  read_recursion_depth : Z;
  clock : nat;
  hook_calls : list (Z * Z * Z)
}.

Definition set_table (t : list grub_disk_cache) (s : state) : state :=
  mk_state t (medium s) (grub_errno s) (read_recursion_depth s) (clock s) (hook_calls s).
Definition set_medium (d : D) (s : state) : state :=
  mk_state (grub_disk_cache_table s) d (grub_errno s) (read_recursion_depth s) (clock s) (hook_calls s).
Definition set_errno (e : grub_err_t) (s : state) : state :=
  mk_state (grub_disk_cache_table s) (medium s) e (read_recursion_depth s) (clock s) (hook_calls s).
Definition set_depth (n : Z) (s : state) : state :=
  mk_state (grub_disk_cache_table s) (medium s) (grub_errno s) n (clock s) (hook_calls s).
Definition tick (s : state) : state :=
  mk_state (grub_disk_cache_table s) (medium s) (grub_errno s) (read_recursion_depth s) (S (clock s)) (hook_calls s).
Definition log_hook (c : Z * Z * Z) (s : state) : state :=
  mk_state (grub_disk_cache_table s) (medium s) (grub_errno s) (read_recursion_depth s) (clock s) (hook_calls s ++ [c]).

(** An entry of the table; the index is always below its size. *)
Definition entry (i : nat) (s : state) : grub_disk_cache := default empty_cache (grub_disk_cache_table s !! i).
Definition set_entry (i : nat) (c : grub_disk_cache) (s : state) : state := set_table (<[i := c]> (grub_disk_cache_table s)) s.

(** ** The cache *)

Definition grub_disk_cache_invalidate_all (s : state) : state :=
  set_table ((fun c => if negb (c_lock c) then drop_data (c_lock c) c else c) <$> grub_disk_cache_table s) s.

(** [grub_malloc]. *)
Definition malloc (n : Z) (s : state) : bool * state :=
  let '(ok, dropped) := memory (clock s) n in
  let s := tick s in
  let s := if (dropped : bool) then grub_disk_cache_invalidate_all s else s in
  (ok, if (ok : bool) then s else set_errno ERR_OUT_OF_MEMORY s).

Definition same_unit (dev disk sector : Z) (c : grub_disk_cache) : bool :=
  (c_dev_id c =? dev) && (c_disk_id c =? disk) && (c_sector c =? sector).

Definition grub_disk_cache_fetch (dev disk sector : Z) (s : state) : option (list Z) * state :=
  let i := grub_disk_cache_get_index dev disk sector in
  let c := entry i s in
  if same_unit dev disk sector c then (c_data c, set_entry i (set_lock true c) s) else (None, s).

Definition grub_disk_cache_unlock (dev disk sector : Z) (s : state) : state :=
  let i := grub_disk_cache_get_index dev disk sector in
  let c := entry i s in
  if same_unit dev disk sector c then set_entry i (set_lock false c) s else s.

Definition grub_disk_cache_store (dev disk sector : Z) (data : list Z) (s : state) : grub_err_t * state :=
  let i := grub_disk_cache_get_index dev disk sector in
  let s := set_entry i (drop_data false (entry i s)) s in
  let '(ok, s) := malloc unit_bytes s in
  if ok then (ERR_NONE, set_entry i (mk_cache dev disk sector (Some data) (c_lock (entry i s))) s)
  else (grub_errno s, s).

Definition grub_disk_cache_invalidate (dev disk sector : Z) (s : state) : state :=
  let sector := Z.land sector (Z.lnot (GRUB_DISK_CACHE_SIZE - 1)) in
  let i := grub_disk_cache_get_index dev disk sector in
  let c := entry i s in
  if same_unit dev disk sector c && match c_data c with Some _ => true | None => false end
  then set_entry i (drop_data false c) s else s.

(** ** Reading *)

(** A driver that fails has set the error. *)
Definition dev_read (k : grub_disk) (sector n : Z) (s : state) : (grub_err_t + list Z) * state :=
  match disk_read (medium s) k (grub_disk_to_native_sector k sector) n with
  | inl e => (inl e, set_errno e s)
  | inr b => (inr b, s)
  end.

Definition grub_disk_read_small_real (k : grub_disk) (sector offset size : Z) (s : state)
  : option ((grub_err_t + list Z) * state) :=
  let '(data, s) := grub_disk_cache_fetch (dev_id k) (id k) sector s in
  match data with
  | Some data => b ← slice data offset size; Some (inr b, grub_disk_cache_unlock (dev_id k) (id k) sector s)
  | None =>
      let '(ok, s) := malloc unit_bytes s in
      if negb ok then Some (inl (grub_errno s), s) else
      let whole := (total_sectors k =? GRUB_DISK_SIZE_UNKNOWN)
        || (u64 (sector + GRUB_DISK_CACHE_SIZE) <? grub_disk_from_native_sector k (total_sectors k)) in
      let '(tmp, s) :=
        if whole then
          let '(r, s) := dev_read k sector (Z.shiftl 1 (GRUB_DISK_CACHE_BITS + GRUB_DISK_SECTOR_BITS - log_sector_size k)) s in
          (match r with inr tmp => Some tmp | inl _ => None end, s)
        else (None, s) in
      match tmp with
      | Some tmp =>
          b ← slice tmp offset size;
          let '(_, s) := grub_disk_cache_store (dev_id k) (id k) sector tmp s in
          Some (inr b, s)
      | None =>
          let s := set_errno ERR_NONE s in
          let sector := u64 (sector + Z.shiftr offset GRUB_DISK_SECTOR_BITS) in
          let offset := Z.land offset (Z.shiftl 1 GRUB_DISK_SECTOR_BITS - 1) in
          let aligned := Z.land sector (Z.lnot (Z.shiftl 1 (log_sector_size k - GRUB_DISK_SECTOR_BITS) - 1)) in
          let offset := u64 (offset + Z.shiftl (sector - aligned) GRUB_DISK_SECTOR_BITS) in
          let num := u32 (Z.shiftr (u64 (size + offset + Z.shiftl 1 (log_sector_size k) - 1)) (log_sector_size k)) in
          let '(ok, s) := malloc (u32 (Z.shiftl num (log_sector_size k))) s in
          if negb ok then Some (inl (grub_errno s), s) else
          let '(r, s) := dev_read k aligned num s in
          match r with
          | inl _ => Some (inl (grub_errno s), s)
          | inr tmp => b ← slice tmp offset size; Some (inr b, s)
          end
      end
  end.

Definition grub_disk_read_small (k : grub_disk) (sector offset size : Z) (s : state)
  : option ((grub_err_t + list Z) * state) :=
  '(r, s) ← grub_disk_read_small_real k sector offset size s;
  match r, read_hook k with
  | inr b, Some hook =>
      let sector := u64 (sector + Z.shiftr offset GRUB_DISK_SECTOR_BITS) in
      let offset := Z.land offset (GRUB_DISK_SECTOR_SIZE - 1) in
      let e := hook sector offset (u32 size) b in
      Some (if decide (e = ERR_NONE) then inr b else inl e, log_hook (sector, offset, u32 size) s)
  | r, _ => Some (r, s)
  end.

(** The units that are not in the cache, at most [n]; the data of the unit behind them when it is. *)
Fixpoint find_cached (n : nat) (k : grub_disk) (sector agglomerate : Z) (s : state) : Z * option (list Z) * state :=
  match n with
  | O => (agglomerate, None, s)
  | S n =>
      match grub_disk_cache_fetch (dev_id k) (id k) (u64 (sector + Z.shiftl agglomerate GRUB_DISK_CACHE_BITS)) s with
      | (Some data, s) => (agglomerate, Some data, s)
      | (None, s) => find_cached n k sector (agglomerate + 1) s
      end
  end.

(** The units of [data] go to the cache. *)
Fixpoint store_units (n : nat) (k : grub_disk) (sector i : Z) (data : list Z) (s : state) : option state :=
  match n with
  | O => Some s
  | S n =>
      b ← slice data (Z.shiftl i (GRUB_DISK_CACHE_BITS + GRUB_DISK_SECTOR_BITS)) unit_bytes;
      let '(_, s) := grub_disk_cache_store (dev_id k) (id k) (u64 (sector + Z.shiftl i GRUB_DISK_CACHE_BITS)) b s in
      store_units n k sector (i + 1) data s
  end.

Definition tell_hook (k : grub_disk) (sector size : Z) (s : state) : state :=
  match read_hook k with Some _ => log_hook (sector, 0, u32 size) s | None => s end.

(** The loop over whole units: the error, or the place and the size that are left, and what was
    stored. *)
Fixpoint read_units (fuel : nat) (k : grub_disk) (sector size : Z) (acc : list Z) (s : state)
  : option ((grub_err_t + Z * Z * list Z) * state) :=
  if size <? Z.shiftl GRUB_DISK_CACHE_SIZE GRUB_DISK_SECTOR_BITS then Some (inr (sector, size, acc), s) else
  match fuel with
  | O => None
  | S fuel =>
      let limit := Z.min (Z.shiftr size (GRUB_DISK_SECTOR_BITS + GRUB_DISK_CACHE_BITS)) (max_agglomerate k) in
      let '(agglomerate, data, s) := find_cached (Z.to_nat limit) k sector 0 s in
      cached ← (match data with Some data => slice data 0 unit_bytes | None => Some [] end);
      let s := match data with
               | Some _ => grub_disk_cache_unlock (dev_id k) (id k) (u64 (sector + Z.shiftl agglomerate GRUB_DISK_CACHE_BITS)) s
               | None => s
               end in
      let bytes := Z.shiftl agglomerate (GRUB_DISK_CACHE_BITS + GRUB_DISK_SECTOR_BITS) in
      '(r, s) ← (if agglomerate =? 0 then Some (inr [], s)
                 else
                   let '(r, s) := dev_read k sector
                     (Z.shiftl agglomerate (GRUB_DISK_CACHE_BITS + GRUB_DISK_SECTOR_BITS - log_sector_size k)) s in
                   match r with
                   | inl e => Some (inl e, s)
                   | inr b => s ← store_units (Z.to_nat agglomerate) k sector 0 b s; Some (inr b, tell_hook k sector bytes s)
                   end);
      match r with
      | inl e => Some (inl e, s)
      | inr b =>
          let sector := u64 (sector + Z.shiftl agglomerate GRUB_DISK_CACHE_BITS) in
          let size := size - bytes in
          match data with
          | Some _ =>
              read_units fuel k (u64 (sector + GRUB_DISK_CACHE_SIZE)) (size - unit_bytes) (acc ++ b ++ cached)
                (tell_hook k sector unit_bytes s)
          | None => read_units fuel k sector size (acc ++ b) s
          end
      end
  end.

(** The part before the first boundary of a unit; what is left to read, and what was stored. *)
Definition read_first (k : grub_disk) (sector offset size : Z) (s : state)
  : option ((grub_err_t + Z * Z * list Z) * state) :=
  if negb (offset =? 0) || negb (Z.land sector (GRUB_DISK_CACHE_SIZE - 1) =? 0) then
    let start_sector := Z.land sector (Z.lnot (GRUB_DISK_CACHE_SIZE - 1)) in
    let pos := Z.shiftl (sector - start_sector) GRUB_DISK_SECTOR_BITS in
    let len := u64 (unit_bytes - pos - offset) in
    let len := if size <? len then size else len in
    '(r, s) ← grub_disk_read_small k start_sector (u64 (offset + pos)) len s;
    Some (match r with
          | inl e => inl e
          | inr b => inr (u64 (sector + Z.shiftr (u64 (offset + len)) GRUB_DISK_SECTOR_BITS), size - len, b)
          end, s)
  else Some (inr (sector, size, []), s).

(** Everything between the two changes of the recursion depth. *)
Definition read_parts (k : grub_disk) (sector offset size : Z) (s : state) : option ((grub_err_t + list Z) * state) :=
  '(r, s) ← read_first k sector offset size s;
  match r with
  | inl e => Some (inl e, s)
  | inr (sector, size, b1) =>
      '(r, s) ← read_units (Z.to_nat (size / unit_bytes)) k sector size [] s;
      match r with
      | inl e => Some (inl e, s)
      | inr (sector, size, b2) =>
          if size =? 0 then Some (inr (b1 ++ b2), s)
          else
            '(r, s) ← grub_disk_read_small k sector 0 size s;
            Some (match r with inl e => inl e | inr b3 => inr (b1 ++ b2 ++ b3) end, s)
      end
  end.

(** The code, and what was stored when it is [ERR_NONE]. *)
Definition grub_disk_read (k : grub_disk) (sector offset size : Z) (s : state) : option (grub_err_t * list Z * state) :=
  match grub_disk_adjust_range k sector offset size with
  | inl e => let s := set_errno e s in Some (grub_errno s, [], s)
  | inr (sector, offset) =>
      let s := set_depth (u32 (read_recursion_depth s + 1)) s in
      '(e, b, s) ← (if MAX_READ_RECURSION_DEPTH <=? read_recursion_depth s
                    then Some (ERR_NONE, [], set_errno ERR_RECURSION_DEPTH s)
                    else
                      '(r, s) ← read_parts k sector offset size s;
                      Some (match r with inl e => (e, [], s) | inr b => (grub_errno s, b, s) end));
      Some (e, b, set_depth (u32 (read_recursion_depth s - 1)) s)
  end.
(** ** Writing *)

Definition dev_write (k : grub_disk) (sector n : Z) (b : list Z) (s : state) : grub_err_t * state :=
  let '(e, d) := disk_write (medium s) k (grub_disk_to_native_sector k sector) n b in
  let s := set_medium d s in
  (e, if decide (e = ERR_NONE) then s else set_errno e s).

(** [b] over a part of a buffer; [None] past its end. *)
Definition overwrite (old : list Z) (off : Z) (b : list Z) : option (list Z) :=
  if (0 <=? off) && (off + zlen b <=? zlen old)
  then Some (take (Z.to_nat off) old ++ b ++ drop (Z.to_nat (off + zlen b)) old) else None.

(** The units of [n] native sectors. *)
Fixpoint invalidate_sectors (n : nat) (k : grub_disk) (sector : Z) (s : state) : state :=
  match n with
  | O => s
  | S n => invalidate_sectors n k (u64 (sector + Z.shiftl 1 (log_sector_size k - GRUB_DISK_SECTOR_BITS)))
             (grub_disk_cache_invalidate (dev_id k) (id k) sector s)
  end.

(** A native sector of which a part changes; whether to go on, and the bytes of [buf] that went. *)
Definition write_part (k : grub_disk) (sector real_offset : Z) (buf : list Z) (s : state) : option (option Z * state) :=
  let '(ok, s) := malloc (Z.shiftl 1 (log_sector_size k)) s in
  if negb ok then Some (None, s) else
  '(e, tmp, s) ← grub_disk_read (set_partition [] k) sector 0 (Z.shiftl 1 (log_sector_size k)) s;
  if negb (bool_decide (e = ERR_NONE)) then Some (None, s) else
  let len := Z.shiftl 1 (log_sector_size k) - real_offset in
  let len := if zlen buf <? len then zlen buf else len in
  b ← slice buf 0 len;
  tmp ← overwrite tmp real_offset b;
  let s := grub_disk_cache_invalidate (dev_id k) (id k) sector s in
  let '(e, s) := dev_write k sector 1 tmp s in
  Some (if decide (e = ERR_NONE) then Some len else None, s).

(** Whole native sectors; the new place, and the bytes of [buf] that went. *)
Definition write_whole (k : grub_disk) (sector : Z) (buf : list Z) (s : state) : option (option (Z * Z) * state) :=
  let size := zlen buf in
  let len := Z.land size (Z.lnot (Z.shiftl 1 (log_sector_size k) - 1)) in
  let n := Z.shiftr size (log_sector_size k) in
  let most := u32 (Z.shiftl (max_agglomerate k) (GRUB_DISK_CACHE_BITS + GRUB_DISK_SECTOR_BITS - log_sector_size k)) in
  let n := if most <? n then most else n in
  b ← slice buf 0 (Z.shiftl n (log_sector_size k));
  let '(e, s) := dev_write k sector n b s in
  if decide (e = ERR_NONE) then
    Some (Some (u64 (sector + Z.shiftl n (log_sector_size k - GRUB_DISK_SECTOR_BITS)), len),
          invalidate_sectors (Z.to_nat n) k sector s)
  else Some (None, s).

(** The loop over [buf]. *)
Fixpoint write_loop (fuel : nat) (k : grub_disk) (sector real_offset : Z) (buf : list Z) (s : state) : option state :=
  let size := zlen buf in
  if size =? 0 then Some s else
  match fuel with
  | O => None
  | S fuel =>
      if negb (real_offset =? 0) || (size <? Z.shiftl 1 (log_sector_size k)) then
        '(r, s) ← write_part k sector real_offset buf s;
        match r with
        | None => Some s
        | Some len =>
            write_loop fuel k (u64 (sector + Z.shiftl 1 (log_sector_size k - GRUB_DISK_SECTOR_BITS))) 0 (drop (Z.to_nat len) buf) s
        end
      else
        '(r, s) ← write_whole k sector buf s;
        match r with
        | None => Some s
        | Some (sector, len) => write_loop fuel k sector real_offset (drop (Z.to_nat len) buf) s
        end
  end.

(** The code that is returned: -1, or the error. *)
Inductive write_code := write_refused | write_done (e : grub_err_t).

Definition grub_disk_write (k : grub_disk) (sector offset : Z) (buf : list Z) (s : state) : option (write_code * state) :=
  match grub_disk_adjust_range k sector offset (zlen buf) with
  | inl e => Some (write_refused, set_errno e s)
  | inr (sector, offset) =>
      let aligned := Z.land sector (Z.lnot (Z.shiftl 1 (log_sector_size k - GRUB_DISK_SECTOR_BITS) - 1)) in
      let real_offset := u32 (offset + Z.shiftl (sector - aligned) GRUB_DISK_SECTOR_BITS) in
      s ← write_loop 3 k aligned real_offset buf s;
      Some (write_done (grub_errno s), s)
  end.
End Disk.
(** * What a disk is *)

(** [n] bytes from an address. *)
Definition bytes (f : Z -> Z) (a n : Z) : list Z := f <$> seqZ a n.

(** The laws of the drivers: what is read is what the medium has, a write changes the medium just
    where it was asked to, and one that fails changes it nowhere else.  Disks are told apart by
    the number of their driver and their own. *)
Class DevicesOk (D : Type) `{Devices D} := {
  content : D -> Z -> Z -> Z -> Z;
  read_law d k s n b : disk_read d k s n = inr b ->
    b = bytes (content d (dev_id k) (id k)) (s * 2 ^ log_sector_size k) (n * 2 ^ log_sector_size k);
  read_err d k s n e : disk_read d k s n = inl e -> e <> ERR_NONE;
  write_law d k s n b d' a : disk_write d k s n b = (ERR_NONE, d') ->
    zlen b = n * 2 ^ log_sector_size k -> s * 2 ^ log_sector_size k <= a < (s + n) * 2 ^ log_sector_size k ->
    b !! Z.to_nat (a - s * 2 ^ log_sector_size k) = Some (content d' (dev_id k) (id k) a);
  write_frame d k s n b i j a : (i, j) <> (dev_id k, id k) \/ ~ (s * 2 ^ log_sector_size k <= a < (s + n) * 2 ^ log_sector_size k) ->
    content (snd (disk_write d k s n b)) i j a = content d i j a
}.

Lemma zlen_bytes f a n : 0 <= n -> zlen (bytes f a n) = n.
Proof. intros. unfold bytes, zlen. rewrite length_fmap, length_seqZ. lia. Qed.

Lemma bytes_app f a n m : 0 <= n -> 0 <= m -> bytes f a (n + m) = bytes f a n ++ bytes f (a + n) m.
Proof. intros Hn Hm. unfold bytes. by rewrite seqZ_app, fmap_app by lia. Qed.

Lemma bytes_zero f a : bytes f a 0 = [].
Proof. done. Qed.

Lemma slice_bytes f a n off m : 0 <= off -> 0 <= m -> off + m <= n -> slice (bytes f a n) off m = Some (bytes f (a + off) m).
Proof.
  intros Ho Hm Hn. unfold slice. rewrite zlen_bytes by lia.
  rewrite (proj2 (Z.leb_le 0 off) Ho), (proj2 (Z.leb_le 0 m) Hm), (proj2 (Z.leb_le _ n) Hn). cbn [andb].
  replace n with (off + (m + (n - off - m))) by lia. rewrite !bytes_app by lia. f_equal.
  rewrite drop_app_length' by (unfold bytes; rewrite length_fmap, length_seqZ; lia).
  by rewrite take_app_length' by (unfold bytes; rewrite length_fmap, length_seqZ; lia).
Qed.

Lemma bytes_ext f g a n : (forall x, a <= x < a + n -> f x = g x) -> bytes f a n = bytes g a n.
Proof.
  intros H. unfold bytes. apply list_fmap_ext. intros i x Hx. apply H. apply lookup_seqZ in Hx as [-> Hx]. lia.
Qed.

(** ** Sectors, units and bytes *)

Lemma land_511 x : Z.land x 511 = x mod 512.
Proof. exact (land_mod x 9 ltac:(lia)). Qed.
Lemma land_63 x : Z.land x 63 = x mod 64.
Proof. exact (land_mod x 6 ltac:(lia)). Qed.
Lemma round_64 x : Z.land x (Z.lnot 63) = x - x mod 64.
Proof. exact (mask_down x 6 ltac:(lia)). Qed.

(** A disk as the code expects it: native sectors of 512 bytes to 32 KiB, units that fit in a read. *)
Record disk_ok (k : grub_disk) : Prop := mk_disk_ok {
  k_log : 9 <= log_sector_size k <= 15;
  k_agg : 1 <= max_agglomerate k;
  k_total : 0 <= total_sectors k
}.

(** Case analysis on the size of native sectors. *)
Ltac logs k := 
  match goal with Hk : disk_ok k |- _ => pose proof (k_log k Hk) end;
  assert (log_sector_size k = 9 \/ log_sector_size k = 10 \/ log_sector_size k = 11 \/ log_sector_size k = 12 \/
    log_sector_size k = 13 \/ log_sector_size k = 14 \/ log_sector_size k = 15)
    as [->|[->|[->|[->|[->|[->| ->]]]]]] by lia.
Create HintDb disk.

Section Cache.
Context {D : Type} `{DevicesOk D}.
Variable memory : nat -> Z -> bool * bool.

(** * The invariant of the cache *)

(** A unit with data is where it is looked for, and has the bytes of the medium. *)
Definition unit_ok (m : D) (i : nat) (c : grub_disk_cache) : Prop :=
  match c_data c with
  | None => True
  | Some d => i = grub_disk_cache_get_index (c_dev_id c) (c_disk_id c) (c_sector c) /\ c_sector c mod 64 = 0 /\
      d = bytes (content m (c_dev_id c) (c_disk_id c)) (c_sector c * 512) 32768
  end.

Record cache_ok (s : state) : Prop := mk_cache_ok {
  co_len : length (grub_disk_cache_table s) = 1021%nat;
  co_units : forall i c, grub_disk_cache_table s !! i = Some c -> unit_ok (medium s) i c
}.

(** Reading changes neither the medium nor the depth. *)
Record frame (s s' : state) : Prop := mk_frame {
  f_ok : cache_ok s';
  f_medium : medium s' = medium s;
  f_depth : read_recursion_depth s' = read_recursion_depth s
}.

(** All allocations succeed. *)
Definition enough_memory : Prop := forall n z, fst (memory n z) = true.

Lemma frame_refl s : cache_ok s -> frame s s.
Proof. by split. Qed.

Lemma frame_trans s1 s2 s3 : frame s1 s2 -> frame s2 s3 -> frame s1 s3.
Proof. intros [_ M1 D1] [C2 M2 D2]. split; [done|congruence..]. Qed.

Lemma index_lt dev disk sector : (grub_disk_cache_get_index dev disk sector < 1021)%nat.
Proof. unfold grub_disk_cache_get_index, GRUB_DISK_CACHE_NUM. pose proof (Z.mod_pos_bound (u64 (dev * 524287 + disk * 2606459 + u32 (Z.shiftr sector GRUB_DISK_CACHE_BITS))) 1021). lia. Qed.

Lemma entry_ok s i : cache_ok s -> (i < 1021)%nat -> unit_ok (medium s) i (entry i s).
Proof.
  intros [Hl Hu] Hi. unfold entry. destruct (lookup_lt_is_Some_2 (grub_disk_cache_table s) i) as [c Hc]; [lia|].
  rewrite Hc. by apply Hu.
Qed.

Lemma set_entry_frame s i c : cache_ok s -> unit_ok (medium s) i c -> frame s (set_entry i c s).
Proof.
  intros [Hl Hu] Hc. split; [|done..]. split; cbn; [by rewrite length_insert|]. intros j c' Hj.
  destruct (decide (i = j)) as [->|Hne].
  - destruct (decide (j < length (grub_disk_cache_table s))%nat).
    + rewrite list_lookup_insert_eq in Hj by done. by injection Hj as <-.
    + rewrite list_insert_ge in Hj by lia. by apply Hu.
  - rewrite list_lookup_insert_ne in Hj by done. by apply Hu.
Qed.

Lemma set_errno_frame s e : cache_ok s -> frame s (set_errno e s).
Proof. intros [? ?]. by repeat split. Qed.

Lemma log_hook_frame s c : cache_ok s -> frame s (log_hook c s).
Proof. intros [? ?]. by repeat split. Qed.

Lemma tell_hook_frame s k sector size : cache_ok s -> frame s (tell_hook k sector size s) /\
  grub_errno (tell_hook k sector size s) = grub_errno s.
Proof. intros Hs. unfold tell_hook. destruct (read_hook k); (split; [|done]); [by apply log_hook_frame|by apply frame_refl]. Qed.

Lemma unit_ok_drop m i c b : unit_ok m i (drop_data b c).
Proof. done. Qed.

Lemma invalidate_all_frame s : cache_ok s -> frame s (grub_disk_cache_invalidate_all s).
Proof.
  intros [Hl Hu]. split; [|done..]. split; cbn; [by rewrite length_fmap|]. intros i c Hc.
  rewrite list_lookup_fmap in Hc. destruct (grub_disk_cache_table s !! i) as [c0|] eqn:E; [|done]. injection Hc as <-.
  destruct (c_lock c0); cbn; [by apply Hu|done].
Qed.

Lemma malloc_spec n s : cache_ok s -> frame s (snd (malloc memory n s)) /\
  (fst (malloc memory n s) = true -> grub_errno (snd (malloc memory n s)) = grub_errno s) /\
  (fst (malloc memory n s) = false -> grub_errno (snd (malloc memory n s)) = ERR_OUT_OF_MEMORY) /\
  (enough_memory -> fst (malloc memory n s) = true).
Proof.
  intros Hs. unfold malloc, enough_memory. destruct (memory (clock s) n) as [ok dropped] eqn:E.
  assert (frame s (tick s)) as Ht by (destruct Hs; by repeat split).
  assert (frame s (if dropped then grub_disk_cache_invalidate_all (tick s) else tick s)) as H1.
  { destruct dropped; [|done]. eapply frame_trans; [done|]. apply invalidate_all_frame, Ht. }
  assert (grub_errno (if dropped then grub_disk_cache_invalidate_all (tick s) else tick s) = grub_errno s) as E1 by (by destruct dropped).
  destruct ok; cbn [fst snd].
  - split; [done|]. split; [done|]. split; [done|]. done.
  - split; [eapply frame_trans; [exact H1|apply set_errno_frame, H1]|]. split; [done|]. split; [done|].
    intros Hm. specialize (Hm (clock s) n). by rewrite E in Hm.
Qed.

Lemma same_unit_true dev disk sector c : same_unit dev disk sector c = true ->
  c_dev_id c = dev /\ c_disk_id c = disk /\ c_sector c = sector.
Proof. unfold same_unit. intros [[H1 H2]%andb_prop H3]%andb_prop. lia. Qed.

Lemma fetch_spec dev disk sector s : cache_ok s ->
  let '(r, s') := grub_disk_cache_fetch dev disk sector s in
  frame s s' /\ grub_errno s' = grub_errno s /\
  forall d, r = Some d -> d = bytes (content (medium s) dev disk) (sector * 512) 32768.
Proof.
  intros Hs. unfold grub_disk_cache_fetch. set (i := grub_disk_cache_get_index dev disk sector).
  pose proof (entry_ok s i Hs (index_lt dev disk sector)) as Hu.
  destruct (same_unit dev disk sector (entry i s)) eqn:E; [|split; [by apply frame_refl|done]].
  apply same_unit_true in E as (E1 & E2 & E3). split; [by apply set_entry_frame|]. split; [done|].
  intros d Hd. unfold unit_ok in Hu. rewrite Hd in Hu. destruct Hu as (_ & _ & ->). by rewrite E1, E2, E3.
Qed.

Lemma unlock_frame dev disk sector s : cache_ok s -> frame s (grub_disk_cache_unlock dev disk sector s) /\
  grub_errno (grub_disk_cache_unlock dev disk sector s) = grub_errno s.
Proof.
  intros Hs. unfold grub_disk_cache_unlock. destruct (same_unit _ _ _ _); [|split; [by apply frame_refl|done]].
  split; [|done]. apply set_entry_frame; [done|]. exact (entry_ok s _ Hs (index_lt dev disk sector)).
Qed.

Lemma store_frame dev disk sector data s : cache_ok s -> sector mod 64 = 0 ->
  data = bytes (content (medium s) dev disk) (sector * 512) 32768 ->
  let s' := snd (grub_disk_cache_store memory dev disk sector data s) in
  frame s s' /\ (enough_memory -> grub_errno s' = grub_errno s).
Proof.
  intros Hs Hsec Hd. unfold grub_disk_cache_store. set (i := grub_disk_cache_get_index dev disk sector).
  pose proof (set_entry_frame s i (drop_data false (entry i s)) Hs (unit_ok_drop _ _ _ _)) as H1.
  set (s1 := set_entry i _ s) in *. destruct (malloc_spec unit_bytes s1 (f_ok _ _ H1)) as (H2 & E2 & _ & Em).
  destruct (malloc memory unit_bytes s1) as [ok s2]. cbn [fst snd] in *. destruct ok; cbn [snd].
  - split; [|intros _; exact (E2 eq_refl)]. eapply frame_trans; [exact H1|]. eapply frame_trans; [exact H2|].
    apply set_entry_frame; [apply H2|]. split; [done|]. split; [done|]. cbn.
    rewrite (f_medium _ _ H2), (f_medium _ _ H1). done.
  - split; [by eapply frame_trans|]. intros Hm. by specialize (Em Hm).
Qed.

End Cache.
(** * Reading *)

Section Reading.
Context {D : Type} `{DevicesOk D}.
Variable memory : nat -> Z -> bool * bool.

(** The bytes of a disk. *)
Definition disk_bytes (s : state) (k : grub_disk) : Z -> Z := content (medium s) (dev_id k) (id k).

(** Reads inside the disk succeed. *)
Definition reliable (k : grub_disk) (s : state) : Prop := forall p sector n,
  0 <= sector -> 0 < n -> sector + n <= total_sectors k -> exists b, disk_read (medium s) (set_partition p k) sector n = inr b.

Definition hook_ok (k : grub_disk) : Prop := forall hook a b c d, read_hook k = Some hook -> hook a b c d = ERR_NONE.

(** Nothing fails. *)
Definition all_well (k : grub_disk) (s : state) : Prop := enough_memory memory /\ hook_ok k /\ reliable k s.

Lemma all_well_frame k s s' : all_well k s -> frame s s' -> all_well k s'.
Proof. intros (Hm & Hh & Hr) [_ E _]. split; [done|]. split; [done|]. unfold reliable in *. by rewrite E. Qed.

Lemma disk_bytes_frame k s s' : frame s s' -> disk_bytes s' k = disk_bytes s k.
Proof. intros [_ E _]. unfold disk_bytes. by rewrite E. Qed.

Lemma set_partition_same k : set_partition (partition k) k = k.
Proof. by destruct k. Qed.

Lemma dev_read_spec k sector n s : cache_ok s -> disk_ok k -> 0 <= sector -> sector mod 2 ^ (log_sector_size k - 9) = 0 -> 0 < n ->
  let '(r, s') := dev_read k sector n s in
  frame s s' /\
  match r with
  | inl e => grub_errno s' = e /\ e <> ERR_NONE
  | inr b => grub_errno s' = grub_errno s /\ b = bytes (disk_bytes s k) (sector * 512) (n * 2 ^ log_sector_size k)
  end /\
  (reliable k s -> sector / 2 ^ (log_sector_size k - 9) + n <= total_sectors k -> exists b, r = inr b).
Proof.
  intros Hs Hk H0s Hal Hn. unfold dev_read, grub_disk_to_native_sector, GRUB_DISK_SECTOR_BITS.
  pose proof (k_log k Hk) as Hlog. rewrite Z.shiftr_div_pow2 by lia.
  assert (sector / 2 ^ (log_sector_size k - 9) * 2 ^ log_sector_size k = sector * 512) as Epos.
  { revert Hal. logs k; cbn [Z.sub Z.add Z.opp Z.pos_sub Z.pred_double Z.pow Z.pow_pos Pos.iter Z.mul Pos.mul Pos.sub Pos.pred_double]; intros; dlia. }
  destruct (disk_read (medium s) k _ n) as [e|b] eqn:E.
  - split; [by apply set_errno_frame|]. split; [split; [done|by apply (read_err _ _ _ _ _ E)]|].
    intros Hr Hin. destruct (Hr (partition k) (sector / 2 ^ (log_sector_size k - 9)) n) as [b Hb]; [|done|done|].
    + apply Z.div_pos; [done|]. apply Z.pow_pos_nonneg; lia.
    + rewrite set_partition_same in Hb. congruence.
  - split; [by apply frame_refl|]. split; [split; [done|]|by exists b].
    apply read_law in E as ->. by rewrite Epos.
Qed.

(** An error; unless a hook gave it, it is the one that is set. *)
Definition error_set (k : grub_disk) (s : state (D := D)) (e : grub_err_t) : Prop := e <> ERR_NONE /\ (hook_ok k -> grub_errno s = e).

(** The result of a small read at an address. *)
Definition read_result (k : grub_disk) (a size : Z) (s s' : state) (r : grub_err_t + list Z) : Prop :=
  frame s s' /\
  match r with inl e => error_set k s' e | inr b => b = bytes (disk_bytes s k) a size end /\
  (all_well k s -> grub_errno s = ERR_NONE -> a + size <= total_sectors k * 2 ^ log_sector_size k ->
   exists b, r = inr b /\ grub_errno s' = ERR_NONE).

(** The native sectors around a range. *)
Lemma native_range k sector offset size : disk_ok k -> 0 <= sector < 2 ^ 52 -> 0 <= offset -> 0 < size -> offset + size <= 32768 ->
  let sec := u64 (sector + Z.shiftr offset GRUB_DISK_SECTOR_BITS) in
  let off := Z.land offset (Z.shiftl 1 GRUB_DISK_SECTOR_BITS - 1) in
  let aligned := Z.land sec (Z.lnot (Z.shiftl 1 (log_sector_size k - GRUB_DISK_SECTOR_BITS) - 1)) in
  let off := u64 (off + Z.shiftl (sec - aligned) GRUB_DISK_SECTOR_BITS) in
  let num := u32 (Z.shiftr (u64 (size + off + Z.shiftl 1 (log_sector_size k) - 1)) (log_sector_size k)) in
  0 <= aligned /\ aligned mod 2 ^ (log_sector_size k - 9) = 0 /\ 0 < num /\ 0 <= off /\
  aligned * 512 + off = sector * 512 + offset /\ off + size <= num * 2 ^ log_sector_size k /\
  (sector * 512 + offset + size <= total_sectors k * 2 ^ log_sector_size k ->
   aligned / 2 ^ (log_sector_size k - 9) + num <= total_sectors k).
Proof.
  intros Hk Hs Ho Hsz Hu. cbv zeta. unfold GRUB_DISK_SECTOR_BITS. pose proof (k_log k Hk) as Hlog.
  change (Z.shiftl 1 9 - 1) with 511. rewrite land_511, !Z.shiftl_1_l, mask_down by lia.
  rewrite !(Z.shiftr_div_pow2 _ _) by lia. rewrite (Z.shiftl_mul_pow2 _ 9) by lia. change (2 ^ 9) with 512. change (2 ^ 52) with 4503599627370496 in Hs.
  rewrite (wrap_small 64 (sector + offset / 512)) by (pow2; dlia).
  revert Hlog Hk. intros Hlog Hk. logs k.
  all: repeat match goal with |- context [2 ^ ?n] => let v := eval vm_compute in (2 ^ n) in progress change (2 ^ n) with v end.
  all: repeat match goal with |- context [wrap ?w ?t] =>
    lazymatch t with context [wrap _ _] => fail | _ => rewrite (wrap_small w t) by (unfold wrap; pow2; dlia) end end.
  all: dlia.
Qed.
Lemma unit_native k : disk_ok k -> 0 < Z.shiftl 1 (GRUB_DISK_CACHE_BITS + GRUB_DISK_SECTOR_BITS - log_sector_size k) /\
  Z.shiftl 1 (GRUB_DISK_CACHE_BITS + GRUB_DISK_SECTOR_BITS - log_sector_size k) * 2 ^ log_sector_size k = 32768.
Proof.
  intros Hk. pose proof (k_log k Hk). unfold GRUB_DISK_CACHE_BITS, GRUB_DISK_SECTOR_BITS. rewrite Z.shiftl_1_l.
  split; [apply Z.pow_pos_nonneg; lia|]. rewrite <- Z.pow_add_r by lia. by replace (6 + 9 - log_sector_size k + log_sector_size k) with 15 by lia.
Qed.

Lemma aligned_native k sector : disk_ok k -> sector mod 64 = 0 -> sector mod 2 ^ (log_sector_size k - 9) = 0.
Proof.
  intros Hk Hs. pose proof (k_log k Hk). apply Z.mod_divide; [apply Z.pow_nonzero; lia|]. apply Z.mod_divide in Hs as [q ->]; [|lia].
  apply Z.divide_mul_r. exists (2 ^ (15 - log_sector_size k)). rewrite <- Z.pow_add_r by lia.
  by replace (15 - log_sector_size k + (log_sector_size k - 9)) with 6 by lia.
Qed.

Lemma fallback_spec k sector offset size s : cache_ok s -> disk_ok k -> 0 <= sector < 2 ^ 52 -> 0 <= offset -> 0 < size ->
  offset + size <= 32768 -> grub_errno s = ERR_NONE ->
  let sec := u64 (sector + Z.shiftr offset GRUB_DISK_SECTOR_BITS) in
  let off := Z.land offset (Z.shiftl 1 GRUB_DISK_SECTOR_BITS - 1) in
  let aligned := Z.land sec (Z.lnot (Z.shiftl 1 (log_sector_size k - GRUB_DISK_SECTOR_BITS) - 1)) in
  let off := u64 (off + Z.shiftl (sec - aligned) GRUB_DISK_SECTOR_BITS) in
  let num := u32 (Z.shiftr (u64 (size + off + Z.shiftl 1 (log_sector_size k) - 1)) (log_sector_size k)) in
  exists r s',
    (let '(ok, s) := malloc memory (u32 (Z.shiftl num (log_sector_size k))) s in
     if negb ok then Some (inl (grub_errno s), s) else
     let '(r, s) := dev_read k aligned num s in
     match r with
     | inl _ => Some (inl (grub_errno s), s)
     | inr tmp => b ← slice tmp off size; Some (inr b, s)
     end) = Some (r, s') /\ read_result k (sector * 512 + offset) size s s' r.
Proof.
  intros Hs Hk Hsec Ho Hsz Hu He. cbv zeta.
  pose proof (native_range k sector offset size Hk Hsec Ho Hsz Hu) as Hn. cbv zeta in Hn.
  set (aligned := Z.land _ (Z.lnot (Z.shiftl 1 (log_sector_size k - _) - 1))) in *. set (off := u64 (_ + _)) in *.
  set (num := u32 (Z.shiftr _ (log_sector_size k))) in *. clearbody aligned off num.
  destruct Hn as (Ha0 & Ham & Hnum & Hoff & Epos & Hend & Htot).
  destruct (malloc_spec memory (u32 (Z.shiftl num (log_sector_size k))) s Hs) as (F1 & E1 & O1 & M1).
  destruct (malloc memory _ s) as [ok s1]. cbn [fst snd] in *. destruct ok; cbn [negb].
  2:{ exists (inl (grub_errno s1)), s1. split; [done|]. split; [done|]. split; [split; [by rewrite (O1 eq_refl)|done]|].
      intros (Hm & _) _ _. by specialize (M1 Hm). }
  specialize (E1 eq_refl). pose proof (dev_read_spec k aligned num s1 (f_ok _ _ F1) Hk Ha0 Ham Hnum) as Hd.
  destruct (dev_read k aligned num s1) as [r s2]. destruct Hd as (F2 & Hr & Hlive).
  pose proof (frame_trans _ _ _ F1 F2) as F. destruct r as [e|tmp].
  - destruct Hr as [Ee Hne]. exists (inl (grub_errno s2)), s2. split; [done|]. split; [done|]. split; [split; [by rewrite Ee|done]|].
    intros Hw _ Hin. destruct (Hlive (proj2 (proj2 (all_well_frame _ _ _ Hw F1))) (Htot Hin)). congruence.
  - destruct Hr as [Ee ->]. rewrite slice_bytes by lia. rewrite bind_ret. eexists _, _. split; [done|]. split; [done|]. split.
    + rewrite (disk_bytes_frame k _ _ F1). f_equal. lia.
    + intros _ _ _. eexists. split; [done|]. congruence.
Qed.

Lemma read_small_real_spec k sector offset size s : cache_ok s -> disk_ok k -> 0 <= sector < 2 ^ 52 -> sector mod 64 = 0 ->
  0 <= offset -> 0 < size -> offset + size <= 32768 ->
  exists r s', grub_disk_read_small_real memory k sector offset size s = Some (r, s') /\
    read_result k (sector * 512 + offset) size s s' r.
Proof.
  intros Hs Hk Hsec Hal Ho Hsz Hu. unfold grub_disk_read_small_real.
  pose proof (fetch_spec (dev_id k) (id k) sector s Hs) as Hf. destruct (grub_disk_cache_fetch _ _ _ s) as [data s1].
  destruct Hf as (F1 & E1 & Hdata). destruct data as [d|].
  { rewrite (Hdata d eq_refl), slice_bytes, bind_ret by lia. destruct (unlock_frame (dev_id k) (id k) sector s1 (f_ok _ _ F1)) as [F2 E2].
    eexists _, _. split; [done|]. split; [by eapply frame_trans|]. split; [done|]. intros _ He _. eexists. split; [done|]. congruence. }
  destruct (malloc_spec memory unit_bytes s1 (f_ok _ _ F1)) as (F2 & E2 & O2 & M2).
  destruct (malloc memory unit_bytes s1) as [ok s2]. cbn [fst snd] in *. pose proof (frame_trans _ _ _ F1 F2) as F12.
  destruct ok; cbn [negb].
  2:{ eexists _, _. split; [done|]. split; [done|]. split; [split; [by rewrite (O2 eq_refl)|done]|]. intros (Hm & _) _ _. by specialize (M2 Hm). }
  specialize (E2 eq_refl). destruct (unit_native k Hk) as [Hn1 Hn2].
  assert (exists tmp s3,
    (if (total_sectors k =? GRUB_DISK_SIZE_UNKNOWN) || (u64 (sector + GRUB_DISK_CACHE_SIZE) <? grub_disk_from_native_sector k (total_sectors k))
     then let '(r, s) := dev_read k sector (Z.shiftl 1 (GRUB_DISK_CACHE_BITS + GRUB_DISK_SECTOR_BITS - log_sector_size k)) s2 in
          (match r with inr tmp => Some tmp | inl _ => None end, s)
     else (None, s2)) = (tmp, s3) /\ frame s2 s3 /\
    match tmp with
    | Some b => grub_errno s3 = grub_errno s2 /\ b = bytes (disk_bytes s2 k) (sector * 512) 32768
    | None => True
    end) as (tmp & s3 & -> & F3 & Ht).
  { destruct (_ || _); [|eexists _, _; split; [done|]; split; [apply frame_refl, F2|done]].
    pose proof (dev_read_spec k sector _ s2 (f_ok _ _ F2) Hk ltac:(lia) (aligned_native k sector Hk Hal) Hn1) as Hd.
    destruct (dev_read k sector _ s2) as [r s3]. destruct Hd as (F3 & Hr & _). destruct r as [e|b]; [by eexists _, _|].
    rewrite Hn2 in Hr. by eexists _, _. }
  pose proof (frame_trans _ _ _ F12 F3) as F13. destruct tmp as [b|].
  - destruct Ht as [E3 ->]. rewrite (disk_bytes_frame k _ _ F12), slice_bytes, bind_ret by lia.
    destruct (store_frame memory (dev_id k) (id k) sector (bytes (disk_bytes s k) (sector * 512) 32768) s3 (f_ok _ _ F3) Hal) as [F4 E4].
    { unfold disk_bytes. by rewrite (f_medium _ _ F13). }
    destruct (grub_disk_cache_store memory _ _ _ _ s3) as [e s4]. cbn [snd] in *. eexists _, _. split; [done|].
    split; [by eapply frame_trans|]. split; [done|]. intros (Hm & _) He _. eexists. split; [done|]. rewrite (E4 Hm). congruence.
  - pose proof (set_errno_frame s3 ERR_NONE (f_ok _ _ F3)) as F4. pose proof (frame_trans _ _ _ F13 F4) as F14.
    destruct (fallback_spec k sector offset size (set_errno ERR_NONE s3) (f_ok _ _ F4) Hk Hsec Ho Hsz Hu eq_refl) as (r & s' & E & F5 & Hr & Hlive).
    exists r, s'. split; [exact E|]. rewrite (disk_bytes_frame k _ _ F14) in Hr. split; [by eapply frame_trans|]. split; [done|].
    intros Hw _ Hin. apply Hlive; [by eapply all_well_frame|done|done].
Qed.

Lemma read_small_spec k sector offset size s : cache_ok s -> disk_ok k -> 0 <= sector < 2 ^ 52 -> sector mod 64 = 0 ->
  0 <= offset -> 0 < size -> offset + size <= 32768 ->
  exists r s', grub_disk_read_small memory k sector offset size s = Some (r, s') /\
    read_result k (sector * 512 + offset) size s s' r.
Proof.
  intros Hs Hk Hsec Hal Ho Hsz Hu. unfold grub_disk_read_small.
  destruct (read_small_real_spec k sector offset size s Hs Hk Hsec Hal Ho Hsz Hu) as (r & s1 & -> & F & Hr & Hlive).
  rewrite bind_ret. destruct r as [e|b]; [by exists (inl e), s1|]. destruct (read_hook k) as [hook|] eqn:Eh; [|by exists (inr b), s1].
  eexists _, _. split; [done|]. split; [eapply frame_trans; [exact F|apply log_hook_frame, F]|]. split.
  { case_decide as Hc; [done|]. split; [done|]. intros Hh. by destruct Hc; apply (Hh _ _ _ _ _ Eh). }
  intros Hw He Hin. destruct (Hlive Hw He Hin) as (b' & _ & E). exists b. split; [|done]. destruct Hw as (_ & Hh & _).
  by rewrite decide_True by (by apply (Hh _ _ _ _ _ Eh)).
Qed.
(** ** Whole units *)

Lemma shl6 x : Z.shiftl x GRUB_DISK_CACHE_BITS = x * 64.
Proof. unfold GRUB_DISK_CACHE_BITS. by rewrite Z.shiftl_mul_pow2 by lia. Qed.
Lemma shl15 x : Z.shiftl x (GRUB_DISK_CACHE_BITS + GRUB_DISK_SECTOR_BITS) = x * 32768.
Proof. unfold GRUB_DISK_CACHE_BITS, GRUB_DISK_SECTOR_BITS. by rewrite Z.shiftl_mul_pow2 by lia. Qed.

Lemma find_cached_spec k sector n : forall agg s, cache_ok s -> 0 <= sector -> 0 <= agg -> sector + (agg + Z.of_nat n) * 64 < 2 ^ 64 ->
  let '(a, data, s') := find_cached n k sector agg s in
  frame s s' /\ grub_errno s' = grub_errno s /\
  match data with
  | Some d => agg <= a < agg + Z.of_nat n /\ d = bytes (disk_bytes s k) ((sector + a * 64) * 512) 32768
  | None => a = agg + Z.of_nat n
  end.
Proof.
  induction n as [|n IH]; intros agg s Hs Hsec Hagg Hb; cbn [find_cached].
  { split; [by apply frame_refl|]. split; [done|lia]. }
  rewrite shl6, wrap_small by lia. pose proof (fetch_spec (dev_id k) (id k) (sector + agg * 64) s Hs) as Hf.
  destruct (grub_disk_cache_fetch _ _ _ s) as [[d|] s1]; destruct Hf as (F1 & E1 & Hd).
  - split; [done|]. split; [done|]. split; [lia|by apply Hd].
  - specialize (IH (agg + 1) s1 (f_ok _ _ F1) Hsec ltac:(lia) ltac:(lia)).
    destruct (find_cached n k sector (agg + 1) s1) as [[a data] s2]. destruct IH as (F2 & E2 & Hr).
    split; [by eapply frame_trans|]. split; [congruence|]. rewrite (disk_bytes_frame k _ _ F1) in Hr. destruct data; [|lia].
    destruct Hr. split; [lia|done].
Qed.

Lemma store_units_spec k sector total n : forall i s, cache_ok s -> 0 <= sector -> sector mod 64 = 0 -> 0 <= i -> i + Z.of_nat n <= total ->
  sector + total * 64 < 2 ^ 64 ->
  exists s', store_units memory n k sector i (bytes (disk_bytes s k) (sector * 512) (total * 32768)) s = Some s' /\
    frame s s' /\ (enough_memory memory -> grub_errno s' = grub_errno s).
Proof.
  induction n as [|n IH]; intros i s Hs Hsec Hal Hi Hn Hb; cbn [store_units].
  { exists s. split; [done|]. split; [by apply frame_refl|done]. }
  rewrite shl15, shl6. change unit_bytes with 32768. rewrite slice_bytes, bind_ret, (wrap_small 64 (sector + i * 64)) by lia.
  destruct (store_frame memory (dev_id k) (id k) (sector + i * 64) (bytes (disk_bytes s k) (sector * 512 + i * 32768) 32768) s Hs) as [F1 E1].
  { dlia. }
  { unfold disk_bytes. f_equal. lia. }
  destruct (grub_disk_cache_store memory _ _ _ _ s) as [e s1]. cbn [snd] in *. rewrite <- (disk_bytes_frame k _ _ F1).
  destruct (IH (i + 1) s1 (f_ok _ _ F1) Hsec Hal ltac:(lia) ltac:(lia) Hb) as (s2 & -> & F2 & E2).
  exists s2. split; [done|]. split; [by eapply frame_trans|]. intros Hm. rewrite (E2 Hm). by apply E1.
Qed.

(** The units before the first cached one, from the disk. *)
Lemma agglomerate_spec k sector a s : cache_ok s -> disk_ok k -> 0 <= sector -> sector mod 64 = 0 -> 0 <= a -> sector + a * 64 < 2 ^ 64 ->
  exists r s',
    (if a =? 0 then Some (inr [], s)
     else
       let '(r, s) := dev_read k sector (Z.shiftl a (GRUB_DISK_CACHE_BITS + GRUB_DISK_SECTOR_BITS - log_sector_size k)) s in
       match r with
       | inl e => Some (inl e, s)
       | inr b => s ← store_units memory (Z.to_nat a) k sector 0 b s;
           Some (inr b, tell_hook k sector (Z.shiftl a (GRUB_DISK_CACHE_BITS + GRUB_DISK_SECTOR_BITS)) s)
       end) = Some (r, s') /\ read_result k (sector * 512) (a * 32768) s s' r.
Proof.
  intros Hs Hk Hsec Hal Ha Hb. destruct (Z.eqb_spec a 0) as [->|Hne].
  { eexists _, _. split; [done|]. split; [by apply frame_refl|]. split; [done|]. intros _ He _. by eexists. }
  pose proof (k_log k Hk) as Hlog. destruct (unit_native k Hk) as [Hn1 Hn2].
  unfold GRUB_DISK_CACHE_BITS, GRUB_DISK_SECTOR_BITS in *. rewrite Z.shiftl_mul_pow2 by lia. rewrite Z.shiftl_1_l in Hn1, Hn2.
  set (u := 2 ^ (6 + 9 - log_sector_size k)) in *.
  pose proof (dev_read_spec k sector (a * u) s Hs Hk Hsec (aligned_native k sector Hk Hal) ltac:(nia)) as Hd.
  destruct (dev_read k sector (a * u) s) as [r s1]. destruct Hd as (F1 & Hr & Hlive). destruct r as [e|b].
  - eexists _, _. split; [done|]. split; [done|]. split; [by destruct Hr|]. intros (_ & _ & Hrel) _ Hin.
    destruct Hlive as [b Hb']; [done| |done].
    pose proof (aligned_native k sector Hk Hal) as Hm. apply Z.mod_divide in Hm as [q Hq]; [|apply Z.pow_nonzero; lia].
    rewrite Hq, Z.div_mul by (apply Z.pow_nonzero; lia).
    assert (sector * 512 = q * 2 ^ log_sector_size k) as Eq.
    { rewrite Hq. replace (log_sector_size k) with ((log_sector_size k - 9) + 9) at 2 by lia. rewrite Z.pow_add_r by lia. change (2 ^ 9) with 512. lia. }
    assert (0 < 2 ^ log_sector_size k) by (apply Z.pow_pos_nonneg; lia). nia.
  - destruct Hr as [E1 ->].
    replace (a * u * 2 ^ log_sector_size k) with (a * 32768) by (rewrite <- Z.mul_assoc, Hn2; done).
    rewrite <- (disk_bytes_frame k _ _ F1).
    destruct (store_units_spec k sector a (Z.to_nat a) 0 s1 (f_ok _ _ F1) Hsec Hal ltac:(lia) ltac:(lia) Hb) as (s2 & -> & F2 & E2).
    rewrite bind_ret. destruct (tell_hook_frame s2 k sector (Z.shiftl a (6 + 9)) (f_ok _ _ F2)) as [F3 E3].
    eexists _, _. split; [done|]. split; [eapply frame_trans; [exact F1|]; by eapply frame_trans|]. rewrite (disk_bytes_frame k _ _ F1).
    split; [done|]. intros (Hm & _) He _. eexists. split; [done|]. rewrite E3, (E2 Hm). congruence.
Qed.

Lemma size_units size : Z.shiftr size (GRUB_DISK_SECTOR_BITS + GRUB_DISK_CACHE_BITS) = size / 32768.
Proof. unfold GRUB_DISK_CACHE_BITS, GRUB_DISK_SECTOR_BITS. by rewrite Z.shiftr_div_pow2 by lia. Qed.

(** The bytes of the cached unit behind the others. *)
Definition cached_size (data : option (list Z)) : Z := match data with Some _ => 32768 | None => 0 end.

Lemma cached_unit_spec k sector limit s : cache_ok s -> 0 <= sector -> 0 < limit -> sector + limit * 64 < 2 ^ 64 ->
  let '(a, data, s1) := find_cached (Z.to_nat limit) k sector 0 s in
  let s2 := match data with
            | Some _ => grub_disk_cache_unlock (dev_id k) (id k) (u64 (sector + Z.shiftl a GRUB_DISK_CACHE_BITS)) s1
            | None => s1
            end in
  match data with Some data => slice data 0 unit_bytes | None => Some [] end =
    Some (bytes (disk_bytes s k) (sector * 512 + a * 32768) (cached_size data)) /\
  frame s s2 /\ grub_errno s2 = grub_errno s /\ 0 <= a /\ 0 < a * 32768 + cached_size data <= limit * 32768.
Proof.
  intros Hs Hsec Hlim Hb. pose proof (find_cached_spec k sector (Z.to_nat limit) 0 s Hs Hsec ltac:(lia)) as Hfc.
  rewrite Z2Nat.id in Hfc by lia. specialize (Hfc ltac:(lia)).
  destruct (find_cached _ k sector 0 s) as [[a [d|]] s1]; destruct Hfc as (F1 & E1 & Hd); cbn [cached_size].
  - destruct Hd as [Ha ->]. change unit_bytes with 32768. rewrite slice_bytes by lia.
    destruct (unlock_frame (dev_id k) (id k) (u64 (sector + Z.shiftl a GRUB_DISK_CACHE_BITS)) s1 (f_ok _ _ F1)) as [F2 E2].
    split; [do 2 f_equal; lia|]. split; [by eapply frame_trans|]. split; [congruence|lia].
  - split; [done|]. split; [done|]. split; [done|lia].
Qed.

(** The result of a part that leaves less than [bound] bytes to read. *)
Definition part_result (k : grub_disk) (a size bound : Z) (acc : list Z) (s s' : state) (r : grub_err_t + Z * Z * list Z) : Prop :=
  frame s s' /\
  match r with
  | inl e => error_set k s' e
  | inr (sec, sz, b) => sec mod 64 = 0 /\ 0 <= sec /\ 0 <= sz < bound /\ sz <= size /\ sec * 512 + sz = a + size /\
      b = acc ++ bytes (disk_bytes s k) a (size - sz)
  end /\
  (all_well k s -> grub_errno s = ERR_NONE -> a + size <= total_sectors k * 2 ^ log_sector_size k ->
   exists x, r = inr x /\ grub_errno s' = ERR_NONE).

(** [n] more bytes before a part. *)
Lemma part_result_after k a n size bound acc s s1 s2 r : frame s s1 -> 0 <= n <= size ->
  (all_well k s -> grub_errno s = ERR_NONE -> a + size <= total_sectors k * 2 ^ log_sector_size k -> grub_errno s1 = ERR_NONE) ->
  part_result k (a + n) (size - n) bound (acc ++ bytes (disk_bytes s k) a n) s1 s2 r -> part_result k a size bound acc s s2 r.
Proof.
  intros F1 Hn Hlive (F2 & Hr & Hl). split; [by eapply frame_trans|]. split.
  - destruct r as [e|[[sec sz] b]]; [done|]. destruct Hr as (H1 & H2 & H3 & H4 & H5 & ->). repeat split; try lia.
    rewrite (disk_bytes_frame k _ _ F1), <- app_assoc, <- bytes_app by lia. do 2 f_equal. lia.
  - intros Hw He Hin. apply Hl; [by eapply all_well_frame|by apply Hlive|lia].
Qed.

Lemma read_units_spec k fuel : forall sector size acc s, cache_ok s -> disk_ok k -> 0 <= sector -> sector mod 64 = 0 -> 0 <= size ->
  sector * 512 + size <= 2 ^ 60 -> (Z.to_nat (size / 32768) <= fuel)%nat ->
  exists r s', read_units memory fuel k sector size acc s = Some (r, s') /\ part_result k (sector * 512) size 32768 acc s s' r.
Proof.
  induction fuel as [|fuel IH]; intros sector size acc s Hs Hk Hsec Hal Hsz Hb Hf; cbn [read_units];
    change (Z.shiftl GRUB_DISK_CACHE_SIZE GRUB_DISK_SECTOR_BITS) with 32768; change (2 ^ 60) with 1152921504606846976 in *.
  all: destruct (Z.ltb_spec size 32768) as [Hlt|Hge].
  1,3: eexists _, _; (split; [done|]); (split; [by apply frame_refl|]); (split; [|by eexists]);
       rewrite Z.sub_diag, bytes_zero, app_nil_r; repeat split; lia || done.
  { exfalso. dlia. }
  cbv zeta. rewrite size_units. pose proof (k_agg k Hk) as Hagg. set (limit := Z.min _ _).
  assert (1 <= limit <= size / 32768) as Hlim by (unfold limit; dlia). clearbody limit.
  pose proof (cached_unit_spec k sector limit s Hs Hsec ltac:(lia) ltac:(pow2; dlia)) as Hcu.
  destruct (find_cached _ k sector 0 s) as [[a data] s1]. destruct Hcu as (-> & F2 & E2 & Ha & Hn).
  set (s2 := match data with Some _ => grub_disk_cache_unlock _ _ _ s1 | None => s1 end) in *. clearbody s2.
  rewrite bind_ret. assert (0 <= cached_size data <= 32768) as Hcs by (destruct data; cbn; lia).
  destruct (agglomerate_spec k sector a s2 (f_ok _ _ F2) Hk Hsec Hal Ha ltac:(pow2; dlia)) as (r & s3 & -> & F3 & Hr & Hlive).
  rewrite bind_ret. cbv beta iota. pose proof (frame_trans _ _ _ F2 F3) as F13. rewrite (disk_bytes_frame k _ _ F2) in Hr.
  assert (all_well k s -> grub_errno s = ERR_NONE -> sector * 512 + size <= total_sectors k * 2 ^ log_sector_size k ->
    exists b, r = inr b /\ grub_errno s3 = ERR_NONE) as Hl3.
  { intros Hw He Hin. apply Hlive; [by eapply all_well_frame|congruence|dlia]. }
  destruct r as [e|b].
  { eexists _, _. split; [done|]. split; [done|]. split; [done|]. intros Hw He Hin. by destruct (Hl3 Hw He Hin) as (b & ? & _). }
  subst b. rewrite !shl6, shl15, (wrap_small 64 (sector + a * 64)) by (pow2; dlia). change GRUB_DISK_CACHE_SIZE with 64. change unit_bytes with 32768.
  assert (all_well k s -> grub_errno s = ERR_NONE -> sector * 512 + size <= total_sectors k * 2 ^ log_sector_size k -> grub_errno s3 = ERR_NONE)
    as Hl4 by (intros Hw He Hin; by destruct (Hl3 Hw He Hin) as (b & _ & ?)).
  destruct data as [d|]; cbn [cached_size] in *.
  - rewrite (wrap_small 64 (sector + a * 64 + 64)) by (pow2; dlia).
    destruct (tell_hook_frame s3 k (sector + a * 64) 32768 (f_ok _ _ F3)) as [F4 E4].
    rewrite <- bytes_app by lia.
    destruct (IH (sector + a * 64 + 64) (size - a * 32768 - 32768) (acc ++ bytes (disk_bytes s k) (sector * 512) (a * 32768 + 32768))
      (tell_hook k (sector + a * 64) 32768 s3) (f_ok _ _ F4) Hk ltac:(lia) ltac:(dlia) ltac:(dlia) ltac:(lia) ltac:(dlia)) as (r & s' & -> & Hr).
    eexists _, _. split; [done|]. apply (part_result_after k _ (a * 32768 + 32768) _ _ _ _ (tell_hook k (sector + a * 64) 32768 s3)).
    + by eapply frame_trans.
    + dlia.
    + intros. rewrite E4. by apply Hl4.
    + by replace (sector * 512 + (a * 32768 + 32768)) with ((sector + a * 64 + 64) * 512) by lia;
         replace (size - (a * 32768 + 32768)) with (size - a * 32768 - 32768) by lia.
  - destruct (IH (sector + a * 64) (size - a * 32768) (acc ++ bytes (disk_bytes s k) (sector * 512) (a * 32768))
      s3 (f_ok _ _ F3) Hk ltac:(lia) ltac:(dlia) ltac:(dlia) ltac:(lia) ltac:(dlia)) as (r & s' & -> & Hr).
    eexists _, _. split; [done|]. apply (part_result_after k _ (a * 32768) _ _ _ _ s3); [done|dlia|done|].
    by replace (sector * 512 + a * 32768) with ((sector + a * 64) * 512) by lia.
Qed.

(** ** A whole read *)

Lemma read_first_spec k sector offset size s : cache_ok s -> disk_ok k -> 0 <= sector -> 0 <= offset < 512 -> 0 < size ->
  sector * 512 + offset + size <= 2 ^ 60 ->
  exists r s', read_first memory k sector offset size s = Some (r, s') /\ frame s s' /\
    match r with
    | inl e => error_set k s' e
    | inr (sec, sz, b) => 0 <= sec /\ 0 <= sz <= size /\ b = bytes (disk_bytes s k) (sector * 512 + offset) (size - sz) /\
        (0 < sz -> sec mod 64 = 0 /\ sec * 512 + sz = sector * 512 + offset + size)
    end /\
    (all_well k s -> grub_errno s = ERR_NONE -> sector * 512 + offset + size <= total_sectors k * 2 ^ log_sector_size k ->
     exists x, r = inr x /\ grub_errno s' = ERR_NONE).
Proof.
  intros Hs Hk Hsec Ho Hsz Hb. unfold read_first. change (GRUB_DISK_CACHE_SIZE - 1) with 63. rewrite land_63.
  change (2 ^ 60) with 1152921504606846976 in Hb. destruct (negb (offset =? 0) || negb (sector mod 64 =? 0)) eqn:Eb.
  2:{ apply orb_false_iff in Eb as [E1 E2]. apply negb_false_iff in E1, E2.
      eexists _, _. split; [done|]. split; [by apply frame_refl|]. split; [|by eexists].
      rewrite Z.sub_diag, bytes_zero. repeat split; lia || done. }
  cbv zeta. rewrite round_64. change unit_bytes with 32768. unfold GRUB_DISK_SECTOR_BITS. rewrite Z.shiftl_mul_pow2, Z.shiftr_div_pow2 by lia.
  change (2 ^ 9) with 512. replace (sector - (sector - sector mod 64)) with (sector mod 64) by lia.
  rewrite (wrap_small 64 (32768 - sector mod 64 * 512 - offset)) by (pow2; dlia).
  rewrite (wrap_small 64 (offset + sector mod 64 * 512)) by (pow2; dlia).
  set (n := if _ <? _ then size else _).
  assert (0 < n /\ n <= size /\ offset + sector mod 64 * 512 + n <= 32768 /\
    (n = size \/ (offset + n) mod 512 = 0 /\ (sector + (offset + n) / 512) mod 64 = 0)) as (Hn & Hns & Hnu & Hnc).
  { unfold n. destruct (Z.ltb_spec size (32768 - sector mod 64 * 512 - offset)); dlia. }
  clearbody n. rewrite (wrap_small 64 (offset + n)), (wrap_small 64 (sector + (offset + n) / 512)) by (pow2; dlia).
  destruct (read_small_spec k (sector - sector mod 64) (offset + sector mod 64 * 512) n s Hs Hk ltac:(dlia) ltac:(dlia) ltac:(dlia) Hn Hnu)
    as (r & s1 & -> & F & Hr & Hlive). rewrite bind_ret. cbv beta iota.
  replace ((sector - sector mod 64) * 512 + (offset + sector mod 64 * 512)) with (sector * 512 + offset) in Hr, Hlive by lia.
  eexists _, _. split; [done|]. split; [done|]. split.
  - destruct r as [e|b]; [done|]. subst b. split; [dlia|]. split; [lia|]. split; [f_equal; lia|]. intros Hpos.
    destruct Hnc as [->|[E1 E2]]; [lia|]. split; [done|dlia].
  - intros Hw He Hin. destruct (Hlive Hw He ltac:(lia)) as (b & -> & E). by eexists.
Qed.

Lemma read_parts_spec k sector offset size s : cache_ok s -> disk_ok k -> 0 <= sector -> 0 <= offset < 512 -> 0 < size ->
  sector * 512 + offset + size <= 2 ^ 60 ->
  exists r s', read_parts memory k sector offset size s = Some (r, s') /\ read_result k (sector * 512 + offset) size s s' r.
Proof.
  intros Hs Hk Hsec Ho Hsz Hb. unfold read_parts.
  destruct (read_first_spec k sector offset size s Hs Hk Hsec Ho Hsz Hb) as (r & s1 & -> & F1 & Hr & L1). rewrite bind_ret. cbv beta iota.
  destruct r as [e|[[sec sz] b1]].
  { eexists _, _. split; [done|]. split; [done|]. split; [done|]. intros Hw He Hin. by destruct (L1 Hw He Hin) as (x & ? & _). }
  destruct Hr as (Hsec1 & Hsz1 & -> & Hmore). change unit_bytes with 32768. destruct (Z.eq_dec sz 0) as [->|Hne].
  { change (Z.to_nat (0 / 32768)) with O. cbn [read_units]. change (0 <? Z.shiftl GRUB_DISK_CACHE_SIZE GRUB_DISK_SECTOR_BITS) with true.
    cbv iota. rewrite bind_ret. cbv beta iota. change (0 =? 0) with true. cbv iota. rewrite app_nil_r, Z.sub_0_r.
    eexists _, _. split; [done|]. split; [done|]. split; [done|]. intros Hw He Hin. destruct (L1 Hw He Hin) as (x & _ & ?). by eexists. }
  destruct (Hmore ltac:(lia)) as [Hal Epos]. clear Hmore.
  destruct (read_units_spec k (Z.to_nat (sz / 32768)) sec sz [] s1 (f_ok _ _ F1) Hk Hsec1 Hal ltac:(lia) ltac:(lia) ltac:(lia))
    as (r & s2 & -> & F2 & Hr & L2). rewrite bind_ret. cbv beta iota. pose proof (frame_trans _ _ _ F1 F2) as F12.
  assert (all_well k s -> grub_errno s = ERR_NONE -> sector * 512 + offset + size <= total_sectors k * 2 ^ log_sector_size k ->
    exists x, r = inr x /\ grub_errno s2 = ERR_NONE) as L2'.
  { intros Hw He Hin. apply L2; [by eapply all_well_frame| |lia]. by destruct (L1 Hw He Hin) as (x & _ & ?). }
  destruct r as [e|[[sec2 sz2] b2]].
  { eexists _, _. split; [done|]. split; [done|]. split; [done|]. intros Hw He Hin. by destruct (L2' Hw He Hin) as (x & ? & _). }
  destruct Hr as (Hal2 & Hsec2 & Hsz2 & Hle2 & Epos2 & ->). rewrite app_nil_l, (disk_bytes_frame k _ _ F1).
  replace (sec * 512) with (sector * 512 + offset + (size - sz)) by lia. rewrite <- bytes_app by lia.
  destruct (Z.eqb_spec sz2 0) as [->|Hne2].
  { eexists _, _. split; [done|]. split; [done|]. split; [f_equal; lia|]. intros Hw He Hin. destruct (L2' Hw He Hin) as (x & _ & ?). by eexists. }
  destruct (read_small_spec k sec2 0 sz2 s2 (f_ok _ _ F2) Hk ltac:(pow2; lia) Hal2 ltac:(lia) ltac:(lia) ltac:(lia)) as (r & s3 & -> & F3 & Hr & L3).
  rewrite bind_ret. cbv beta iota. eexists _, _. split; [done|]. split; [by eapply frame_trans|]. split.
  - destruct r as [e|b]; [done|]. subst b. rewrite (disk_bytes_frame k _ _ F12), app_assoc, <- bytes_app by lia.
    replace (sec2 * 512 + 0) with (sector * 512 + offset + (size - sz + (sz - sz2))) by lia. rewrite <- bytes_app by lia. f_equal. lia.
  - intros Hw He Hin. destruct L3 as (b & -> & ?); [by eapply all_well_frame|by destruct (L2' Hw He Hin) as (x & _ & ?)|lia|].
    by eexists.
Qed.

End Reading.

(** * Ranges of bytes *)

(** Partitions as a map describes them: they end below 2^64 sectors. *)
Definition parts_ok (parts : list grub_partition) : Prop :=
  Forall (fun p => 0 <= start p /\ 0 <= len p /\ start p + len p < 2 ^ 64) parts.

(** The sectors of a disk that are used. *)
Definition disk_end (k : grub_disk) : Z := Z.min (grub_disk_from_native_sector k (total_sectors k)) (2 ^ 51).

(** The bytes from [a] are inside every partition and the disk. *)
Fixpoint within (limit : Z) (parts : list grub_partition) (a size : Z) : bool :=
  match parts with
  | [] => a + size <=? limit * 512
  | p :: parts => (a + size <=? len p * 512) && within limit parts (start p * 512 + a) size
  end.

(** The address on the disk. *)
Fixpoint place (parts : list grub_partition) (a : Z) : Z :=
  match parts with
  | [] => a
  | p :: parts => place parts (start p * 512 + a)
  end.

Lemma within_limit limit parts : forall a size, parts_ok parts -> within limit parts a size = true -> a + size <= limit * 512.
Proof.
  induction parts as [|p parts IH]; intros a size Hp Hw; cbn [within] in Hw; [by apply Z.leb_le in Hw|].
  apply Forall_cons in Hp as [(Hp1 & _) Hp]. apply andb_prop in Hw as [_ Hw]. specialize (IH _ _ Hp Hw). lia.
Qed.

(** The test of the code and the bytes it stands for. *)
Lemma fits_spec limit sector offset size : 0 <= sector < 2 ^ 64 -> 0 <= limit < 2 ^ 64 -> 0 <= offset < 512 -> 0 < size ->
  offset + size + 511 < 2 ^ 64 ->
  (limit <=? sector) || (u64 (limit - sector) <? range_sectors offset size) = negb (sector * 512 + offset + size <=? limit * 512).
Proof.
  intros Hs Hl Ho Hz Hb. unfold range_sectors, GRUB_DISK_SECTOR_SIZE, GRUB_DISK_SECTOR_BITS.
  rewrite (wrap_small 64 (offset + size + 512 - 1)), Z.shiftr_div_pow2 by lia. change (2 ^ 9) with 512.
  destruct (Z.leb_spec limit sector); cbn [orb]; [symmetry; apply negb_true_iff, Z.leb_gt; lia|].
  rewrite wrap_small by lia. apply eq_bool_prop_intro. rewrite negb_True, !Is_true_true, Z.ltb_lt, Z.leb_le. dlia.
Qed.

Lemma adjust_partitions_spec limit parts : forall sector offset size, parts_ok parts -> 0 <= sector < 2 ^ 64 -> 0 <= offset < 512 ->
  0 < size -> offset + size + 511 < 2 ^ 64 -> 0 <= limit < 2 ^ 64 ->
  match adjust_partitions parts sector offset size with
  | None => within limit parts (sector * 512 + offset) size = false
  | Some sec => 0 <= sec < 2 ^ 64 /\ place parts (sector * 512 + offset) = sec * 512 + offset /\
      within limit parts (sector * 512 + offset) size = (sec * 512 + offset + size <=? limit * 512)
  end.
Proof.
  induction parts as [|p parts IH]; intros sector offset size Hp Hs Ho Hz Hb Hl; cbn [adjust_partitions within place]; [done|].
  apply Forall_cons in Hp as [(Hp1 & Hp2 & Hp3) Hp]. rewrite fits_spec by lia.
  destruct (Z.leb_spec (sector * 512 + offset + size) (len p * 512)); cbn [negb andb]; [|done].
  rewrite wrap_small by lia. replace (start p * 512 + (sector * 512 + offset)) with ((sector + start p) * 512 + offset) by lia.
  apply IH; lia || done.
Qed.

(** The check of a range. *)
Lemma adjust_range_spec k sector offset size : parts_ok (partition k) -> 0 <= sector -> 0 <= offset -> 0 < size ->
  sector + offset / 512 < 2 ^ 64 -> offset mod 512 + size + 511 < 2 ^ 64 ->
  match grub_disk_adjust_range k sector offset size with
  | inl e => e = ERR_OUT_OF_RANGE /\ within (disk_end k) (partition k) (sector * 512 + offset) size = false
  | inr (sec, off) => within (disk_end k) (partition k) (sector * 512 + offset) size = true /\ 0 <= sec /\ 0 <= off < 512 /\
      place (partition k) (sector * 512 + offset) = sec * 512 + off /\ sec * 512 + off + size <= disk_end k * 512
  end.
Proof.
  intros Hp Hs Ho Hz Hs64 Hb. unfold grub_disk_adjust_range. change (GRUB_DISK_SECTOR_SIZE - 1) with 511. rewrite land_511.
  unfold GRUB_DISK_SECTOR_BITS. rewrite Z.shiftr_div_pow2 by lia. change (2 ^ 9) with 512.
  rewrite (wrap_small 64 (sector + offset / 512)) by dlia.
  assert (0 <= disk_end k < 2 ^ 64) as He.
  { unfold disk_end, grub_disk_from_native_sector.
    pose proof (wrap_range 64 (Z.shiftl (total_sectors k) (log_sector_size k - GRUB_DISK_SECTOR_BITS)) ltac:(lia)). pow2. lia. }
  pose proof (adjust_partitions_spec (disk_end k) (partition k) (sector + offset / 512) (offset mod 512) size Hp ltac:(dlia) ltac:(dlia) Hz Hb He) as Ha.
  replace ((sector + offset / 512) * 512 + offset mod 512) with (sector * 512 + offset) in Ha by dlia.
  destruct (adjust_partitions _ _ _ _) as [sec|]; [|done]. destruct Ha as (Hsec & Hpl & Hw). cbv zeta.
  change GRUB_DISK_MAX_SECTORS with (2 ^ 51).
  replace (if 2 ^ 51 <? _ then _ else _) with (disk_end k) by (unfold disk_end; destruct (Z.ltb_spec (2 ^ 51) (grub_disk_from_native_sector k (total_sectors k))); lia).
  rewrite fits_spec by dlia. destruct (Z.leb_spec (sec * 512 + offset mod 512 + size) (disk_end k * 512)); cbn [negb].
  - split; [done|]. split; [lia|]. split; [dlia|]. by split.
  - done.
Qed.

Section Reads.
Context {D : Type} `{DevicesOk D}.
Variable memory : nat -> Z -> bool * bool.

(** What a read gives: the bytes at the place of the range, or an error; nothing else changes. *)
Definition read_outcome (k : grub_disk) (a size : Z) (s s' : state) (e : grub_err_t) (b : list Z) : Prop :=
  frame s s' /\ (hook_ok k -> grub_errno s' = e) /\
  if within (disk_end k) (partition k) a size
  then (e = ERR_NONE -> b = bytes (disk_bytes s k) (place (partition k) a) size /\ grub_errno s' = ERR_NONE) /\
       (all_well memory k s -> grub_errno s = ERR_NONE -> e = ERR_NONE)
  else e = ERR_OUT_OF_RANGE.

Lemma set_depth_ok n s : cache_ok s -> cache_ok (set_depth n s).
Proof. by intros [? ?]. Qed.

Lemma disk_end_total k : disk_ok k -> disk_end k * 512 <= total_sectors k * 2 ^ log_sector_size k.
Proof.
  intros Hk. pose proof (k_log k Hk). pose proof (k_total k Hk). unfold disk_end, grub_disk_from_native_sector, GRUB_DISK_SECTOR_BITS.
  rewrite Z.shiftl_mul_pow2 by lia. replace (log_sector_size k) with ((log_sector_size k - 9) + 9) at 2 by lia.
  rewrite Z.pow_add_r by lia. change (2 ^ 9) with 512. set (x := total_sectors k * 2 ^ (log_sector_size k - 9)).
  assert (0 <= x) by (apply Z.mul_nonneg_nonneg; [done|apply Z.pow_nonneg; lia]). unfold wrap.
  pose proof (Z.mod_le x (2 ^ 64)). nia.
Qed.

Lemma disk_read_spec k sector offset size s : cache_ok s -> disk_ok k -> parts_ok (partition k) -> 0 <= sector -> 0 <= offset -> 0 < size ->
  sector + offset / 512 < 2 ^ 64 -> offset mod 512 + size + 511 < 2 ^ 64 -> 0 <= read_recursion_depth s < 15 ->
  exists e b s', grub_disk_read memory k sector offset size s = Some (e, b, s') /\
    read_outcome k (sector * 512 + offset) size s s' e b.
Proof.
  intros Hs Hk Hp Hsec Ho Hsz Hs64 Hb Hd. unfold grub_disk_read, read_outcome.
  pose proof (adjust_range_spec k sector offset size Hp Hsec Ho Hsz Hs64 Hb) as Ha.
  destruct (grub_disk_adjust_range k sector offset size) as [e|[sec off]].
  { destruct Ha as [-> ->]. eexists _, _, _. split; [done|]. split; [by apply set_errno_frame|by split]. }
  destruct Ha as (-> & Hsec' & Hoff & Hpl & Hend). cbv zeta. cbn [read_recursion_depth set_depth].
  rewrite (wrap_small 32 (read_recursion_depth s + 1)) by (pow2; lia). unfold MAX_READ_RECURSION_DEPTH.
  destruct (Z.leb_spec 16 (read_recursion_depth s + 1)); [lia|].
  assert (disk_end k <= 2 ^ 51) as Hde by (unfold disk_end; lia). change (2 ^ 51) with 2251799813685248 in Hde.
  destruct (read_parts_spec memory k sec off size (set_depth (read_recursion_depth s + 1) s) (set_depth_ok _ s Hs) Hk Hsec' Hoff Hsz ltac:(pow2; lia))
    as (r & s1 & -> & [C1 M1 D1] & Hr & Hlive). rewrite bind_ret. cbv beta iota. rewrite bind_ret. cbn [medium set_depth read_recursion_depth] in *.
  assert (frame s (set_depth (u32 (read_recursion_depth s1 - 1)) s1)) as F.
  { split; [by apply set_depth_ok|done|]. cbn. rewrite D1. rewrite wrap_small by (pow2; lia). lia. }
  destruct r as [e|b]; eexists _, _, _; (split; [done|]); (split; [exact F|]); rewrite ?Hpl.
  - split; [apply Hr|]. split; [by intros ->; destruct Hr|]. intros Hw He. destruct Hlive as (b & ? & _); [done|done| |done]. pose proof (disk_end_total k Hk). lia.
  - split; [done|]. split; [intros ?; by split|]. intros Hw He. destruct Hlive as (b' & _ & ?); [done|done| |done].
    pose proof (disk_end_total k Hk). lia.
Qed.

(** Sixteen reads inside each other: the last one is refused, and says that it succeeded. *)
Lemma deep_read k sector offset size sec off s : grub_disk_adjust_range k sector offset size = inr (sec, off) ->
  read_recursion_depth s = 15 ->
  grub_disk_read memory k sector offset size s = Some (ERR_NONE, [], set_errno ERR_RECURSION_DEPTH s).
Proof.
  intros Ha Hd. unfold grub_disk_read. rewrite Ha. cbn [read_recursion_depth set_depth]. rewrite Hd. cbn. by destruct s; cbn in *; subst.
Qed.

(** A read terminates, keeps the cache coherent with the medium, changes neither the medium nor
    the depth of reads, and is refused exactly when the range is not inside all the partitions and
    the disk. *)
(** [grub_disk_read] terminates and keeps every cached unit equal to what the medium holds.  A
    range that is not inside the disk and every partition around it is refused with
    [GRUB_ERR_OUT_OF_RANGE]; when the code is [GRUB_ERR_NONE] the buffer holds exactly the bytes of
    the disk at the place of the range, whichever of them came from the cache, in whatever units
    the driver was asked; and when no allocation, driver or hook fails, the code is
    [GRUB_ERR_NONE]. *)
Theorem disk_read_correct k sector offset size s : cache_ok s -> disk_ok k -> parts_ok (partition k) -> 0 <= sector -> 0 <= offset -> 0 < size ->
  sector + offset / 512 < 2 ^ 64 -> offset mod 512 + size + 511 < 2 ^ 64 -> 0 <= read_recursion_depth s < 15 ->
  exists e b s', grub_disk_read memory k sector offset size s = Some (e, b, s') /\
    cache_ok s' /\ medium s' = medium s /\ read_recursion_depth s' = read_recursion_depth s /\
    let a := sector * 512 + offset in
    if within (disk_end k) (partition k) a size
    then (e = ERR_NONE -> b = bytes (disk_bytes s k) (place (partition k) a) size) /\
         (all_well memory k s -> grub_errno s = ERR_NONE -> e = ERR_NONE)
    else e = ERR_OUT_OF_RANGE.
Proof.
  intros Hs Hk Hp Hsec Ho Hz Hs64 Hb Hd.
  destruct (disk_read_spec k sector offset size s Hs Hk Hp Hsec Ho Hz Hs64 Hb Hd) as (e & b & s' & E & [C M Dp] & _ & Hr).
  exists e, b, s'. split; [exact E|]. split; [done|]. split; [done|]. split; [done|]. cbv zeta.
  destruct (within _ _ _ _); [|done]. destruct Hr as [H1 H2]. split; [|done]. intros Hn. apply (H1 Hn).
Qed.

(** The sixteenth read inside others (a read of a disk that is itself a file on a disk) is
    refused: [grub_errno] is [GRUB_ERR_RECURSION_DEPTH] and the buffer is left as it was, but the
    code that [grub_disk_read] returns is [GRUB_ERR_NONE], as after a read that succeeded. *)
Theorem deep_read_claims_success k sector offset size s : cache_ok s -> disk_ok k -> parts_ok (partition k) -> 0 <= sector -> 0 <= offset ->
  0 < size -> sector + offset / 512 < 2 ^ 64 -> offset mod 512 + size + 511 < 2 ^ 64 ->
  within (disk_end k) (partition k) (sector * 512 + offset) size = true -> read_recursion_depth s = 15 ->
  grub_disk_read memory k sector offset size s = Some (ERR_NONE, [], set_errno ERR_RECURSION_DEPTH s).
Proof.
  intros Hs Hk Hp Hsec Ho Hz Hs64 Hb Hw Hd. pose proof (adjust_range_spec k sector offset size Hp Hsec Ho Hz Hs64 Hb) as Ha.
  destruct (grub_disk_adjust_range k sector offset size) as [e|[sec off]] eqn:E; [destruct Ha; congruence|]. by eapply deep_read.
Qed.

End Reads.

(** ** A disk in memory *)

Definition ram : Type := Z -> Z -> Z -> Z.

#[export] Instance ram_devices : Devices ram := {|
  disk_read d k s n :=
    if (s <? 0) || (total_sectors k <? s + n) then inl ERR_READ_ERROR
    else inr (bytes (d (dev_id k) (id k)) (s * 2 ^ log_sector_size k) (n * 2 ^ log_sector_size k));
  disk_write d k s n b :=
    if (s <? 0) || (total_sectors k <? s + n) then (ERR_WRITE_ERROR, d)
    else (ERR_NONE, fun i j a =>
      if (i =? dev_id k) && (j =? id k) && (s * 2 ^ log_sector_size k <=? a) && (a <? (s + n) * 2 ^ log_sector_size k)
      then default 0 (b !! Z.to_nat (a - s * 2 ^ log_sector_size k)) else d i j a)
|}.

#[export] Instance ram_devices_ok : DevicesOk ram.
Proof.
  refine {| content := fun (d : ram) => d |}; cbn.
  - intros d k s n b. by destruct (_ || _); intros [= <-].
  - intros d k s n e. by destruct (_ || _); intros [= <-].
  - intros d k s n b d' a. destruct (_ || _); [done|]. intros [= <-] Hb Ha. rewrite !Z.eqb_refl.
    rewrite (proj2 (Z.leb_le _ _)), (proj2 (Z.ltb_lt _ _)) by lia. cbn [andb].
    destruct (lookup_lt_is_Some_2 b (Z.to_nat (a - s * 2 ^ log_sector_size k))) as [y Hy]; [unfold zlen in Hb; lia|]. by rewrite Hy.
  - intros d k s n b i j a Ha. destruct (_ || _); [done|]. cbn. destruct (_ && _) eqn:E; [|done]. exfalso.
    apply andb_prop in E as [[[E1 E2]%andb_prop E3]%andb_prop E4]. destruct Ha as [Ha|Ha]; [apply Ha; f_equal; lia|lia].
Defined.

Definition plenty (_ : nat) (_ : Z) : bool * bool := (true, false).

(** A disk of [n] native sectors of [2 ^ l] bytes, all of it one partition behind 4 sectors. *)
Definition small_disk (l n agg : Z) (parts : list grub_partition) : grub_disk := mk_disk [] 1 n l agg 7 parts None.
Definition one_part : list grub_partition := [mk_partition 0 4 100 0 0 [] 0].

Definition fresh (d : ram) : state := mk_state (replicate 1021 empty_cache) d ERR_NONE 0 0 [].

Lemma fresh_ok d : cache_ok (fresh d).
Proof.
  split; [done|]. intros i c Hc. cbn [fresh grub_disk_cache_table] in Hc. apply lookup_replicate in Hc as [-> _]. done.
Qed.

Lemma small_disk_ok l n agg parts : 9 <= l <= 15 -> 1 <= agg -> 0 <= n -> disk_ok (small_disk l n agg parts).
Proof. by split. Qed.

Lemma one_part_ok : parts_ok one_part.
Proof. repeat constructor; cbn; lia. Qed.

Definition ramp : ram := fun _ _ a => a mod 251.

Lemma disk_read_correct_witness : exists e b s',
  grub_disk_read plenty (small_disk 11 4096 32 one_part) 3 100 5000 (fresh ramp) = Some (e, b, s') /\
  (e = ERR_NONE -> b = bytes (disk_bytes (fresh ramp) (small_disk 11 4096 32 one_part)) 3684 5000).
Proof.
  destruct (disk_read_correct plenty (small_disk 11 4096 32 one_part) 3 100 5000 (fresh ramp) (fresh_ok ramp)
    ltac:(apply small_disk_ok; lia) one_part_ok ltac:(lia) ltac:(lia) ltac:(lia) eq_refl eq_refl ltac:(cbn; lia))
    as (e & b & s' & E & _ & _ & _ & Hr).
  exists e, b, s'. split; [exact E|]. exact (proj1 Hr).
Defined.

Lemma deep_read_claims_success_witness :
  grub_disk_read plenty (small_disk 9 4096 32 []) 0 0 10 (set_depth 15 (fresh ramp)) =
    Some (ERR_NONE, [], set_errno ERR_RECURSION_DEPTH (set_depth 15 (fresh ramp))).
Proof.
  refine (deep_read_claims_success plenty (small_disk 9 4096 32 []) 0 0 10 (set_depth 15 (fresh ramp)) _ _ _ _ _ _ _ _ _ _).
  - apply set_depth_ok, fresh_ok.
  - apply small_disk_ok; lia.
  - constructor.
  - lia.
  - lia.
  - lia.
  - reflexivity.
  - reflexivity.
  - vm_compute. reflexivity.
  - reflexivity.
Defined.

End GrubDisk.
