(* ===== verification/GrubDiskWrite.v ===== *)
(** Writing through the disk layer of GRUB (src/grub/grub-core/lib/disk.c, the definitions are in
    the file of the disk layer): what a write leaves on the medium and in the cache, reads and
    writes of any disks in any order, and where long writes go wrong. *)

From S2P Require Import Prelude GrubStr GrubDisk.

Module GrubDiskWrite.
Import GrubStr GrubDisk.

(** * Writing *)

(** [b] from the address [a] on. *)
Definition patch (f : Z -> Z) (a : Z) (b : list Z) (x : Z) : Z :=
  if (a <=? x) && (x <? a + zlen b) then default 0 (b !! Z.to_nat (x - a)) else f x.

Lemma patch_nil f a x : patch f a [] x = f x.
Proof. unfold patch. change (@zlen Z []) with 0. destruct (Z.leb_spec a x), (Z.ltb_spec x (a + 0)); cbn [andb]; lia || done. Qed.

Lemma patch_out f a b x : ~ (a <= x < a + zlen b) -> patch f a b x = f x.
Proof. intros Hx. unfold patch. destruct (Z.leb_spec a x), (Z.ltb_spec x (a + zlen b)); cbn [andb]; lia || done. Qed.

Lemma patch_in f a b x y : a <= x < a + zlen b -> b !! Z.to_nat (x - a) = Some y -> patch f a b x = y.
Proof. intros Hx Hy. unfold patch. by rewrite (proj2 (Z.leb_le _ _)), (proj2 (Z.ltb_lt _ _)), Hy by lia. Qed.

Lemma patch_ext f g a b x : f x = g x -> patch f a b x = patch g a b x.
Proof. unfold patch. intros ->. done. Qed.

Lemma patch_app f a b1 b2 x : patch (patch f a b1) (a + zlen b1) b2 x = patch f a (b1 ++ b2) x.
Proof.
  unfold patch. rewrite zlen_app. pose proof (zlen_nonneg b1). pose proof (zlen_nonneg b2). unfold zlen in *.
  repeat match goal with |- context [?p <=? ?q] => destruct (Z.leb_spec p q) | |- context [?p <? ?q] => destruct (Z.ltb_spec p q) end;
    cbn [andb]; try lia; try done.
  - rewrite lookup_app_r by lia. do 2 f_equal. lia.
  - by rewrite lookup_app_l by lia.
Qed.

Lemma bytes_lookup f a n i : (i < Z.to_nat n)%nat -> bytes f a n !! i = Some (f (a + Z.of_nat i)).
Proof. intros Hi. unfold bytes. rewrite list_lookup_fmap, lookup_seqZ_lt by lia. done. Qed.

Lemma overwrite_spec old off b : 0 <= off -> off + zlen b <= zlen old -> exists t, overwrite old off b = Some t /\ zlen t = zlen old.
Proof.
  intros Ho Hb. unfold overwrite. rewrite (proj2 (Z.leb_le 0 off)), (proj2 (Z.leb_le _ (zlen old))) by lia. eexists. split; [done|].
  unfold zlen in *. rewrite !length_app, length_take, length_drop. lia.
Qed.

(** Bytes of the disk around new ones, written back. *)
Lemma patch_overwrite f a n off b t x : 0 <= off -> off + zlen b <= n -> overwrite (bytes f a n) off b = Some t ->
  patch f a t x = patch f (a + off) b x.
Proof.
  intros Ho Hb. unfold overwrite. pose proof (zlen_nonneg b). rewrite zlen_bytes by lia.
  rewrite (proj2 (Z.leb_le 0 off)), (proj2 (Z.leb_le _ n)) by lia. cbn [andb]. intros [= <-].
  replace n with (off + (zlen b + (n - off - zlen b))) by lia. rewrite !bytes_app by lia.
  rewrite take_app_length' by (unfold bytes; rewrite length_fmap, length_seqZ; lia).
  replace (Z.to_nat (off + zlen b)) with (Z.to_nat off + Z.to_nat (zlen b))%nat by lia. rewrite <- drop_drop.
  rewrite drop_app_length' by (unfold bytes; rewrite length_fmap, length_seqZ; lia).
  rewrite drop_app_length' by (unfold bytes; rewrite length_fmap, length_seqZ; lia).
  rewrite <- !patch_app. rewrite zlen_bytes by lia.
  assert (forall g c m y, (forall z, c <= z < c + m -> g z = f z) -> 0 <= m -> patch g c (bytes f c m) y = g y) as Hsame.
  { intros g c m y Hg Hm. unfold patch. rewrite zlen_bytes by lia. destruct (Z.leb_spec c y), (Z.ltb_spec y (c + m)); cbn [andb]; try done.
    rewrite bytes_lookup by lia. cbn. rewrite Hg by lia. f_equal. lia. }
  rewrite Hsame; [|intros z Hz; rewrite patch_out by lia; apply Hsame; [done|lia]|lia].
  apply patch_ext. apply Hsame; [done|lia].
Qed.

Section Writes.
Context {D : Type} `{DevicesOk D}.
Variable memory : nat -> Z -> bool * bool.

(** No unit with data has bytes of a disk in a range. *)
Definition no_unit (dev disk a n : Z) (s : state (D := D)) : Prop := forall i c x, grub_disk_cache_table s !! i = Some c -> c_data c <> None ->
  c_dev_id c = dev -> c_disk_id c = disk -> c_sector c * 512 <= x < c_sector c * 512 + 32768 -> ~ (a <= x < a + n).

(** Units with data only go. *)
Definition fewer_units (s s' : state (D := D)) : Prop := forall i c, grub_disk_cache_table s' !! i = Some c -> c_data c <> None ->
  grub_disk_cache_table s !! i = Some c.

Lemma invalidate_spec dev disk sector s : cache_ok s -> 0 <= sector ->
  let s' := grub_disk_cache_invalidate dev disk sector s in
  frame s s' /\ grub_errno s' = grub_errno s /\ fewer_units s s' /\
  forall i c, grub_disk_cache_table s' !! i = Some c -> c_data c <> None ->
    ~ (c_dev_id c = dev /\ c_disk_id c = disk /\ c_sector c = sector - sector mod 64).
Proof.
  intros Hs Hsec. unfold grub_disk_cache_invalidate. change (GRUB_DISK_CACHE_SIZE - 1) with 63. rewrite round_64.
  set (i0 := grub_disk_cache_get_index dev disk (sector - sector mod 64)).
  assert (forall i c, grub_disk_cache_table s !! i = Some c -> c_data c <> None ->
    c_dev_id c = dev /\ c_disk_id c = disk /\ c_sector c = sector - sector mod 64 -> i = i0 /\ entry i0 s = c) as Hidx.
  { intros i c Hc Hd (E1 & E2 & E3). pose proof (co_units _ Hs i c Hc) as Hu. unfold unit_ok in Hu. destruct (c_data c); [|done].
    destruct Hu as [Hi _]. rewrite E1, E2, E3 in Hi. split; [done|]. unfold entry. by rewrite <- (Hi : i = i0), Hc. }
  destruct (same_unit _ _ _ (entry i0 s) && _) eqn:E.
  - split; [by apply set_entry_frame|]. split; [done|]. split.
    + intros i c Hc Hd. cbn in Hc. destruct (decide (i = i0)) as [->|Hne]; [|by rewrite list_lookup_insert_ne in Hc].
      rewrite list_lookup_insert_eq in Hc by (rewrite (co_len _ Hs); apply index_lt). by injection Hc as <-.
    + intros i c Hc Hd Heq. cbn in Hc. destruct (decide (i = i0)) as [->|Hne].
      * rewrite list_lookup_insert_eq in Hc by (rewrite (co_len _ Hs); apply index_lt). by injection Hc as <-.
      * rewrite list_lookup_insert_ne in Hc by done. by destruct (Hidx i c Hc Hd Heq).
  - split; [by apply frame_refl|]. split; [done|]. split; [by intros ? ?|]. intros i c Hc Hd Heq.
    destruct (Hidx i c Hc Hd Heq) as [_ Ee]. rewrite Ee in E. destruct Heq as (E1 & E2 & E3).
    unfold same_unit in E. rewrite E1, E2, E3, !Z.eqb_refl in E. by destruct (c_data c).
Qed.

Lemma native_size k : disk_ok k -> 2 ^ log_sector_size k = 2 ^ (log_sector_size k - 9) * 512 /\ 0 < 2 ^ (log_sector_size k - 9).
Proof.
  intros Hk. pose proof (k_log k Hk). split; [|apply Z.pow_pos_nonneg; lia]. change 512 with (2 ^ 9). rewrite <- Z.pow_add_r by lia. f_equal. lia.
Qed.

(** Every byte of a native sector is in the unit of its first sector. *)
Lemma native_in_unit k sector u x : disk_ok k -> 0 <= sector -> sector mod 2 ^ (log_sector_size k - 9) = 0 -> u mod 64 = 0 ->
  u * 512 <= x < u * 512 + 32768 -> sector * 512 <= x < sector * 512 + 2 ^ log_sector_size k -> u = sector - sector mod 64.
Proof.
  intros Hk Hs Hal Hu Hx Hy. revert Hal Hy. logs k;
  repeat match goal with |- context [2 ^ ?n] => let v := eval vm_compute in (2 ^ n) in progress change (2 ^ n) with v end; intros; dlia.
Qed.

Lemma invalidate_sectors_spec k n : forall sector s, cache_ok s -> disk_ok k -> 0 <= sector -> sector mod 2 ^ (log_sector_size k - 9) = 0 ->
  sector * 512 + Z.of_nat n * 2 ^ log_sector_size k <= 2 ^ 60 ->
  let s' := invalidate_sectors n k sector s in
  frame s s' /\ grub_errno s' = grub_errno s /\ fewer_units s s' /\
  no_unit (dev_id k) (id k) (sector * 512) (Z.of_nat n * 2 ^ log_sector_size k) s'.
Proof.
  induction n as [|n IH]; intros sector s Hs Hk Hsec Hal Hb; cbn [invalidate_sectors].
  { split; [by apply frame_refl|]. split; [done|]. split; [by intros ? ?|]. intros ? ? ? _ _ _ _ _. lia. }
  destruct (native_size k Hk) as [Esz Hpos]. pose proof (k_log k Hk) as Hlog.
  destruct (invalidate_spec (dev_id k) (id k) sector s Hs Hsec) as (F1 & E1 & G1 & N1).
  set (s1 := grub_disk_cache_invalidate (dev_id k) (id k) sector s) in *. unfold GRUB_DISK_SECTOR_BITS. rewrite Z.shiftl_1_l.
  change (2 ^ 60) with 1152921504606846976 in *. rewrite Nat2Z.inj_succ in *. set (u := 2 ^ (log_sector_size k - 9)) in *.
  rewrite (wrap_small 64 (sector + u)) by (pow2; nia).
  destruct (IH (sector + u) s1 (f_ok _ _ F1) Hk ltac:(lia)) as (F2 & E2 & G2 & N2).
  { rewrite <- Z.add_mod_idemp_r, Z.mod_same, Z.add_0_r by lia. done. }
  { nia. }
  split; [by eapply frame_trans|]. split; [congruence|]. split; [intros i c Hc Hd; eauto|].
  intros i c x Hc Hd Ed Ei Hx Hr. destruct (Z.le_gt_cases ((sector + u) * 512) x).
  - eapply N2; [exact Hc|exact Hd|exact Ed|exact Ei|exact Hx|]. nia.
  - pose proof (co_units _ (f_ok _ _ F2) i c Hc) as Hu. unfold unit_ok in Hu. pose proof (G2 i c Hc Hd) as Hc1.
    apply (N1 i c Hc1 Hd). split; [done|]. split; [done|]. destruct (c_data c); [|done]. destruct Hu as (_ & Hu & _).
    apply (native_in_unit k sector (c_sector c) x Hk Hsec Hal Hu Hx). lia.
Qed.

(** A new medium that differs only where nothing is cached. *)
Lemma sync_ok k a n d s : cache_ok s -> no_unit (dev_id k) (id k) a n s ->
  (forall i j x, (i, j) <> (dev_id k, id k) \/ ~ (a <= x < a + n) -> content d i j x = content (medium s) i j x) ->
  cache_ok (set_medium d s).
Proof.
  intros Hs Hn Hd. split; cbn; [apply Hs|]. intros i c Hc. pose proof (co_units _ Hs i c Hc) as Hu. unfold unit_ok in *.
  destruct (c_data c) as [b|] eqn:Eb; [|done]. destruct Hu as (Hi & Hm & ->). split; [done|]. split; [done|].
  apply bytes_ext. intros x Hx. symmetry. apply Hd.
  destruct (decide ((c_dev_id c, c_disk_id c) = (dev_id k, id k))) as [[= E1 E2]|]; [|by left]. right.
  apply (Hn i c x Hc); [by rewrite Eb|done|done|done].
Qed.

(** The drivers do what they are asked inside the disk. *)
Definition works (k : grub_disk) : Prop := enough_memory memory /\ hook_ok k /\ forall (d : D) p sector n,
  0 <= sector -> 0 < n -> sector + n <= total_sectors k ->
  (exists b, disk_read d (set_partition p k) sector n = inr b) /\
  forall b, fst (disk_write d (set_partition p k) sector n b) = ERR_NONE.

Lemma works_all_well k p s : works k -> all_well memory (set_partition p k) s.
Proof.
  intros (Hm & Hh & Hw). split; [done|]. split; [done|]. intros q sector n Hs Hn Ht. exact (proj1 (Hw (medium s) q sector n Hs Hn Ht)).
Qed.

(** Only bytes from [lo] to [hi] of the disk differ. *)
Definition only_range (k : grub_disk) (lo hi : Z) (d d' : D) : Prop := forall i j x,
  (i, j) <> (dev_id k, id k) \/ ~ (lo <= x < hi) -> content d' i j x = content d i j x.

Lemma only_range_refl k lo hi d : only_range k lo hi d d.
Proof. by intros i j x _. Qed.

Lemma only_range_trans k lo1 hi1 lo2 hi2 lo hi d1 d2 d3 : only_range k lo1 hi1 d1 d2 -> only_range k lo2 hi2 d2 d3 ->
  lo <= lo1 -> hi1 <= hi -> lo <= lo2 -> hi2 <= hi -> only_range k lo hi d1 d3.
Proof.
  intros R1 R2 ? ? ? ? i j x Hx. rewrite R2, R1; [done| |]; (destruct Hx as [Hx|Hx]; [by left|right; lia]).
Qed.

(** The disk holds [b] at [a], and the cache agrees with it. *)
Record written (k : grub_disk) (a : Z) (b : list Z) (s s' : state) : Prop := mk_written {
  w_ok : cache_ok s';
  w_errno : grub_errno s' = ERR_NONE;
  w_bytes : forall x, disk_bytes s' k x = patch (disk_bytes s k) a b x
}.

Lemma native_pos k sector : disk_ok k -> 0 <= sector -> sector mod 2 ^ (log_sector_size k - 9) = 0 ->
  0 <= grub_disk_to_native_sector k sector /\ grub_disk_to_native_sector k sector * 2 ^ log_sector_size k = sector * 512.
Proof.
  intros Hk H0s Hal. pose proof (k_log k Hk). unfold grub_disk_to_native_sector, GRUB_DISK_SECTOR_BITS. rewrite Z.shiftr_div_pow2 by lia.
  destruct (native_size k Hk) as [-> Hpos]. split; [by apply Z.div_pos|]. pose proof (Z.div_mod sector (2 ^ (log_sector_size k - 9)) ltac:(lia)). nia.
Qed.

Lemma dev_write_spec k sector n b s : disk_ok k -> 0 <= sector -> sector mod 2 ^ (log_sector_size k - 9) = 0 -> 0 < n ->
  zlen b = n * 2 ^ log_sector_size k ->
  exists e d, dev_write k sector n b s = (e, if decide (e = ERR_NONE) then set_medium d s else set_errno e (set_medium d s)) /\
    only_range k (sector * 512) (sector * 512 + zlen b) (medium s) d /\
    (e = ERR_NONE -> forall x, content d (dev_id k) (id k) x = patch (disk_bytes s k) (sector * 512) b x) /\
    (works k -> sector * 512 + zlen b <= total_sectors k * 2 ^ log_sector_size k -> e = ERR_NONE).
Proof.
  intros Hk Hsec Hal Hn Hb. unfold dev_write. destruct (native_pos k sector Hk Hsec Hal) as [Hnat Hpos].
  assert (0 < 2 ^ log_sector_size k) by (apply Z.pow_pos_nonneg; pose proof (k_log k Hk); lia).
  set (ns := grub_disk_to_native_sector k sector) in *.
  destruct (disk_write (medium s) k ns n b) as [e d] eqn:E. exists e, d. split; [done|].
  assert (only_range k (sector * 512) (sector * 512 + zlen b) (medium s) d) as Ho.
  { intros i j x Hx. replace d with (snd (disk_write (medium s) k ns n b)) by (by rewrite E). apply write_frame.
    destruct Hx as [Hx|Hx]; [by left|right]. rewrite Z.mul_add_distr_r, Hpos, <- Hb. done. }
  split; [exact Ho|]. split.
  - intros -> x. unfold disk_bytes. destruct (decide (sector * 512 <= x < sector * 512 + zlen b)) as [Hin|Hout].
    + symmetry. apply patch_in; [done|]. rewrite <- Hpos. eapply write_law; [exact E|done|]. rewrite Z.mul_add_distr_r, Hpos, <- Hb. lia.
    + rewrite patch_out by done. apply Ho. by right.
  - intros (_ & _ & Hw) Hin. destruct (Hw (medium s) (partition k) ns n Hnat Hn) as [_ Hok]; [nia|].
    rewrite set_partition_same in Hok. specialize (Hok b). by rewrite E in Hok.
Qed.

(** A successful write to a range of which nothing is cached. *)
Lemma set_medium_written k sector b d s : cache_ok s -> grub_errno s = ERR_NONE ->
  no_unit (dev_id k) (id k) (sector * 512) (zlen b) s -> only_range k (sector * 512) (sector * 512 + zlen b) (medium s) d ->
  (forall x, content d (dev_id k) (id k) x = patch (disk_bytes s k) (sector * 512) b x) ->
  written k (sector * 512) b s (set_medium d s).
Proof. intros Hs He Hn Ho Hx. split; [|done|exact Hx]. eapply sync_ok; [done|exact Hn|exact Ho]. Qed.

(** The outcome of a step of a write of [b] at [a] inside the bytes from [lo] to [hi]. *)
Definition step_outcome (k : grub_disk) (a : Z) (b : list Z) (lo hi : Z) (s s' : state) (ok : bool) : Prop :=
  read_recursion_depth s' = read_recursion_depth s /\ only_range k lo hi (medium s) (medium s') /\
  (if ok then written k a b s s' else grub_errno s' <> ERR_NONE) /\ (works k -> ok = true).

Lemma log_pow_bound k : disk_ok k -> 0 < 2 ^ log_sector_size k <= 32768.
Proof.
  intros Hk. pose proof (k_log k Hk). split; [apply Z.pow_pos_nonneg; lia|]. change 32768 with (2 ^ 15). apply Z.pow_le_mono_r; lia.
Qed.

(** Reading the native sector that is to change. *)
Lemma read_native_spec k sector s : cache_ok s -> disk_ok k -> hook_ok k -> grub_errno s = ERR_NONE -> 0 <= read_recursion_depth s < 15 ->
  0 <= sector -> sector * 512 + 2 ^ log_sector_size k <= disk_end k * 512 ->
  exists e b s', grub_disk_read memory (set_partition [] k) sector 0 (2 ^ log_sector_size k) s = Some (e, b, s') /\ frame s s' /\
    grub_errno s' = e /\ (e = ERR_NONE -> b = bytes (disk_bytes s k) (sector * 512) (2 ^ log_sector_size k)) /\ (works k -> e = ERR_NONE).
Proof.
  intros Hs Hk Hh He Hd Hsec Hend. pose proof (log_pow_bound k Hk). assert (disk_end k <= 2 ^ 51) as Hde by (unfold disk_end; lia).
  change (2 ^ 51) with 2251799813685248 in Hde.
  assert (disk_ok (set_partition [] k)) as Hk' by (by destruct Hk).
  destruct (disk_read_spec memory (set_partition [] k) sector 0 (2 ^ log_sector_size k) s Hs Hk' (Forall_nil_2 _) Hsec ltac:(lia) ltac:(lia)
    ltac:(pow2; dlia) ltac:(pow2; dlia) Hd) as (e & b & s' & E & F & Hset & Ho). exists e, b, s'. split; [exact E|]. split; [done|].
  change (disk_end (set_partition [] k)) with (disk_end k) in Ho. change (partition (set_partition [] k)) with (@nil grub_partition) in Ho.
  cbn [within place] in Ho. rewrite (proj2 (Z.leb_le _ _)) in Ho by lia. destruct Ho as [Hok Hlive]. rewrite Z.add_0_r in Hok.
  split; [by apply Hset|]. split; [intros Hn; by destruct (Hok Hn)|]. intros Hw. apply Hlive; [by apply works_all_well|done].
Qed.

(** A changed native sector goes back to the disk. *)
Lemma write_back_spec k sector ro nb t s s2 : frame s s2 -> disk_ok k -> grub_errno s2 = ERR_NONE -> 0 <= sector ->
  sector mod 2 ^ (log_sector_size k - 9) = 0 -> sector * 512 + 2 ^ log_sector_size k <= disk_end k * 512 ->
  0 <= ro -> ro + zlen nb <= 2 ^ log_sector_size k ->
  overwrite (bytes (disk_bytes s k) (sector * 512) (2 ^ log_sector_size k)) ro nb = Some t ->
  exists e s', dev_write k sector 1 t (grub_disk_cache_invalidate (dev_id k) (id k) sector s2) = (e, s') /\
    step_outcome k (sector * 512 + ro) nb (sector * 512) (sector * 512 + 2 ^ log_sector_size k) s s' (bool_decide (e = ERR_NONE)).
Proof.
  intros F2 Hk E2 Hsec Hal Hend Hro Hn Et. pose proof (log_pow_bound k Hk) as Hpow.
  assert (zlen t = 2 ^ log_sector_size k) as Ht.
  { destruct (overwrite_spec (bytes (disk_bytes s k) (sector * 512) (2 ^ log_sector_size k)) ro nb) as (t' & Et' & Ht); [lia|rewrite zlen_bytes; lia|].
    rewrite zlen_bytes in Ht by lia. congruence. }
  destruct (invalidate_spec (dev_id k) (id k) sector s2 (f_ok _ _ F2) Hsec) as (F3 & E3 & _ & N3).
  set (s3 := grub_disk_cache_invalidate _ _ _ s2) in *. pose proof (frame_trans _ _ _ F2 F3) as F13.
  destruct (dev_write_spec k sector 1 t s3 Hk Hsec Hal ltac:(lia) ltac:(lia)) as (e & d & -> & Ho & Hx & Hw). rewrite Ht, ?(f_medium _ _ F13) in *.
  eexists _, _. split; [done|].
  assert (works k -> e = ERR_NONE) as Hlive by (intros Hww; apply Hw; [done|pose proof (disk_end_total k Hk); lia]).
  destruct (decide (e = ERR_NONE)) as [->|Hne].
  - rewrite bool_decide_eq_true_2 by done. split; [apply F13|]. split; [exact Ho|]. split; [|done].
    assert (forall x, content d (dev_id k) (id k) x = patch (disk_bytes s k) (sector * 512 + ro) nb x) as Hx'.
    { intros x. rewrite (Hx eq_refl), (disk_bytes_frame k _ _ F13). eapply patch_overwrite; [lia| |exact Et]. lia. }
    split; [|cbn; congruence|exact Hx']. eapply (sync_ok k (sector * 512) (2 ^ log_sector_size k)); [apply F3| |].
    + intros i c x Hc Hd0 Ed Ei Hxx Hr. pose proof (co_units _ (f_ok _ _ F3) i c Hc) as Hu. unfold unit_ok in Hu.
      apply (N3 i c Hc Hd0). split; [done|]. split; [done|]. destruct (c_data c); [|done]. destruct Hu as (_ & Hu & _).
      exact (native_in_unit k sector (c_sector c) x Hk Hsec Hal Hu Hxx Hr).
    + rewrite (f_medium _ _ F13). exact Ho.
  - rewrite bool_decide_eq_false_2 by done. split; [apply F13|]. split; [exact Ho|]. split; [done|]. intros Hww. by destruct Hne; apply Hlive.
Qed.

Lemma write_part_spec k sector ro buf s : cache_ok s -> disk_ok k -> hook_ok k -> grub_errno s = ERR_NONE -> 0 <= read_recursion_depth s < 15 ->
  0 <= sector -> sector mod 2 ^ (log_sector_size k - 9) = 0 -> sector * 512 + 2 ^ log_sector_size k <= disk_end k * 512 ->
  0 <= ro < 2 ^ log_sector_size k -> 0 < zlen buf ->
  exists r s', write_part memory k sector ro buf s = Some (r, s') /\
    let n := Z.min (2 ^ log_sector_size k - ro) (zlen buf) in (forall len, r = Some len -> len = n) /\
    step_outcome k (sector * 512 + ro) (take (Z.to_nat n) buf) (sector * 512) (sector * 512 + 2 ^ log_sector_size k) s s' (bool_decide (r <> None)).
Proof.
  intros Hs Hk Hh He Hd Hsec Hal Hend Hro Hbuf. unfold write_part. rewrite Z.shiftl_1_l. pose proof (log_pow_bound k Hk) as Hpow.
  destruct (malloc_spec memory (2 ^ log_sector_size k) s Hs) as (F1 & E1 & O1 & M1).
  destruct (malloc memory (2 ^ log_sector_size k) s) as [ok s1]. cbn [fst snd] in *. destruct ok; cbn [negb].
  2:{ eexists None, _. split; [done|]. split; [done|]. split; [apply F1|]. split; [rewrite (f_medium _ _ F1); apply only_range_refl|].
      cbn. split; [by rewrite (O1 eq_refl)|]. intros (Hm & _). by specialize (M1 Hm). }
  specialize (E1 eq_refl).
  destruct (read_native_spec k sector s1 (f_ok _ _ F1) Hk Hh ltac:(congruence) ltac:(rewrite (f_depth _ _ F1); lia) Hsec Hend)
    as (e & b & s2 & -> & F2 & E2 & Hb & Hw). rewrite bind_ret. cbv beta iota. pose proof (frame_trans _ _ _ F1 F2) as F12.
  destruct (bool_decide_reflect (e = ERR_NONE)) as [->|Hne]; cbn [negb].
  2:{ eexists None, _. split; [done|]. split; [done|]. split; [apply F12|]. split; [rewrite (f_medium _ _ F12); apply only_range_refl|].
      cbn. split; [congruence|]. intros Hww. by specialize (Hw Hww). }
  rewrite (Hb eq_refl), (disk_bytes_frame k _ _ F1). clear Hb Hw.
  set (n := Z.min _ _). replace (if zlen buf <? _ then _ else _) with n by (unfold n; destruct (Z.ltb_spec (zlen buf) (2 ^ log_sector_size k - ro)); lia).
  assert (0 < n /\ ro + n <= 2 ^ log_sector_size k /\ n <= zlen buf) as (Hn1 & Hn2 & Hn3) by lia. clearbody n.
  unfold slice at 1. rewrite (proj2 (Z.leb_le 0 n)), (proj2 (Z.leb_le (0 + n) _)) by lia. cbn [Z.leb Z.compare andb]. rewrite bind_ret.
  change (drop (Z.to_nat 0) buf) with buf. set (nb := take (Z.to_nat n) buf).
  assert (zlen nb = n) as Hnb by (unfold nb, zlen in *; rewrite length_take; lia).
  destruct (overwrite_spec (bytes (disk_bytes s k) (sector * 512) (2 ^ log_sector_size k)) ro nb) as (t & Et & _); [lia|rewrite zlen_bytes; lia|].
  rewrite Et, bind_ret.
  destruct (write_back_spec k sector ro nb t s s2 F12 Hk ltac:(congruence) Hsec Hal Hend ltac:(lia) ltac:(lia) Et) as (e & s' & -> & Hout).
  eexists _, _. split; [done|]. split; [by intros len; case_decide; intros [= <-]|].
  destruct (decide (e = ERR_NONE)) as [->|Hne]; [exact Hout|]. rewrite bool_decide_eq_false_2 in Hout by done. exact Hout.
Qed.

(** The bytes that one call of the driver writes at most. *)
Definition write_limit (k : grub_disk) : Z := max_agglomerate k * 32768.

Lemma slice_prefix (l : list Z) n : 0 <= n <= zlen l -> slice l 0 n = Some (take (Z.to_nat n) l) /\ zlen (take (Z.to_nat n) l) = n.
Proof.
  intros Hn. unfold slice. rewrite (proj2 (Z.leb_le 0 n)), (proj2 (Z.leb_le (0 + n) _)) by lia. cbn [Z.leb Z.compare andb]. split; [done|].
  unfold zlen in *. rewrite length_take. lia.
Qed.

Lemma write_whole_spec k sector buf s : cache_ok s -> disk_ok k -> max_agglomerate k * 64 < 2 ^ 32 -> grub_errno s = ERR_NONE ->
  0 <= sector -> sector mod 2 ^ (log_sector_size k - 9) = 0 -> sector * 512 + zlen buf <= disk_end k * 512 -> 2 ^ log_sector_size k <= zlen buf ->
  exists r s', write_whole k sector buf s = Some (r, s') /\
    let whole := zlen buf / 2 ^ log_sector_size k * 2 ^ log_sector_size k in
    let n := Z.min whole (write_limit k) in
    (forall sec len, r = Some (sec, len) -> sec * 512 = sector * 512 + n /\ len = whole) /\
    step_outcome k (sector * 512) (take (Z.to_nat n) buf) (sector * 512) (sector * 512 + n) s s' (bool_decide (r <> None)).
Proof.
  intros Hs Hk Hagg He Hsec Hal Hend Hbuf. unfold write_whole, write_limit. pose proof (k_log k Hk) as Hlog. pose proof (k_agg k Hk) as Ha.
  pose proof (log_pow_bound k Hk) as Hpow. destruct (native_size k Hk) as [Esz Hpos]. destruct (unit_native k Hk) as [Hu1 Hu2].
  assert (disk_end k <= 2 ^ 51) as Hde by (unfold disk_end; lia). change (2 ^ 51) with 2251799813685248 in Hde.
  rewrite Z.shiftl_1_l in *. unfold GRUB_DISK_CACHE_BITS, GRUB_DISK_SECTOR_BITS in *. rewrite mask_down, Z.shiftr_div_pow2, !Z.shiftl_mul_pow2 by lia.
  set (P := 2 ^ log_sector_size k) in *. set (U := 2 ^ (6 + 9 - log_sector_size k)) in *. set (q := 2 ^ (log_sector_size k - 9)) in *.
  pose proof (Z.div_mod (zlen buf) P ltac:(lia)) as Hdm. pose proof (Z.mod_pos_bound (zlen buf) P ltac:(lia)) as Hmb.
  assert (1 <= zlen buf / P) as Hw1 by (apply Z.div_le_lower_bound; lia).
  assert (U <= 64) as HU by nia. rewrite (wrap_small 32 (max_agglomerate k * U)) by nia.
  set (w := zlen buf / P) in *. set (n := if max_agglomerate k * U <? w then _ else w).
  assert (n * P = Z.min (w * P) (max_agglomerate k * 32768) /\ 0 < n) as [En Hn].
  { unfold n. rewrite <- Hu2. destruct (Z.ltb_spec (max_agglomerate k * U) w); nia. }
  clearbody n. rewrite <- En. destruct (slice_prefix buf (n * P)) as [-> Hzb]; [lia|]. rewrite bind_ret.
  set (b := take _ buf) in *. clearbody b.
  destruct (dev_write_spec k sector n b s Hk Hsec Hal Hn Hzb) as (e & d & -> & Ho & Hx & Hw). rewrite Hzb in *.
  assert (works k -> e = ERR_NONE) as Hlive by (intros Hww; apply Hw; [done|pose proof (disk_end_total k Hk); lia]).
  destruct (decide (e = ERR_NONE)) as [->|Hne].
  - destruct (invalidate_sectors_spec k (Z.to_nat n) sector s Hs Hk Hsec Hal ltac:(pow2; lia)) as (F & E & _ & N). rewrite Z2Nat.id in N by lia.
    rewrite (wrap_small 64 (sector + n * q)) by (pow2; nia). eexists _, _. split; [done|]. cbv zeta. split.
    { intros sec len [= <- <-]. split; nia. }
    assert (forall m st, invalidate_sectors m k st (set_medium d s) = set_medium d (invalidate_sectors m k st s)) as Hc.
    { clear. intros m. revert s. induction m as [|m IH]; intros s st; [done|]. cbn [invalidate_sectors]. rewrite <- IH. f_equal.
      unfold grub_disk_cache_invalidate, set_entry, set_table, entry. cbn. by destruct (_ && _). }
    rewrite Hc. split; [apply F|]. split; [exact Ho|]. split; [|done]. destruct F as [C M Dp]. cbn [bool_decide].
    assert (written k (sector * 512) b (invalidate_sectors (Z.to_nat n) k sector s) (set_medium d (invalidate_sectors (Z.to_nat n) k sector s))) as W.
    { apply set_medium_written; [done|congruence|by rewrite Hzb|by rewrite M, Hzb|]. intros x. rewrite (Hx eq_refl). unfold disk_bytes. by rewrite M. }
    destruct W as [W1 W2 W3]. split; [done|done|]. intros x. rewrite W3. unfold disk_bytes. by rewrite M.
  - eexists None, _. split; [done|]. split; [done|]. split; [done|]. split; [exact Ho|]. split; [done|]. intros Hww. by destruct Hne; apply Hlive.
Qed.

(** The outcome of a loop: it has written all of [b] unless an error is set. *)
Definition loop_outcome (k : grub_disk) (a : Z) (b : list Z) (lo hi : Z) (s s' : state) : Prop :=
  read_recursion_depth s' = read_recursion_depth s /\ only_range k lo hi (medium s) (medium s') /\
  (grub_errno s' = ERR_NONE -> written k a b s s') /\ (works k -> grub_errno s' = ERR_NONE).

Lemma loop_done k a lo hi s : cache_ok s -> grub_errno s = ERR_NONE -> loop_outcome k a [] lo hi s s.
Proof.
  intros Hs He. split; [done|]. split; [apply only_range_refl|]. split; [|done]. intros _. split; [done|done|]. intros x. by rewrite patch_nil.
Qed.

(** A step that failed ends the loop. *)
Lemma loop_failed k a b b' lo hi lo' hi' s s' : step_outcome k a b lo hi s s' false -> lo' <= lo -> hi <= hi' -> loop_outcome k a b' lo' hi' s s'.
Proof.
  intros (Hd & Ho & Hne & Hw) Hlo Hhi. split; [done|]. split; [apply (only_range_trans k lo hi lo hi lo' hi' _ _ _ Ho (only_range_refl _ _ _ _)); lia|].
  split; [done|]. intros Hww. by specialize (Hw Hww).
Qed.

(** A step and the rest of the loop. *)
Lemma loop_step k a b n lo hi lo1 hi1 lo2 s s1 s2 : 0 <= n <= zlen b -> step_outcome k a (take (Z.to_nat n) b) lo1 hi1 s s1 true -> lo <= lo1 -> hi1 <= hi -> lo <= lo2 ->
  loop_outcome k (a + n) (drop (Z.to_nat n) b) lo2 hi s1 s2 -> loop_outcome k a b lo hi s s2.
Proof.
  intros Hn (D1 & O1 & [C1 E1 B1] & _) Hlo Hhi Hlo2 (D2 & O2 & W2 & L2). split; [congruence|].
  split; [apply (only_range_trans k lo1 hi1 lo2 hi lo hi _ _ _ O1 O2); lia|]. split; [|done]. intros He. destruct (W2 He) as [C2 E2 B2].
  split; [done|done|]. intros x. rewrite B2, (patch_ext _ _ _ _ _ (B1 x)). rewrite <- (take_drop (Z.to_nat n) b) at 3. rewrite <- patch_app.
  do 2 f_equal. unfold zlen in *. rewrite length_take. lia.
Qed.

Lemma multiple_above p q n : 0 < p -> 0 < n -> n <= q * p -> p <= q * p.
Proof. intros Hp Hn Hq. assert (0 < q) by nia. nia. Qed.

(** A turn of the loop. *)
Lemma write_loop_turn fuel k sector ro buf s : zlen buf <> 0 -> write_loop memory (S fuel) k sector ro buf s =
  if negb (ro =? 0) || (zlen buf <? 2 ^ log_sector_size k) then
    '(r, s) ← write_part memory k sector ro buf s;
    match r with
    | None => Some s
    | Some len =>
        write_loop memory fuel k (u64 (sector + 2 ^ (log_sector_size k - GRUB_DISK_SECTOR_BITS))) 0 (drop (Z.to_nat len) buf) s
    end
  else
    '(r, s) ← write_whole k sector buf s;
    match r with
    | None => Some s
    | Some (sector, len) => write_loop memory fuel k sector ro (drop (Z.to_nat len) buf) s
    end.
Proof. intros Hz. cbn [write_loop]. by rewrite (proj2 (Z.eqb_neq _ 0) Hz), !Z.shiftl_1_l. Qed.

Section Loop.
Context (k : grub_disk) (Hk : disk_ok k) (Hh : hook_ok k) (Hagg : max_agglomerate k * 64 < 2 ^ 32).

(** What holds before every turn. *)
Record ready (sector ro : Z) (buf : list Z) (hi : Z) (s : state) : Prop := mk_ready {
  r_ok : cache_ok s;
  r_errno : grub_errno s = ERR_NONE;
  r_depth : 0 <= read_recursion_depth s < 15;
  r_sector : 0 <= sector;
  r_aligned : sector mod 2 ^ (log_sector_size k - 9) = 0;
  r_offset : 0 <= ro < 2 ^ log_sector_size k;
  r_hi : exists q, hi = sector * 512 + q * 2 ^ log_sector_size k;
  r_fits : sector * 512 + ro + zlen buf <= hi;
  r_end : hi <= disk_end k * 512
}.

Lemma zlen_drop (n : Z) (l : list Z) : 0 <= n <= zlen l -> zlen (drop (Z.to_nat n) l) = zlen l - n.
Proof. intros Hn. unfold zlen in *. rewrite length_drop. lia. Qed.

(** After [n] bytes, at the start of another native sector. *)
Lemma ready_next sector ro buf hi s sec n s1 a b : ready sector ro buf hi s -> written k a b s s1 ->
  read_recursion_depth s1 = read_recursion_depth s -> 0 <= n <= zlen buf -> sec * 512 = sector * 512 + ro + n ->
  sec mod 2 ^ (log_sector_size k - 9) = 0 -> ready sec 0 (drop (Z.to_nat n) buf) hi s1.
Proof.
  intros [] [C1 E1 _] D1 Hn Hs Hal. pose proof (log_pow_bound k Hk). destruct (native_size k Hk) as [Esz Hpos].
  split; try done; try lia; [|rewrite zlen_drop; lia]. destruct r_hi0 as [q0 ->]. apply Z.mod_divide in Hal as [x Hx], r_aligned0 as [y Hy]; [|lia..].
  exists (q0 - (x - y)). rewrite Hx, Hy, Esz. lia.
Qed.

Lemma write_tail fuel sector ro buf hi s : ready sector ro buf hi s -> 0 < zlen buf -> zlen buf <= 2 ^ log_sector_size k - ro ->
  (ro <> 0 \/ zlen buf < 2 ^ log_sector_size k) ->
  exists s', write_loop memory (S fuel) k sector ro buf s = Some s' /\ loop_outcome k (sector * 512 + ro) buf (sector * 512) hi s s'.
Proof.
  intros R Hz Hle Hc. pose proof R as [Hs He Hd Hsec Hal Hro [q Hq] Hf Hend]. pose proof (log_pow_bound k Hk) as Hpow.
  pose proof (multiple_above (2 ^ log_sector_size k) q (ro + zlen buf) ltac:(lia) ltac:(lia) ltac:(lia)) as Hhi.
  rewrite write_loop_turn by lia.
  replace (negb (ro =? 0) || (zlen buf <? 2 ^ log_sector_size k)) with true
    by (destruct (Z.eqb_spec ro 0), (Z.ltb_spec (zlen buf) (2 ^ log_sector_size k)); cbn; lia || done).
  destruct (write_part_spec k sector ro buf s Hs Hk Hh He Hd Hsec Hal ltac:(lia) Hro Hz) as (r & s1 & -> & Hr & Ho). rewrite bind_ret. cbv beta iota.
  rewrite Z.min_r in * by lia. destruct r as [len|].
  - rewrite (Hr len eq_refl). rewrite drop_ge by (unfold zlen; lia). destruct fuel; cbn [write_loop]; change (@zlen Z [] =? 0) with true; cbv iota;
    (eexists; split; [done|]); (eapply (loop_step _ _ _ _ _ _ _ _ (sector * 512)); [|exact Ho|..]; [lia|lia|lia|lia|]); rewrite drop_ge by (unfold zlen; lia);
    destruct Ho as (_ & _ & [C1 E1 _] & _); by apply loop_done.
  - eexists. split; [done|]. eapply loop_failed; [exact Ho|lia|lia].
Qed.

Lemma loop_empty fuel sector ro hi lo a s : cache_ok s -> grub_errno s = ERR_NONE ->
  exists s', write_loop memory fuel k sector ro [] s = Some s' /\ loop_outcome k a [] lo hi s s'.
Proof.
  intros Hs He. exists s. split; [|by apply loop_done]. by destruct fuel.
Qed.

(** From the start of a native sector, at most [write_limit] bytes of whole ones. *)
Lemma write_aligned fuel sector buf hi s : ready sector 0 buf hi s -> zlen buf / 2 ^ log_sector_size k * 2 ^ log_sector_size k <= write_limit k ->
  exists s', write_loop memory (S (S fuel)) k sector 0 buf s = Some s' /\ loop_outcome k (sector * 512) buf (sector * 512) hi s s'.
Proof.
  intros R Hlim. pose proof R as [Hs He Hd Hsec Hal Hro [q Hq] Hf Hend]. pose proof (log_pow_bound k Hk) as Hpow.
  destruct (native_size k Hk) as [Esz Hpos]. set (P := 2 ^ log_sector_size k) in *.
  destruct (Z.eq_dec (zlen buf) 0) as [E0|E0].
  { destruct buf; [|unfold zlen in E0; cbn in E0; lia]. by apply loop_empty. }
  pose proof (zlen_nonneg buf) as Hnn. destruct (Z.lt_ge_cases (zlen buf) P) as [Hlt|Hge].
  { destruct (write_tail (S fuel) sector 0 buf hi s R ltac:(lia) ltac:(lia) (or_intror Hlt)) as (s' & E & O). rewrite Z.add_0_r in O. by exists s'. }
  rewrite write_loop_turn by lia. fold P. rewrite (proj2 (Z.ltb_ge (zlen buf) P) Hge). cbn [Z.eqb negb orb].
  destruct (write_whole_spec k sector buf s Hs Hk Hagg He Hsec Hal ltac:(lia) Hge) as (r & s1 & -> & Hr & Ho). rewrite bind_ret. cbv beta iota.
  cbv zeta in Hr, Ho. fold P in Hr, Ho. rewrite (Z.min_l _ _ Hlim) in Hr, Ho. set (w := zlen buf / P * P) in *.
  assert (0 <= w <= zlen buf /\ zlen buf - w < P) as [Hw1 Hw2].
  { unfold w. pose proof (Z.div_mod (zlen buf) P ltac:(lia)). pose proof (Z.mod_pos_bound (zlen buf) P ltac:(lia)). nia. }
  destruct r as [[sec len]|]; [|eexists; split; [done|]; eapply loop_failed; [exact Ho|lia|lia]].
  destruct (Hr sec len eq_refl) as [Es ->]. pose proof Ho as (Hd1 & _ & W1 & _).
  assert (ready sec 0 (drop (Z.to_nat w) buf) hi s1) as R1.
  { eapply ready_next; [exact R|exact W1|done|lia|lia|]. apply Z.mod_divide; [lia|]. apply Z.mod_divide in Hal as [y Hy]; [|lia].
    exists (y + zlen buf / P). unfold w in Es. nia. }
  assert (exists s2, write_loop memory (S fuel) k sec 0 (drop (Z.to_nat w) buf) s1 = Some s2 /\
    loop_outcome k (sector * 512 + w) (drop (Z.to_nat w) buf) (sec * 512) hi s1 s2) as (s2 & E2 & O2).
  { destruct (Z.eq_dec w (zlen buf)) as [Ew|Ew].
    - rewrite drop_ge by (unfold zlen in Ew; lia). apply loop_empty; [apply R1|apply R1].
    - replace (sector * 512 + w) with (sec * 512 + 0) by lia. apply write_tail; [done|rewrite zlen_drop; lia|rewrite zlen_drop; lia|].
      right. rewrite zlen_drop; lia. }
  exists s2. split; [exact E2|]. eapply (loop_step k (sector * 512) buf w); [lia|exact Ho|lia|lia| |exact O2]. lia.
Qed.

Lemma write_loop_spec sector ro buf hi s : ready sector ro buf hi s -> zlen buf <= write_limit k ->
  exists s', write_loop memory 3 k sector ro buf s = Some s' /\ loop_outcome k (sector * 512 + ro) buf (sector * 512) hi s s'.
Proof.
  intros R Hlim. pose proof R as [Hs He Hd Hsec Hal Hro [q Hq] Hf Hend]. pose proof (log_pow_bound k Hk) as Hpow.
  assert (forall b : list Z, zlen b <= write_limit k -> zlen b / 2 ^ log_sector_size k * 2 ^ log_sector_size k <= write_limit k) as Hl.
  { intros b Hb. pose proof (Z.mul_div_le (zlen b) (2 ^ log_sector_size k) ltac:(lia)). lia. }
  destruct (Z.eq_dec ro 0) as [->|Hne].
  { rewrite Z.add_0_r. apply write_aligned; [done|by apply Hl]. }
  destruct (native_size k Hk) as [Esz Hpos]. pose proof (zlen_nonneg buf) as Hnn. pose proof (k_log k Hk) as Hlog.
  destruct (Z.eq_dec (zlen buf) 0) as [E0|E0].
  { destruct buf; [|unfold zlen in E0; cbn in E0; lia]. by apply loop_empty. }
  destruct (Z.le_gt_cases (zlen buf) (2 ^ log_sector_size k - ro)) as [Hle|Hgt]; [apply write_tail; [done|lia|lia|by left]|].
  pose proof (multiple_above (2 ^ log_sector_size k) q (ro + zlen buf) ltac:(lia) ltac:(lia) ltac:(lia)) as Hhi.
  rewrite write_loop_turn by done. rewrite (proj2 (Z.eqb_neq _ 0) Hne). cbn [negb orb].
  destruct (write_part_spec k sector ro buf s Hs Hk Hh He Hd Hsec Hal ltac:(lia) Hro ltac:(lia)) as (r & s1 & -> & Hr & Ho). rewrite bind_ret. cbv beta iota.
  rewrite Z.min_l in * by lia. set (n := 2 ^ log_sector_size k - ro) in *.
  destruct r as [len|]; [|eexists; split; [done|]; eapply loop_failed; [exact Ho|lia|lia]].
  rewrite (Hr len eq_refl). pose proof Ho as (Hd1 & _ & W1 & _). unfold GRUB_DISK_SECTOR_BITS.
  assert (disk_end k <= 2 ^ 51) as Hde by (unfold disk_end; lia). change (2 ^ 51) with 2251799813685248 in Hde.
  rewrite (wrap_small 64 (sector + 2 ^ (log_sector_size k - 9))) by (pow2; lia).
  set (sec := sector + 2 ^ (log_sector_size k - 9)).
  assert (ready sec 0 (drop (Z.to_nat n) buf) hi s1) as R1.
  { eapply ready_next; [exact R|exact W1|done|lia|lia|]. unfold sec. rewrite <- Z.add_mod_idemp_r, Z.mod_same, Z.add_0_r by lia. done. }
  destruct (write_aligned 0 sec (drop (Z.to_nat n) buf) hi s1 R1) as (s2 & E2 & O2); [apply Hl; rewrite zlen_drop; lia|].
  exists s2. split; [exact E2|]. eapply (loop_step k _ buf n); [lia|exact Ho|lia|lia| |]; [|replace (sector * 512 + ro + n) with (sec * 512) by lia; exact O2]. lia.
Qed.

End Loop.

(** The native sectors that have a byte of a range. *)
Definition native_floor (k : grub_disk) (a : Z) : Z := a / 2 ^ log_sector_size k * 2 ^ log_sector_size k.
Definition native_ceil (k : grub_disk) (a : Z) : Z := (a + 2 ^ log_sector_size k - 1) / 2 ^ log_sector_size k * 2 ^ log_sector_size k.

Lemma disk_end_native k : disk_ok k -> exists q, disk_end k * 512 = q * 2 ^ log_sector_size k.
Proof.
  intros Hk. pose proof (k_log k Hk) as Hlog. destruct (native_size k Hk) as [Esz Hpos].
  assert (exists q, disk_end k = q * 2 ^ (log_sector_size k - 9)) as [q ->]; [|exists q; lia].
  assert (forall e, log_sector_size k - 9 <= e -> 2 ^ e = 2 ^ (e - (log_sector_size k - 9)) * 2 ^ (log_sector_size k - 9)) as Hp.
  { intros e He. rewrite <- Z.pow_add_r by lia. f_equal. lia. }
  unfold disk_end, grub_disk_from_native_sector, GRUB_DISK_SECTOR_BITS, wrap. rewrite Z.shiftl_mul_pow2 by lia.
  rewrite (Hp 64), Z.mul_mod_distr_r, (Hp 51), Z.mul_min_distr_nonneg_r by (lia || apply Z.pow_nonzero; lia). by eexists.
Qed.

(** The range of a write, in native sectors. *)
Lemma native_bounds k sec off n : disk_ok k -> 0 <= sec -> 0 <= off < 512 -> 0 < n -> sec * 512 + off + n <= disk_end k * 512 ->
  let aligned := Z.land sec (Z.lnot (Z.shiftl 1 (log_sector_size k - GRUB_DISK_SECTOR_BITS) - 1)) in
  let ro := u32 (off + Z.shiftl (sec - aligned) GRUB_DISK_SECTOR_BITS) in
  0 <= aligned /\ aligned mod 2 ^ (log_sector_size k - 9) = 0 /\ 0 <= ro < 2 ^ log_sector_size k /\
  aligned * 512 = native_floor k (sec * 512 + off) /\ aligned * 512 + ro = sec * 512 + off /\
  (exists q, native_ceil k (sec * 512 + off + n) = aligned * 512 + q * 2 ^ log_sector_size k) /\
  sec * 512 + off + n <= native_ceil k (sec * 512 + off + n) <= disk_end k * 512.
Proof.
  intros Hk Hsec Hoff Hn Hend. cbv zeta. pose proof (k_log k Hk) as Hlog. destruct (native_size k Hk) as [Esz Hpos].
  destruct (disk_end_native k Hk) as [e He]. pose proof (log_pow_bound k Hk) as Hpow.
  unfold GRUB_DISK_SECTOR_BITS, native_floor, native_ceil. rewrite Z.shiftl_1_l, mask_down, Z.shiftl_mul_pow2 by lia. change (2 ^ 9) with 512.
  replace (sec - (sec - sec mod 2 ^ (log_sector_size k - 9))) with (sec mod 2 ^ (log_sector_size k - 9)) by lia.
  set (P := 2 ^ log_sector_size k) in *. set (U := 2 ^ (log_sector_size k - 9)) in *.
  pose proof (Z.mod_pos_bound sec U Hpos) as Hm. pose proof (Z.div_mod sec U ltac:(lia)) as Hdm.
  rewrite (wrap_small 32 (off + sec mod U * 512)) by (pow2; nia).
  assert ((sec * 512 + off) / P = sec / U) as Ed.
  { symmetry. apply (Z.div_unique_pos _ _ _ (sec mod U * 512 + off)); nia. }
  rewrite Ed. set (c := (sec * 512 + off + n + P - 1) / P).
  pose proof (Z.div_mod (sec * 512 + off + n + P - 1) P ltac:(lia)) as Hc. pose proof (Z.mod_pos_bound (sec * 512 + off + n + P - 1) P ltac:(lia)) as Hc'.
  fold c in Hc. pose proof (Z.mod_le sec U Hsec Hpos). split; [lia|]. split.
  { replace (sec - sec mod U) with (sec / U * U) by lia. apply Z.mod_mul. lia. }
  split; [nia|]. split; [nia|]. split; [nia|]. split; [exists (c - sec / U); nia|]. split; [nia|].
  rewrite He in *. assert (c <= e) by (apply Z.lt_succ_r, (Z.mul_lt_mono_pos_r P); lia). nia.
Qed.

(** What a write gives. *)
Definition write_outcome (k : grub_disk) (a : Z) (b : list Z) (s s' : state) (c : write_code) : Prop :=
  if within (disk_end k) (partition k) a (zlen b)
  then let p := place (partition k) a in
       c = write_done (grub_errno s') /\ loop_outcome k p b (native_floor k p) (native_ceil k (p + zlen b)) s s'
  else c = write_refused /\ s' = set_errno ERR_OUT_OF_RANGE s.

Lemma disk_write_spec k sector offset buf s : cache_ok s -> disk_ok k -> hook_ok k -> max_agglomerate k * 64 < 2 ^ 32 -> parts_ok (partition k) ->
  grub_errno s = ERR_NONE -> 0 <= read_recursion_depth s < 15 -> 0 <= sector -> 0 <= offset -> 0 < zlen buf <= write_limit k ->
  sector + offset / 512 < 2 ^ 64 -> offset mod 512 + zlen buf + 511 < 2 ^ 64 ->
  exists c s', grub_disk_write memory k sector offset buf s = Some (c, s') /\ write_outcome k (sector * 512 + offset) buf s s' c.
Proof.
  intros Hs Hk Hh Hagg Hp He Hd Hsec Ho Hz Hs64 Hb. unfold grub_disk_write, write_outcome.
  pose proof (adjust_range_spec k sector offset (zlen buf) Hp Hsec Ho ltac:(lia) Hs64 Hb) as Ha.
  destruct (grub_disk_adjust_range k sector offset (zlen buf)) as [e|[sec off]].
  { destruct Ha as [-> ->]. by eexists _, _. }
  destruct Ha as (-> & Hsec' & Hoff & Hpl & Hend). rewrite Hpl. cbv zeta.
  pose proof (native_bounds k sec off (zlen buf) Hk Hsec' Hoff ltac:(lia) Hend) as Hn. cbv zeta in Hn.
  set (aligned := Z.land sec _) in *. set (ro := u32 _) in *. clearbody aligned ro.
  destruct Hn as (Ha0 & Ham & Hro & Hlo & Epos & [q Hq] & Hhi & Hhi').
  destruct (write_loop_spec k Hk Hh Hagg aligned ro buf (native_ceil k (sec * 512 + off + zlen buf)) s) as (s' & -> & Hout); [|lia|].
  { split; try done; try lia. by exists q. }
  rewrite bind_ret. eexists _, _. split; [done|]. split; [done|]. rewrite <- Hlo. rewrite Epos in Hout. exact Hout.
Qed.

(** ** Sessions *)

(** What callers do: they clear the error before they go on. *)
Inductive disk_op :=
  | op_read (k : grub_disk) (sector offset size : Z)
  | op_write (k : grub_disk) (sector offset : Z) (buf : list Z).

Inductive disk_result := gave_bytes (b : list Z) | gave_error (e : grub_err_t) | gave_code (c : write_code).

Definition run_op (o : disk_op) (s : state (D := D)) : option (disk_result * state (D := D)) :=
  let s := set_errno ERR_NONE s in
  match o with
  | op_read k sector offset size =>
      '(e, b, s) ← grub_disk_read memory k sector offset size s;
      Some (if decide (e = ERR_NONE) then gave_bytes b else gave_error e, s)
  | op_write k sector offset buf =>
      '(c, s) ← grub_disk_write memory k sector offset buf s; Some (gave_code c, s)
  end.

Fixpoint run_ops (l : list disk_op) (s : state (D := D)) : option (list disk_result * state (D := D)) :=
  match l with
  | [] => Some ([], s)
  | o :: l => '(r, s) ← run_op o s; '(rs, s) ← run_ops l s; Some (r :: rs, s)
  end.

(** Disks as arrays of bytes. *)
Definition store : Type := Z -> Z -> Z -> Z.

Definition spec_op (o : disk_op) (st : store) : disk_result * store :=
  match o with
  | op_read k sector offset size =>
      let a := sector * 512 + offset in
      (if within (disk_end k) (partition k) a size then gave_bytes (bytes (st (dev_id k) (id k)) (place (partition k) a) size)
       else gave_error ERR_OUT_OF_RANGE, st)
  | op_write k sector offset buf =>
      let a := sector * 512 + offset in
      if within (disk_end k) (partition k) a (zlen buf)
      then (gave_code (write_done ERR_NONE),
            fun i j => if decide ((i, j) = (dev_id k, id k)) then patch (st i j) (place (partition k) a) buf else st i j)
      else (gave_code write_refused, st)
  end.

Fixpoint spec_ops (l : list disk_op) (st : store) : list disk_result * store :=
  match l with
  | [] => ([], st)
  | o :: l => let '(r, st) := spec_op o st in let '(rs, st) := spec_ops l st in (r :: rs, st)
  end.

(** An open disk that works. *)
Record disk_works (k : grub_disk) : Prop := mk_disk_works {
  dw_ok : disk_ok k;
  dw_parts : parts_ok (partition k);
  dw_works : works k;
  dw_agg : max_agglomerate k * 64 < 2 ^ 32
}.

(** A range that does not wrap around. *)
Definition range_ok (sector offset size : Z) : Prop :=
  0 <= sector /\ 0 <= offset /\ 0 < size /\ sector + offset / 512 < 2 ^ 64 /\ offset mod 512 + size + 511 < 2 ^ 64.

Definition op_ok (o : disk_op) : Prop :=
  match o with
  | op_read k sector offset size => disk_works k /\ range_ok sector offset size
  | op_write k sector offset buf => disk_works k /\ range_ok sector offset (zlen buf) /\ zlen buf <= write_limit k
  end.

(** The medium holds the arrays, and the cache agrees with it. *)
Record holds (st : store) (s : state) : Prop := mk_holds {
  h_ok : cache_ok s;
  h_depth : 0 <= read_recursion_depth s < 15;
  h_bytes : forall i j x, content (medium s) i j x = st i j x
}.

Lemma run_op_spec o st s : holds st s -> op_ok o ->
  exists s', run_op o s = Some (fst (spec_op o st), s') /\ holds (snd (spec_op o st)) s'.
Proof.
  intros [Hs Hd Hb] Ho. pose proof (set_errno_frame s ERR_NONE Hs) as F0. set (s0 := set_errno ERR_NONE s) in *.
  assert (0 <= read_recursion_depth s0 < 15) as Hd0 by done. destruct o as [k sector offset size|k sector offset buf]; cbn [run_op spec_op]; fold s0.
  - destruct Ho as ([Hk Hp Hw Ha] & H1 & H2 & H3 & H4 & H5).
    destruct (disk_read_spec memory k sector offset size s0 (f_ok _ _ F0) Hk Hp H1 H2 H3 H4 H5 Hd0) as (e & b & s' & -> & F & _ & Hr).
    rewrite bind_ret. cbv beta iota. exists s'. cbn [fst snd]. split.
    + destruct (within _ _ _ _); [|by subst e]. destruct Hr as [Hok Hlive].
      assert (e = ERR_NONE) as -> by (apply Hlive; [rewrite <- (set_partition_same k); by apply works_all_well|done]).
      destruct (Hok eq_refl) as [-> _]. cbn. do 3 f_equal. apply bytes_ext. intros x _. apply Hb.
    + destruct F as [C M Dp]. split; [done|by rewrite Dp|]. intros. rewrite M. apply Hb.
  - destruct Ho as ([Hk Hp Hw Ha] & (H1 & H2 & H3 & H4 & H5) & Hl).
    destruct (disk_write_spec k sector offset buf s0 (f_ok _ _ F0) Hk (proj1 (proj2 Hw)) Ha Hp eq_refl Hd0 H1 H2 (conj H3 Hl) H4 H5) as (c & s' & -> & Hout).
    rewrite bind_ret. unfold write_outcome in Hout. exists s'. cbv beta iota zeta in *. destruct (within _ _ _ _); cbn [fst snd].
    + destruct Hout as (-> & Dp & Ho & W & L). rewrite (L Hw). split; [done|]. destruct (W (L Hw)) as [C E B].
      split; [done|by rewrite Dp|]. intros i j x. destruct (decide ((i, j) = (dev_id k, id k))) as [[= -> ->]|Hne].
      * rewrite <- (patch_ext _ _ _ _ _ (Hb _ _ x)). apply B.
      * rewrite (Ho i j x) by (by left). apply Hb.
    + destruct Hout as [-> ->]. split; [done|]. by split; [destruct F0 as [[? ?] _ _]; split|..].
Qed.

(** C2: Any sequence of reads and writes of any disks and partitions behaves as on arrays of bytes,
    one for each disk: every read gives the bytes that the last writes left at the place of its
    range, through a cache that stays coherent; every write puts its bytes there and changes
    nothing else, although native sectors are read, changed and written back as a whole; and ranges
    outside their partitions are refused.  Writes are of at most [max_agglomerate] units, and
    neither memory nor drivers fail. *)
Theorem disk_session_refines_bytes l : forall st s, holds st s -> Forall op_ok l ->
  exists s', run_ops l s = Some (fst (spec_ops l st), s') /\ holds (snd (spec_ops l st)) s'.
Proof.
  induction l as [|o l IH]; intros st s Hh Hl; cbn [run_ops spec_ops]; [by exists s|].
  apply Forall_cons in Hl as [Ho Hl]. destruct (run_op_spec o st s Hh Ho) as (s1 & -> & H1). rewrite bind_ret. cbv beta iota.
  destruct (spec_op o st) as [r st1]. cbn [fst snd] in *. destruct (IH st1 s1 H1 Hl) as (s2 & -> & H2). rewrite bind_ret. cbv beta iota.
  destruct (spec_ops l st1) as [rs st2]. by exists s2.
Qed.
(** A write of whole native sectors that is longer than [max_agglomerate] units (1 MiB unless a
    driver changes it) is cut: the driver is asked once, for the first [max_agglomerate] units; the
    length that is taken off the size is that of all the sectors, so that the loop ends, the rest
    never reaches the medium, and the code that is returned is [GRUB_ERR_NONE]. *)
Theorem long_write_is_cut k sector offset buf s : cache_ok s -> disk_works k -> grub_errno s = ERR_NONE ->
  range_ok sector offset (zlen buf) -> within (disk_end k) (partition k) (sector * 512 + offset) (zlen buf) = true ->
  let p := place (partition k) (sector * 512 + offset) in
  p mod 2 ^ log_sector_size k = 0 -> zlen buf mod 2 ^ log_sector_size k = 0 -> write_limit k < zlen buf ->
  exists s', grub_disk_write memory k sector offset buf s = Some (write_done ERR_NONE, s') /\
    forall x, disk_bytes s' k x = patch (disk_bytes s k) p (take (Z.to_nat (write_limit k)) buf) x.
Proof.
  intros Hs [Hk Hp Hw Hagg] He (Hsec & Ho & Hz & Hs64 & Hb) Hin p Hpm Hzm Hlong. unfold grub_disk_write.
  pose proof (adjust_range_spec k sector offset (zlen buf) Hp Hsec Ho Hz Hs64 Hb) as Ha.
  destruct (grub_disk_adjust_range k sector offset (zlen buf)) as [e|[sec off]]; [destruct Ha; congruence|].
  destruct Ha as (_ & Hsec' & Hoff & Hpl & Hend). fold p in Hpl. cbv zeta.
  pose proof (native_bounds k sec off (zlen buf) Hk Hsec' Hoff Hz Hend) as Hn. cbv zeta in Hn.
  set (aligned := Z.land sec _) in *. set (ro := u32 _) in *. clearbody aligned ro.
  destruct Hn as (Ha0 & Ham & Hro & Hlo & Epos & _). pose proof (log_pow_bound k Hk) as Hpow. rewrite Hpl in Hpm.
  assert (ro = 0) as ->.
  { unfold native_floor in Hlo. pose proof (Z.div_mod (sec * 512 + off) (2 ^ log_sector_size k) ltac:(lia)). lia. }
  assert (2 ^ log_sector_size k <= zlen buf) as Hge.
  { apply Z.mod_divide in Hzm as [q Hq]; [|lia]. rewrite Hq. apply (multiple_above _ _ (zlen buf)); lia. }
  rewrite write_loop_turn by lia. rewrite (proj2 (Z.ltb_ge _ _) Hge). cbn [Z.eqb negb orb].
  destruct (write_whole_spec k aligned buf s Hs Hk Hagg He Ha0 Ham ltac:(lia) Hge) as (r & s1 & -> & Hr & Hout). rewrite bind_ret. cbv beta iota.
  cbv zeta in Hr, Hout. pose proof (Z.div_mod (zlen buf) (2 ^ log_sector_size k) ltac:(lia)) as Hdm.
  replace (zlen buf / 2 ^ log_sector_size k * 2 ^ log_sector_size k) with (zlen buf) in Hr, Hout by lia. rewrite Z.min_r in Hr, Hout by lia.
  destruct Hout as (_ & _ & W & L). specialize (L Hw). destruct r as [[sec' len]|]; [|done]. destruct W as [C E B].
  destruct (Hr sec' len eq_refl) as [_ ->]. rewrite drop_ge by (unfold zlen; lia).
  change (write_loop memory 2 k sec' 0 [] s1) with (Some s1). rewrite bind_ret, E. exists s1. split; [done|].
  intros x. rewrite B. by replace (aligned * 512) with p by lia.
Qed.
End Writes.

Lemma ram_works l n agg parts : 9 <= l <= 15 -> 1 <= agg -> agg * 64 < 2 ^ 32 -> 0 <= n -> parts_ok parts ->
  disk_works (D := ram) plenty (small_disk l n agg parts).
Proof.
  intros Hl Ha Ha' Hn Hp. split; [by apply small_disk_ok|done| |done]. split; [done|]. split; [done|].
  intros d p sector m Hs Hm Ht. cbn in *. rewrite (proj2 (Z.ltb_ge sector 0) Hs), (proj2 (Z.ltb_ge n (sector + m)) Ht). cbn [orb]. split; [by eexists|done].
Qed.

Definition demo_ops : list disk_op :=
  [op_write (small_disk 11 4096 32 one_part) 1 100 [1; 2; 3]; op_read (small_disk 11 4096 32 one_part) 1 99 5;
   op_read (small_disk 11 4096 32 one_part) 99 0 513].

Lemma disk_session_refines_bytes_witness :
  (exists s', run_ops plenty demo_ops (fresh ramp) = Some (fst (spec_ops demo_ops ramp), s')) /\
  fst (spec_ops demo_ops ramp) = [gave_code (write_done ERR_NONE); gave_bytes [149; 1; 2; 3; 153]; gave_error ERR_OUT_OF_RANGE].
Proof.
  split; [|vm_compute; reflexivity].
  destruct (disk_session_refines_bytes plenty demo_ops ramp (fresh ramp)) as (s' & E & _).
  - split; [apply fresh_ok|cbn; lia|done].
  - assert (disk_works (D := ram) plenty (small_disk 11 4096 32 one_part)) as Hw by (apply ram_works; [lia|lia|lia|lia|apply one_part_ok]).
    repeat first [apply Forall_nil_2 | apply Forall_cons_2; [split; [exact Hw|vm_compute; intuition congruence]|]].
  - by exists s'.
Defined.



Lemma long_write_is_cut_witness : exists s',
  grub_disk_write plenty (small_disk 9 4096 1 []) 8 0 (replicate (Pos.to_nat 65536) 9) (fresh ramp) = Some (write_done ERR_NONE, s') /\
  forall x, disk_bytes s' (small_disk 9 4096 1 []) x =
    patch (disk_bytes (fresh ramp) (small_disk 9 4096 1 [])) (place [] (8 * 512 + 0))
      (take (Z.to_nat (write_limit (small_disk 9 4096 1 []))) (replicate (Pos.to_nat 65536) 9)) x.
Proof.
  apply (long_write_is_cut plenty (small_disk 9 4096 1 []) 8 0 (replicate (Pos.to_nat 65536) 9) (fresh ramp)).
  - apply fresh_ok.
  - apply ram_works; [lia|lia|lia|lia|constructor].
  - reflexivity.
  - unfold range_ok. rewrite zlen_replicate. repeat split; vm_compute; congruence.
  - rewrite zlen_replicate. vm_compute. reflexivity.
  - reflexivity.
  - rewrite zlen_replicate. vm_compute. reflexivity.
  - rewrite zlen_replicate. vm_compute. reflexivity.
Defined.

End GrubDiskWrite.
