(* ===== verification/GrubPartition.v ===== *)
(** Partitions of GRUB (src/grub/grub-core/kern/partition.c, include/grub/partition.h): the walk
    over nested partitions, names, and finding a partition by its name; and the tables of the PC
    (partmap/msdos.c, include/grub/msdos_partition.h) with their detection of loops.

    A partition map is a name and a function that calls a hook for every partition; hooks return
    whether to stop, and may change the state and the partition that the open disk stands for,
    which is passed along.  Partition maps are told apart by their names. *)

From S2P Require Import Prelude GrubStr GrubNum GrubDisk.

Module GrubPartition.
Import GrubStr GrubNum GrubDisk.

Definition MAX_RECURSION_DEPTH : Z := 32.
Definition GRUB_INT_MAX : Z := 2147483647.
Definition sizeof_partition : Z := 64.

Section Partition.
Context {D : Type} `{Devices D} {A : Type}.
Variable memory : nat -> Z -> bool * bool.

(** The disks, the depth of nested walks, the contexts of the two callers, and what hooks keep. *)
Record world := mk_world {
  disks : state (D := D);
  recursion_depth : Z;
  ret : bool;
  found : option grub_partition;
  user : A
}.

Definition set_disks (s : state) (w : world) : world := mk_world s (recursion_depth w) (ret w) (found w) (user w).
Definition set_recursion (n : Z) (w : world) : world := mk_world (disks w) n (ret w) (found w) (user w).
Definition set_ret (b : bool) (w : world) : world := mk_world (disks w) (recursion_depth w) b (found w) (user w).
Definition set_found (p : option grub_partition) (w : world) : world := mk_world (disks w) (recursion_depth w) (ret w) p (user w).
Definition raise_error (e : grub_err_t) (w : world) : world := set_disks (set_errno e (disks w)) w.

Definition iterate_hook : Type := grub_disk -> grub_partition -> world -> option (bool * grub_disk * world).

Record grub_partition_map := mk_map {
  map_name : list Z;
  iterate : grub_disk -> iterate_hook -> world -> option (grub_err_t * grub_disk * world)
}.

(** ** Names *)

Definition number_buf : Z := 27.

Fixpoint name_needlen (parts : list grub_partition) : Z :=
  match parts with
  | [] => 0
  | p :: parts => u64 (grub_strlen (partmap p) + 1 + 27 + name_needlen parts)
  end.

(** From the end of the buffer; [room] is what is left before it, [None] a store in front of it. *)
Fixpoint name_loop (parts : list grub_partition) (room : Z) (text : list Z) : option (list Z) :=
  match parts with
  | [] => Some text
  | p :: parts =>
      buf ← grub_lltoa 100 (u64 (s32 (number p + 1)));
      let buf := take (Z.to_nat (number_buf - 1)) buf in
      let piece := 44 :: partmap p ++ buf in
      if room <? zlen piece then None else name_loop parts (room - zlen piece) (piece ++ text)
  end.

(** The name; [NULL] if there is no memory. *)
Definition grub_partition_get_name (parts : list grub_partition) (s : state (D := D)) : option (option (list Z) * state (D := D)) :=
  match parts with
  | [] => let '(ok, s) := malloc memory 1 s in Some (if ok then Some [] else None, s)
  | _ =>
      let needlen := name_needlen parts in
      let '(ok, s) := malloc memory (u64 (needlen + 1)) s in
      if negb ok then Some (None, s) else
      text ← name_loop parts needlen [];
      Some (Some (drop 1 text), s)
  end.

(** ** The walk over all partitions *)

(** Whether the partition ends within the one that the disk stands for. *)
Definition contained (k : grub_disk) (part : grub_partition) : bool :=
  match partition k with
  | [] => true
  | parent :: _ => negb (len parent <? u64 (start part + len part))
  end.

(** For its message, a partition that is not contained has the name of the outer one built, which
    takes memory. *)
Definition grub_partition_check_containment (k : grub_disk) (part : grub_partition) (w : world) : option (bool * world) :=
  if contained k part then Some (true, w)
  else '(_, s) ← grub_partition_get_name (partition k) (disks w); Some (false, set_disks s w).

Definition probe_iter (partnum : Z) : iterate_hook := fun k part w =>
  if negb (partnum =? number part) then Some (false, k, w) else
  '(ok, w) ← grub_partition_check_containment k part w;
  if negb ok then Some (false, k, w) else
  let '(ok, s) := malloc memory sizeof_partition (disks w) in
  let w := set_disks s w in
  Some (true, k, if ok then set_found (Some part) w else w).

(** The partition that a map knows by a number, if no error is set. *)
Definition grub_partition_map_probe (partmap : grub_partition_map) (k : grub_disk) (partnum : Z) (w : world)
  : option (option grub_partition * grub_disk * world) :=
  '(_, k, w) ← iterate partmap k (probe_iter partnum) (set_found None w);
  Some (if decide (grub_errno (disks w) = ERR_NONE) then found w else None, k, w).

(** The maps in order until one stops. *)
Fixpoint try_maps (maps : list grub_partition_map) (partname : list Z) (part tail : list grub_partition) (k : grub_disk) (num : Z)
  (w : world) : option (option grub_partition * grub_disk * world) :=
  match maps with
  | [] => Some (None, k, w)
  | partmap :: maps =>
      if negb (zlen partname =? 0) &&
         (negb (grub_strncmp (map_name partmap) partname (length partname) =? 0) || negb (at0 (drop (length partname) (map_name partmap)) =? 0))
      then try_maps maps partname part tail k num w else
      '(curpart, k, w) ← grub_partition_map_probe partmap (set_partition part k) num w;
      let k := set_partition tail k in
      match curpart with
      | Some p => Some (Some p, k, w)
      | None =>
          if decide (grub_errno (disks w) = ERR_BAD_PART_TABLE)
          then try_maps maps partname part tail k num (raise_error ERR_NONE w)
          else Some (None, k, w)
      end
  end.

(** The letters at the start, and the rest. *)
Fixpoint letters (s : list Z) : list Z * list Z :=
  match s with
  | c :: s' => if grub_isalpha c then let '(l, r) := letters s' in (c :: l, r) else ([], s)
  | [] => ([], [])
  end.

(** The partition that a name means, with those around it; none is [NULL]. *)
Fixpoint probe_loop (fuel : nat) (maps : list grub_partition_map) (part tail : list grub_partition) (ptr : list Z) (k : grub_disk) (w : world)
  : option (list grub_partition * grub_disk * world) :=
  match ptr with
  | [] => Some (part, k, w)
  | _ =>
    match fuel with
    | O => None
    | S fuel =>
      let '(partname, ptr) := letters ptr in
      num ← grub_strtoul ptr 0;
      let w := match errno num with ERR_NONE => w | e => raise_error e w end in
      let ptr := endp num in
      if (value num =? 0) || (GRUB_INT_MAX <? value num) then Some ([], k, raise_error ERR_BAD_NUMBER w) else
      '(curpart, k, w) ← try_maps maps partname part tail k (value num - 1) w;
      match curpart with
      | None => Some ([], k, w)
      | Some p =>
          match ptr with
          | 44 :: ptr => probe_loop fuel maps (p :: part) tail ptr k w
          | _ => Some (p :: part, k, w)
          end
      end
    end
  end.

Definition grub_partition_probe (maps : list grub_partition_map) (k : grub_disk) (str : list Z) (w : world)
  : option (list grub_partition * grub_disk * world) :=
  probe_loop (S (length str)) maps (partition k) (partition k) str k w.

(** All the maps on a partition, until the walk is stopped. *)
Fixpoint nested_maps (step : iterate_hook) (maps : list grub_partition_map) (k : grub_disk) (w : world) : option (grub_disk * world) :=
  match maps with
  | [] => Some (k, w)
  | partmap :: maps =>
      let w := set_recursion (u32 (recursion_depth w + 1)) w in
      '(err, k, w) ← (if recursion_depth w <=? MAX_RECURSION_DEPTH then iterate partmap k step w
                      else Some (ERR_RECURSION_DEPTH, k, raise_error ERR_RECURSION_DEPTH w));
      let w := set_recursion (u32 (recursion_depth w - 1)) w in
      let w := if decide (err = ERR_NONE) then w else raise_error ERR_NONE w in
      if ret w then Some (k, w) else nested_maps step maps k w
  end.

(** The hook of the walk; it calls itself at most [MAX_RECURSION_DEPTH] levels deep. *)
Fixpoint part_iterate (fuel : nat) (maps : list grub_partition_map) (hook : iterate_hook) (k : grub_disk) (part : grub_partition) (w : world)
  : option (bool * grub_disk * world) :=
  '(ok, w) ← grub_partition_check_containment k part w;
  if negb ok then Some (false, k, w) else
  let parent := partition k in
  '(stop, k, w) ← hook (set_partition [] k) part w;
  if (stop : bool) then Some (true, k, set_ret true w) else
  '(k, w) ← (if negb (start part =? 0) then
               nested_maps (match fuel with
                            | O => fun _ _ _ => None
                            | S fuel => part_iterate fuel maps hook
                            end) maps (set_partition (part :: parent) k) w
             else Some (k, w));
  Some (ret w, set_partition parent k, w).

Fixpoint iterate_maps (step : iterate_hook) (maps : list grub_partition_map) (k : grub_disk) (w : world) : option (bool * grub_disk * world) :=
  match maps with
  | [] => Some (ret w, k, w)
  | partmap :: maps =>
      '(err, k, w) ← iterate partmap k step w;
      let w := if decide (err = ERR_NONE) then w else raise_error ERR_NONE w in
      if ret w then Some (ret w, k, w) else iterate_maps step maps k w
  end.

Definition grub_partition_iterate (maps : list grub_partition_map) (hook : iterate_hook) (k : grub_disk) (w : world)
  : option (bool * grub_disk * world) :=
  iterate_maps (part_iterate (Z.to_nat MAX_RECURSION_DEPTH) maps hook) maps k (set_ret false w).

(** The first sector of a partition on its disk. *)
Fixpoint grub_partition_get_start (parts : list grub_partition) : Z :=
  match parts with
  | [] => 0
  | p :: parts => u64 (start p + grub_partition_get_start parts)
  end.

Definition grub_partition_get_len (p : grub_partition) : Z := len p.
End Partition.

(** * What a partition map promises *)

Section Laws.
Context {D : Type} `{DevicesOk D} {A : Type}.
Variable memory : nat -> Z -> bool * bool.
Abbreviation world := (world (D := D) (A := A)).
Abbreviation iterate_hook := (iterate_hook (D := D) (A := A)).

(** The world as a walk expects it. *)
Record good (w : world) : Prop := mk_good {
  g_ok : cache_ok (disks w);
  g_depth : 0 <= read_recursion_depth (disks w) < 15
}.

Lemma good_frame w w' : good w -> frame (disks w) (disks w') -> good w'.
Proof. intros [? ?] [? ? E]. split; [done|by rewrite E]. Qed.

(** A world in which nothing fails on a disk. *)
Record calm (k : grub_disk) (w : world) : Prop := mk_calm {
  cm_good : good w;
  cm_well : all_well memory k (disks w);
  cm_errno : grub_errno (disks w) = ERR_NONE
}.

Lemma calm_frame k w s : calm k w -> frame (disks w) s -> grub_errno s = ERR_NONE -> calm k (set_disks s w).
Proof. intros [Hg Hw _] F E. split; [by eapply good_frame|by eapply all_well_frame|done]. Qed.

(** A hook that is called for the partitions [ps] in order: [I n] holds when [n] of them have been
    reported, [J] when the hook has stopped the walk. *)
Record visiting (k : grub_disk) (hook : iterate_hook) (ps : list grub_partition) (I : nat -> world -> Prop) (J : grub_disk -> world -> Prop) : Prop := mk_visiting {
  v_calm : forall n w, I n w -> calm k w;
  v_medium : forall n n' w w', I n w -> I n' w' -> medium (disks w) = medium (disks w');
  v_frame : forall n w s, I n w -> frame (disks w) s -> grub_errno s = ERR_NONE -> I n (set_disks s w);
  v_hook : forall n p w, ps !! n = Some p -> I n w -> exists stop k' w', hook k p w = Some (stop, k', w') /\
    if (stop : bool) then J k' w' else k' = k /\ I (S n) w'
}.

(** A map lists the partitions of some disks, and rejects others as not its own. *)
Class MapOk (m : grub_partition_map (D := D) (A := A)) := {
  lists : D -> grub_disk -> list grub_partition -> Prop;
  rejects : D -> grub_disk -> Prop;
  lists_law k hook ps I J w : lists (medium (disks w)) k ps -> visiting k hook ps I J -> I 0%nat w ->
    exists e k' w', iterate m k hook w = Some (e, k', w') /\ ((k' = k /\ e = ERR_NONE /\ I (length ps) w') \/ J k' w');
  rejects_law k hook w : rejects (medium (disks w)) k -> calm k w ->
    exists s, iterate m k hook w = Some (ERR_BAD_PART_TABLE, k, set_disks s w) /\ frame (disks w) s /\ grub_errno s = ERR_BAD_PART_TABLE
}.
End Laws.

End GrubPartition.
