(* ===== verification/GrubMsdos.v ===== *)
(** Partition tables of the PC (src/grub/grub-core/partmap/msdos.c, include/grub/msdos_partition.h):
    the walk over the master boot record and the chain of extended partitions, read through the
    disk layer, with its detection of loops. *)

From S2P Require Import Prelude GrubStr GrubDisk GrubPartition.

Module GrubMsdos.
Import GrubStr GrubDisk GrubPartition.

Definition GRUB_PC_PARTITION_SIGNATURE : Z := 0xaa55.
Definition GRUB_PC_PARTITION_TYPE_NONE : Z := 0.
Definition GRUB_PC_PARTITION_TYPE_EXTENDED : Z := 5.
Definition GRUB_PC_PARTITION_TYPE_WIN95_EXTENDED : Z := 0xf.
Definition GRUB_PC_PARTITION_TYPE_LINUX_MINIX : Z := 0x81.
Definition GRUB_PC_PARTITION_TYPE_LINUX_EXTENDED : Z := 0x85.
Definition GRUB_PC_PARTITION_TYPE_GPT_DISK : Z := 0xee.

(** The fields of an entry that are used. *)
Record msdos_entry := mk_entry { e_flag : Z; e_type : Z; e_start : Z; e_length : Z }.

Record msdos_mbr := mk_mbr { entries : list msdos_entry; signature : Z }.

(** Little-endian fields of a sector. *)
Definition byte_at (b : list Z) (i : nat) : Z := default 0 (b !! i).
Definition le16_at (b : list Z) (i : nat) : Z := byte_at b i + 256 * byte_at b (i + 1).
Definition le32_at (b : list Z) (i : nat) : Z := le16_at b i + 65536 * le16_at b (i + 2).

Definition entry_at (b : list Z) (i : nat) : msdos_entry :=
  mk_entry (byte_at b i) (byte_at b (i + 4)) (le32_at b (i + 8)) (le32_at b (i + 12)).

(** The sector as a table; [None] if it was not stored. *)
Definition sizeof_mbr : Z := 512.
Definition mbr_of (b : list Z) : option msdos_mbr :=
  if zlen b =? sizeof_mbr then Some (mk_mbr [entry_at b 446; entry_at b 462; entry_at b 478; entry_at b 494] (le16_at b 510)) else None.

Definition grub_msdos_partition_is_empty (type : Z) : bool := type =? GRUB_PC_PARTITION_TYPE_NONE.
Definition grub_msdos_partition_is_extended (type : Z) : bool :=
  (type =? GRUB_PC_PARTITION_TYPE_EXTENDED) || (type =? GRUB_PC_PARTITION_TYPE_WIN95_EXTENDED) || (type =? GRUB_PC_PARTITION_TYPE_LINUX_EXTENDED).

Definition msdos_name : list Z := [109; 115; 100; 111; 115].

(** Where the walk is. *)
Record walk := mk_walk {
  p_offset : Z;
  ext_offset : Z;
  p_number : Z;
  labeln : Z;
  lastaddr : Z
}.

Definition first_walk : walk := mk_walk 0 0 (-1) 0 1.

Section Msdos.
Context {D : Type} `{Devices D} {A : Type}.
Variable memory : nat -> Z -> bool * bool.

Abbreviation world := (world (D := D) (A := A)).
Abbreviation iterate_hook := (iterate_hook (D := D) (A := A)).

Definition entry_partition (k : grub_disk) (delta offset num : Z) (i : Z) (e : msdos_entry) : grub_partition :=
  mk_partition num
    (u64 (offset + Z.shiftl (e_start e) (log_sector_size k - GRUB_DISK_SECTOR_BITS) - delta))
    (u64 (Z.shiftl (e_length e) (log_sector_size k - GRUB_DISK_SECTOR_BITS)))
    offset i msdos_name (e_type e).

(** The entries of a table from index [i] on; whether the hook stopped the walk, and the number. *)
Fixpoint report (hook : iterate_hook) (delta offset : Z) (i : Z) (es : list msdos_entry) (num : Z) (k : grub_disk) (w : world)
  : option (bool * Z * grub_disk * world) :=
  match es with
  | [] => Some (false, num, k, w)
  | e :: es =>
      if negb (grub_msdos_partition_is_empty (e_type e)) && negb (grub_msdos_partition_is_extended (e_type e)) then
        let num := s32 (num + 1) in
        '(stop, k, w) ← hook k (entry_partition k delta offset num i e) w;
        if (stop : bool) then Some (true, num, k, w) else report hook delta offset (i + 1) es num k w
      else report hook delta offset (i + 1) es (if num <? 3 then num + 1 else num) k w
  end.

(** The first extended partition. *)
Fixpoint find_extended (es : list msdos_entry) : option msdos_entry :=
  match es with
  | [] => None
  | e :: es => if grub_msdos_partition_is_extended (e_type e) then Some e else find_extended es
  end.

Definition bad_table (k : grub_disk) (w : world) : option (grub_err_t * grub_disk * world) :=
  Some (ERR_BAD_PART_TABLE, k, raise_error ERR_BAD_PART_TABLE w).

Fixpoint walk_tables (fuel : nat) (hook : iterate_hook) (delta : Z) (v : walk) (k : grub_disk) (w : world)
  : option (grub_err_t * grub_disk * world) :=
  match fuel with
  | O => None
  | S fuel =>
      '(err, b, s) ← grub_disk_read memory k (p_offset v) 0 sizeof_mbr (disks w);
      let w := set_disks s w in
      if negb (bool_decide (err = ERR_NONE)) then Some (grub_errno (disks w), k, w) else
      mbr ← mbr_of b;
      if (p_offset v =? 0) && existsb (fun e => e_type e =? GRUB_PC_PARTITION_TYPE_GPT_DISK) (entries mbr) then bad_table k w else
      if negb (labeln v =? 0) && (lastaddr v =? p_offset v) then bad_table k w else
      let n := s32 (labeln v + 1) in
      let last := if Z.land n (n - 1) =? 0 then p_offset v else lastaddr v in
      if negb (signature mbr =? GRUB_PC_PARTITION_SIGNATURE) then bad_table k w else
      if existsb (fun e => negb (Z.land (e_flag e) 0x7f =? 0)) (entries mbr) then bad_table k w else
      '(stop, num, k, w) ← report hook delta (p_offset v) 0 (entries mbr) (p_number v) k w;
      if (stop : bool) then Some (grub_errno (disks w), k, w) else
      match find_extended (entries mbr) with
      | None => Some (grub_errno (disks w), k, w)
      | Some e =>
          let offset := u64 (ext_offset v + Z.shiftl (e_start e) (log_sector_size k - GRUB_DISK_SECTOR_BITS)) in
          walk_tables fuel hook delta (mk_walk offset (if ext_offset v =? 0 then offset else ext_offset v) num n last) k w
      end
  end.

(** The tables that the walk may read, at most. *)
Definition table_fuel (k : grub_disk) : nat := S (Z.to_nat (3 * Z.max 1 (disk_end k))).

Definition grub_partition_msdos_iterate (k : grub_disk) (hook : iterate_hook) (w : world) : option (grub_err_t * grub_disk * world) :=
  match partition k with
  | p :: _ =>
      if decide (partmap p = msdos_name) then
        if msdostype p =? GRUB_PC_PARTITION_TYPE_LINUX_MINIX then walk_tables (table_fuel k) hook (start p) first_walk k w
        else bad_table k w
      else walk_tables (table_fuel k) hook 0 first_walk k w
  | [] => walk_tables (table_fuel k) hook 0 first_walk k w
  end.
End Msdos.

(** * The detection of loops *)

(** The place of the last power of two. *)
Definition saved (n : nat) : nat := (2 ^ Nat.log2 n - 1)%nat.

Lemma saved_step n : (0 < n)%nat -> saved (S n) = if Z.land (Z.of_nat (S n)) (Z.of_nat n) =? 0 then n else saved n.
Proof.
  intros Hn. unfold saved. pose proof (Nat.log2_spec n Hn) as [Hlo Hhi]. set (k := Nat.log2 n) in *. rewrite Nat.pow_succ_r' in Hhi.
  destruct (decide (S n = 2 * 2 ^ k)%nat) as [E|E].
  - assert (Z.land (Z.of_nat (S n)) (Z.of_nat n) = 0) as ->.
    { replace (Z.of_nat n) with (Z.ones (Z.of_nat (S k))).
      - rewrite Z.land_ones by lia. rewrite E. replace (2 * 2 ^ k)%nat with (2 ^ S k)%nat by (cbn; lia). rewrite Nat2Z.inj_pow.
        apply Z.mod_same, Z.pow_nonzero; lia.
      - rewrite Z.ones_equiv. change 2 with (Z.of_nat 2) at 1. rewrite <- Nat2Z.inj_pow, Nat.pow_succ_r'. lia. }
    cbn [Z.eqb]. rewrite (Nat.log2_unique (S n) (S k)) by (rewrite ?Nat.pow_succ_r'; lia). rewrite Nat.pow_succ_r'. lia.
  - rewrite (Nat.log2_unique (S n) k) by (rewrite ?Nat.pow_succ_r'; lia). destruct (Z.eqb_spec (Z.land (Z.of_nat (S n)) (Z.of_nat n)) 0) as [E0|]; [|done].
    exfalso. assert (Z.testbit (Z.land (Z.of_nat (S n)) (Z.of_nat n)) (Z.of_nat k) = true) as Hb; [|by rewrite E0, Z.bits_0 in Hb].
    assert (forall m : nat, (2 ^ k <= m < 2 * 2 ^ k)%nat -> Z.testbit (Z.of_nat m) (Z.of_nat k) = true) as Hbit.
    { intros m Hm. rewrite Z.testbit_true by lia. change 2 with (Z.of_nat 2). rewrite <- Nat2Z.inj_pow.
      rewrite <- (Z.div_unique_pos (Z.of_nat m) (Z.of_nat (2 ^ k)) 1 (Z.of_nat m - Z.of_nat (2 ^ k))) by lia. done. }
    rewrite Z.land_spec, !Hbit by lia. done.
Qed.

(** A sequence that goes on by a function within [N] numbers is caught within three walks. *)
Section Brent.
Context (N : nat) (T : list Z) (f : Z -> Z) (hist : list Z).
Hypothesis (Hpos : (0 < N)%nat) (Hsize : (length T <= N)%nat) (Hrange : Forall (fun x => x ∈ T) hist).
Hypothesis Hnext : forall j x y, (1 <= j)%nat -> hist !! j = Some x -> hist !! S j = Some y -> y = f x.
Hypothesis Hfree : forall m x, (1 <= m)%nat -> hist !! m = Some x -> hist !! saved m <> Some x.

Lemma repeats i lambda x : (1 <= i)%nat -> hist !! i = Some x -> hist !! (i + lambda)%nat = Some x ->
  forall t, (i + t + lambda < length hist)%nat -> hist !! (i + t + lambda)%nat = hist !! (i + t)%nat.
Proof.
  intros Hi Hx Hy. induction t as [|t IH]; intros Ht; [by rewrite Nat.add_0_r, Hx, Hy|].
  specialize (IH ltac:(lia)). replace (i + S t + lambda)%nat with (S (i + t + lambda)) in * by lia. replace (i + S t)%nat with (S (i + t)) by lia.
  destruct (lookup_lt_is_Some_2 hist (S (i + t + lambda)) ltac:(lia)) as [y1 H1].
  destruct (lookup_lt_is_Some_2 hist (S (i + t)) ltac:(lia)) as [y2 H2].
  destruct (lookup_lt_is_Some_2 hist (i + t)%nat ltac:(lia)) as [z Hz]. rewrite Hz in IH.
  assert (1 <= i + t)%nat as Hit by lia. rewrite H1, H2, (Hnext (i + t + lambda) z y1 ltac:(lia) IH H1), (Hnext (i + t) z y2 Hit Hz H2). done.
Qed.

Lemma no_repeat i lambda x : (1 <= i <= N)%nat -> (1 <= lambda <= N)%nat -> (3 * N < length hist)%nat ->
  hist !! i = Some x -> hist !! (i + lambda)%nat = Some x -> False.
Proof.
  intros Hi Hl Hlen Hx Hy. pose proof (Nat.log2_spec N Hpos) as [Hlo Hhi]. rewrite Nat.pow_succ_r' in Hhi. set (k := S (Nat.log2 N)).
  assert (N < 2 ^ k /\ 2 ^ k <= 2 * N)%nat as [Hk1 Hk2] by (unfold k; rewrite Nat.pow_succ_r'; lia).
  set (m := (2 ^ k - 1)%nat). assert (saved (m + lambda) = m) as Es.
  { unfold saved. rewrite (Nat.log2_unique (m + lambda) k); [done|lia|]. rewrite Nat.pow_succ_r'. lia. }
  destruct (lookup_lt_is_Some_2 hist (m + lambda)%nat ltac:(lia)) as [z Hz].
  apply (Hfree (m + lambda)%nat z ltac:(lia) Hz). rewrite Es, <- Hz.
  replace m with (i + (m - i))%nat by lia. symmetry. apply (repeats i lambda x); [lia|done|done|lia].
Qed.

Lemma three_walks : (length hist <= 3 * N)%nat.
Proof.
  destruct (Nat.le_gt_cases (length hist) (3 * N)) as [|Hlen]; [done|]. exfalso.
  set (l := take (S N) (drop 1 hist)). assert (length l = S N) as Hl by (unfold l; rewrite length_take, length_drop; lia).
  assert (forall i, (i < S N)%nat -> l !! i = hist !! S i) as Hli by (intros i Hi; unfold l; by rewrite lookup_take_lt, lookup_drop by lia).
  assert (NoDup l) as Hnd.
  { apply NoDup_alt. intros i j x Hi Hj. pose proof (lookup_lt_Some _ _ _ Hi). pose proof (lookup_lt_Some _ _ _ Hj). rewrite Hl in *.
    rewrite Hli in Hi, Hj by lia. destruct (Nat.lt_trichotomy i j) as [Hlt|[->|Hlt]]; [exfalso|done|exfalso].
    - apply (no_repeat (S i) (j - i) x); [lia|lia|lia|done|]. by replace (S i + (j - i))%nat with (S j) by lia.
    - apply (no_repeat (S j) (i - j) x); [lia|lia|lia|done|]. by replace (S j + (i - j))%nat with (S i) by lia. }
  assert (length l <= length T)%nat as Hc; [|lia].
  apply submseteq_length, NoDup_submseteq; [done|]. intros x Hx. apply list_elem_of_lookup in Hx as [i Hi].
  pose proof (lookup_lt_Some _ _ _ Hi). rewrite Hli in Hi by lia. exact (Forall_lookup_1 _ _ _ _ Hrange Hi).
Qed.
End Brent.

(** * The walk ends *)

Section Walk.
Context {D : Type} `{DevicesOk D} {A : Type}.
Variable memory : nat -> Z -> bool * bool.

Abbreviation world := (world (D := D) (A := A)).

(** The table of a sector. *)
Definition table_of (s : state (D := D)) (k : grub_disk) (x : Z) : option msdos_mbr :=
  mbr_of (bytes (disk_bytes s k) (place (partition k) (x * 512)) 512).

(** Where the table of [x] sends the walk. *)
Definition next_table (s : state (D := D)) (k : grub_disk) (ext x : Z) : Z :=
  match table_of s k x with
  | Some mbr => match find_extended (entries mbr) with
                | Some e => u64 (ext + Z.shiftl (e_start e) (log_sector_size k - GRUB_DISK_SECTOR_BITS))
                | None => 0
                end
  | None => 0
  end.

(** The tables that were seen. *)
Record trail (s : state (D := D)) (k : grub_disk) (N : nat) (hist : list Z) (v : walk) : Prop := mk_trail {
  t_len : labeln v = Z.of_nat (length hist);
  t_range : Forall (fun x => 0 <= x < Z.of_nat N) hist;
  t_next : forall j x y, (1 <= j)%nat -> hist !! j = Some x -> hist !! S j = Some y -> y = next_table s k (ext_offset v) x;
  t_cur : (2 <= length hist)%nat -> forall x, last hist = Some x -> p_offset v = next_table s k (ext_offset v) x;
  t_free : forall m x, (1 <= m)%nat -> hist !! m = Some x -> hist !! saved m <> Some x;
  t_last : (1 <= length hist)%nat -> hist !! saved (length hist) = Some (lastaddr v);
  t_ext : match hist with
          | [] => p_offset v = 0 /\ ext_offset v = 0
          | [x] => x = 0 /\ ext_offset v = p_offset v
          | _ => ext_offset v <> 0
          end;
  t_pos : 0 <= p_offset v < 2 ^ 64
}.

Lemma first_trail s k N : trail s k N [] first_walk.
Proof. split; try done; cbn; try lia. Qed.

Lemma trail_bound s k N hist v : trail s k N hist v -> (0 < N)%nat -> (length hist <= 3 * N)%nat.
Proof.
  intros [] HN. eapply (three_walks N (seqZ 0 (Z.of_nat N))); try done; [rewrite length_seqZ; lia|].
  eapply Forall_impl; [exact t_range0|]. intros x Hx. apply elem_of_seqZ. cbv beta in Hx. lia.
Qed.

(** The same bound by the number of sectors that the tables are among. *)
Lemma trail_among s k N hist v T : trail s k N hist v -> Forall (fun x => x ∈ T) hist -> (length hist <= 3 * Nat.max 1 (length T))%nat.
Proof. intros [] HT. eapply (three_walks (Nat.max 1 (length T)) T); try done; lia. Qed.

(** The sectors of the disk that end with the signature of a table. *)
Definition signed_table (s : state (D := D)) (k : grub_disk) (x : Z) : bool :=
  match table_of s k x with Some m => signature m =? GRUB_PC_PARTITION_SIGNATURE | None => false end.

Definition signed_tables (s : state (D := D)) (k : grub_disk) : list Z :=
  filter (fun x => signed_table s k x = true) (seqZ 0 (disk_end k)).

Lemma elem_of_signed_tables s k x : x ∈ signed_tables s k <-> 0 <= x < disk_end k /\ signed_table s k x = true.
Proof. unfold signed_tables. rewrite list_elem_of_filter, elem_of_seqZ. rewrite Z.add_0_l. tauto. Qed.

Lemma length_signed_tables s k : (length (signed_tables s k) <= Z.to_nat (disk_end k))%nat.
Proof. unfold signed_tables. etrans; [apply length_filter|]. by rewrite length_seqZ. Qed.

Lemma signed_table_frame s s' k x : frame s s' -> signed_table s' k x = signed_table s k x.
Proof. intros F. unfold signed_table, table_of. by rewrite (disk_bytes_frame k _ _ F). Qed.

Lemma saved_lt n : (1 <= n)%nat -> (saved n < n)%nat.
Proof. intros Hn. unfold saved. pose proof (Nat.log2_spec n ltac:(lia)). lia. Qed.

(** The walk after a table that it had not seen. *)
Definition next_walk (s : state (D := D)) (k : grub_disk) (num : Z) (v : walk) : walk :=
  let n := s32 (labeln v + 1) in
  let offset := next_table s k (ext_offset v) (p_offset v) in
  mk_walk offset (if ext_offset v =? 0 then offset else ext_offset v) num n
    (if Z.land n (n - 1) =? 0 then p_offset v else lastaddr v).

Lemma trail_step s k N hist v num : trail s k N hist v -> zlen hist < 2 ^ 31 - 1 -> p_offset v < Z.of_nat N ->
  negb (labeln v =? 0) && (lastaddr v =? p_offset v) = false -> trail s k N (hist ++ [p_offset v]) (next_walk s k num v).
Proof.
  intros T Hb Hin Hdet. unfold zlen in Hb. destruct T as [Tl Tr Tn Tc Tf Tla Te Tp].
  assert (s32 (labeln v + 1) = Z.of_nat (S (length hist))) as En.
  { rewrite Tl. rewrite sgn_small by (pow2; lia). lia. }
  assert (forall n : nat, (n <= length hist)%nat -> Z.of_nat (S n) - 1 = Z.of_nat n) as Em by lia.
  assert (hist <> [] -> lastaddr v <> p_offset v) as Hne.
  { intros Hh. destruct hist; [done|]. rewrite Tl in Hdet. cbn [length] in Hdet. destruct (Z.eqb_spec (Z.of_nat (S (length hist))) 0); [lia|].
    cbn [negb andb] in Hdet. by apply Z.eqb_neq in Hdet. }
  assert ((1 <= length hist)%nat -> ext_offset v <> 0) as Hext.
  { intros Hl. destruct hist as [|x [|y hist]]; [cbn in Hl; lia| |done]. destruct Te as [-> E]. rewrite E. specialize (Tla ltac:(cbn; lia)).
    cbn in Tla. injection Tla as Tla. rewrite <- Tla in Hne. intros E0. by apply Hne. }
  assert ((1 <= length hist)%nat -> (if ext_offset v =? 0 then next_table s k (ext_offset v) (p_offset v) else ext_offset v) = ext_offset v) as Hkeep.
  { intros Hl. by rewrite (proj2 (Z.eqb_neq _ 0) (Hext Hl)). }
  split; unfold next_walk; cbn [labeln p_offset ext_offset lastaddr]; rewrite ?En, ?Em by lia.
  - rewrite length_app. cbn [length]. lia.
  - apply Forall_app. split; [done|]. apply Forall_singleton. lia.
  - intros j x y Hj Hx Hy. pose proof (lookup_lt_Some _ _ _ Hy) as Hlt. rewrite length_app in Hlt. cbn [length] in Hlt.
    rewrite lookup_app_l in Hx by lia. rewrite Hkeep by lia. destruct (decide (S j < length hist)%nat) as [Hlt'|Hge].
    + rewrite lookup_app_l in Hy by lia. by eapply Tn.
    + rewrite list_lookup_middle in Hy by lia. injection Hy as <-. apply Tc; [lia|]. rewrite last_lookup.
      by replace (pred (length hist)) with j by lia.
  - intros Hl x Hx. rewrite last_snoc in Hx. injection Hx as <-. rewrite length_app in Hl. cbn [length] in Hl. by rewrite Hkeep by lia.
  - intros m x Hm Hx. pose proof (lookup_lt_Some _ _ _ Hx) as Hlt. rewrite length_app in Hlt. cbn [length] in Hlt. pose proof (saved_lt m Hm).
    rewrite (lookup_app_l _ _ (saved m)) by lia. destruct (decide (m < length hist)%nat) as [Hlt'|Hge].
    + rewrite lookup_app_l in Hx by lia. by apply Tf.
    + replace m with (length hist) in * by lia. rewrite list_lookup_middle in Hx by done. injection Hx as <-. rewrite Tla by lia.
      intros [= E]. apply Hne; [|done]. intros ->. cbn in Hm. lia.
  - intros _. rewrite length_app. cbn [length]. replace (length hist + 1)%nat with (S (length hist)) by lia.
    destruct (decide (hist = [])) as [->|Hh]; [done|]. assert (0 < length hist)%nat as Hpos by (destruct hist; [done|cbn; lia]).
    rewrite saved_step by done. destruct (Z.land _ _ =? 0).
    + by apply list_lookup_middle.
    + rewrite lookup_app_l; [by apply Tla|]. by apply saved_lt.
  - destruct hist as [|x [|y hist]]; cbn [app].
    + destruct Te as [-> ->]. split; [done|]. by cbn.
    + rewrite Hkeep by (cbn; lia). apply Hext. cbn. lia.
    + rewrite Hkeep by (cbn; lia). apply Hext. cbn. lia.
  - unfold next_table. destruct (table_of _ _ _) as [mbr|]; [|lia]. destruct (find_extended _); [|lia]. apply (wrap_range 64). lia.
Qed.

Lemma trail_frame s s' k N hist v : trail s k N hist v -> frame s s' -> trail s' k N hist v.
Proof.
  intros [] F. assert (forall ext x, next_table s' k ext x = next_table s k ext x) as E.
  { intros ext x. unfold next_table, table_of. by rewrite (disk_bytes_frame k _ _ F). }
  split; try done.
  - intros j x y Hj Hx Hy. rewrite E. by eapply t_next0.
  - intros Hl x Hx. rewrite E. by apply t_cur0.
Qed.

(** A hook ends, writes to no disk, and leaves the open disk as it was unless it stops the walk. *)
Definition hook_law (hook : iterate_hook (D := D) (A := A)) : Prop := forall k p w, good w ->
  exists stop k' w', hook k p w = Some (stop, k', w') /\ frame (disks w) (disks w') /\ (stop = false -> k' = k).

Lemma report_ends hook delta offset k es : hook_law hook -> forall i num w, good w ->
  exists stop num' k' w', report hook delta offset i es num k w = Some (stop, num', k', w') /\ frame (disks w) (disks w') /\ (stop = false -> k' = k).
Proof.
  intros Hh. induction es as [|e es IH]; intros i num w Hg; cbn [report].
  { eexists _, _, _, _. split; [done|]. split; [apply frame_refl, Hg|done]. }
  destruct (_ && _); [|by apply IH].
  destruct (Hh k (entry_partition k delta offset (s32 (num + 1)) i e) w Hg) as (stop & k1 & w1 & -> & F1 & Hk). rewrite bind_ret. cbv beta iota.
  destruct stop; [by eexists _, _, _, _|]. rewrite (Hk eq_refl).
  destruct (IH (i + 1) (s32 (num + 1)) w1 (good_frame _ _ Hg F1)) as (stop & n' & k' & w' & E & F2 & Hk').
  eexists _, _, _, _. split; [exact E|]. split; [by eapply frame_trans|done].
Qed.

(** What reading a table gives. *)
Lemma read_table k x (w : world) : good w -> disk_ok k -> parts_ok (partition k) -> 0 <= x < 2 ^ 64 ->
  exists e b s', grub_disk_read memory k x 0 sizeof_mbr (disks w) = Some (e, b, s') /\ frame (disks w) s' /\
    (e = ERR_NONE -> x < disk_end k /\ mbr_of b = table_of (disks w) k x /\ exists mbr, mbr_of b = Some mbr) /\
    (all_well memory k (disks w) -> grub_errno (disks w) = ERR_NONE -> within (disk_end k) (partition k) (x * 512) 512 = true ->
     e = ERR_NONE /\ grub_errno s' = ERR_NONE).
Proof.
  intros [Hs Hd] Hk Hp Hx.
  destruct (disk_read_spec memory k x 0 512 (disks w) Hs Hk Hp ltac:(lia) ltac:(lia) ltac:(lia) ltac:(change (0 / 512) with 0; lia)
    ltac:(change (0 mod 512) with 0; pow2; lia) Hd) as (e & b & s' & E & F & _ & Hr).
  exists e, b, s'. split; [exact E|]. split; [done|]. rewrite Z.add_0_r in Hr. destruct (within _ _ _ _) eqn:Ew.
  - destruct Hr as [Hok Hlive]. split.
    + intros He. destruct (Hok He) as [-> _]. pose proof (within_limit _ _ _ _ Hp Ew). split; [lia|]. split; [done|].
      unfold mbr_of. rewrite zlen_bytes by lia. by eexists.
    + intros Hw Hn _. specialize (Hlive Hw Hn). split; [done|]. by apply Hok.
  - subst e. by split.
Qed.

(** One table of a walk, in steps that are all defined. *)
Lemma walk_ends k hook delta N T : disk_ok k -> parts_ok (partition k) -> hook_law hook -> disk_end k <= Z.of_nat N -> (0 < N)%nat ->
  3 * zlen T < 2 ^ 31 - 1 -> forall fuel hist v w, good w -> trail (disks w) k N hist v -> Forall (fun x => x ∈ T) hist ->
  (forall x, 0 <= x < disk_end k -> signed_table (disks w) k x = true -> x ∈ T) -> (3 * N < fuel + length hist)%nat ->
  exists e k' w', walk_tables memory fuel hook delta v k w = Some (e, k', w') /\ frame (disks w) (disks w').
Proof.
  intros Hk Hp Hh HNe HN HT31. induction fuel as [|fuel IH]; intros hist v w Hg Ht HhT HT Hf.
  { pose proof (trail_bound _ _ _ _ _ Ht HN). lia. }
  cbn [walk_tables]. destruct (read_table k (p_offset v) w Hg Hk Hp (t_pos _ _ _ _ _ Ht)) as (e & b & s & -> & F1 & Hok & _).
  rewrite bind_ret. cbv beta iota zeta. set (w1 := set_disks s w). assert (frame (disks w) (disks w1)) as F1' by done.
  assert (exists e' k' w', bad_table (D := D) (A := A) k w1 = Some (e', k', w') /\ frame (disks w) (disks w')) as Hbad.
  { eexists _, _, _. split; [done|]. cbn. eapply frame_trans; [exact F1|]. apply set_errno_frame, F1. }
  destruct (bool_decide_reflect (e = ERR_NONE)) as [->|]; cbn [negb]; [|by eexists _, _, _].
  destruct (Hok eq_refl) as (Hin & Htab & mbr & Emb). rewrite Emb, bind_ret. rewrite Emb in Htab. clear Hok Emb.
  destruct (_ && existsb _ _); [exact Hbad|]. destruct (negb (labeln v =? 0) && (lastaddr v =? p_offset v)) eqn:Hdet; [exact Hbad|].
  destruct (signature mbr =? _) eqn:Hsig; cbn [negb]; [|exact Hbad]. destruct (existsb _ _); [exact Hbad|]. clear Hbad.
  assert (p_offset v ∈ T) as HvT by (apply HT; [destruct Ht; lia|unfold signed_table; by rewrite <- Htab]).
  destruct (report_ends hook delta (p_offset v) k (entries mbr) Hh 0 (p_number v) w1 (good_frame _ _ Hg F1')) as (stop & num & k2 & w2 & -> & F2 & Hk2).
  rewrite bind_ret. cbv beta iota. pose proof (frame_trans _ _ _ F1' F2) as F12. destruct stop; [by eexists _, _, _|]. rewrite (Hk2 eq_refl).
  destruct (find_extended (entries mbr)) as [en|] eqn:Eext; [|by eexists _, _, _].
  pose proof (trail_among _ _ _ _ _ T Ht HhT) as Hlen. unfold zlen in HT31.
  pose proof (trail_step _ _ _ _ _ num Ht ltac:(unfold zlen; pow2; lia) ltac:(lia) Hdet) as Ht2. apply (trail_frame _ (disks w2)) in Ht2; [|done].
  unfold next_walk, next_table in Ht2. rewrite <- Htab, Eext in Ht2.
  destruct (IH _ _ w2 (good_frame _ _ Hg F12) Ht2) as (e' & k' & w' & E' & F3).
  { apply Forall_app. split; [done|]. by apply Forall_singleton. }
  { intros x Hx. rewrite (signed_table_frame _ _ _ _ F12). by apply HT. }
  { rewrite length_app. cbn. lia. }
  eexists _, _, _. split; [exact E'|]. by eapply frame_trans.
Qed.

(** C3: The walk over the partition tables of a disk ends whatever the tables contain, for every
    hook that ends, on every disk of which fewer than 715,827,882 sectors end with the signature of a
    table (a third of the range of the [int] that counts the tables): chains of extended partitions that loop are noticed by comparing with the table
    that was seen at the last power of two, before three times as many tables as the disk has
    sectors are read.  The disks are not written, and their cache stays coherent. *)
Theorem msdos_walk_terminates k hook (w : world) : disk_ok k -> parts_ok (partition k) -> hook_law hook -> good w -> 3 * zlen (signed_tables (disks w) k) < 2 ^ 31 - 1 ->
  exists e k' w', grub_partition_msdos_iterate memory k hook w = Some (e, k', w') /\ frame (disks w) (disks w').
Proof.
  intros Hk Hp Hh Hg Hsmall.
  assert (forall delta, exists e k' w', walk_tables memory (table_fuel k) hook delta first_walk k w = Some (e, k', w') /\ frame (disks w) (disks w')) as Hend.
  { intros delta. eapply (walk_ends k hook delta (Z.to_nat (Z.max 1 (disk_end k))) (signed_tables (disks w) k)); try done; try lia;
      [apply first_trail| |unfold table_fuel; cbn [length]; lia].
    intros x Hx Hs. by apply elem_of_signed_tables. }
  unfold grub_partition_msdos_iterate. destruct (partition k) as [|p ps]; [apply Hend|]. case_decide; [|apply Hend].
  destruct (_ =? _); [apply Hend|]. eexists _, _, _. split; [done|]. cbn. apply set_errno_frame, Hg.
Qed.

End Walk.

(** * What the walk reports *)

(** An entry that is a partition. *)
Definition normal (e : msdos_entry) : bool :=
  negb (grub_msdos_partition_is_empty (e_type e)) && negb (grub_msdos_partition_is_extended (e_type e)).

(** A table that is accepted. *)
Definition well_formed (m : msdos_mbr) : bool :=
  (signature m =? GRUB_PC_PARTITION_SIGNATURE) && negb (existsb (fun e => negb (Z.land (e_flag e) 0x7f =? 0)) (entries m)).

(** The partitions of the first table, numbered by their places from [i]. *)
Fixpoint primaries (k : grub_disk) (delta : Z) (i : Z) (es : list msdos_entry) : list grub_partition :=
  match es with
  | [] => []
  | e :: es => (if normal e then [entry_partition k delta 0 i i e] else []) ++ primaries k delta (i + 1) es
  end.

(** The partitions of another table, numbered from [num] on. *)
Fixpoint numbered (k : grub_disk) (delta offset : Z) (i num : Z) (es : list msdos_entry) : list grub_partition :=
  match es with
  | [] => []
  | e :: es =>
      if normal e then entry_partition k delta offset num i e :: numbered k delta offset (i + 1) (num + 1) es
      else numbered k delta offset (i + 1) num es
  end.

(** The logical partitions of the tables of a chain, numbered from [num] on. *)
Fixpoint logicals (k : grub_disk) (delta num : Z) (tables : list (Z * msdos_mbr)) : list grub_partition :=
  match tables with
  | [] => []
  | (x, m) :: tables =>
      let ps := numbered k delta x 0 num (entries m) in ps ++ logicals k delta (num + zlen ps) tables
  end.

Lemma zlen_numbered k delta offset es : forall i num, zlen (numbered k delta offset i num es) <= zlen es.
Proof.
  induction es as [|e es IH]; intros i num; cbn [numbered]; [done|]. rewrite zlen_cons.
  pose proof (IH (i + 1) (num + 1)). pose proof (IH (i + 1) num). destruct (normal e); rewrite ?zlen_cons; lia.
Qed.

Section Reports.
Context {D : Type} `{DevicesOk D} {A : Type}.
Variable memory : nat -> Z -> bool * bool.
Abbreviation world := (world (D := D) (A := A)).

(** A table that is read and accepted. *)
Definition readable (s : state (D := D)) (k : grub_disk) (x : Z) (m : msdos_mbr) : Prop :=
  table_of s k x = Some m /\ well_formed m = true /\ within (disk_end k) (partition k) (x * 512) 512 = true /\ 0 <= x.

(** Tables that lead from one to the next; the starts of extended partitions count from [ext]. *)
Fixpoint linked (s : state (D := D)) (k : grub_disk) (ext : Z) (tables : list (Z * msdos_mbr)) : Prop :=
  match tables with
  | [] => True
  | (x, m) :: rest =>
      readable s k x m /\
      match rest, find_extended (entries m) with
      | [], None => True
      | (y, _) :: _, Some e => y = ext + Z.shiftl (e_start e) (log_sector_size k - GRUB_DISK_SECTOR_BITS)
      | _, _ => False
      end /\ linked s k ext rest
  end.

Lemma table_of_medium s s' k x : medium s' = medium s -> table_of s' k x = table_of s k x.
Proof. intros E. unfold table_of, disk_bytes. by rewrite E. Qed.

Lemma linked_medium s s' k ext tables : linked s k ext tables -> medium s' = medium s -> linked s' k ext tables.
Proof.
  intros Hl E. induction tables as [|[x m] rest IH]; [done|]. destruct Hl as ((Ht & ?) & Hm & Hr). split; [|by split; [|apply IH]].
  split; [|done]. by rewrite (table_of_medium s).
Qed.

Section Visits.
Context (k : grub_disk) (delta : Z) (Hk : disk_ok k) (Hp : parts_ok (partition k)).
Context (hook : iterate_hook (D := D) (A := A)) (all : list grub_partition) (I : nat -> world -> Prop) (J : grub_disk -> world -> Prop) (d : D).
Hypothesis V : visiting memory k hook all I J.
Hypothesis Id : forall n w, I n w -> medium (disks w) = d.

(** The hook is called for one partition more. *)
Lemma visit_one pre p post w : all = pre ++ p :: post -> I (length pre) w ->
  exists stop k' w', hook k p w = Some (stop, k', w') /\ if (stop : bool) then J k' w' else k' = k /\ I (length (pre ++ [p])) w'.
Proof.
  intros E Hi. destruct (v_hook _ _ _ _ _ _ V (length pre) p w) as (stop & k' & w' & Hh & Hr); [rewrite E; by apply list_lookup_middle|done|].
  exists stop, k', w'. split; [done|]. rewrite length_app. cbn [length]. by rewrite Nat.add_1_r.
Qed.

(** What the entries of a table lead to. *)
Definition reported (pre ps : list grub_partition) (num : Z) (r : option (bool * Z * grub_disk * world)) : Prop :=
  exists stop num' k' w', r = Some (stop, num', k', w') /\ if (stop : bool) then J k' w' else k' = k /\ num' = num /\ I (length (pre ++ ps)) w'.

Lemma report_primaries es : forall i w pre post, 0 <= i -> i + zlen es <= 4 -> all = pre ++ primaries k delta i es ++ post -> I (length pre) w ->
  reported pre (primaries k delta i es) (i + zlen es - 1) (report hook delta 0 i es (i - 1) k w).
Proof.
  induction es as [|e es IH]; intros i w pre post Hi Hl E HI; cbn [report primaries] in *.
  { change (@zlen msdos_entry []) with 0. eexists _, _, _, _. split; [done|]. rewrite app_nil_r. split; [done|]. split; [lia|done]. }
  rewrite zlen_cons in *. pose proof (zlen_nonneg es). replace (i + (1 + zlen es) - 1) with (i + 1 + zlen es - 1) by lia.
  fold (normal e). destruct (normal e).
  - rewrite sgn_small by (pow2; lia). replace (i - 1 + 1) with i by lia. cbn [app] in E.
    destruct (visit_one pre _ _ w E HI) as (stop & k' & w' & -> & Hr). rewrite bind_ret. cbv beta iota. destruct stop; [by eexists _, _, _, _|].
    destruct Hr as [-> HI']. cbn [app]. rewrite (cons_middle _ pre), app_assoc in E.
    destruct (IH (i + 1) w' _ _ ltac:(lia) ltac:(lia) E HI') as (stop & n' & k' & w2 & Er & Hr). replace (i + 1 - 1) with i in Er by lia.
    eexists _, _, _, _. split; [exact Er|]. by rewrite <- app_assoc in Hr.
  - destruct (Z.ltb_spec (i - 1) 3); [|lia]. replace (i - 1 + 1) with (i + 1 - 1) by lia. cbn [app] in *. apply (IH _ _ _ post); [lia|lia|done|done].
Qed.

Lemma report_logicals offset es : forall i num w pre post, 3 <= num -> num + zlen es < 2 ^ 31 ->
  all = pre ++ numbered k delta offset i (num + 1) es ++ post -> I (length pre) w ->
  reported pre (numbered k delta offset i (num + 1) es) (num + zlen (numbered k delta offset i (num + 1) es)) (report hook delta offset i es num k w).
Proof.
  induction es as [|e es IH]; intros i num w pre post Hn Hl E HI; cbn [report numbered] in *.
  { eexists _, _, _, _. split; [done|]. rewrite app_nil_r. split; [done|]. split; [unfold zlen; cbn; lia|done]. }
  rewrite zlen_cons in *. pose proof (zlen_nonneg es). fold (normal e). destruct (normal e).
  - rewrite sgn_small by (pow2; lia). cbn [app] in E. rewrite zlen_cons.
    destruct (visit_one pre _ _ w E HI) as (stop & k' & w' & -> & Hr). rewrite bind_ret. cbv beta iota. destruct stop; [by eexists _, _, _, _|].
    destruct Hr as [-> HI']. rewrite (cons_middle _ pre), app_assoc in E.
    destruct (IH (i + 1) (num + 1) w' _ _ ltac:(lia) ltac:(lia) E HI') as (stop & n' & k' & w2 & Er & Hr).
    eexists _, _, _, _. split; [exact Er|]. rewrite <- app_assoc in Hr. cbn [app] in Hr. destruct stop; [done|]. destruct Hr as (-> & -> & Hr).
    split; [done|]. split; [lia|done].
  - destruct (Z.ltb_spec num 3); [lia|]. apply (IH _ _ _ _ post); [lia|lia|done|done].
Qed.

Lemma table_place s x m : readable s k x m -> 0 <= x < 2 ^ 51.
Proof.
  intros (_ & _ & Hw & Hx). pose proof (within_limit _ _ _ _ Hp Hw). assert (disk_end k <= 2 ^ 51) by (unfold disk_end; lia). lia.
Qed.

Lemma zlen_entries b m : mbr_of b = Some m -> zlen (entries m) = 4.
Proof. unfold mbr_of. destruct (_ =? _); [|done]. by intros [= <-]. Qed.

(** Reading a table in a calm world. *)
Lemma calm_table x m (w : world) : calm memory k w -> readable (disks w) k x m ->
  exists b s, grub_disk_read memory k x 0 sizeof_mbr (disks w) = Some (ERR_NONE, b, s) /\ frame (disks w) s /\ grub_errno s = ERR_NONE /\
    mbr_of b = Some m.
Proof.
  intros [Hg Hw He] Hr. pose proof (table_place _ _ _ Hr) as Hx. destruct Hr as (Ht & _ & Hin & _). change (2 ^ 51) with 2251799813685248 in Hx.
  destruct (read_table memory k x w Hg Hk Hp ltac:(pow2; lia)) as (e & b & s & E & F & Hok & Hlive).
  destruct (Hlive Hw He Hin) as [-> Es]. destruct (Hok eq_refl) as (_ & Htab & _). exists b, s. by rewrite Htab, Ht.
Qed.

(** Up to the entries of a table: it is read and accepted. *)
Lemma accepted fuel v m (w : world) n : I n w -> readable (disks w) k (p_offset v) m ->
  (p_offset v = 0 -> existsb (fun e => e_type e =? GRUB_PC_PARTITION_TYPE_GPT_DISK) (entries m) = false) ->
  labeln v = 0 \/ lastaddr v <> p_offset v ->
  exists w1, I n w1 /\ zlen (entries m) = 4 /\
    walk_tables memory (S fuel) hook delta v k w =
    '(stop, num, k, w) ← report hook delta (p_offset v) 0 (entries m) (p_number v) k w1;
    if (stop : bool) then Some (grub_errno (disks w), k, w) else
    match find_extended (entries m) with
    | None => Some (grub_errno (disks w), k, w)
    | Some e =>
        let offset := u64 (ext_offset v + Z.shiftl (e_start e) (log_sector_size k - GRUB_DISK_SECTOR_BITS)) in
        let n := s32 (labeln v + 1) in
        walk_tables memory fuel hook delta
          (mk_walk offset (if ext_offset v =? 0 then offset else ext_offset v) num n
            (if Z.land n (n - 1) =? 0 then p_offset v else lastaddr v)) k w
    end.
Proof.
  intros HI Hr Hgpt Hlast. cbn [walk_tables].
  destruct (calm_table (p_offset v) m w (v_calm _ _ _ _ _ _ V _ _ HI) Hr) as (b & s & -> & F & Es & Em). rewrite bind_ret. cbv beta iota zeta.
  rewrite bool_decide_eq_true_2 by done. cbn [negb]. rewrite Em, bind_ret. exists (set_disks s w).
  split; [by apply (v_frame _ _ _ _ _ _ V)|]. split; [by eapply zlen_entries|]. destruct Hr as (_ & Hwf & _).
  apply andb_prop in Hwf as [Hsig Hflag]. apply negb_true_iff in Hflag. rewrite Hsig, Hflag. cbn [negb].
  destruct (Z.eqb_spec (p_offset v) 0) as [E0|]; cbn [andb]; [rewrite (Hgpt E0)|];
  (replace (negb (labeln v =? 0) && (lastaddr v =? p_offset v)) with false
    by (destruct Hlast as [->|Hlast]; [done|]; rewrite (proj2 (Z.eqb_neq _ _) Hlast); by rewrite andb_false_r)); done.
Qed.

(** The outcome of a walk. *)
Definition walked (r : option (grub_err_t * grub_disk * world)) : Prop :=
  exists e k' w', r = Some (e, k', w') /\ ((k' = k /\ e = ERR_NONE /\ I (length all) w') \/ J k' w').

Lemma walk_chain ext tables : ext <> 0 -> forall fuel v m rest w pre, tables = (p_offset v, m) :: rest -> I (length pre) w ->
  all = pre ++ logicals k delta (p_number v + 1) tables -> linked (disks w) k ext tables ->
  ext_offset v = ext -> NoDup tables.*1 -> ~ (lastaddr v) ∈ tables.*1 -> ~ 0 ∈ tables.*1 -> 3 <= p_number v -> p_number v + 4 * zlen tables < 2 ^ 31 ->
  (length tables <= fuel)%nat -> walked (walk_tables memory fuel hook delta v k w).
Proof.
  intros Hext. induction tables as [|[x m] rest IH]; intros fuel v m0 rest0 w pre; [done|].
  intros [= -> <- <-] HI Eall Hl Eext Hnd Hlast Hzero Hnum Hmax Hf.
  destruct fuel as [|fuel]; [cbn in Hf; lia|]. rewrite zlen_cons in Hmax. cbn [fmap list_fmap fst] in *. apply NoDup_cons in Hnd as [Hx Hnd].
  apply not_elem_of_cons in Hlast as [Hl1 Hl2], Hzero as [H01 H02].
  destruct (accepted fuel v m w _ HI (proj1 Hl) ltac:(congruence) (or_intror Hl1)) as (w1 & HI1 & Hz & ->).
  pose proof (zlen_nonneg rest). cbn [logicals] in Eall.
  destruct (report_logicals (p_offset v) (entries m) 0 (p_number v) w1 pre _ Hnum ltac:(lia) Eall HI1) as (stop & num & k2 & w2 & -> & Hr).
  rewrite bind_ret. cbv beta iota. set (ps := numbered _ _ _ _ _ _) in *. destruct stop; [eexists _, _, _; by split; [|right]|]. destruct Hr as (-> & -> & HI2).
  pose proof Hl as (_ & Hnext & Hl'). destruct (find_extended (entries m)) as [e|].
  - destruct rest as [|[y m'] rest]; [done|]. pose proof (table_place _ _ _ (proj1 Hl')) as Hy. rewrite Eext, <- Hnext. cbv zeta.
    change (2 ^ 51) with 2251799813685248 in Hy. rewrite (wrap_small 64 y) by (pow2; lia). rewrite (proj2 (Z.eqb_neq ext 0) Hext).
    pose proof (zlen_numbered k delta (p_offset v) (entries m) 0 (p_number v + 1)) as Hps. fold ps in Hps. pose proof (zlen_nonneg ps).
    eapply IH; try done; cbn [p_number lastaddr]; try lia.
    + rewrite Eall, <- app_assoc. do 3 f_equal. lia.
    + eapply linked_medium; [exact Hl'|]. by rewrite (Id _ _ HI), (Id _ _ HI2).
    + by destruct (_ =? 0).
    + cbn [length] in *. lia.
  - destruct rest as [|[y m'] rest]; [|done]. eexists _, _, _. split; [done|]. left. split; [done|].
    split; [apply (cm_errno _ _ _ (v_calm _ _ _ _ _ _ V _ _ HI2))|]. by rewrite Eall, app_nil_r.
Qed.
End Visits.

(** A disk with a sound table, and the tables of its extended partitions. *)
Record sound_disk (s : state (D := D)) (k : grub_disk) (m : msdos_mbr) (rest : list (Z * msdos_mbr)) : Prop := mk_sound {
  sd_first : readable s k 0 m;
  sd_gpt : existsb (fun e => e_type e =? GRUB_PC_PARTITION_TYPE_GPT_DISK) (entries m) = false;
  sd_chain : match rest, find_extended (entries m) with
             | [], None => True
             | (y, _) :: _, Some e => y = Z.shiftl (e_start e) (log_sector_size k - GRUB_DISK_SECTOR_BITS) /\ linked s k y rest
             | _, _ => False
             end;
  sd_nodup : NoDup (0 :: rest.*1);
  sd_few : 4 * zlen rest + 3 < 2 ^ 31
}.

Lemma linked_range s k ext tables : parts_ok (partition k) -> linked s k ext tables -> Forall (fun x => 0 <= x < disk_end k) tables.*1.
Proof.
  intros Hp Hl. induction tables as [|[x m] rest IH]; [constructor|]. destruct Hl as ((_ & _ & Hw & Hx) & _ & Hl). constructor; [|by apply IH].
  pose proof (within_limit _ _ _ _ Hp Hw). cbn. lia.
Qed.

Lemma sound_fuel s k m rest : parts_ok (partition k) -> sound_disk s k m rest -> (S (length rest) <= table_fuel k)%nat.
Proof.
  intros Hp [_ _ Hc Hnd _]. apply NoDup_cons in Hnd as [_ Hnd].
  assert (Forall (fun x => 0 <= x < disk_end k) rest.*1) as Hr.
  { destruct rest as [|[y m'] rest]; [constructor|]. destruct (find_extended _); [|done]. destruct Hc as [_ Hl]. by eapply linked_range. }
  assert (length rest.*1 <= length (seqZ 0 (disk_end k)))%nat as Hlen.
  { apply submseteq_length, NoDup_submseteq; [done|]. intros x Hx. apply elem_of_seqZ. rewrite Forall_forall in Hr. specialize (Hr x Hx). lia. }
  rewrite length_fmap, length_seqZ in Hlen. unfold table_fuel. lia.
Qed.

(** The partitions of such a disk. *)
Definition msdos_partitions (k : grub_disk) (delta : Z) (m : msdos_mbr) (rest : list (Z * msdos_mbr)) : list grub_partition :=
  primaries k delta 0 (entries m) ++ logicals k delta 4 rest.

Lemma walk_sound k delta hook m rest I J (w : world) : disk_ok k -> parts_ok (partition k) -> sound_disk (disks w) k m rest ->
  visiting memory k hook (msdos_partitions k delta m rest) I J -> (forall n w', I n w' -> medium (disks w') = medium (disks w)) -> I 0%nat w ->
  walked k (msdos_partitions k delta m rest) I J (walk_tables memory (table_fuel k) hook delta first_walk k w).
Proof.
  intros Hk Hp Hs V Id HI. pose proof (sound_fuel _ _ _ _ Hp Hs) as Hf. destruct (table_fuel k) as [|fuel]; [lia|].
  destruct Hs as [Hr Hgpt Hchain Hnd Hmax]. set (all := msdos_partitions k delta m rest) in *.
  destruct (accepted k delta Hk Hp hook all I J V fuel first_walk m w 0 HI Hr (fun _ => Hgpt) (or_introl eq_refl)) as (w1 & HI1 & Hz & ->).
  cbn [p_offset p_number ext_offset labeln lastaddr first_walk]. change (-1) with (0 - 1).
  destruct (report_primaries k delta hook all I J V (entries m) 0 w1 [] (logicals k delta 4 rest) ltac:(lia) ltac:(lia) eq_refl HI1)
    as (stop & num & k2 & w2 & -> & Hv). rewrite bind_ret. cbv beta iota.
  destruct stop; [eexists _, _, _; by split; [|right]|]. destruct Hv as (-> & -> & HI2). cbn [app] in HI2. rewrite Hz.
  apply NoDup_cons in Hnd as [Hz0 Hnd]. destruct (find_extended (entries m)) as [e|].
  - destruct rest as [|[y m'] rest]; [done|]. destruct Hchain as [Ey Hl]. rewrite Z.add_0_l, <- Ey. cbv zeta.
    pose proof (table_place k Hp _ _ _ (proj1 Hl)) as Hy. change (2 ^ 51) with 2251799813685248 in Hy. rewrite (wrap_small 64 y) by (pow2; lia).
    change (0 =? 0) with true. change (s32 (0 + 1)) with 1. change (Z.land 1 (1 - 1) =? 0) with true. cbv iota.
    assert (y <> 0) as Hy0 by (intros ->; by apply Hz0; left).
    apply (walk_chain k delta Hk Hp hook all I J (medium (disks w)) V Id y ((y, m') :: rest) Hy0 fuel (mk_walk y y (0 + 4 - 1) 1 0) m' rest w2
      (primaries k delta 0 (entries m)) eq_refl HI2); try done; cbn [p_number lastaddr]; try lia.
    eapply linked_medium; [exact Hl|]. by rewrite (Id _ _ HI2).
  - destruct rest as [|[y m'] rest]; [|done]. eexists _, _, _. split; [done|]. left. split; [done|].
    split; [apply (cm_errno _ _ _ (v_calm _ _ _ _ _ _ V _ _ HI2))|]. unfold all, msdos_partitions. cbn [logicals]. by rewrite app_nil_r.
Qed.
End Reports.

(** ** The map *)

(** The disk is not a partition of this map. *)
Definition not_nested (k : grub_disk) : Prop := forall p ps, partition k = p :: ps -> partmap p <> msdos_name.

Lemma iterate_not_nested {D A} `{Devices D} memory k (hook : iterate_hook (D := D) (A := A)) w : not_nested k ->
  grub_partition_msdos_iterate memory k hook w = walk_tables memory (table_fuel k) hook 0 first_walk k w.
Proof.
  intros Hn. unfold grub_partition_msdos_iterate. destruct (partition k) as [|p ps] eqn:E; [done|]. by rewrite decide_False by (by eapply Hn).
Qed.

Section Map.
Context {D : Type} `{DevicesOk D} {A : Type}.
Variable memory : nat -> Z -> bool * bool.

Definition grub_msdos_partition_map : grub_partition_map (D := D) (A := A) := mk_map msdos_name (grub_partition_msdos_iterate memory).

Definition msdos_lists (d : D) (k : grub_disk) (ps : list grub_partition) : Prop :=
  disk_ok k /\ parts_ok (partition k) /\ not_nested k /\
  exists s m rest, medium s = d /\ sound_disk s k m rest /\ ps = msdos_partitions k 0 m rest.

(** The disk is one of its partitions, or the first table is not a sound one. *)
Definition msdos_rejects (d : D) (k : grub_disk) : Prop :=
  disk_ok k /\ parts_ok (partition k) /\
  ((exists p ps, partition k = p :: ps /\ partmap p = msdos_name /\ msdostype p <> GRUB_PC_PARTITION_TYPE_LINUX_MINIX) \/
   (not_nested k /\ within (disk_end k) (partition k) 0 512 = true /\ exists s m, medium s = d /\ table_of s k 0 = Some m /\
    (existsb (fun e => e_type e =? GRUB_PC_PARTITION_TYPE_GPT_DISK) (entries m) = true \/ well_formed m = false))).

Lemma sound_medium s s' k m rest : sound_disk s k m rest -> medium s' = medium s -> sound_disk s' k m rest.
Proof.
  intros [(Ht & Hr) Hg Hc Hn Hf] E. split; try done.
  - split; [by rewrite (table_of_medium s)|done].
  - destruct rest as [|[y m'] rest]; [done|]. destruct (find_extended _); [|done]. destruct Hc as [? Hl]. split; [done|]. by eapply linked_medium.
Qed.

Lemma msdos_lists_law k hook ps I J (w : world (D := D) (A := A)) : msdos_lists (medium (disks w)) k ps -> visiting memory k hook ps I J -> I 0%nat w ->
  exists e k' w', iterate grub_msdos_partition_map k hook w = Some (e, k', w') /\ ((k' = k /\ e = ERR_NONE /\ I (length ps) w') \/ J k' w').
Proof.
  intros (Hk & Hp & Hn & s & m & rest & Em & Hs & ->) V HI. cbn [iterate grub_msdos_partition_map]. rewrite iterate_not_nested by done.
  apply (sound_medium _ (disks w)) in Hs; [|done].
  apply walk_sound; [done|done|done|done| |done]. intros n w' Hw'. by apply (v_medium _ _ _ _ _ _ V n 0%nat).
Qed.

Lemma msdos_rejects_law k hook (w : world (D := D) (A := A)) : msdos_rejects (medium (disks w)) k -> calm memory k w ->
  exists s, iterate grub_msdos_partition_map k hook w = Some (ERR_BAD_PART_TABLE, k, set_disks s w) /\ frame (disks w) s /\ grub_errno s = ERR_BAD_PART_TABLE.
Proof.
  intros (Hk & Hp & [(p & ps & E & Ep & Et)|(Hn & Hin & s0 & m & Em & Ht & Hbad)]) [Hg Hw He]; cbn [iterate grub_msdos_partition_map].
  { unfold grub_partition_msdos_iterate. rewrite E, decide_True by done. rewrite (proj2 (Z.eqb_neq _ _) Et). eexists. split; [done|].
    split; [apply set_errno_frame, Hg|done]. }
  rewrite iterate_not_nested by done. unfold table_fuel. cbn [walk_tables p_offset first_walk labeln lastaddr].
  destruct (read_table memory k 0 w Hg Hk Hp ltac:(lia)) as (e & b & s & -> & F & Hok & Hlive). rewrite bind_ret. cbv beta iota zeta.
  destruct (Hlive Hw He Hin) as [-> Es]. destruct (Hok eq_refl) as (_ & Htab & _). rewrite (table_of_medium s0), Ht in Htab by done.
  rewrite bool_decide_eq_true_2 by done. cbn [negb]. rewrite Htab, bind_ret. change (0 =? 0) with true. cbn [negb andb].
  assert (exists s', bad_table (D := D) (A := A) k (set_disks s w) = Some (ERR_BAD_PART_TABLE, k, set_disks s' w) /\ frame (disks w) s' /\
    grub_errno s' = ERR_BAD_PART_TABLE) as Hb.
  { eexists. split; [done|]. split; [|done]. eapply frame_trans; [exact F|]. apply set_errno_frame, F. }
  destruct (existsb (fun e => e_type e =? _) (entries m)); [exact Hb|]. destruct Hbad as [|Hwf]; [done|]. unfold well_formed in Hwf.
  destruct (signature m =? _); cbn [negb andb] in *; [|exact Hb]. destruct (existsb _ (entries m)); [exact Hb|done].
Qed.

#[export] Instance msdos_map_ok : MapOk memory grub_msdos_partition_map :=
  {| lists := msdos_lists; rejects := msdos_rejects; lists_law := msdos_lists_law; rejects_law := msdos_rejects_law |}.
End Map.


(** The hook that remembers the partitions. *)
Definition collect {D : Type} : iterate_hook (D := D) (A := list grub_partition) := fun k p w =>
  Some (false, k, mk_world (disks w) (recursion_depth w) (ret w) (found w) (user w ++ [p])).

(** What it has remembered after [n] partitions. *)
Definition remembered {D} `{DevicesOk D} memory (k : grub_disk) (all : list grub_partition) (w : world (D := D) (A := list grub_partition)) (n : nat)
  (w' : world (D := D) (A := list grub_partition)) : Prop :=
  calm memory k w' /\ medium (disks w') = medium (disks w) /\ user w' = user w ++ take n all.

Lemma collect_visits {D} `{DevicesOk D} memory k all (w : world (D := D) (A := list grub_partition)) :
  visiting memory k collect all (remembered memory k all w) (fun _ _ => False).
Proof.
  split.
  - by intros n w' [].
  - by intros n n' w1 w2 (_ & -> & _) (_ & -> & _).
  - intros n w' s (Hc' & Em & Eu) F E. split; [by apply calm_frame|]. split; [|done]. cbn. by rewrite (f_medium _ _ F).
  - intros n p w' Hp' ([[? ?] ? ?] & Em & Eu). eexists _, _, _. split; [done|]. split; [done|]. split; [done|]. split; [done|].
    cbn. by rewrite Eu, (take_S_r _ _ p), app_assoc.
Qed.

Lemma remembered_none {D} `{DevicesOk D} memory k all (w : world (D := D) (A := list grub_partition)) : calm memory k w -> remembered memory k all w 0 w.
Proof. intros Hc. split; [done|]. split; [done|]. by rewrite app_nil_r. Qed.

(** C13: On a disk whose tables are sound and never lead back, the walk reports exactly its
    partitions and ends without an error: those of the first table with the numbers of their
    places, 0 to 3, and the logical ones numbered from 4 on in the order of the chain, with starts
    counted from the table that has them.  The detection of loops never stops such a walk. *)
Theorem msdos_reports_partitions {D} `{DevicesOk D} memory k m rest (w : world (D := D) (A := list grub_partition)) :
  disk_ok k -> parts_ok (partition k) -> calm memory k w -> sound_disk (disks w) k m rest -> not_nested k ->
  exists w', grub_partition_msdos_iterate memory k collect w = Some (ERR_NONE, k, w') /\ medium (disks w') = medium (disks w) /\
    user w' = user w ++ primaries k 0 0 (entries m) ++ logicals k 0 4 rest.
Proof.
  intros Hk Hp Hc Hs Hn. rewrite iterate_not_nested by done. set (all := msdos_partitions k 0 m rest).
  destruct (walk_sound memory k 0 collect m rest (remembered memory k all w) (fun _ _ => False) w Hk Hp Hs) as (e & k' & w' & -> & [(-> & -> & _ & Em & Eu)|[]]).
  - apply collect_visits.
  - by intros n w' (_ & ? & _).
  - by apply remembered_none.
  - exists w'. split; [done|]. split; [done|]. by rewrite Eu, firstn_all.
Qed.

(** ** Examples *)

(** A disk with some bytes set. *)
Definition sparse (l : list (Z * Z)) : ram := fun _ _ a => default 0 (snd <$> list_find (fun p => fst p = a) l ≫= fun p => Some (snd p)).

(** The bytes of an entry with small numbers, and those of a signature. *)
Definition entry_bytes (sector i type first n : Z) : list (Z * Z) :=
  let a := sector * 512 + 446 + 16 * i in [(a + 4, type); (a + 8, first); (a + 12, n)].
Definition signed (sector : Z) : list (Z * Z) := [(sector * 512 + 510, 0x55); (sector * 512 + 511, 0xaa)].

(** Two primary partitions, an extended one with two logical ones; and one whose chain loops. *)
Definition pc_disk : ram := sparse (signed 0 ++ entry_bytes 0 0 0x83 8 10 ++ entry_bytes 0 1 5 64 100 ++ entry_bytes 0 3 0xc 200 9 ++
  signed 64 ++ entry_bytes 64 0 0x83 2 5 ++ entry_bytes 64 1 5 20 8 ++ signed 84 ++ entry_bytes 84 0 7 1 6).
Definition loop_disk : ram := sparse (signed 0 ++ entry_bytes 0 1 5 64 100 ++ signed 64 ++ entry_bytes 64 1 5 20 8 ++ signed 84 ++ entry_bytes 84 1 0xf 0 1).

Definition pc : grub_disk := small_disk 9 4096 32 [].
Definition start_world (d : ram) : world (D := ram) (A := list grub_partition) := mk_world (fresh d) 0 false None [].

Lemma collect_law : hook_law (D := ram) collect.
Proof. intros k p w [Hg _]. eexists _, _, _. split; [done|]. split; [by apply frame_refl|done]. Qed.

Lemma start_good d : good (start_world d).
Proof. split; [apply fresh_ok|cbn; lia]. Qed.

Lemma msdos_walk_terminates_witness : exists e k' w',
  grub_partition_msdos_iterate plenty pc collect (start_world loop_disk) = Some (e, k', w') /\ frame (fresh loop_disk) (disks w').
Proof.
  apply (msdos_walk_terminates plenty pc collect (start_world loop_disk)).
  - apply small_disk_ok; lia.
  - constructor.
  - apply collect_law.
  - apply start_good.
  - pose proof (length_signed_tables (fresh loop_disk) pc) as Hl.
    assert (Z.to_nat (disk_end pc) <= 4096)%nat as Hpc by (apply Nat.leb_le; vm_compute; reflexivity).
    unfold zlen. cbn [disks start_world]. lia.
Defined.

Definition pc_table (x : Z) : msdos_mbr := default (mk_mbr [] 0) (table_of (fresh pc_disk) pc x).
Definition pc_tables : list (Z * msdos_mbr) := [(64, pc_table 64); (84, pc_table 84)].

Lemma pc_sound : sound_disk (fresh pc_disk) pc (pc_table 0) pc_tables.
Proof.
  split; [vm_compute; intuition congruence|vm_compute; reflexivity|vm_compute; intuition congruence| |vm_compute; reflexivity].
  change (0 :: pc_tables.*1) with [0; 64; 84]. by apply (bool_decide_eq_true (NoDup [0; 64; 84])).
Qed.

Lemma start_calm d : calm plenty pc (start_world d).
Proof.
  split; [apply start_good| |reflexivity]. split; [done|]. split; [done|]. intros p sector n Hs Hn Ht. cbn in *.
  rewrite (proj2 (Z.ltb_ge sector 0) Hs), (proj2 (Z.ltb_ge 4096 (sector + n)) Ht). by eexists.
Qed.

Lemma pc_ok : disk_ok pc.
Proof. apply small_disk_ok; lia. Qed.

Lemma msdos_reports_partitions_witness : exists w',
  grub_partition_msdos_iterate plenty pc collect (start_world pc_disk) = Some (ERR_NONE, pc, w') /\
  (fun p => (number p, start p, len p)) <$> user w' = [(0, 8, 10); (3, 200, 9); (4, 66, 5); (5, 85, 6)].
Proof.
  destruct (msdos_reports_partitions plenty pc (pc_table 0) pc_tables (start_world pc_disk) pc_ok (Forall_nil_2 _) (start_calm pc_disk) pc_sound)
    as (w' & E & _ & Eu).
  - by intros p ps.
  - exists w'. split; [exact E|]. rewrite Eu. vm_compute. reflexivity.
Defined.

End GrubMsdos.
