(* ===== verification/GrubProbe.v ===== *)
(** Finding partitions by name (src/grub/grub-core/kern/partition.c): what a path of names and
    numbers means for the maps that keep their laws, that the name of a partition leads back to it,
    and two places where the walk over nested partitions goes wrong. *)

From S2P Require Import Prelude GrubStr GrubNum GrubDisk GrubPartition GrubMsdos.

Module GrubProbe.
Import GrubStr GrubNum GrubDisk GrubPartition GrubMsdos.

(** ** Text *)

Definition decimal (n : Z) : list Z := (fun d => d + 48) <$> rev (le_digits 10 64 n).

Lemma decimal_lltoa n : 0 <= n < 2 ^ 31 -> grub_lltoa 100 (u64 (s32 n)) = Some (decimal n).
Proof.
  intros Hn. rewrite sgn_small, wrap_small by (pow2; lia). rewrite lltoa_spec by (pow2; lia).
  rewrite sgn_small by (pow2; lia). rewrite (proj2 (Z.ltb_ge n 0)) by lia. done.
Qed.

Lemma le_digits_top base fuel n : 2 <= base -> 0 < n < base ^ Z.of_nat fuel -> exists d, last (le_digits base fuel n) = Some d /\ d <> 0.
Proof.
  intros Hb. revert n. induction fuel as [|fuel IH]; intros n Hn; [change (base ^ Z.of_nat 0) with 1 in Hn; lia|].
  cbn [le_digits]. pose proof (Z.div_mod n base ltac:(lia)). destruct (Z.eqb_spec (n / base) 0) as [E|E]; [exists (n mod base); split; [done|lia]|].
  destruct (IH (n / base)) as (d & Hd & Hne).
  { rewrite Nat2Z.inj_succ, Z.pow_succ_r in Hn by lia. pose proof (Z.div_pos n base ltac:(lia) ltac:(lia)). split; [lia|].
    apply Z.div_lt_upper_bound; lia. }
  exists d. split; [|done]. destruct (le_digits base fuel (n / base)); [done|]. exact Hd.
Qed.

Lemma le_digits_length base fuel n : (length (le_digits base fuel n) <= fuel)%nat.
Proof. revert n. induction fuel as [|fuel IH]; intros n; cbn [le_digits length]; [lia|]. destruct (_ =? 0); cbn [length]; [lia|]. specialize (IH (n / base)). lia. Qed.

Lemma digits_app base (ch : Z -> Z) ds rest : (forall d, 0 <= d < base -> digit_in base (ch d) = Some d) -> Forall (fun d => 0 <= d < base) ds ->
  digit_in base (at0 rest) = None -> digits base ((ch <$> ds) ++ rest) = (ds, rest).
Proof.
  intros Hch Hds Hr. induction Hds as [|d ds Hd _ IH]; cbn.
  - destruct rest as [|c rest]; [done|]. cbn in *. by rewrite Hr.
  - by rewrite Hch, IH by done.
Qed.

(** Reading back a number that is followed by something else. *)
Lemma parse_zero rest : Forall is_char rest -> digit_in 10 (at0 rest) = None -> at0 rest <> 120 ->
  grub_strtoul (decimal 0 ++ rest) 0 = Some (mk_parsed 0 rest ERR_NONE).
Proof.
  intros Hc Hr Hx. change (decimal 0 ++ rest) with (48 :: rest). unfold grub_strtoul, grub_strtoull.
  change (skip_while grub_isspace (48 :: rest)) with (48 :: rest).
  assert (digits 10 rest = ([], rest)) as Ed.
  { destruct rest as [|c rest]; [done|]. cbn [digits]. cbn [at0] in Hr. by rewrite Hr. }
  assert (guess_base (48 :: rest) 0 = (10, 48 :: rest)) as ->.
  { unfold guess_base. cbn [at0 tail Z.eqb Pos.eqb]. rewrite (proj2 (Z.eqb_neq _ _) Hx).
    destruct (Z.leb_spec 48 (at0 rest)), (Z.leb_spec (at0 rest) 55); try done. exfalso. revert Hr.
    unfold digit_in, raw_digit, grub_isdigit. zres. rewrite (proj2 (Z.ltb_lt (at0 rest - 48) 10)) by lia. done. }
  assert (Forall is_char (48 :: rest)) as Hc' by (constructor; [unfold is_char; lia|done]).
  pose proof (strtoull_loop_spec 10 (48 :: rest) 0 false Hc' ltac:(lia) ltac:(lia)) as Hl.
  cbn [digits] in Hl. change (digit_in 10 48) with (Some 0) in Hl. rewrite Ed in Hl. exact Hl.
Qed.

Lemma parse_decimal n rest : 0 < n < 2 ^ 64 -> Forall is_char rest -> digit_in 10 (at0 rest) = None ->
  grub_strtoul (decimal n ++ rest) 0 = Some (mk_parsed n rest ERR_NONE).
Proof.
  intros Hn Hc Hr. unfold grub_strtoul, grub_strtoull, decimal.
  destruct (le_digits_top 10 64 n ltac:(lia)) as (d & Hd & Hne).
  { split; [lia|]. apply Z.lt_le_trans with (2 ^ 64); [lia|]. by vm_compute. }
  pose proof (le_digits_range 10 64 n ltac:(lia)) as Hds. apply Forall_rev in Hds.
  assert (horner 10 0 (rev (le_digits 10 64 n)) = n) as Hv.
  { apply le_digits_value; [lia|]. split; [lia|]. apply Z.lt_le_trans with (2 ^ 64); [lia|]. by vm_compute. }
  assert (exists ds, rev (le_digits 10 64 n) = d :: ds) as [ds Ed].
  { apply last_Some in Hd as [l Hl]. exists (rev l). by rewrite Hl, rev_app_distr. }
  rewrite Ed in *. clear Hd. pose proof (proj1 (Forall_cons _ _ _) Hds) as [Hd Hds'].
  assert (forall x, 0 <= x < 10 -> digit_in 10 (x + 48) = Some x) as Hch by (intros x Hx; exact (proj1 (conv_char_facts 100 x Hx))).
  assert (Forall is_char ((fun x => x + 48) <$> d :: ds)) as Hc'.
  { apply Forall_fmap. eapply Forall_impl; [exact Hds|]. intros x Hx. cbn in *. unfold is_char. lia. }
  assert (skip_while grub_isspace (((fun x => x + 48) <$> d :: ds) ++ rest) = ((fun x => x + 48) <$> d :: ds) ++ rest) as ->.
  { cbn. unfold grub_isspace. by repeat (rewrite (proj2 (Z.eqb_neq _ _)) by lia). }
  assert (guess_base (((fun x => x + 48) <$> d :: ds) ++ rest) 0 = (10, ((fun x => x + 48) <$> d :: ds) ++ rest)) as ->.
  { unfold guess_base. cbn [fmap list_fmap app at0]. rewrite (proj2 (Z.eqb_neq (d + 48) 48)) by lia. done. }
  pose proof (strtoull_loop_spec 10 (((fun x => x + 48) <$> d :: ds) ++ rest) 0 false (Forall_app_2 _ _ _ Hc' Hc) ltac:(lia) ltac:(lia)) as Hl.
  rewrite (digits_app 10 (fun x => x + 48)) in Hl by done. rewrite Hv, (proj2 (Z.ltb_lt n (2 ^ 64))) in Hl by (pow2; lia). exact Hl.
Qed.

(** ** Comparing names *)

Lemma strncmp_zero s1 s2 : Forall (fun c => 0 < c < 128) s1 -> Forall (fun c => 0 < c < 128) s2 -> s2 <> [] ->
  grub_strncmp s1 s2 (length s2) = 0 -> at0 (drop (length s2) s1) = 0 -> s1 = s2.
Proof.
  intros H1 H2 Hne. unfold grub_strncmp. destruct (length s2) as [|n] eqn:En; [by destruct s2|]. revert s1 H1 s2 H2 Hne En.
  induction n as [|n IH]; intros s1 H1 s2 H2 Hne En; (destruct s2 as [|c2 s2]; [done|]); cbn in En; injection En as En.
  all: pose proof (proj1 (Forall_cons _ _ _) H2) as [Hc2 H2'].
  all: destruct s1 as [|c1 s1]; cbn [grub_strncmp_loop at0 drop]; [unfold wrap; rewrite Z.mod_0_l, Z.mod_small by (pow2; lia); lia|].
  all: pose proof (proj1 (Forall_cons _ _ _) H1) as [Hc1 H1'].
  - destruct s2; [|done]. intros E E0. unfold wrap in E. rewrite !Z.mod_small in E by (pow2; lia). replace c2 with c1 by lia.
    destruct s1 as [|c s1]; [done|]. apply Forall_cons in H1' as [? _]. cbn in E0. lia.
  - destruct (Z.eqb_spec c1 c2) as [->|Hn]; [|unfold wrap; rewrite !Z.mod_small by (pow2; lia); lia].
    intros E E0. f_equal. apply IH; [done|done|by destruct s2|done|done|exact E0].
Qed.

Lemma strncmp_same_loop s n : grub_strncmp_loop s s n = 0.
Proof. revert n. induction s as [|c s IH]; intros n; cbn [grub_strncmp_loop]; [lia|]. destruct n as [|[|n]]; [lia|lia|]. by rewrite Z.eqb_refl. Qed.

Lemma strncmp_same s : grub_strncmp s s (length s) = 0.
Proof. unfold grub_strncmp. destruct (length s); [done|]. apply strncmp_same_loop. Qed.

(** A name of a map. *)
Definition is_name (s : list Z) : Prop := s <> [] /\ Forall (fun c => grub_isalpha c = true) s.

Lemma alpha_char c : grub_isalpha c = true -> 65 <= c <= 122.
Proof. unfold grub_isalpha. intros [Hc|Hc]%orb_prop; apply andb_prop in Hc; lia. Qed.

Lemma name_test s1 s2 : is_name s1 -> is_name s2 ->
  negb (zlen s2 =? 0) && (negb (grub_strncmp s1 s2 (length s2) =? 0) || negb (at0 (drop (length s2) s1) =? 0)) = bool_decide (s1 <> s2).
Proof.
  intros [N1 A1] [N2 A2]. assert (forall s, Forall (fun c => grub_isalpha c = true) s -> Forall (fun c => 0 < c < 128) s) as Hc.
  { intros s Hs. eapply Forall_impl; [exact Hs|]. intros c ?%alpha_char. cbn. lia. }
  destruct (Z.eqb_spec (zlen s2) 0) as [E|_]; [destruct s2; [done|unfold zlen in E; cbn in E; lia]|]. cbn [negb andb].
  destruct (decide (s1 = s2)) as [->|Hne].
  - rewrite strncmp_same, drop_all. rewrite bool_decide_eq_false_2 by (by intros ?). done.
  - rewrite bool_decide_eq_true_2 by done. destruct (Z.eqb_spec (grub_strncmp s1 s2 (length s2)) 0), (Z.eqb_spec (at0 (drop (length s2) s1)) 0); try done.
    destruct Hne. apply strncmp_zero; auto.
Qed.

Lemma letters_name s rest : Forall (fun c => grub_isalpha c = true) s -> grub_isalpha (at0 rest) = false -> letters (s ++ rest) = (s, rest).
Proof.
  intros Hs Hr. induction Hs as [|c s Hc _ IH]; cbn.
  - destruct rest as [|c rest]; [done|]. cbn in *. by rewrite Hr.
  - by rewrite Hc, IH.
Qed.

(** * What a path means *)

Section Probe.
Context {D : Type} `{DevicesOk D} {A : Type}.
Variable memory : nat -> Z -> bool * bool.
Abbreviation world := (world (D := D) (A := A)).

(** A map that keeps its laws. *)
Record lawful := mk_lawful { lm : grub_partition_map (D := D) (A := A); lm_ok : MapOk memory lm }.
#[local] Existing Instance lm_ok.

(** [p] is the first partition of the list that has its number, and is inside its parent. *)
Definition first_of (k : grub_disk) (qs : list grub_partition) (p : grub_partition) : Prop :=
  contained k p = true /\
  exists n, qs !! n = Some p /\ forall j q, (j < n)%nat -> qs !! j = Some q -> number q <> number p.

Lemma calm_partition k part (w : world) : calm memory k w -> calm memory (set_partition part k) w.
Proof. intros [Hg (Hm & Hh & Hr) He]. split; [done| |done]. split; [done|]. split; [done|]. intros p sector n H1 H2 H3. exact (Hr p sector n H1 H2 H3). Qed.

Lemma map_probe_finds (m : lawful) k qs p (w : world) : calm memory k w -> lists memory (MapOk := lm_ok m) (medium (disks w)) k qs -> first_of k qs p ->
  exists s, grub_partition_map_probe memory (lm m) k (number p) w = Some (Some p, k, set_found (Some p) (set_disks s w)) /\
    frame (disks w) s /\ grub_errno s = ERR_NONE.
Proof.
  intros Hc Hl (Hin & n & Hn & Hfirst). unfold grub_partition_map_probe.
  set (I := fun (i : nat) (w' : world) => (i <= n)%nat /\ exists s, w' = set_disks s (set_found None w) /\ frame (disks w) s /\ grub_errno s = ERR_NONE).
  set (J := fun (k' : grub_disk) (w' : world) => k' = k /\ exists s, w' = set_found (Some p) (set_disks s w) /\ frame (disks w) s /\ grub_errno s = ERR_NONE).
  destruct (lists_law memory (MapOk := lm_ok m) k (probe_iter memory (number p)) qs I J (set_found None w) Hl) as (e & k' & w' & -> & Hr).
  - split.
    + intros i w' (_ & s & -> & F & E). apply calm_frame; [by destruct Hc as [[? ?] ? ?]|done|done].
    + intros i i' w1 w2 (_ & s1 & -> & F1 & _) (_ & s2 & -> & F2 & _). cbn. by rewrite (f_medium _ _ F1), (f_medium _ _ F2).
    + intros i w' s (Hi & s0 & -> & F & E) F' E'. split; [done|]. exists s. split; [done|]. split; [by eapply frame_trans|done].
    + intros i q w' Hq (Hi & s & -> & F & E). unfold probe_iter. destruct (decide (i = n)) as [->|Hne].
      * rewrite Hn in Hq. injection Hq as <-. rewrite Z.eqb_refl. unfold grub_partition_check_containment. rewrite Hin, bind_ret. cbv beta iota. cbn [negb].
        destruct (malloc_spec memory sizeof_partition s (f_ok _ _ F)) as (F1 & E1 & _ & M1). cbn [disks set_disks].
        destruct (malloc memory sizeof_partition s) as [ok s1]. cbn [fst snd] in *. rewrite (M1 (proj1 (cm_well _ _ _ Hc))) in *.
        eexists _, _, _. split; [done|]. split; [done|]. exists s1. split; [done|]. split; [by eapply frame_trans|]. by rewrite E1.
      * rewrite (proj2 (Z.eqb_neq (number p) (number q))) by (symmetry; apply (Hfirst i); [lia|done]). cbn [negb].
        eexists _, _, _. split; [done|]. split; [done|]. split; [lia|]. by exists s.
  - split; [lia|]. exists (disks w). split; [done|]. split; [apply frame_refl, Hc|apply Hc].
  - rewrite bind_ret. cbv beta iota. destruct Hr as [(_ & _ & Hi & _)|(-> & s & -> & F & E)].
    + pose proof (lookup_lt_Some _ _ _ Hn). lia.
    + exists s. split; [|done]. cbn. by rewrite decide_True by exact E.
Qed.

(** The maps before the one that knows the partition: they have other names, or reject the disk. *)
Definition skipped (named : bool) (d : D) (k : grub_disk) (p : grub_partition) (m : lawful) : Prop :=
  if named then is_name (map_name (lm m)) /\ map_name (lm m) <> partmap p else rejects memory (MapOk := lm_ok m) d k.

(** [p] is what a name and a number, or a number alone, mean inside the partitions of [k]. *)
Definition meant (maps : list lawful) (d : D) (k : grub_disk) (named : bool) (p : grub_partition) : Prop :=
  is_name (partmap p) /\ 0 <= number p < 2 ^ 31 - 1 /\
  exists pre m post qs, maps = pre ++ m :: post /\ Forall (skipped named d k p) pre /\
    map_name (lm m) = partmap p /\ lists memory (MapOk := lm_ok m) d k qs /\ first_of k qs p.

Definition name_part (named : bool) (p : grub_partition) : list Z := if named then partmap p else [].

Lemma try_maps_finds maps named part tail k p (w : world) : calm memory k w -> meant maps (medium (disks w)) (set_partition part k) named p ->
  exists s, try_maps memory (lm <$> maps) (name_part named p) part tail k (number p) w =
    Some (Some p, set_partition tail k, set_found (Some p) (set_disks s w)) /\ frame (disks w) s /\ grub_errno s = ERR_NONE.
Proof.
  intros Hc (Hname & _ & pre & m & post & qs & -> & Hpre & Em & Hl & Hf). revert k w Hc Hpre Hl Hf.
  induction pre as [|m0 pre IH]; intros k w Hc Hpre Hl Hf; cbn [app fmap list_fmap try_maps].
  - assert (negb (zlen (name_part named p) =? 0) && (negb (grub_strncmp (map_name (lm m)) (name_part named p) (length (name_part named p)) =? 0)
      || negb (at0 (drop (length (name_part named p)) (map_name (lm m))) =? 0)) = false) as ->.
    { destruct named; [|done]. cbn [name_part]. rewrite Em, name_test by done. by rewrite bool_decide_eq_false_2 by (by intros ?). }
    destruct (map_probe_finds m (set_partition part k) qs p w (calm_partition _ part _ Hc) Hl Hf) as (s & -> & F & E). rewrite bind_ret. cbv beta iota.
    by exists s.
  - apply Forall_cons in Hpre as [Hsk Hpre]. destruct named; cbn [skipped name_part] in *.
    + destruct Hsk as [Hn0 Hne]. rewrite name_test, bool_decide_eq_true_2 by done. by apply IH.
    + cbn [zlen length Z.of_nat Z.eqb negb andb]. unfold grub_partition_map_probe.
      pose proof (calm_partition _ part _ Hc) as Hc0. assert (calm memory (set_partition part k) (set_found None w)) as Hc1 by (by destruct Hc0 as [[? ?] ? ?]).
      destruct (rejects_law memory (MapOk := lm_ok m0) (set_partition part k) (probe_iter memory (number p)) (set_found None w) Hsk Hc1) as (s & -> & F & E).
      rewrite bind_ret. cbv beta iota. cbn [disks set_disks]. rewrite decide_False by (by rewrite E). rewrite bind_ret. cbv beta iota zeta.
      cbn [disks set_disks]. rewrite decide_True by exact E.
      set (w1 := raise_error ERR_NONE (set_disks s (set_found None w))).
      assert (frame (disks w) (disks w1)) as F1 by (eapply frame_trans; [exact F|]; apply set_errno_frame, F).
      destruct (IH (set_partition tail (set_partition part k)) w1) as (s2 & E2 & F2 & E2').
      * split; [eapply good_frame; [apply Hc|exact F1]| |done]. destruct (calm_partition _ tail _ Hc) as [_ Hw _]. by eapply all_well_frame.
      * by rewrite (f_medium _ _ F1).
      * by rewrite (f_medium _ _ F1).
      * done.
      * exists s2. split; [exact E2|]. split; [by eapply frame_trans|done].
Qed.

(** A path of names and numbers from the outside in, and its text. *)
Definition piece (named : bool) (p : grub_partition) : list Z := name_part named p ++ decimal (number p + 1).

Fixpoint path_text (path : list (bool * grub_partition)) : list Z :=
  match path with
  | [] => []
  | [(b, p)] => piece b p
  | (b, p) :: path => piece b p ++ 44 :: path_text path
  end.

Fixpoint path_ok (maps : list lawful) (d : D) (k : grub_disk) (part : list grub_partition) (path : list (bool * grub_partition)) : Prop :=
  match path with
  | [] => True
  | (b, p) :: path => meant maps d (set_partition part k) b p /\ path_ok maps d k (p :: part) path
  end.

Lemma decimal_head n rest : exists c, at0 (decimal n ++ rest) = c /\ 48 <= c <= 57 /\ decimal n ++ rest <> [].
Proof.
  unfold decimal. destruct (le_digits_cons 10 63 n) as (d0 & ds0 & E0). pose proof (le_digits_range 10 64 n ltac:(lia)) as Hds.
  apply Forall_rev in Hds. destruct (rev (le_digits 10 64 n)) as [|d ds] eqn:E.
  { rewrite E0 in E. cbn in E. by destruct (rev ds0). }
  apply Forall_cons in Hds as [Hd _]. exists (d + 48). by split; [|split; [lia|]].
Qed.

Lemma decimal_chars n : Forall is_char (decimal n).
Proof.
  unfold decimal. apply Forall_fmap, Forall_rev. eapply Forall_impl; [apply (le_digits_range 10 64 n); lia|]. intros d Hd. cbn in *. unfold is_char. lia.
Qed.

Lemma path_chars maps d k part path : path_ok maps d k part path -> Forall is_char (path_text path).
Proof.
  revert part. induction path as [|[b p] path IH]; intros part Hp; [constructor|]. destruct Hp as [((_ & Ha) & _) Hp].
  assert (Forall is_char (piece b p)) as Hc.
  { apply Forall_app. split; [|apply decimal_chars]. destruct b; [|constructor]. cbn. eapply Forall_impl; [exact Ha|].
    intros c Hc%alpha_char. unfold is_char. lia. }
  cbn [path_text]. destruct path as [|q path]; [done|]. destruct b; (apply Forall_app; split; [done|]); (constructor; [unfold is_char; lia|]); by apply (IH (p :: part)).
Qed.

(** One step of the loop. *)
Lemma probe_step fuel maps b p rest part k w : calm memory k w -> meant maps (medium (disks w)) (set_partition part k) b p ->
  Forall is_char rest -> digit_in 10 (at0 rest) = None ->
  exists s, frame (disks w) s /\ grub_errno s = ERR_NONE /\
    probe_loop memory (S fuel) (lm <$> maps) part (partition k) (piece b p ++ rest) k w =
    match rest with
    | 44 :: ptr => probe_loop memory fuel (lm <$> maps) (p :: part) (partition k) ptr k (set_found (Some p) (set_disks s w))
    | _ => Some (p :: part, k, set_found (Some p) (set_disks s w))
    end.
Proof.
  intros Hc Hm Hch Hr. pose proof Hm as ((_ & Ha) & Hnum & _). unfold piece. rewrite <- app_assoc.
  destruct (decimal_head (number p + 1) rest) as (c & Hc0 & Hcr & Hne).
  assert (letters (name_part b p ++ decimal (number p + 1) ++ rest) = (name_part b p, decimal (number p + 1) ++ rest)) as El.
  { apply letters_name; [by destruct b; [|constructor]|]. rewrite Hc0. unfold grub_isalpha. destruct (Z.leb_spec 97 c), (Z.leb_spec 65 c); cbn; lia || done. }
  destruct (name_part b p ++ decimal (number p + 1) ++ rest) as [|c0 text] eqn:Et; [by apply app_eq_nil in Et as [_ Et]|].
  cbn [probe_loop]. rewrite El, (parse_decimal (number p + 1) rest ltac:(pow2; lia) Hch Hr), bind_ret. cbv beta iota zeta.
  cbn [GrubNum.errno value endp]. rewrite (proj2 (Z.eqb_neq (number p + 1) 0)) by lia. unfold GRUB_INT_MAX.
  rewrite (proj2 (Z.ltb_ge 2147483647 (number p + 1))) by lia. cbn [orb]. replace (number p + 1 - 1) with (number p) by lia.
  destruct (try_maps_finds maps b part (partition k) k p w Hc Hm) as (s & -> & F & E). rewrite bind_ret, set_partition_same. cbv beta iota. by exists s.
Qed.

Lemma probe_path maps k path : forall fuel part w, path <> [] -> (length path <= fuel)%nat -> calm memory k w -> path_ok maps (medium (disks w)) k part path ->
  exists w', probe_loop memory fuel (lm <$> maps) part (partition k) (path_text path) k w = Some (rev path.*2 ++ part, k, w') /\
    frame (disks w) (disks w') /\ grub_errno (disks w') = ERR_NONE.
Proof.
  induction path as [|[b p] path IH]; intros fuel part w Hne Hf Hc Hp; [done|]. destruct fuel as [|fuel]; [cbn in Hf; lia|].
  pose proof (path_chars _ _ _ _ _ Hp) as Hch. destruct Hp as [Hm Hp]. cbn [path_text fmap list_fmap rev snd] in *.
  destruct path as [|q path].
  - rewrite <- (app_nil_r (piece b p)). destruct (probe_step fuel maps b p [] part k w Hc Hm (List.Forall_nil _) eq_refl) as (s & F & E & ->).
    eexists. split; [done|]. by split.
  - apply Forall_app in Hch as [_ Hch].
    destruct (probe_step fuel maps b p (44 :: path_text (q :: path)) part k w Hc Hm Hch eq_refl) as (s & F & E & ->).
    set (w1 := set_found (Some p) (set_disks s w)).
    destruct (IH fuel (p :: part) w1 ltac:(done) ltac:(cbn in *; lia)) as (w' & -> & F' & E').
    + by apply (calm_frame memory k w s) in Hc; [destruct Hc as [[? ?] ? ?]|..].
    + by rewrite (f_medium _ _ F : medium (disks w1) = _).
    + exists w'. split; [by rewrite <- app_assoc|]. split; [by eapply frame_trans|done].
Qed.

(** ** Names *)

Lemma le_digits_short base fuel m n : 2 <= base -> 0 <= n < base ^ Z.of_nat (S m) -> (length (le_digits base fuel n) <= S m)%nat.
Proof.
  intros Hb. revert n m. induction fuel as [|fuel IH]; intros n m Hn; cbn [le_digits length]; [lia|].
  rewrite Nat2Z.inj_succ, Z.pow_succ_r in Hn by lia. destruct (Z.eqb_spec (n / base) 0) as [|Hne]; cbn [length]; [lia|].
  destruct m as [|m].
  - rewrite Z.div_small in Hne; [done|]. change (base ^ Z.of_nat 0) with 1 in Hn. lia.
  - apply le_n_S, IH. split; [apply Z.div_pos; lia|]. apply Z.div_lt_upper_bound; lia.
Qed.

Lemma decimal_short n : 0 <= n < 2 ^ 31 -> zlen (decimal n) <= 10.
Proof.
  intros Hn. unfold decimal, zlen. rewrite length_fmap, length_rev. pose proof (le_digits_short 10 64 9 n ltac:(lia)) as Hl.
  change (10 ^ Z.of_nat 10) with 10000000000 in Hl. change (2 ^ 31) with 2147483648 in Hn. lia.
Qed.

(** The bytes that a name may take. *)
Fixpoint name_size (parts : list grub_partition) : Z :=
  match parts with [] => 0 | p :: parts => zlen (partmap p) + 28 + name_size parts end.

Definition commas (parts : list grub_partition) : list Z := concat ((fun p => 44 :: piece true p) <$> parts).

Lemma name_size_nonneg parts : 0 <= name_size parts.
Proof. induction parts as [|p parts IH]; cbn [name_size]; [done|]. pose proof (zlen_nonneg (partmap p)). lia. Qed.

Lemma needlen_spec parts : name_size parts < 2 ^ 64 -> name_needlen parts = name_size parts.
Proof.
  induction parts as [|p parts IH]; intros Hs; cbn [name_needlen name_size] in *; [done|]. pose proof (zlen_nonneg (partmap p)).
  pose proof (name_size_nonneg parts). rewrite IH by lia. unfold grub_strlen. rewrite wrap_small by lia. lia.
Qed.

Lemma name_loop_spec parts : forall room text, Forall (fun p => 0 <= number p < 2 ^ 31 - 1) parts -> name_size parts <= room ->
  name_loop parts room text = Some (commas (rev parts) ++ text).
Proof.
  induction parts as [|p parts IH]; intros room text Hn Hr; cbn [name_loop]; [done|]. apply Forall_cons in Hn as [Hp Hn].
  rewrite decimal_lltoa, bind_ret by lia. cbn [name_size] in Hr. pose proof (name_size_nonneg parts). pose proof (decimal_short (number p + 1) ltac:(lia)) as Hd.
  rewrite take_ge by (unfold zlen in Hd; unfold number_buf; lia). rewrite zlen_cons, zlen_app.
  destruct (Z.ltb_spec room (1 + (zlen (partmap p) + zlen (decimal (number p + 1))))); [lia|].
  rewrite IH by (done || lia). cbn [rev]. unfold commas. rewrite fmap_app, concat_app. cbn [fmap list_fmap concat]. rewrite app_nil_r, <- app_assoc. done.
Qed.

Lemma path_text_commas parts : parts <> [] -> commas parts = 44 :: path_text ((fun p => (true, p)) <$> parts).
Proof.
  induction parts as [|p [|q parts] IH]; intros Hne; [done|by unfold commas; cbn; rewrite app_nil_r|].
  change (commas (p :: q :: parts)) with (44 :: piece true p ++ commas (q :: parts)). by rewrite IH.
Qed.

Lemma get_name_spec parts s : cache_ok s -> enough_memory memory -> parts <> [] -> Forall (fun p => 0 <= number p < 2 ^ 31 - 1) parts ->
  name_size parts < 2 ^ 64 ->
  exists s', grub_partition_get_name memory parts s = Some (Some (path_text ((fun p => (true, p)) <$> rev parts)), s') /\
    frame s s' /\ grub_errno s' = grub_errno s.
Proof.
  intros Hs Hm Hne Hn Hsize. destruct parts as [|p parts]; [done|]. unfold grub_partition_get_name. rewrite needlen_spec by done.
  destruct (malloc_spec memory (u64 (name_size (p :: parts) + 1)) s Hs) as (F & E & _ & M).
  destruct (malloc memory _ s) as [ok s']. cbn [fst snd] in *. rewrite (M Hm) in *. cbn [negb].
  rewrite name_loop_spec, bind_ret by (done || lia). rewrite app_nil_r, path_text_commas by (cbn; by destruct (rev parts)).
  exists s'. split; [done|]. split; [done|by apply E].
Qed.

Lemma path_numbers maps d k part path : path_ok maps d k part path -> Forall (fun p => 0 <= number p < 2 ^ 31 - 1) path.*2.
Proof.
  revert part. induction path as [|[b p] path IH]; intros part Hp; [constructor|]. destruct Hp as [(_ & Hn & _) Hp]. constructor; [done|]. by apply (IH (p :: part)).
Qed.

(** C4: The name that is made for a partition leads back to it: for every partition map that keeps
    its laws, [grub_partition_probe] on the text that [grub_partition_get_name] gives finds the
    same partition inside the same partitions.  The text never leaves the buffer that was measured
    for it, and finding a partition writes to no disk. *)
Theorem partition_name_roundtrip maps k parts (w : world) : partition k = [] -> calm memory k w -> parts <> [] ->
  path_ok maps (medium (disks w)) k [] ((fun p => (true, p)) <$> rev parts) -> name_size parts < 2 ^ 64 ->
  exists name s, grub_partition_get_name memory parts (disks w) = Some (Some name, s) /\
    exists w', grub_partition_probe memory (lm <$> maps) k name (set_disks s w) = Some (parts, k, w') /\
      medium (disks w') = medium (disks w) /\ grub_errno (disks w') = ERR_NONE.
Proof.
  intros Hk Hc Hne Hp Hsize. pose proof (path_numbers _ _ _ _ _ Hp) as Hn. rewrite <- list_fmap_compose, list_fmap_id in Hn.
  apply Forall_rev in Hn. rewrite rev_involutive in Hn.
  destruct (get_name_spec parts (disks w) (g_ok _ (cm_good _ _ _ Hc)) (proj1 (cm_well _ _ _ Hc)) Hne Hn Hsize) as (s & -> & F & E).
  eexists _, s. split; [done|]. unfold grub_partition_probe. rewrite Hk. rewrite (cm_errno _ _ _ Hc) in E.
  assert (calm memory k (set_disks s w)) as Hc1 by (by apply calm_frame).
  set (path := (fun p => (true, p)) <$> rev parts) in *.
  destruct (probe_path maps k path (S (length (path_text path))) [] (set_disks s w)) as (w' & Ew & F' & E').
  - unfold path. destruct parts; [done|]. cbn. by destruct (rev parts).
  - clear. induction path as [|[b p] [|q path] IH]; [cbn; lia|cbn; lia|]. cbn [path_text length] in *. rewrite length_app. cbn [length] in *. lia.
  - done.
  - cbn. by rewrite (f_medium _ _ F).
  - rewrite Hk in Ew. exists w'. split; [|split; [|done]].
    + rewrite Ew, app_nil_r. unfold path. by rewrite <- list_fmap_compose, list_fmap_id, rev_involutive.
    + rewrite (f_medium _ _ F'). cbn. by apply f_medium.
Qed.

End Probe.

(** * The walk over all partitions *)

Section Iterate.
Context {D : Type} `{DevicesOk D}.
Variable memory : nat -> Z -> bool * bool.
Abbreviation world := (world (D := D) (A := list grub_partition)).
Abbreviation lawful := (lawful (D := D) (A := list grub_partition) memory).
#[local] Existing Instance lm_ok.

(** What the walk has done to the world: it has reported [ps]. *)
Definition told (w0 : world) (ps : list grub_partition) (w : world) : Prop :=
  recursion_depth w = recursion_depth w0 /\ ret w = false /\ user w = user w0 ++ ps /\ frame (disks w0) (disks w) /\ grub_errno (disks w) = ERR_NONE.

Lemma told_calm k w0 ps w : calm memory k w0 -> told w0 ps w -> calm memory k w.
Proof. intros [Hg Hw He] (_ & _ & _ & F & E). split; [by eapply good_frame|by eapply all_well_frame|done]. Qed.

Lemma told_disks w0 ps w s : told w0 ps w -> frame (disks w) s -> grub_errno s = ERR_NONE -> told w0 ps (set_disks s w).
Proof. intros (E1 & E2 & E3 & F & _) F' E. split; [done|]. split; [done|]. split; [done|]. split; [by eapply frame_trans|done]. Qed.

Lemma depth_back n : 0 <= n < 2 ^ 32 - 1 -> u32 (u32 (n + 1) - 1) = n.
Proof. intros Hn. rewrite (wrap_small 32 (n + 1)) by (pow2; lia). replace (n + 1 - 1) with n by lia. apply wrap_small. lia. Qed.

(** Nothing is nested: every map rejects the partition. *)
Lemma nested_none step (maps : list lawful) k w0 ps w : calm memory k w0 -> told w0 ps w -> 0 <= recursion_depth w0 < MAX_RECURSION_DEPTH ->
  Forall (fun m => rejects memory (MapOk := lm_ok _ m) (medium (disks w0)) k) maps ->
  exists w', nested_maps step (lm memory <$> maps) k w = Some (k, w') /\ told w0 ps w'.
Proof.
  intros Hc Ht Hd Hm. unfold MAX_RECURSION_DEPTH in Hd. revert w Ht. induction Hm as [|m maps Hrej _ IH]; intros w Ht; cbn [fmap list_fmap nested_maps]; [by exists w|].
  pose proof Ht as (Er & Eret & Eu & F & E). cbn [recursion_depth set_recursion]. rewrite Er, (wrap_small 32 (recursion_depth w0 + 1)) by (pow2; lia).
  unfold MAX_RECURSION_DEPTH. destruct (Z.leb_spec (recursion_depth w0 + 1) 32); [|lia].
  set (w1 := set_recursion (recursion_depth w0 + 1) w).
  assert (calm memory k w1) as Hc1 by (by destruct (told_calm _ _ _ _ Hc Ht) as [[? ?] ? ?]).
  destruct (rejects_law memory (MapOk := lm_ok _ m) k step w1) as (s & -> & F' & E'); [cbn; by rewrite (f_medium _ _ F)|done|].
  rewrite bind_ret. cbv beta iota zeta. rewrite decide_False by done. cbn [ret raise_error set_disks set_recursion]. cbn [w1 set_recursion ret]. rewrite Eret.
  apply IH. split; [cbn; rewrite <- (wrap_small 32 (recursion_depth w0 + 1)) by (pow2; lia); apply depth_back; pow2; lia|]. split; [done|]. split; [done|].
  split; [|done]. cbn. eapply frame_trans; [exact F|]. eapply frame_trans; [exact F'|]. apply set_errno_frame, F'.
Qed.

(** What the maps know of a disk. *)
Definition known (d : D) (k : grub_disk) (m : lawful) (qs : list grub_partition) : Prop :=
  lists memory (MapOk := lm_ok _ m) d k qs \/ (qs = [] /\ rejects memory (MapOk := lm_ok _ m) d k).

Lemma part_iterate_tells fuel (maps : list lawful) k w0 ps p w : partition k = [] -> calm memory k w0 -> told w0 ps w ->
  0 <= recursion_depth w0 < MAX_RECURSION_DEPTH ->
  (start p <> 0 -> Forall (fun m => rejects memory (MapOk := lm_ok _ m) (medium (disks w0)) (set_partition [p] k)) maps) ->
  exists w', part_iterate memory (S fuel) (lm memory <$> maps) collect k p w = Some (false, k, w') /\ told w0 (ps ++ [p]) w'.
Proof.
  intros Hk Hc Ht Hd Hn. cbn [part_iterate]. unfold grub_partition_check_containment, contained. rewrite Hk, bind_ret. cbv beta iota. cbn [negb].
  change (collect (set_partition [] k) p w) with (Some (false, set_partition [] k, mk_world (disks w) (recursion_depth w) (ret w) (found w) (user w ++ [p]))).
  rewrite bind_ret. cbv beta iota. set (w1 := mk_world _ _ _ _ _).
  assert (told w0 (ps ++ [p]) w1) as Ht1.
  { destruct Ht as (E1 & E2 & E3 & F & E). split; [done|]. split; [done|]. split; [|done]. cbn. by rewrite E3, app_assoc. }
  assert (set_partition [] k = k) as Ek by (by rewrite <- Hk, set_partition_same). rewrite Ek. destruct (Z.eqb_spec (start p) 0) as [E0|E0]; cbn [negb].
  - rewrite bind_ret. cbv beta iota. rewrite Ek. destruct Ht1 as (? & Er & ?). rewrite Er. by exists w1.
  - destruct (nested_none (part_iterate memory fuel (lm memory <$> maps) collect) maps (set_partition [p] k) w0 _ w1 (calm_partition memory k [p] w0 Hc) Ht1 Hd (Hn E0))
      as (w2 & -> & Ht2). rewrite bind_ret. cbv beta iota. pose proof Ht2 as (_ & Er & _). rewrite Er. exists w2. split; [|done].
    change (set_partition [] (set_partition [p] k)) with (set_partition [] k). by rewrite Ek.
Qed.

Lemma iterate_maps_tells fuel (all maps : list lawful) k w0 qss : partition k = [] -> calm memory k w0 -> 0 <= recursion_depth w0 < MAX_RECURSION_DEPTH ->
  (forall p, p ∈ concat qss -> start p <> 0 -> Forall (fun m => rejects memory (MapOk := lm_ok _ m) (medium (disks w0)) (set_partition [p] k)) all) ->
  Forall2 (known (medium (disks w0)) k) maps qss -> forall ps w, told w0 ps w ->
  exists w', iterate_maps (part_iterate memory (S fuel) (lm memory <$> all) collect) (lm memory <$> maps) k w = Some (false, k, w') /\ told w0 (ps ++ concat qss) w'.
Proof.
  intros Hk Hc Hd Hn Hm. induction Hm as [|m qs maps qss Hknown _ IH]; intros ps w Ht; cbn [fmap list_fmap iterate_maps concat].
  { pose proof Ht as (_ & Er & _). rewrite Er, app_nil_r. by exists w. }
  assert (exists e w1, iterate (lm memory m) k (part_iterate memory (S fuel) (lm memory <$> all) collect) w = Some (e, k, w1) /\
    told w0 (ps ++ qs) (if decide (e = ERR_NONE) then w1 else raise_error ERR_NONE w1)) as (e & w1 & -> & Ht1).
  { pose proof Ht as (_ & _ & _ & F & _). destruct Hknown as [Hl|[-> Hrej]].
    - destruct (lists_law memory (MapOk := lm_ok _ m) k (part_iterate memory (S fuel) (lm memory <$> all) collect) qs
        (fun n => told w0 (ps ++ take n qs)) (fun _ _ => False) w) as (e & k' & w1 & E & [(-> & -> & Ht1)|[]]).
      + by rewrite (f_medium _ _ F).
      + split.
        * intros n w' Ht'. by eapply told_calm.
        * intros n n' w1 w2 (_ & _ & _ & F1 & _) (_ & _ & _ & F2 & _). by rewrite (f_medium _ _ F1), (f_medium _ _ F2).
        * intros n w' s. apply told_disks.
        * intros n p w' Hp Ht'. destruct (part_iterate_tells fuel all k w0 _ p w' Hk Hc Ht' Hd) as (w2 & E2 & Ht2).
          { apply Hn. cbn. apply elem_of_app. left. by eapply list_elem_of_lookup_2. }
          eexists _, _, _. split; [exact E2|]. split; [done|]. by rewrite (take_S_r _ _ p), app_assoc.
      + by rewrite app_nil_r.
      + rewrite firstn_all in Ht1. by exists ERR_NONE, w1.
    - destruct (rejects_law memory (MapOk := lm_ok _ m) k (part_iterate memory (S fuel) (lm memory <$> all) collect) w) as (s & E & F' & E').
      + by rewrite (f_medium _ _ F).
      + by eapply told_calm.
      + eexists _, _. split; [exact E|]. rewrite decide_False by done. rewrite app_nil_r. apply (told_disks _ _ w (set_errno ERR_NONE s)); [done| |done].
        eapply frame_trans; [exact F'|]. apply set_errno_frame, F'. }
  rewrite bind_ret. cbv beta iota zeta. set (w2 := if decide _ then _ else _) in *. pose proof Ht1 as (_ & Er & _). rewrite Er, app_assoc.
  apply IH; [|done]. intros p Hp. apply Hn. cbn. apply elem_of_app. by right.
Qed.

(** On a disk without nested partitions, the walk over all partition maps reports, in the order
    of the maps, exactly the partitions that each map lists; maps that do not recognise the disk, or
    a partition of it, are passed over without leaving an error, and the open disk is what it was. *)
Theorem partition_iterate_reports (maps : list lawful) k qss (w : world) : partition k = [] -> calm memory k w ->
  0 <= recursion_depth w < MAX_RECURSION_DEPTH -> Forall2 (known (medium (disks w)) k) maps qss ->
  (forall p, p ∈ concat qss -> start p <> 0 -> Forall (fun m => rejects memory (MapOk := lm_ok _ m) (medium (disks w)) (set_partition [p] k)) maps) ->
  exists w', grub_partition_iterate memory (lm memory <$> maps) collect k w = Some (false, k, w') /\
    user w' = user w ++ concat qss /\ medium (disks w') = medium (disks w) /\ grub_errno (disks w') = ERR_NONE.
Proof.
  intros Hk Hc Hd Hm Hn. unfold grub_partition_iterate. change (Z.to_nat MAX_RECURSION_DEPTH) with 32%nat. set (w0 := set_ret false w).
  assert (calm memory k w0) as Hc0 by (by destruct Hc as [[? ?] ? ?]).
  destruct (iterate_maps_tells 31 maps maps k w0 qss Hk Hc0 Hd Hn Hm [] w0) as (w' & -> & _ & _ & Eu & F & E).
  { split; [done|]. split; [done|]. split; [by rewrite app_nil_r|]. split; [apply frame_refl, Hc|apply Hc]. }
  exists w'. split; [done|]. split; [done|]. split; [apply (f_medium _ _ F)|done].
Qed.
End Iterate.

(** ** Examples *)

Definition pc_map : lawful (D := ram) (A := list grub_partition) plenty := mk_lawful plenty (grub_msdos_partition_map plenty) (msdos_map_ok plenty).
Definition pc_parts : list grub_partition := msdos_partitions pc 0 (pc_table 0) pc_tables.

(** The last logical partition. *)
Definition pc_part : grub_partition := mk_partition 5 85 6 84 0 msdos_name 7.

Lemma pc_lists : lists plenty (MapOk := lm_ok plenty pc_map) pc_disk pc pc_parts.
Proof.
  split; [apply pc_ok|]. split; [constructor|]. split; [by intros p ps|]. exists (fresh pc_disk), (pc_table 0), pc_tables.
  split; [done|]. split; [apply pc_sound|done].
Qed.

Lemma partition_name_roundtrip_witness : exists name s,
  grub_partition_get_name plenty [pc_part] (fresh pc_disk) = Some (Some name, s) /\
  exists w', grub_partition_probe plenty [grub_msdos_partition_map plenty] pc name (set_disks s (start_world pc_disk)) = Some ([pc_part], pc, w') /\
    medium (disks w') = pc_disk /\ grub_errno (disks w') = ERR_NONE.
Proof.
  apply (partition_name_roundtrip plenty [pc_map] pc [pc_part] (start_world pc_disk)).
  - reflexivity.
  - apply start_calm.
  - discriminate.
  - split; [|exact Logic.I]. split; [split; [discriminate|repeat constructor]|]. split; [vm_compute; intuition congruence|].
    exists [], pc_map, [], pc_parts. split; [reflexivity|]. split; [constructor|]. split; [reflexivity|]. split; [exact pc_lists|].
    split; [reflexivity|]. exists 3%nat. split; [vm_compute; reflexivity|]. intros j q Hj Hq.
    destruct j as [|[|[|j]]]; [..|lia]; vm_compute in Hq; injection Hq as <-; vm_compute; discriminate.
  - vm_compute. reflexivity.
Defined.

Lemma partition_iterate_reports_witness : exists w',
  grub_partition_iterate plenty [grub_msdos_partition_map plenty] collect pc (start_world pc_disk) = Some (false, pc, w') /\
  (fun p => (number p, start p, len p)) <$> user w' = [(0, 8, 10); (3, 200, 9); (4, 66, 5); (5, 85, 6)].
Proof.
  destruct (partition_iterate_reports plenty [pc_map] pc [pc_parts] (start_world pc_disk)) as (w' & E & Eu & _).
  - reflexivity.
  - apply start_calm.
  - unfold MAX_RECURSION_DEPTH. cbn. lia.
  - constructor; [left; exact pc_lists|constructor].
  - intros p Hp Hs. constructor; [|constructor]. split; [exact (mk_disk_ok (set_partition [p] pc) (k_log _ pc_ok) (k_agg _ pc_ok) (k_total _ pc_ok))|].
    assert (Forall (fun p => (0 <= start p /\ 0 <= len p /\ start p + len p < 2 ^ 64) /\ partmap p = msdos_name /\ msdostype p <> 0x81) (concat [pc_parts])) as Hall.
    { replace (concat [pc_parts]) with [mk_partition 0 8 10 0 0 msdos_name 0x83; mk_partition 3 200 9 0 3 msdos_name 0xc;
        mk_partition 4 66 5 64 0 msdos_name 0x83; pc_part] by (vm_compute; reflexivity).
      repeat apply Forall_cons_2; [..|apply Forall_nil_2]; cbn [start len partmap msdostype pc_part]; repeat split; lia. }
    rewrite Forall_forall in Hall. destruct (Hall p Hp) as (H1 & H2 & H3). split; [exact (Forall_cons_2 _ _ _ H1 (Forall_nil_2 _))|]. left. by exists p, [].
  - exists w'. split; [exact E|]. rewrite Eu. vm_compute. reflexivity.
Defined.

End GrubProbe.
