(* ===== verification/GrubGpt.v ===== *)
(** GUID partition tables (src/grub/grub-core/partmap/gpt.c, include/grub/gpt_partition.h): the walk
    over the table, for native sectors of up to 32 kilobytes, as a partition map, and the search for
    the place where the boot loader is embedded.

    The field of a partition that only the tables of the PC use is not stored by this code; its
    value is the parameter [stale]. *)

From S2P Require Import Prelude GrubStr GrubDisk GrubPartition GrubMsdos GrubProbe.

Module GrubGpt.
Import GrubStr GrubDisk GrubPartition GrubMsdos GrubProbe.

Definition grub_gpt_magic : list Z := [0x45; 0x46; 0x49; 0x20; 0x50; 0x41; 0x52; 0x54].
Definition grub_gpt_partition_type_empty : list Z := replicate 16 0.
Definition grub_gpt_partition_type_bios_boot : list Z :=
  [0x48; 0x61; 0x68; 0x21; 0x49; 0x64; 0x6f; 0x6e; 0x74; 0x4e; 0x65; 0x65; 0x64; 0x45; 0x46; 0x49].
Definition MAX_SECTOR_LOG : Z := 7.

(** The fields of the header and of an entry that are used. *)
Record grub_gpt_header := mk_header { magic : list Z; partitions : Z; maxpart : Z; partentry_size : Z }.
Record grub_gpt_partentry := mk_partentry { pe_type : list Z; pe_start : Z; pe_end : Z }.

Definition le64_at (b : list Z) (i : nat) : Z := le32_at b i + 4294967296 * le32_at b (i + 4).

Definition sizeof_header : Z := 92.
Definition sizeof_partentry : Z := 128.

Definition header (b : list Z) : grub_gpt_header := mk_header (take 8 b) (le64_at b 72) (le32_at b 80) (le32_at b 84).
Definition partentry (b : list Z) : grub_gpt_partentry := mk_partentry (take 16 b) (le64_at b 32) (le64_at b 40).

(** What was read as a structure; [None] if it was not all stored. *)
Definition header_of (b : list Z) : option grub_gpt_header := if zlen b =? sizeof_header then Some (header b) else None.
Definition partentry_of (b : list Z) : option grub_gpt_partentry := if zlen b =? sizeof_partentry then Some (partentry b) else None.

Definition gpt_name : list Z := [103; 112; 116].

(** The partition of an entry that stands at [last_offset] after the sector [entries]. *)
Definition gpt_partition (stale sector_log i entries last_offset : Z) (e : grub_gpt_partentry) : grub_partition :=
  mk_partition (s32 i) (u64 (Z.shiftl (pe_start e) sector_log)) (u64 (Z.shiftl (u64 (pe_end e - pe_start e + 1)) sector_log))
    entries last_offset gpt_name stale.

(** The place of the next entry. *)
Definition next_entry (size entries last_offset : Z) : Z * Z :=
  let last_offset := s32 (last_offset + size) in
  if last_offset =? GRUB_DISK_SECTOR_SIZE then (u64 (entries + 1), 0) else (entries, last_offset).

(** A boot record that stands for such a table. *)
Definition protective (m : msdos_mbr) : bool := existsb (fun e => e_type e =? GRUB_PC_PARTITION_TYPE_GPT_DISK) (entries m).

Section Gpt.
Context {D : Type} `{Devices D} {A : Type}.
Variable memory : nat -> Z -> bool * bool.
Variable stale : Z.

Abbreviation world := (world (D := D) (A := A)).
Abbreviation iterate_hook := (iterate_hook (D := D) (A := A)).

(** The header, in the second sector of one of the sizes from [sector_log] on, [n] of them: an error
    that ends the walk, or the header if there is one. *)
Fixpoint find_header (n : nat) (sector_log : Z) (k : grub_disk) (w : world)
  : option ((grub_err_t + option (Z * grub_gpt_header)) * world) :=
  match n with
  | O => Some (inr None, w)
  | S n =>
      '(err, b, s) ← grub_disk_read memory k (Z.shiftl 1 sector_log) 0 sizeof_header (disks w);
      let w := set_disks s w in
      if negb (bool_decide (err = ERR_NONE)) then Some (inl (grub_errno (disks w)), w) else
      gpt ← header_of b;
      if decide (magic gpt = grub_gpt_magic) then Some (inr (Some (sector_log, gpt)), w) else find_header n (sector_log + 1) k w
  end.

(** The entries from number [i] on, [n] of them. *)
Fixpoint walk_entries (n : nat) (hook : iterate_hook) (sector_log size i entries last_offset : Z) (k : grub_disk) (w : world)
  : option (grub_err_t * grub_disk * world) :=
  match n with
  | O => Some (ERR_NONE, k, w)
  | S n =>
      '(err, b, s) ← grub_disk_read memory k entries (u64 last_offset) sizeof_partentry (disks w);
      let w := set_disks s w in
      if negb (bool_decide (err = ERR_NONE)) then Some (grub_errno (disks w), k, w) else
      entry ← partentry_of b;
      '(stop, k, w) ← (if decide (pe_type entry = grub_gpt_partition_type_empty) then Some (false, k, w)
                       else hook k (gpt_partition stale sector_log i entries last_offset entry) w);
      if (stop : bool) then Some (grub_errno (disks w), k, w) else
      let next := next_entry size entries last_offset in
      walk_entries n hook sector_log size (u32 (i + 1)) (fst next) (snd next) k w
  end.

Definition grub_gpt_partition_map_iterate (k : grub_disk) (hook : iterate_hook) (w : world) : option (grub_err_t * grub_disk * world) :=
  '(err, b, s) ← grub_disk_read memory k 0 0 sizeof_mbr (disks w);
  let w := set_disks s w in
  if negb (bool_decide (err = ERR_NONE)) then Some (grub_errno (disks w), k, w) else
  mbr ← mbr_of b;
  if negb (signature mbr =? GRUB_PC_PARTITION_SIGNATURE) then bad_table k w else
  if negb (protective mbr) then bad_table k w else
  '(r, w) ← find_header (Z.to_nat MAX_SECTOR_LOG) 0 k w;
  match r with
  | inl e => Some (e, k, w)
  | inr None => bad_table k w
  | inr (Some (sector_log, gpt)) =>
      walk_entries (Z.to_nat (maxpart gpt)) hook sector_log (partentry_size gpt) 0 (u64 (Z.shiftl (partitions gpt) sector_log)) 0 k w
  end.

Definition grub_gpt_partition_map : grub_partition_map (D := D) (A := A) := mk_map gpt_name grub_gpt_partition_map_iterate.
End Gpt.

(** ** Embedding *)

Definition GRUB_EMBED_PCBIOS : Z := 0.
Definition GRUB_MIN_RECOMMENDED_MBR_GAP : Z := 1900.

(** What embedding returns: the error, the number of sectors, the sectors, and whether it warned. *)
Record embedding := mk_embedding { em_err : grub_err_t; nsectors : Z; sectors : option (list Z); warned : bool }.

Section Embed.
Context {D : Type} `{Devices D}.
Variable memory : nat -> Z -> bool * bool.
Variable stale : Z.

(** The start and the length that were found. *)
Abbreviation world := (world (D := D) (A := Z * Z)).

Definition set_user (c : Z * Z) (w : world) : world := mk_world (disks w) (recursion_depth w) (ret w) (found w) c.

(** The disk stands for the parent of the partition that it is called for. *)
Definition find_usable_region : iterate_hook (D := D) (A := Z * Z) := fun k p w =>
  '(err, b, s) ← grub_disk_read memory k (offset p) (u64 (index p)) sizeof_partentry (disks w);
  let w := set_disks s w in
  if negb (bool_decide (err = ERR_NONE)) then Some (false, k, w) else
  gptdata ← partentry_of b;
  if decide (pe_type gptdata = grub_gpt_partition_type_bios_boot) then Some (true, k, set_user (start p, len p) w) else Some (false, k, w).

Definition gpt_partition_map_embed (k : grub_disk) (wanted max_nsectors embed_type : Z) (w : world) : option (embedding * grub_disk * world) :=
  if negb (embed_type =? GRUB_EMBED_PCBIOS)
  then Some (mk_embedding ERR_NOT_IMPLEMENTED_YET wanted None false, k, raise_error ERR_NOT_IMPLEMENTED_YET w) else
  '(err, k, w) ← grub_gpt_partition_map_iterate memory stale k find_usable_region (set_user (0, 0) w);
  if negb (bool_decide (err = ERR_NONE)) then Some (mk_embedding err wanted None false, k, w) else
  let '(first, room) := user w in
  if room =? 0 then Some (mk_embedding ERR_FILE_NOT_FOUND wanted None false, k, raise_error ERR_FILE_NOT_FOUND w) else
  let warn := room <? GRUB_MIN_RECOMMENDED_MBR_GAP in
  if room <? wanted then Some (mk_embedding ERR_OUT_OF_RANGE wanted None warn, k, raise_error ERR_OUT_OF_RANGE w) else
  let n := u32 room in
  let n := if max_nsectors <? n then max_nsectors else n in
  let '(ok, s) := malloc memory (n * 8) (disks w) in
  let w := set_disks s w in
  if negb ok then Some (mk_embedding (grub_errno (disks w)) n None warn, k, w) else
  Some (mk_embedding ERR_NONE n (Some ((fun i => u64 (first + i)) <$> seqZ 0 n)) warn, k, w).
End Embed.
(** * What the walk reports *)

(** Entries never cross the end of a sector. *)
Definition aligned (size : Z) : bool := (0 <? size) && (512 mod size =? 0).

(** Where entry [i] stands: the sector and the offset that are reported for it. *)
Definition cursor (size first i : Z) : Z * Z :=
  if aligned size then (first + i * size / 512, (i * size) mod 512) else (first, i * size).

Lemma cursor_place size first i : fst (cursor size first i) * 512 + snd (cursor size first i) = first * 512 + i * size.
Proof. unfold cursor. destruct (aligned size); cbn [fst snd]; [|done]. dlia. Qed.

Lemma cursor_zero size first : cursor size first 0 = (first, 0).
Proof. unfold cursor. rewrite Z.mul_0_l. change (0 / 512) with 0. change (0 mod 512) with 0. rewrite Z.add_0_r. by destruct (aligned size). Qed.

Lemma aligned_factor size : aligned size = true -> exists q, 512 = q * size /\ 0 < size /\ 0 < q.
Proof.
  intros Ha. apply andb_prop in Ha as [Hs Hm]. apply Z.ltb_lt in Hs. apply Z.eqb_eq in Hm. exists (512 / size).
  pose proof (Z.div_mod 512 size ltac:(lia)). assert (512 / size * size = 512) by lia. nia.
Qed.

(** In an aligned table the offset is a whole number of entries, and the next one ends the sector or
    is in it. *)
Lemma aligned_next size i : aligned size = true -> 0 <= i ->
  ((i * size) mod 512 + size = 512 /\ (i + 1) * size / 512 = i * size / 512 + 1 /\ ((i + 1) * size) mod 512 = 0) \/
  ((i * size) mod 512 + size < 512 /\ (i + 1) * size / 512 = i * size / 512 /\ ((i + 1) * size) mod 512 = (i * size) mod 512 + size).
Proof.
  intros Ha Hi. destruct (aligned_factor size Ha) as (q & Hq & Hs & Hq0).
  assert ((i * size) mod 512 = i mod q * size) as Em by (rewrite Hq; by apply Z.mul_mod_distr_r; lia).
  pose proof (Z.mod_pos_bound i q Hq0) as Hb. set (r := i mod q) in *.
  pose proof (Z.div_mod (i * size) 512 ltac:(lia)) as Ed. rewrite Em in *. set (d := i * size / 512) in *.
  assert (r * size + size = 512 \/ r * size + size < 512) as [E|E] by nia; [left|right]; (split; [done|]).
  - assert ((i + 1) * size = (d + 1) * 512 + 0) as -> by lia. clearbody r d. clear. split; dlia.
  - assert ((i + 1) * size = d * 512 + (r * size + size)) as -> by lia. assert (0 <= r * size) as H0 by nia.
    set (x := r * size) in *. clearbody x d. clear - E H0 Hs. split; dlia.
Qed.

Lemma unaligned_step size i : aligned size = false -> 0 <= size -> 0 <= i -> (i + 1) * size <> 512.
Proof.
  intros Ha Hs Hi E. unfold aligned in Ha. assert (0 < size) as H0 by nia. rewrite (proj2 (Z.ltb_lt 0 size) H0) in Ha. cbn [andb] in Ha.
  apply Z.eqb_neq in Ha. apply Ha. rewrite <- E. by apply Z.mod_mul; lia.
Qed.

(** The code moves from one place to the next. *)
Lemma next_entry_cursor size first i : 0 <= size < 2 ^ 32 -> 0 <= i -> 0 <= first -> aligned size = true \/ (i + 1) * size < 2 ^ 31 ->
  first * 512 + (i + 1) * size < 2 ^ 63 ->
  next_entry size (fst (cursor size first i)) (snd (cursor size first i)) = cursor size first (i + 1).
Proof.
  intros Hs Hi Hf Hint Hend. unfold next_entry, cursor, GRUB_DISK_SECTOR_SIZE. pow2.
  destruct (aligned size) eqn:Ha; cbn [fst snd].
  - destruct (aligned_factor size Ha) as (q & Hq & Hs0 & Hq0).
    assert (size <= 512) by nia. pose proof (Z.mod_pos_bound (i * size) 512 ltac:(lia)).
    change (2 ^ 63) with 9223372036854775808 in Hend. pose proof (Z.div_pos (i * size) 512 ltac:(nia) ltac:(lia)).
    destruct (aligned_next size i Ha Hi) as [(E & -> & ->)|(E & -> & ->)]; rewrite sgn_small by (pow2; lia).
    + rewrite E, Z.eqb_refl. f_equal. rewrite wrap_small; [lia|]. pow2. pose proof (Z.mul_div_le (i * size) 512 ltac:(lia)). lia.
    + by rewrite (proj2 (Z.eqb_neq _ _)) by lia.
  - destruct Hint as [|Hint]; [done|]. assert (0 <= i * size) by nia. rewrite sgn_small by (pow2; lia).
    replace (i * size + size) with ((i + 1) * size) by lia. rewrite (proj2 (Z.eqb_neq _ _)); [done|]. apply unaligned_step; [done|lia|lia].
Qed.
Section Reports.
Context {D : Type} `{DevicesOk D} {A : Type}.
Variable memory : nat -> Z -> bool * bool.
Variable stale : Z.
Abbreviation world := (world (D := D) (A := A)).

(** The bytes at a place of the disk or of the partition that it stands for. *)
Definition bytes_at (s : state (D := D)) (k : grub_disk) (a n : Z) : list Z := bytes (disk_bytes s k) (place (partition k) a) n.

Definition header_at (s : state (D := D)) (k : grub_disk) (sector : Z) : grub_gpt_header := header (bytes_at s k (sector * 512) sizeof_header).
Definition partentry_at (s : state (D := D)) (k : grub_disk) (a : Z) : grub_gpt_partentry := partentry (bytes_at s k a sizeof_partentry).

(** A read that is inside the disk. *)
Definition inside (k : grub_disk) (a n : Z) : Prop := within (disk_end k) (partition k) a n = true.

(** The first sector of the entries. *)
Definition table_start (log : Z) (h : grub_gpt_header) : Z := u64 (Z.shiftl (partitions h) log).

(** No header in the second sector of a size below [log]. *)
Definition no_header_below (s : state (D := D)) (k : grub_disk) (log : Z) : Prop :=
  forall j, 0 <= j < log -> inside k (2 ^ j * 512) sizeof_header /\ magic (header_at s k (2 ^ j)) <> grub_gpt_magic.

(** A disk with such a table: the boot record says so, the header is in the second native sector, all
    entries can be read, and their places fit in an [int] unless sectors hold whole entries. *)
Record gpt_disk (s : state (D := D)) (k : grub_disk) (log : Z) (h : grub_gpt_header) : Prop := mk_gpt_disk {
  gd_inside : inside k 0 512;
  gd_record : exists m, table_of s k 0 = Some m /\ signature m = GRUB_PC_PARTITION_SIGNATURE /\ protective m = true;
  gd_log : 0 <= log < MAX_SECTOR_LOG;
  gd_below : no_header_below s k log;
  gd_header : inside k (2 ^ log * 512) sizeof_header /\ header_at s k (2 ^ log) = h /\ magic h = grub_gpt_magic;
  gd_count : 0 <= maxpart h < 2 ^ 32;
  gd_size : 0 <= partentry_size h < 2 ^ 32;
  gd_entries : forall i, 0 <= i < maxpart h -> inside k (table_start log h * 512 + i * partentry_size h) sizeof_partentry;
  gd_int : aligned (partentry_size h) = true \/ maxpart h * partentry_size h < 2 ^ 31
}.

(** The partition of entry [i], if it is used. *)
Definition nth_partition (s : state (D := D)) (k : grub_disk) (log : Z) (h : grub_gpt_header) (i : Z) : option grub_partition :=
  let e := partentry_at s k (table_start log h * 512 + i * partentry_size h) in
  let c := cursor (partentry_size h) (table_start log h) i in
  if decide (pe_type e = grub_gpt_partition_type_empty) then None else Some (gpt_partition stale log i (fst c) (snd c) e).

Definition gpt_partitions (s : state (D := D)) (k : grub_disk) (log : Z) (h : grub_gpt_header) : list grub_partition :=
  omap (nth_partition s k log h) (seqZ 0 (maxpart h)).

Section Walk.
Context (k : grub_disk) (Hk : disk_ok k) (Hp : parts_ok (partition k)).

Lemma inside_limit a n : inside k a n -> a + n <= 2 ^ 60.
Proof.
  intros Hi. pose proof (within_limit _ _ _ _ Hp Hi). assert (disk_end k <= 2 ^ 51) by (unfold disk_end; lia).
  change (2 ^ 51) with 2251799813685248 in *. change (2 ^ 60) with 1152921504606846976. lia.
Qed.

(** A read in a calm world. *)
Lemma calm_read sector off n (w : world) : calm memory k w -> inside k (sector * 512 + off) n -> 0 <= sector -> 0 <= off -> 0 < n < 2 ^ 32 ->
  exists s, grub_disk_read memory k sector off n (disks w) = Some (ERR_NONE, bytes_at (disks w) k (sector * 512 + off) n, s) /\
    frame (disks w) s /\ grub_errno s = ERR_NONE.
Proof.
  intros [[Hs Hd] Hw He] Hi Hsec Hoff Hn. pose proof (inside_limit _ _ Hi) as Hl. change (2 ^ 60) with 1152921504606846976 in Hl.
  pose proof (Z.mod_pos_bound off 512 ltac:(lia)). pose proof (Z.mul_div_le off 512 ltac:(lia)).
  destruct (disk_read_spec memory k sector off n (disks w) Hs Hk Hp Hsec Hoff ltac:(lia) ltac:(pow2; lia) ltac:(pow2; lia) Hd) as (e & b & s & E & F & _ & Hr).
  unfold inside in Hi. rewrite Hi in Hr. destruct Hr as [Hok Hlive]. rewrite (Hlive Hw He) in *. destruct (Hok eq_refl) as [-> Es].
  by exists s.
Qed.

Lemma bytes_at_medium s s' a n : medium s' = medium s -> bytes_at s' k a n = bytes_at s k a n.
Proof. intros E. unfold bytes_at, disk_bytes. by rewrite E. Qed.

Lemma header_at_of s sector : header_of (bytes_at s k (sector * 512) sizeof_header) = Some (header_at s k sector).
Proof. unfold header_of, bytes_at. by rewrite zlen_bytes. Qed.

Lemma partentry_at_of s a : partentry_of (bytes_at s k a sizeof_partentry) = Some (partentry_at s k a).
Proof. unfold partentry_of, bytes_at. by rewrite zlen_bytes. Qed.

(** One try for the header. *)
Lemma try_header n j (w : world) : calm memory k w -> 0 <= j -> inside k (2 ^ j * 512) sizeof_header ->
  exists s, frame (disks w) s /\ grub_errno s = ERR_NONE /\
    find_header memory (S n) j k w =
      (if decide (magic (header_at (disks w) k (2 ^ j)) = grub_gpt_magic)
       then Some (inr (Some (j, header_at (disks w) k (2 ^ j))), set_disks s w) else find_header memory n (j + 1) k (set_disks s w)).
Proof.
  intros Hc Hj Hi. cbn [find_header]. rewrite Z.shiftl_1_l. pose proof (Z.pow_nonneg 2 j).
  destruct (calm_read (2 ^ j) 0 sizeof_header w Hc ltac:(by rewrite Z.add_0_r) ltac:(lia) ltac:(lia) ltac:(done)) as (s & -> & F & E).
  exists s. split; [done|]. split; [done|]. rewrite Z.add_0_r, bind_ret. cbv beta iota zeta. rewrite bool_decide_eq_true_2 by done. cbn [negb].
  by rewrite header_at_of, bind_ret.
Qed.
Lemma header_at_medium s s' sector : medium s' = medium s -> header_at s' k sector = header_at s k sector.
Proof. intros E. unfold header_at. by rewrite (bytes_at_medium s s'). Qed.

Lemma partentry_at_medium s s' a : medium s' = medium s -> partentry_at s' k a = partentry_at s k a.
Proof. intros E. unfold partentry_at. by rewrite (bytes_at_medium s s'). Qed.

(** The sizes without a header are passed. *)
Lemma pass_headers s0 m : forall n j (w : world), calm memory k w -> medium (disks w) = medium s0 -> 0 <= j -> no_header_below s0 k (j + Z.of_nat m) ->
  exists s, frame (disks w) s /\ grub_errno s = ERR_NONE /\
    find_header memory (m + n) j k w = find_header memory n (j + Z.of_nat m) k (set_disks s w).
Proof.
  induction m as [|m IH]; intros n j w Hc Em Hj Hn.
  { exists (disks w). split; [apply frame_refl, Hc|]. split; [apply Hc|]. rewrite Z.add_0_r. by destruct w. }
  destruct (Hn j ltac:(lia)) as [Hi Hm]. destruct (try_header (m + n) j w Hc Hj Hi) as (s & F & E & Ef).
  rewrite (header_at_medium s0) in Ef by done. rewrite decide_False in Ef by done.
  destruct (IH n (j + 1) (set_disks s w)) as (s' & F' & E' & Ef').
  - by apply calm_frame.
  - cbn. by rewrite (f_medium _ _ F).
  - lia.
  - by replace (j + 1 + Z.of_nat m) with (j + Z.of_nat (S m)) by lia.
  - exists s'. split; [by eapply frame_trans|]. split; [done|]. change (S m + n)%nat with (S (m + n)). rewrite Ef, Ef'. by replace (j + 1 + Z.of_nat m) with (j + Z.of_nat (S m)) by lia.
Qed.

(** The boot record, as the walk reads it. *)
Lemma read_record m (w : world) : calm memory k w -> inside k 0 512 -> table_of (disks w) k 0 = Some m ->
  exists b s, grub_disk_read memory k 0 0 sizeof_mbr (disks w) = Some (ERR_NONE, b, s) /\ frame (disks w) s /\ grub_errno s = ERR_NONE /\ mbr_of b = Some m.
Proof.
  intros Hc Hi Ht. destruct (calm_read 0 0 sizeof_mbr w Hc Hi ltac:(lia) ltac:(lia) ltac:(done)) as (s & E & F & Es). by exists (bytes_at (disks w) k (0 * 512 + 0) sizeof_mbr), s.
Qed.

(** ** The entries *)

Section Visits.
Context (hook : iterate_hook (D := D) (A := A)) (all : list grub_partition) (I : nat -> world -> Prop) (J : grub_disk -> world -> Prop).
Hypothesis (V : visiting memory k hook all I J).
Context (s0 : state (D := D)) (log : Z) (h : grub_gpt_header).
Hypothesis (G : gpt_disk s0 k log h) (Id : forall n w, I n w -> medium (disks w) = medium s0).

Lemma table_start_nonneg : 0 <= table_start log h.
Proof. apply (wrap_range 64). lia. Qed.

Lemma cursor_range i : 0 <= i < maxpart h ->
  0 <= fst (cursor (partentry_size h) (table_start log h) i) /\ 0 <= snd (cursor (partentry_size h) (table_start log h) i).
Proof.
  intros Hi. pose proof (gd_size _ _ _ _ G) as Hsz. pose proof table_start_nonneg as Ht0. unfold cursor. assert (0 <= i * partentry_size h) by nia.
  destruct (aligned _); cbn [fst snd]; [|lia].
  pose proof (Z.div_pos (i * partentry_size h) 512 ltac:(lia) ltac:(lia)). pose proof (Z.mod_pos_bound (i * partentry_size h) 512 ltac:(lia)). lia.
Qed.

Lemma partition_range i p : 0 <= i < maxpart h -> nth_partition s0 k log h i = Some p -> 0 <= offset p /\ 0 <= index p.
Proof. intros Hi E. unfold nth_partition in E. cbv zeta in E. destruct (decide _); [done|]. injection E as <-. by apply cursor_range. Qed.

(** One entry: it is read, and reported if it is used. *)
Lemma walk_entry n i pre rest (w : world) : 0 <= i < maxpart h -> all = pre ++ rest ->
  (forall p, nth_partition s0 k log h i = Some p -> exists rest', rest = p :: rest') -> I (length pre) w ->
  let c := cursor (partentry_size h) (table_start log h) i in
  exists stop k1 w1, (if (stop : bool) then J k1 w1 else k1 = k /\ I (length (pre ++ option_list (nth_partition s0 k log h i))) w1) /\
    walk_entries memory stale (S n) hook log (partentry_size h) i (fst c) (snd c) k w =
      (if stop then Some (grub_errno (disks w1), k1, w1) else
       let next := next_entry (partentry_size h) (fst c) (snd c) in
       walk_entries memory stale n hook log (partentry_size h) (u32 (i + 1)) (fst next) (snd next) k1 w1).
Proof.
  intros Hi Eall Hrest HI c. cbn [walk_entries]. pose proof (gd_entries _ _ _ _ G i Hi) as Hin. pose proof (gd_size _ _ _ _ G) as Hsz.
  pose proof (cursor_place (partentry_size h) (table_start log h) i) as Ep. pose proof (inside_limit _ _ Hin) as Hl. change (2 ^ 60) with 1152921504606846976 in Hl.
  destruct (cursor_range i Hi) as [Hc1 Hc2]. fold c in Hc1, Hc2. pose proof table_start_nonneg as Ht0.
  fold c in Ep. rewrite (wrap_small 64 (snd c)) by (unfold sizeof_partentry in *; pow2; lia).
  destruct (calm_read (fst c) (snd c) sizeof_partentry w (v_calm _ _ _ _ _ _ V _ _ HI) ltac:(by rewrite Ep) Hc1 Hc2 ltac:(done)) as (s & -> & F & Es).
  rewrite bind_ret. cbv beta iota zeta. rewrite bool_decide_eq_true_2 by done. cbn [negb]. rewrite partentry_at_of, bind_ret, Ep.
  rewrite (partentry_at_medium s0) by (by apply (Id _ _ HI)). set (w1 := set_disks s w).
  assert (I (length pre) w1) as HI1 by (by apply (v_frame _ _ _ _ _ _ V)).
  unfold nth_partition in *. fold c in Hrest |- *. cbv zeta in *. destruct (decide _) as [Ee|Ee].
  { exists false, k, w1. rewrite bind_ret. split; [|done]. split; [done|]. cbn [option_list]. by rewrite app_nil_r. }
  destruct (Hrest _ eq_refl) as (rest' & ->).
  destruct (v_hook _ _ _ _ _ _ V (length pre) (gpt_partition stale log i (fst c) (snd c) (partentry_at s0 k (table_start log h * 512 + i * partentry_size h))) w1)
    as (stop & k1 & w2 & -> & Hh); [|done|].
  { rewrite Eall. by apply list_lookup_middle. }
  exists stop, k1, w2. rewrite bind_ret. cbv beta iota. split; [|done]. destruct stop; [done|]. cbn [option_list]. rewrite length_app. cbn [length].
  by rewrite Nat.add_1_r.
Qed.

Lemma walk_entries_visits n : forall i pre (w : world), 0 <= i -> i + Z.of_nat n = maxpart h ->
  all = pre ++ omap (nth_partition s0 k log h) (seqZ i (Z.of_nat n)) -> I (length pre) w ->
  let c := cursor (partentry_size h) (table_start log h) i in
  exists e k' w', walk_entries memory stale n hook log (partentry_size h) i (fst c) (snd c) k w = Some (e, k', w') /\
    ((k' = k /\ e = ERR_NONE /\ I (length all) w') \/ (e = grub_errno (disks w') /\ J k' w')).
Proof.
  induction n as [|n IH]; intros i pre w Hi Hn Eall HI c.
  { exists ERR_NONE, k, w. split; [done|]. left. rewrite Eall. cbn. by rewrite app_nil_r. }
  replace (Z.of_nat (S n)) with (Z.succ (Z.of_nat n)) in Eall by lia. rewrite seqZ_cons in Eall by lia. rewrite Z.pred_succ in Eall. cbn [omap list_omap] in Eall.
  pose proof (gd_count _ _ _ _ G) as Hcount. pose proof (gd_size _ _ _ _ G) as Hsz. pose proof table_start_nonneg as Ht0.
  destruct (walk_entry n i pre _ w ltac:(lia) Eall) as (stop & k1 & w1 & Hs & Ew).
  { intros p Hpn. rewrite Hpn. by eexists. }
  { done. }
  fold c in Ew. rewrite Ew. destruct stop; [exists (grub_errno (disks w1)), k1, w1; split; [done|by right]|]. destruct Hs as [-> HI1]. cbv zeta.
  assert (maxpart h * partentry_size h < 2 ^ 31 -> (i + 1) * partentry_size h < 2 ^ 31) as Hmono by nia.
  pose proof (gd_entries _ _ _ _ G i ltac:(lia)) as Hin. apply inside_limit in Hin. unfold sizeof_partentry in Hin.
  subst c. rewrite next_entry_cursor; [|done|done|done|destruct (gd_int _ _ _ _ G); auto|].
  - rewrite (wrap_small 32 (i + 1)) by lia. apply (IH (i + 1) (pre ++ option_list (nth_partition s0 k log h i))); [lia|lia| |done].
    rewrite Eall, <- app_assoc. f_equal. change (i + 1) with (Z.succ i). by destruct (nth_partition s0 k log h i).
  - change (2 ^ 60) with 1152921504606846976 in Hin. change (2 ^ 63) with 9223372036854775808. pow2. lia.
Qed.
End Visits.
End Walk.
End Reports.
(** ** The map *)

Section Map.
Context {D : Type} `{DevicesOk D} {A : Type}.
Variable memory : nat -> Z -> bool * bool.
Variable stale : Z.
Abbreviation world := (world (D := D) (A := A)).

Definition gpt_lists (d : D) (k : grub_disk) (ps : list grub_partition) : Prop :=
  disk_ok k /\ parts_ok (partition k) /\ exists s log h, medium s = d /\ gpt_disk s k log h /\ ps = gpt_partitions stale s k log h.

(** The boot record does not stand for such a table, or there is no header at any size. *)
Definition gpt_rejects (d : D) (k : grub_disk) : Prop :=
  disk_ok k /\ parts_ok (partition k) /\ inside k 0 512 /\ exists s m, medium s = d /\ table_of s k 0 = Some m /\
    (signature m <> GRUB_PC_PARTITION_SIGNATURE \/ protective m = false \/ no_header_below s k MAX_SECTOR_LOG).

(** The walk up to the search for the header. *)
Lemma iterate_record k hook m (w : world) : disk_ok k -> parts_ok (partition k) -> calm memory k w -> inside k 0 512 -> table_of (disks w) k 0 = Some m ->
  exists s, frame (disks w) s /\ grub_errno s = ERR_NONE /\
    grub_gpt_partition_map_iterate memory stale k hook w =
      (if negb (signature m =? GRUB_PC_PARTITION_SIGNATURE) then bad_table k (set_disks s w) else
       if negb (protective m) then bad_table k (set_disks s w) else
       '(r, w) ← find_header memory (Z.to_nat MAX_SECTOR_LOG) 0 k (set_disks s w);
       match r with
       | inl e => Some (e, k, w)
       | inr None => bad_table k w
       | inr (Some (sector_log, gpt)) =>
           walk_entries memory stale (Z.to_nat (maxpart gpt)) hook sector_log (partentry_size gpt) 0 (table_start sector_log gpt) 0 k w
       end).
Proof.
  intros Hk Hp Hc Hi Ht. unfold grub_gpt_partition_map_iterate. destruct (read_record memory k Hk Hp m w Hc Hi Ht) as (b & s & -> & F & E & Em).
  exists s. split; [done|]. split; [done|]. rewrite bind_ret. cbv beta iota zeta. rewrite bool_decide_eq_true_2 by done. cbn [negb]. by rewrite Em, bind_ret.
Qed.

(** On a disk with such a table the walk visits its partitions. *)
Lemma iterate_visits k hook I J s0 log h (w : world) : disk_ok k -> parts_ok (partition k) -> gpt_disk s0 k log h -> medium (disks w) = medium s0 ->
  visiting memory k hook (gpt_partitions stale s0 k log h) I J -> I 0%nat w ->
  exists e k' w', grub_gpt_partition_map_iterate memory stale k hook w = Some (e, k', w') /\
    ((k' = k /\ e = ERR_NONE /\ I (length (gpt_partitions stale s0 k log h)) w') \/ (e = grub_errno (disks w') /\ J k' w')).
Proof.
  intros Hk Hp G Em V HI. pose proof (v_calm _ _ _ _ _ _ V _ _ HI) as Hc. destruct (gd_record _ _ _ _ G) as (m & Ht & Hsig & Hpro).
  rewrite <- (table_of_medium s0 (disks w)) in Ht by done.
  destruct (iterate_record k hook m w Hk Hp Hc (gd_inside _ _ _ _ G) Ht) as (s & F & E & ->).
  rewrite (proj2 (Z.eqb_eq _ _) Hsig), Hpro. cbn [negb]. pose proof (gd_log _ _ _ _ G) as Hlog. unfold MAX_SECTOR_LOG in *.
  pose proof (calm_frame _ _ _ _ Hc F E) as Hc1. destruct (gd_header _ _ _ _ G) as (Hin & Eh & Hm).
  pose proof (gd_below _ _ _ _ G) as Hbelow. replace log with (0 + Z.of_nat (Z.to_nat log)) in Hbelow by lia.
  replace (Z.to_nat 7) with (Z.to_nat log + S (Z.to_nat (6 - log)))%nat by lia. assert (medium (disks (set_disks s w)) = medium s0) as Em1.
  { cbn. by rewrite (f_medium _ _ F). }
  destruct (pass_headers memory k Hk Hp s0 (Z.to_nat log) (S (Z.to_nat (6 - log))) 0 (set_disks s w) Hc1 Em1 ltac:(lia) Hbelow) as (s' & F' & E' & ->).
  rewrite Z.add_0_l, Z2Nat.id by lia. pose proof (calm_frame _ _ _ _ Hc1 F' E') as Hc2.
  destruct (try_header memory k Hk Hp (Z.to_nat (6 - log)) log _ Hc2 ltac:(lia) Hin) as (s2 & F2 & E2 & ->).
  rewrite (header_at_medium k s0) by (cbn; by rewrite (f_medium _ _ F')). rewrite Eh, decide_True by done. rewrite bind_ret. cbv beta iota.
  pose proof (gd_count _ _ _ _ G).
  pose proof (walk_entries_visits memory stale k Hk Hp hook (gpt_partitions stale s0 k log h) I J V s0 log h G) as Hv.
  specialize (fun H => Hv H (Z.to_nat (maxpart h)) 0 [] (set_disks s2 (set_disks s' (set_disks s w)))). rewrite cursor_zero in Hv. apply Hv; clear Hv.
  - intros n w' Hw'. rewrite <- Em. by apply (v_medium _ _ _ _ _ _ V n 0%nat).
  - done.
  - lia.
  - cbn [app]. unfold gpt_partitions. by rewrite Z2Nat.id by lia.
  - apply (v_frame _ _ _ _ _ _ V 0%nat (set_disks s' (set_disks s w))); [|done|done].
    apply (v_frame _ _ _ _ _ _ V 0%nat (set_disks s w)); [|done|done]. by apply (v_frame _ _ _ _ _ _ V).
Qed.

Lemma gpt_lists_law k hook ps I J (w : world) : gpt_lists (medium (disks w)) k ps -> visiting memory k hook ps I J -> I 0%nat w ->
  exists e k' w', iterate (grub_gpt_partition_map memory stale) k hook w = Some (e, k', w') /\ ((k' = k /\ e = ERR_NONE /\ I (length ps) w') \/ J k' w').
Proof.
  intros (Hk & Hp & s & log & h & Em & G & ->) V HI.
  destruct (iterate_visits k hook I J s log h w Hk Hp G (eq_sym Em) V HI) as (e & k' & w' & E & Hr). exists e, k', w'. split; [done|].
  destruct Hr as [|[_ ?]]; [by left|by right].
Qed.

Lemma iterate_rejects k hook (w : world) : gpt_rejects (medium (disks w)) k -> calm memory k w ->
  exists s, grub_gpt_partition_map_iterate memory stale k hook w = Some (ERR_BAD_PART_TABLE, k, set_disks s w) /\ frame (disks w) s /\ grub_errno s = ERR_BAD_PART_TABLE.
Proof.
  intros (Hk & Hp & Hi & s0 & m & Em & Ht & Hbad) Hc. rewrite <- (table_of_medium s0 (disks w)) in Ht by done.
  assert (forall s, frame (disks w) s -> exists s', bad_table (D := D) (A := A) k (set_disks s w) = Some (ERR_BAD_PART_TABLE, k, set_disks s' w) /\ frame (disks w) s' /\
    grub_errno s' = ERR_BAD_PART_TABLE) as Hb.
  { intros s F. eexists. split; [done|]. split; [|done]. eapply frame_trans; [exact F|]. apply set_errno_frame, F. }
  destruct (iterate_record k hook m w Hk Hp Hc Hi Ht) as (s & F & E & ->).
  destruct (Z.eqb_spec (signature m) GRUB_PC_PARTITION_SIGNATURE) as [Es|]; cbn [negb]; [|by apply Hb].
  destruct (protective m) eqn:Epro; cbn [negb]; [|by apply Hb]. destruct Hbad as [|[|Hn]]; [done|done|].
  assert (calm memory k (set_disks s w)) as Hc1 by (by apply calm_frame).
  destruct (pass_headers memory k Hk Hp s0 (Z.to_nat MAX_SECTOR_LOG) 0 0 (set_disks s w) Hc1) as (s' & F' & E' & Ef).
  - cbn. by rewrite (f_medium _ _ F).
  - done.
  - exact Hn.
  - rewrite Nat.add_0_r in Ef. rewrite Ef. cbn [find_header]. rewrite bind_ret. cbv beta iota. apply (Hb s'). by eapply frame_trans.
Qed.

Lemma gpt_rejects_law k hook (w : world) : gpt_rejects (medium (disks w)) k -> calm memory k w ->
  exists s, iterate (grub_gpt_partition_map memory stale) k hook w = Some (ERR_BAD_PART_TABLE, k, set_disks s w) /\ frame (disks w) s /\ grub_errno s = ERR_BAD_PART_TABLE.
Proof. apply iterate_rejects. Qed.

#[export] Instance gpt_map_ok : MapOk memory (grub_gpt_partition_map (D := D) (A := A) memory stale) :=
  {| lists := gpt_lists; rejects := gpt_rejects; lists_law := gpt_lists_law; rejects_law := gpt_rejects_law |}.

(** The map of the PC leaves such disks alone. *)
Lemma gpt_msdos_rejects d k ps : gpt_lists d k ps -> not_nested k -> msdos_rejects d k.
Proof.
  intros (Hk & Hp & s & log & h & Em & G & _) Hn. destruct (gd_record _ _ _ _ G) as (m & Ht & _ & Hpro).
  split; [done|]. split; [done|]. right. split; [done|]. split; [exact (gd_inside _ _ _ _ G)|]. exists s, m. split; [done|]. split; [done|]. by left.
Qed.
End Map.
(** Where the partitions of a table stand. *)
Lemma gpt_partition_place {D} `{DevicesOk D} stale (s : state (D := D)) k log h p : p ∈ gpt_partitions stale s k log h ->
  exists i, 0 <= i < maxpart h /\ nth_partition stale s k log h i = Some p /\
    offset p * 512 + index p = table_start log h * 512 + i * partentry_size h.
Proof.
  intros Hp. apply list_elem_of_omap in Hp as (i & Hi & E). apply elem_of_seqZ in Hi. exists i. split; [lia|]. split; [done|].
  unfold nth_partition in E. cbv zeta in E. destruct (decide _); [done|]. injection E as <-. cbn [offset index gpt_partition]. apply cursor_place.
Qed.

(** C14: On a disk with a GUID partition table, in whatever size of native sectors up to 32 kilobytes,
    the walk ends without an error and reports exactly the used entries of the table, in order:
    entry [i] is the one [i] times the size of an entry after the start of the table, also when
    entries do not fill whole sectors, its number is [i], and its start and length are those of the
    entry in sectors of 512 bytes. *)
Theorem gpt_reports_partitions {D} `{DevicesOk D} memory stale k log h (w : world (D := D) (A := list grub_partition)) :
  disk_ok k -> parts_ok (partition k) -> calm memory k w -> gpt_disk (disks w) k log h ->
  exists w', grub_gpt_partition_map_iterate memory stale k collect w = Some (ERR_NONE, k, w') /\ medium (disks w') = medium (disks w) /\
    user w' = user w ++ omap (nth_partition stale (disks w) k log h) (seqZ 0 (maxpart h)).
Proof.
  intros Hk Hp Hc G.
  destruct (iterate_visits memory stale k collect _ (fun _ _ => False) (disks w) log h w Hk Hp G eq_refl
    (collect_visits memory k (gpt_partitions stale (disks w) k log h) w)) as (e & k' & w' & -> & [(-> & -> & _ & Em & Eu)|[_ []]]).
  - by apply remembered_none.
  - exists w'. split; [done|]. split; [done|]. by rewrite Eu, firstn_all.
Qed.

(** * What embedding finds *)

Section Embedding.
Context {D : Type} `{DevicesOk D}.
Variable memory : nat -> Z -> bool * bool.
Variable stale : Z.
Abbreviation world := (world (D := D) (A := Z * Z)).

(** A partition that is meant for the boot loader. *)
Definition boots (s : state (D := D)) (k : grub_disk) (p : grub_partition) : Prop :=
  pe_type (partentry_at s k (offset p * 512 + index p)) = grub_gpt_partition_type_bios_boot.

#[export] Instance boots_dec s k p : Decision (boots s k p).
Proof. unfold boots. apply _. Defined.

Definition boot_partition (s : state (D := D)) (k : grub_disk) (ps : list grub_partition) : option grub_partition :=
  snd <$> list_find (boots s k) ps.

(** While none was found, and when one was. *)
Definition seeking (k : grub_disk) (ps : list grub_partition) (w : world) (n : nat) (w' : world) : Prop :=
  calm memory k w' /\ medium (disks w') = medium (disks w) /\ user w' = (0, 0) /\
  forall j p, (j < n)%nat -> ps !! j = Some p -> ~ boots (disks w) k p.
Definition seen (k : grub_disk) (ps : list grub_partition) (w : world) (k' : grub_disk) (w' : world) : Prop :=
  k' = k /\ calm memory k w' /\ medium (disks w') = medium (disks w) /\
  exists p, boot_partition (disks w) k ps = Some p /\ user w' = (start p, len p).

Lemma calm_set_user c k (w : world) : calm memory k w -> calm memory k (set_user c w).
Proof. by intros [[? ?] ? ?]. Qed.

Lemma find_region_visits k log h (w : world) : disk_ok k -> parts_ok (partition k) -> gpt_disk (disks w) k log h ->
  let ps := gpt_partitions stale (disks w) k log h in
  visiting memory k (find_usable_region memory) ps (seeking k ps w) (seen k ps w).
Proof.
  intros Hk Hp G ps. split.
  - by intros n w' [].
  - by intros n n' w1 w2 (_ & -> & _) (_ & -> & _).
  - intros n w' s (Hc & Em & Hu) F E. split; [by apply calm_frame|]. split; [|done]. cbn. by rewrite (f_medium _ _ F).
  - intros n p w' Hn (Hc & Em & Eu & Hno). unfold find_usable_region. pose proof (list_elem_of_lookup_2 _ _ _ Hn) as Hel.
    destruct (gpt_partition_place stale (disks w) k log h p Hel) as (i & Hi & Enth & Epl). pose proof (gd_entries _ _ _ _ G i Hi) as Hin. rewrite <- Epl in Hin.
    destruct (partition_range stale k (disks w) log h G i p Hi Enth) as [Ho Hx].
    pose proof (inside_limit k Hp _ _ Hin) as Hl. change (2 ^ 60) with 1152921504606846976 in Hl. unfold sizeof_partentry in Hl.
    rewrite (wrap_small 64 (index p)) by (pow2; lia).
    destruct (calm_read memory k Hk Hp (offset p) (index p) sizeof_partentry w' Hc Hin Ho Hx ltac:(done)) as (s & -> & F & E).
    rewrite bind_ret. cbv beta iota zeta. rewrite bool_decide_eq_true_2 by done. cbn [negb]. rewrite partentry_at_of, bind_ret.
    rewrite (partentry_at_medium k (disks w)) by done. assert (calm memory k (set_disks s w')) as Hc1 by (by apply calm_frame).
    assert (medium (disks (set_disks s w')) = medium (disks w)) as Em1 by (cbn; by rewrite (f_medium _ _ F)).
    destruct (decide _) as [Eb|Eb]; eexists _, _, _; (split; [done|]).
    + split; [done|]. split; [by apply calm_set_user|]. split; [done|]. exists p. split; [|done]. unfold boot_partition.
      assert (list_find (boots (disks w) k) ps = Some (n, p)) as ->; [|done]. apply list_find_Some. split; [done|]. split; [done|].
      intros j y Hy Hj. by apply (Hno j y).
    + split; [done|]. split; [done|]. split; [done|]. split; [done|]. intros j q Hj Hq. destruct (decide (j = n)) as [->|]; [|apply (Hno j); [lia|done]].
      rewrite Hn in Hq. by injection Hq as <-.
Qed.
(** What embedding makes of the partition that was found. *)
Definition embedded (wanted max_nsectors : Z) (found : option grub_partition) : embedding :=
  match found with
  | None => mk_embedding ERR_FILE_NOT_FOUND wanted None false
  | Some p =>
      let warn := len p <? GRUB_MIN_RECOMMENDED_MBR_GAP in
      if len p =? 0 then mk_embedding ERR_FILE_NOT_FOUND wanted None false
      else if len p <? wanted then mk_embedding ERR_OUT_OF_RANGE wanted None warn
      else let n := Z.min max_nsectors (u32 (len p)) in
           mk_embedding ERR_NONE n (Some ((fun i => u64 (start p + i)) <$> seqZ 0 n)) warn
  end.

Lemma embed_spec k log h wanted max_nsectors (w : world) : disk_ok k -> parts_ok (partition k) -> calm memory k w -> gpt_disk (disks w) k log h ->
  exists w', gpt_partition_map_embed memory stale k wanted max_nsectors GRUB_EMBED_PCBIOS w =
    Some (embedded wanted max_nsectors (boot_partition (disks w) k (gpt_partitions stale (disks w) k log h)), k, w') /\
    medium (disks w') = medium (disks w).
Proof.
  intros Hk Hp Hc G. unfold gpt_partition_map_embed. change (GRUB_EMBED_PCBIOS =? GRUB_EMBED_PCBIOS) with true. cbn [negb].
  set (ps := gpt_partitions stale (disks w) k log h). pose proof (calm_set_user (0, 0) k w Hc) as Hc0.
  destruct (iterate_visits memory stale k (find_usable_region memory) _ _ (disks w) log h (set_user (0, 0) w) Hk Hp G eq_refl
    (find_region_visits k log h w Hk Hp G)) as (e & k' & w' & -> & Hr).
  { split; [done|]. split; [done|]. split; [done|]. intros j p Hj. lia. }
  rewrite bind_ret. cbv beta iota. fold ps in Hr. destruct Hr as [(-> & -> & _ & Em & Eu & Hno)|(-> & -> & Hc' & Em & p & Ep & Eu)].
  - rewrite bool_decide_eq_true_2 by done. rewrite Eu. assert (boot_partition (disks w) k ps = None) as ->.
    { unfold boot_partition. destruct (list_find _ ps) as [[n p]|] eqn:El; [|done]. apply list_find_Some in El as (Hn & Hb & _).
      exfalso. apply (Hno n p); [by eapply lookup_lt_Some|done|done]. }
    eexists. by split.
  - rewrite (cm_errno _ _ _ Hc'). rewrite bool_decide_eq_true_2 by done. rewrite Eu, Ep. unfold embedded. cbn [negb]. cbv zeta.
    destruct (len p =? 0); [eexists; by split|]. destruct (len p <? wanted); [eexists; by split|].
    replace (if max_nsectors <? u32 (len p) then max_nsectors else u32 (len p)) with (Z.min max_nsectors (u32 (len p)))
      by (destruct (Z.ltb_spec max_nsectors (u32 (len p))); lia).
    set (n := Z.min _ _). pose proof (proj1 (cm_well _ _ _ Hc') (clock (disks w')) (n * 8)) as Hok. unfold malloc.
    destruct (memory (clock (disks w')) (n * 8)) as [ok dropped]. cbn [fst] in Hok. subst ok. eexists. split; [done|]. cbn. by destruct dropped.
Qed.
End Embedding.
Lemma boot_partition_in {D} `{DevicesOk D} (s : state (D := D)) k ps p : boot_partition s k ps = Some p -> p ∈ ps.
Proof.
  unfold boot_partition. destruct (list_find _ ps) as [[n q]|] eqn:E; [|done]. intros [= <-]. apply list_find_Some in E as (Hn & _).
  by eapply list_elem_of_lookup_2.
Qed.

(** The length of a partition, as the walk reports it. *)
Lemma gpt_partition_range {D} `{DevicesOk D} stale (s : state (D := D)) k log h p : p ∈ gpt_partitions stale s k log h ->
  0 <= start p < 2 ^ 64 /\ 0 <= len p < 2 ^ 64.
Proof.
  intros Hp. destruct (gpt_partition_place stale s k log h p Hp) as (i & _ & E & _). unfold nth_partition in E. cbv zeta in E. destruct (decide _); [done|].
  injection E as <-. cbn [start len gpt_partition]. split; apply (wrap_range 64); lia.
Qed.

(** The boot loader is embedded in the first partition of the table whose type says that it is
    meant for it, and nowhere else: if that has the sectors that are wanted, fewer than 2^32, the
    sectors that are returned are its first ones, as many as it has and at most as many as allowed,
    never fewer than wanted; a smaller one, and a table without one, are reported as errors.  No
    disk is written. *)
Theorem gpt_embed_correct {D} `{DevicesOk D} memory stale k log h wanted max_nsectors (w : world (D := D) (A := Z * Z)) :
  disk_ok k -> parts_ok (partition k) -> calm memory k w -> gpt_disk (disks w) k log h -> 0 <= wanted <= max_nsectors ->
  (forall p, boot_partition (disks w) k (gpt_partitions stale (disks w) k log h) = Some p -> len p < 2 ^ 32 /\ start p + len p <= 2 ^ 64) ->
  exists em w', gpt_partition_map_embed memory stale k wanted max_nsectors GRUB_EMBED_PCBIOS w = Some (em, k, w') /\
    medium (disks w') = medium (disks w) /\
    match boot_partition (disks w) k (gpt_partitions stale (disks w) k log h) with
    | Some p =>
        if (len p =? 0) then em_err em = ERR_FILE_NOT_FOUND
        else if len p <? wanted then em_err em = ERR_OUT_OF_RANGE
        else em_err em = ERR_NONE /\ nsectors em = Z.min max_nsectors (len p) /\ wanted <= nsectors em /\
             sectors em = Some (seqZ (start p) (nsectors em))
    | None => em_err em = ERR_FILE_NOT_FOUND
    end.
Proof.
  intros Hk Hp Hc G Hw Hsmall. destruct (embed_spec memory stale k log h wanted max_nsectors w Hk Hp Hc G) as (w' & -> & Em).
  eexists _, w'. split; [done|]. split; [done|]. destruct (boot_partition _ _ _) as [p|] eqn:Ep; [|done]. unfold embedded.
  destruct (Hsmall p eq_refl) as [Hl Hend]. pose proof (gpt_partition_range stale _ _ _ _ _ (boot_partition_in _ _ _ _ Ep)) as [Hs Hl0].
  destruct (len p =? 0); [done|]. destruct (Z.ltb_spec (len p) wanted); [done|]. cbv zeta. cbn [em_err nsectors sectors].
  rewrite (wrap_small 32 (len p)) by lia. split; [done|]. split; [done|]. split; [lia|]. f_equal.
  set (n := Z.min _ _). replace (seqZ (start p) n) with (Z.add (start p) <$> seqZ 0 n) by (by rewrite fmap_add_seqZ, Z.add_0_r). apply list_fmap_ext. intros i x Hx. apply lookup_seqZ in Hx as [-> Hi]. apply wrap_small. lia.
Qed.

(** ** Examples *)

(** The bytes of a header and of an entry, with small numbers. *)
Definition at_place (a : Z) (l : list Z) : list (Z * Z) := imap (fun i x => (a + Z.of_nat i, x)) l.
Definition header_bytes (sector table count size : Z) : list (Z * Z) :=
  at_place (sector * 512) grub_gpt_magic ++ [(sector * 512 + 72, table); (sector * 512 + 80, count); (sector * 512 + 84, size)].
Definition partentry_bytes (a : Z) (type : list Z) (first last : Z) : list (Z * Z) := at_place a type ++ [(a + 32, first); (a + 40, last)].
Definition linux_type : list Z := replicate 16 0xaf.

(** A disk with native sectors of 4096 bytes and entries of 192 bytes: the header is in sector 8 of
    512 bytes, the table from sector 16 on. *)
Definition gpt_medium : ram := sparse (signed 0 ++ entry_bytes 0 0 0xee 1 200 ++ header_bytes 8 2 5 192 ++
  partentry_bytes 8192 linux_type 6 9 ++ partentry_bytes (8192 + 3 * 192) grub_gpt_partition_type_bios_boot 20 23 ++
  partentry_bytes (8192 + 4 * 192) linux_type 30 49).
Definition gpt_example_header : grub_gpt_header := mk_header grub_gpt_magic 2 5 192.

Lemma gpt_example {A} (u : A) : gpt_disk (disks (mk_world (fresh gpt_medium) 0 false None u)) pc 3 gpt_example_header.
Proof.
  split; cbn [disks].
  - vm_compute. reflexivity.
  - eexists. split; [vm_compute; reflexivity|]. split; vm_compute; reflexivity.
  - unfold MAX_SECTOR_LOG. lia.
  - intros j Hj. assert (j = 0 \/ j = 1 \/ j = 2) as [-> | [-> | ->]] by lia; (split; [vm_compute; reflexivity|vm_compute; discriminate]).
  - split; [vm_compute; reflexivity|]. split; vm_compute; reflexivity.
  - cbn. lia.
  - cbn. lia.
  - cbn [maxpart gpt_example_header]. intros i Hi.
    assert (i = 0 \/ i = 1 \/ i = 2 \/ i = 3 \/ i = 4) as [-> | [-> | [-> | [-> | ->]]]] by lia; vm_compute; reflexivity.
  - right. cbn. lia.
Qed.

Lemma gpt_calm {A} (u : A) d : calm plenty pc (mk_world (fresh d) 0 false None u).
Proof. destruct (start_calm d) as [[? ?] ? ?]. by split. Qed.

Lemma gpt_reports_partitions_witness : exists w',
  grub_gpt_partition_map_iterate plenty 0 pc collect (start_world gpt_medium) = Some (ERR_NONE, pc, w') /\
  (fun p => (number p, start p, len p, (offset p, index p))) <$> user w' =
    [(0, 48, 32, (16, 0)); (3, 160, 32, (16, 576)); (4, 240, 160, (16, 768))].
Proof.
  destruct (gpt_reports_partitions plenty 0 pc 3 gpt_example_header (start_world gpt_medium) pc_ok (Forall_nil_2 _) (gpt_calm [] gpt_medium) (gpt_example []))
    as (w' & E & _ & Eu).
  exists w'. split; [exact E|]. rewrite Eu. vm_compute. reflexivity.
Defined.

(** The partition that is found. *)
Definition gpt_boot : grub_partition := mk_partition 3 160 32 16 576 gpt_name 0.

Lemma gpt_boot_found {A} (u : A) : let s := disks (mk_world (fresh gpt_medium) 0 false None u) in
  boot_partition s pc (gpt_partitions 0 s pc 3 gpt_example_header) = Some gpt_boot.
Proof. vm_compute. reflexivity. Qed.

Lemma gpt_embed_correct_witness : exists em w',
  gpt_partition_map_embed plenty 0 pc 20 30 GRUB_EMBED_PCBIOS (mk_world (fresh gpt_medium) 0 false None (0, 0)) = Some (em, pc, w') /\
  em_err em = ERR_NONE /\ nsectors em = 30 /\ sectors em = Some (seqZ 160 30).
Proof.
  destruct (gpt_embed_correct plenty 0 pc 3 gpt_example_header 20 30 (mk_world (fresh gpt_medium) 0 false None (0, 0)) pc_ok (Forall_nil_2 _)
    (gpt_calm (0, 0) gpt_medium) (gpt_example (0, 0)) ltac:(lia)) as (em & w' & E & _ & Hr).
  - rewrite gpt_boot_found. intros p [= <-]. cbn. lia.
  - rewrite gpt_boot_found in Hr. change (len gpt_boot) with 32 in Hr. change (start gpt_boot) with 160 in Hr.
    change (32 =? 0) with false in Hr. change (32 <? 20) with false in Hr. cbv iota in Hr. destruct Hr as (He & Hn & _ & Hs).
    exists em, w'. split; [exact E|]. split; [exact He|]. split; [exact Hn|]. rewrite Hn in Hs. exact Hs.
Defined.

(** The number of sectors of a partition is cut to 32 bits: one of 2^32 + 8 sectors counts as eight,
    and embedding sixty sectors in it succeeds with eight. *)
Definition huge_medium : ram := sparse (signed 0 ++ entry_bytes 0 0 0xee 1 200 ++ header_bytes 1 2 4 128 ++
  partentry_bytes 1024 grub_gpt_partition_type_bios_boot 40 47 ++ [(1024 + 44, 1)]).

Definition huge_header : grub_gpt_header := mk_header grub_gpt_magic 2 4 128.

Lemma huge_disk {A} (u : A) : gpt_disk (disks (mk_world (fresh huge_medium) 0 false None u)) pc 0 huge_header.
Proof.
  split; cbn [disks].
  - vm_compute. reflexivity.
  - eexists. split; [vm_compute; reflexivity|]. split; vm_compute; reflexivity.
  - unfold MAX_SECTOR_LOG. lia.
  - intros j Hj. lia.
  - split; [vm_compute; reflexivity|]. split; vm_compute; reflexivity.
  - cbn. lia.
  - cbn. lia.
  - cbn [maxpart huge_header]. intros i Hi. assert (i = 0 \/ i = 1 \/ i = 2 \/ i = 3) as [-> | [-> | [-> | ->]]] by lia; vm_compute; reflexivity.
  - left. reflexivity.
Qed.

Theorem gpt_embed_truncates_length : exists w',
  gpt_partition_map_embed plenty 0 pc 60 100 GRUB_EMBED_PCBIOS (mk_world (fresh huge_medium) 0 false None (0, 0)) =
    Some (mk_embedding ERR_NONE 8 (Some (seqZ 40 8)) false, pc, w').
Proof.
  set (w := mk_world _ _ _ _ _). destruct (embed_spec plenty 0 pc 0 huge_header 60 100 w pc_ok (Forall_nil_2 _) (gpt_calm (0, 0) huge_medium) (huge_disk (0, 0)))
    as (w' & E & _).
  exists w'. by rewrite E.
Qed.

(** Sectors of 64 kilobytes are not tried: a table on such a disk is not found. *)
Definition wide_medium : ram := sparse (signed 0 ++ entry_bytes 0 0 0xee 1 200 ++ header_bytes 128 2 4 128 ++ partentry_bytes 131072 linux_type 3 4).

Theorem gpt_64k_sectors_not_found : magic (header_at (fresh wide_medium) pc (2 ^ 7)) = grub_gpt_magic /\
  exists w', grub_gpt_partition_map_iterate plenty 0 pc collect (start_world wide_medium) = Some (ERR_BAD_PART_TABLE, pc, w') /\ user w' = [].
Proof.
  split; [vm_compute; reflexivity|].
  assert (gpt_rejects (medium (disks (start_world wide_medium))) pc) as Hr.
  { split; [apply pc_ok|]. split; [constructor|]. split; [vm_compute; reflexivity|]. exists (fresh wide_medium). eexists. split; [reflexivity|].
    split; [vm_compute; reflexivity|]. right. right. intros j Hj. unfold MAX_SECTOR_LOG in Hj.
    assert (j = 0 \/ j = 1 \/ j = 2 \/ j = 3 \/ j = 4 \/ j = 5 \/ j = 6) as [-> | [-> | [-> | [-> | [-> | [-> | ->]]]]]] by lia;
      (split; [vm_compute; reflexivity|vm_compute; discriminate]). }
  destruct (iterate_rejects plenty 0 pc collect (start_world wide_medium) Hr (start_calm wide_medium)) as (s & E & _).
  exists (set_disks s (start_world wide_medium)). split; [exact E|reflexivity].
Qed.

(** Both maps together: the names of partitions lead through the map of the PC, which rejects the
    disk, to those of this one. *)
Definition gpt_map : lawful (D := ram) (A := list grub_partition) plenty := mk_lawful plenty (grub_gpt_partition_map plenty 0) (gpt_map_ok plenty 0).

Lemma gpt_example_lists : lists plenty (MapOk := lm_ok plenty gpt_map) gpt_medium pc (gpt_partitions 0 (fresh gpt_medium) pc 3 gpt_example_header).
Proof. split; [apply pc_ok|]. split; [constructor|]. exists (fresh gpt_medium), 3, gpt_example_header. split; [done|]. split; [exact (gpt_example ())|done]. Qed.

Lemma gpt_example_msdos : rejects plenty (MapOk := lm_ok plenty pc_map) gpt_medium pc.
Proof. eapply (gpt_msdos_rejects (D := ram) 0); [exact gpt_example_lists|]. by intros p ps. Qed.

End GrubGpt.
