(* ===== verification/GrubMsdosEmbed.v ===== *)
(** Embedding the boot loader in front of the partitions of the PC (src/grub/grub-core/partmap/msdos.c,
    [pc_partition_map_embed]): the end of the gap after the boot record, over all the tables of the
    disk, and the choice of sectors in it that no other software uses. *)

From Stdlib Require Import Sorting.Sorted.
From S2P Require Import Prelude GrubStr GrubDisk GrubPartition GrubMsdos GrubGpt.

Module GrubMsdosEmbed.
Import GrubStr GrubDisk GrubPartition GrubMsdos.

Inductive signature_type := TYPE_SOFTWARE | TYPE_RAID.

Record embed_signature := mk_signature { sig_name : list Z; sig_bytes : list Z; sig_type : signature_type }.

Definition embed_signatures : list embed_signature := [
  mk_signature (chars "ZISD") (chars "ZISD") TYPE_SOFTWARE;
  mk_signature (chars "FlexNet") [0xd4; 0x41; 0xa0; 0xf5; 0x03; 0x00; 0x03; 0x00] TYPE_SOFTWARE;
  mk_signature (chars "FlexNet") [0xd8; 0x41; 0xa0; 0xf5; 0x02; 0x00; 0x02; 0x00] TYPE_SOFTWARE;
  mk_signature (chars "HP Backup and Recovery Manager (?)")
    [0x70; 0x8a; 0x5d; 0x46; 0x35; 0xc5; 0x1b; 0x93; 0xae; 0x3d; 0x86; 0xfd; 0xb1; 0x55; 0x3e; 0xe0] TYPE_SOFTWARE;
  mk_signature (chars "HighPoint RAID controller") (chars "ycgl") TYPE_RAID;
  mk_signature (chars "Acer registration utility (?)") (chars "GREGRegDone.Tag" ++ [0]) TYPE_SOFTWARE ].

(** The signature at the start of a sector. *)
Definition signed_by (b : list Z) : option embed_signature :=
  snd <$> list_find (fun g => take (length (sig_bytes g)) b = sig_bytes g) embed_signatures.

(** What embedding returns: the error, the number of sectors, the sectors, the warnings about sectors
    that are in use, and whether it warned of a short gap. *)
Record pc_embedding := mk_pc_embedding {
  pe_err : grub_err_t;
  pe_nsectors : Z;
  pe_sectors : option (list Z);
  pe_used : list (Z * embed_signature);
  pe_short : bool
}.

(** The end of the gap, lowered by an entry. *)
Definition lower_end (k : grub_disk) (offset end_ : Z) (e : msdos_entry) : Z :=
  let first := u64 (offset + Z.shiftl (e_start e) (log_sector_size k - GRUB_DISK_SECTOR_BITS)) in
  if negb (grub_msdos_partition_is_empty (e_type e)) && (first <? end_) then first else end_.

(** The first entry of a table that is a dummy. *)
Definition dummy (es : list msdos_entry) : bool :=
  match es with
  | e :: _ => e_type e =? GRUB_PC_PARTITION_TYPE_GPT_DISK
  | [] => false
  end.

(** [sectors\[j\]++] for [i <= j < n]. *)
Definition bump (i n : Z) (l : list Z) : list Z :=
  imap (fun j x => if (i <=? Z.of_nat j) && (Z.of_nat j <? n) then u64 (x + 1) else x) l.

(** The arrays and counters of the choice. *)
Record choice := mk_choice { ch_sectors : list Z; ch_nsectors : Z; ch_avail : Z; ch_used : list (Z * embed_signature) }.

Section Embed.
Context {D : Type} `{Devices D} {A : Type}.
Variable memory : nat -> Z -> bool * bool.
Abbreviation world := (world (D := D) (A := A)).

Definition bad_gap (e : grub_err_t) (w : world) : option ((grub_err_t + Z) * world) := Some (inl e, raise_error e w).

(** The end of the gap, or an error. *)
Fixpoint gap_loop (fuel : nat) (v : walk) (end_ : Z) (k : grub_disk) (w : world) : option ((grub_err_t + Z) * world) :=
  match fuel with
  | O => None
  | S fuel =>
      '(err, b, s) ← grub_disk_read memory k (p_offset v) 0 sizeof_mbr (disks w);
      let w := set_disks s w in
      if negb (bool_decide (err = ERR_NONE)) then Some (inl err, w) else
      mbr ← mbr_of b;
      if negb (labeln v =? 0) && (lastaddr v =? p_offset v) then bad_gap ERR_BAD_PART_TABLE w else
      let n := s32 (labeln v + 1) in
      let last := if Z.land n (n - 1) =? 0 then p_offset v else lastaddr v in
      if negb (signature mbr =? GRUB_PC_PARTITION_SIGNATURE) then bad_gap ERR_BAD_PART_TABLE w else
      if existsb (fun e => negb (Z.land (e_flag e) 0x7f =? 0)) (entries mbr) then bad_gap ERR_BAD_PART_TABLE w else
      let end_ := fold_left (lower_end k (p_offset v)) (entries mbr) end_ in
      if dummy (entries mbr) then bad_gap ERR_BAD_PART_TABLE w else
      match find_extended (entries mbr) with
      | None => Some (inr end_, w)
      | Some e =>
          let offset := u64 (ext_offset v + Z.shiftl (e_start e) (log_sector_size k - GRUB_DISK_SECTOR_BITS)) in
          gap_loop fuel (mk_walk offset (if ext_offset v =? 0 then offset else ext_offset v) (p_number v) n last) end_ k w
      end
  end.

(** The sectors from index [i] on, without those that are in use. *)
Fixpoint choose (fuel : nat) (wanted i : Z) (c : choice) (k : grub_disk) (w : world) : option (choice * world) :=
  if negb (i <? ch_nsectors c) then Some (c, w) else
  match fuel with
  | O => None
  | S fuel =>
      x ← ch_sectors c !! Z.to_nat i;
      '(err, b, s) ← grub_disk_read memory k x 0 GRUB_DISK_SECTOR_SIZE (disks w);
      let w := set_disks s w in
      if negb (bool_decide (err = ERR_NONE)) then choose fuel wanted (i + 1) c k w else
      match signed_by b with
      | None => choose fuel wanted (i + 1) c k w
      | Some g =>
          let avail := u32 (ch_avail c - 1) in
          let n := if avail <? ch_nsectors c then avail else ch_nsectors c in
          let c := mk_choice (bump i n (ch_sectors c)) n avail (ch_used c ++ [(x, g)]) in
          if avail <? wanted then Some (c, w) else choose fuel wanted i c k w
      end
  end.

Definition pc_error (e : grub_err_t) (wanted : Z) (short : bool) (w : world) : option (pc_embedding * world) :=
  Some (mk_pc_embedding e wanted None [] short, raise_error e w).

(** When the gap ends at [end_]. *)
Definition embed_in_gap (k : grub_disk) (wanted max_nsectors end_ : Z) (w : world) : option (pc_embedding * world) :=
  let avail := u32 (end_ - 1) in
  let n := if max_nsectors <? avail then max_nsectors else avail in
  let '(ok, s) := malloc memory (n * 8) (disks w) in
  let w := set_disks s w in
  if negb ok then Some (mk_pc_embedding (grub_errno (disks w)) n None [] false, w) else
  let l := (fun i => 1 + i) <$> seqZ 0 n in
  let '(ok, s) := malloc memory GRUB_DISK_SECTOR_SIZE (disks w) in
  let w := set_disks s w in
  if negb ok then Some (mk_pc_embedding (grub_errno (disks w)) n (Some l) [] false, w) else
  '(c, w) ← choose (S (Z.to_nat (n + avail))) wanted 0 (mk_choice l n avail []) k w;
  if ch_nsectors c <? wanted
  then Some (mk_pc_embedding ERR_OUT_OF_RANGE (ch_nsectors c) (Some (ch_sectors c)) (ch_used c) false, raise_error ERR_OUT_OF_RANGE w)
  else Some (mk_pc_embedding ERR_NONE (ch_nsectors c) (Some (ch_sectors c)) (ch_used c) false, w).

Definition pc_partition_map_embed (k : grub_disk) (wanted max_nsectors embed_type : Z) (warn_short : bool) (w : world) : option (pc_embedding * world) :=
  if negb (embed_type =? GrubGpt.GRUB_EMBED_PCBIOS) then pc_error ERR_NOT_IMPLEMENTED_YET wanted false w else
  if negb (bool_decide (partition k = [])) then pc_error ERR_OUT_OF_RANGE wanted false w else
  '(r, w) ← gap_loop (table_fuel k) first_walk (2 ^ 64 - 1) k w;
  match r with
  | inl e => Some (mk_pc_embedding e wanted None [] false, w)
  | inr end_ =>
      if u32 (wanted + 1) <=? end_ then embed_in_gap k wanted max_nsectors end_ w else
      let short := (end_ <? GrubGpt.GRUB_MIN_RECOMMENDED_MBR_GAP) && warn_short in
      if end_ <=? 1 then pc_error ERR_FILE_NOT_FOUND wanted short w else pc_error ERR_OUT_OF_RANGE wanted short w
  end.
End Embed.
(** * The gap *)

Section Gap.
Context {D : Type} `{DevicesOk D} {A : Type}.
Variable memory : nat -> Z -> bool * bool.
Abbreviation world := (world (D := D) (A := A)).

(** The tables that are read from a place of the walk on: all of them can be read, are well-formed, are
    no dummies, and none is taken for a loop. *)
Record acceptable (s : state (D := D)) (k : grub_disk) (v : walk) (m : msdos_mbr) : Prop := mk_acceptable {
  ac_readable : readable s k (p_offset v) m;
  ac_new : negb (labeln v =? 0) && (lastaddr v =? p_offset v) = false;
  ac_real : dummy (entries m) = false
}.

Inductive visits (s : state (D := D)) (k : grub_disk) : walk -> list (Z * msdos_mbr) -> Prop :=
| visits_last v m : acceptable s k v m -> find_extended (entries m) = None -> visits s k v [(p_offset v, m)]
| visits_more v m e rest : acceptable s k v m -> find_extended (entries m) = Some e -> visits s k (next_walk s k (p_number v) v) rest ->
    visits s k v ((p_offset v, m) :: rest).

(** The end of the gap in front of their partitions. *)
Definition gap_end (k : grub_disk) (tables : list (Z * msdos_mbr)) (end_ : Z) : Z :=
  fold_left (fun end_ t => fold_left (lower_end k (fst t)) (entries (snd t)) end_) tables end_.

(** One table of the loop. *)
Lemma gap_step k s0 v m fuel end_ (w : world) : disk_ok k -> parts_ok (partition k) -> acceptable s0 k v m -> calm memory k w -> medium (disks w) = medium s0 ->
  exists w1, calm memory k w1 /\ medium (disks w1) = medium s0 /\
    gap_loop memory (S fuel) v end_ k w =
    let end_ := fold_left (lower_end k (p_offset v)) (entries m) end_ in
    match find_extended (entries m) with
    | None => Some (inr end_, w1)
    | Some e =>
        let offset := u64 (ext_offset v + Z.shiftl (e_start e) (log_sector_size k - GRUB_DISK_SECTOR_BITS)) in
        let n := s32 (labeln v + 1) in
        gap_loop memory fuel (mk_walk offset (if ext_offset v =? 0 then offset else ext_offset v) (p_number v) n
          (if Z.land n (n - 1) =? 0 then p_offset v else lastaddr v)) end_ k w1
    end.
Proof.
  intros Hk Hp [Hr Hn Hd] Hc Em. pose proof Hr as (Htab & Hwf & Hrest).
  assert (readable (disks w) k (p_offset v) m) as Hr' by (split; [by rewrite (table_of_medium s0)|by split]).
  destruct (calm_table memory k Hk Hp (p_offset v) m w Hc Hr') as (b & s & E & F & Es & Emb). exists (set_disks s w).
  split; [by apply calm_frame|]. split; [cbn; by rewrite (f_medium _ _ F)|].
  unfold well_formed in Hwf. apply andb_prop in Hwf as [Hsig Hfl]. apply negb_true_iff in Hfl.
  cbn [gap_loop]. rewrite E, bind_ret. cbv beta iota zeta. rewrite bool_decide_eq_true_2 by done. cbn [negb].
  by rewrite Emb, bind_ret, Hn, Hsig, Hfl, Hd.
Qed.

Lemma gap_loop_spec k N s0 : disk_ok k -> parts_ok (partition k) -> (0 < N)%nat -> disk_end k <= Z.of_nat N ->
  forall v tables, visits s0 k v tables -> forall fuel hist end_ (w : world), calm memory k w -> medium (disks w) = medium s0 ->
  trail s0 k N hist v -> zlen hist + zlen tables < 2 ^ 31 -> (3 * N < fuel + length hist)%nat ->
  exists w', gap_loop memory fuel v end_ k w = Some (inr (gap_end k tables end_), w') /\ calm memory k w' /\ medium (disks w') = medium s0.
Proof.
  intros Hk Hp HN HNe v tables Hv. induction Hv as [v m Ha Hx|v m e rest Ha Hx Hv IH]; intros fuel hist end_ w Hc Em Ht Hb Hf;
    (destruct fuel as [|fuel]; [pose proof (trail_bound _ _ _ _ _ Ht HN); lia|]);
    destruct (gap_step k s0 v m fuel end_ w Hk Hp Ha Hc Em) as (w1 & Hc1 & Em1 & ->); rewrite Hx; cbv zeta; [by exists w1|].
  destruct Ha as [(Htab & _ & Hin & _) Hn _]. pose proof (within_limit _ _ _ _ Hp Hin).
  rewrite zlen_cons in Hb. pose proof (zlen_nonneg rest).
  assert (0 < zlen rest) as Hpos by (destruct Hv; rewrite zlen_cons; match goal with |- 0 < 1 + zlen ?l => pose proof (zlen_nonneg l) end; lia).
  pose proof (trail_step s0 k N hist v (p_number v) Ht ltac:(lia) ltac:(lia) Hn) as Ht2.
  unfold next_walk, next_table in IH, Ht2. rewrite Htab, Hx in IH, Ht2.
  apply (IH fuel (hist ++ [p_offset v])); [done|done|done| |rewrite length_app; cbn; lia].
  rewrite zlen_app. change (zlen [p_offset v]) with 1. lia.
Qed.
End Gap.

(** ** What the end of the gap is *)

(** The first sector of an entry, and a sector in front of all partitions. *)
Definition entry_first (k : grub_disk) (x : Z) (e : msdos_entry) : Z :=
  u64 (x + Z.shiftl (e_start e) (log_sector_size k - GRUB_DISK_SECTOR_BITS)).
Definition in_front (k : grub_disk) (tables : list (Z * msdos_mbr)) (a : Z) : Prop :=
  forall x m e, (x, m) ∈ tables -> e ∈ entries m -> e_type e <> GRUB_PC_PARTITION_TYPE_NONE -> a < entry_first k x e.

Lemma lower_end_le k x end_ e : lower_end k x end_ e <= end_ /\
  (e_type e <> GRUB_PC_PARTITION_TYPE_NONE -> lower_end k x end_ e <= entry_first k x e).
Proof.
  unfold lower_end, grub_msdos_partition_is_empty. fold (entry_first k x e). cbv zeta. destruct (Z.eqb_spec (e_type e) GRUB_PC_PARTITION_TYPE_NONE); cbn [negb andb];
    [split; [lia|done]|]. destruct (Z.ltb_spec (entry_first k x e) end_); split; lia.
Qed.

Lemma lower_ends_le k x es : forall end_, fold_left (lower_end k x) es end_ <= end_ /\
  forall e, e ∈ es -> e_type e <> GRUB_PC_PARTITION_TYPE_NONE -> fold_left (lower_end k x) es end_ <= entry_first k x e.
Proof.
  induction es as [|e es IH]; intros end_; cbn [fold_left]; [split; [lia|]; intros e He; by apply not_elem_of_nil in He|].
  pose proof (lower_end_le k x end_ e) as [H1 H2]. destruct (IH (lower_end k x end_ e)) as [H3 H4]. split; [lia|].
  intros e' He Ht. apply elem_of_cons in He as [->|He]; [specialize (H2 Ht); lia|by apply H4].
Qed.

Lemma gap_end_le k tables : forall end_, gap_end k tables end_ <= end_ /\
  forall x m e, (x, m) ∈ tables -> e ∈ entries m -> e_type e <> GRUB_PC_PARTITION_TYPE_NONE -> gap_end k tables end_ <= entry_first k x e.
Proof.
  unfold gap_end. induction tables as [|[y m0] tables IH]; intros end_; cbn [fold_left fst snd]; [split; [lia|]; intros x m e He; by apply not_elem_of_nil in He|].
  pose proof (lower_ends_le k y (entries m0) end_) as [H1 H2]. destruct (IH (fold_left (lower_end k y) (entries m0) end_)) as [H3 H4]. split; [lia|].
  intros x m e Hx He Ht. apply elem_of_cons in Hx as [[= -> ->]|Hx]; [specialize (H2 e He Ht); lia|by eapply H4].
Qed.

(** Every sector below the end is in front of the partitions. *)
Lemma gap_in_front k tables end_ a : a < gap_end k tables end_ -> in_front k tables a.
Proof. intros Ha x m e Hx He Ht. pose proof (proj2 (gap_end_le k tables end_) x m e Hx He Ht). lia. Qed.
(** * The sectors *)

Section Choose.
Context {D : Type} `{DevicesOk D} {A : Type}.
Variable memory : nat -> Z -> bool * bool.
Abbreviation world := (world (D := D) (A := A)).
Context (k : grub_disk) (Hk : disk_ok k) (Hnil : partition k = []) (s0 : state (D := D)).

(** The signature of a sector of the disk. *)
Definition sector_signature (x : Z) : option embed_signature :=
  if x <? disk_end k then signed_by (bytes (disk_bytes s0 k) (x * 512) 512) else None.

(** Reading a sector: [None] if it is not there. *)
Definition calm_until (x : Z) (w : world) : Prop :=
  good w /\ all_well memory k (disks w) /\ medium (disks w) = medium s0 /\ (grub_errno (disks w) = ERR_NONE \/ disk_end k <= x).

Lemma read_sector x (w : world) : calm_until x w -> 0 <= x < 2 ^ 63 ->
  exists e b s, grub_disk_read memory k x 0 GRUB_DISK_SECTOR_SIZE (disks w) = Some (e, b, s) /\ calm_until (x + 1) (set_disks s w) /\
    (x < disk_end k -> calm_until x (set_disks s w)) /\
    if x <? disk_end k then e = ERR_NONE /\ b = bytes (disk_bytes s0 k) (x * 512) 512 else e <> ERR_NONE.
Proof.
  intros ([Hs Hd] & Hw & Em & He) Hx. change (2 ^ 63) with 9223372036854775808 in Hx. assert (parts_ok (partition k)) as Hp by (rewrite Hnil; constructor).
  destruct (disk_read_spec memory k x 0 512 (disks w) Hs Hk Hp ltac:(lia) ltac:(lia) ltac:(lia) ltac:(change (0 / 512) with 0; pow2; lia)
    ltac:(change (0 mod 512) with 0; pow2; lia) Hd) as (e & b & s & E & F & _ & Hr).
  exists e, b, s. split; [exact E|]. rewrite Hnil, Z.add_0_r in Hr. cbn [within place] in Hr.
  assert (good (set_disks s w) /\ all_well memory k s /\ medium s = medium s0) as (Hg & Hw' & Em').
  { split; [by eapply good_frame; [split|exact F]|]. split; [by eapply all_well_frame|]. by rewrite (f_medium _ _ F). }
  destruct (Z.ltb_spec x (disk_end k)) as [Hlt|Hge].
  - rewrite (proj2 (Z.leb_le _ _)) in Hr by lia. destruct Hr as [Hok Hlive]. assert (grub_errno (disks w) = ERR_NONE) as He0 by (destruct He; [done|lia]).
    specialize (Hlive Hw He0). destruct (Hok Hlive) as [-> Es]. unfold disk_bytes. rewrite Em.
    split; [|split; [|done]]; [|intros _]; (split; [done|]; split; [done|]; split; [done|by left]).
  - rewrite (proj2 (Z.leb_gt _ _)) in Hr by lia. subst e. split; [|split; [lia|done]]. split; [done|]. split; [done|]. split; [done|]. right. lia.
Qed.

(** ** The arrays *)

Lemma bump_spec a m n pre rest : 0 <= n <= m -> 0 <= a -> a + m < 2 ^ 64 ->
  exists rest', bump (zlen pre) (zlen pre + n) (pre ++ seqZ a m ++ rest) = pre ++ seqZ (a + 1) n ++ rest'.
Proof.
  intros Hn Ha Hm. unfold bump. replace m with (n + (m - n)) by lia. rewrite seqZ_app by lia. rewrite <- app_assoc.
  set (f := fun (j : nat) (x : Z) => if (zlen pre <=? Z.of_nat j) && (Z.of_nat j <? zlen pre + n) then u64 (x + 1) else x). rewrite !imap_app.
  assert (imap f pre = pre) as ->.
  { apply list_eq. intros j. rewrite list_lookup_imap. destruct (pre !! j) as [x|] eqn:E; [|done]. cbn. apply lookup_lt_Some in E. unfold f, zlen.
    by rewrite (proj2 (Z.leb_gt _ _)) by lia. }
  assert (imap (fun j => f (length pre + j)%nat) (seqZ a n) = seqZ (a + 1) n) as E; [|unfold compose in *; rewrite E; by eexists].
  replace (seqZ (a + 1) n) with (Z.add 1 <$> seqZ a n) by (rewrite fmap_add_seqZ; f_equal; lia). apply list_eq. intros j. rewrite list_lookup_imap, list_lookup_fmap.
  destruct (seqZ a n !! j) as [x|] eqn:E; [|done]. cbn. apply lookup_seqZ in E as [-> Hj]. unfold f, zlen.
  rewrite (proj2 (Z.leb_le _ _)), (proj2 (Z.ltb_lt _ _)) by lia. cbn [andb]. f_equal. rewrite wrap_small; lia.
Qed.

(** The first [i] sectors have been accepted; [a0] sectors were available at first. *)
Record chosen (a0 max_nsectors i : Z) (c : choice) (pre : list Z) : Prop := mk_chosen {
  cn_len : zlen pre = i;
  cn_shape : exists rest, ch_sectors c = pre ++ seqZ (i + 1 + (a0 - ch_avail c)) (ch_nsectors c - i) ++ rest;
  cn_count : ch_nsectors c = Z.min max_nsectors (ch_avail c) /\ i <= ch_nsectors c;
  cn_avail : 0 <= ch_avail c <= a0;
  cn_used : zlen (ch_used c) = a0 - ch_avail c;
  cn_sorted : StronglySorted Z.lt pre;
  cn_free : Forall (fun x => 1 <= x < i + 1 + (a0 - ch_avail c) /\ sector_signature x = None) pre;
  cn_marked : StronglySorted Z.lt (fst <$> ch_used c);
  cn_signed : Forall (fun u => 1 <= fst u < i + 1 + (a0 - ch_avail c) /\ sector_signature (fst u) = Some (snd u)) (ch_used c)
}.

Lemma sorted_snoc l x : StronglySorted Z.lt l -> Forall (fun y => y < x) l -> StronglySorted Z.lt (l ++ [x]).
Proof.
  intros Hs Hx. induction Hs as [|y l Hs IH Hy]; cbn; [by repeat constructor|]. apply Forall_cons in Hx as [Hyx Hx].
  constructor; [by apply IH|]. apply Forall_app. by split; [|apply Forall_singleton].
Qed.

Lemma chosen_next a0 max i c pre : chosen a0 max i c pre -> i < ch_nsectors c ->
  let x := i + 1 + (a0 - ch_avail c) in ch_sectors c !! Z.to_nat i = Some x /\ 1 <= x /\
  (sector_signature x = None -> chosen a0 max (i + 1) c (pre ++ [x])).
Proof.
  intros [Hl [rest Hsh] [Hn1 Hn2] Hav Hu Hso Hfr Hma Hsi] Hi x. pose proof (zlen_nonneg pre).
  assert (seqZ x (ch_nsectors c - i) = x :: seqZ (x + 1) (ch_nsectors c - (i + 1))) as Ex.
  { rewrite seqZ_cons by lia. f_equal. f_equal; lia. }
  split; [|split; [lia|]].
  - rewrite Hsh. fold x. rewrite Ex. replace (Z.to_nat i) with (length pre) by (unfold zlen in Hl; lia). by apply list_lookup_middle.
  - intros Hf. split; try done; try lia.
    + rewrite zlen_app. change (zlen [x]) with 1. lia.
    + exists rest. rewrite Hsh. fold x. rewrite Ex, <- app_assoc. cbn. do 4 f_equal. lia.
    + apply sorted_snoc; [done|]. eapply Forall_impl; [exact Hfr|]. cbn. lia.
    + apply Forall_app. split; [|apply Forall_singleton; split; [lia|done]]. eapply Forall_impl; [exact Hfr|]. cbn. intros y [? ?]. split; [lia|done].
    + eapply Forall_impl; [exact Hsi|]. cbn. intros y [? ?]. split; [lia|done].
Qed.

Lemma chosen_skip a0 max i c pre g : chosen a0 max i c pre -> i < ch_nsectors c -> a0 < 2 ^ 32 -> 0 <= max ->
  let x := i + 1 + (a0 - ch_avail c) in sector_signature x = Some g ->
  let avail := u32 (ch_avail c - 1) in
  let n := if avail <? ch_nsectors c then avail else ch_nsectors c in
  chosen a0 max i (mk_choice (bump i n (ch_sectors c)) n avail (ch_used c ++ [(x, g)])) pre.
Proof.
  intros [Hl [rest Hsh] [Hn1 Hn2] Hav Hu Hso Hfr Hma Hsi] Hi Ha0 Hmax x Hg avail n. pose proof (zlen_nonneg pre).
  assert (avail = ch_avail c - 1) as Eav by (apply wrap_small; lia).
  assert (n = Z.min max avail /\ i <= n <= ch_nsectors c) as [En Hni] by (unfold n; destruct (Z.ltb_spec avail (ch_nsectors c)); lia).
  split; cbn [ch_sectors ch_nsectors ch_avail ch_used]; try done; try lia.
  - rewrite Hsh. fold x. destruct (bump_spec x (ch_nsectors c - i) (n - i) pre rest ltac:(lia) ltac:(lia) ltac:(pow2; lia)) as [rest' Eb].
    exists rest'. rewrite Hl in Eb. replace (i + (n - i)) with n in Eb by lia. rewrite Eb. do 3 f_equal. lia.
  - rewrite zlen_app. change (zlen [(x, g)]) with 1. lia.
  - eapply Forall_impl; [exact Hfr|]. cbn. intros y [? ?]. split; [lia|done].
  - rewrite fmap_app. apply sorted_snoc; [done|]. apply Forall_fmap. eapply Forall_impl; [exact Hsi|]. cbn. lia.
  - apply Forall_app. split; [|apply Forall_singleton; cbn; split; [lia|done]]. eapply Forall_impl; [exact Hsi|]. cbn. intros y [? ?]. split; [lia|done].
Qed.

(** The choice ends: with fewer sectors available than wanted, or with all accepted. *)
Lemma choose_spec a0 max wanted : a0 < 2 ^ 32 -> 0 <= max -> forall fuel i c pre (w : world), chosen a0 max i c pre ->
  calm_until (i + 1 + (a0 - ch_avail c)) w -> ch_nsectors c - i + ch_avail c < Z.of_nat fuel ->
  exists c' i' pre' w', choose memory fuel wanted i c k w = Some (c', w') /\ medium (disks w') = medium s0 /\ chosen a0 max i' c' pre' /\
    (ch_avail c' < wanted \/ i' = ch_nsectors c').
Proof.
  intros Ha0 Hmax. induction fuel as [|fuel IH]; intros i c pre w Hc Hw Hf; cbn [choose].
  { destruct (cn_count _ _ _ _ _ Hc) as [? ?]. pose proof (cn_avail _ _ _ _ _ Hc). lia. }
  destruct (Z.ltb_spec i (ch_nsectors c)) as [Hi|Hi]; cbn [negb].
  2: { exists c, i, pre, w. split; [done|]. split; [apply Hw|]. split; [done|]. right. pose proof (cn_count _ _ _ _ _ Hc). lia. }
  destruct (chosen_next a0 max i c pre Hc Hi) as (Hx & Hx1 & Hacc). rewrite Hx, bind_ret. set (x := i + 1 + (a0 - ch_avail c)) in *.
  pose proof (zlen_nonneg pre) as Hi0. rewrite (cn_len _ _ _ _ _ Hc) in Hi0. pose proof (cn_avail _ _ _ _ _ Hc) as Hav. destruct (cn_count _ _ _ _ _ Hc) as [Hn1 Hn2].
  destruct (read_sector x w Hw) as (e & b & s & -> & Hw1 & Hw2 & Hr); [change (2 ^ 63) with 9223372036854775808; pow2; lia|].
  rewrite bind_ret. cbv beta iota zeta. unfold sector_signature in Hacc.
  assert (calm_until (i + 1 + 1 + (a0 - ch_avail c)) (set_disks s w)) as Hw1' by (by replace (i + 1 + 1 + (a0 - ch_avail c)) with (x + 1) by lia).
  destruct (Z.ltb_spec x (disk_end k)) as [Hlt|Hge].
  2: { rewrite bool_decide_eq_false_2 by done. cbn [negb]. apply (IH _ _ (pre ++ [x])); [by apply Hacc|done|lia]. }
  destruct Hr as [-> ->]. rewrite bool_decide_eq_true_2 by done. cbn [negb].
  destruct (signed_by _) as [g|] eqn:Eg; [|apply (IH _ _ (pre ++ [x])); [by apply Hacc|done|lia]].
  assert (sector_signature x = Some g) as Hg by (unfold sector_signature; by rewrite (proj2 (Z.ltb_lt _ _) Hlt)).
  pose proof (chosen_skip a0 max i c pre g Hc Hi Ha0 Hmax Hg) as Hs. cbv zeta in Hs. fold x in Hs. set (c1 := mk_choice _ _ _ _) in *.
  assert (ch_avail c1 = ch_avail c - 1) as Eav by (apply wrap_small; lia). destruct (cn_count _ _ _ _ _ Hs) as [Hm1 Hm2].
  change (u32 (ch_avail c - 1)) with (ch_avail c1). destruct (Z.ltb_spec (ch_avail c1) wanted).
  - exists c1, i, pre, (set_disks s w). split; [done|]. split; [apply Hw1|]. split; [done|by left].
  - apply (IH _ _ pre); [done| |lia]. by replace (i + 1 + (a0 - ch_avail c1)) with (x + 1) by lia.
Qed.
End Choose.
(** * What embedding does *)

(** Sectors of a gap of [a0] sectors in ascending order that no other software uses. *)
Definition free_sectors {D} `{DevicesOk D} (s : state (D := D)) (k : grub_disk) (a0 : Z) (l : list Z) : Prop :=
  StronglySorted Z.lt l /\ Forall (fun x => 1 <= x <= a0 /\ sector_signature k s x = None) l.

(** Sectors of it in ascending order that are in use, with what uses them. *)
Definition used_sectors {D} `{DevicesOk D} (s : state (D := D)) (k : grub_disk) (a0 : Z) (l : list (Z * embed_signature)) : Prop :=
  StronglySorted Z.lt l.*1 /\ Forall (fun u => 1 <= u.1 <= a0 /\ sector_signature k s u.1 = Some u.2) l.

(** The outcome in a gap: enough free sectors, or more sectors in use than can be spared. *)
Definition gap_outcome {D} `{DevicesOk D} (s : state (D := D)) (k : grub_disk) (a0 wanted max_nsectors : Z) (em : pc_embedding) : Prop :=
  (pe_err em = ERR_NONE /\ wanted <= pe_nsectors em <= max_nsectors /\
   exists l rest, pe_sectors em = Some (l ++ rest) /\ zlen l = pe_nsectors em /\ free_sectors s k a0 l) \/
  (pe_err em = ERR_OUT_OF_RANGE /\ used_sectors s k a0 (pe_used em) /\ a0 - zlen (pe_used em) < wanted).

Lemma calm_malloc {D A} `{DevicesOk D} memory k n (w : world (D := D) (A := A)) : calm memory k w ->
  exists s, malloc memory n (disks w) = (true, s) /\ calm memory k (set_disks s w) /\ medium s = medium (disks w).
Proof.
  intros Hc. pose proof Hc as [[Hs Hd] Hw He]. destruct (malloc_spec memory n (disks w) Hs) as (F & Hok & _ & Hm).
  specialize (Hm (proj1 Hw)). exists (snd (malloc memory n (disks w))). split; [rewrite (surjective_pairing (malloc _ _ _)) at 1; by rewrite Hm|].
  split; [apply calm_frame; [done|done|]; by rewrite Hok|]. apply (f_medium _ _ F).
Qed.

Lemma chosen_start {D} `{DevicesOk D} k (s0 : state (D := D)) max_nsectors a0 : 0 <= a0 -> 0 <= max_nsectors ->
  let n := if max_nsectors <? a0 then max_nsectors else a0 in
  chosen k s0 a0 max_nsectors 0 (mk_choice ((fun i => 1 + i) <$> seqZ 0 n) n a0 []) [].
Proof.
  intros Ha Hm n. assert (n = Z.min max_nsectors a0) as En by (unfold n; destruct (Z.ltb_spec max_nsectors a0); lia).
  split; cbn [ch_sectors ch_nsectors ch_avail ch_used]; try done; try lia; try by constructor.
  - exists []. rewrite app_nil_r, app_nil_l. change (fun i => 1 + i) with (Z.add 1). rewrite fmap_add_seqZ. f_equal; lia.
  - change (zlen []) with 0. lia.
Qed.

Lemma embed_in_gap_spec {D A} `{DevicesOk D} memory k wanted max_nsectors end_ (w : world (D := D) (A := A)) (s0 : state (D := D)) :
  disk_ok k -> partition k = [] -> calm memory k w -> medium (disks w) = medium s0 -> 0 <= wanted <= max_nsectors ->
  exists em w', embed_in_gap memory k wanted max_nsectors end_ w = Some (em, w') /\ medium (disks w') = medium s0 /\
    gap_outcome s0 k (u32 (end_ - 1)) wanted max_nsectors em.
Proof.
  intros Hk Hnil Hc Em Hw. unfold embed_in_gap. set (a0 := u32 (end_ - 1)). assert (0 <= a0 < 2 ^ 32) as Ha0 by (apply (wrap_range 32); lia).
  pose proof (chosen_start k s0 max_nsectors a0 ltac:(lia) ltac:(lia)) as Hst. set (n := if max_nsectors <? a0 then max_nsectors else a0) in *.
  destruct (calm_malloc memory k (n * 8) w Hc) as (s1 & -> & Hc1 & E1). cbv beta iota. cbn [negb].
  destruct (calm_malloc memory k GRUB_DISK_SECTOR_SIZE (set_disks s1 w) Hc1) as (s2 & -> & Hc2 & E2). cbv beta iota. cbn [negb].
  assert (0 <= n) as Hn by (unfold n; destruct (max_nsectors <? a0); lia).
  destruct (choose_spec memory k Hk Hnil s0 a0 max_nsectors wanted ltac:(lia) ltac:(lia) (S (Z.to_nat (n + a0))) 0 _ _ (set_disks s2 (set_disks s1 w)) Hst)
    as (c & i & pre & w' & -> & Em' & Hch & Hend).
  - cbn [ch_avail]. destruct Hc2 as [Hg Hwell He]. split; [done|]. split; [done|]. split; [|by left]. cbn in *. congruence.
  - cbn [ch_nsectors ch_avail]. lia.
  - rewrite bind_ret. cbv beta iota. destruct Hch as [Hl [rest Hsh] [Hn1 Hn2] Hav Hu Hso Hfr Hma Hsi].
    destruct (Z.ltb_spec (ch_nsectors c) wanted) as [Hlt|Hge]; eexists _, _; (split; [reflexivity|]); (split; [done|]); [right|left]; cbn [pe_err pe_nsectors pe_sectors pe_used].
    + split; [done|]. split; [|lia]. split; [done|]. eapply Forall_impl; [exact Hsi|]. cbn. intros u [? ?]. split; [lia|done].
    + destruct Hend as [Hend|Hend]; [lia|]. split; [done|]. split; [lia|]. exists pre, rest. split; [|split; [lia|]].
      * rewrite Hsh, Hend, Z.sub_diag. done.
      * split; [done|]. eapply Forall_impl; [exact Hfr|]. cbn. intros x [? ?]. split; [lia|done].
Qed.

(** C15: On a disk whose tables are sound and fewer than 2^31 (an [int] counts them), embedding takes sectors of the gap between the boot record
    and the first partition of any table, and no others: if it succeeds, there are as many sectors as
    wanted and at most as many as allowed, ascending, each in front of every partition of every table
    that leads to one, and none starts with the signature of another program; it fails only when the
    gap is shorter than what is wanted or when sectors in use leave too few.  Nothing is written.
    Devices and memory do not fail; what is wanted is not more than what is allowed, and fewer than
    2^32 - 1 sectors. *)
Theorem pc_embed_correct {D A} `{DevicesOk D} memory k wanted max_nsectors warn_short tables (w : world (D := D) (A := A)) :
  disk_ok k -> partition k = [] -> calm memory k w -> zlen tables < 2 ^ 31 -> 0 <= wanted <= max_nsectors -> wanted < 2 ^ 32 - 1 ->
  visits (disks w) k first_walk tables ->
  exists em w', pc_partition_map_embed memory k wanted max_nsectors GrubGpt.GRUB_EMBED_PCBIOS warn_short w = Some (em, w') /\
    medium (disks w') = medium (disks w) /\
    let end_ := gap_end k tables (2 ^ 64 - 1) in
    if end_ <=? wanted then pe_err em = (if end_ <=? 1 then ERR_FILE_NOT_FOUND else ERR_OUT_OF_RANGE)
    else gap_outcome (disks w) k (u32 (end_ - 1)) wanted max_nsectors em /\ forall x, 1 <= x <= u32 (end_ - 1) -> in_front k tables x.
Proof.
  intros Hk Hnil Hc Hsmall Hw Hw32 Hv. unfold pc_partition_map_embed. change (GrubGpt.GRUB_EMBED_PCBIOS =? GrubGpt.GRUB_EMBED_PCBIOS) with true. cbn [negb].
  rewrite bool_decide_eq_true_2 by done. cbn [negb]. set (N := Z.to_nat (Z.max 1 (disk_end k))). assert (parts_ok (partition k)) as Hp by (rewrite Hnil; constructor).
  destruct (gap_loop_spec memory k N (disks w) Hk Hp ltac:(lia) ltac:(lia) first_walk tables Hv (table_fuel k) [] (2 ^ 64 - 1) w Hc eq_refl
    (first_trail _ _ _) Hsmall ltac:(unfold table_fuel; cbn [length]; lia)) as (w1 & -> & Hc1 & E1).
  rewrite bind_ret. cbv beta iota zeta. set (end_ := gap_end k tables (2 ^ 64 - 1)). rewrite (wrap_small 32 (wanted + 1)) by (pow2; lia).
  destruct (Z.leb_spec end_ wanted), (Z.leb_spec (wanted + 1) end_); [lia| | |lia].
  - destruct (end_ <=? 1); eexists _, _; (split; [reflexivity|]); by split.
  - destruct (embed_in_gap_spec memory k wanted max_nsectors end_ w1 (disks w) Hk Hnil Hc1 E1 Hw) as (em & w' & -> & Em & Ho).
    exists em, w'. split; [done|]. split; [done|]. split; [done|]. intros x Hx. apply (gap_in_front k tables (2 ^ 64 - 1)). fold end_.
    pose proof (Z.mod_le (end_ - 1) (2 ^ 32) ltac:(lia) ltac:(pow2; lia)). change ((end_ - 1) mod 2 ^ 32) with (u32 (end_ - 1)) in *. lia.
Qed.
(** ** Examples *)

(** The disk of the walks, with the mark of a controller in its third sector: seven sectors are in front
    of its first partition, and six of them are free. *)
Definition marked_disk : ram := sparse (signed 0 ++ entry_bytes 0 0 0x83 8 10 ++ entry_bytes 0 1 5 64 100 ++ signed 64 ++ entry_bytes 64 0 0x83 2 5 ++
  GrubGpt.at_place (3 * 512) (chars "ycgl")).
Definition marked_table (x : Z) : msdos_mbr := default (mk_mbr [] 0) (table_of (fresh marked_disk) pc x).
Definition marked_tables : list (Z * msdos_mbr) := [(0, marked_table 0); (64, marked_table 64)].

Lemma marked_visits : visits (disks (start_world marked_disk)) pc first_walk marked_tables.
Proof.
  unfold marked_tables. change 0 with (p_offset first_walk) at 1.
  apply (visits_more _ _ _ _ (mk_entry 0 5 64 100)); [split; vm_compute; intuition congruence|vm_compute; reflexivity|].
  replace (next_walk _ _ _ _) with (mk_walk 64 64 (-1) 1 0) by (vm_compute; reflexivity). apply (visits_last _ _ (mk_walk 64 64 (-1) 1 0)).
  - split; vm_compute; intuition congruence.
  - vm_compute. reflexivity.
Qed.

Lemma pc_embed_correct_witness : exists em w',
  pc_partition_map_embed plenty pc 5 20 GrubGpt.GRUB_EMBED_PCBIOS true (start_world marked_disk) = Some (em, w') /\
  medium (disks w') = marked_disk /\ gap_outcome (fresh marked_disk) pc 7 5 20 em.
Proof.
  destruct (pc_embed_correct plenty pc 5 20 true marked_tables (start_world marked_disk) pc_ok eq_refl (start_calm marked_disk)) as (em & w' & E & Em & Hr).
  - vm_compute. reflexivity.
  - lia.
  - lia.
  - exact marked_visits.
  - exists em, w'. split; [exact E|]. split; [exact Em|].
    replace (gap_end pc marked_tables (2 ^ 64 - 1)) with 8 in Hr by (vm_compute; reflexivity). exact (proj1 Hr).
Defined.

(** The choice on the marks themselves: the third sector is left out and the rest move up. *)
Example bump_example : bump 2 6 [1; 2; 3; 4; 5; 6; 7] = [1; 2; 4; 5; 6; 7; 7].
Proof. reflexivity. Qed.

End GrubMsdosEmbed.
