(* ===== verification/GrubFile.v ===== *)
(** Files of GRUB (src/grub/grub-core/kern/file.c, io/bufio.c, io/offset.c): reading and seeking in
    a file of any file system, buffered files and parts of files.

    A file system is the interface [Fs]: reading at the offset of a file, and raising and clearing
    [grub_errno].  A buffered file and a part of a file are file systems on top of another file.
    Loaded modules are not counted. *)

From S2P Require Import Prelude GrubStr GrubDisk.

Module GrubFile.
Import GrubStr GrubDisk.

Definition GRUB_FILE_SIZE_UNKNOWN : Z := 0xffffffffffffffff.
Definition GRUB_BUFIO_DEF_SIZE : Z := 8192.
Definition GRUB_BUFIO_MAX_SIZE : Z := 1048576.

(** [(grub_off_t) -1]. *)
Definition minus_one : Z := 2 ^ 64 - 1.

Record grub_file := mk_file {
  f_offset : Z;
  f_size : Z;
  f_hook : option read_hook_t;
  progress_offset : Z
}.

Definition set_offset (n : Z) (f : grub_file) : grub_file := mk_file n (f_size f) (f_hook f) (progress_offset f).
Definition set_size (n : Z) (f : grub_file) : grub_file := mk_file (f_offset f) n (f_hook f) (progress_offset f).
Definition set_hook (h : option read_hook_t) (f : grub_file) : grub_file := mk_file (f_offset f) (f_size f) h (progress_offset f).
Definition set_progress (n : Z) (f : grub_file) : grub_file := mk_file (f_offset f) (f_size f) (f_hook f) n.

(** What [fs_read] returns, what it stores (as many bytes as it returns, unless that is negative), and
    the file and its data afterwards. *)
Class Fs (S : Type) := {
  fs_read : grub_file -> Z -> S -> option (Z * list Z * grub_file * S);
  fs_error : grub_err_t -> S -> S;
  fs_clear : S -> S
}.

Section File.
Context {S : Type} `{Fs S}.
Variable grub_file_progress_hook : option read_hook_t.

Definition grub_file_read (file : grub_file) (len : Z) (s : S) : option (Z * list Z * grub_file * S) :=
  if f_size file <? f_offset file then Some (-1, [], file, fs_error ERR_OUT_OF_RANGE s) else
  if len =? 0 then Some (0, [], file, s) else
  let len := if f_size file - f_offset file <? len then f_size file - f_offset file else len in
  let len := if s64 len <? 0 then Z.shiftr len 1 else len in
  if len =? 0 then Some (0, [], file, s) else
  let hook := f_hook file in
  let file := match hook with
              | None => set_progress (f_offset file) (set_hook grub_file_progress_hook file)
              | Some _ => file
              end in
  '(res, b, file, s) ← fs_read file len s;
  let file := set_hook hook file in
  Some (res, b, if 0 <? res then set_offset (u64 (f_offset file + res)) file else file, s).

Definition grub_file_seek (file : grub_file) (offset : Z) (s : S) : Z * grub_file * S :=
  if f_size file <? offset then (minus_one, file, fs_error ERR_OUT_OF_RANGE s)
  else (f_offset file, set_offset offset file, s).

(** ** Buffered files *)

Record grub_bufio := mk_bufio {
  b_file : grub_file;
  block_size : Z;
  buffer_len : Z;
  buffer_at : Z;
  buffer : list Z;
  b_data : S
}.

Definition set_inner (f : grub_file) (s : S) (b : grub_bufio) : grub_bufio :=
  mk_bufio f (block_size b) (buffer_len b) (buffer_at b) (buffer b) s.
Definition set_buffer (n at_ : Z) (bytes : list Z) (b : grub_bufio) : grub_bufio :=
  mk_bufio (b_file b) (block_size b) n at_ bytes (b_data b).

(** The next power of two; 64 rounds are enough for 64 bits. *)
Fixpoint round_up (fuel : nat) (size : Z) : option Z :=
  if Z.land size (u64 (size - 1)) =? 0 then Some size else
  match fuel with
  | O => None
  | Datatypes.S fuel => round_up fuel (u64 (Z.lor size (u64 (size - 1)) + 1))
  end.

(** The size of the buffer. *)
Definition bufio_size (io_size size : Z) : option Z :=
  let size := if size =? 0 then GRUB_BUFIO_DEF_SIZE else if GRUB_BUFIO_MAX_SIZE <? size then GRUB_BUFIO_MAX_SIZE else size in
  let size := if io_size <? size then (if GRUB_BUFIO_MAX_SIZE <? io_size then GRUB_BUFIO_MAX_SIZE else io_size) else size in
  round_up 64 size.

(** With memory for both structures. *)
Definition grub_bufio_open (io : grub_file) (s : S) (size : Z) : option (grub_file * grub_bufio) :=
  size ← bufio_size (f_size io) size;
  Some (mk_file 0 (f_size io) None 0, mk_bufio io size 0 0 (replicate (Z.to_nat size) 0) s).

Definition learn_size (file : grub_file) (b : grub_bufio) : grub_file :=
  if f_size file =? GRUB_FILE_SIZE_UNKNOWN then set_size (f_size (b_file b)) file else file.

(** Seeking and reading the file below. *)
Definition inner_read (b : grub_bufio) (offset len : Z) : option (Z * list Z * grub_bufio) :=
  let '(_, f, s) := grub_file_seek (b_file b) offset (b_data b) in
  '(res, bytes, f, s) ← grub_file_read f len s;
  Some (res, bytes, set_inner f s b).

(** [bytes] at the start of the buffer. *)
Definition store_buffer (bytes : list Z) (b : grub_bufio) : option (list Z) := overwrite (buffer b) 0 bytes.

(** What the buffer has already. *)
Definition from_buffer (file : grub_file) (b : grub_bufio) (len : Z) : option (list Z) :=
  if (buffer_at b <=? f_offset file) && (f_offset file <? u64 (buffer_at b + buffer_len b)) then
    let pos := f_offset file - buffer_at b in
    let n := buffer_len b - pos in
    slice (buffer b) pos (if len <? n then len else n)
  else Some [].

(** The block with the end of the request goes to the buffer; the rest of the request is in it. *)
Definition fill_buffer (file : grub_file) (next_buf len : Z) (got : list Z) (b : grub_bufio) : option (Z * list Z * grub_file * grub_bufio) :=
  '(r, bytes, b) ← inner_read b next_buf (block_size b);
  if r <? 0 then Some (-1, got, file, b) else
  buf ← store_buffer bytes b;
  let b := set_buffer r next_buf buf b in
  let file := learn_size file b in
  let len := if buffer_len b <? len then buffer_len b else len in
  more ← slice (buffer b) (u64 (f_offset file + zlen got - next_buf)) len;
  Some (zlen got + len, got ++ more, file, b).

Definition grub_bufio_read (file : grub_file) (len : Z) (b : grub_bufio) : option (Z * list Z * grub_file * grub_bufio) :=
  let file := learn_size file b in
  got ← from_buffer file b len;
  let res := zlen got in
  let len := len - res in
  if len =? 0 then Some (res, got, file, b) else
  let next_buf := Z.land (u64 (f_offset file + res + len - 1)) (Z.lnot (block_size b - 1)) in
  if u64 (f_offset file + res) <? next_buf then
    let read_now := next_buf - u64 (f_offset file + res) in
    '(r, bytes, b) ← inner_read b (u64 (f_offset file + res)) read_now;
    if r <? 0 then Some (-1, got ++ bytes, file, b) else
    let file := learn_size file b in
    let got := got ++ bytes in
    if negb (r =? read_now) then
      let n := if block_size b <? r then block_size b else r in
      last ← slice got (zlen got - n) n;
      buf ← store_buffer last b;
      Some (zlen got, got, file, set_buffer n (u64 (f_offset file + zlen got - n)) buf b)
    else fill_buffer file next_buf (len - r) got b
  else fill_buffer file next_buf len got b.

(** ** Parts of files *)

Record grub_offset_file := mk_offset_file { parent : grub_file; off : Z; o_data : S }.

Definition grub_offset_read (file : grub_file) (len : Z) (o : grub_offset_file) : option (Z * list Z * grub_file * grub_offset_file) :=
  let '(r, p, s) := grub_file_seek (parent o) (u64 (off o + f_offset file)) (o_data o) in
  if r =? minus_one then Some (-1, [], file, mk_offset_file p (off o) s) else
  '(res, b, p, s) ← grub_file_read p len s;
  Some (res, b, file, mk_offset_file p (off o) s).

(** Without decompressing filters. *)
Definition grub_file_offset_open (p : grub_file) (s : S) (start size : Z) : grub_file * grub_offset_file :=
  (mk_file 0 size None 0, mk_offset_file p start s).
End File.

Arguments grub_bufio S : clear implicits.
Arguments grub_offset_file S : clear implicits.

(** A buffered file and a part of a file are files again. *)
#[export] Instance bufio_fs {S} `{Fs S} (hook : option read_hook_t) : Fs (grub_bufio S) := {|
  fs_read := grub_bufio_read hook;
  fs_error e b := set_inner (b_file b) (fs_error e (b_data b)) b;
  fs_clear b := set_inner (b_file b) (fs_clear (b_data b)) b
|}.

#[export] Instance offset_fs {S} `{Fs S} (hook : option read_hook_t) : Fs (grub_offset_file S) := {|
  fs_read := grub_offset_read hook;
  fs_error e o := mk_offset_file (parent o) (off o) (fs_error e (o_data o));
  fs_clear o := mk_offset_file (parent o) (off o) (fs_clear (o_data o))
|}.

(** * Files as strings of bytes *)

Definition part (l : list Z) (a n : Z) : list Z := take (Z.to_nat n) (drop (Z.to_nat a) l).

Lemma zlen_part l a n : 0 <= a -> 0 <= n -> a + n <= zlen l -> zlen (part l a n) = n.
Proof. intros Ha Hn Hl. unfold part, zlen in *. rewrite length_take, length_drop. lia. Qed.

Lemma slice_part l a n : 0 <= a -> 0 <= n -> a + n <= zlen l -> slice l a n = Some (part l a n).
Proof. intros Ha Hn Hl. unfold slice. by rewrite (proj2 (Z.leb_le 0 a)), (proj2 (Z.leb_le 0 n)), (proj2 (Z.leb_le _ (zlen l))) by lia. Qed.

Lemma part_split l a n m : 0 <= a -> 0 <= n -> 0 <= m -> part l a (n + m) = part l a n ++ part l (a + n) m.
Proof.
  intros Ha Hn Hm. unfold part. rewrite !Z2Nat.inj_add by lia. rewrite <- drop_drop. symmetry. apply take_take_drop.
Qed.

Lemma part_part l a n b m : 0 <= a -> 0 <= b -> 0 <= m -> b + m <= n -> part (part l a n) b m = part l (a + b) m.
Proof.
  intros Ha Hb Hm Hn. unfold part. rewrite skipn_firstn_comm, drop_drop, take_take. rewrite Z2Nat.inj_add by lia.
  f_equal. lia.
Qed.

Definition hook_fine (h : option read_hook_t) : Prop := forall hook, h = Some hook -> forall a b c d, hook a b c d = ERR_NONE.

(** A file system in which a file has contents: inside them every read succeeds in full when no
    error is pending, and does not change them. *)
Class FsOk (S : Type) `{Fs S} := {
  contents : S -> list Z;
  fs_inv : S -> Prop;
  fs_quiet : S -> Prop;
  fs_small s : fs_inv s -> zlen (contents s) < 2 ^ 63;
  read_ok f len s : fs_inv s -> fs_quiet s -> hook_fine (f_hook f) -> f_size f = zlen (contents s) -> 0 <= f_offset f -> 0 < len ->
    f_offset f + len <= f_size f ->
    exists s', fs_read f len s = Some (len, part (contents s) (f_offset f) len, f, s') /\ fs_inv s' /\ fs_quiet s' /\ contents s' = contents s;
  error_ok e s : fs_inv s -> fs_inv (fs_error e s) /\ contents (fs_error e s) = contents s;
  clear_ok s : fs_inv s -> fs_inv (fs_clear s) /\ fs_quiet (fs_clear s) /\ contents (fs_clear s) = contents s
}.

Section Laws.
Context {S : Type} `{FsOk S}.
Variable progress : option read_hook_t.
Hypothesis progress_fine : hook_fine progress.

Record file_ok (f : grub_file) (s : S) : Prop := mk_file_ok {
  fo_inv : fs_inv s;
  fo_hook : hook_fine (f_hook f);
  fo_size : f_size f = zlen (contents s);
  fo_offset : 0 <= f_offset f <= f_size f
}.

(** The file after it was read or sought. *)
Record moved (f : grub_file) (s : S) (pos : Z) (f' : grub_file) (s' : S) : Prop := mk_moved {
  mv_ok : file_ok f' s';
  mv_offset : f_offset f' = pos;
  mv_contents : contents s' = contents s;
  mv_size : f_size f' = f_size f;
  mv_hook : f_hook f' = f_hook f
}.

Lemma file_read_spec f s len : file_ok f s -> fs_quiet s -> 0 <= len ->
  let n := Z.min len (f_size f - f_offset f) in
  exists f' s', grub_file_read progress f len s = Some (n, part (contents s) (f_offset f) n, f', s') /\ moved f s (f_offset f + n) f' s' /\ fs_quiet s'.
Proof.
  intros [Hi Hh Hs Ho] Hq Hl n. unfold grub_file_read. destruct (Z.ltb_spec (f_size f) (f_offset f)); [lia|].
  assert (forall m, m = 0 -> n = 0 -> exists f' s', Some (0, [], f, s) = Some (n, part (contents s) (f_offset f) n, f', s') /\ moved f s (f_offset f + n) f' s' /\ fs_quiet s') as Hnone.
  { intros _ _ ->. exists f, s. split; [done|]. split; [|done]. split; [by split|lia|done|done|done]. }
  destruct (Z.eqb_spec len 0) as [E|Hne]; [apply (Hnone len); lia|].
  replace (if f_size f - f_offset f <? len then f_size f - f_offset f else len) with n
    by (unfold n; destruct (Z.ltb_spec (f_size f - f_offset f) len); lia).
  pose proof (fs_small s Hi) as Hsm. rewrite <- Hs in Hsm. cbv zeta. rewrite (sgn_small 64 n) by (pow2; lia). destruct (Z.ltb_spec n 0); [lia|].
  destruct (Z.eqb_spec n 0) as [E|Hn0]; [by apply (Hnone n)|].
  set (f1 := match f_hook f with None => _ | Some _ => f end).
  assert (hook_fine (f_hook f1) /\ f_size f1 = f_size f /\ f_offset f1 = f_offset f) as (Hh1 & Hs1 & Ho1) by (unfold f1; by destruct (f_hook f) eqn:E; rewrite ?E).
  destruct (read_ok f1 n s Hi Hq Hh1) as (s' & -> & Hi' & Hq' & Ec); [congruence|lia|lia|lia|]. rewrite bind_ret. cbv beta iota zeta.
  rewrite (proj2 (Z.ltb_lt 0 n)) by lia. rewrite Ho1. eexists _, s'. split; [done|]. split; [|done].
  split; cbn [set_offset set_hook f_offset f_size f_hook]; rewrite ?Ho1, ?Hs1, ?wrap_small by (pow2; lia); try done.
  split; cbn [set_offset set_hook f_offset f_size f_hook]; rewrite ?Ho1, ?Hs1, ?Ec, ?wrap_small by (pow2; lia); try done. lia.
Qed.

Lemma file_seek_spec f s n : file_ok f s -> 0 <= n ->
  exists f' s', grub_file_seek f n s = (if f_size f <? n then minus_one else f_offset f, f', s') /\
    moved f s (if f_size f <? n then f_offset f else n) f' s' /\ (n <= f_size f -> s' = s).
Proof.
  intros [Hi Hh Hs Ho] Hn. unfold grub_file_seek. destruct (Z.ltb_spec (f_size f) n).
  - destruct (error_ok ERR_OUT_OF_RANGE s Hi) as [Hi' Ec]. eexists _, _. split; [done|]. split; [|lia]. split; try done. split; try done. by rewrite Ec.
  - eexists _, _. split; [done|]. split; [|done]. split; try done.
Qed.

(** ** Sessions *)

Inductive file_op := op_seek (n : Z) | op_fread (len : Z).

(** What a call gives back: the old place, or the count and the bytes.  Callers clear the error
    before they go on. *)
Definition run_file_op (o : file_op) (f : grub_file) (s : S) : option (Z * list Z * grub_file * S) :=
  let s := fs_clear s in
  match o with
  | op_seek n => let '(r, f, s) := grub_file_seek f n s in Some (r, [], f, s)
  | op_fread len => grub_file_read progress f len s
  end.

Fixpoint run_file_ops (l : list file_op) (f : grub_file) (s : S) : option (list (Z * list Z) * grub_file * S) :=
  match l with
  | [] => Some ([], f, s)
  | o :: l => '(r, b, f, s) ← run_file_op o f s; '(rs, f, s) ← run_file_ops l f s; Some ((r, b) :: rs, f, s)
  end.

(** The same on a string of bytes and a place in it. *)
Definition string_op (o : file_op) (c : list Z) (pos : Z) : Z * list Z * Z :=
  match o with
  | op_seek n => if zlen c <? n then (minus_one, [], pos) else (pos, [], n)
  | op_fread len => let n := Z.min len (zlen c - pos) in (n, part c pos n, pos + n)
  end.

Fixpoint string_ops (l : list file_op) (c : list Z) (pos : Z) : list (Z * list Z) :=
  match l with
  | [] => []
  | o :: l => let '(r, b, pos) := string_op o c pos in (r, b) :: string_ops l c pos
  end.

Definition file_op_ok (o : file_op) : Prop := match o with op_seek n => 0 <= n | op_fread len => 0 <= len end.

Lemma file_session_spec l : forall f s, file_ok f s -> Forall file_op_ok l ->
  exists f' s', run_file_ops l f s = Some (string_ops l (contents s) (f_offset f), f', s').
Proof.
  induction l as [|o l IH]; intros f s Hf Hl; cbn [run_file_ops string_ops]; [by eexists _, _|]. apply Forall_cons in Hl as [Ho Hl].
  assert (exists r b pos f1 s1, run_file_op o f s = Some (r, b, f1, s1) /\ string_op o (contents s) (f_offset f) = (r, b, pos) /\ moved f s pos f1 s1)
    as (r & b & pos & f1 & s1 & -> & -> & [Hok Hpos Hc _ _]).
  { destruct (clear_ok s (fo_inv _ _ Hf)) as (Hi & Hq & Ec).
    assert (file_ok f (fs_clear s)) as Hfc by (destruct Hf; split; rewrite ?Ec; done).
    assert (forall pos f1 s1, moved f (fs_clear s) pos f1 s1 -> moved f s pos f1 s1) as Hmv by (intros pos f1 s1 []; split; congruence).
    pose proof (fo_size _ _ Hf) as Es. destruct o as [n|len]; cbn [run_file_op string_op].
    - destruct (file_seek_spec f _ n Hfc Ho) as (f1 & s1 & -> & Hm & _). apply Hmv in Hm. rewrite <- Es. destruct (f_size f <? n); by eexists _, _, _, _, _.
    - destruct (file_read_spec f _ len Hfc Hq Ho) as (f1 & s1 & -> & Hm & _). apply Hmv in Hm. rewrite Ec. rewrite <- Es. by eexists _, _, _, _, _. }
  rewrite bind_ret. cbv beta iota. destruct (IH f1 s1 Hok Hl) as (f' & s' & ->). rewrite bind_ret. cbv beta iota. rewrite Hc, Hpos. by eexists _, _.
Qed.
End Laws.

(** * Buffered files *)

Section Bufio.
Context {S : Type} `{FsOk S}.
Variable progress : option read_hook_t.
Hypothesis progress_fine : hook_fine progress.

(** The buffer holds a part of the file. *)
Record bufio_inv (b : grub_bufio S) : Prop := mk_bufio_inv {
  bi_file : file_ok (b_file b) (b_data b);
  bi_block : 0 < zlen (contents (b_data b)) -> exists j, 0 <= j <= 20 /\ block_size b = 2 ^ j;
  bi_buffer : zlen (buffer b) = block_size b;
  bi_len : 0 <= buffer_len b <= block_size b;
  bi_at : 0 <= buffer_at b /\ buffer_at b + buffer_len b <= zlen (contents (b_data b));
  bi_holds : part (buffer b) 0 (buffer_len b) = part (contents (b_data b)) (buffer_at b) (buffer_len b)
}.

Lemma inner_read_spec b o len : bufio_inv b -> fs_quiet (b_data b) -> 0 <= o <= zlen (contents (b_data b)) -> 0 <= len ->
  let n := Z.min len (zlen (contents (b_data b)) - o) in
  exists f s, inner_read progress b o len = Some (n, part (contents (b_data b)) o n, set_inner f s b) /\
    bufio_inv (set_inner f s b) /\ fs_quiet s /\ contents s = contents (b_data b).
Proof.
  intros [Hf Hb Hl Hn Ha Hh] Hq Ho Hlen n. unfold inner_read. pose proof (fo_size _ _ Hf) as Es.
  destruct (file_seek_spec (b_file b) (b_data b) o Hf ltac:(lia)) as (f1 & s1 & -> & [Hf1 E1 C1 Z1 _] & Es1).
  rewrite (proj2 (Z.ltb_ge (f_size (b_file b)) o)) in E1 by lia. rewrite Es1 in * by lia.
  destruct (file_read_spec progress progress_fine f1 (b_data b) len Hf1 Hq Hlen) as (f2 & s2 & -> & [Hf2 E2 C2 Z2 _] & Hq2). rewrite bind_ret. cbv beta iota.
  rewrite E1, Z1, Es in *. exists f2, s2. split; [done|]. rewrite C2. split; [|done]. split; cbn; try done; by rewrite C2.
Qed.

(** A block boundary. *)
Lemma block_floor b x : bufio_inv b -> 0 < zlen (contents (b_data b)) -> 0 <= x -> let y := Z.land x (Z.lnot (block_size b - 1)) in 0 <= y <= x /\ x < y + block_size b.
Proof.
  intros Hb Hc Hx y. unfold y. destruct (bi_block _ Hb Hc) as (j & Hj & ->). rewrite mask_down by lia.
  pose proof (Z.mod_pos_bound x (2 ^ j) ltac:(apply Z.pow_pos_nonneg; lia)). pose proof (Z.mod_le x (2 ^ j) Hx ltac:(apply Z.pow_pos_nonneg; lia)). lia.
Qed.

Lemma store_buffer_spec (b : grub_bufio S) bytes : zlen bytes <= zlen (buffer b) ->
  exists buf, store_buffer bytes b = Some buf /\ zlen buf = zlen (buffer b) /\ part buf 0 (zlen bytes) = bytes.
Proof.
  intros Hl. unfold store_buffer, overwrite. pose proof (zlen_nonneg bytes). rewrite (proj2 (Z.leb_le (0 + zlen bytes) _)) by lia. cbn [Z.leb Z.compare andb].
  eexists. split; [done|]. change (take (Z.to_nat 0) (buffer b)) with (@nil Z). cbn [app]. split.
  - unfold zlen in *. rewrite length_app, length_drop. lia.
  - unfold part. change (drop (Z.to_nat 0) ?l) with l. apply take_app_length'. unfold zlen. lia.
Qed.

(** Filling the buffer with the block that has the end of a request. *)
Lemma fill_buffer_spec f b len got next : bufio_inv b -> fs_quiet (b_data b) -> let c := contents (b_data b) in
  f_size f = zlen c -> 0 <= f_offset f -> 0 < len -> f_offset f + zlen got + len <= zlen c -> got = part c (f_offset f) (zlen got) ->
  0 <= next <= f_offset f + zlen got -> f_offset f + zlen got + len <= next + block_size b ->
  exists b', fill_buffer progress f next len got b = Some (zlen got + len, part c (f_offset f) (zlen got + len), f, b') /\
    bufio_inv b' /\ fs_quiet (b_data b') /\ contents (b_data b') = c.
Proof.
  intros Hb Hq c Hs Ho Hl Hend Hgot Hnext Hblock. unfold fill_buffer. pose proof (zlen_nonneg got) as Hg.
  destruct (bi_block _ Hb) as (j & Hj & Ebs); [fold c; lia|]. assert (0 < block_size b) as Hpos by (rewrite Ebs; apply Z.pow_pos_nonneg; lia).
  destruct (inner_read_spec b next (block_size b) Hb Hq ltac:(fold c; lia) ltac:(lia)) as (f1 & s1 & -> & Hb1 & Hq1 & C1). fold c. fold c in C1. rewrite bind_ret. cbv beta iota.
  set (n := Z.min (block_size b) (zlen c - next)) in *. rewrite (proj2 (Z.ltb_ge n 0)) by lia.
  assert (zlen (part c next n) = n) as Hpn by (apply zlen_part; lia).
  destruct (store_buffer_spec (set_inner f1 s1 b) (part c next n)) as (buf & -> & Hbuf & Epart); [rewrite Hpn, (bi_buffer _ Hb1); cbn; lia|].
  rewrite bind_ret. rewrite (bi_buffer _ Hb1) in Hbuf. cbn [block_size set_inner] in Hbuf. rewrite Hpn in Epart. cbv zeta.
  set (b2 := set_buffer n next buf (set_inner f1 s1 b)).
  assert (learn_size f b2 = f) as ->.
  { unfold learn_size, GRUB_FILE_SIZE_UNKNOWN. pose proof (fs_small _ (fo_inv _ _ (bi_file _ Hb))) as Hsm. fold c in Hsm.
    destruct (Z.eqb_spec (f_size f) 0xffffffffffffffff); [pow2; lia|done]. }
  cbn [buffer_len buffer set_buffer b2]. rewrite (proj2 (Z.ltb_ge n len)) by lia.
  pose proof (fs_small _ (fo_inv _ _ (bi_file _ Hb))) as Hsm. fold c in Hsm. rewrite wrap_small by (pow2; lia).
  rewrite slice_part, bind_ret by lia. eexists. split; [|split].
  - do 4 f_equal. rewrite part_split by lia. rewrite <- Hgot. f_equal.
    replace (part buf (f_offset f + zlen got - next) len) with (part (part buf 0 n) (f_offset f + zlen got - next) len) by (apply part_part; lia).
    rewrite Epart, part_part by lia. f_equal. lia.
  - split; cbn; rewrite ?C1; try done; try lia; [apply Hb1|intros _; exists j; lia].
  - by split.
Qed.

(** What the buffer has of a request. *)
Lemma from_buffer_spec f b len : bufio_inv b -> let c := contents (b_data b) in f_size f = zlen c -> 0 <= f_offset f -> 0 < len -> f_offset f + len <= zlen c ->
  exists got, from_buffer f b len = Some got /\ got = part c (f_offset f) (zlen got) /\ zlen got <= len.
Proof.
  intros [Hf Hb Hl Hn Ha Hh] c Hs Ho Hlen Hend. unfold from_buffer. pose proof (fs_small _ (fo_inv _ _ Hf)) as Hsm. fold c in Hsm, Ha, Hh.
  rewrite wrap_small by (pow2; lia).
  destruct (Z.leb_spec (buffer_at b) (f_offset f)), (Z.ltb_spec (f_offset f) (buffer_at b + buffer_len b)); cbn [andb];
    try (exists []; split; [done|]; split; [done|]; unfold zlen; cbn; lia).
  cbv zeta. set (n := if _ <? _ then len else _). assert (0 < n /\ n <= len /\ f_offset f + n <= buffer_at b + buffer_len b) as (Hn1 & Hn2 & Hn3).
  { unfold n. destruct (Z.ltb_spec len (buffer_len b - (f_offset f - buffer_at b))); lia. }
  clearbody n. rewrite slice_part by lia. eexists. split; [done|]. rewrite zlen_part by lia. split; [|done].
  replace (part (buffer b) (f_offset f - buffer_at b) n) with (part (part (buffer b) 0 (buffer_len b)) (f_offset f - buffer_at b) n) by (apply part_part; lia).
  rewrite Hh, part_part by lia. f_equal. lia.
Qed.

Lemma learn_size_known f b : f_size f < 2 ^ 63 -> learn_size (S := S) f b = f.
Proof. intros Hs. unfold learn_size, GRUB_FILE_SIZE_UNKNOWN. destruct (Z.eqb_spec (f_size f) 0xffffffffffffffff); [pow2; lia|done]. Qed.

Lemma bufio_read_spec f b len : bufio_inv b -> fs_quiet (b_data b) -> let c := contents (b_data b) in f_size f = zlen c -> 0 <= f_offset f -> 0 < len ->
  f_offset f + len <= zlen c ->
  exists b', grub_bufio_read progress f len b = Some (len, part c (f_offset f) len, f, b') /\ bufio_inv b' /\ fs_quiet (b_data b') /\
    contents (b_data b') = c.
Proof.
  intros Hb Hq c Hs Ho Hl Hend. unfold grub_bufio_read. pose proof (fs_small _ (fo_inv _ _ (bi_file _ Hb))) as Hsm. fold c in Hsm.
  rewrite learn_size_known by lia. destruct (from_buffer_spec f b len Hb Hs Ho Hl Hend) as (got & -> & Hgot & Hle). fold c in Hgot. rewrite bind_ret.
  pose proof (zlen_nonneg got) as Hg. cbv zeta. destruct (Z.eqb_spec (len - zlen got) 0) as [E|E].
  { replace len with (zlen got) in * by lia. rewrite <- Hgot. by exists b. }
  rewrite !(wrap_small 64) by (pow2; lia). pose proof (block_floor b (f_offset f + zlen got + (len - zlen got) - 1) Hb ltac:(fold c; lia) ltac:(lia)) as Hfl. cbv zeta in Hfl.
  set (next := Z.land _ _) in *. destruct (Z.ltb_spec (f_offset f + zlen got) next) as [Hlt|Hge].
  - destruct (inner_read_spec b (f_offset f + zlen got) (next - (f_offset f + zlen got)) Hb Hq ltac:(fold c; lia) ltac:(lia)) as (f1 & s1 & -> & Hb1 & Hq1 & C1).
    fold c in C1. fold c. rewrite bind_ret. cbv beta iota. rewrite Z.min_l by lia. set (r := next - (f_offset f + zlen got)).
    rewrite (proj2 (Z.ltb_ge r 0)), Z.eqb_refl by lia. cbn [negb]. rewrite learn_size_known by lia.
    set (got2 := got ++ part c (f_offset f + zlen got) r).
    assert (zlen got2 = zlen got + r) as Hz2 by (unfold got2; rewrite zlen_app, zlen_part; lia).
    destruct (fill_buffer_spec f (set_inner f1 s1 b) (len - zlen got - r) got2 next Hb1 Hq1) as (b' & -> & Hb' & Hq' & C'); cbn [b_data set_inner block_size]; rewrite ?C1, ?Hz2; try lia.
    + unfold got2. rewrite part_split, <- Hgot by lia. done.
    + exists b'. replace (zlen got + r + (len - zlen got - r)) with len by lia. split; [done|]. split; [done|]. split; [done|]. rewrite C'. exact C1.
  - destruct (fill_buffer_spec f b (len - zlen got) got next Hb Hq) as (b' & -> & Hb' & Hq' & C'); fold c; try lia; try done.
    exists b'. by replace (zlen got + (len - zlen got)) with len by lia.
Qed.

(** The data below may change as long as the contents do not. *)
Lemma bufio_data_spec b s : bufio_inv b -> fs_inv s -> contents s = contents (b_data b) -> bufio_inv (set_inner (b_file b) s b).
Proof. intros [[Hi Hh Hs Ho] Hb Hl Hn Ha Hp] Hi' Ec. split; cbn; rewrite ?Ec; try done. split; cbn; rewrite ?Ec; done. Qed.

#[export] Instance bufio_fs_ok : FsOk (grub_bufio S) (H := bufio_fs progress).
Proof using H0 progress_fine.
  refine {| contents := fun b => contents (b_data b); fs_inv := bufio_inv; fs_quiet := fun b => fs_quiet (b_data b) |}.
  - intros b Hb. apply fs_small, Hb.
  - intros f len b Hb Hq _ Hs Ho Hl Hend. apply bufio_read_spec; try done. lia.
  - intros e b Hb. destruct (error_ok e (b_data b) (fo_inv _ _ (bi_file _ Hb))) as [Hi Ec]. split; [by apply bufio_data_spec|done].
  - intros b Hb. destruct (clear_ok (b_data b) (fo_inv _ _ (bi_file _ Hb))) as (Hi & Hq & Ec). split; [by apply bufio_data_spec|done].
Defined.

(** ** Parts of files *)

Definition offset_inv (size : Z) (o : grub_offset_file S) : Prop :=
  file_ok (parent o) (o_data o) /\ 0 <= off o /\ 0 <= size /\ off o + size <= zlen (contents (o_data o)).

Lemma offset_read_spec size f o len : offset_inv size o -> fs_quiet (o_data o) -> 0 <= f_offset f -> 0 < len -> f_offset f + len <= size ->
  exists o', grub_offset_read progress f len o = Some (len, part (contents (o_data o)) (off o + f_offset f) len, f, o') /\
    offset_inv size o' /\ fs_quiet (o_data o') /\ off o' = off o /\ contents (o_data o') = contents (o_data o).
Proof.
  intros (Hf & Hoff & Hsz & Hend) Hq Ho Hl Hin. unfold grub_offset_read. pose proof (fs_small _ (fo_inv _ _ Hf)) as Hsm. rewrite wrap_small by (pow2; lia).
  pose proof (fo_size _ _ Hf) as Es. destruct (file_seek_spec (parent o) (o_data o) (off o + f_offset f) Hf ltac:(lia)) as (p1 & s1 & -> & [Hf1 E1 C1 Z1 _] & Es1).
  rewrite Es1 in * by lia. rewrite (proj2 (Z.ltb_ge (f_size (parent o)) (off o + f_offset f))) in * by lia. pose proof (fo_offset _ _ Hf) as Hpo.
  destruct (Z.eqb_spec (f_offset (parent o)) minus_one) as [E|_]; [unfold minus_one in E; pow2; lia|].
  destruct (file_read_spec progress progress_fine p1 (o_data o) len Hf1 Hq ltac:(lia)) as (p2 & s2 & -> & [Hf2 E2 C2 Z2 _] & Hq2). rewrite bind_ret. cbv beta iota.
  rewrite E1, Z1, Es in *. rewrite Z.min_l by lia. eexists. split; [done|]. cbn. rewrite C2. split; [|done].
  split; [done|]. cbn. rewrite C2. done.
Qed.

#[export] Instance offset_fs_ok (size : Z) : FsOk (grub_offset_file S) (H := offset_fs progress).
Proof using H0 progress_fine.
  refine {| contents := fun o => part (contents (o_data o)) (off o) size; fs_inv := offset_inv size; fs_quiet := fun o => fs_quiet (o_data o) |}.
  - intros o (Hf & Ho & Hs & He). rewrite zlen_part by lia. pose proof (fs_small _ (fo_inv _ _ Hf)). lia.
  - intros f len o Ho Hq _ Hs Hp Hl Hend. pose proof Ho as (Hf & Hoff & Hsz & He). rewrite zlen_part in Hs by lia.
    destruct (offset_read_spec size f o len Ho Hq Hp Hl ltac:(lia)) as (o' & E & Ho' & Hq' & Eo & Ec). exists o'. rewrite part_part by lia.
    split; [exact E|]. split; [done|]. split; [done|]. by rewrite Eo, Ec.
  - intros e o ([Hi Hh Hs Hp] & Ho & Hsz & He). destruct (error_ok e (o_data o) Hi) as [Hi' Ec]. cbn. rewrite Ec. split; [|done].
    split; [|by cbn; rewrite Ec]. split; cbn; rewrite ?Ec; done.
  - intros o ([Hi Hh Hs Hp] & Ho & Hsz & He). destruct (clear_ok (o_data o) Hi) as (Hi' & Hq & Ec). cbn. rewrite Ec. split; [|done].
    split; [|by cbn; rewrite Ec]. split; cbn; rewrite ?Ec; done.
Defined.

End Bufio.

(** ** The size of the buffer *)

Lemma testbit_split c r k n : 0 <= k -> 0 <= n -> 0 <= r < 2 ^ k -> Z.testbit (c * 2 ^ k + r) n = if n <? k then Z.testbit r n else Z.testbit c (n - k).
Proof.
  intros Hk Hn Hr. destruct (Z.ltb_spec n k).
  - rewrite <- (Z.mod_pow2_bits_low _ k) by lia. rewrite Z.add_comm, Z.mod_add, Z.mod_small by lia. done.
  - replace n with ((n - k) + k) at 1 by lia. rewrite <- Z.div_pow2_bits by lia. rewrite Z.div_add_l, Z.div_small, Z.add_0_r by lia. done.
Qed.

(** An odd number of units, and the number below it. *)
Lemma odd_round h k : 0 <= h -> 0 <= k -> let x := (2 * h + 1) * 2 ^ k in
  Z.lor x (x - 1) + 1 = (2 * h + 2) * 2 ^ k /\ Z.land x (x - 1) = 2 * h * 2 ^ k.
Proof.
  intros Hh Hk x. assert (0 < 2 ^ k) as Hp by (apply Z.pow_pos_nonneg; lia).
  assert (x - 1 = 2 * h * 2 ^ k + (2 ^ k - 1)) as E by (unfold x; lia). assert (x = (2 * h + 1) * 2 ^ k + 0) as E0 by (unfold x; lia).
  assert (forall n, 0 <= n -> Z.testbit (2 * h + 1) n = (n =? 0) || Z.testbit (2 * h) n) as Hodd.
  { intros n Hn. destruct (Z.eqb_spec n 0) as [->|]; [by rewrite Z.testbit_odd_0|]. replace n with (Z.succ (n - 1)) by lia.
    rewrite Z.testbit_odd_succ, Z.testbit_even_succ by lia. done. }
  assert (forall n, 0 <= n -> Z.testbit (2 ^ k - 1) n = (n <? k)) as Hones.
  { intros n Hn. replace (2 ^ k - 1) with (Z.ones k) by (rewrite Z.ones_equiv; lia). destruct (Z.ltb_spec n k); [by apply Z.ones_spec_low|by apply Z.ones_spec_high]. }
  split.
  - replace ((2 * h + 2) * 2 ^ k) with ((2 * h + 1) * 2 ^ k + (2 ^ k - 1) + 1) by lia. f_equal. apply Z.bits_inj'. intros n Hn.
    rewrite Z.lor_spec, E, E0, !testbit_split, Z.bits_0, Hones by lia. destruct (Z.ltb_spec n k); [done|]. rewrite Hodd by lia.
    by destruct (n - k =? 0), (Z.testbit (2 * h) (n - k)).
  - replace (2 * h * 2 ^ k) with (2 * h * 2 ^ k + 0) by lia. apply Z.bits_inj'. intros n Hn.
    rewrite Z.land_spec, E, E0, !testbit_split, Z.bits_0, Hones by lia. destruct (Z.ltb_spec n k); [done|]. rewrite Hodd by lia.
    destruct (Z.eqb_spec (n - k) 0) as [->|]; [by rewrite Z.testbit_even_0|]. by destruct (Z.testbit (2 * h) (n - k)).
Qed.

Lemma odd_part (n : nat) : forall x, 0 < x <= Z.of_nat n -> exists h k, 0 <= h /\ 0 <= k /\ x = (2 * h + 1) * 2 ^ k.
Proof.
  induction n as [|n IH]; intros x Hx; [lia|]. destruct (Z.Even_or_Odd x) as [[m ->]|[m ->]].
  - destruct (IH m ltac:(lia)) as (h & k & Hh & Hk & ->). exists h, (Z.succ k). rewrite Z.pow_succ_r by lia. split; [done|]. split; [lia|]. lia.
  - exists m, 0. rewrite Z.pow_0_r. lia.
Qed.

(** The loop climbs to the next power of two. *)
Lemma round_up_spec fuel : forall h k, 0 <= h -> 0 <= k -> (2 * h + 1) * 2 ^ k <= 2 ^ 20 -> 20 - k <= Z.of_nat fuel ->
  exists j, 0 <= j <= 20 /\ round_up fuel ((2 * h + 1) * 2 ^ k) = Some (2 ^ j) /\ (2 * h + 1) * 2 ^ k <= 2 ^ j.
Proof.
  induction fuel as [|fuel IH]; intros h k Hh Hk Hb Hf; assert (0 < 2 ^ k) as Hp by (apply Z.pow_pos_nonneg; lia);
    destruct (odd_round h k Hh Hk) as [Eor Eand]; set (x := (2 * h + 1) * 2 ^ k) in *; assert (0 < x) as Hx by (unfold x; lia);
    cbn [round_up]; rewrite (wrap_small 64 (x - 1)) by (change (2 ^ 20) with 1048576 in Hb; pow2; lia); rewrite Eand;
    destruct (Z.eqb_spec (2 * h * 2 ^ k) 0) as [E0|E0].
  1,3: assert (h = 0) as -> by nia; exists k; replace x with (2 ^ k) in * by (unfold x; lia); split; [|done]; split; [done|]; by apply (Z.pow_le_mono_r_iff 2); lia.
  - exfalso. assert (2 ^ 20 <= 2 ^ k) by (apply Z.pow_le_mono_r; lia). unfold x in *. nia.
  - rewrite Eor. destruct (odd_part (Z.to_nat (h + 1)) (h + 1) ltac:(lia)) as (h' & m & Hh' & Hm & Eh).
    assert ((2 * h + 2) * 2 ^ k = (2 * h' + 1) * 2 ^ (k + 1 + m)) as En.
    { rewrite !Z.pow_add_r by lia. replace (2 * h + 2) with (2 * (h + 1)) by lia. rewrite Eh. lia. }
    assert ((2 * h + 2) * 2 ^ k <= 2 ^ 20) as Hle.
    { assert (k < 20) as Hk20. { apply (Z.pow_lt_mono_r_iff 2); [lia|lia|]. unfold x in *. nia. }
      assert (2 ^ 20 = 2 ^ (19 - k) * 2 * 2 ^ k) as E20.
      { replace 20 with ((19 - k) + 1 + k) at 1 by lia. rewrite !Z.pow_add_r by lia. lia. }
      rewrite E20 in *. unfold x in *. apply Z.mul_le_mono_nonneg_r; [lia|]. assert (2 * h + 1 <= 2 ^ (19 - k) * 2) by nia. lia. }
    rewrite wrap_small by (change (2 ^ 20) with 1048576 in Hle; pow2; lia).
    rewrite En in *. destruct (IH h' (k + 1 + m) Hh' ltac:(lia) Hle ltac:(lia)) as (j & Hj & -> & Hxj). exists j. split; [done|]. split; [done|].
    unfold x. nia.
Qed.

Lemma bufio_size_spec io_size size : 0 <= io_size -> 0 <= size ->
  exists n, bufio_size io_size size = Some n /\ 0 <= n /\ (0 < io_size -> exists j, 0 <= j <= 20 /\ n = 2 ^ j).
Proof.
  intros Hio Hsz. unfold bufio_size, GRUB_BUFIO_DEF_SIZE, GRUB_BUFIO_MAX_SIZE.
  set (s1 := if size =? 0 then 8192 else _). assert (0 < s1 <= 1048576) as H1.
  { unfold s1. destruct (Z.eqb_spec size 0), (Z.ltb_spec 1048576 size); lia. }
  clearbody s1. set (s2 := if io_size <? s1 then _ else _). assert (0 <= s2 <= 1048576 /\ (0 < io_size -> 0 < s2)) as [H2 H2'].
  { unfold s2. destruct (Z.ltb_spec io_size s1); [destruct (Z.ltb_spec 1048576 io_size); lia|lia]. }
  clearbody s2. destruct (Z.eq_dec s2 0) as [->|Hne].
  { exists 0. split; [done|]. split; [lia|]. intros Hpos. specialize (H2' Hpos). lia. }
  destruct (odd_part (Z.to_nat s2) s2 ltac:(lia)) as (h & k & Hh & Hk & ->).
  destruct (round_up_spec 64 h k Hh Hk ltac:(change (2 ^ 20) with 1048576; lia) ltac:(lia)) as (j & Hj & -> & _).
  exists (2 ^ j). split; [done|]. split; [apply Z.pow_nonneg; lia|]. intros _. by exists j.
Qed.

Section Theorems.
Context {S : Type} `{FsOk S}.
Variable progress : option read_hook_t.
Hypothesis progress_fine : hook_fine progress.

(** C5: On a file of any file system that keeps its laws, every sequence of seeks and reads gives
    exactly what a string of bytes with a place in it gives: a read returns what is left of the
    request before the end, with those bytes, and moves the place; a seek outside the file is
    refused with -1 and moves nothing. *)
Theorem file_session_reads_contents l f (s : S) : file_ok f s -> Forall file_op_ok l ->
  exists f' s', run_file_ops progress l f s = Some (string_ops l (contents s) (f_offset f), f', s').
Proof. by apply file_session_spec. Qed.

Lemma bufio_open_ok io (s : S) size : file_ok io s -> 0 <= size ->
  exists f b, grub_bufio_open io s size = Some (f, b) /\ f_offset f = 0 /\ b_data b = s /\
    file_ok (S := grub_bufio S) (H := bufio_fs progress) (H0 := bufio_fs_ok progress progress_fine) f b.
Proof.
  intros [Hi Hh Hs Ho] Hsz. unfold grub_bufio_open. destruct (bufio_size_spec (f_size io) size ltac:(lia) Hsz) as (n & -> & Hn & Hpow). rewrite bind_ret.
  eexists _, _. split; [done|]. split; [done|]. split; [done|]. split; cbn.
  - split; cbn; try done; try lia.
    + intros Hpos. apply Hpow. lia.
    + unfold zlen. rewrite length_replicate. lia.
  - done.
  - done.
  - split; [lia|]. rewrite Hs. apply zlen_nonneg.
Qed.

(** C6: A buffer in front of a file makes no difference, when the size that the file records is the
    length of its contents: whatever the size of the buffer, every sequence of seeks and reads on the
    buffered file gives the same results as on the file itself.  The size of the buffer is always a
    power of two, which the rounding to blocks needs.  (A file of unknown size, which records the
    largest size there is, gets bytes counted that are not in it.) *)
Theorem bufio_is_transparent io (s : S) size l : file_ok io s -> 0 <= size -> Forall file_op_ok l ->
  exists f b f1 b1 f2 s2 r, grub_bufio_open io s size = Some (f, b) /\
    run_file_ops (S := grub_bufio S) (H := bufio_fs progress) progress l f b = Some (r, f1, b1) /\
    run_file_ops progress l (set_offset 0 io) s = Some (r, f2, s2).
Proof.
  intros Hf Hsz Hl. destruct (bufio_open_ok io s size Hf Hsz) as (f & b & Eo & Ef & Eb & Hok).
  destruct (file_session_spec (S := grub_bufio S) (H := bufio_fs progress) (H0 := bufio_fs_ok progress progress_fine) progress progress_fine l f b Hok Hl)
    as (f1 & b1 & E1).
  assert (file_ok (set_offset 0 io) s) as Hf0 by (destruct Hf as [Hi Hh Hs Ho]; split; cbn; [done|done|done|lia]).
  destruct (file_session_spec progress progress_fine l _ s Hf0 Hl) as (f2 & s2 & E2).
  exists f, b, f1, b1, f2, s2, (string_ops l (contents s) 0). split; [done|]. split; [|exact E2].
  rewrite E1. cbn. by rewrite Eb, Ef.
Qed.
End Theorems.

(** * Disks under a file system *)

Lemma part_bytes f a n d m : 0 <= d -> 0 <= m -> d + m <= n -> part (bytes f a n) d m = bytes f (a + d) m.
Proof.
  intros Hd Hm Hn. pose proof (slice_bytes f a n d m Hd Hm Hn) as E. rewrite slice_part in E by (rewrite ?zlen_bytes; lia). by injection E.
Qed.

Definition set_read_hook (h : option read_hook_t) (k : grub_disk) : grub_disk :=
  mk_disk (disk_name k) (dev_id k) (total_sectors k) (log_sector_size k) (max_agglomerate k) (id k) (partition k) h.

Section Sturdy.
Context {D : Type} `{DevicesOk D}.
Variable memory : nat -> Z -> bool * bool.

(** A disk on which nothing fails, whatever the hook. *)
Record sturdy (k : grub_disk) (s : state (D := D)) : Prop := mk_sturdy {
  st_ok : cache_ok s;
  st_depth : 0 <= read_recursion_depth s < 15;
  st_disk : disk_ok k;
  st_parts : parts_ok (partition k);
  st_memory : enough_memory memory;
  st_reliable : forall h, reliable (set_read_hook h k) s
}.

Lemma sturdy_frame k s s' : sturdy k s -> frame s s' -> sturdy k s'.
Proof.
  intros [] [C M Dp]. split; try done; [by rewrite Dp|]. intros h p sector n. rewrite M. apply st_reliable0.
Qed.

Lemma within_sub limit parts : forall a size d n, within limit parts a size = true -> 0 <= d -> 0 <= n -> d + n <= size ->
  within limit parts (a + d) n = true /\ place parts (a + d) = place parts a + d.
Proof.
  induction parts as [|p parts IH]; intros a size d n Hw Hd Hn Hs; cbn [within place] in *.
  - split; [|done]. apply Z.leb_le. apply Z.leb_le in Hw. lia.
  - apply andb_prop in Hw as [Hl Hw]. destruct (IH _ _ d n Hw Hd Hn Hs) as [Hw' Hp']. rewrite Z.add_assoc. split; [|done].
    rewrite Hw', andb_true_r. apply Z.leb_le. apply Z.leb_le in Hl. lia.
Qed.

(** A read of bytes that are there, with the hook of a file. *)
Lemma sturdy_read k h s sector offset size : sturdy k s -> grub_errno s = ERR_NONE -> hook_fine h -> 0 <= sector -> 0 <= offset -> 0 < size ->
  within (disk_end k) (partition k) (sector * 512 + offset) size = true ->
  exists s', grub_disk_read memory (set_read_hook h k) sector offset size s =
    Some (ERR_NONE, bytes (disk_bytes s k) (place (partition k) (sector * 512 + offset)) size, s') /\ frame s s' /\ grub_errno s' = ERR_NONE.
Proof.
  intros [Hs Hd Hk Hp Hm Hr] He Hh Hsec Ho Hz Hw. pose proof (within_limit _ _ _ _ Hp Hw) as Hb.
  assert (disk_end k <= 2 ^ 51) as Hde by (unfold disk_end; lia). change (2 ^ 51) with 2251799813685248 in Hde.
  assert (disk_ok (set_read_hook h k)) as Hk' by (by destruct Hk).
  destruct (disk_read_spec memory (set_read_hook h k) sector offset size s Hs Hk' Hp Hsec Ho Hz ltac:(pow2; dlia) ltac:(pow2; dlia) Hd)
    as (e & b & s' & -> & F & _ & Ho').
  change (disk_end (set_read_hook h k)) with (disk_end k) in Ho'. change (partition (set_read_hook h k)) with (partition k) in Ho'. rewrite Hw in Ho'.
  destruct Ho' as [Hok Hlive]. assert (e = ERR_NONE) as ->.
  { apply Hlive; [|done]. split; [done|]. split; [|apply Hr]. intros hook a b' c d Eh. by apply (Hh hook). }
  destruct (Hok eq_refl) as [-> Es]. by exists s'.
Qed.
End Sturdy.

(** A disk in memory never fails. *)
Lemma ram_sturdy (r : ram) n : 0 <= n -> sturdy plenty (small_disk 9 n 32 []) (fresh r).
Proof.
  intros Hn0. split; [apply fresh_ok|cbn; lia|apply small_disk_ok; lia|apply Forall_nil_2|done|]. intros h p sector m Hs Hm He. cbn in He.
  unfold disk_read. cbn [ram_devices total_sectors set_partition set_read_hook small_disk].
  rewrite (proj2 (Z.ltb_ge sector 0)), (proj2 (Z.ltb_ge n (sector + m))) by lia. by eexists.
Qed.

(** ** A file in memory *)

#[export] Instance memory_fs : Fs (list Z) := {|
  fs_read f len c := Some (Z.min len (zlen c - f_offset f), part c (f_offset f) (Z.min len (zlen c - f_offset f)), f, c);
  fs_error _ c := c;
  fs_clear c := c
|}.

#[export] Instance memory_fs_ok : FsOk (list Z).
Proof.
  refine {| contents := fun c : list Z => c; fs_inv := fun c => zlen c < 2 ^ 63; fs_quiet := fun _ => True |}; [done| |done|done].
  intros f len c Hc _ _ Hs Ho Hl He. exists c. split; [|done]. cbn. rewrite Z.min_l by lia. done.
Defined.

Lemma no_hook_fine : hook_fine None.
Proof. done. Qed.

Definition hello : list Z := [72; 101; 108; 108; 111; 33].

Lemma hello_ok : file_ok (mk_file 0 6 None 0) hello.
Proof. split; [by vm_compute|done|reflexivity|cbn; lia]. Qed.

Definition hello_ops : list file_op := [op_fread 2; op_seek 4; op_fread 9; op_seek 7; op_fread 1].

Lemma file_session_reads_contents_witness :
  (exists f' s', run_file_ops None hello_ops (mk_file 0 6 None 0) hello = Some (string_ops hello_ops hello 0, f', s')) /\
  string_ops hello_ops hello 0 = [(2, [72; 101]); (2, []); (2, [111; 33]); (minus_one, []); (0, [])].
Proof.
  split; [|vm_compute; reflexivity].
  apply (file_session_reads_contents None no_hook_fine hello_ops (mk_file 0 6 None 0) hello hello_ok).
  repeat constructor; cbn; lia.
Defined.

Lemma bufio_is_transparent_witness : exists f b f1 b1 f2 s2 r, grub_bufio_open (mk_file 0 6 None 0) hello 3 = Some (f, b) /\
  run_file_ops (S := grub_bufio (list Z)) (H := bufio_fs None) None hello_ops f b = Some (r, f1, b1) /\
  run_file_ops None hello_ops (set_offset 0 (mk_file 0 6 None 0)) hello = Some (r, f2, s2).
Proof.
  apply (bufio_is_transparent None no_hook_fine (mk_file 0 6 None 0) hello 3 hello_ops hello_ok); [lia|]. repeat constructor; cbn; lia.
Defined.
(** A file whose size is not known and that ends earlier than a read: the buffered file counts
    bytes behind the end of the file, since the count is cut to what the buffer holds and not to
    what it holds behind the place of the file. *)
Example bufio_pads_unknown_file :
  ('(f, b) ← grub_bufio_open (mk_file 0 GRUB_FILE_SIZE_UNKNOWN None 0) hello 8;
   '(r, bytes, _, _) ← grub_bufio_read None (set_offset 4 f) 4 b;
   Some (r, bytes)) = Some (4, [111; 33; 0; 0]).
Proof. vm_compute. reflexivity. Qed.

End GrubFile.
