(* ===== verification/GrubBlocklist.v ===== *)
(** Block lists (src/grub/grub-core/kern/fs.c): files that are given by the sectors of a disk, such
    as [(hd0)100+8,200+4]; opening them by their text, and reading them through the disk layer. *)

From S2P Require Import Prelude GrubStr GrubNum GrubDisk GrubProbe GrubFile.

Module GrubBlocklist.
Import GrubStr GrubNum GrubDisk GrubProbe GrubFile.

Record grub_fs_block := mk_block { bl_offset : Z; bl_length : Z }.

(** ** Opening *)

Section Open.
Context {D : Type} `{Devices D}.
Variable memory : nat -> Z -> bool * bool.

(** The commas of the text, and one. *)
Fixpoint count_blocks (name : list Z) : Z :=
  match name with
  | [] => 1
  | c :: name => if c =? 44 then 1 + count_blocks name else count_blocks name
  end.

Definition bad_filename (s : state (D := D)) : state := set_errno ERR_BAD_FILENAME s.

(** A number; a failed conversion leaves its error. *)
Definition number_at (p : list Z) (s : state (D := D)) : option (Z * list Z * state (D := D)) :=
  r ← grub_strtoull p 0;
  Some (value r, endp r, match errno r with ERR_NONE => s | e => set_errno e s end).

(** The blocks of the text, and the size of the file so far; the text that is left starts a block. *)
Fixpoint parse_blocks (num : nat) (max_sectors : Z) (p : list Z) (size : Z) (s : state (D := D))
  : option (option (list grub_fs_block * Z) * state (D := D)) :=
  match num with
  | O => Some (Some ([], size), s)
  | S num =>
      '(start, p, s) ← (if at0 p =? 43 then Some (Some 0, p, s)
                        else
                          '(n, p, s) ← number_at p s;
                          Some (if negb (bool_decide (grub_errno s = ERR_NONE)) || negb (at0 p =? 43) then None else Some n, p, s));
      match start with
      | None => Some (None, bad_filename s)
      | Some start =>
          let p := tail p in
          '(length, p, s) ← (if (at0 p =? 0) || (at0 p =? 44) then Some (u64 (max_sectors - start), p, s) else number_at p s);
          if negb (bool_decide (grub_errno s = ERR_NONE)) || (length =? 0)
             || (negb (at0 p =? 0) && negb (at0 p =? 44) && negb (grub_isspace (at0 p))) then Some (None, bad_filename s) else
          if max_sectors <? u64 (start + length) then Some (None, bad_filename s) else
          '(r, s) ← parse_blocks num max_sectors (tail p) (u64 (size + u64 (Z.shiftl length GRUB_DISK_SECTOR_BITS))) s;
          Some (match r with None => None | Some (bs, size) => Some (mk_block start length :: bs, size) end, s)
      end
  end.

(** The file and its blocks; none if there is no memory for them, which is no error. *)
Definition grub_fs_blocklist_open (k : grub_disk) (name : list Z) (s : state (D := D))
  : option (grub_err_t * option (grub_file * list grub_fs_block) * state (D := D)) :=
  let num := u32 (count_blocks name) in
  let '(ok, s) := malloc memory (u32 (num + 1) * 16) s in
  if negb ok then Some (ERR_NONE, None, s) else
  '(r, s) ← parse_blocks (Z.to_nat num) (grub_disk_from_native_sector k (total_sectors k)) name 0 s;
  Some (match r with
        | None => (grub_errno s, None, s)
        | Some (bs, size) => (ERR_NONE, Some (mk_file 0 size None 0, bs), s)
        end).
End Open.

(** ** Reading *)

Record blocklist (D : Type) := mk_blocklist {
  bl_disk : grub_disk;
  bl_blocks : list grub_fs_block;
  bl_state : state (D := D)
}.
Arguments mk_blocklist {D}.
Arguments bl_disk {D}.
Arguments bl_blocks {D}.
Arguments bl_state {D}.

Section Read.
Context {D : Type} `{Devices D}.
Variable memory : nat -> Z -> bool * bool.

(** The blocks up to one without length; [ret] bytes have been read.  [buf] is the buffer of the
    caller: every block is stored at its start. *)
Fixpoint read_blocks (bs : list grub_fs_block) (k : grub_disk) (sector offset len ret : Z) (buf : list Z) (s : state (D := D))
  : option (Z * list Z * state (D := D)) :=
  match bs with
  | [] => Some (ret, buf, s)
  | p :: bs =>
      if (bl_length p =? 0) || (len =? 0) then Some (ret, buf, s) else
      if sector <? bl_length p then
        let size := if bl_length p - sector <? Z.shiftr (u64 (len + offset + GRUB_DISK_SECTOR_SIZE - 1)) GRUB_DISK_SECTOR_BITS
                    then u64 (Z.shiftl (bl_length p - sector) GRUB_DISK_SECTOR_BITS - offset) else len in
        '(e, b, s) ← grub_disk_read memory k (u64 (bl_offset p + sector)) offset size s;
        buf ← overwrite buf 0 b;
        if negb (bool_decide (e = ERR_NONE)) then Some (-1, buf, s) else
        read_blocks bs k (u64 (sector - Z.shiftr (u64 (size + offset)) GRUB_DISK_SECTOR_BITS))
          (Z.land (u64 (size + offset)) (GRUB_DISK_SECTOR_SIZE - 1)) (u64 (len - size)) (s64 (ret + size)) buf s
      else read_blocks bs k (u64 (sector - bl_length p)) offset len ret buf s
  end.

Definition grub_fs_blocklist_read (file : grub_file) (len : Z) (buf : list Z) (b : blocklist D) : option (Z * list Z * grub_file * blocklist D) :=
  let left := u64 (f_size file - f_offset file) in
  let len := if left <? len then left else len in
  let sector := Z.shiftr (f_offset file) GRUB_DISK_SECTOR_BITS in
  let offset := Z.land (f_offset file) (GRUB_DISK_SECTOR_SIZE - 1) in
  '(ret, buf, s) ← read_blocks (bl_blocks b) (set_read_hook (f_hook file) (bl_disk b)) sector offset len 0 buf (bl_state b);
  Some (ret, buf, file, mk_blocklist (set_read_hook None (bl_disk b)) (bl_blocks b) s).
End Read.

(** The buffer of the caller holds [stale] before it is read into; the bytes it counts are the first
    ones. *)
#[export] Instance blocklist_fs {D} `{Devices D} (memory : nat -> Z -> bool * bool) (stale : Z -> list Z) : Fs (blocklist D) := {|
  fs_read f len b := '(ret, buf, f, b) ← grub_fs_blocklist_read memory f len (stale len) b; Some (ret, take (Z.to_nat ret) buf, f, b);
  fs_error e b := mk_blocklist (bl_disk b) (bl_blocks b) (set_errno e (bl_state b));
  fs_clear b := mk_blocklist (bl_disk b) (bl_blocks b) (set_errno ERR_NONE (bl_state b))
|}.

(** * What is read *)

Section Laws.
Context {D : Type} `{DevicesOk D}.
Variable memory : nat -> Z -> bool * bool.
Variable stale : Z -> list Z.
Hypothesis stale_len : forall n, 0 <= n -> zlen (stale n) = n.

(** The blocks of a range, as bytes of the disk. *)
Definition block_ok (k : grub_disk) (p : grub_fs_block) : Prop :=
  0 <= bl_offset p /\ 0 < bl_length p /\ within (disk_end k) (partition k) (bl_offset p * 512) (bl_length p * 512) = true.

Definition block_bytes (k : grub_disk) (s : state (D := D)) (p : grub_fs_block) : list Z :=
  bytes (disk_bytes s k) (place (partition k) (bl_offset p * 512)) (bl_length p * 512).

Lemma overwrite_start buf b : zlen b <= zlen buf -> overwrite buf 0 b = Some (b ++ drop (Z.to_nat (zlen b)) buf).
Proof.
  intros Hb. unfold overwrite. rewrite (proj2 (Z.leb_le (0 + zlen b) (zlen buf))) by lia. by rewrite Z.add_0_l.
Qed.

Lemma take_part c a n rest : 0 <= a -> 0 <= n -> a + n <= zlen c -> take (Z.to_nat n) (part c a n ++ rest) = part c a n.
Proof.
  intros Ha Hn Hc. pose proof (zlen_part c a n Ha Hn Hc) as E. unfold zlen in E. rewrite take_app_length' by lia. done.
Qed.

Lemma drop_part c a n rest : 0 <= a -> 0 <= n -> a + n <= zlen c -> drop (Z.to_nat n) (part c a n ++ rest) = rest.
Proof. intros Ha Hn Hc. pose proof (zlen_part c a n Ha Hn Hc) as E. unfold zlen in E. by rewrite drop_app_length' by lia. Qed.

(** One block of which [size] bytes are wanted: no more than it has from there. *)
Lemma read_block k h s p bs sector offset len size ret buf : sturdy memory k s -> grub_errno s = ERR_NONE -> hook_fine h -> block_ok k p ->
  0 <= sector < bl_length p -> 0 <= offset < 512 -> 0 < len < 2 ^ 62 -> size = Z.min len ((bl_length p - sector) * 512 - offset) ->
  size <= zlen buf -> exists s', frame s s' /\ grub_errno s' = ERR_NONE /\
    read_blocks memory (p :: bs) (set_read_hook h k) sector offset len ret buf s =
    read_blocks memory bs (set_read_hook h k) (u64 (sector - (size + offset) / 512)) ((size + offset) mod 512) (len - size) (s64 (ret + size))
      (part (block_bytes k s p) (sector * 512 + offset) size ++ drop (Z.to_nat size) buf) s'.
Proof.
  intros Hst He Hh (Hpo & Hpl & Hw) Hsec Ho Hlen Esz Hbuf. cbn [read_blocks]. rewrite (proj2 (Z.eqb_neq (bl_length p) 0)), (proj2 (Z.eqb_neq len 0)) by lia.
  cbn [orb]. rewrite (proj2 (Z.ltb_lt sector (bl_length p))) by lia. unfold GRUB_DISK_SECTOR_SIZE, GRUB_DISK_SECTOR_BITS.
  pose proof (within_limit _ _ _ _ (st_parts _ _ _ Hst) Hw) as Hb. assert (disk_end k <= 2 ^ 51) as Hde by (unfold disk_end; lia).
  change (2 ^ 51) with 2251799813685248 in Hde. change (2 ^ 62) with 4611686018427387904 in Hlen.
  rewrite (wrap_small 64 (len + offset + 512 - 1)), !Z.shiftr_div_pow2, Z.shiftl_mul_pow2 by (pow2; lia). change (2 ^ 9) with 512.
  rewrite (wrap_small 64 ((bl_length p - sector) * 512 - offset)) by (pow2; lia). cbv zeta.
  replace (if bl_length p - sector <? _ then _ else len) with size
    by (rewrite Esz; destruct (Z.ltb_spec (bl_length p - sector) ((len + offset + 512 - 1) / 512)); dlia).
  assert (0 < size) as Hz by lia.
  destruct (within_sub _ _ _ _ (sector * 512 + offset) size Hw ltac:(lia) ltac:(lia) ltac:(lia)) as [Hw' Hp'].
  replace (bl_offset p * 512 + (sector * 512 + offset)) with ((bl_offset p + sector) * 512 + offset) in Hw', Hp' by lia.
  rewrite (wrap_small 64 (bl_offset p + sector)) by (pow2; lia). destruct (sturdy_read memory k h s (bl_offset p + sector) offset size Hst He Hh ltac:(lia) ltac:(lia) Hz Hw') as (s' & -> & F & Es). rewrite bind_ret. cbv beta iota.
  rewrite overwrite_start, bind_ret by (rewrite zlen_bytes; lia). rewrite bool_decide_eq_true_2 by done. cbn [negb]. exists s'. split; [done|]. split; [done|].
  change (512 - 1) with 511. rewrite !land_511. rewrite (wrap_small 64 (size + offset)), (wrap_small 64 (len - size)) by (pow2; lia).
  rewrite zlen_bytes by lia. do 2 f_equal. unfold block_bytes. rewrite part_bytes by lia. by rewrite Hp'.
Qed.

(** * Lists of one block *)

Definition one_block (b : blocklist D) : grub_fs_block := default (mk_block 0 0) (head (bl_blocks b)).

Record blocklist_inv (b : blocklist D) : Prop := mk_blocklist_inv {
  bv_disk : sturdy memory (bl_disk b) (bl_state b);
  bv_block : block_ok (bl_disk b) (one_block b);
  bv_one : bl_blocks b = [one_block b]
}.

Lemma blocklist_read_spec f len buf b : blocklist_inv b -> grub_errno (bl_state b) = ERR_NONE -> hook_fine (f_hook f) ->
  f_size f = bl_length (one_block b) * 512 -> 0 <= f_offset f -> 0 < len -> f_offset f + len <= f_size f -> len <= zlen buf ->
  exists b', grub_fs_blocklist_read memory f len buf b =
      Some (len, part (block_bytes (bl_disk b) (bl_state b) (one_block b)) (f_offset f) len ++ drop (Z.to_nat len) buf, f, b') /\
    blocklist_inv b' /\ grub_errno (bl_state b') = ERR_NONE /\
    block_bytes (bl_disk b') (bl_state b') (one_block b') = block_bytes (bl_disk b) (bl_state b) (one_block b).
Proof.
  intros [Hst Hok Hone] He Hh Hs Ho Hl Hend Hbuf. unfold grub_fs_blocklist_read. pose proof Hok as (_ & _ & Hw).
  pose proof (within_limit _ _ _ _ (st_parts _ _ _ Hst) Hw) as Hb. assert (disk_end (bl_disk b) <= 2 ^ 51) as Hde by (unfold disk_end; lia).
  change (2 ^ 51) with 2251799813685248 in Hde. destruct Hok as (Hbo & Hbl & _).
  rewrite wrap_small by (pow2; lia). rewrite (proj2 (Z.ltb_ge (f_size f - f_offset f) len)) by lia. unfold GRUB_DISK_SECTOR_BITS.
  change (GRUB_DISK_SECTOR_SIZE - 1) with 511. rewrite land_511, Z.shiftr_div_pow2 by lia. change (2 ^ 9) with 512. rewrite Hone.
  destruct (read_block (bl_disk b) (f_hook f) (bl_state b) (one_block b) [] (f_offset f / 512) (f_offset f mod 512) len len 0 buf) as (s' & F & Es & ->);
    try done; try dlia; try (pow2; dlia).
  cbn [read_blocks]. rewrite bind_ret. cbv beta iota. rewrite Z.add_0_l, sgn_small by (pow2; lia).
  replace (f_offset f / 512 * 512 + f_offset f mod 512) with (f_offset f) by dlia. eexists. split; [done|].
  split; [|split; [done|]].
  - split; cbn; [|done|done]. eapply sturdy_frame in Hst; [|exact F]. destruct Hst as [? ? [? ? ?] ? ? ?]. split; try done; by split.
  - cbn. unfold block_bytes, disk_bytes. by rewrite (f_medium _ _ F).
Qed.

Lemma blocklist_errno_spec b e : blocklist_inv b -> blocklist_inv (mk_blocklist (bl_disk b) (bl_blocks b) (set_errno e (bl_state b))).
Proof.
  intros [Hst Hok Hone]. split; cbn; [|done|done]. eapply sturdy_frame; [exact Hst|]. apply set_errno_frame, Hst.
Qed.

#[export] Instance blocklist_fs_ok : FsOk (blocklist D) (H := blocklist_fs memory stale).
Proof using H0 stale_len.
  refine {| contents := fun b => block_bytes (bl_disk b) (bl_state b) (one_block b); fs_inv := blocklist_inv;
            fs_quiet := fun b => grub_errno (bl_state b) = ERR_NONE |}.
  - intros b [Hst (Hbo & Hbl & Hw) _]. unfold block_bytes. rewrite zlen_bytes by lia.
    pose proof (within_limit _ _ _ _ (st_parts _ _ _ Hst) Hw) as Hb. assert (disk_end (bl_disk b) <= 2 ^ 51) as Hde by (unfold disk_end; lia). pow2. lia.
  - intros f len b Hb Hq Hh Hs Ho Hl Hend. destruct (blocklist_read_spec f len (stale len) b Hb Hq Hh) as (b' & E & Hb'); try done.
    + rewrite Hs. unfold block_bytes. apply zlen_bytes. destruct Hb as [_ (_ & ? & _) _]. lia.
    + rewrite stale_len; lia.
    + exists b'. split; [|done]. cbn [fs_read blocklist_fs]. rewrite E, bind_ret. cbv beta iota. rewrite take_part; [done|lia|lia|lia].
  - intros e b Hb. split; [by apply blocklist_errno_spec|done].
  - intros b Hb. split; [by apply blocklist_errno_spec|done].
Defined.

(** The text of a block. *)
Definition block_text (p : grub_fs_block) : list Z := decimal (bl_offset p) ++ 43 :: decimal (bl_length p).

Lemma count_no_comma l : Forall (fun c => c <> 44) l -> count_blocks l = 1.
Proof. induction 1 as [|c l Hc _ IH]; [done|]. cbn [count_blocks]. by rewrite (proj2 (Z.eqb_neq c 44) Hc). Qed.

Lemma decimal_digits n : Forall (fun c => 48 <= c <= 57) (decimal n).
Proof.
  unfold decimal. apply Forall_fmap, Forall_rev. eapply Forall_impl; [apply (le_digits_range 10 64 n); lia|]. intros d Hd. cbn in *. lia.
Qed.

Lemma number_at_decimal n rest (s : state (D := D)) : 0 <= n < 2 ^ 64 -> Forall is_char rest -> digit_in 10 (at0 rest) = None ->
  at0 rest <> 120 -> number_at (decimal n ++ rest) s = Some (n, rest, s).
Proof.
  intros Hn Hc Hr Hx. assert (grub_strtoul (decimal n ++ rest) 0 = Some (mk_parsed n rest ERR_NONE)) as P.
  { destruct (Z.eq_dec n 0) as [->|]; [by apply parse_zero|]. apply parse_decimal; [lia|done|done]. }
  unfold number_at. unfold grub_strtoul in P. by rewrite P.
Qed.

(** Opening one block: the number of its first sector, and what follows the plus sign. *)
Lemma open_one_block k n rest (s : state (D := D)) : sturdy memory k s -> grub_errno s = ERR_NONE -> 0 <= n < 2 ^ 64 -> Forall is_char rest ->
  Forall (fun c => c <> 44) rest ->
  exists s', frame s s' /\ grub_errno s' = ERR_NONE /\ forall length size,
    (if (at0 rest =? 0) || (at0 rest =? 44) then Some (u64 (grub_disk_from_native_sector k (total_sectors k) - n), rest, s') else number_at rest s') =
      Some (length, [], s') ->
    length <> 0 -> u64 (n + length) <= grub_disk_from_native_sector k (total_sectors k) -> size = u64 (u64 (length * 512)) ->
    grub_fs_blocklist_open memory k (decimal n ++ 43 :: rest) s = Some (ERR_NONE, Some (mk_file 0 size None 0, [mk_block n length]), s').
Proof.
  intros Hst He Hn Hc Hcomma. unfold grub_fs_blocklist_open. rewrite count_no_comma.
  2: { apply Forall_app. split; [|by constructor]. eapply Forall_impl; [apply decimal_digits|]. intros c ?. cbn in *. lia. }
  change (u32 1) with 1. destruct (malloc_spec memory (u32 (1 + 1) * 16) s (st_ok _ _ _ Hst)) as (F & E & _ & M).
  destruct (malloc memory _ s) as [ok s1]. cbn [fst snd] in *. rewrite (M (st_memory _ _ _ Hst)) in *. cbn [negb]. specialize (E eq_refl). rewrite He in E.
  exists s1. split; [done|]. split; [done|]. intros length size Hlen Hl0 Hmax ->. change (Z.to_nat 1) with 1%nat. cbn [parse_blocks].
  destruct (decimal_head n (43 :: rest)) as (c & -> & Hch & _). rewrite (proj2 (Z.eqb_neq c 43)) by lia.
  rewrite number_at_decimal, bind_ret; [|done|constructor; [unfold is_char; lia|done]|done|done]. cbv beta iota.
  rewrite bool_decide_eq_true_2 by done. cbn [at0 Z.eqb Pos.eqb negb orb]. rewrite bind_ret. cbv beta iota zeta. cbn [tail]. rewrite Hlen, bind_ret. cbv beta iota.
  rewrite bool_decide_eq_true_2, (proj2 (Z.eqb_neq length 0)) by done. cbn [negb orb at0 Z.eqb andb].
  rewrite (proj2 (Z.ltb_ge _ _) Hmax). cbn [tail]. rewrite !bind_ret. unfold GRUB_DISK_SECTOR_BITS.
  by rewrite Z.shiftl_mul_pow2, Z.add_0_l by lia.
Qed.

Lemma open_block k p (s : state (D := D)) : sturdy memory k s -> grub_errno s = ERR_NONE -> 0 <= bl_offset p < 2 ^ 52 -> 0 < bl_length p < 2 ^ 52 ->
  bl_offset p + bl_length p <= grub_disk_from_native_sector k (total_sectors k) ->
  exists s', grub_fs_blocklist_open memory k (block_text p) s = Some (ERR_NONE, Some (mk_file 0 (bl_length p * 512) None 0, [p]), s') /\
    frame s s' /\ grub_errno s' = ERR_NONE.
Proof.
  intros Hst He Ho Hl Hmax. change (2 ^ 52) with 4503599627370496 in Ho, Hl.
  destruct (open_one_block k (bl_offset p) (decimal (bl_length p)) s Hst He ltac:(pow2; lia)) as (s' & F & E & Hopen); [apply decimal_chars| |].
  { eapply Forall_impl; [apply decimal_digits|]. intros c ?. cbn in *. lia. }
  exists s'. split; [|done]. unfold block_text. rewrite (Hopen (bl_length p) (bl_length p * 512)); [by destruct p| |lia| |].
  - destruct (decimal_head (bl_length p) []) as (c & Hd & Hc & _). rewrite app_nil_r in Hd. rewrite Hd.
    rewrite (proj2 (Z.eqb_neq c 0)), (proj2 (Z.eqb_neq c 44)) by lia. cbn [orb]. rewrite <- (app_nil_r (decimal (bl_length p))). apply number_at_decimal; [pow2; lia|constructor|done|done].
  - by rewrite wrap_small by (pow2; lia).
  - by rewrite wrap_wrap, (wrap_small 64 (bl_length p * 512)) by (pow2; lia).
Qed.

(** A block list that starts behind the end of the disk and has no length is accepted: the
    number of the sectors that are left wraps around, and the test of the end of the block wraps
    back. *)
Theorem blocklist_open_accepts_beyond k n (s : state (D := D)) : sturdy memory k s -> grub_errno s = ERR_NONE -> 0 < n < 2 ^ 31 ->
  0 <= grub_disk_from_native_sector k (total_sectors k) < n ->
  exists size s', grub_fs_blocklist_open memory k (decimal n ++ [43]) s =
    Some (ERR_NONE, Some (mk_file 0 size None 0, [mk_block n (2 ^ 64 - (n - grub_disk_from_native_sector k (total_sectors k)))]), s').
Proof.
  intros Hst He Hn Hmax. set (m := grub_disk_from_native_sector k (total_sectors k)) in *.
  destruct (open_one_block k n [] s Hst He ltac:(pow2; lia)) as (s' & _ & _ & Hopen); [constructor|constructor|].
  assert (u64 (m - n) = 2 ^ 64 - (n - m)) as Ew by (unfold wrap; symmetry; apply Z.mod_unique_pos with (-1); pow2; lia).
  eexists _, s'. apply Hopen; [cbn [at0 Z.eqb orb]; fold m; by rewrite Ew|pow2; lia| |done].
  replace (n + _) with (m + 1 * 2 ^ 64) by lia. unfold wrap. rewrite Z.mod_add, Z.mod_small by (pow2; lia). done.
Qed.

(** C7: A file that is named by its first sector and their number, the boot sector included, is what
    those sectors hold, when they are sectors of the disk (and of the partition): the text is
    accepted, and every sequence of seeks and reads on the file, through a buffer of any
    size, through the block list, the partitions and the cache of the disk, gives exactly the bytes
    of the disk at that place.  Devices and memory do not fail. *)
Theorem blocklist_file_reads_disk progress k p (s : state (D := D)) size ops : hook_fine progress -> sturdy memory k s -> grub_errno s = ERR_NONE ->
  0 <= bl_offset p -> 0 < bl_length p -> bl_offset p + bl_length p <= grub_disk_from_native_sector k (total_sectors k) ->
  within (disk_end k) (partition k) (bl_offset p * 512) (bl_length p * 512) = true -> 0 <= size -> Forall file_op_ok ops ->
  exists f bs s1, grub_fs_blocklist_open memory k (block_text p) s = Some (ERR_NONE, Some (f, bs), s1) /\
    exists fb b f' b', grub_bufio_open f (mk_blocklist k bs s1) size = Some (fb, b) /\
      run_file_ops (S := grub_bufio (blocklist D)) (H := bufio_fs (H := blocklist_fs memory stale) progress) progress ops fb b =
        Some (string_ops ops (bytes (disk_bytes s k) (place (partition k) (bl_offset p * 512)) (bl_length p * 512)) 0, f', b').
Proof.
  intros Hpf Hst He Ho Hl Hmax Hw Hsz Hops.
  pose proof (within_limit _ _ _ _ (st_parts _ _ _ Hst) Hw) as Hlim. assert (disk_end k <= 2 ^ 51) as Hde by (unfold disk_end; lia).
  change (2 ^ 51) with 2251799813685248 in Hde.
  destruct (open_block k p s Hst He ltac:(change (2 ^ 52) with 4503599627370496; lia) ltac:(change (2 ^ 52) with 4503599627370496; lia) Hmax) as (s1 & -> & F & E1).
  eexists _, _, _. split; [done|]. set (b0 := mk_blocklist k [p] s1).
  assert (file_ok (S := blocklist D) (H := blocklist_fs memory stale) (H0 := blocklist_fs_ok) (mk_file 0 (bl_length p * 512) None 0) b0) as Hf.
  { split; cbn; [|done|unfold block_bytes; by rewrite zlen_bytes by lia|lia]. split; cbn; [by eapply sturdy_frame|split; [lia|split; [lia|done]]|done]. }
  destruct (bufio_open_ok (S := blocklist D) (H := blocklist_fs memory stale) (H0 := blocklist_fs_ok) progress Hpf _ b0 size Hf Hsz) as (fb & b & -> & Eo & Eb & Hok).
  destruct (file_session_spec (S := grub_bufio (blocklist D)) (H0 := bufio_fs_ok progress Hpf) progress Hpf ops fb b Hok Hops) as (f' & b' & E).
  exists fb, b, f', b'. split; [done|]. rewrite E. cbn. rewrite Eb, Eo. unfold block_bytes, disk_bytes. cbn. by rewrite (f_medium _ _ F).
Qed.
(** * Reads over more than one block *)

Lemma frame_block_bytes k s s' p : frame s s' -> block_bytes k s' p = block_bytes k s p.
Proof. intros F. unfold block_bytes, disk_bytes. by rewrite (f_medium _ _ F). Qed.

(** A sector behind all of the blocks: nothing more is read. *)
Lemma read_blocks_skip bs : forall k sector offset len ret buf (s : state (D := D)),
  Forall (fun p => 0 < bl_length p) bs -> foldr (fun p n => bl_length p + n) 0 bs <= sector < 2 ^ 64 ->
  read_blocks memory bs k sector offset len ret buf s = Some (ret, buf, s).
Proof.
  induction bs as [|p bs IH]; intros k sector offset len ret buf s Hbs Hs; cbn [read_blocks foldr] in *; [done|].
  apply Forall_cons in Hbs as [Hp Hbs]. destruct (_ || _); [done|].
  assert (0 <= foldr (fun p n => bl_length p + n) 0 bs) as Hpos by (clear -Hbs; induction Hbs; cbn [foldr]; lia).
  rewrite (proj2 (Z.ltb_ge _ _)) by lia. rewrite (wrap_small 64) by (pow2; lia). apply IH; [done|lia].
Qed.

(** The first part of a read that goes on in the next block. *)
Lemma read_first_block k f s p bs first n buf : sturdy memory k s -> grub_errno s = ERR_NONE -> hook_fine (f_hook f) -> block_ok k p ->
  0 <= first < bl_length p -> bl_length p < 2 ^ 50 -> 0 < n < 2 ^ 60 -> f_offset f = first * 512 -> f_size f < 2 ^ 62 ->
  bl_length p * 512 + n <= f_size f -> (bl_length p - first) * 512 <= zlen buf ->
  exists s1, sturdy memory k s1 /\ grub_errno s1 = ERR_NONE /\ frame s s1 /\
    grub_fs_blocklist_read memory f ((bl_length p - first) * 512 + n) buf (mk_blocklist k (p :: bs) s) =
    '(ret, buf, s') ← read_blocks memory bs (set_read_hook (f_hook f) k) (u64 (2 * first - bl_length p)) 0 n ((bl_length p - first) * 512)
      (part (block_bytes k s p) (first * 512) ((bl_length p - first) * 512) ++ drop (Z.to_nat ((bl_length p - first) * 512)) buf) s1;
    Some (ret, buf, f, mk_blocklist (set_read_hook None k) (p :: bs) s').
Proof.
  intros Hst He Hh Hp Hfirst Hpl Hn Ho Hs Hfit Hbuf. unfold grub_fs_blocklist_read. cbn [bl_blocks bl_disk bl_state]. rewrite Ho.
  change (2 ^ 50) with 1125899906842624 in *. change (2 ^ 60) with 1152921504606846976 in Hn. change (2 ^ 62) with 4611686018427387904 in Hs.
  rewrite wrap_small by (pow2; lia). rewrite (proj2 (Z.ltb_ge _ ((bl_length p - first) * 512 + n))) by lia.
  unfold GRUB_DISK_SECTOR_BITS. change (GRUB_DISK_SECTOR_SIZE - 1) with 511.
  rewrite land_511, Z.shiftr_div_pow2 by lia. change (2 ^ 9) with 512. rewrite Z.div_mul, Z.mod_mul by lia.
  destruct (read_block k (f_hook f) s p bs first 0 ((bl_length p - first) * 512 + n) ((bl_length p - first) * 512) 0 buf Hst He Hh Hp)
    as (s1 & F1 & E1 & ->); [lia|lia|pow2; lia|lia|lia|]. exists s1. split; [by eapply sturdy_frame|]. split; [done|]. split; [done|].
  rewrite !Z.add_0_r, Z.add_0_l, Z.div_mul, Z.mod_mul by lia. replace (first - (bl_length p - first)) with (2 * first - bl_length p) by lia.
  rewrite (sgn_small 64) by (pow2; lia). by replace ((bl_length p - first) * 512 + n - (bl_length p - first) * 512) with n by lia.
Qed.

(** A read that starts in the first half of a block and goes on behind its end stops there: it
    gives the rest of the block and its count, whatever the blocks after it, because the number of
    the sector becomes negative and wraps around. *)
Theorem blocklist_read_stops_after_block k f s p bs first n buf : sturdy memory k s -> grub_errno s = ERR_NONE -> hook_fine (f_hook f) -> block_ok k p ->
  0 <= 2 * first < bl_length p -> bl_length p < 2 ^ 50 -> 0 < n < 2 ^ 60 -> f_offset f = first * 512 -> f_size f < 2 ^ 62 ->
  bl_length p * 512 + n <= f_size f -> (bl_length p - first) * 512 <= zlen buf ->
  Forall (fun q => 0 < bl_length q) bs -> foldr (fun q m => bl_length q + m) 0 bs < 2 ^ 62 ->
  exists b', grub_fs_blocklist_read memory f ((bl_length p - first) * 512 + n) buf (mk_blocklist k (p :: bs) s) =
    Some ((bl_length p - first) * 512,
          part (block_bytes k s p) (first * 512) ((bl_length p - first) * 512) ++ drop (Z.to_nat ((bl_length p - first) * 512)) buf, f, b').
Proof.
  intros Hst He Hh Hp Hfirst Hpl Hn Ho Hs Hfit Hbuf Hbs Hsum.
  destruct (read_first_block k f s p bs first n buf Hst He Hh Hp ltac:(lia) Hpl Hn Ho Hs Hfit Hbuf) as (s1 & _ & _ & _ & ->).
  rewrite read_blocks_skip, bind_ret; [by eexists|done|]. change (2 ^ 50) with 1125899906842624 in *. change (2 ^ 62) with 4611686018427387904 in *.
  replace (u64 (2 * first - bl_length p)) with (2 ^ 64 - (bl_length p - 2 * first)) by (unfold wrap; apply Z.mod_unique_pos with (-1); pow2; lia).
  pow2. lia.
Qed.

(** A read that starts in the second half of a block and goes on behind its end takes the wrong
    sectors and spoils what it has read: the next block is read from the sector
    [2 * first - length] of it instead of its start, and is stored over the bytes of the first
    block; the count is that of the whole read, and the end of the buffer is not written at all. *)
Theorem blocklist_read_overwrites_block k f s p q first n buf : sturdy memory k s -> grub_errno s = ERR_NONE -> hook_fine (f_hook f) ->
  block_ok k p -> block_ok k q -> 0 <= first < bl_length p -> bl_length p <= 2 * first -> bl_length p < 2 ^ 50 -> 0 < n < 2 ^ 60 ->
  (2 * first - bl_length p) * 512 + n <= bl_length q * 512 -> f_offset f = first * 512 -> f_size f = (bl_length p + bl_length q) * 512 ->
  f_size f < 2 ^ 62 -> (bl_length p - first) * 512 + n <= zlen buf -> n <= (bl_length p - first) * 512 ->
  exists b', grub_fs_blocklist_read memory f ((bl_length p - first) * 512 + n) buf (mk_blocklist k [p; q] s) =
    Some ((bl_length p - first) * 512 + n,
          part (block_bytes k s q) ((2 * first - bl_length p) * 512) n ++
          part (block_bytes k s p) (first * 512 + n) ((bl_length p - first) * 512 - n) ++ drop (Z.to_nat ((bl_length p - first) * 512)) buf, f, b').
Proof.
  intros Hst He Hh Hp Hq Hfirst Hlate Hpl Hn Hfit Ho Hs Hs62 Hbuf Hcover.
  destruct (read_first_block k f s p [q] first n buf Hst He Hh Hp ltac:(lia) Hpl Hn Ho Hs62 ltac:(lia) ltac:(lia)) as (s1 & Hst1 & He1 & F1 & ->).
  change (2 ^ 50) with 1125899906842624 in *. change (2 ^ 62) with 4611686018427387904 in *. change (2 ^ 60) with 1152921504606846976 in Hn.
  rewrite (wrap_small 64 (2 * first - bl_length p)) by (pow2; lia).
  assert (zlen (block_bytes k s p) = bl_length p * 512) as Hzp by (apply zlen_bytes; lia).
  destruct (read_block k (f_hook f) s1 q [] (2 * first - bl_length p) 0 n n ((bl_length p - first) * 512)
    (part (block_bytes k s p) (first * 512) ((bl_length p - first) * 512) ++ drop (Z.to_nat ((bl_length p - first) * 512)) buf) Hst1 He1 Hh Hq)
    as (s2 & F2 & E2 & ->); [lia|lia|pow2; lia|lia|rewrite zlen_app, zlen_part by lia; pose proof (zlen_nonneg (drop (Z.to_nat ((bl_length p - first) * 512)) buf)); lia|].
  cbn [read_blocks]. rewrite bind_ret. cbv beta iota. rewrite Z.add_0_r, (sgn_small 64), (frame_block_bytes _ _ _ _ F1) by (pow2; lia).
  eexists. do 4 f_equal. replace ((bl_length p - first) * 512) with (n + ((bl_length p - first) * 512 - n)) at 1 by lia.
  rewrite part_split by lia. rewrite <- app_assoc. f_equal. apply drop_part; lia.
Qed.

End Laws.
(** ** A small disk *)

Definition zeros (n : Z) : list Z := replicate (Z.to_nat n) 0.

Lemma zeros_len n : 0 <= n -> zlen (zeros n) = n.
Proof. intros Hn. unfold zeros, zlen. rewrite length_replicate. lia. Qed.

Definition disk100 : grub_disk := small_disk 9 100 32 [].

Lemma disk100_sturdy : sturdy plenty disk100 (fresh ramp).
Proof. apply ram_sturdy. lia. Qed.

Definition block_ops : list file_op := [op_fread 3; op_seek 600; op_fread 2; op_fread 5000].

Lemma blocklist_file_reads_disk_witness : exists f bs s1,
  grub_fs_blocklist_open plenty disk100 (block_text (mk_block 0 2)) (fresh ramp) = Some (ERR_NONE, Some (f, bs), s1) /\
  exists fb b f' b', grub_bufio_open f (mk_blocklist disk100 bs s1) 512 = Some (fb, b) /\
    run_file_ops (S := grub_bufio (blocklist ram)) (H := bufio_fs (H := blocklist_fs plenty zeros) None) None block_ops fb b =
      Some (string_ops block_ops (bytes (disk_bytes (fresh ramp) disk100) 0 1024) 0, f', b').
Proof.
  apply (blocklist_file_reads_disk plenty zeros zeros_len None disk100 (mk_block 0 2) (fresh ramp) 512 block_ops no_hook_fine disk100_sturdy eq_refl);
    cbn [bl_offset bl_length]; try lia; [vm_compute; discriminate|reflexivity|repeat constructor; cbn; lia].
Defined.

Lemma blocklist_open_accepts_beyond_witness : exists size s', grub_fs_blocklist_open plenty disk100 (decimal 5000 ++ [43]) (fresh ramp) =
  Some (ERR_NONE, Some (mk_file 0 size None 0, [mk_block 5000 (2 ^ 64 - 4900)]), s').
Proof. apply (blocklist_open_accepts_beyond plenty disk100 5000 (fresh ramp) disk100_sturdy eq_refl); [lia|vm_compute; split; congruence]. Defined.

Lemma blocklist_read_stops_after_block_witness : exists b',
  grub_fs_blocklist_read plenty (mk_file 0 2048 None 0) 2048 (zeros 2048) (mk_blocklist disk100 [mk_block 10 2; mk_block 50 2] (fresh ramp)) =
  Some (1024, part (block_bytes disk100 (fresh ramp) (mk_block 10 2)) 0 1024 ++ drop 1024 (zeros 2048), mk_file 0 2048 None 0, b').
Proof.
  apply (blocklist_read_stops_after_block plenty disk100 (mk_file 0 2048 None 0) (fresh ramp) (mk_block 10 2) [mk_block 50 2] 0 1024 (zeros 2048)
    disk100_sturdy eq_refl no_hook_fine); cbn [bl_length bl_offset f_size foldr]; try lia; try done.
  repeat constructor.
Defined.

Lemma blocklist_read_overwrites_block_witness : exists b',
  grub_fs_blocklist_read plenty (mk_file 512 2048 None 0) 1024 (zeros 1024) (mk_blocklist disk100 [mk_block 10 2; mk_block 50 2] (fresh ramp)) =
  Some (1024, part (block_bytes disk100 (fresh ramp) (mk_block 50 2)) 0 512 ++ part (block_bytes disk100 (fresh ramp) (mk_block 10 2)) 1024 0 ++
              drop 512 (zeros 1024), mk_file 512 2048 None 0, b').
Proof.
  apply (blocklist_read_overwrites_block plenty disk100 (mk_file 512 2048 None 0) (fresh ramp) (mk_block 10 2) (mk_block 50 2) 1 512 (zeros 1024)
    disk100_sturdy eq_refl no_hook_fine); cbn [bl_length bl_offset f_size foldr]; try lia; try done.
Defined.

End GrubBlocklist.
