(* ===== verification/GrubArchelp.v ===== *)
(** Archives as file systems (src/grub/grub-core/fs/archelp.c): names without [.] and [..], symbolic
    links, opening a file and listing a directory of an archive.

    An archive is the interface [Archive]: the next header with its name, time and mode, the target
    of a link, and going back to the first header; its laws [ArchiveOk] say which files it has.
    Strings are lists of characters without the NUL, except in [canonicalize], which works in place
    on the bytes of a buffer. *)

From S2P Require Import Prelude GrubStr GrubNum GrubStrOrder.

Module GrubArchelp.
Import GrubStr GrubNum GrubStrOrder.

Definition SLASH : Z := 47.
Definition DOT : Z := 46.

(** ** Names in place *)

(** The slashes at [i]. *)
Fixpoint skip_slashes (fuel : nat) (b : list Z) (i : nat) : option nat :=
  match fuel with
  | O => None
  | S fuel => c ← b !! i; if c =? SLASH then skip_slashes fuel b (S i) else Some i
  end.

(** Whether a part of the name ends here. *)
Definition ends (c : Z) : bool := (c =? SLASH) || (c =? 0).

(** The place behind the last slash in front of [n]. *)
Fixpoint back (b : list Z) (n : nat) : option nat :=
  match n with
  | O => Some O
  | S j => c ← b !! j; if c =? SLASH then Some n else back b j
  end.

(** A part of the name, and the slash behind it. *)
Fixpoint copy_part (fuel : nat) (b : list Z) (i o : nat) : option (list Z * nat * nat) :=
  match fuel with
  | O => None
  | S fuel =>
      c ← b !! i;
      if c =? 0 then Some (b, i, o) else
      let b := <[o := c]> b in
      if c =? SLASH then Some (b, S i, S o) else copy_part fuel b (S i) (S o)
  end.

(** What is at [i]: a dot, two dots or another part. *)
Inductive part_kind := Dot | DotDot | Other.

Definition kind_at (b : list Z) (i : nat) : option part_kind :=
  c ← b !! i;
  if negb (c =? DOT) then Some Other else
  c ← b !! S i;
  if ends c then Some Dot else
  if negb (c =? DOT) then Some Other else
  c ← b !! S (S i);
  Some (if ends c then DotDot else Other).

(** The name from [i] on goes to [o]; the length of the new name. *)
Fixpoint canonicalize_loop (fuel : nat) (b : list Z) (i o : nat) : option (list Z * nat) :=
  match fuel with
  | O => None
  | S fuel =>
      c ← b !! i;
      if c =? 0 then Some (<[o := 0]> b, o) else
      i ← skip_slashes (length b) b i;
      k ← kind_at b i;
      match k with
      | Dot => canonicalize_loop fuel b (S i) o
      | DotDot => o ← back b (pred o); canonicalize_loop fuel b (S (S i)) o
      | Other => '(b, i, o) ← copy_part (length b) b i o; canonicalize_loop fuel b i o
      end
  end.

(** On the buffer that holds a string. *)
Definition canonicalize (name : list Z) : option (list Z) :=
  let b := name ++ [0] in
  '(b, n) ← canonicalize_loop (S (length b)) b 0 0; Some (take n b).

(** ** The parts of a name *)

(** The parts between slashes; the last one may be empty. *)
Fixpoint parts (s : list Z) : list Z * list (list Z) :=
  match s with
  | [] => ([], [])
  | c :: s => let '(p, ps) := parts s in if c =? SLASH then ([], p :: ps) else (c :: p, ps)
  end.

(** ** Archives *)

Definition GRUB_ARCHELP_ATTR_TYPE : Z := 0xe000.
Definition GRUB_ARCHELP_ATTR_FILE : Z := 0x8000.
Definition GRUB_ARCHELP_ATTR_DIR : Z := 0x4000.
Definition GRUB_ARCHELP_ATTR_LNK : Z := 0xa000.
Definition GRUB_ARCHELP_ATTR_NOTIME : Z := 0x80000000.
Definition GRUB_ARCHELP_ATTR_END : Z := 0xffffffff.

(** What [find_file] gives: an error, the mode [GRUB_ARCHELP_ATTR_END], or a file. *)
Inductive find_result := FFail | FEnd | FFile (name : list Z) (mtime mode : Z).

(** The operations of an archive, and what they share with this file: [grub_errno] and memory. *)
Class Archive (A : Type) := {
  find_file : A -> option (find_result * A);
  get_link_target : option (A -> option (option (list Z) * A));
  rewind : A -> A;
  arch_errno : A -> grub_err_t;
  arch_error : grub_err_t -> A -> A;
  arch_malloc : Z -> A -> bool * A
}.

Definition has_type (mode t : Z) : bool := Z.land mode GRUB_ARCHELP_ATTR_TYPE =? t.

(** The last slash of [name] that is not behind [n]. *)
Fixpoint last_slash (name : list Z) (n : nat) : option nat :=
  if bool_decide (name !! n = Some SLASH) then Some n else
  match n with O => None | S n => last_slash name n end.

(** The directory of a link that ends at [flen] in [name], with its slash. *)
Definition link_prefix (name : list Z) (flen : nat) : list Z :=
  match default O (last_slash name flen) with
  | O => []
  | S _ as prefixlen => take prefixlen name ++ [SLASH]
  end.

Section Ops.
Context {A : Type} `{Archive A}.

(** Whether [fn] is [name] or a directory above it. *)
Definition leads_to (fn name : list Z) : bool :=
  bool_decide (take (length fn) name = fn) && ends (at0 (drop (length fn) name)).

(** The error, the new name, and whether to start again with it. *)
Definition handle_symlink (fn name : list Z) (mode : Z) (a : A) : option (grub_err_t * list Z * bool * A) :=
  match get_link_target with
  | None => Some (ERR_NONE, name, false, a)
  | Some get_link_target =>
      if negb (has_type mode GRUB_ARCHELP_ATTR_LNK) then Some (ERR_NONE, name, false, a) else
      if negb (leads_to fn name) then Some (ERR_NONE, name, false, a) else
      let flen := length fn in
      let rest := drop (if at0 (drop flen name) =? 0 then flen else S flen) name in
      '(t, a) ← get_link_target a;
      match t with
      | None => Some (arch_errno a, name, false, a)
      | Some linktarget =>
          if bool_decide (linktarget = []) then Some (ERR_NONE, name, false, a) else
          let sz := zlen linktarget + zlen name + 2 in
          if 2 ^ 64 <=? sz then Some (ERR_OUT_OF_RANGE, name, false, arch_error ERR_OUT_OF_RANGE a) else
          let '(ok, a) := arch_malloc sz a in
          if negb ok then Some (arch_errno a, name, false, a) else
          name ← canonicalize (if at0 linktarget =? SLASH then linktarget ++ rest else link_prefix name flen ++ linktarget ++ rest);
          Some (ERR_NONE, name, true, a)
      end
  end.

Definition MAX_SYMLINKS : Z := 8.

(** The headers one by one; [fuel] bounds their number. *)
Fixpoint open_loop (fuel : nat) (name : list Z) (symlinknest : Z) (a : A) : option (grub_err_t * A) :=
  match fuel with
  | O => None
  | S fuel =>
      '(r, a) ← find_file a;
      match r with
      | FFail => Some (arch_errno a, a)
      | FEnd => let a := arch_error ERR_FILE_NOT_FOUND a in Some (arch_errno a, a)
      | FFile fn _ mode =>
          fn ← canonicalize fn;
          '(e, name, restart, a) ← handle_symlink fn name mode a;
          if negb (bool_decide (e = ERR_NONE)) then Some (arch_errno a, a) else
          if (restart : bool) then
            let a := rewind a in
            if symlinknest + 1 =? MAX_SYMLINKS then let a := arch_error ERR_SYMLINK_LOOP a in Some (arch_errno a, a)
            else open_loop fuel name (symlinknest + 1) a
          else if negb (grub_strcmp name fn =? 0) then open_loop fuel name symlinknest a
          else Some (ERR_NONE, a)
      end
  end.

(** The first character of the name is a slash. *)
Definition grub_archelp_open (fuel : nat) (name_in : list Z) (a : A) : option (grub_err_t * A) :=
  match name_in with
  | [] => None
  | _ :: name =>
      let '(ok, a) := arch_malloc (zlen name + 1) a in
      if negb ok then Some (arch_errno a, a) else
      name ← canonicalize name;
      open_loop fuel name 0 a
  end.

(** ** Directories *)

Record grub_dirhook_info := mk_info { i_dir : bool; i_mtimeset : bool; i_mtime : Z }.

Fixpoint skip_leading (s : list Z) : list Z :=
  match s with c :: r => if c =? SLASH then skip_leading r else s | [] => [] end.

Definition strip_trailing (s : list Z) : list Z := rev (skip_leading (rev s)).

(** The part in front of the first slash, and whether there is one. *)
Fixpoint cut (n : list Z) : list Z * bool :=
  match n with
  | [] => ([], false)
  | c :: n => if c =? SLASH then ([], true) else let '(p, more) := cut n in (c :: p, more)
  end.

(** [x] is the state of the hook; it returns whether to stop. *)
Fixpoint dir_loop {X} (hook : list Z -> grub_dirhook_info -> X -> bool * X) (fuel : nat) (path : list Z) (prev : option (list Z))
    (symlinknest : Z) (a : A) (x : X) : option (grub_err_t * A * X) :=
  match fuel with
  | O => None
  | S fuel =>
      '(r, a) ← find_file a;
      match r with
      | FFail | FEnd => Some (arch_errno a, a, x)
      | FFile name mtime mode =>
          name ← canonicalize name;
          if bool_decide (take (length path) name = path) && (ends (at0 (drop (length path) name)) || bool_decide (path = [])) then
            let n := skip_leading (drop (length path) name) in
            let '(n', p) := cut n in
            let name := take (length name - length n) name ++ n' in
            if bool_decide (n' = []) && negb (has_type mode GRUB_ARCHELP_ATTR_DIR) then
              let a := arch_error ERR_BAD_FILE_TYPE a in Some (arch_errno a, a, x)
            else if match prev with None => true | Some prev => negb (grub_strcmp prev name =? 0) end && negb (bool_decide (n' = [])) then
              let notime := negb (Z.land mode GRUB_ARCHELP_ATTR_NOTIME =? 0) in
              let info := mk_info (p || has_type mode GRUB_ARCHELP_ATTR_DIR) (negb notime) (if notime then 0 else mtime) in
              let '(stop, x) := hook n' info x in
              if (stop : bool) then Some (arch_errno a, a, x) else dir_loop hook fuel path (Some name) symlinknest a x
            else
              '(e, path, restart, a) ← handle_symlink name path mode a;
              if negb (bool_decide (e = ERR_NONE)) then Some (arch_errno a, a, x) else
              if (restart : bool) then
                if symlinknest + 1 =? MAX_SYMLINKS then let a := arch_error ERR_SYMLINK_LOOP a in Some (arch_errno a, a, x)
                else dir_loop hook fuel path prev (symlinknest + 1) (rewind a) x
              else dir_loop hook fuel path prev symlinknest a x
          else dir_loop hook fuel path prev symlinknest a x
      end
  end.

Definition grub_archelp_dir {X} (hook : list Z -> grub_dirhook_info -> X -> bool * X) (fuel : nat) (path_in : list Z) (a : A) (x : X)
  : option (grub_err_t * A * X) :=
  match path_in with
  | [] => None
  | _ :: path =>
      let '(ok, a) := arch_malloc (zlen path + 1) a in
      if negb ok then Some (arch_errno a, a, x) else
      path ← canonicalize path;
      dir_loop hook fuel (strip_trailing path) None 0 a x
  end.
End Ops.

(** * What a name means *)

Definition render (st : list (list Z)) : list Z := concat ((fun p => p ++ [SLASH]) <$> rev st).

Definition skipped (p : list Z) : bool := bool_decide (p = []) || bool_decide (p = [DOT]).
Definition goes_up (p : list Z) : bool := bool_decide (p = [DOT; DOT]).

(** The directories above, innermost first, and the parts that are left. *)
Fixpoint resolve (st : list (list Z)) (p : list Z) (ps : list (list Z)) : list Z :=
  match ps with
  | [] => if skipped p then render st else if goes_up p then render (tail st) else render st ++ p
  | q :: ps => if skipped p then resolve st q ps else if goes_up p then resolve (tail st) q ps else resolve (p :: st) q ps
  end.

Definition normal (s : list Z) : list Z := let '(p, ps) := parts s in resolve [] p ps.
Definition resolve_rest (st : list (list Z)) (s : list Z) : list Z := let '(p, ps) := parts s in resolve st p ps.

(** The string from [i] on. *)
Definition text_at (b : list Z) (i : nat) (s : list Z) : Prop := drop i b = s ++ [0].

Lemma text_head b i s : text_at b i s -> b !! i = Some (at0 s).
Proof. unfold text_at. intros E. rewrite <- (Nat.add_0_r i), <- lookup_drop, E. by destruct s. Qed.

Lemma text_tail b i c s : text_at b i (c :: s) -> text_at b (S i) s.
Proof. unfold text_at. intros E. rewrite <- Nat.add_1_r, <- drop_drop, E. done. Qed.

Lemma text_length b i s : text_at b i s -> (length s < length b)%nat.
Proof. unfold text_at. intros E. apply (f_equal length) in E. rewrite length_drop, length_app in E. cbn in E. lia. Qed.

Lemma parts_head s : (fst (parts s) = [] <-> s = [] \/ exists r, s = SLASH :: r) /\ (SLASH ∉ fst (parts s)).
Proof.
  induction s as [|c s [IH1 IH2]]; cbn [parts]; [split; [split; auto|apply not_elem_of_nil]|]. destruct (parts s) as [p ps].
  destruct (Z.eqb_spec c SLASH) as [->|Hc]; cbn [fst] in *.
  - split; [split; eauto|apply not_elem_of_nil].
  - split; [split; [done|intros [?|[r [= -> _]]]; done]|]. by apply not_elem_of_cons.
Qed.

(** ** Slashes *)

Lemma resolve_slash st s : resolve_rest st (SLASH :: s) = resolve_rest st s.
Proof. unfold resolve_rest. cbn [parts]. by destruct (parts s). Qed.

Lemma skip_slashes_spec b fuel : forall i s, text_at b i s -> (length s < fuel)%nat ->
  exists j s', skip_slashes fuel b i = Some j /\ text_at b j s' /\ at0 s' <> SLASH /\ (length s' <= length s)%nat /\ s' `suffix_of` s /\
    forall st, resolve_rest st s' = resolve_rest st s.
Proof.
  induction fuel as [|fuel IH]; intros i s Hs Hf; [lia|]. cbn [skip_slashes]. rewrite (text_head _ _ _ Hs). step.
  destruct (Z.eqb_spec (at0 s) SLASH) as [E|E]; [|by exists i, s].
  destruct s as [|c s]; [done|]. cbn in E, Hf. subst c.
  destruct (IH (S i) s (text_tail _ _ _ _ Hs) ltac:(lia)) as (j & s' & -> & Hj & Ha & Hl & Hsuf & Hr). exists j, s'. repeat split; try done.
  - cbn. lia.
  - by apply suffix_cons_r.
  - intros st. by rewrite Hr, resolve_slash.
Qed.

(** ** Dots *)

Lemma kind_at_spec b i s : text_at b i s -> 0 ∉ s ->
  kind_at b i = Some (if decide (fst (parts s) = [DOT]) then Dot else if decide (fst (parts s) = [DOT; DOT]) then DotDot else Other).
Proof.
  intros Hs H0. unfold kind_at. rewrite (text_head _ _ _ Hs). step. destruct s as [|c s]; [done|]. cbn [at0].
  apply not_elem_of_cons in H0 as [Hc0 H0]. apply text_tail in Hs. cbn [parts].
  pose proof (parts_head s) as [Hp _]. destruct (parts s) as [p ps] eqn:Ep. cbn [fst] in *.
  destruct (Z.eqb_spec c DOT) as [->|Hc]; cbn [negb].
  2: { destruct (c =? SLASH); cbn [fst]; by rewrite !decide_False by congruence. }
  change (DOT =? SLASH) with false. cbn iota. cbn [fst]. rewrite (text_head _ _ _ Hs). step.
  assert (forall t, 0 ∉ t -> ends (at0 t) = bool_decide (fst (parts t) = [])) as He.
  { intros t Ht. unfold ends. destruct (parts_head t) as [Hpt _]. symmetry. destruct t as [|d t]; [done|]. cbn [at0].
    apply not_elem_of_cons in Ht as [Hd _]. rewrite (proj2 (Z.eqb_neq d 0)), orb_false_r by done.
    destruct (Z.eqb_spec d SLASH) as [->|Hd']; [apply bool_decide_eq_true, Hpt; eauto|apply bool_decide_eq_false]. intros E.
    apply Hpt in E as [?|[r [= ? _]]]; done. }
  rewrite He by done. rewrite Ep. cbn [fst]. case_bool_decide as E; [subst p; by rewrite decide_True|].
  rewrite decide_False by congruence. destruct s as [|d s]; [exfalso; apply E, Hp; auto|]. cbn [at0].
  apply not_elem_of_cons in H0 as [Hd0 H0]. apply text_tail in Hs. cbn [parts] in Ep. pose proof (He s H0) as Hes. destruct (parts s) as [p' ps'].
  destruct (Z.eqb_spec d SLASH) as [->|Hd]; [injection Ep as <- <-; done|]. injection Ep as <- <-.
  destruct (Z.eqb_spec d DOT) as [->|Hd2]; cbn [negb]; [|by rewrite decide_False by congruence].
  rewrite (text_head _ _ _ Hs). step. rewrite Hes. cbn [fst]. destruct (decide (p' = [])) as [->|Ep']; [done|].
  by rewrite bool_decide_false, decide_False by congruence.
Qed.

(** What is left behind a part: nothing, or a slash. *)
Lemma parts_rest s : exists r, s = fst (parts s) ++ r /\ parts r = ([], snd (parts s)) /\ (r = [] <-> snd (parts s) = []).
Proof.
  induction s as [|c s IH]; [by exists []|]. cbn [parts]. destruct (parts s) as [p ps] eqn:Ep. destruct IH as (r & E & Er & Hr). cbn [fst snd] in *.
  destruct (Z.eqb_spec c SLASH) as [->|Hc]; cbn [fst snd].
  - exists (SLASH :: s). split; [done|]. split; [cbn [parts]; by rewrite Ep|done].
  - exists r. split; [by rewrite E|done].
Qed.

(** ** Going up *)

Lemma render_path p st : render (p :: st) = render st ++ p ++ [SLASH].
Proof. unfold render. cbn [rev]. rewrite fmap_app, concat_app. cbn. by rewrite app_nil_r. Qed.

Lemma back_over b n p : SLASH ∉ p -> (forall j, (j < length p)%nat -> b !! (n + j)%nat = p !! j) -> back b (n + length p) = back b n.
Proof.
  induction p as [|c p IH] using rev_ind; intros Hp Hb; [by rewrite Nat.add_0_r|]. apply not_elem_of_app in Hp as [Hp Hc].
  rewrite length_app in *. cbn [length] in *. replace (n + (length p + 1))%nat with (S (n + length p)) by lia. cbn [back].
  rewrite Hb, lookup_app_r, Nat.sub_diag by lia. cbn [lookup list_lookup]. step. apply not_elem_of_cons in Hc as [Hc _].
  rewrite (proj2 (Z.eqb_neq c SLASH)) by congruence. apply IH; [done|]. intros j Hj. by rewrite Hb, lookup_app_l by lia.
Qed.

Lemma take_lookup (b l : list Z) n j x : take n b = l -> l !! j = Some x -> b !! j = Some x.
Proof. intros <- H. by apply lookup_take_Some in H as [? _]. Qed.

Lemma back_spec b o st : take o b = render st -> o = length (render st) -> Forall (fun p => SLASH ∉ p) st ->
  back b (pred o) = Some (length (render (tail st))).
Proof.
  intros Hb Ho Hst. destruct st as [|p st]; [by subst o|]. apply Forall_cons in Hst as [Hp Hst]. cbn [tail]. rewrite render_path in Hb, Ho.
  rewrite !length_app in Ho. cbn [length] in Ho. replace (pred o) with (length (render st) + length p)%nat by lia.
  rewrite back_over; [|done|].
  2: { intros j Hj. destruct (lookup_lt_is_Some_2 p j Hj) as [x Hx]. rewrite Hx. apply (take_lookup _ _ _ _ _ Hb).
       rewrite lookup_app_r, lookup_app_l by lia. by replace (length (render st) + j - length (render st))%nat with j by lia. }
  destruct st as [|q st]; [done|]. rewrite render_path in *. rewrite !length_app in *. cbn [length] in *.
  replace (length (render st) + (length q + 1))%nat with (S (length (render st) + length q)) by lia. cbn [back].
  rewrite (take_lookup _ _ _ (length (render st) + length q) SLASH Hb); [step; done|].
  rewrite lookup_app_l by (rewrite !length_app; cbn; lia). rewrite app_assoc. rewrite lookup_app_r by (rewrite length_app; lia).
  by rewrite length_app, Nat.sub_diag.
Qed.

(** ** Copying *)

Lemma insert_shifts b o i c s : (o <= i)%nat -> text_at b i (c :: s) -> text_at (<[o := c]> b) (S i) s.
Proof. intros Hoi Hs. apply text_tail in Hs. unfold text_at in *. by rewrite drop_insert_lt by lia. Qed.

Lemma insert_grows (b : list Z) o c : (o < length b)%nat -> take (S o) (<[o := c]> b) = take o b ++ [c].
Proof.
  intros Ho. rewrite (take_S_r _ _ c); [|by apply list_lookup_insert_eq]. by rewrite take_insert_ge by lia.
Qed.

Lemma copy_part_spec fuel : forall b i o s, text_at b i s -> 0 ∉ s -> (o <= i)%nat -> (length s < fuel)%nat ->
  exists b' i' o' r, copy_part fuel b i o = Some (b', i', o') /\ text_at b' i' r /\ (o' <= i')%nat /\ r `suffix_of` s /\ (fst (parts s) <> [] -> (length r < length s)%nat) /\
    match snd (parts s) with
    | [] => r = [] /\ take o' b' = take o b ++ fst (parts s)
    | q :: ps => parts r = (q, ps) /\ take o' b' = take o b ++ fst (parts s) ++ [SLASH]
    end.
Proof.
  induction fuel as [|fuel IH]; intros b i o s Hs H0 Hoi Hf; [lia|]. cbn [copy_part]. rewrite (text_head _ _ _ Hs). step.
  destruct s as [|c s]; cbn [at0].
  { exists b, i, o, []. repeat split; try done. cbn. by rewrite app_nil_r. }
  apply not_elem_of_cons in H0 as [Hc H0]. rewrite (proj2 (Z.eqb_neq c 0)) by congruence.
  assert (o < length b)%nat as Hob.
  { pose proof (lookup_lt_Some _ _ _ (text_head _ _ _ Hs)). lia. }
  pose proof (insert_shifts b o i c s Hoi Hs) as Hs'. cbn [parts]. destruct (parts s) as [p ps] eqn:Ep.
  destruct (Z.eqb_spec c SLASH) as [->|Hc'].
  - exists (<[o := SLASH]> b), (S i), (S o), s. cbn [fst snd]. repeat split; try done; [lia|by apply suffix_cons_r|].
    rewrite insert_grows by done. done.
  - cbn [length] in Hf. destruct (IH (<[o := c]> b) (S i) (S o) s Hs' H0 ltac:(lia) ltac:(lia)) as (b' & i' & o' & r & -> & Hr & Ho' & Hsuf & _ & Hm).
    exists b', i', o', r. cbn [fst snd] in *. rewrite insert_grows in Hm by done. rewrite Ep in Hm. cbn [fst snd] in Hm.
    split; [done|]. split; [done|]. split; [done|]. split; [by apply suffix_cons_r|]. split; [intros _; apply suffix_length in Hsuf; cbn; lia|].
    by destruct ps as [|q ps]; rewrite <- app_assoc in Hm.
Qed.

(** ** The loop *)

Lemma suffix_no_zero (r s : list Z) : r `suffix_of` s -> 0 ∉ s -> 0 ∉ r.
Proof. intros [k ->] H Hr. apply H, elem_of_app. by right. Qed.

Lemma canonicalize_end fuel b i o : text_at b i [] -> (o <= i)%nat -> canonicalize_loop (S fuel) b i o = Some (<[o := 0]> b, o).
Proof. intros Hs Ho. cbn [canonicalize_loop]. rewrite (text_head _ _ _ Hs). step. done. Qed.

Lemma render_tail_le st : (length (render (tail st)) <= length (render st))%nat.
Proof. destruct st as [|q st]; [done|]. cbn [tail]. rewrite render_path, !length_app. lia. Qed.

Lemma take_render_tail (b : list Z) o st : take o b = render st -> o = length (render st) -> take (length (render (tail st))) b = render (tail st).
Proof.
  intros Hb Ho. destruct st as [|q st]; [done|]. cbn [tail]. rewrite render_path in Hb. apply (f_equal (take (length (render st)))) in Hb.
  rewrite take_take, take_app_length, Nat.min_l in Hb; [done|]. rewrite Ho, render_path, !length_app. lia.
Qed.

(** The part that is left to read is behind what is written. *)
Lemma canonicalize_loop_spec fuel : forall b i o s st, text_at b i s -> 0 ∉ s -> (o <= i)%nat -> take o b = render st -> o = length (render st) ->
  Forall (fun p => SLASH ∉ p) st -> (length s < fuel)%nat ->
  exists b' n, canonicalize_loop fuel b i o = Some (b', n) /\ take n b' = resolve_rest st s.
Proof.
  induction fuel as [|fuel IH]; intros b i o s st Hs H0 Hoi Hb Ho Hst Hf; [lia|].
  destruct s as [|c s].
  { rewrite canonicalize_end by done. eexists _, _. split; [done|]. by rewrite take_insert_ge by lia. }
  cbn [canonicalize_loop]. rewrite (text_head _ _ _ Hs). step. cbn [at0]. pose proof H0 as [Hc _]%not_elem_of_cons.
  rewrite (proj2 (Z.eqb_neq c 0)) by congruence.
  destruct (skip_slashes_spec b (length b) i (c :: s) Hs (text_length _ _ _ Hs)) as (j & s' & Ej & Hs' & Ha & Hl & Hsuf & Hr).
  rewrite Ej. step. rewrite <- Hr. clear Hr. pose proof (suffix_no_zero _ _ Hsuf H0) as H0'. cbn [length] in Hf, Hl.
  assert (i <= j)%nat as Hij.
  { apply (f_equal length) in Hs, Hs'. rewrite length_drop, length_app in Hs, Hs'. cbn [length] in *. lia. }
  rewrite (kind_at_spec _ _ _ Hs' H0'). step. destruct (parts_rest s') as (r & Er & Hpr & Hrn).
  pose proof (parts_head s') as [Hp0 Hps]. unfold resolve_rest at 1. destruct (parts s') as [p ps] eqn:Ep. cbn [fst snd] in *.
  assert (0 ∉ r) as Hr0 by (apply (suffix_no_zero r s'); [rewrite Er; by exists p|done]).
  destruct (decide (p = [DOT])) as [->|Hd1]; [|destruct (decide (p = [DOT; DOT])) as [->|Hd2]].
  - cbn [app] in Er. subst s'. apply text_tail in Hs'. cbn [length] in Hl.
    destruct (IH b (S j) o r st Hs' Hr0 ltac:(lia) Hb Ho Hst ltac:(lia)) as (b' & n & -> & E). exists b', n. split; [done|]. rewrite E.
    unfold resolve_rest. rewrite Hpr. by destruct ps.
  - cbn [app] in Er. subst s'. do 2 apply text_tail in Hs'. cbn [length] in Hl. rewrite (back_spec _ _ _ Hb Ho Hst). step.
    destruct (IH b (S (S j)) (length (render (tail st))) r (tail st) Hs' Hr0) as (b' & n & -> & E); try done.
    + pose proof (render_tail_le st). lia.
    + by apply (take_render_tail _ o).
    + destruct st; [done|]. by apply Forall_cons in Hst as [_ ?].
    + lia.
    + exists b', n. split; [done|]. rewrite E. unfold resolve_rest. rewrite Hpr. by destruct ps.
  - destruct (copy_part_spec (length b) b j o s' Hs' H0' ltac:(lia) (text_length _ _ _ Hs')) as (b' & i' & o' & r' & Ecp & Hr' & Ho' & Hsuf' & Hlt & Hm).
    rewrite Ecp. step. rewrite Ep in Hm. cbn [fst snd] in Hm.
    assert (forall qs, skipped p = false -> goes_up p = false -> resolve st p qs = match qs with [] => render st ++ p | q :: qs => resolve (p :: st) q qs end) as Hres
      by (intros qs E1 E2; destruct qs; cbn [resolve]; by rewrite E1, E2).
    destruct (decide (p = [])) as [->|Hpe].
    { destruct (proj1 Hp0 eq_refl) as [->|[t ->]]; [|done]. injection Ep as <-. destruct Hm as [-> Hm]. destruct fuel as [|fuel]; [lia|].
      rewrite canonicalize_end by done. eexists _, _. split; [done|]. rewrite take_insert_ge, Hm, app_nil_r by lia. done. }
    assert (skipped p = false /\ goes_up p = false) as [E1 E2] by (unfold skipped, goes_up; by rewrite !bool_decide_false by done).
    rewrite Hres by done. destruct ps as [|q ps].
    { destruct Hm as [-> Hm]. destruct fuel as [|fuel]; [lia|]. rewrite canonicalize_end by done. eexists _, _. split; [done|].
      by rewrite take_insert_ge, Hm, Hb by lia. }
    destruct Hm as [Hq Hm]. rewrite Ep in Hlt. specialize (Hlt Hpe). rewrite Hb, <- render_path in Hm.
    destruct (IH b' i' o' r' (p :: st) Hr' (suffix_no_zero _ _ Hsuf' H0') Ho' Hm) as (b2 & n & -> & E); [|by constructor|lia|].
    + rewrite <- Hm, length_take. apply text_length in Hr' as Hbl. apply (f_equal length) in Hr'. rewrite length_drop, length_app in Hr'. cbn in Hr'. lia.
    + exists b2, n. split; [done|]. rewrite E. unfold resolve_rest. by rewrite Hq.
Qed.

Lemma canonicalize_spec s : 0 ∉ s -> canonicalize s = Some (normal s).
Proof.
  intros H0. unfold canonicalize. cbv zeta. destruct (canonicalize_loop_spec (S (length (s ++ [0]))) (s ++ [0]) 0 0 s []) as (b & n & -> & E); try done.
  - rewrite length_app. lia.
  - rewrite bind_ret. cbv beta iota. by rewrite E.
Qed.

(** ** Names that are already right *)

Definition clean (p : list Z) : Prop := (SLASH ∉ p) /\ skipped p = false /\ goes_up p = false.

Lemma parts_app q r : SLASH ∉ q -> parts (q ++ SLASH :: r) = (q, let '(p, ps) := parts r in p :: ps).
Proof.
  induction q as [|c q IH]; intros Hq; cbn [app parts]; [by destruct (parts r)|]. apply not_elem_of_cons in Hq as [Hc Hq].
  rewrite (IH Hq). by rewrite (proj2 (Z.eqb_neq c SLASH)) by congruence.
Qed.

Lemma parts_plain q : SLASH ∉ q -> parts q = (q, []).
Proof.
  induction q as [|c q IH]; intros Hq; cbn [parts]; [done|]. apply not_elem_of_cons in Hq as [Hc Hq]. rewrite (IH Hq).
  by rewrite (proj2 (Z.eqb_neq c SLASH)) by congruence.
Qed.

Lemma resolve_clean l p : Forall clean l -> forall st,
  resolve_rest st (concat ((fun q => q ++ [SLASH]) <$> l) ++ p) = resolve_rest (rev l ++ st) p.
Proof.
  induction 1 as [|q l (Hs & H1 & H2) Hl IH]; intros st; [done|]. cbn [fmap list_fmap concat rev]. rewrite <- !app_assoc.
  cbn [app]. rewrite <- IH. unfold resolve_rest at 1. rewrite parts_app by done. unfold resolve_rest.
  destruct (parts (concat ((fun q => q ++ [SLASH]) <$> l) ++ p)). cbn [resolve]. by rewrite H1, H2.
Qed.

Lemma resolve_is_clean ps : forall st p, Forall clean st -> Forall (fun q => SLASH ∉ q) (p :: ps) ->
  exists st' p', resolve st p ps = render st' ++ p' /\ Forall clean st' /\ (p' = [] \/ clean p').
Proof.
  induction ps as [|q ps IH]; intros st p Hst Hps; apply Forall_cons in Hps as [Hp Hps]; cbn [resolve].
  all: assert (Forall clean (tail st)) as Ht by (by destruct Hst).
  - destruct (skipped p) eqn:E1; [exists st, []; by rewrite app_nil_r; auto|]. destruct (goes_up p) eqn:E2.
    + exists (tail st), []. rewrite app_nil_r. auto.
    + exists st, p. split; [done|]. split; [done|]. by right.
  - destruct (skipped p) eqn:E1; [by apply IH|]. destruct (goes_up p) eqn:E2; [by apply IH|]. apply IH; [|done]. by constructor.
Qed.

Lemma parts_no_slash s : Forall (fun q => SLASH ∉ q) (fst (parts s) :: snd (parts s)).
Proof.
  induction s as [|c s IH]; cbn [parts]; [constructor; [apply not_elem_of_nil|done]|]. destruct (parts s) as [p ps]. cbn [fst snd] in *.
  destruct (Z.eqb_spec c SLASH) as [->|Hc]; cbn [fst snd]; [constructor; [apply not_elem_of_nil|done]|].
  apply Forall_cons in IH as [Hp Hps]. constructor; [|done]. by apply not_elem_of_cons.
Qed.

Lemma normal_normal s : normal (normal s) = normal s.
Proof.
  unfold normal at 2 3. pose proof (parts_no_slash s) as Hs. destruct (parts s) as [p ps]. cbn [fst snd] in Hs.
  destruct (resolve_is_clean ps [] p (Forall_nil_2 _) Hs) as (st & q & -> & Hst & Hq).
  change (normal (render st ++ q)) with (resolve_rest [] (render st ++ q)). unfold render at 1. rewrite resolve_clean by by apply Forall_rev.
  rewrite rev_involutive, app_nil_r. unfold resolve_rest. destruct Hq as [->|(Hs2 & H1 & H2)]; [cbn; by rewrite app_nil_r|].
  rewrite parts_plain by done. cbn [resolve]. by rewrite H1, H2.
Qed.

Lemma resolve_chars x : x <> SLASH -> forall ps st p, (x ∉ p) -> Forall (fun q => x ∉ q) st -> Forall (fun q => x ∉ q) ps -> (x ∉ resolve st p ps).
Proof.
  intros Hx. assert (forall st, Forall (fun q => x ∉ q) st -> x ∉ render st) as Hr.
  { induction 1 as [|q st Hq _ IH]; [apply not_elem_of_nil|]. rewrite render_path, !not_elem_of_app. split; [done|]. split; [done|].
    by apply not_elem_of_cons; split; [|apply not_elem_of_nil]. }
  induction ps as [|q ps IH]; intros st p Hp Hst Hps; cbn [resolve].
  all: assert (Forall (fun q => x ∉ q) (tail st)) as Ht by (by destruct Hst).
  - destruct (skipped p), (goes_up p); auto. apply not_elem_of_app. auto.
  - apply Forall_cons in Hps as [Hq Hps]. destruct (skipped p), (goes_up p); auto.
Qed.

Lemma parts_chars x s : x ∉ s -> Forall (fun q => x ∉ q) (fst (parts s) :: snd (parts s)).
Proof.
  induction s as [|c s IH]; cbn [parts]; intros Hs; [constructor; [apply not_elem_of_nil|done]|].
  apply not_elem_of_cons in Hs as [Hc Hs]. specialize (IH Hs). destruct (parts s) as [p ps]. cbn [fst snd] in *.
  destruct (c =? SLASH); cbn [fst snd]; [constructor; [apply not_elem_of_nil|done]|].
  apply Forall_cons in IH as [Hp Hps]. constructor; [|done]. by apply not_elem_of_cons.
Qed.

Lemma normal_chars x s : x <> SLASH -> x ∉ s -> x ∉ normal s.
Proof.
  intros Hx Hs. unfold normal. pose proof (parts_chars x s Hs) as Hp. destruct (parts s) as [p ps]. apply Forall_cons in Hp as [Hp Hps].
  by apply resolve_chars.
Qed.

(** C38: Rewriting a name in place never leaves its buffer and gives what the name means: its parts
    between slashes, without the empty ones and the dots, two dots taking back the part before
    them; a name that is already so is left as it is. *)
Theorem canonicalize_correct s : 0 ∉ s -> canonicalize s = Some (normal s) /\ canonicalize (normal s) = Some (normal s) /\
  exists st p, normal s = render st ++ p /\ Forall clean st /\ (p = [] \/ clean p).
Proof.
  intros Hs. split; [by apply canonicalize_spec|]. split.
  - rewrite canonicalize_spec by by apply normal_chars. by rewrite normal_normal.
  - unfold normal. pose proof (parts_no_slash s) as Hp. destruct (parts s) as [p ps]. by apply resolve_is_clean.
Qed.

(** * Archives and their files *)

Record member := mk_member { m_name : list Z; m_mtime : Z; m_mode : Z; m_data : list Z }.

Definition is_link (m : member) : bool := has_type (m_mode m) GRUB_ARCHELP_ATTR_LNK.

(** The string in some bytes, whose characters are signed. *)
Fixpoint c_string (b : list Z) : list Z :=
  match b with [] => [] | c :: b => if s8 c =? 0 then [] else s8 c :: c_string b end.

(** An archive of members of which the next one to be found is the [i]th. *)
Class ArchiveOk (A : Type) `{Archive A} := {
  arch_at : A -> list member -> nat -> Prop;
  links_known : exists glt, get_link_target = Some glt /\ forall a ms i m, arch_at a ms (S i) -> arch_errno a = ERR_NONE -> ms !! i = Some m ->
    is_link m = true -> exists a', glt a = Some (Some (c_string (m_data m)), a') /\ arch_at a' ms (S i) /\ arch_errno a' = ERR_NONE;
  members_ok a ms i m : arch_at a ms i -> m ∈ ms -> cstr (m_name m) /\ zlen (m_data m) <= 2 ^ 40;
  find_next a ms i m : arch_at a ms i -> arch_errno a = ERR_NONE -> ms !! i = Some m ->
    exists a', find_file a = Some (FFile (m_name m) (m_mtime m) (m_mode m), a') /\ arch_at a' ms (S i) /\ arch_errno a' = ERR_NONE;
  find_end a ms i : arch_at a ms i -> arch_errno a = ERR_NONE -> ms !! i = None ->
    exists a', find_file a = Some (FEnd, a') /\ arch_errno a' = ERR_NONE;
  rewind_ok a ms i : arch_at a ms i -> arch_at (rewind a) ms 0 /\ arch_errno (rewind a) = arch_errno a;
  arch_error_ok e a : arch_errno (arch_error e a) = e;
  arch_malloc_ok n a ms i : arch_at a ms i -> exists a', arch_malloc n a = (true, a') /\ arch_at a' ms i /\ arch_errno a' = arch_errno a
}.

(** ** How the code looks a name up *)

(** Whether the name goes through the link [m]. *)
Definition follows (m : member) (name : list Z) : bool :=
  is_link m && leads_to (normal (m_name m)) name && negb (bool_decide (c_string (m_data m) = [])).

(** The name that is looked up instead. *)
Definition raw_redirect (m : member) (name : list Z) : list Z :=
  let flen := length (normal (m_name m)) in
  let rest := drop (if at0 (drop flen name) =? 0 then flen else S flen) name in
  let target := c_string (m_data m) in
  if at0 target =? SLASH then target ++ rest else link_prefix name flen ++ target ++ rest.

Definition redirect (m : member) (name : list Z) : list Z := normal (raw_redirect m name).

Inductive lookup_result := LFound (i : nat) (m : member) | LMissing | LLoop.

(** The first member that is a link on the way or has the name; a link starts again, at most [nest]
    times. *)
Definition hits (name : list Z) (m : member) : bool := follows m name || bool_decide (name = normal (m_name m)).

Fixpoint first_hit (name : list Z) (ms : list member) (i : nat) : option (nat * member) :=
  match ms with
  | [] => None
  | m :: ms => if hits name m then Some (i, m) else first_hit name ms (S i)
  end.

Fixpoint lookup_name (nest : nat) (ms : list member) (name : list Z) : lookup_result :=
  match first_hit name ms 0 with
  | None => LMissing
  | Some (i, m) =>
      if follows m name then match nest with O => LLoop | S nest => lookup_name nest ms (redirect m name) end else LFound i m
  end.

Lemma cstr_no_zero s : cstr s -> 0 ∉ s.
Proof. intros Hs Hin. unfold cstr in Hs. rewrite Forall_forall in Hs. by destruct (Hs 0 Hin). Qed.

Lemma cstr_c_string b : cstr (c_string b).
Proof.
  induction b as [|c b IH]; cbn [c_string]; [constructor|]. destruct (Z.eqb_spec (s8 c) 0); [constructor|].
  constructor; [|done]. split; [done|]. apply (sgn_range 8 c). lia.
Qed.

Lemma cstr_normal s : cstr s -> cstr (normal s).
Proof.
  intros Hs. unfold cstr in *. rewrite !Forall_forall in *. intros x Hx. destruct (decide (x = SLASH)) as [->|Hne]; [unfold is_char, SLASH; lia|].
  destruct (decide (x ∈ s)) as [Hin|Hin]; [by apply Hs|]. by destruct (normal_chars x s Hne Hin).
Qed.

Lemma cstr_app s t : cstr s -> cstr t -> cstr (s ++ t).
Proof. intros. by apply Forall_app. Qed.

Lemma zlen_c_string b : zlen (c_string b) <= zlen b.
Proof. unfold zlen. induction b as [|c b IH]; cbn [c_string]; [done|]. destruct (s8 c =? 0); cbn [length]; lia. Qed.

Lemma parts_length s : (length (fst (parts s)) + length (concat (snd (parts s))) + length (snd (parts s)) = length s)%nat.
Proof.
  induction s as [|c s IH]; [done|]. cbn [parts]. destruct (parts s) as [p ps]. cbn [fst snd] in *.
  destruct (c =? SLASH); cbn [fst snd concat length]; rewrite ?length_app; lia.
Qed.

Lemma resolve_length ps : forall st p, (length (resolve st p ps) <= length (render st) + length p + length (concat ps) + length ps)%nat.
Proof.
  induction ps as [|q ps IH]; intros st p; cbn [resolve concat length]; pose proof (render_tail_le st).
  - destruct (skipped p), (goes_up p); rewrite ?length_app; lia.
  - rewrite length_app. pose proof (IH st q). pose proof (IH (tail st) q). pose proof (IH (p :: st) q) as H3.
    rewrite render_path, !length_app in H3. cbn [length] in H3. destruct (skipped p), (goes_up p); lia.
Qed.

Lemma normal_length s : zlen (normal s) <= zlen s.
Proof.
  unfold normal, zlen. pose proof (parts_length s) as E. destruct (parts s) as [p ps]. cbn [fst snd] in E.
  pose proof (resolve_length ps [] p) as L. cbn [render fmap list_fmap rev concat length] in L. change (length (render [])) with 0%nat in L. lia.
Qed.

(** ** Symbolic links *)

Lemma last_slash_le name n j : last_slash name n = Some j -> (j <= n)%nat.
Proof.
  induction n as [|n IH]; cbn [last_slash]; case_bool_decide; [by intros [= <-]|done|by intros [= <-]|]. intros E%IH. lia.
Qed.

Lemma link_prefix_ok name flen : cstr name -> cstr (link_prefix name flen) /\ zlen (link_prefix name flen) <= Z.of_nat flen + 1.
Proof.
  intros Hn. unfold link_prefix. destruct (last_slash name flen) as [j|] eqn:E; cbn [default from_option id]; [|split; [constructor|unfold zlen; cbn [length]; lia]].
  apply last_slash_le in E. destruct j as [|j]; [split; [constructor|unfold zlen; cbn [length]; lia]|]. split.
  - apply cstr_app; [by apply Forall_take|]. constructor; [|constructor]. unfold is_char, SLASH. lia.
  - unfold zlen. rewrite length_app, length_take. cbn [length]. lia.
Qed.

Lemma raw_redirect_ok m name : cstr name -> zlen (m_data m) <= 2 ^ 40 -> leads_to (normal (m_name m)) name = true ->
  cstr (raw_redirect m name) /\ zlen (raw_redirect m name) <= zlen name + 2 ^ 40 + 1.
Proof.
  intros Hn Hd Hl. unfold raw_redirect. set (fn := normal (m_name m)) in *. set (rest := drop (if _ =? 0 then _ else _) name).
  destruct (link_prefix_ok name (length fn) Hn) as [Hp0 Hpl]. pose proof (cstr_c_string (m_data m)) as Ht0. pose proof (zlen_c_string (m_data m)) as Htl.
  assert (cstr rest) as Hr0 by by apply Forall_drop.
  assert (length fn <= length name)%nat as Hfl.
  { apply andb_prop in Hl as [Hl%bool_decide_eq_true _]. apply (f_equal length) in Hl. rewrite length_take in Hl. lia. }
  assert (zlen rest <= zlen name - Z.of_nat (length fn)) as Hrl by (unfold rest, zlen; rewrite length_drop; destruct (_ =? 0); lia).
  split.
  - destruct (_ =? SLASH); auto using cstr_app.
  - destruct (_ =? SLASH); rewrite ?zlen_app; lia.
Qed.

Lemma redirect_ok m name : cstr name -> zlen (m_data m) <= 2 ^ 40 -> leads_to (normal (m_name m)) name = true ->
  cstr (redirect m name) /\ zlen (redirect m name) <= zlen name + 2 ^ 40 + 1.
Proof.
  intros Hn Hd Hl. destruct (raw_redirect_ok m name Hn Hd Hl) as [Hc Hz]. split; [by apply cstr_normal|].
  etrans; [apply normal_length|done].
Qed.

(** ** Links in the middle and at the end of a name *)

Lemma last_slash_here name n : name !! n = Some SLASH -> last_slash name n = Some n.
Proof. intros E. destruct n; cbn [last_slash]; by rewrite bool_decide_eq_true_2. Qed.

(** A link in the middle: its target is put behind the link itself and runs into what follows. *)
Lemma redirect_middle m rest : normal (m_name m) <> [] -> cstr (normal (m_name m)) -> at0 (c_string (m_data m)) <> SLASH ->
  redirect m (normal (m_name m) ++ SLASH :: rest) = normal (normal (m_name m) ++ SLASH :: c_string (m_data m) ++ rest).
Proof.
  intros Hne Hc Ht. unfold redirect, raw_redirect, link_prefix. set (fn := normal (m_name m)) in *. rewrite (proj2 (Z.eqb_neq _ _) Ht).
  rewrite drop_app_length. cbn [at0]. change (SLASH =? 0) with false. cbv iota zeta. rewrite last_slash_here by by apply list_lookup_middle.
  cbn [default from_option id]. destruct (length fn) as [|n] eqn:El; [by destruct fn|]. rewrite <- El, take_app_length.
  replace (drop (S (length fn)) (fn ++ SLASH :: rest)) with rest; [by rewrite <- !app_assoc|].
  by rewrite <- Nat.add_1_r, <- drop_drop, drop_app_length.
Qed.

Lemma last_slash_back dir base n : SLASH ∉ base -> (n <= length base)%nat ->
  last_slash (dir ++ SLASH :: base) (length dir + n) = Some (length dir).
Proof.
  intros Hb. induction n as [|n IH]; intros Hn; [rewrite Nat.add_0_r; by apply last_slash_here, list_lookup_middle|].
  rewrite Nat.add_succ_r. cbn [last_slash]. rewrite bool_decide_eq_false_2; [apply IH; lia|]. rewrite lookup_app_r by lia.
  replace (S (length dir + n) - length dir)%nat with (S n) by lia. cbn [lookup list_lookup]. intros E. apply Hb. by apply list_elem_of_lookup_2 in E.
Qed.

(** A link at the end: its target is taken from the directory of the link. *)
Lemma redirect_end m dir base : normal (m_name m) = dir ++ SLASH :: base -> dir <> [] -> (SLASH ∉ base) -> at0 (c_string (m_data m)) <> SLASH ->
  redirect m (dir ++ SLASH :: base) = normal (dir ++ SLASH :: c_string (m_data m)).
Proof.
  intros E Hd Hb Ht. unfold redirect, raw_redirect, link_prefix. rewrite (proj2 (Z.eqb_neq _ _) Ht), E, drop_all. cbn [at0]. change (0 =? 0) with true.
  cbv iota zeta. rewrite drop_all, app_nil_r. rewrite length_app. cbn [length].
  assert (last_slash (dir ++ SLASH :: base) (length dir + S (length base)) = Some (length dir)) as ->.
  { rewrite Nat.add_succ_r. cbn [last_slash]. rewrite bool_decide_eq_false_2; [by apply last_slash_back|].
    rewrite lookup_ge_None_2; [done|]. rewrite length_app. cbn [length]. lia. }
  cbn [default from_option id]. destruct (length dir) as [|n] eqn:El; [by destruct dir|]. rewrite <- El, take_app_length. by rewrite <- app_assoc.
Qed.

(** So a file in a directory that is reached through a relative link is not found: the name grows
    until there are too many links. *)
Example link_to_directory_loops :
  lookup_name 7 [mk_member [100] 0 GRUB_ARCHELP_ATTR_LNK [101]; mk_member [101; 47; 102] 0 GRUB_ARCHELP_ATTR_FILE [1; 2]] [100; 47; 102] = LLoop.
Proof. vm_compute. reflexivity. Qed.

(** ** What the names of an archive mean *)

(** The directory of a name: its parts but the last. *)
Definition dir_of (name : list Z) : list Z :=
  let '(p, ps) := parts name in concat ((fun q => q ++ [SLASH]) <$> removelast (p :: ps)).

(** What the target of a link called [name] means: an absolute name, or a name that starts in the
    directory of the link. *)
Definition target_name (name target : list Z) : list Z :=
  normal (if at0 target =? SLASH then target else dir_of name ++ target).

(** The first member of this name. *)
Fixpoint named (name : list Z) (ms : list member) (i : nat) : option (nat * member) :=
  match ms with
  | [] => None
  | m :: ms => if bool_decide (normal (m_name m) = name) then Some (i, m) else named name ms (S i)
  end.

(** The target of a member that is a link. *)
Definition link_target (m : member) : option (list Z) :=
  if is_link m then match c_string (m_data m) with [] => None | t => Some t end else None.

(** The member that a name means, through at most [nest] links. *)
Fixpoint meaning (nest : nat) (ms : list member) (name : list Z) : lookup_result :=
  match named name ms 0 with
  | None => LMissing
  | Some (i, m) =>
      match link_target m with
      | None => LFound i m
      | Some t => match nest with O => LLoop | S nest => meaning nest ms (target_name name t) end
      end
  end.

(** No directory on the way to a name is a link. *)
Definition plain_way (ms : list member) (name : list Z) : bool :=
  forallb (fun m => negb (is_link m && bool_decide (take (S (length (normal (m_name m)))) name = normal (m_name m) ++ [SLASH]))) ms.

(** The name, and the names that links lead to from it, have plain ways. *)
Fixpoint plain_names (nest : nat) (ms : list member) (name : list Z) : bool :=
  plain_way ms name &&
  match named name ms 0 with
  | None => true
  | Some (i, m) =>
      match link_target m with
      | None => true
      | Some t => match nest with O => true | S nest => plain_names nest ms (target_name name t) end
      end
  end.

Lemma dir_of_slash dir base : SLASH ∉ base -> dir_of (dir ++ SLASH :: base) = dir ++ [SLASH].
Proof.
  intros Hb. assert (exists q qs, parts (dir ++ SLASH :: base) = (q, qs ++ [base]) /\
    concat ((fun q => q ++ [SLASH]) <$> q :: qs) = dir ++ [SLASH]) as (q & qs & E & Ec).
  { induction dir as [|c dir (q & qs & E & Ec)]; cbn [app parts].
    - rewrite (parts_plain base Hb). by exists [], [].
    - rewrite E. cbn [fmap list_fmap concat] in Ec. destruct (Z.eqb_spec c SLASH) as [->|Hc].
      + exists [], (q :: qs). split; [done|]. cbn [fmap list_fmap concat]. by rewrite Ec.
      + exists (c :: q), qs. split; [done|]. cbn [fmap list_fmap concat]. by rewrite <- Ec. }
  unfold dir_of. rewrite E, app_comm_cons, removelast_last. exact Ec.
Qed.

(** A name has its last slash, or none. *)
Lemma split_last_slash (name : list Z) : (SLASH ∉ name) \/ exists dir base, name = dir ++ SLASH :: base /\ (SLASH ∉ base).
Proof.
  induction name as [|c name [IH|(dir & base & -> & Hb)]]; [left; apply not_elem_of_nil| |].
  - destruct (decide (c = SLASH)) as [->|Hc]; [right; by exists [], name|]. left. apply not_elem_of_cons. by split.
  - right. by exists (c :: dir), base.
Qed.

Lemma last_slash_none name n : SLASH ∉ name -> last_slash name n = None.
Proof.
  intros Hn. assert (forall i, name !! i <> Some SLASH) as Hi by (intros i E; by apply Hn, (list_elem_of_lookup_2 _ _ _ E)).
  induction n as [|n IH]; cbn [last_slash]; by rewrite bool_decide_eq_false_2.
Qed.

(** The prefix that the code computes for a link at the end of the name is its directory. *)
Lemma prefix_is_dir name t : normal (link_prefix name (length name) ++ t) = normal (dir_of name ++ t).
Proof.
  destruct (split_last_slash name) as [Hn|(dir & base & -> & Hb)].
  - unfold link_prefix, dir_of. rewrite last_slash_none, parts_plain by done. done.
  - rewrite dir_of_slash by done. unfold link_prefix. rewrite length_app. cbn [length].
    assert (last_slash (dir ++ SLASH :: base) (length dir + S (length base)) = Some (length dir)) as ->.
    { rewrite Nat.add_succ_r. cbn [last_slash]. rewrite bool_decide_eq_false_2; [by apply last_slash_back|].
      rewrite lookup_ge_None_2; [done|]. rewrite length_app. cbn [length]. lia. }
    cbn [default from_option id]. destruct dir as [|c dir]; [symmetry; exact (resolve_slash [] t)|].
    cbn [length]. change (S (length dir)) with (length (c :: dir)). by rewrite take_app_length.
Qed.

(** On a plain way only a link that has the name itself is followed. *)
Lemma follows_plain ms m name : cstr name -> plain_way ms name = true -> m ∈ ms -> follows m name = true -> name = normal (m_name m).
Proof.
  intros Hc Hp Hm Hf. unfold plain_way in Hp. rewrite forallb_forall in Hp. specialize (Hp m (proj1 (list_elem_of_In _ _) Hm)).
  unfold follows, leads_to in Hf. apply andb_prop in Hf as [Hf _]. apply andb_prop in Hf as [Hl Hf]. rewrite Hl in Hp.
  apply andb_prop in Hf as [Ht%bool_decide_eq_true He]. set (fn := normal (m_name m)) in *. cbn [andb] in Hp.
  apply negb_true_iff, bool_decide_eq_false in Hp. rewrite <- (take_drop (length fn) name), Ht in Hp |- *.
  destruct (drop (length fn) name) as [|c rest] eqn:Ed; [by rewrite app_nil_r|]. exfalso.
  assert (c ∈ name) as Hin by (rewrite <- (take_drop (length fn) name), Ed; apply elem_of_app; right; left).
  unfold cstr in Hc. rewrite Forall_forall in Hc. destruct (Hc c Hin) as [Hc0 _]. unfold ends in He. cbn [at0] in He.
  apply orb_prop in He as [->%Z.eqb_eq|E%Z.eqb_eq]; [|done]. apply Hp.
  replace (fn ++ SLASH :: rest) with ((fn ++ [SLASH]) ++ rest) by (by rewrite <- app_assoc).
  apply take_app_length'. rewrite length_app. cbn. lia.
Qed.

Lemma leads_to_itself name : leads_to name name = true.
Proof. unfold leads_to. rewrite firstn_all, drop_all. cbn [at0]. by rewrite bool_decide_eq_true_2. Qed.

Lemma follows_target m : follows m (normal (m_name m)) = match link_target m with Some _ => true | None => false end.
Proof.
  unfold follows, link_target. rewrite leads_to_itself, andb_true_r. destruct (is_link m); [|done].
  by destruct (c_string (m_data m)).
Qed.

Lemma first_hit_named all name : cstr name -> plain_way all name = true ->
  forall ms i, (forall m, m ∈ ms -> m ∈ all) -> first_hit name ms i = named name ms i.
Proof.
  intros Hc Hp. induction ms as [|m ms IH]; intros i Hin; [done|]. cbn [first_hit named].
  rewrite (IH (S i)) by (intros x Hx; apply Hin; by right). unfold hits.
  destruct (follows m name) eqn:Hf; cbn [orb].
  - pose proof (follows_plain all m name Hc Hp (Hin m ltac:(left)) Hf) as E. by rewrite bool_decide_eq_true_2.
  - by rewrite (bool_decide_ext (name = normal (m_name m)) (normal (m_name m) = name)) by (split; intros ->; done).
Qed.

Lemma named_name name ms i j m : named name ms i = Some (j, m) -> normal (m_name m) = name /\ m ∈ ms.
Proof.
  revert i. induction ms as [|m' ms IH]; intros i; [done|]. cbn [named]. case_bool_decide as E.
  - intros [= <- <-]. split; [done|left].
  - intros [H1 H2]%IH. split; [done|by right].
Qed.

Lemma redirect_target m t : link_target m = Some t -> redirect m (normal (m_name m)) = target_name (normal (m_name m)) t.
Proof.
  unfold link_target. destruct (is_link m); [|done]. destruct (c_string (m_data m)) as [|c l] eqn:Et; [done|]. intros [= <-].
  unfold redirect, raw_redirect, target_name. rewrite drop_all. cbn [at0]. change (0 =? 0) with true. cbv iota. rewrite drop_all.
  rewrite Et, app_nil_r. cbn [at0]. destruct (c =? SLASH); [done|]. rewrite prefix_is_dir. done.
Qed.

(** On plain ways the code finds what the name means. *)
Lemma lookup_meaning ms n : forall name, cstr name -> (forall m, m ∈ ms -> zlen (m_data m) <= 2 ^ 40) ->
  plain_names n ms name = true -> lookup_name n ms name = meaning n ms name.
Proof.
  induction n as [|n IH]; intros name Hc Hd Hp; cbn [plain_names lookup_name meaning] in *; apply andb_prop in Hp as [Hp Hr];
    rewrite (first_hit_named ms name Hc Hp ms 0) by done; (destruct (named name ms 0) as [[i m]|] eqn:En; [|done]);
    apply named_name in En as [En Hin]; subst name; rewrite follows_target;
    (destruct (link_target m) as [t|] eqn:Et; [|done]); [done|].
  rewrite (redirect_target m t Et). apply IH; [|done|done]. rewrite <- (redirect_target m t Et).
  apply redirect_ok; [done|by apply Hd|apply leads_to_itself].
Qed.

Section Laws.
Context {A : Type} `{ArchiveOk A}.

(** A member that is not on the way leaves the name alone, a link changes it. *)
Lemma handle_symlink_spec a ms i m name : arch_at a ms (S i) -> arch_errno a = ERR_NONE -> ms !! i = Some m -> cstr name -> zlen name <= 2 ^ 45 ->
  exists a', arch_at a' ms (S i) /\ arch_errno a' = ERR_NONE /\
    handle_symlink (normal (m_name m)) name (m_mode m) a = Some (ERR_NONE, if follows m name then redirect m name else name, follows m name, a').
Proof.
  intros Ha He Hm Hn Hl. unfold handle_symlink, follows. destruct links_known as (glt & -> & Hglt). fold (is_link m).
  destruct (is_link m) eqn:Hlink; cbn [negb andb]; [|by exists a].
  destruct (leads_to (normal (m_name m)) name) eqn:Hlead; cbn [negb andb]; [|by exists a].
  destruct (Hglt a ms i m Ha He Hm Hlink) as (a1 & -> & Ha1 & Q1). rewrite bind_ret. cbv beta iota.
  case_bool_decide as Ht; cbn [negb]; [by exists a1|].
  destruct (members_ok a ms _ m Ha (list_elem_of_lookup_2 _ _ _ Hm)) as [Hc Hd]. pose proof (zlen_c_string (m_data m)) as Htl.
  rewrite (proj2 (Z.leb_gt _ _)) by (pow2; change (2 ^ 45) with 35184372088832 in Hl; change (2 ^ 40) with 1099511627776 in Hd; lia).
  destruct (arch_malloc_ok (zlen (c_string (m_data m)) + zlen name + 2) a1 ms _ Ha1) as (a2 & -> & Ha2 & Q2). cbn [negb].
  destruct (raw_redirect_ok m name Hn Hd Hlead) as [Hr _]. fold (raw_redirect m name).
  rewrite canonicalize_spec, bind_ret by by apply cstr_no_zero. exists a2. split; [done|]. split; [congruence|done].
Qed.

(** ** Opening *)

Lemma strcmp_names name fn : cstr name -> cstr fn -> negb (grub_strcmp name fn =? 0) = negb (bool_decide (name = fn)).
Proof. intros Hn Hf. by rewrite strcmp_eq. Qed.

Lemma drop_cons (ms : list member) i m rest : drop i ms = m :: rest -> ms !! i = Some m /\ drop (S i) ms = rest.
Proof.
  intros E. split; [by rewrite <- (Nat.add_0_r i), <- lookup_drop, E|]. by rewrite <- Nat.add_1_r, <- drop_drop, E.
Qed.

(** The members from here on: the first hit decides. *)
Lemma open_scan ms rest : forall i a fuel name nest, drop i ms = rest -> arch_at a ms i -> arch_errno a = ERR_NONE ->
  cstr name -> zlen name <= 2 ^ 45 -> (length rest < fuel)%nat ->
  match first_hit name rest i with
  | None => exists a', open_loop fuel name nest a = Some (ERR_FILE_NOT_FOUND, a')
  | Some (j, m) => exists fuel' a', (fuel <= fuel' + length rest)%nat /\ arch_at a' ms (S j) /\ arch_errno a' = ERR_NONE /\ ms !! j = Some m /\
      open_loop fuel name nest a =
        if follows m name then
          if nest + 1 =? MAX_SYMLINKS then Some (arch_errno (arch_error ERR_SYMLINK_LOOP (rewind a')), arch_error ERR_SYMLINK_LOOP (rewind a'))
          else open_loop fuel' (redirect m name) (nest + 1) (rewind a')
        else Some (ERR_NONE, a')
  end.
Proof.
  induction rest as [|m rest IH]; intros i a fuel name nest Hrest Ha He Hn Hl Hf; (destruct fuel as [|fuel]; [lia|]); cbn [first_hit open_loop].
  - destruct (find_end a ms i Ha He) as (a' & -> & _).
    { apply lookup_ge_None. apply (f_equal length) in Hrest. rewrite length_drop in Hrest. cbn in Hrest. lia. }
    rewrite bind_ret. cbv beta iota zeta. rewrite arch_error_ok. by eexists.
  - apply drop_cons in Hrest as [Hm Hrest]. destruct (find_next a ms i m Ha He Hm) as (a1 & -> & Ha1 & Q1). rewrite bind_ret. cbv beta iota.
    destruct (members_ok a ms i m Ha (list_elem_of_lookup_2 _ _ _ Hm)) as [Hc _]. rewrite canonicalize_spec, bind_ret by by apply cstr_no_zero.
    destruct (handle_symlink_spec a1 ms i m name Ha1 Q1 Hm Hn Hl) as (a2 & Ha2 & Q2 & ->).
    rewrite bind_ret. cbv beta iota. rewrite bool_decide_eq_true_2 by done. cbn [negb]. unfold hits. cbn [length] in *.
    destruct (follows m name) eqn:Hfo; cbn [orb].
    + exists fuel, a2. rewrite Hfo. split; [lia|]. by split.
    + rewrite strcmp_names by (try done; by apply cstr_normal). case_bool_decide as Hnm; cbn [negb].
      * exists fuel, a2. rewrite Hfo. split; [lia|]. by split.
      * specialize (IH (S i) a2 fuel name nest Hrest Ha2 Q2 Hn Hl ltac:(lia)). destruct (first_hit name rest (S i)) as [[j m']|]; [|done].
        destruct IH as (fuel' & a' & Hfu & Hrec). exists fuel', a'. split; [lia|done].
Qed.

Definition open_result (ms : list member) (r : lookup_result) (e : grub_err_t) (a' : A) : Prop :=
  match r with
  | LFound i m => e = ERR_NONE /\ arch_at a' ms (S i) /\ arch_errno a' = ERR_NONE /\ ms !! i = Some m
  | LMissing => e = ERR_FILE_NOT_FOUND
  | LLoop => e = ERR_SYMLINK_LOOP
  end.

Lemma open_loop_spec n : forall a ms fuel name nest, arch_at a ms 0 -> arch_errno a = ERR_NONE -> cstr name ->
  nest + Z.of_nat n + 1 = MAX_SYMLINKS -> zlen name <= (8 - Z.of_nat n) * (2 ^ 40 + 1) -> (S n * S (length ms) <= fuel)%nat ->
  exists e a', open_loop fuel name nest a = Some (e, a') /\ open_result ms (lookup_name n ms name) e a'.
Proof.
  change (2 ^ 40) with 1099511627776. unfold MAX_SYMLINKS. induction n as [|n IH]; intros a ms fuel name nest Ha He Hn Hnest Hl Hf; cbn [lookup_name].
  all: pose proof (open_scan ms ms 0 a fuel name nest eq_refl Ha He Hn ltac:(change (2 ^ 45) with 35184372088832; lia) ltac:(lia)) as Hs.
  all: destruct (first_hit name ms 0) as [[i m]|] eqn:Eh; [|destruct Hs as (a' & ->); by eexists _, _].
  all: destruct Hs as (fuel' & a1 & Hfu & Ha1 & Q1 & Hm & ->); destruct (follows m name) eqn:Hfo; [|eexists _, _; split; [done|by split]].
  - rewrite (proj2 (Z.eqb_eq (nest + 1) MAX_SYMLINKS)) by (unfold MAX_SYMLINKS; lia). rewrite arch_error_ok. by eexists _, _.
  - rewrite (proj2 (Z.eqb_neq (nest + 1) MAX_SYMLINKS)) by (unfold MAX_SYMLINKS; lia). destruct (rewind_ok a1 ms _ Ha1) as (Hr & Qr).
    destruct (members_ok a ms _ m Ha (list_elem_of_lookup_2 _ _ _ Hm)) as [_ Hd]. pose proof Hfo as [[_ Hlead]%andb_prop _]%andb_prop.
    destruct (redirect_ok m name Hn Hd Hlead) as [Hrc Hrl]. change (2 ^ 40) with 1099511627776 in Hrl.
    apply IH; [done|congruence|done|lia|lia|lia].
Qed.

Definition open_fuel (ms : list member) : nat := (8 * S (length ms))%nat.

Lemma archelp_open_spec a ms name fuel : arch_at a ms 0 -> arch_errno a = ERR_NONE -> cstr name -> zlen name <= 2 ^ 40 -> (open_fuel ms <= fuel)%nat ->
  exists e a', grub_archelp_open fuel (SLASH :: name) a = Some (e, a') /\ open_result ms (lookup_name 7 ms (normal name)) e a'.
Proof.
  intros Ha He Hn Hl Hf. unfold grub_archelp_open. destruct (arch_malloc_ok (zlen name + 1) a ms 0 Ha) as (a1 & -> & Ha1 & Q1). cbn [negb].
  rewrite canonicalize_spec, bind_ret by by apply cstr_no_zero. pose proof (normal_length name) as Hnl. unfold open_fuel in Hf.
  apply open_loop_spec; [done|congruence|by apply cstr_normal|done|lia|lia].
Qed.

(** Opening a name of an archive gives the member the name means: the first one that has the
    name, where a symbolic link on the way replaces the name and starts again; after eight links
    it is refused, and so is a name the archive does not have. *)
Theorem archive_open_finds_member a ms name fuel : arch_at a ms 0 -> arch_errno a = ERR_NONE -> cstr name -> zlen name <= 2 ^ 40 ->
  (open_fuel ms <= fuel)%nat ->
  exists e a', grub_archelp_open fuel (SLASH :: name) a = Some (e, a') /\ open_result ms (lookup_name 7 ms (normal name)) e a'.
Proof. apply archelp_open_spec. Qed.

(** ** Listing a directory *)

(** What is below the path in a name; nothing for the path itself. *)
Definition below (path name : list Z) : option (list Z) :=
  if bool_decide (take (length path) name = path) && (ends (at0 (drop (length path) name)) || bool_decide (path = []))
  then Some (skip_leading (drop (length path) name)) else None.

Definition member_info (m : member) (p : bool) : grub_dirhook_info :=
  let notime := negb (Z.land (m_mode m) GRUB_ARCHELP_ATTR_NOTIME =? 0) in
  mk_info (p || has_type (m_mode m) GRUB_ARCHELP_ATTR_DIR) (negb notime) (if notime then 0 else m_mtime m).

(** The members below the path in their order, each child once while its members follow each
    other; a path that is a member must be a directory. *)
Fixpoint list_members {X} (hook : list Z -> grub_dirhook_info -> X -> bool * X) (path : list Z) (prev : option (list Z)) (ms : list member) (x : X)
  : grub_err_t * X :=
  match ms with
  | [] => (ERR_NONE, x)
  | m :: ms =>
      match below path (normal (m_name m)) with
      | None => list_members hook path prev ms x
      | Some n =>
          let '(child, p) := cut n in
          if bool_decide (child = []) then
            if has_type (m_mode m) GRUB_ARCHELP_ATTR_DIR then list_members hook path prev ms x else (ERR_BAD_FILE_TYPE, x)
          else
            let full := take (length (normal (m_name m)) - length n) (normal (m_name m)) ++ child in
            if bool_decide (prev = Some full) then list_members hook path prev ms x else
            let '(stop, x) := hook child (member_info m p) x in
            if (stop : bool) then (ERR_NONE, x) else list_members hook path (Some full) ms x
      end
  end.

Lemma skip_leading_length s : (length (skip_leading s) <= length s)%nat.
Proof. induction s as [|c s IH]; cbn [skip_leading]; [done|]. destruct (c =? SLASH); cbn [length]; lia. Qed.

Lemma cstr_skip s : cstr s -> cstr (skip_leading s).
Proof. induction 1 as [|c s Hc Hs IH]; cbn [skip_leading]; [constructor|]. destruct (c =? SLASH); [done|by constructor]. Qed.

Lemma cstr_cut s : cstr s -> cstr (fst (cut s)).
Proof.
  induction 1 as [|c s Hc Hs IH]; cbn [cut]; [constructor|]. destruct (c =? SLASH); [constructor|]. destruct (cut s). by constructor.
Qed.

(** A name that is longer than the path is not above it. *)
Lemma handle_symlink_longer fn path mode (a : A) : (length path < length fn)%nat -> handle_symlink fn path mode a = Some (ERR_NONE, path, false, a).
Proof.
  intros Hl. unfold handle_symlink. destruct get_link_target; [|done]. destruct (negb (has_type mode _)); [done|].
  unfold leads_to. rewrite bool_decide_eq_false_2; [done|]. intros E. apply (f_equal length) in E. rewrite length_take in E. lia.
Qed.

Lemma handle_symlink_dir fn path mode (a : A) : has_type mode GRUB_ARCHELP_ATTR_DIR = true -> handle_symlink fn path mode a = Some (ERR_NONE, path, false, a).
Proof.
  unfold handle_symlink, has_type. intros ->%Z.eqb_eq. destruct get_link_target; [|done]. done.
Qed.

Lemma dir_loop_spec {X} (hook : list Z -> grub_dirhook_info -> X -> bool * X) all ms : forall i a fuel path prev nest x,
  drop i all = ms -> arch_at a all i -> arch_errno a = ERR_NONE -> (forall q, prev = Some q -> cstr q) -> (length ms < fuel)%nat ->
  exists a', dir_loop hook fuel path prev nest a x = Some (fst (list_members hook path prev ms x), a', snd (list_members hook path prev ms x)).
Proof.
  induction ms as [|m ms IH]; intros i a fuel path prev nest x Hms Ha He Hprev Hf; (destruct fuel as [|fuel]; [lia|]); cbn [dir_loop list_members].
  { destruct (find_end a all i Ha He) as (a' & -> & Q').
    { apply lookup_ge_None. apply (f_equal length) in Hms. rewrite length_drop in Hms. cbn in Hms. lia. }
    rewrite bind_ret. cbv beta iota. rewrite Q'. by eexists. }
  apply drop_cons in Hms as [Hm Hms]. destruct (find_next a all i m Ha He Hm) as (a1 & -> & Ha1 & Q1). rewrite bind_ret. cbv beta iota.
  destruct (members_ok a all i m Ha (list_elem_of_lookup_2 _ _ _ Hm)) as [Hc _]. rewrite canonicalize_spec, bind_ret by by apply cstr_no_zero.
  set (name := normal (m_name m)) in *. assert (cstr name) as Hn by by apply cstr_normal. cbn [length] in Hf.
  assert (forall prev' x', (forall q, prev' = Some q -> cstr q) -> exists a', dir_loop hook fuel path prev' nest a1 x' =
    Some (fst (list_members hook path prev' ms x'), a', snd (list_members hook path prev' ms x'))) as Hnext.
  { intros prev' x' Hp. by apply (IH (S i)); try done; lia. }
  unfold below. destruct (_ && (_ || _)) eqn:Hbelow; [|by apply Hnext]. apply andb_prop in Hbelow as [Hpath%bool_decide_eq_true _].
  set (n := skip_leading (drop (length path) name)) in *. assert (cstr n) as Hcn by by apply cstr_skip, Forall_drop.
  pose proof (cstr_cut n Hcn) as Hcc. destruct (cut n) as [child p] eqn:Ecut. cbn [fst] in Hcc.
  set (full := take (length name - length n) name ++ child) in *.
  assert (cstr full) as Hfull by (apply cstr_app; [by apply Forall_take|done]).
  destruct (decide (child = [])) as [Hch|Hch].
  - rewrite !(bool_decide_eq_true_2 _ Hch). destruct (has_type (m_mode m) GRUB_ARCHELP_ATTR_DIR) eqn:Hd; cbn [negb andb].
    + rewrite andb_false_r. rewrite handle_symlink_dir, bind_ret by done. cbv beta iota. rewrite bool_decide_eq_true_2 by done. cbn [negb]. by apply Hnext.
    + rewrite arch_error_ok. by eexists.
  - rewrite !(bool_decide_eq_false_2 _ Hch). cbn [negb andb]. rewrite andb_true_r.
    assert (match prev with None => true | Some prev => negb (grub_strcmp prev full =? 0) end = negb (bool_decide (prev = Some full))) as ->.
    { destruct prev as [q|]; [|by rewrite bool_decide_eq_false_2]. rewrite strcmp_names by (try done; by apply Hprev). f_equal. apply bool_decide_ext. split; congruence. }
    destruct (decide (prev = Some full)) as [Hpr|Hpr].
    + rewrite (bool_decide_eq_true_2 _ Hpr). cbn [negb]. rewrite handle_symlink_longer, bind_ret. 
      * cbv beta iota. rewrite bool_decide_eq_true_2 by done. cbn [negb]. by apply Hnext.
      * unfold full. rewrite length_app, length_take. pose proof (skip_leading_length (drop (length path) name)) as Hsl. fold n in Hsl. rewrite length_drop in Hsl.
        apply (f_equal length) in Hpath. rewrite length_take in Hpath. destruct child; [done|]. cbn [length]. lia.
    + rewrite (bool_decide_eq_false_2 _ Hpr). cbn [negb]. fold (member_info m p). destruct (hook child (member_info m p) x) as [stop x'].
      destruct stop; [rewrite Q1; by eexists|]. apply Hnext. by intros q [= <-].
Qed.

(** Listing a directory of an archive calls the hook for the members below it, in their order,
    until it stops: with the part of the name behind the path, as a directory if more follows or
    the member is one, and once for members of one child that follow each other.  A path that is a
    member other than a directory is refused, also when it is a link to a directory: the code that
    should follow links is never reached. *)
Theorem archive_dir_lists_children {X} (hook : list Z -> grub_dirhook_info -> X -> bool * X) a ms path fuel x :
  arch_at a ms 0 -> arch_errno a = ERR_NONE -> cstr path -> (length ms < fuel)%nat ->
  exists a', grub_archelp_dir hook fuel (SLASH :: path) a x =
    Some (fst (list_members hook (strip_trailing (normal path)) None ms x), a', snd (list_members hook (strip_trailing (normal path)) None ms x)).
Proof.
  intros Ha He Hpath Hf. unfold grub_archelp_dir. destruct (arch_malloc_ok (zlen path + 1) a ms 0 Ha) as (a1 & -> & Ha1 & Q1). cbn [negb].
  rewrite canonicalize_spec, bind_ret by by apply cstr_no_zero.
  apply (dir_loop_spec hook ms ms 0 a1); [done|done|congruence|done|done].
Qed.

End Laws.

End GrubArchelp.
