(* ===== verification/GrubCpio.v ===== *)
(** cpio archives (src/grub/grub-core/fs/cpio_common.c with the formats newc.c, odc.c and cpio.c):
    the headers on the disk, finding the files of an archive, and reading them.

    The three formats share the code and differ in the layout of the header, the way numbers are
    written and the alignment: the record [format].  Numbers are those of a 64-bit [grub_size_t]. *)

From S2P Require Import Prelude GrubStr GrubNum GrubStrOrder GrubDisk GrubFile GrubArchelp.

Module GrubCpio.
Import GrubStr GrubNum GrubStrOrder GrubDisk GrubFile GrubArchelp.

(** ** Formats *)

(** [n] bytes at [a] of a header. *)
Definition field (hd : list Z) (a n : nat) : list Z := take n (drop a hd).

Record format := mk_format {
  magics : list (list Z);
  head_size : Z;
  hd_magic : list Z -> list Z;
  hd_filesize : list Z -> Z;
  hd_mtime : list Z -> Z;
  hd_mode : list Z -> Z;
  hd_namesize : list Z -> Z;
  ALIGN_CPIO : Z -> Z
}.

Definition ALIGN_UP (x align : Z) : Z := Z.land (u64 (x + align - 1)) (Z.lnot (align - 1)).

Definition grub_isxdigit (c : Z) : bool := grub_isdigit c || ((97 <=? c) && (c <=? 102)) || ((65 <=? c) && (c <=? 70)).

(** newc: eight hexadecimal digits. *)
Definition hex_digit (c : Z) : Z :=
  if (48 <=? c) && (c <=? 57) then Z.land c 15
  else if (97 <=? c) && (c <=? 102) then c - (97 - 10) else c - (65 - 10).

Fixpoint newc_number (ret : Z) (str : list Z) : Z :=
  match str with
  | c :: str => if grub_isxdigit c then newc_number (u64 (Z.lor (Z.shiftl ret 4) (hex_digit c))) str else ret
  | [] => ret
  end.

Definition newc : format := {|
  magics := [[48; 55; 48; 55; 48; 49]; [48; 55; 48; 55; 48; 50]];
  head_size := 110;
  hd_magic hd := field hd 0 6;
  hd_filesize hd := newc_number 0 (field hd 54 8);
  hd_mtime hd := newc_number 0 (field hd 46 8);
  hd_mode hd := newc_number 0 (field hd 14 8);
  hd_namesize hd := newc_number 0 (field hd 94 8);
  ALIGN_CPIO x := ALIGN_UP x 4
|}.

(** odc: octal digits. *)
Fixpoint odc_number (ret : Z) (str : list Z) : Z :=
  match str with
  | c :: str => if (48 <=? c) && (c <=? 55) then odc_number (u64 (Z.lor (Z.shiftl ret 3) (Z.land c 15))) str else ret
  | [] => ret
  end.

Definition odc : format := {|
  magics := [[48; 55; 48; 55; 48; 55]];
  head_size := 76;
  hd_magic hd := field hd 0 6;
  hd_filesize hd := odc_number 0 (field hd 65 11);
  hd_mtime hd := odc_number 0 (field hd 48 11);
  hd_mode hd := odc_number 0 (field hd 18 6);
  hd_namesize hd := odc_number 0 (field hd 59 6);
  ALIGN_CPIO x := x
|}.

(** cpiofs: words of 16 bits, the low byte first, the high word first. *)
Fixpoint cpio_number (ret : Z) (arr : list Z) : Z :=
  match arr with
  | l :: h :: arr => cpio_number (u64 (Z.lor (Z.shiftl ret 16) (l + 256 * h))) arr
  | _ => ret
  end.

Definition cpiofs : format := {|
  magics := [[199; 113]];
  head_size := 26;
  hd_magic hd := field hd 0 2;
  hd_filesize hd := cpio_number 0 (field hd 22 4);
  hd_mtime hd := cpio_number 0 (field hd 16 4);
  hd_mode hd := cpio_number 0 (field hd 6 2);
  hd_namesize hd := cpio_number 0 (field hd 20 2);
  ALIGN_CPIO x := ALIGN_UP x 2
|}.

(** cpio_be: the same with the high byte first. *)
Fixpoint cpio_be_number (ret : Z) (arr : list Z) : Z :=
  match arr with
  | h :: l :: arr => cpio_be_number (u64 (Z.lor (Z.shiftl ret 16) (l + 256 * h))) arr
  | _ => ret
  end.

Definition cpiofs_be : format := {|
  magics := [[113; 199]];
  head_size := 26;
  hd_magic hd := field hd 0 2;
  hd_filesize hd := cpio_be_number 0 (field hd 22 4);
  hd_mtime hd := cpio_be_number 0 (field hd 16 4);
  hd_mode hd := cpio_be_number 0 (field hd 6 2);
  hd_namesize hd := cpio_be_number 0 (field hd 20 2);
  ALIGN_CPIO x := ALIGN_UP x 2
|}.

(** ** The archive *)

Record grub_archelp_data (D : Type) := mk_data {
  d_disk : grub_disk;
  hofs : Z;
  next_hofs : Z;
  dofs : Z;
  d_size : Z;
  d_state : state (D := D)
}.
Arguments mk_data {D}.
Arguments d_disk {D}.
Arguments hofs {D}.
Arguments next_hofs {D}.
Arguments dofs {D}.
Arguments d_size {D}.
Arguments d_state {D}.

Definition set_dstate {D} (s : state (D := D)) (d : grub_archelp_data D) : grub_archelp_data D :=
  mk_data (d_disk d) (hofs d) (next_hofs d) (dofs d) (d_size d) s.

Definition TRAILER : list Z := [84; 82; 65; 73; 76; 69; 82; 33; 33; 33; 0].

Section Cpio.
Context {D : Type} `{Devices D}.
Variable memory : nat -> Z -> bool * bool.
Variable fmt : format.

Definition has_magic (hd : list Z) : bool := existsb (fun m => bool_decide (hd_magic fmt hd = m)) (magics fmt).

Definition fail_with (e : grub_err_t) (d : grub_archelp_data D) : option (find_result * grub_archelp_data D) :=
  Some (FFail, set_dstate (set_errno e (d_state d)) d).

(** The next header.  A mode of [GRUB_ARCHELP_ATTR_END] ends the archive for the caller. *)
Definition grub_cpio_find_file (d : grub_archelp_data D) : option (find_result * grub_archelp_data D) :=
  let at_ := next_hofs d in
  '(e, hd, s) ← grub_disk_read memory (d_disk d) 0 at_ (head_size fmt) (d_state d);
  let d := mk_data (d_disk d) at_ at_ (dofs d) (d_size d) s in
  if negb (bool_decide (e = ERR_NONE)) then Some (FFail, d) else
  if negb (has_magic hd) then fail_with ERR_BAD_FS d else
  let d := mk_data (d_disk d) at_ at_ (dofs d) (u64 (hd_filesize fmt hd)) s in
  if 2 ^ 31 <=? hd_mtime fmt hd then fail_with ERR_BAD_FS d else
  if 2 ^ 32 <=? hd_mode fmt hd then fail_with ERR_BAD_FS d else
  let namesize := u64 (hd_namesize fmt hd) in
  if 2 ^ 31 <=? namesize then Some (FEnd, d) else
  let '(ok, s) := malloc memory (namesize + 1) s in
  if negb ok then Some (FFail, set_dstate s d) else
  '(e, name, s) ← grub_disk_read memory (d_disk d) 0 (u64 (at_ + head_size fmt)) namesize s;
  let d := set_dstate s d in
  if negb (bool_decide (e = ERR_NONE)) then Some (FFail, d) else
  if (d_size d =? 0) && (hd_mode fmt hd =? 0) && (namesize =? 11) && bool_decide (name = TRAILER) then Some (FEnd, d) else
  let data_at := u64 (at_ + ALIGN_CPIO fmt (u64 (head_size fmt + namesize))) in
  let d := mk_data (d_disk d) at_ (u64 (data_at + ALIGN_CPIO fmt (d_size d))) data_at (d_size d) s in
  Some (if hd_mode fmt hd =? GRUB_ARCHELP_ATTR_END then FEnd else FFile (c_string name) (hd_mtime fmt hd) (hd_mode fmt hd), d).

Definition grub_cpio_get_link_target (d : grub_archelp_data D) : option (option (list Z) * grub_archelp_data D) :=
  if d_size d =? 0 then
    let '(ok, s) := malloc memory 1 (d_state d) in Some (if (ok : bool) then Some [] else None, set_dstate s d)
  else if 2 ^ 64 <=? d_size d + 1 then Some (None, set_dstate (set_errno ERR_OUT_OF_RANGE (d_state d)) d) else
  let '(ok, s) := malloc memory (d_size d + 1) (d_state d) in
  if negb ok then Some (None, set_dstate s d) else
  '(e, b, s) ← grub_disk_read memory (d_disk d) 0 (dofs d) (d_size d) s;
  Some (if bool_decide (e = ERR_NONE) then Some (c_string b) else None, set_dstate s d).

Definition grub_cpio_rewind (d : grub_archelp_data D) : grub_archelp_data D :=
  mk_data (d_disk d) (hofs d) 0 (dofs d) (d_size d) (d_state d).

#[export] Instance arcops : Archive (grub_archelp_data D) := {|
  find_file := grub_cpio_find_file;
  get_link_target := Some grub_cpio_get_link_target;
  rewind := grub_cpio_rewind;
  arch_errno d := grub_errno (d_state d);
  arch_error e d := set_dstate (set_errno e (d_state d)) d;
  arch_malloc n d := let '(ok, s) := malloc memory n (d_state d) in (ok, set_dstate s d)
|}.

Definition grub_cpio_mount (k : grub_disk) (s : state (D := D)) : option (option (grub_archelp_data D) * state (D := D)) :=
  '(e, hd, s) ← grub_disk_read memory k 0 0 (head_size fmt) s;
  if negb (bool_decide (e = ERR_NONE)) || negb (has_magic hd) then Some (None, set_errno ERR_BAD_FS s) else
  let '(ok, s) := malloc memory 40 s in
  if negb ok then Some (None, set_errno ERR_BAD_FS s) else Some (Some (mk_data k 0 0 0 0 s), s).

Definition grub_cpio_dir {X} (hook : list Z -> grub_dirhook_info -> X -> bool * X) (fuel : nat) (k : grub_disk) (path_in : list Z) (s : state (D := D)) (x : X)
  : option (grub_err_t * state (D := D) * X) :=
  '(d, s) ← grub_cpio_mount k s;
  match d with
  | None => Some (grub_errno s, s, x)
  | Some d => '(e, d, x) ← grub_archelp_dir hook fuel path_in d x; Some (e, d_state d, x)
  end.

(** The file, of the size of the member. *)
Definition grub_cpio_open (fuel : nat) (k : grub_disk) (name_in : list Z) (s : state (D := D))
  : option (grub_err_t * option (grub_file * grub_archelp_data D) * state (D := D)) :=
  '(d, s) ← grub_cpio_mount k s;
  match d with
  | None => Some (grub_errno s, None, s)
  | Some d =>
      '(e, d) ← grub_archelp_open fuel name_in d;
      Some (e, if bool_decide (e = ERR_NONE) then Some (mk_file 0 (d_size d) None 0, d) else None, d_state d)
  end.

Definition grub_cpio_read (file : grub_file) (len : Z) (d : grub_archelp_data D) : option (Z * list Z * grub_file * grub_archelp_data D) :=
  '(e, b, s) ← grub_disk_read memory (set_read_hook (f_hook file) (d_disk d)) 0 (u64 (dofs d + f_offset file)) len (d_state d);
  Some (if bool_decide (e = ERR_NONE) then s64 len else -1, b, file, mk_data (set_read_hook None (d_disk d)) (hofs d) (next_hofs d) (dofs d) (d_size d) s).

#[export] Instance cpio_fs : Fs (grub_archelp_data D) := {|
  fs_read := grub_cpio_read;
  fs_error e d := set_dstate (set_errno e (d_state d)) d;
  fs_clear d := set_dstate (set_errno ERR_NONE (d_state d)) d
|}.
End Cpio.
(** * Archives on a disk *)

(** What an archive of a format is made of; a header is read as it was written. *)
Class FormatOk (fmt : format) := {
  make_head : Z -> Z -> Z -> Z -> list Z;
  max_mode : Z;
  max_name : Z;
  max_size : Z;
  max_ok : 0 < max_mode <= 2 ^ 32 /\ 11 < max_name <= 2 ^ 31 /\ 0 < max_size <= 2 ^ 33;
  head_len mtime mode ns fs : zlen (make_head mtime mode ns fs) = head_size fmt;
  head_pos : 0 < head_size fmt <= 110;
  head_magic mtime mode ns fs : has_magic fmt (make_head mtime mode ns fs) = true;
  head_fields mtime mode ns fs : 0 <= mtime < 2 ^ 31 -> 0 <= mode < max_mode -> 0 <= ns < max_name -> 0 <= fs < max_size ->
    hd_mtime fmt (make_head mtime mode ns fs) = mtime /\ hd_mode fmt (make_head mtime mode ns fs) = mode /\
    hd_namesize fmt (make_head mtime mode ns fs) = ns /\ hd_filesize fmt (make_head mtime mode ns fs) = fs;
  align_ok x : 0 <= x < 2 ^ 40 -> x <= ALIGN_CPIO fmt x <= x + 4
}.

(** ** Numbers *)

Lemma lor_shift a d k : 0 <= k -> 0 <= d < 2 ^ k -> Z.lor (Z.shiftl a k) d = a * 2 ^ k + d.
Proof.
  intros Hk Hd. destruct (Z.eq_dec d 0) as [->|Hd0]; [rewrite Z.lor_0_r, Z.shiftl_mul_pow2 by done; lia|].
  assert (Z.land (Z.shiftl a k) d = 0) as Hl.
  { apply Z.bits_inj'. intros n Hn. rewrite Z.land_spec, Z.bits_0. destruct (Z.lt_ge_cases n k); [by rewrite Z.shiftl_spec_low|].
    rewrite (Z.bits_above_log2 d n), andb_false_r; [done|lia|].
    apply Z.log2_lt_pow2; [lia|]. eapply Z.lt_le_trans; [apply Hd|]. apply Z.pow_le_mono_r; lia. }
  by rewrite <- Z.lxor_lor, <- Z.add_nocarry_lxor, Z.shiftl_mul_pow2 by done.
Qed.

(** [w] digits of a number, the first one first. *)
Fixpoint digits (b : Z) (w : nat) (n : Z) : list Z :=
  match w with
  | O => []
  | S w => (n / b ^ Z.of_nat w) mod b :: digits b w n
  end.

Lemma digits_length b w n : length (digits b w n) = w.
Proof. induction w as [|w IH]; cbn [digits length]; [done|by f_equal]. Qed.

Lemma digits_range b w n : 0 < b -> Forall (fun d => 0 <= d < b) (digits b w n).
Proof. intros Hb. induction w as [|w IH]; cbn [digits]; constructor; [|done]. by apply Z.mod_pos_bound. Qed.

(** Reading digits one by one. *)
Lemma digits_value b w n : 0 < b -> foldl (fun r d => r * b + d) 0 (digits b w n) = n mod b ^ Z.of_nat w.
Proof.
  intros Hb. assert (forall r, foldl (fun r d => r * b + d) r (digits b w n) = r * b ^ Z.of_nat w + n mod b ^ Z.of_nat w) as E.
  { induction w as [|w IH]; intros r; cbn [digits foldl]; [rewrite Z.mod_1_r; cbn; lia|]. rewrite IH, Nat2Z.inj_succ, Z.pow_succ_r by lia.
    assert (0 < b ^ Z.of_nat w) as Hp by (apply Z.pow_pos_nonneg; lia).
    rewrite (Z.mul_comm b), Z.rem_mul_r by lia. nia. }
  rewrite E. lia.
Qed.

Definition hex_char (d : Z) : Z := if d <? 10 then 48 + d else 87 + d.
Definition hex (w : nat) (n : Z) : list Z := hex_char <$> digits 16 w n.
Definition octal (w : nat) (n : Z) : list Z := (fun d => 48 + d) <$> digits 8 w n.

Lemma newc_number_spec l : Forall (fun d => 0 <= d < 16) l -> forall r, 0 <= r -> (r + 1) * 16 ^ zlen l <= 2 ^ 64 ->
  newc_number r (hex_char <$> l) = foldl (fun r d => r * 16 + d) r l.
Proof.
  induction 1 as [|d l Hd Hl IH]; intros r Hr Hb; cbn [fmap list_fmap newc_number foldl]; [done|].
  assert (grub_isxdigit (hex_char d) = true /\ hex_digit (hex_char d) = d) as [-> ->].
  { assert (d = 0 \/ d = 1 \/ d = 2 \/ d = 3 \/ d = 4 \/ d = 5 \/ d = 6 \/ d = 7 \/ d = 8 \/ d = 9 \/ d = 10 \/ d = 11 \/ d = 12 \/ d = 13 \/ d = 14 \/ d = 15)
      as Hc by lia. by destruct_or! Hc; subst d. }
  rewrite zlen_cons, Z.pow_add_r, Z.pow_1_r in Hb by (pose proof (zlen_nonneg l); lia).
  pose proof (Z.pow_pos_nonneg 16 (zlen l) ltac:(lia) (zlen_nonneg l)).
  rewrite (lor_shift r d 4) by (cbn; lia). change (2 ^ 4) with 16. rewrite (wrap_small 64) by (pow2; nia). apply IH; [lia|nia].
Qed.

Lemma odc_number_spec l : Forall (fun d => 0 <= d < 8) l -> forall r, 0 <= r -> (r + 1) * 8 ^ zlen l <= 2 ^ 64 ->
  odc_number r ((fun d => 48 + d) <$> l) = foldl (fun r d => r * 8 + d) r l.
Proof.
  induction 1 as [|d l Hd Hl IH]; intros r Hr Hb; cbn [fmap list_fmap odc_number foldl]; [done|].
  rewrite (proj2 (Z.leb_le 48 _)), (proj2 (Z.leb_le _ 55)) by lia. cbn [andb].
  assert (Z.land (48 + d) 15 = d) as -> by (assert (d = 0 \/ d = 1 \/ d = 2 \/ d = 3 \/ d = 4 \/ d = 5 \/ d = 6 \/ d = 7) as Hc by lia; by destruct_or! Hc; subst d).
  rewrite zlen_cons, Z.pow_add_r, Z.pow_1_r in Hb by (pose proof (zlen_nonneg l); lia).
  pose proof (Z.pow_pos_nonneg 8 (zlen l) ltac:(lia) (zlen_nonneg l)).
  rewrite (lor_shift r d 3) by (cbn; lia). change (2 ^ 3) with 8. rewrite (wrap_small 64) by (pow2; nia). apply IH; [lia|nia].
Qed.

Lemma newc_hex n : 0 <= n < 2 ^ 32 -> newc_number 0 (hex 8 n) = n.
Proof.
  intros Hn. unfold hex. rewrite newc_number_spec; [|by apply digits_range|lia|].
  - rewrite digits_value by lia. by apply Z.mod_small.
  - unfold zlen. rewrite digits_length. by vm_compute.
Qed.

Lemma odc_octal w n : (w <= 11)%nat -> 0 <= n < 8 ^ Z.of_nat w -> odc_number 0 (octal w n) = n.
Proof.
  intros Hw Hn. unfold octal. rewrite odc_number_spec; [|by apply digits_range|lia|].
  - rewrite digits_value by lia. by apply Z.mod_small.
  - unfold zlen. rewrite digits_length. etrans; [apply Z.mul_le_mono_nonneg_l; [lia|apply (Z.pow_le_mono_r 8 _ 11); lia]|]. by vm_compute.
Qed.
(** ** The formats *)

Lemma align_up_spec x k : 0 <= k <= 2 -> 0 <= x < 2 ^ 40 -> x <= ALIGN_UP x (2 ^ k) <= x + 4.
Proof.
  intros Hk Hx. unfold ALIGN_UP. change (2 ^ 40) with 1099511627776 in Hx.
  assert (0 < 2 ^ k <= 4) as Hp by (assert (k = 0 \/ k = 1 \/ k = 2) as Hc by lia; by destruct_or! Hc; subst k).
  rewrite wrap_small by (pow2; lia). set (y := x + 2 ^ k - 1).
  assert (Z.land y (Z.lnot (2 ^ k - 1)) = y - y mod 2 ^ k) as ->.
  { rewrite <- Z.ldiff_land. replace (2 ^ k - 1) with (Z.ones k) by (rewrite Z.ones_equiv; lia). rewrite Z.ldiff_ones_r by lia.
    rewrite Z.shiftr_div_pow2, Z.shiftl_mul_pow2 by lia. pose proof (Z.div_mod y (2 ^ k) ltac:(lia)). lia. }
  pose proof (Z.mod_pos_bound y (2 ^ k) ltac:(lia)). lia.
Qed.

#[export] Instance newc_ok : FormatOk newc.
Proof.
  refine {| make_head mtime mode ns fs := [48; 55; 48; 55; 48; 49] ++ hex 8 0 ++ hex 8 mode ++ hex 8 0 ++ hex 8 0 ++ hex 8 0 ++ hex 8 mtime ++
              hex 8 fs ++ hex 8 0 ++ hex 8 0 ++ hex 8 0 ++ hex 8 0 ++ hex 8 ns ++ hex 8 0;
            max_mode := 2 ^ 32; max_name := 2 ^ 31; max_size := 2 ^ 32 |}.
  - lia.
  - done.
  - cbn. lia.
  - done.
  - intros mtime mode ns fs Hm Hmo Hn Hf.
    repeat split; (etransitivity; [|apply newc_hex; eassumption || lia]); reflexivity.
  - intros x Hx. by apply (align_up_spec x 2).
Defined.

#[export] Instance odc_ok : FormatOk odc.
Proof.
  refine {| make_head mtime mode ns fs := [48; 55; 48; 55; 48; 55] ++ octal 6 0 ++ octal 6 0 ++ octal 6 mode ++ octal 6 0 ++ octal 6 0 ++ octal 6 0 ++
              octal 6 0 ++ octal 11 mtime ++ octal 6 ns ++ octal 11 fs;
            max_mode := 2 ^ 18; max_name := 2 ^ 18; max_size := 2 ^ 33 |}.
  - lia.
  - done.
  - cbn. lia.
  - done.
  - intros mtime mode ns fs Hm Hmo Hn Hf. repeat split.
    + etransitivity; [|apply (odc_octal 11); [lia|]]; [reflexivity|]. change (8 ^ Z.of_nat 11) with 8589934592. lia.
    + etransitivity; [|apply (odc_octal 6); [lia|done]]. reflexivity.
    + etransitivity; [|apply (odc_octal 6); [lia|done]]. reflexivity.
    + etransitivity; [|apply (odc_octal 11); [lia|done]]. reflexivity.
  - intros x Hx. cbn [odc ALIGN_CPIO]. lia.
Defined.

Definition word16 (n : Z) : list Z := [n mod 256; n / 256].
Definition word32 (n : Z) : list Z := word16 (n / 65536) ++ word16 (n mod 65536).

Lemma cpio_word16 r n arr : 0 <= n < 65536 -> 0 <= r < 2 ^ 48 -> cpio_number r (word16 n ++ arr) = cpio_number (r * 65536 + n) arr.
Proof.
  intros Hn Hr. cbn [word16 app cpio_number]. replace (n mod 256 + 256 * (n / 256)) with n by dlia.
  rewrite (lor_shift r n 16) by (change (2 ^ 16) with 65536; lia). change (2 ^ 16) with 65536. change (2 ^ 48) with 281474976710656 in Hr.
  by rewrite wrap_small by (pow2; lia).
Qed.

Lemma cpio_word32 n : 0 <= n < 2 ^ 32 -> cpio_number 0 (word32 n) = n.
Proof.
  intros Hn. change (2 ^ 32) with 4294967296 in Hn. unfold word32. rewrite cpio_word16 by (try dlia; done).
  rewrite <- (app_nil_r (word16 (n mod 65536))), cpio_word16; [cbn [cpio_number]; dlia|dlia|]. change (2 ^ 48) with 281474976710656. dlia.
Qed.

#[export] Instance cpiofs_ok : FormatOk cpiofs.
Proof.
  refine {| make_head mtime mode ns fs := [199; 113] ++ [0; 0; 0; 0] ++ word16 mode ++ [0; 0; 0; 0; 0; 0; 0; 0] ++ word32 mtime ++ word16 ns ++ word32 fs;
            max_mode := 2 ^ 16; max_name := 2 ^ 16; max_size := 2 ^ 32 |}.
  - lia.
  - done.
  - cbn. lia.
  - done.
  - intros mtime mode ns fs Hm Hmo Hn Hf.
    assert (forall n, 0 <= n < 2 ^ 16 -> cpio_number 0 (word16 n) = n) as H16.
    { intros n Hn'. rewrite <- (app_nil_r (word16 n)), cpio_word16; [done|done|lia]. }
    repeat split; [|by apply H16|by apply H16|by apply cpio_word32]. apply cpio_word32. pow2. lia.
  - intros x Hx. by apply (align_up_spec x 1).
Defined.
(** Pairs of bytes exchanged. *)
Definition word16_be (n : Z) : list Z := [n / 256; n mod 256].
Definition word32_be (n : Z) : list Z := word16_be (n / 65536) ++ word16_be (n mod 65536).

#[export] Instance cpiofs_be_ok : FormatOk cpiofs_be.
Proof.
  refine {| make_head mtime mode ns fs := [113; 199] ++ [0; 0; 0; 0] ++ word16_be mode ++ [0; 0; 0; 0; 0; 0; 0; 0] ++ word32_be mtime ++ word16_be ns ++ word32_be fs;
            max_mode := 2 ^ 16; max_name := 2 ^ 16; max_size := 2 ^ 32 |}.
  - lia.
  - done.
  - cbn. lia.
  - done.
  - intros mtime mode ns fs Hm Hmo Hn Hf.
    assert (forall n, 0 <= n < 2 ^ 16 -> cpio_number 0 (word16 n) = n) as H16.
    { intros n Hn'. rewrite <- (app_nil_r (word16 n)), cpio_word16; [done|done|lia]. }
    repeat split; [|by apply H16|by apply H16|by apply cpio_word32]. apply cpio_word32. pow2. lia.
  - intros x Hx. by apply (align_up_spec x 1).
Defined.

(** ** The bytes of an archive *)

Section Layout.
Context (fmt : format) `{FormatOk fmt}.

Definition padded (l : list Z) : list Z := l ++ replicate (Z.to_nat (ALIGN_CPIO fmt (zlen l) - zlen l)) 0.

Definition name_bytes (name : list Z) : list Z := (u8 <$> name) ++ [0].

Definition encode (m : member) : list Z :=
  padded (make_head (m_mtime m) (m_mode m) (zlen (name_bytes (m_name m))) (zlen (m_data m)) ++ name_bytes (m_name m)) ++ padded (m_data m).

Definition trailer : member := mk_member [84; 82; 65; 73; 76; 69; 82; 33; 33; 33] 0 0 [].

(** The members, and the trailer. *)
Definition archive (ms : list member) : list Z := concat (encode <$> ms) ++ encode trailer.

Record member_fits (m : member) : Prop := mk_fits {
  mf_name : cstr (m_name m);
  mf_mtime : 0 <= m_mtime m < 2 ^ 31;
  mf_mode : 0 < m_mode m < max_mode;
  mf_end : m_mode m <> GRUB_ARCHELP_ATTR_END;
  mf_namesize : zlen (m_name m) + 1 < max_name;
  mf_size : zlen (m_data m) < max_size
}.

(** Where the [i]th member starts. *)
Definition start_of (ms : list member) (i : nat) : Z := zlen (concat (encode <$> take i ms)).

(** The distance of the data of a member from its start. *)
Definition name_end (m : member) : Z := ALIGN_CPIO fmt (head_size fmt + zlen (name_bytes (m_name m))).

Lemma zlen_padded l : zlen l < 2 ^ 40 -> zlen (padded l) = ALIGN_CPIO fmt (zlen l).
Proof. intros Hl. pose proof (zlen_nonneg l). destruct (align_ok (zlen l)) as [? _]; [lia|]. unfold padded. rewrite zlen_app, zlen_replicate. lia. Qed.

Lemma zlen_name name : zlen (name_bytes name) = zlen name + 1.
Proof. unfold name_bytes. rewrite zlen_app. unfold zlen. by rewrite length_fmap. Qed.

Lemma c_string_name name : cstr name -> c_string (name_bytes name) = name.
Proof.
  unfold name_bytes. induction 1 as [|c name [Hc0 Hc] Hn IH]; [done|]. cbn [fmap list_fmap app c_string]. unfold is_char in Hc.
  rewrite sgn_wrap, (sgn_small 8) by (cbn; lia). rewrite (proj2 (Z.eqb_neq c 0)) by done. by f_equal.
Qed.

Lemma part_middle p x r : part (p ++ x ++ r) (zlen p) (zlen x) = x.
Proof. unfold part, zlen. rewrite !Nat2Z.id, drop_app_length, take_app_length. done. Qed.

(** The parts of an encoded member, with what is around it. *)
Lemma encode_parts p m r : zlen (m_name m) < 2 ^ 32 -> zlen (m_data m) < 2 ^ 33 ->
  let h := make_head (m_mtime m) (m_mode m) (zlen (name_bytes (m_name m))) (zlen (m_data m)) in
  let all := p ++ encode m ++ r in
  part all (zlen p) (head_size fmt) = h /\
  part all (zlen p + head_size fmt) (zlen (name_bytes (m_name m))) = name_bytes (m_name m) /\
  part all (zlen p + name_end m) (zlen (m_data m)) = m_data m /\
  zlen (encode m) = name_end m + ALIGN_CPIO fmt (zlen (m_data m)) /\
  zlen p + head_size fmt + zlen (name_bytes (m_name m)) <= zlen all /\ zlen p + name_end m + zlen (m_data m) <= zlen all /\ 0 <= name_end m.
Proof.
  intros Hn Hd h all. pose proof head_pos. pose proof (zlen_nonneg (m_name m)). pose proof (zlen_nonneg (m_data m)). pose proof (zlen_nonneg r).
  change (2 ^ 32) with 4294967296 in Hn. change (2 ^ 33) with 8589934592 in Hd.
  assert (zlen (h ++ name_bytes (m_name m)) = head_size fmt + zlen (name_bytes (m_name m))) as Eh by (rewrite zlen_app; unfold h; by rewrite head_len).
  rewrite zlen_name in *.
  assert (zlen (padded (h ++ name_bytes (m_name m))) = name_end m) as Ene.
  { rewrite zlen_padded, Eh; [unfold name_end; by rewrite zlen_name|]. rewrite Eh. change (2 ^ 40) with 1099511627776. lia. }
  assert (zlen (padded (m_data m)) = ALIGN_CPIO fmt (zlen (m_data m))) as Ed by (apply zlen_padded; change (2 ^ 40) with 1099511627776; lia).
  destruct (align_ok (zlen (m_data m))) as [Had _]; [change (2 ^ 40) with 1099511627776; lia|].
  destruct (align_ok (head_size fmt + (zlen (m_name m) + 1))) as [Han _]; [change (2 ^ 40) with 1099511627776; lia|].
  assert (zlen (encode m) = name_end m + ALIGN_CPIO fmt (zlen (m_data m))) as Ee by (unfold encode; fold h; rewrite zlen_app; lia).
  assert (zlen all = zlen p + zlen (encode m) + zlen r) as Ea by (unfold all; rewrite !zlen_app; lia).
  unfold name_end in *. rewrite zlen_name in *.
  split; [|split; [|split; [|split; [|split; [|split]]]]]; try lia.
  - unfold all, encode, padded. fold h. rewrite <- !app_assoc. replace (head_size fmt) with (zlen h) by apply head_len. apply part_middle.
  - unfold all, encode, padded. fold h. rewrite <- !app_assoc. rewrite (app_assoc p h).
    replace (zlen p + head_size fmt) with (zlen (p ++ h)) by (rewrite zlen_app; unfold h; by rewrite head_len).
    rewrite <- (zlen_name (m_name m)). apply part_middle.
  - unfold all, encode. fold h. set (q := padded (h ++ name_bytes (m_name m))) in *. unfold padded. rewrite <- !app_assoc, (app_assoc p q).
    rewrite <- Ene, <- zlen_app. apply part_middle.
Qed.

Lemma archive_split ms i m : ms !! i = Some m -> exists r, archive ms = concat (encode <$> take i ms) ++ encode m ++ r.
Proof.
  intros Hm. unfold archive. replace (encode <$> ms) with (encode <$> (take i ms ++ m :: drop (S i) ms)) by (by rewrite (take_drop_middle ms i m Hm)).
  rewrite fmap_app, fmap_cons, concat_app. cbn [concat].
  rewrite <- !app_assoc. by eexists.
Qed.

Lemma start_of_S ms i m : ms !! i = Some m -> start_of ms (S i) = start_of ms i + zlen (encode m).
Proof. intros Hm. unfold start_of. rewrite (take_S_r _ _ _ Hm), fmap_app, concat_app, zlen_app. cbn. by rewrite app_nil_r. Qed.
End Layout.
(** ** Finding members *)

Section Laws.
Context {D : Type} `{DevicesOk D}.
Variable memory : nat -> Z -> bool * bool.
Context (fmt : format) {Hfmt : FormatOk fmt}.

(** The archive at the start of a disk or partition. *)
Record archive_on (k : grub_disk) (s : state (D := D)) (ms : list member) : Prop := mk_on {
  on_sturdy : sturdy memory k s;
  on_hook : read_hook k = None;
  on_fits : Forall (member_fits fmt) ms;
  on_within : within (disk_end k) (partition k) 0 (zlen (archive fmt ms)) = true;
  on_bytes : bytes (disk_bytes s k) (place (partition k) 0) (zlen (archive fmt ms)) = archive fmt ms
}.

Lemma archive_on_frame k s s' ms : archive_on k s ms -> frame s s' -> archive_on k s' ms.
Proof.
  intros [] F. split; try done; [by eapply sturdy_frame|]. unfold disk_bytes in *. by rewrite (f_medium _ _ F).
Qed.

Lemma no_hook k : read_hook k = None -> set_read_hook None k = k.
Proof. destruct k. cbn. by intros ->. Qed.

Lemma archive_small k s ms : archive_on k s ms -> zlen (archive fmt ms) <= 2 ^ 60.
Proof.
  intros [Hst _ _ Hw _]. pose proof (within_limit _ _ _ _ (st_parts _ _ _ Hst) Hw). assert (disk_end k <= 2 ^ 51) by (unfold disk_end; lia).
  change (2 ^ 51) with 2251799813685248 in *. change (2 ^ 60) with 1152921504606846976. lia.
Qed.

(** A read inside of the archive, with any hook. *)
Lemma archive_read k h s ms a n : archive_on k s ms -> hook_fine h -> grub_errno s = ERR_NONE -> 0 <= a -> 0 < n -> a + n <= zlen (archive fmt ms) ->
  exists s', grub_disk_read memory (set_read_hook h k) 0 a n s = Some (ERR_NONE, part (archive fmt ms) a n, s') /\
    frame s s' /\ grub_errno s' = ERR_NONE.
Proof.
  intros Hon Hh He Ha Hn Hl. pose proof Hon as [Hst _ _ Hw Hb].
  destruct (within_sub _ _ _ _ a n Hw Ha ltac:(lia) Hl) as [Hw' Hp']. rewrite Z.add_0_l in Hw', Hp'.
  destruct (sturdy_read memory k h s 0 a n Hst He Hh ltac:(lia) Ha Hn) as (s' & -> & F & E); [by rewrite Z.add_0_l|].
  exists s'. split; [|done]. rewrite Z.add_0_l, Hp', <- Hb. by rewrite part_bytes by lia.
Qed.

(** The next member to be found is the [i]th; the last one found is in the data. *)
Record data_at (d : grub_archelp_data D) (ms : list member) (i : nat) : Prop := mk_data_at {
  da_on : archive_on (d_disk d) (d_state d) ms;
  da_next : next_hofs d = start_of fmt ms i;
  da_le : (i <= length ms)%nat;
  da_last : forall j m, i = S j -> ms !! j = Some m -> dofs d = start_of fmt ms j + name_end fmt m /\ d_size d = zlen (m_data m)
}.

(** Everything that can be written fits; the trailer too. *)
Record header_fits (m : member) : Prop := mk_header_fits {
  hf_mtime : 0 <= m_mtime m < 2 ^ 31;
  hf_mode : 0 <= m_mode m < max_mode;
  hf_namesize : zlen (m_name m) + 1 < max_name;
  hf_size : zlen (m_data m) < max_size
}.

Lemma header_small m : header_fits m -> zlen (m_name m) < 2 ^ 31 /\ zlen (m_data m) < 2 ^ 33.
Proof. intros [_ _ Hn Hs]. destruct (max_ok (fmt := fmt)) as (_ & Hmn & Hms). lia. Qed.

(** What is read of the member behind [p]. *)
Lemma read_header k s ms p m r : archive_on k s ms -> grub_errno s = ERR_NONE -> archive fmt ms = p ++ encode fmt m ++ r -> header_fits m ->
  exists s1, grub_disk_read memory k 0 (zlen p) (head_size fmt) s =
      Some (ERR_NONE, make_head (m_mtime m) (m_mode m) (zlen (name_bytes (m_name m))) (zlen (m_data m)), s1) /\ frame s s1 /\ grub_errno s1 = ERR_NONE /\
    forall s2, frame s1 s2 -> grub_errno s2 = ERR_NONE ->
    exists s3, grub_disk_read memory k 0 (zlen p + head_size fmt) (zlen (name_bytes (m_name m))) s2 = Some (ERR_NONE, name_bytes (m_name m), s3) /\
      frame s2 s3 /\ grub_errno s3 = ERR_NONE.
Proof.
  intros Hon He Har Hf. destruct (header_small m Hf) as [Hn Hd]. destruct (encode_parts fmt p m r) as (E1 & E2 & _ & _ & L1 & _); [lia|lia|].
  rewrite <- Har in E1, E2, L1.
  pose proof (head_pos (fmt := fmt)). pose proof (zlen_nonneg p). pose proof (zlen_nonneg (m_name m)). rewrite (zlen_name (m_name m)) in *.
  destruct (archive_read k None s ms (zlen p) (head_size fmt) Hon no_hook_fine He) as (s1 & R1 & F1 & Q1); [lia|lia|lia|].
  rewrite (no_hook k (on_hook _ _ _ Hon)), E1 in R1. exists s1. split; [done|]. split; [done|]. split; [done|]. intros s2 F2 Q2.
  pose proof (archive_on_frame _ _ _ _ (archive_on_frame _ _ _ _ Hon F1) F2) as Hon2.
  destruct (archive_read k None s2 ms (zlen p + head_size fmt) (zlen (m_name m) + 1) Hon2 no_hook_fine Q2) as (s3 & R3 & F3 & Q3); [lia|lia|lia|].
  rewrite (no_hook k (on_hook _ _ _ Hon)), E2 in R3. by exists s3.
Qed.

(** [grub_cpio_find_file] on it: the trailer ends the archive, another member is found. *)
Lemma find_header d ms p m r : archive_on (d_disk d) (d_state d) ms -> grub_errno (d_state d) = ERR_NONE -> next_hofs d = zlen p ->
  archive fmt ms = p ++ encode fmt m ++ r -> header_fits m ->
  exists s, archive_on (d_disk d) s ms /\ grub_errno s = ERR_NONE /\
    grub_cpio_find_file memory fmt d = Some
      (if (zlen (m_data m) =? 0) && (m_mode m =? 0) && (zlen (m_name m) + 1 =? 11) && bool_decide (name_bytes (m_name m) = TRAILER)
       then (FEnd, mk_data (d_disk d) (zlen p) (zlen p) (dofs d) (zlen (m_data m)) s)
       else (if m_mode m =? GRUB_ARCHELP_ATTR_END then FEnd else FFile (c_string (name_bytes (m_name m))) (m_mtime m) (m_mode m),
             mk_data (d_disk d) (zlen p) (zlen p + zlen (encode fmt m)) (zlen p + name_end fmt m) (zlen (m_data m)) s)).
Proof.
  intros Hon He Hnext Har Hf. pose proof (archive_small _ _ _ Hon) as Hsmall. change (2 ^ 60) with 1152921504606846976 in Hsmall.
  destruct (read_header (d_disk d) (d_state d) ms p m r Hon He Har Hf) as (s1 & R1 & F1 & Q1 & R2). destruct (header_small m Hf) as [Hn Hd].
  change (2 ^ 31) with 2147483648 in *. change (2 ^ 33) with 8589934592 in *. pose proof Hf as [Ht Hmo Hns Hsz]. destruct (max_ok (fmt := fmt)) as (Hmm & Hmn & Hms).
  pose proof (zlen_nonneg (m_name m)). pose proof (zlen_nonneg (m_data m)). pose proof (zlen_nonneg p). pose proof (head_pos (fmt := fmt)).
  destruct (encode_parts fmt p m r ltac:(pow2; lia) ltac:(change (2 ^ 33) with 8589934592; lia)) as (_ & _ & _ & Ee & L1 & L2 & L3). rewrite <- Har in L1, L2.
  assert (zlen p + zlen (encode fmt m) <= zlen (archive fmt ms)) as Htot by (rewrite Har, !zlen_app; pose proof (zlen_nonneg r); lia).
  destruct (align_ok (fmt := fmt) (zlen (m_data m))) as [Hal _]; [pow2; lia|].
  destruct (head_fields (fmt := fmt) (m_mtime m) (m_mode m) (zlen (name_bytes (m_name m))) (zlen (m_data m))) as (Et & Em & En & Es);
    [done|lia|rewrite zlen_name; lia|lia|].
  unfold grub_cpio_find_file. rewrite Hnext, R1, bind_ret. cbv beta iota zeta. rewrite bool_decide_eq_true_2 by done. cbn [negb d_disk dofs].
  rewrite head_magic, Et, Em, En, Es. cbn [negb]. rewrite (proj2 (Z.leb_gt _ (m_mtime m))), (proj2 (Z.leb_gt _ (m_mode m))) by lia.
  rewrite (zlen_name (m_name m)) in *.
  rewrite (wrap_small 64 (zlen (m_name m) + 1)), (wrap_small 64 (zlen (m_data m))), (wrap_small 64 (zlen p + head_size fmt)) by (pow2; lia).
  rewrite (proj2 (Z.leb_gt _ (zlen (m_name m) + 1))) by (pow2; lia).
  destruct (malloc_spec memory (zlen (m_name m) + 1 + 1) s1 (f_ok _ _ F1)) as (F2 & E2 & _ & M2).
  destruct (malloc memory _ s1) as [ok s2]. cbn [fst snd] in *. rewrite (M2 (st_memory _ _ _ (on_sturdy _ _ _ Hon))) in *. cbn [negb]. specialize (E2 eq_refl). rewrite Q1 in E2.
  destruct (R2 s2 F2 E2) as (s3 & -> & F3 & Q3). rewrite bind_ret. cbv beta iota. rewrite bool_decide_eq_true_2 by done. cbn [negb set_dstate d_size d_disk dofs hofs next_hofs].
  exists s3. split; [by repeat (eapply archive_on_frame; [|eassumption])|]. split; [done|]. destruct (_ && bool_decide _); [done|].
  rewrite (wrap_small 64 (head_size fmt + (zlen (m_name m) + 1))) by (pow2; lia).
  assert (name_end fmt m = ALIGN_CPIO fmt (head_size fmt + (zlen (m_name m) + 1))) as <- by (unfold name_end; by rewrite zlen_name).
  rewrite (wrap_small 64 (zlen p + name_end fmt m)), (wrap_small 64 (zlen p + name_end fmt m + _)) by (pow2; lia). by rewrite Ee, Z.add_assoc.
Qed.

Lemma find_member d ms i m : data_at d ms i -> grub_errno (d_state d) = ERR_NONE -> ms !! i = Some m ->
  exists d', grub_cpio_find_file memory fmt d = Some (FFile (m_name m) (m_mtime m) (m_mode m), d') /\ data_at d' ms (S i) /\ grub_errno (d_state d') = ERR_NONE.
Proof.
  intros [Hon Hnext Hle _] He Hm. destruct (archive_split fmt ms i m Hm) as [r Har].
  pose proof (on_fits _ _ _ Hon) as Hfits. rewrite Forall_forall in Hfits. destruct (Hfits m (list_elem_of_lookup_2 _ _ _ Hm)) as [Hc Ht Hmo Hend Hns Hsz].
  destruct (find_header d ms _ m r Hon He Hnext Har) as (s & Hs & Q & ->); [split; try done; lia|].
  rewrite (proj2 (Z.eqb_neq (m_mode m) 0)), andb_false_r by lia. cbn [andb]. rewrite (proj2 (Z.eqb_neq _ _) Hend), c_string_name by done.
  eexists. split; [done|]. split; [|done]. split; cbn; [done|by rewrite (start_of_S fmt _ _ _ Hm)|apply lookup_lt_Some in Hm; lia|].
  intros j m' [= <-] Hm'. by simplify_eq.
Qed.

Lemma trailer_fits : header_fits trailer.
Proof.
  destruct (max_ok (fmt := fmt)) as (Hmm & Hmn & Hms). split; cbn [trailer m_mtime m_mode]; [lia|lia|change (zlen (m_name trailer)) with 10; lia|].
  change (zlen (m_data trailer)) with 0. lia.
Qed.

Lemma find_trailer d ms i : data_at d ms i -> grub_errno (d_state d) = ERR_NONE -> ms !! i = None ->
  exists d', grub_cpio_find_file memory fmt d = Some (FEnd, d') /\ grub_errno (d_state d') = ERR_NONE.
Proof.
  intros [Hon Hnext Hle Hlast] He Hm. apply lookup_ge_None in Hm. assert (i = length ms) as -> by lia.
  unfold start_of in Hnext. rewrite firstn_all in Hnext.
  destruct (find_header d ms (concat (encode fmt <$> ms)) trailer [] Hon He Hnext) as (s & Hs & Q & ->);
    [unfold archive; by rewrite app_nil_r|apply trailer_fits|]. by eexists.
Qed.

(** The data of a member. *)
Lemma member_data ms i m : ms !! i = Some m -> member_fits fmt m ->
  part (archive fmt ms) (start_of fmt ms i + name_end fmt m) (zlen (m_data m)) = m_data m /\
  0 <= start_of fmt ms i + name_end fmt m /\ start_of fmt ms i + name_end fmt m + zlen (m_data m) <= zlen (archive fmt ms).
Proof.
  intros Hm [Hc Ht Hmo Hend Hns Hsz]. destruct (archive_split fmt ms i m Hm) as [r Har]. destruct (header_small m) as [Hn Hd]; [split; try done; lia|].
  destruct (encode_parts fmt (concat (encode fmt <$> take i ms)) m r) as (_ & _ & E & _ & _ & L & L0); [lia|done|]. rewrite <- Har in E, L.
  unfold start_of. pose proof (zlen_nonneg (concat (encode fmt <$> take i ms))). split; [done|]. lia.
Qed.

Lemma archive_on_malloc k s ms n : archive_on k s ms -> exists s', malloc memory n s = (true, s') /\ archive_on k s' ms /\ grub_errno s' = grub_errno s.
Proof.
  intros Hon. pose proof (on_sturdy _ _ _ Hon) as Hst. destruct (malloc_spec memory n s (st_ok _ _ _ Hst)) as (F & E & _ & M).
  destruct (malloc memory n s) as [ok s']. cbn [fst snd] in *. rewrite (M (st_memory _ _ _ Hst)) in *. exists s'. split; [done|].
  split; [by eapply archive_on_frame|by apply E].
Qed.

(** The state of the disk changes, not the place in the archive. *)
Lemma data_at_state d ms i s : data_at d ms i -> archive_on (d_disk d) s ms -> data_at (set_dstate s d) ms i.
Proof. intros [] Hs. by split. Qed.

Lemma link_target d ms i m : data_at d ms (S i) -> grub_errno (d_state d) = ERR_NONE -> ms !! i = Some m ->
  exists d', grub_cpio_get_link_target memory d = Some (Some (c_string (m_data m)), d') /\ data_at d' ms (S i) /\ grub_errno (d_state d') = ERR_NONE.
Proof.
  intros Hd He Hm. pose proof Hd as [Hon _ _ Hlast]. destruct (Hlast i m eq_refl Hm) as [Hdofs Hsize].
  pose proof (on_fits _ _ _ Hon) as Hfits. rewrite Forall_forall in Hfits. pose proof (Hfits m (list_elem_of_lookup_2 _ _ _ Hm)) as Hf.
  destruct (member_data ms i m Hm Hf) as (Ed & L0 & L1). pose proof (mf_size _ _ Hf) as Hsz. destruct (max_ok (fmt := fmt)) as (_ & _ & Hms).
  pose proof (zlen_nonneg (m_data m)) as Hnn. change (2 ^ 33) with 8589934592 in Hms. unfold grub_cpio_get_link_target. rewrite Hsize.
  destruct (Z.eqb_spec (zlen (m_data m)) 0) as [E0|E0].
  - destruct (archive_on_malloc _ _ _ 1 Hon) as (s' & -> & Hs' & Q). assert (m_data m = []) as -> by (destruct (m_data m); [done|]; by rewrite zlen_cons in E0; pose proof (zlen_nonneg l); lia).
    eexists. split; [done|]. split; [by apply data_at_state|cbn; congruence].
  - rewrite (proj2 (Z.leb_gt (2 ^ 64) _)) by (pow2; lia). destruct (archive_on_malloc _ _ _ (zlen (m_data m) + 1) Hon) as (s1 & -> & Hs1 & Q1). cbn [negb].
    rewrite Hdofs. destruct (archive_read (d_disk d) None s1 ms (start_of fmt ms i + name_end fmt m) (zlen (m_data m)) Hs1 no_hook_fine) as (s2 & R & F & Q2); [congruence|lia|lia|lia|].
    rewrite (no_hook _ (on_hook _ _ _ Hon)) in R. rewrite R, bind_ret. cbv beta iota. rewrite bool_decide_eq_true_2, Ed by done. eexists. split; [done|].
    split; [apply data_at_state; [done|by eapply archive_on_frame]|done].
Qed.

(** A cpio archive is an archive. *)
#[export] Instance cpio_ok : ArchiveOk (grub_archelp_data D) (H := arcops memory fmt).
Proof using H0 Hfmt.
  refine {| arch_at := data_at |}; cbn [get_link_target find_file rewind arch_errno arch_error arch_malloc arcops].
  - exists (grub_cpio_get_link_target memory). split; [done|]. intros d ms i m Hd He Hm _. by apply link_target.
  - intros d ms i m [Hon _ _ _] Hm. pose proof (on_fits _ _ _ Hon) as Hf. rewrite Forall_forall in Hf. destruct (Hf m Hm) as [Hc _ _ _ _ Hs].
    destruct (max_ok (fmt := fmt)) as (_ & _ & Hms). split; [done|]. lia.
  - intros d ms i m. apply find_member.
  - intros d ms i. apply find_trailer.
  - intros d ms i []. split; [|done]. split; [done|done|cbn; lia|done].
  - done.
  - intros n d ms i Hd. destruct (archive_on_malloc _ _ _ n (da_on _ _ _ Hd)) as (s' & -> & Hs' & Q). eexists. split; [done|]. split; [by apply data_at_state|done].
Defined.

(** ** Files of an archive *)

Lemma mount_spec k s ms : archive_on k s ms -> grub_errno s = ERR_NONE ->
  exists d s', grub_cpio_mount memory fmt k s = Some (Some d, s') /\ data_at d ms 0 /\ d_disk d = k /\ d_state d = s' /\ grub_errno s' = ERR_NONE.
Proof.
  intros Hon He. assert (exists m r, archive fmt ms = [] ++ encode fmt m ++ r /\ header_fits m) as (m & r & Har & Hf).
  { destruct ms as [|m ms]; [exists trailer, []; split; [unfold archive; by rewrite app_nil_r|apply trailer_fits]|].
    exists m, (concat (encode fmt <$> ms) ++ encode fmt trailer). split; [unfold archive; cbn [fmap list_fmap concat app]; by rewrite <- app_assoc|].
    destruct (Forall_inv (on_fits _ _ _ Hon)). split; try done; lia. }
  destruct (read_header k s ms [] m r Hon He Har Hf) as (s1 & R1 & F1 & Q1 & _). change (zlen []) with 0 in R1.
  unfold grub_cpio_mount. rewrite R1, bind_ret. cbv beta iota. rewrite bool_decide_eq_true_2, head_magic by done. cbn [negb orb].
  destruct (archive_on_malloc k s1 ms 40) as (s2 & -> & Hs2 & Q2); [by eapply archive_on_frame|]. cbn [negb].
  eexists _, s2. split; [done|]. split; [by split; cbn; [|unfold start_of; rewrite take_0|lia|]|]. split; [done|]. split; [done|]. congruence.
Qed.

Record member_open (d : grub_archelp_data D) : Prop := mk_open {
  mo_sturdy : sturdy memory (d_disk d) (d_state d);
  mo_range : 0 <= dofs d /\ 0 <= d_size d;
  mo_within : within (disk_end (d_disk d)) (partition (d_disk d)) (dofs d) (d_size d) = true
}.

Definition member_bytes (d : grub_archelp_data D) : list Z :=
  bytes (disk_bytes (d_state d) (d_disk d)) (place (partition (d_disk d)) (dofs d)) (d_size d).

Lemma member_small d : member_open d -> dofs d + d_size d <= 2 ^ 60.
Proof.
  intros [Hst _ Hw]. pose proof (within_limit _ _ _ _ (st_parts _ _ _ Hst) Hw). assert (disk_end (d_disk d) <= 2 ^ 51) by (unfold disk_end; lia).
  change (2 ^ 51) with 2251799813685248 in *. change (2 ^ 60) with 1152921504606846976. lia.
Qed.

Lemma member_read_spec f len d : member_open d -> grub_errno (d_state d) = ERR_NONE -> hook_fine (f_hook f) -> f_size f = d_size d -> 0 <= f_offset f ->
  0 < len -> f_offset f + len <= f_size f ->
  exists d', grub_cpio_read memory f len d = Some (len, part (member_bytes d) (f_offset f) len, f, d') /\
    member_open d' /\ grub_errno (d_state d') = ERR_NONE /\ member_bytes d' = member_bytes d.
Proof.
  intros Hd He Hh Hs Ho Hl Hend. pose proof (member_small d Hd) as Hsm. change (2 ^ 60) with 1152921504606846976 in Hsm. pose proof Hd as [Hst [Hd0 Hs0] Hw].
  destruct (within_sub _ _ _ _ (f_offset f) len Hw Ho ltac:(lia) ltac:(lia)) as [Hw' Hp'].
  unfold grub_cpio_read. rewrite wrap_small by (pow2; lia).
  destruct (sturdy_read memory (d_disk d) (f_hook f) (d_state d) 0 (dofs d + f_offset f) len Hst He Hh ltac:(lia) ltac:(lia) Hl) as (s' & -> & F & Q);
    [by rewrite Z.add_0_l|]. rewrite bind_ret. cbv beta iota. rewrite bool_decide_eq_true_2 by done. rewrite sgn_small by (pow2; lia). eexists.
  rewrite Z.add_0_l, Hp'. split; [unfold member_bytes; by rewrite part_bytes by lia|]. split; [|split; [done|]].
  - split; cbn; [|done|done]. eapply sturdy_frame in Hst; [|exact F]. destruct Hst as [? ? [? ? ?] ? ? ?]. split; try done; by split.
  - unfold member_bytes, disk_bytes. cbn. by rewrite (f_medium _ _ F).
Qed.

Lemma member_errno d e : member_open d -> member_open (set_dstate (set_errno e (d_state d)) d).
Proof. intros [Hst ? ?]. split; cbn; [|done|done]. eapply sturdy_frame; [exact Hst|]. apply set_errno_frame, Hst. Qed.

#[export] Instance cpio_fs_ok : FsOk (grub_archelp_data D) (H := cpio_fs memory).
Proof using H0.
  refine {| contents := member_bytes; fs_inv := member_open; fs_quiet := fun d => grub_errno (d_state d) = ERR_NONE |}.
  - intros d Hd. unfold member_bytes. rewrite zlen_bytes by apply Hd. pose proof (member_small d Hd). pose proof (proj1 (mo_range d Hd)). pow2.
    change (2 ^ 60) with 1152921504606846976 in *. lia.
  - intros f len d Hd Hq Hh Hs Ho Hl Hend. apply member_read_spec; try done. rewrite Hs. unfold member_bytes. apply zlen_bytes. apply Hd.
  - intros e d Hd. split; [by apply member_errno|done].
  - intros d Hd. split; [by apply member_errno|done].
Defined.

(** The member that was found last is the file. *)
Lemma found_is_open d ms i m : data_at d ms (S i) -> ms !! i = Some m -> member_open d /\ member_bytes d = m_data m /\ d_size d = zlen (m_data m).
Proof.
  intros [Hon _ _ Hlast] Hm. destruct (Hlast i m eq_refl Hm) as [Hdofs Hsize]. pose proof (on_fits _ _ _ Hon) as Hfits. rewrite Forall_forall in Hfits.
  destruct (member_data ms i m Hm (Hfits m (list_elem_of_lookup_2 _ _ _ Hm))) as (Ed & L0 & L1). pose proof (zlen_nonneg (m_data m)).
  destruct (within_sub _ _ _ _ (dofs d) (d_size d) (on_within _ _ _ Hon)) as [Hw Hp]; [lia|lia|lia|]. rewrite Z.add_0_l in Hw, Hp.
  split; [split; [apply Hon|lia|done]|]. split; [|done]. unfold member_bytes. rewrite Hp, <- part_bytes with (n := zlen (archive fmt ms)) by lia.
  by rewrite (on_bytes _ _ _ Hon), Hdofs, Hsize, Ed.
Qed.

(** C8: A file of a cpio archive is what was packed: for an archive of any members in any of the
    formats, a name is looked up as it means - the first member of that name; a symbolic link
    stands for its target, an absolute name or one that starts in the directory of the link, up to
    seven links in a row - and every sequence of seeks and reads on the file, through a buffer of
    any size and the cache of the disk, gives exactly the bytes of the member; a name that means
    nothing is refused, and so are eight links in a row.  This holds for names that have no link
    among their directories, nor have the targets of the links that are followed: the code does not
    follow links to directories as they mean.  Devices and memory do not fail. *)
Theorem cpio_file_roundtrip progress k (s : state (D := D)) ms name size ops fuel : hook_fine progress -> archive_on k s ms -> grub_errno s = ERR_NONE ->
  cstr name -> zlen name <= 2 ^ 40 -> plain_names 7 ms (normal name) = true -> 0 <= size -> Forall file_op_ok ops -> (open_fuel ms <= fuel)%nat ->
  exists e r s1, grub_cpio_open memory fmt fuel k (SLASH :: name) s = Some (e, r, s1) /\
    match meaning 7 ms (normal name) with
    | LMissing => e = ERR_FILE_NOT_FOUND /\ r = None
    | LLoop => e = ERR_SYMLINK_LOOP /\ r = None
    | LFound i m => e = ERR_NONE /\ exists f d fb b f' b', r = Some (f, d) /\ grub_bufio_open f d size = Some (fb, b) /\
        run_file_ops (S := grub_bufio (grub_archelp_data D)) (H := bufio_fs (H := cpio_fs memory) progress) progress ops fb b =
          Some (string_ops ops (m_data m) 0, f', b')
    end.
Proof.
  intros Hpf Hon He Hn Hl Hplain Hsz Hops Hf. unfold grub_cpio_open. destruct (mount_spec k s ms Hon He) as (d & s1 & -> & Hd & Ek & Es & Q). rewrite bind_ret. cbv beta iota.
  destruct (archelp_open_spec (A := grub_archelp_data D) (H := arcops memory fmt) (H0 := cpio_ok) d ms name fuel Hd ltac:(cbn; congruence) Hn Hl Hf) as (e & d' & -> & Hr).
  rewrite bind_ret. cbv beta iota. eexists _, _, _. split; [done|]. unfold open_result in Hr. rewrite lookup_meaning in Hr; [|by apply cstr_normal|intros m Hm; exact (proj2 (@members_ok _ _ cpio_ok d ms 0%nat m Hd Hm))|done].
  destruct (meaning 7 ms (normal name)) as [i m| |]; [|by subst e..].
  destruct Hr as (-> & Hd' & Q' & Hm). split; [done|]. rewrite bool_decide_eq_true_2 by done. destruct (found_is_open d' ms i m Hd' Hm) as (Ho & Eb & Ez).
  assert (file_ok (S := grub_archelp_data D) (H := cpio_fs memory) (H0 := cpio_fs_ok) (mk_file 0 (d_size d') None 0) d') as Hok.
  { split; cbn; [done|done|by rewrite Eb|]. rewrite Ez. pose proof (zlen_nonneg (m_data m)). lia. }
  destruct (bufio_open_ok (S := grub_archelp_data D) (H := cpio_fs memory) (H0 := cpio_fs_ok) progress Hpf _ d' size Hok Hsz) as (fb & b & Ebo & Eo & Ebd & Hok').
  destruct (file_session_spec (S := grub_bufio (grub_archelp_data D)) (H0 := bufio_fs_ok progress Hpf) progress Hpf ops fb b Hok' Hops) as (f' & b' & E).
  eexists _, _, fb, b, f', b'. split; [done|]. split; [done|]. rewrite E. cbn. by rewrite Ebd, Eo, Eb.
Qed.

End Laws.
(** ** A small archive *)

(** A file, a link to it and a directory. *)
Definition demo : list member :=
  [mk_member [97; 47; 102] 7 0x81a4 [10; 20; 30]; mk_member [108] 8 0xa1ff [97; 47; 46; 47; 102]; mk_member [98; 47; 99; 47] 9 0x41ed []].

Definition image : ram := fun _ _ a => nth (Z.to_nat a) (archive newc demo) 0.
Definition demo_disk : grub_disk := small_disk 9 100 32 [].

Lemma demo_on : archive_on plenty newc demo_disk (fresh image) demo.
Proof.
  split; [apply ram_sturdy; lia|done| |vm_compute; reflexivity|vm_compute; reflexivity].
  repeat constructor; cbn; try done; unfold is_char; lia.
Qed.

Definition demo_ops : list file_op := [op_fread 1; op_seek 0; op_fread 9].

Lemma cpio_file_roundtrip_witness : exists e r s1, grub_cpio_open plenty newc 32 demo_disk [47; 46; 47; 108] (fresh image) = Some (e, r, s1) /\
  e = ERR_NONE /\ exists f d fb b f' b', r = Some (f, d) /\ grub_bufio_open f d 0 = Some (fb, b) /\
    run_file_ops (S := grub_bufio (grub_archelp_data ram)) (H := bufio_fs (H := cpio_fs plenty) None) None demo_ops fb b =
      Some ([(1, [10]); (1, []); (3, [10; 20; 30])], f', b').
Proof.
  apply (cpio_file_roundtrip plenty newc None demo_disk (fresh image) demo [46; 47; 108] 0 demo_ops 32 no_hook_fine demo_on eq_refl).
  - repeat constructor; unfold is_char; lia.
  - vm_compute. discriminate.
  - vm_compute. reflexivity.
  - lia.
  - repeat constructor; cbn; lia.
  - cbn. lia.
Defined.

Lemma canonicalize_correct_witness : canonicalize [97; 47; 46; 46; 47; 98] = Some [98] /\ canonicalize [98] = Some [98] /\
  exists st p, [98] = render st ++ p /\ Forall clean st /\ (p = [] \/ clean p).
Proof. apply (canonicalize_correct [97; 47; 46; 46; 47; 98]). rewrite !not_elem_of_cons. repeat split; try done. apply not_elem_of_nil. Defined.

Definition demo_data : grub_archelp_data ram := mk_data demo_disk 0 0 0 0 (fresh image).

Lemma demo_data_at : data_at plenty newc demo_data demo 0.
Proof. split; [apply demo_on|done|cbn; lia|done]. Qed.

Lemma archive_open_finds_member_witness : exists e a', grub_archelp_open (H := arcops plenty newc) 32 [47; 120] demo_data = Some (e, a') /\ e = ERR_FILE_NOT_FOUND.
Proof.
  apply (archive_open_finds_member (H0 := cpio_ok plenty newc) demo_data demo [120] 32 demo_data_at eq_refl).
  - repeat constructor; unfold is_char; lia.
  - vm_compute. discriminate.
  - cbn. lia.
Defined.

(** The children are collected. *)
Definition collect (n : list Z) (i : grub_dirhook_info) (l : list (list Z * bool)) : bool * list (list Z * bool) := (false, l ++ [(n, i_dir i)]).

Lemma archive_dir_lists_children_witness : exists a', grub_archelp_dir (H := arcops plenty newc) collect 32 [47; 98] demo_data [] = Some (ERR_NONE, a', [([99], true)]).
Proof.
  apply (archive_dir_lists_children (H0 := cpio_ok plenty newc) collect demo_data demo [98] 32 [] demo_data_at eq_refl).
  - repeat constructor; unfold is_char; lia.
  - cbn. lia.
Defined.

End GrubCpio.
