(* ===== verification/GrubRaid.v ===== *)
(** Recovering the data of a lost disk of a RAID (src/grub/grub-core/disk/raid5_recover.c,
    disk/raid6_recover.c): parity over the field of 256 elements.

    The disks of the array are the interface [Nodes] with the laws [NodesOk]: a disk either gives
    its contents or fails with an error. *)

From S2P Require Import Prelude GrubStr GrubDisk.

Module GrubRaid.
Import GrubStr GrubDisk.

(** ** The tables *)

Definition poly : Z := 0x1d.

(** [powx] and [powx_inv]. *)
Record tables := mk_tables { powx : list Z; powx_inv : list Z }.

Definition next_power (cur : Z) : Z :=
  if Z.land cur 0x80 =? 0 then u8 (Z.shiftl cur 1) else u8 (Z.lxor (Z.shiftl cur 1) poly).

Fixpoint init_loop (n i : nat) (cur : Z) (t : tables) : tables :=
  match n with
  | O => t
  | S n => init_loop n (S i) (next_power cur) (mk_tables (<[(i + 255)%nat := cur]> (<[i := cur]> (powx t))) (<[Z.to_nat cur := Z.of_nat i]> (powx_inv t)))
  end.

Definition grub_raid6_init_table : tables := init_loop 255 0 1 (mk_tables (replicate 510 0) (replicate 256 0)).

(** An element of a table; [None] out of its bounds. *)
Definition at_ (t : list Z) (i : Z) : option Z := if i <? 0 then None else t !! Z.to_nat i.

Section Tables.
Variable t : tables.

Definition mulx_byte (mul b : Z) : option Z := if b =? 0 then Some 0 else i ← at_ (powx_inv t) b; at_ (powx t) (u32 (mul + i)).

Definition grub_raid_block_mulx (mul : Z) (buf : list Z) : option (list Z) := mapM (mulx_byte mul) buf.
End Tables.

(** The rounds of the loop; four are enough below 2^16. *)
Fixpoint mod_255_loop (fuel : nat) (x : Z) : option Z :=
  if x <=? 0xff then Some (if x =? 0xff then 0 else x) else
  match fuel with
  | O => None
  | S fuel => mod_255_loop fuel (Z.shiftr x 8 + Z.land x 0xff)
  end.

Definition mod_255 (x : Z) : option Z := mod_255_loop 4 x.

(** ** The sum of two buffers *)

(** The 64-bit words of a little-endian machine. *)
Definition load_word (l : list Z) : Z := little_endian_to_Z 8 l.
Definition store_word (w : Z) : list Z := Z_to_little_endian 8 8 w.

(** One of the three pointers is not that of a word. *)
Definition unaligned (out in1 in2 : Z) : bool := negb (Z.land in1 7 =? 0) || negb (Z.land in2 7 =? 0) || negb (Z.land out 7 =? 0).

(** Words while there is a whole one, then bytes. *)
Fixpoint xor_words (fuel : nat) (l1 l2 : list Z) : list Z :=
  match fuel with
  | O => []
  | S fuel =>
      if 8 <=? zlen l1 then store_word (Z.lxor (load_word (take 8 l1)) (load_word (take 8 l2))) ++ xor_words fuel (drop 8 l1) (drop 8 l2)
      else zip_with Z.lxor l1 l2
  end.

(** What is written to [out]: bytes up to an aligned place, then words; [l1] and [l2] are the [size]
    bytes at [in1] and at [in2]. *)
Fixpoint grub_crypto_xor (out in1 in2 : Z) (l1 l2 : list Z) : list Z :=
  match l1, l2 with
  | x :: l1', y :: l2' =>
      if unaligned out in1 in2 then Z.lxor x y :: grub_crypto_xor (u64 (out + 1)) (u64 (in1 + 1)) (u64 (in2 + 1)) l1' l2'
      else xor_words (S (length l1)) l1 l2
  | _, _ => []
  end.

(** ** Arrays *)

(** Reading [size] sectors of a disk of the array, [grub_errno], and memory: the address of what is
    allocated. *)
Class Nodes (N : Type) := {
  read_node : Z -> Z -> Z -> N -> option ((grub_err_t + list Z) * N);
  n_errno : N -> grub_err_t;
  n_set_errno : grub_err_t -> N -> N;
  n_malloc : Z -> N -> option Z * N
}.

Definition MUL_FROM_POS : Z := 4.

Section Recover.
Context {N : Type} `{Nodes N}.

(** [buf] when it was written as a whole, and the error. *)
Definition recovered : Type := grub_err_t * option (list Z) * N.

(** All other disks are added to [buf], by way of the buffer at [at_1]. *)
Fixpoint raid5_loop (at_buf at_1 : Z) (n : nat) (i disknr sector size : Z) (buf : list Z) (s : N) : option recovered :=
  match n with
  | O => Some (ERR_NONE, Some buf, s)
  | S n =>
      if i =? disknr then raid5_loop at_buf at_1 n (i + 1) disknr sector size buf s else
      '(r, s) ← read_node i sector size s;
      match r with
      | inl e => Some (e, None, s)
      | inr buf2 => raid5_loop at_buf at_1 n (i + 1) disknr sector size (grub_crypto_xor at_buf at_buf at_1 buf buf2) s
      end
  end.

Definition grub_raid5_recover (at_buf node_count disknr sector size : Z) (s : N) : option recovered :=
  let len := u64 (Z.shiftl size 9) in
  let '(buf2, s) := n_malloc len s in
  match buf2 with
  | None => Some (n_errno s, None, s)
  | Some at_1 => raid5_loop at_buf at_1 (Z.to_nat node_count) 0 disknr sector size (replicate (Z.to_nat len) 0) s
  end.

(** ** Two parities *)

Record found := mk_found { bad1 : Z; bad2 : Z; pbuf : list Z; qbuf : list Z }.

Section Gen.
Variable t : tables.
Variables nstripes disknr sector size layout : Z.

(** The addresses of [buf], [pbuf] and [qbuf]. *)
Variables at_buf at_1 at_2 : Z.

Definition next_pos (pos : Z) : Z := if pos + 1 =? nstripes then 0 else pos + 1.

(** The factor of a disk. *)
Definition factor (i pos : Z) : Z := if Z.land layout MUL_FROM_POS =? 0 then i else pos.

(** The disks with data: what could be read is added to [pbuf], and with its factor to [qbuf];
    nothing when too many fail. *)
Fixpoint recover_loop (n : nat) (i pos : Z) (r : found) (s : N) : option (option found * N) :=
  match n with
  | O => Some (Some r, s)
  | S n =>
      let c := factor i pos in
      if pos =? disknr then recover_loop n (i + 1) (next_pos pos) (mk_found c (bad2 r) (pbuf r) (qbuf r)) s else
      '(x, s) ← read_node pos sector size s;
      match x with
      | inr buf =>
          m ← grub_raid_block_mulx t c buf;
          recover_loop n (i + 1) (next_pos pos) (mk_found (bad1 r) (bad2 r) (grub_crypto_xor at_1 at_1 at_buf (pbuf r) buf) (grub_crypto_xor at_2 at_2 at_buf (qbuf r) m)) s
      | inl _ =>
          if 0 <=? bad2 r then Some (None, s)
          else recover_loop n (i + 1) (next_pos pos) (mk_found (bad1 r) c (pbuf r) (qbuf r)) (n_set_errno ERR_NONE s)
      end
  end.

Definition quit (buf : option (list Z)) (s : N) : option recovered := Some (n_errno s, buf, s).

(** One disk is missing: by the first parity, or else by the second. *)
Definition recover_one (p q : Z) (r : found) (s : N) : option recovered :=
  '(x, s) ← read_node p sector size s;
  match x with
  | inr buf => quit (Some (grub_crypto_xor at_buf at_buf at_1 buf (pbuf r))) s
  | inl _ =>
      '(x, s) ← read_node q sector size (n_set_errno ERR_NONE s);
      match x with
      | inl _ => quit None s
      | inr buf => m ← grub_raid_block_mulx t (u32 (255 - bad1 r)) (grub_crypto_xor at_buf at_buf at_2 buf (qbuf r)); quit (Some m) s
      end
  end.

Definition recover_two (p q : Z) (r : found) (s : N) : option recovered :=
  '(x, s) ← read_node p sector size s;
  match x with
  | inl _ => quit None s
  | inr buf =>
      let pb := grub_crypto_xor at_1 at_1 at_buf (pbuf r) buf in
      '(x, s) ← read_node q sector size s;
      match x with
      | inl _ => quit None s
      | inr buf =>
          let qb := grub_crypto_xor at_2 at_2 at_buf (qbuf r) buf in
          w ← at_ (powx t) (bad2 r + Z.lxor (bad1 r) 255);
          v ← at_ (powx_inv t) (Z.lxor w 1);
          c ← mod_255 (u32 (Z.lxor 255 (bad1 r) + Z.lxor 255 v));
          qb ← grub_raid_block_mulx t c qb;
          c ← mod_255 (u32 (bad2 r + c));
          pb ← grub_raid_block_mulx t c pb;
          quit (Some (grub_crypto_xor at_1 at_1 at_2 pb qb)) s
      end
  end.

End Gen.

Definition grub_raid6_recover_gen (t : tables) (nstripes disknr p at_buf sector size layout : Z) (s : N) : option recovered :=
  let len := u64 (Z.shiftl size 9) in
  let '(pbuf, s) := n_malloc len s in
  match pbuf with
  | None => quit None s
  | Some at_1 =>
      let '(qbuf, s) := n_malloc len s in
      match qbuf with
      | None => quit None s
      | Some at_2 =>
          let q := next_pos nstripes p in
          let zeros := replicate (Z.to_nat len) 0 in
          '(r, s) ← recover_loop t nstripes disknr sector size layout at_buf at_1 at_2 (Z.to_nat (nstripes - 2)) 0 (next_pos nstripes q) (mk_found (-1) (-1) zeros zeros) s;
          match r with
          | None => quit None s
          | Some r =>
              if bad1 r <? 0 then quit None s
              else if bad2 r <? 0 then recover_one t sector size at_buf at_1 at_2 p q r s
              else recover_two t sector size at_buf at_1 at_2 p q r s
          end
      end
  end.
End Recover.
(** * The field *)

Definition is_byte (b : Z) : Prop := 0 <= b < 256.

(** Multiplication by the [k]th power of x. *)
Definition times_x (k : nat) (b : Z) : Z := Nat.iter k next_power b.

Lemma lxor_byte a b : is_byte a -> is_byte b -> is_byte (Z.lxor a b).
Proof.
  unfold is_byte. intros Ha Hb. assert (0 <= Z.lxor a b) as H0 by (apply Z.lxor_nonneg; lia). split; [done|].
  destruct (Z.eq_dec (Z.lxor a b) 0) as [->|Hne]; [lia|]. change 256 with (2 ^ 8). apply Z.log2_lt_pow2; [lia|].
  eapply Z.le_lt_trans; [apply Z.log2_lxor; lia|].
  assert (forall c, 0 <= c < 256 -> Z.log2 c < 8) as Hlog.
  { intros c Hc. destruct (Z.eq_dec c 0) as [->|]; [done|]. apply Z.log2_lt_pow2; lia. }
  apply Z.max_lub_lt; by apply Hlog.
Qed.

Lemma next_power_byte b : is_byte (next_power b).
Proof. unfold next_power. destruct (_ =? 0); apply wrap_range; lia. Qed.

Lemma next_power_xor a b : is_byte a -> is_byte b -> next_power (Z.lxor a b) = Z.lxor (next_power a) (next_power b).
Proof.
  intros Ha Hb. pose (P := fun a => ztest 256 (fun b => next_power (Z.lxor a b) =? Z.lxor (next_power a) (next_power b))).
  assert (ztest 256 P = true) as HP by (vm_compute; reflexivity).
  apply Z.eqb_eq. apply (ztest_spec 256 (fun b => next_power (Z.lxor a b) =? Z.lxor (next_power a) (next_power b))); [|done].
  by apply (ztest_spec 256 P HP).
Qed.

Lemma times_x_byte k b : is_byte b -> is_byte (times_x k b).
Proof. intros Hb. destruct k as [|k]; [done|]. apply next_power_byte. Qed.

Lemma times_x_xor k a b : is_byte a -> is_byte b -> times_x k (Z.lxor a b) = Z.lxor (times_x k a) (times_x k b).
Proof.
  intros Ha Hb. induction k as [|k IH]; [done|]. cbn [times_x Nat.iter nat_rect] in *. fold (times_x k (Z.lxor a b)) in *. fold (times_x k a) in *.
  change (next_power (times_x k (Z.lxor a b)) = Z.lxor (next_power (times_x k a)) (next_power (times_x k b))).
  rewrite <- next_power_xor by by apply times_x_byte. f_equal. exact IH.
Qed.

Lemma times_x_add j k b : times_x (j + k) b = times_x j (times_x k b).
Proof. unfold times_x. apply Nat.iter_add. Qed.

Lemma times_x_zero k : times_x k 0 = 0.
Proof. induction k as [|k IH]; [done|]. change (times_x (S k) 0) with (next_power (times_x k 0)). by rewrite IH. Qed.

(** ** The tables *)

Lemma powx_spec k : 0 <= k < 510 -> at_ (powx grub_raid6_init_table) k = Some (times_x (Z.to_nat k) 1).
Proof.
  intros Hk. assert (let t := powx grub_raid6_init_table in ztest 510 (fun k => bool_decide (at_ t k = Some (times_x (Z.to_nat k) 1))) = true) as HP
    by (vm_compute; reflexivity).
  by apply (ztest_spec 510 _ HP), bool_decide_eq_true in Hk.
Qed.

Lemma powx_inv_spec b : 0 < b < 256 -> exists k, at_ (powx_inv grub_raid6_init_table) b = Some k /\ 0 <= k < 255 /\ times_x (Z.to_nat k) 1 = b.
Proof.
  intros Hb. assert (let t := powx_inv grub_raid6_init_table in ztest 256 (fun b => (b =? 0) || match at_ t b with
    | Some k => (0 <=? k) && (k <? 255) && (times_x (Z.to_nat k) 1 =? b) | None => false end) = true) as HP by (vm_compute; reflexivity).
  pose proof (ztest_spec 256 _ HP b ltac:(lia)) as Hp. clear HP. cbv beta in Hp. rewrite (proj2 (Z.eqb_neq b 0)) in Hp by lia. cbn [orb] in Hp. destruct (at_ (powx_inv grub_raid6_init_table) b) as [k|]; [|done].
  apply andb_prop in Hp as [[H1%Z.leb_le H2%Z.ltb_lt]%andb_prop H3%Z.eqb_eq]. by exists k.
Qed.

Lemma times_x_255 b : is_byte b -> times_x 255 b = b.
Proof.
  intros Hb. apply Z.eqb_eq. apply (ztest_spec 256 (fun b => times_x 255 b =? b)); [vm_compute; reflexivity|done].
Qed.

Lemma mulx_byte_spec k b : 0 <= k <= 255 -> is_byte b -> mulx_byte grub_raid6_init_table k b = Some (times_x (Z.to_nat k) b).
Proof.
  intros Hk Hb. unfold mulx_byte, is_byte in *. destruct (Z.eqb_spec b 0) as [->|Hne]; [by rewrite times_x_zero|].
  destruct (powx_inv_spec b ltac:(lia)) as (i & -> & Hi & Ei). rewrite bind_ret. rewrite wrap_small by (pow2; lia). rewrite powx_spec by lia.
  rewrite Z2Nat.inj_add, times_x_add, Ei by lia. done.
Qed.

Lemma mod_255_spec x : 0 <= x <= 510 -> mod_255 x = Some (x mod 255).
Proof.
  intros Hx. assert (ztest 511 (fun x => bool_decide (mod_255 x = Some (x mod 255))) = true) as HP by (vm_compute; reflexivity).
  assert (0 <= x < 511) as Hx' by lia. by apply (ztest_spec 511 _ HP), bool_decide_eq_true in Hx'.
Qed.

(** Exponents count modulo 255. *)
Lemma times_x_mod k b : is_byte b -> times_x (k mod 255) b = times_x k b.
Proof.
  intros Hb. rewrite (Nat.div_mod_eq k 255) at 2. rewrite Nat.add_comm, times_x_add. f_equal. symmetry.
  induction (k / 255)%nat as [|n IH]; [by rewrite Nat.mul_0_r|]. rewrite Nat.mul_succ_r, times_x_add, times_x_255 by done. exact IH.
Qed.

Lemma times_x_eqm j k b : is_byte b -> (j mod 255 = k mod 255)%nat -> times_x j b = times_x k b.
Proof. intros Hb E. rewrite <- (times_x_mod j), <- (times_x_mod k), E by done. done. Qed.

(** The difference of two powers is a power. *)
Lemma powers_differ k : (0 < k < 510)%nat -> k <> 255%nat -> is_byte (Z.lxor (times_x k 1) 1) /\ Z.lxor (times_x k 1) 1 <> 0.
Proof.
  intros Hk Hne. split; [apply lxor_byte; [apply times_x_byte|]; unfold is_byte; lia|].
  assert (ztest 510 (fun k => (k =? 0) || (k =? 255) || negb (Z.lxor (times_x (Z.to_nat k) 1) 1 =? 0)) = true) as HP by (vm_compute; reflexivity).
  pose proof (ztest_spec 510 _ HP (Z.of_nat k) ltac:(lia)) as H. cbv beta in H. rewrite Nat2Z.id in H.
  rewrite (proj2 (Z.eqb_neq (Z.of_nat k) 0)), (proj2 (Z.eqb_neq (Z.of_nat k) 255)) in H by lia. cbn [orb] in H. by apply negb_true_iff, Z.eqb_neq in H.
Qed.

Lemma sum_of_powers k v b : is_byte b -> times_x v 1 = Z.lxor (times_x k 1) 1 -> Z.lxor (times_x k b) b = times_x v b.
Proof.
  intros Hb Hv. destruct (Z.eq_dec b 0) as [->|Hne]; [by rewrite !times_x_zero|]. unfold is_byte in Hb.
  destruct (powx_inv_spec b ltac:(lia)) as (i & _ & Hi & <-). set (n := Z.to_nat i).
  rewrite <- !times_x_add, (Nat.add_comm k), (Nat.add_comm v), !times_x_add, Hv. rewrite <- times_x_xor; [done| |]; [apply times_x_byte|]; unfold is_byte; lia.
Qed.

(** * Buffers *)

Ltac lxor_ac := apply Z.bits_inj'; intros ? _; rewrite ?Z.lxor_spec, ?Z.bits_0;
  repeat match goal with |- context [Z.testbit ?a ?b] => destruct (Z.testbit a b) end; done.

(** Bytes at two places. *)
Lemma bytes_moved f g a b n : (forall x, 0 <= x < n -> f (a + x) = g (b + x)) -> bytes f a n = bytes g b n.
Proof.
  intros E. unfold bytes. apply list_eq. intros i. rewrite !list_lookup_fmap. destruct (decide (Z.of_nat i < n)) as [Hi|Hi].
  - rewrite !lookup_seqZ_lt by lia. cbn. f_equal. apply E. lia.
  - by rewrite !lookup_seqZ_ge by lia.
Qed.

Lemma store_word_xor m v w : 0 <= m -> Z_to_little_endian m 8 (Z.lxor v w) = zip_with Z.lxor (Z_to_little_endian m 8 v) (Z_to_little_endian m 8 w).
Proof.
  intros Hm. revert v w. induction m as [|m ? IH|] using (Z.succ_pred_induction 0); intros v w; [done| |lia].
  rewrite !Z_to_little_endian_succ by lia. cbn [zip_with]. rewrite <- IH, <- Z.shiftr_lxor by lia. f_equal.
  apply Z.bits_inj'. intros i _. rewrite ?Z.lxor_spec, !Z.land_spec, ?Z.lxor_spec. by destruct (Z.testbit v i), (Z.testbit w i), (Z.testbit (Z.ones 8) i).
Qed.

Lemma xor_words_spec fuel : forall l1 l2, (length l1 < fuel)%nat -> length l1 = length l2 -> Forall is_byte l1 -> Forall is_byte l2 ->
  xor_words fuel l1 l2 = zip_with Z.lxor l1 l2.
Proof.
  induction fuel as [|fuel IH]; intros l1 l2 Hf Hl H1 H2; [lia|]. cbn [xor_words]. destruct (Z.leb_spec 8 (zlen l1)) as [H8|]; [|done]. unfold zlen in H8.
  rewrite IH; [|rewrite length_drop; lia|by rewrite !length_drop, Hl|by apply Forall_drop..]. unfold store_word, load_word.
  rewrite store_word_xor, !Z_to_little_endian_to_Z; [|rewrite ?length_take; lia|lia|by apply Forall_take|rewrite ?length_take; lia|lia|by apply Forall_take|lia].
  rewrite <- zip_with_app by by rewrite !length_take, Hl. by rewrite !take_drop.
Qed.

Lemma crypto_xor_spec l1 : forall out in1 in2 l2, length l1 = length l2 -> Forall is_byte l1 -> Forall is_byte l2 -> grub_crypto_xor out in1 in2 l1 l2 = zip_with Z.lxor l1 l2.
Proof.
  induction l1 as [|x l1 IH]; intros out in1 in2 [|y l2] Hl H1 H2; [done..|]. cbn [grub_crypto_xor]. destruct (unaligned out in1 in2).
  - cbn [zip_with]. inversion H1; inversion H2; subst. rewrite IH; [done|by injection Hl|done|done].
  - apply xor_words_spec; [lia|done..].
Qed.

Lemma bytes_forall f a n : (forall x, is_byte (f x)) -> Forall is_byte (bytes f a n).
Proof. intros Hf. apply Forall_fmap, Forall_forall. intros x _. apply Hf. Qed.

Lemma xor_bytes out in1 in2 f g a n : (forall x, is_byte (f x)) -> (forall x, is_byte (g x)) ->
  grub_crypto_xor out in1 in2 (bytes f a n) (bytes g a n) = bytes (fun x => Z.lxor (f x) (g x)) a n.
Proof.
  intros Hf Hg. rewrite crypto_xor_spec; [|by unfold bytes; rewrite !length_fmap|by apply bytes_forall..].
  unfold bytes. rewrite zip_with_fmap_l, zip_with_fmap_r. induction (seqZ a n) as [|x l IH]; [done|]. cbn. by rewrite IH.
Qed.

Lemma sectors_bytes size : 0 <= size < 2 ^ 55 -> u64 (Z.shiftl size 9) = size * 512.
Proof. intros Hs. rewrite Z.shiftl_mul_pow2 by lia. change (2 ^ 9) with 512. apply wrap_small. change (2 ^ 55) with 36028797018963968 in Hs. pow2. lia. Qed.

Lemma zero_bytes a n : replicate (Z.to_nat n) 0 = bytes (fun _ => 0) a n.
Proof.
  unfold bytes. apply replicate_as_elem_of. split; [by rewrite length_fmap, length_seqZ|]. intros y (x & -> & _)%list_elem_of_fmap. done.
Qed.

Lemma mulx_bytes k f a n : 0 <= k <= 255 -> (forall x, is_byte (f x)) ->
  grub_raid_block_mulx grub_raid6_init_table k (bytes f a n) = Some (bytes (fun x => times_x (Z.to_nat k) (f x)) a n).
Proof.
  intros Hk Hf. unfold grub_raid_block_mulx, bytes. induction (seqZ a n) as [|x l IH]; [done|]. cbn [fmap list_fmap mapM].
  rewrite mulx_byte_spec, bind_ret by done. change (list_fmap Z Z f l) with (f <$> l). by rewrite IH.
Qed.

(** * Arrays that lost disks *)

(** The disks have contents, and some of them fail; the first [len] sectors are there. *)
Class NodesOk (N : Type) `{Nodes N} := {
  n_member : Z -> Prop;
  n_at : N -> (Z -> Z -> Z) -> (Z -> bool) -> Z -> Prop;
  node_bytes s c g len i x : n_at s c g len -> is_byte (c i x);
  read_good s c g len i sector size : n_at s c g len -> n_errno s = ERR_NONE -> g i = true -> 0 <= sector -> 0 < size -> sector + size <= len ->
    exists s', read_node i sector size s = Some (inr (bytes (c i) (sector * 512) (size * 512)), s') /\ n_at s' c g len /\ n_errno s' = ERR_NONE;
  read_bad s c g len i sector size : n_member i -> n_at s c g len -> n_errno s = ERR_NONE -> g i = false -> 0 <= sector -> 0 < size -> sector + size <= len ->
    exists e s', read_node i sector size s = Some (inl e, s') /\ n_at s' c g len /\ n_errno s' = e /\ (e = ERR_READ_ERROR \/ e = ERR_UNKNOWN_DEVICE);
  set_errno_ok e s c g len : n_at s c g len -> n_at (n_set_errno e s) c g len /\ n_errno (n_set_errno e s) = e;
  n_malloc_ok z s c g len : n_at s c g len -> exists a s', n_malloc z s = (Some a, s') /\ n_at s' c g len /\ n_errno s' = n_errno s
}.

(** ** The places of the data *)

Section Columns.
Variables n layout : Z.

Fixpoint columns (k : nat) (i pos : Z) : list (Z * Z) :=
  match k with
  | O => []
  | S k => (pos, factor layout i pos) :: columns k (i + 1) (next_pos n pos)
  end.

Lemma next_pos_mod pos : 0 < n -> next_pos n (pos mod n) = (pos + 1) mod n.
Proof.
  intros Hn. unfold next_pos. pose proof (Z.mod_pos_bound pos n Hn). rewrite (Z.add_mod pos 1 n) by lia.
  destruct (Z.eqb_spec (pos mod n + 1) n) as [E|E].
  - destruct (Z.eq_dec n 1) as [->|]; [by rewrite Z.mod_1_r|]. rewrite (Z.mod_small 1 n), E, Z.mod_same by lia. done.
  - destruct (Z.eq_dec n 1) as [->|]; [rewrite Z.mod_1_r in *; lia|]. rewrite (Z.mod_small 1 n), (Z.mod_small (pos mod n + 1)) by lia. done.
Qed.

Lemma columns_spec k : forall i pos, 0 < n ->
  columns k i (pos mod n) = (fun j => ((pos + j) mod n, factor layout (i + j) ((pos + j) mod n))) <$> seqZ 0 (Z.of_nat k).
Proof.
  induction k as [|k IH]; intros i pos Hn; [done|]. cbn [columns]. rewrite next_pos_mod, IH by done. rewrite (seqZ_cons 0 (Z.of_nat (S k))) by lia. rewrite fmap_cons, !Z.add_0_r. f_equal.
  replace (Z.pred (Z.of_nat (S k))) with (Z.of_nat k) by lia. change (Z.succ 0) with (0 + 1). rewrite <- (Z.add_comm 1 0), <- fmap_add_seqZ, <- list_fmap_compose.
  apply list_fmap_ext. intros _ j _. cbn. by rewrite !Z.add_assoc.
Qed.

Lemma next_pos_small pos : 0 <= pos < n -> next_pos n pos = (pos + 1) mod n.
Proof. intros Hp. rewrite <- (Z.mod_small pos n) at 1 by done. apply next_pos_mod. lia. Qed.

(** The disks with data, from the one behind the parities. *)
Definition data_columns (p : Z) : list (Z * Z) := columns (Z.to_nat (n - 2)) 0 (next_pos n (next_pos n p)).

Lemma data_columns_spec p : 3 <= n -> 0 <= p < n ->
  data_columns p = (fun j => ((p + 2 + j) mod n, factor layout j ((p + 2 + j) mod n))) <$> seqZ 0 (n - 2).
Proof.
  intros Hn Hp. unfold data_columns. rewrite (next_pos_small p), next_pos_mod, columns_spec, Z2Nat.id by lia.
  apply list_fmap_ext. intros _ j _. by rewrite <- (Z.add_assoc p 1 1).
Qed.

(** All disks but the two of the parities, each once. *)
Lemma columns_all p d : 3 <= n -> 0 <= p < n -> 0 <= d < n -> d <> p -> d <> next_pos n p -> d ∈ fst <$> data_columns p.
Proof.
  intros Hn Hp Hd Hdp Hdq. rewrite next_pos_small in Hdq by done. rewrite data_columns_spec by done.
  rewrite <- list_fmap_compose. apply list_elem_of_fmap. exists ((d - (p + 2)) mod n). cbn.
  rewrite Zplus_mod_idemp_r. replace (p + 2 + (d - (p + 2))) with d by lia. rewrite (Z.mod_small d) by lia. split; [done|].
  apply elem_of_seqZ. pose proof (Z.mod_pos_bound (d - (p + 2)) n ltac:(lia)) as Hb. split; [lia|].
  assert (forall r k, (d - (p + 2)) mod n = r -> r + (p + 2) = k + n -> d = k mod n) as Hr.
  { intros r k <- E. apply (f_equal (fun x => x mod n)) in E. rewrite Zplus_mod_idemp_l in E. replace (d - (p + 2) + (p + 2)) with d in E by lia.
    replace (k + n) with (k + 1 * n) in E by lia. by rewrite Z.mod_add, (Z.mod_small d) in E by lia. }
  destruct (Z.eq_dec ((d - (p + 2)) mod n) (n - 2)) as [E|E1]; [|destruct (Z.eq_dec ((d - (p + 2)) mod n) (n - 1)) as [E|E2]; [|lia]].
  - exfalso. apply Hdp. rewrite (Hr (n - 2) p E) at 1 by lia. by rewrite Z.mod_small.
  - exfalso. apply Hdq. apply (Hr (n - 1)); [done|lia].
Qed.

Lemma columns_nodup p : 3 <= n -> 0 <= p < n -> NoDup (fst <$> data_columns p) /\ NoDup (snd <$> data_columns p).
Proof.
  intros Hn Hp. rewrite data_columns_spec, <- !list_fmap_compose by done.
  assert (forall i j, i ∈ seqZ 0 (n - 2) -> j ∈ seqZ 0 (n - 2) -> (p + 2 + i) mod n = (p + 2 + j) mod n -> i = j) as Hinj.
  { intros i j Hi%elem_of_seqZ Hj%elem_of_seqZ E. apply (f_equal (fun x => (x - (p + 2)) mod n)) in E. rewrite !Zminus_mod_idemp_l in E.
    replace (p + 2 + i - (p + 2)) with i in E by lia. replace (p + 2 + j - (p + 2)) with j in E by lia. by rewrite !Z.mod_small in E by lia. }
  split; apply NoDup_fmap_2_strong; try apply NoDup_seqZ; cbn; [done|]. intros i j Hi Hj. unfold factor. destruct (_ =? 0); [done|]. by apply Hinj.
Qed.

Lemma columns_range p pc : 3 <= n <= 255 -> 0 <= p < n -> pc ∈ data_columns p -> 0 <= fst pc < n /\ 0 <= snd pc < 255.
Proof.
  intros Hn Hp. rewrite data_columns_spec by lia.
  intros (j & -> & Hj%elem_of_seqZ)%list_elem_of_fmap. cbn. pose proof (Z.mod_pos_bound (p + 2 + j) n ltac:(lia)). split; [lia|]. unfold factor. destruct (_ =? 0); lia.
Qed.

Lemma columns_not_parity p pc : 3 <= n -> 0 <= p < n -> pc ∈ data_columns p -> fst pc <> p /\ fst pc <> next_pos n p.
Proof.
  intros Hn Hp. rewrite data_columns_spec by lia. intros (j & -> & Hj%elem_of_seqZ)%list_elem_of_fmap. cbn [fst].
  assert ((p + 2 + j) mod n = if p + 2 + j <? n then p + 2 + j else p + 2 + j - n) as ->.
  { destruct (Z.ltb_spec (p + 2 + j) n); [by apply Z.mod_small; lia|]. replace (p + 2 + j) with (p + 2 + j - n + 1 * n) at 1 by lia.
    rewrite Z.mod_add, Z.mod_small by lia. done. }
  unfold next_pos. destruct (Z.ltb_spec (p + 2 + j) n), (Z.eqb_spec (p + 1) n); lia.
Qed.
End Columns.

(** ** Sums *)

(** The sum of what the columns give at an address. *)
Definition xor_sum (w : Z * Z -> Z) (l : list (Z * Z)) : Z := foldr (fun pc acc => Z.lxor (w pc) acc) 0 l.

Lemma xor_sum_byte w l : (forall pc, is_byte (w pc)) -> is_byte (xor_sum w l).
Proof. intros Hw. induction l as [|pc l IH]; [by unfold is_byte|]. by apply lxor_byte. Qed.

Lemma xor_sum_filter w (P : Z * Z -> bool) l : xor_sum w l = Z.lxor (xor_sum w (filter (fun pc => P pc = true) l)) (xor_sum w (filter (fun pc => P pc = false) l)).
Proof.
  induction l as [|pc l IH]; [done|]. rewrite !filter_cons. change (xor_sum w (pc :: l)) with (Z.lxor (w pc) (xor_sum w l)). rewrite IH.
  destruct (P pc); [rewrite decide_True, decide_False by done|rewrite decide_False, decide_True by done]; unfold xor_sum; cbn [foldr]; lxor_ac.
Qed.

Lemma xor_sum_perm w l l' : l ≡ₚ l' -> xor_sum w l = xor_sum w l'.
Proof. induction 1 as [| |x y l|]; unfold xor_sum in *; cbn [foldr]; [done|congruence| |congruence]. lxor_ac. Qed.

(** Solving for the lost disk: the difference of the two equations is a multiple of its data. *)
Lemma solve_two b1 b2 v D F : 0 <= b1 < 255 -> 0 <= b2 < 255 -> b1 <> b2 -> is_byte D -> is_byte F -> 0 <= v < 255 ->
  times_x (Z.to_nat v) 1 = Z.lxor (times_x (Z.to_nat (b2 + (255 - b1))) 1) 1 ->
  let c1 := (255 - b1 + (255 - v)) mod 255 in
  Z.lxor (times_x (Z.to_nat ((b2 + c1) mod 255)) (Z.lxor F D)) (times_x (Z.to_nat c1) (Z.lxor (times_x (Z.to_nat b2) F) (times_x (Z.to_nat b1) D))) = D.
Proof.
  intros H1 H2 Hne HD HF Hv Ev c1. assert (0 <= c1 < 255) as Hc by (apply Z.mod_pos_bound; lia).
  rewrite (times_x_eqm (Z.to_nat ((b2 + c1) mod 255)) (Z.to_nat c1 + Z.to_nat b2)); [|by apply lxor_byte|].
  2: { rewrite <- Z2Nat.inj_add, <- !(Z2Nat.inj_mod _ 255), Z.mod_mod, (Z.add_comm c1) by (lia || apply Z.mod_pos_bound; lia). done. }
  rewrite times_x_add, <- times_x_xor, (times_x_xor (Z.to_nat b2) F D) by auto using lxor_byte, times_x_byte.
  replace (Z.lxor _ _) with (Z.lxor (times_x (Z.to_nat b2) D) (times_x (Z.to_nat b1) D)) by lxor_ac.
  rewrite (times_x_eqm (Z.to_nat b2) (Z.to_nat b1 + Z.to_nat (b2 + (255 - b1)))); [|done|].
  2: { rewrite <- Z2Nat.inj_add by lia. replace (b1 + (b2 + (255 - b1))) with (b2 + 1 * 255) by lia. rewrite <- !(Z2Nat.inj_mod _ 255), Z.mod_add by lia. done. }
  rewrite times_x_add, <- times_x_xor, (sum_of_powers _ (Z.to_nat v)) by auto using times_x_byte.
  rewrite <- !times_x_add, (times_x_eqm _ 0); [done|done|]. rewrite <- !Z2Nat.inj_add, <- (Z2Nat.inj_mod _ 255) by lia.
  unfold c1. rewrite <- Z.add_assoc, Zplus_mod_idemp_l. replace (255 - b1 + (255 - v) + (b1 + v)) with (0 + 2 * 255) by lia. by rewrite Z.mod_add.
Qed.

Section Laws.
Context {N : Type} `{NodesOk N}.
Variable at_buf : Z.
Variables (n layout disknr sector size len : Z) (c : Z -> Z -> Z) (g : Z -> bool).

Abbreviation T := grub_raid6_init_table.
Abbreviation here := (sector * 512).
Abbreviation span := (size * 512).

Hypothesis Hsector : 0 <= sector.
Hypothesis Hsize : 0 < size.
Hypothesis Hlen : sector + size <= len.
Hypothesis Hfits : size < 2 ^ 55.
Hypothesis members : forall i, 0 <= i < n -> n_member i.

(** The columns that are read, and those that are missing. *)
Definition readable (pc : Z * Z) : bool := negb (fst pc =? disknr) && g (fst pc).
Definition is_wanted (pc : Z * Z) : bool := fst pc =? disknr.
Definition is_failed (pc : Z * Z) : bool := negb (fst pc =? disknr) && negb (g (fst pc)).

(** The factor of the last column of a kind. *)
Definition last_factor (P : Z * Z -> bool) (l : list (Z * Z)) (d : Z) : Z := foldl (fun d pc => if P pc then snd pc else d) d l.

Definition data_sum (l : list (Z * Z)) (x : Z) : Z := xor_sum (fun pc => c (fst pc) x) (filter (fun pc => readable pc = true) l).
Definition weighted_sum (l : list (Z * Z)) (x : Z) : Z :=
  xor_sum (fun pc => times_x (Z.to_nat (snd pc)) (c (fst pc) x)) (filter (fun pc => readable pc = true) l).

(** Too many columns fail: two, or one after another. *)
Definition few_failed (b2 : Z) (l : list (Z * Z)) : Prop :=
  filter (fun pc => is_failed pc = true) l = [] \/ (b2 < 0 /\ exists pc, filter (fun pc => is_failed pc = true) l = [pc] /\ 0 <= snd pc).

Lemma last_factor_cons P pc l d : last_factor P (pc :: l) d = last_factor P l (if P pc then snd pc else d).
Proof. done. Qed.

Lemma data_sum_cons pc l x : data_sum (pc :: l) x = if readable pc then Z.lxor (c (fst pc) x) (data_sum l x) else data_sum l x.
Proof. unfold data_sum. rewrite filter_cons. destruct (readable pc); [by rewrite decide_True|by rewrite decide_False]. Qed.

Lemma weighted_sum_cons pc l x :
  weighted_sum (pc :: l) x = if readable pc then Z.lxor (times_x (Z.to_nat (snd pc)) (c (fst pc) x)) (weighted_sum l x) else weighted_sum l x.
Proof. unfold weighted_sum. rewrite filter_cons. destruct (readable pc); [by rewrite decide_True|by rewrite decide_False]. Qed.

Lemma few_failed_cons b2 pc l : few_failed b2 (pc :: l) -> if is_failed pc then b2 < 0 /\ (forall b, few_failed b l) else few_failed b2 l.
Proof.
  unfold few_failed. rewrite filter_cons. destruct (is_failed pc); [rewrite decide_True by done|by rewrite decide_False].
  intros [|[Hb (pc' & [= <- ->] & Hpc)]]; [done|]. auto.
Qed.

Lemma recover_loop_spec at_1 at_2 k : forall i pos b1 b2 P Q s, n_at s c g len -> n_errno s = ERR_NONE -> (forall x, is_byte (P x)) -> (forall x, is_byte (Q x)) ->
  (forall pc, pc ∈ columns n layout k i pos -> 0 <= fst pc < n /\ 0 <= snd pc < 255) -> few_failed b2 (columns n layout k i pos) ->
  exists s', n_at s' c g len /\ n_errno s' = ERR_NONE /\
    recover_loop T n disknr sector size layout at_buf at_1 at_2 k i pos (mk_found b1 b2 (bytes P here span) (bytes Q here span)) s =
    Some (Some (mk_found (last_factor is_wanted (columns n layout k i pos) b1) (last_factor is_failed (columns n layout k i pos) b2)
      (bytes (fun x => Z.lxor (P x) (data_sum (columns n layout k i pos) x)) here span)
      (bytes (fun x => Z.lxor (Q x) (weighted_sum (columns n layout k i pos) x)) here span)), s').
Proof.
  induction k as [|k IH]; intros i pos b1 b2 P Q s Hs He HP HQ Hr Hf; cbn [recover_loop columns] in *.
  { exists s. split; [done|]. split; [done|]. do 4 f_equal; apply bytes_ext; intros x _; by rewrite Z.lxor_0_r. }
  specialize (IH (i + 1) (next_pos n pos)). set (l := columns n layout k (i + 1) (next_pos n pos)) in *.
  assert (forall pc, pc ∈ l -> 0 <= fst pc < n /\ 0 <= snd pc < 255) as Hr' by (intros pc Hpc; apply Hr; by constructor).
  assert (0 <= pos < n /\ 0 <= factor layout i pos < 255) as [Hpn Hc] by (apply (Hr (pos, factor layout i pos)); constructor). cbv zeta. cbn [bad1 bad2 pbuf qbuf].
  apply few_failed_cons in Hf. rewrite !last_factor_cons. unfold is_wanted at 2, is_failed at 2. unfold is_failed at 1 in Hf. cbn [fst snd] in *.
  assert (forall P' Q' (b : bool) s', readable (pos, factor layout i pos) = b ->
    (forall x, P' x = if b then Z.lxor (P x) (c pos x) else P x) -> (forall x, Q' x = if b then Z.lxor (Q x) (times_x (Z.to_nat (factor layout i pos)) (c pos x)) else Q x) ->
    forall B1 B2, Some (Some (mk_found B1 B2 (bytes (fun x => Z.lxor (P' x) (data_sum l x)) here span) (bytes (fun x => Z.lxor (Q' x) (weighted_sum l x)) here span)), s' : N) =
    Some (Some (mk_found B1 B2 (bytes (fun x => Z.lxor (P x) (data_sum ((pos, factor layout i pos) :: l) x)) here span)
      (bytes (fun x => Z.lxor (Q x) (weighted_sum ((pos, factor layout i pos) :: l) x)) here span)), s')) as Hsum.
  { intros P' Q' b s' Eb EP EQ B1 B2. do 4 f_equal; apply bytes_ext; intros x _; rewrite ?data_sum_cons, ?weighted_sum_cons, ?EP, ?EQ, Eb; cbn [fst snd];
      destruct b; rewrite ?Z.lxor_assoc; done. }
  destruct (Z.eqb_spec pos disknr) as [->|Hpos]; cbn [negb andb] in *.
  { destruct (IH (factor layout i disknr) b2 P Q s Hs He HP HQ Hr' Hf) as (s' & Hs' & He' & ->). exists s'. split; [done|]. split; [done|].
    apply (Hsum P Q false); try done. unfold readable. cbn. by rewrite Z.eqb_refl. }
  destruct (g pos) eqn:Hg; cbn [negb] in *.
  - destruct (read_good s c g len pos sector size Hs He Hg Hsector Hsize Hlen) as (s1 & -> & Hs1 & He1). rewrite bind_ret. cbv beta iota.
    assert (forall x, is_byte (c pos x)) as Hc' by (intros x; by eapply node_bytes). assert (forall x, is_byte (times_x (Z.to_nat (factor layout i pos)) (c pos x))) as Hm by (intros x; by apply times_x_byte).
    assert (forall x, is_byte (Z.lxor (P x) (c pos x))) as HP' by (intros x; by apply lxor_byte). assert (forall x, is_byte (Z.lxor (Q x) (times_x (Z.to_nat (factor layout i pos)) (c pos x)))) as HQ' by (intros x; by apply lxor_byte).
    rewrite mulx_bytes, bind_ret by (done || lia). rewrite !xor_bytes by done.
    destruct (IH b1 b2 (fun x => Z.lxor (P x) (c pos x)) (fun x => Z.lxor (Q x) (times_x (Z.to_nat (factor layout i pos)) (c pos x))) s1 Hs1 He1 HP' HQ' Hr' Hf)
      as (s' & Hs' & He' & ->). exists s'. split; [done|]. split; [done|]. apply (Hsum _ _ true); try done.
    unfold readable. cbn. by rewrite Hg, (proj2 (Z.eqb_neq pos disknr)).
  - destruct (read_bad s c g len pos sector size (members pos Hpn) Hs He Hg Hsector Hsize Hlen) as (e & s1 & -> & Hs1 & _). rewrite bind_ret. cbv beta iota.
    destruct Hf as [Hb2 Hf]. rewrite (proj2 (Z.leb_gt 0 b2)) by done. destruct (set_errno_ok ERR_NONE s1 c g len Hs1) as [Hs2 He2].
    destruct (IH b1 (factor layout i pos) P Q _ Hs2 He2 HP HQ Hr' (Hf _)) as (s' & Hs' & He' & ->). exists s'. split; [done|]. split; [done|].
    apply (Hsum P Q false); try done. unfold readable. cbn. by rewrite Hg, andb_false_r.
Qed.

(** ** What is missing *)

Lemma filter_cons_b (P : Z * Z -> bool) pc l : filter (fun pc => P pc = true) (pc :: l) =
  if P pc then pc :: filter (fun pc => P pc = true) l else filter (fun pc => P pc = true) l.
Proof. rewrite filter_cons. by destruct (P pc). Qed.

Lemma xor_sum_split w l : xor_sum w l = Z.lxor (xor_sum w (filter (fun pc => readable pc = true) l))
  (Z.lxor (xor_sum w (filter (fun pc => is_failed pc = true) l)) (xor_sum w (filter (fun pc => is_wanted pc = true) l))).
Proof.
  induction l as [|pc l IH]; [done|]. change (xor_sum w (pc :: l)) with (Z.lxor (w pc) (xor_sum w l)). rewrite IH, !filter_cons_b.
  unfold readable, is_failed, is_wanted. destruct (fst pc =? disknr), (g (fst pc)); cbn [negb andb]; unfold xor_sum; cbn [foldr]; lxor_ac.
Qed.

Lemma last_factor_filter P l : forall d, last_factor P l d = match last (filter (fun pc => P pc = true) l) with Some pc => snd pc | None => d end.
Proof.
  induction l as [|pc l IH]; intros d; [done|]. rewrite last_factor_cons, IH, filter_cons. destruct (P pc) eqn:E; [rewrite decide_True by done|by rewrite decide_False by congruence].
  rewrite last_cons. by destruct (last _).
Qed.

(** A list whose elements have one position. *)
Lemma single_column (l : list (Z * Z)) : NoDup (fst <$> l) -> (forall a b, a ∈ l -> b ∈ l -> fst a = fst b) -> l = [] \/ exists pc, l = [pc].
Proof.
  intros Hnd Hone. destruct l as [|a [|b l]]; [auto|eauto|]. exfalso. rewrite !fmap_cons in Hnd. apply NoDup_cons in Hnd as [Hnd _]. apply Hnd.
  rewrite (Hone a b); constructor; constructor.
Qed.

Lemma filter_nodup_fst (P : Z * Z -> bool) l : NoDup (fst <$> l) -> NoDup (fst <$> filter (fun pc => P pc = true) l).
Proof.
  induction l as [|pc l IH]; [done|]. rewrite fmap_cons, filter_cons_b. intros [Hpc Hl]%NoDup_cons. destruct (P pc); [|by apply IH].
  rewrite fmap_cons. apply NoDup_cons. split; [|by apply IH]. intros (pc' & E & [_ Hin]%list_elem_of_filter)%list_elem_of_fmap.
  apply Hpc. rewrite E. by apply list_elem_of_fmap_2.
Qed.

Variable p : Z.
Abbreviation q := (next_pos n p).
Abbreviation cols := (data_columns n layout p).

Hypothesis Hn : 3 <= n <= 255.
Hypothesis Hp : 0 <= p < n.
Hypothesis Hd : 0 <= disknr < n.
Hypothesis Hdp : disknr <> p.
Hypothesis Hdq : disknr <> q.

(** At most one other disk is lost. *)
Hypothesis one_lost : forall i j, 0 <= i < n -> 0 <= j < n -> i <> disknr -> j <> disknr -> g i = false -> g j = false -> i = j.

Lemma q_range : 0 <= q < n /\ q <> p.
Proof. unfold next_pos. destruct (Z.eqb_spec (p + 1) n); lia. Qed.

Lemma wanted_column : exists b1, filter (fun pc => is_wanted pc = true) cols = [(disknr, b1)] /\ 0 <= b1 < 255 /\ (disknr, b1) ∈ cols.
Proof.
  pose proof (columns_all n layout p disknr ltac:(lia) Hp Hd Hdp Hdq) as Hin. apply list_elem_of_fmap in Hin as ([d b1] & E & Hin). cbn in E. subst d.
  exists b1. destruct (columns_range n layout p _ Hn Hp Hin) as [_ Hb]. split; [|done]. destruct (columns_nodup n layout p ltac:(lia) Hp) as [Hnd _].
  assert ((disknr, b1) ∈ filter (fun pc => is_wanted pc = true) cols) as Hf by (apply list_elem_of_filter; split; [apply Z.eqb_refl|done]).
  destruct (single_column (filter (fun pc => is_wanted pc = true) cols)) as [E|[pc E]].
  - by apply filter_nodup_fst.
  - intros a b [Ha _]%list_elem_of_filter [Hb' _]%list_elem_of_filter. unfold is_wanted in *. lia.
  - rewrite E in Hf. by apply elem_of_nil in Hf.
  - rewrite E in *. apply list_elem_of_singleton in Hf. by subst pc.
Qed.

Lemma failed_columns : filter (fun pc => is_failed pc = true) cols = [] \/
  exists f b2, filter (fun pc => is_failed pc = true) cols = [(f, b2)] /\ 0 <= b2 < 255 /\ f <> disknr /\ g p = true /\ g q = true /\ (f, b2) ∈ cols.
Proof.
  destruct (columns_nodup n layout p ltac:(lia) Hp) as [Hnd _].
  assert (forall pc, pc ∈ filter (fun pc => is_failed pc = true) cols -> fst pc <> disknr /\ g (fst pc) = false /\ 0 <= fst pc < n /\ 0 <= snd pc < 255 /\ pc ∈ cols) as Hpc.
  { intros pc [Hf Hin]%list_elem_of_filter. apply andb_prop in Hf as [Hf1%negb_true_iff Hf2%negb_true_iff]. apply Z.eqb_neq in Hf1.
    destruct (columns_range n layout p _ Hn Hp Hin). auto. }
  destruct (single_column (filter (fun pc => is_failed pc = true) cols)) as [E|[[f b2] E]].
  - by apply filter_nodup_fst.
  - intros a b Ha Hb. destruct (Hpc a Ha) as (? & ? & ? & _), (Hpc b Hb) as (? & ? & ? & _). by apply one_lost.
  - by left.
  - right. exists f, b2. split; [done|]. rewrite E in Hpc. destruct (Hpc (f, b2)) as (Hf1 & Hf2 & Hf3 & Hf4 & Hf5); [constructor|]. cbn [fst snd] in *.
    destruct (columns_not_parity n layout p (f, b2) ltac:(lia) Hp Hf5) as [Hfp Hfq]. cbn [fst] in Hfp, Hfq.
    pose proof q_range as [Hqr Hqp]. split; [done|]. split; [done|]. split; [|split; [|done]].
    + destruct (g p) eqn:Egp; [done|]. exfalso. apply Hfp. by apply one_lost.
    + destruct (g q) eqn:Egq; [done|]. exfalso. apply Hfq. by apply one_lost.
Qed.

(** The parities that the array keeps. *)
Definition parities : Prop := forall x, here <= x < here + span -> c p x = xor_sum (fun pc => c (fst pc) x) cols /\ c q x = xor_sum (fun pc => times_x (Z.to_nat (snd pc)) (c (fst pc) x)) cols.

Hypothesis Hpar : parities.
Hypothesis Hbytes : forall i x, is_byte (c i x).

(** What the parity says of the missing columns. *)
Lemma missing_sum x : here <= x < here + span -> Z.lxor (data_sum cols x) (c p x) =
  Z.lxor (xor_sum (fun pc => c (fst pc) x) (filter (fun pc => is_failed pc = true) cols)) (xor_sum (fun pc => c (fst pc) x) (filter (fun pc => is_wanted pc = true) cols)).
Proof. intros Hx. destruct (Hpar x Hx) as [-> _]. rewrite (xor_sum_split (fun pc => c (fst pc) x) cols). unfold data_sum. lxor_ac. Qed.

Lemma missing_weighted x : here <= x < here + span -> let w := fun pc => times_x (Z.to_nat (snd pc)) (c (fst pc) x) in
  Z.lxor (weighted_sum cols x) (c q x) = Z.lxor (xor_sum w (filter (fun pc => is_failed pc = true) cols)) (xor_sum w (filter (fun pc => is_wanted pc = true) cols)).
Proof. intros Hx. cbv zeta. destruct (Hpar x Hx) as [_ ->]. rewrite (xor_sum_split (fun pc => times_x (Z.to_nat (snd pc)) (c (fst pc) x)) cols). unfold weighted_sum. lxor_ac. Qed.

Lemma xor_sum_one w pc : xor_sum w [pc] = w pc.
Proof. apply Z.lxor_0_r. Qed.

Lemma sums_byte x : is_byte (data_sum cols x) /\ is_byte (weighted_sum cols x).
Proof. split; apply xor_sum_byte; intros pc; [apply Hbytes|apply times_x_byte, Hbytes]. Qed.

(** The result of a recovery: the contents of the lost disk. *)
Abbreviation recovers r := (exists s', r = Some (ERR_NONE, Some (bytes (c disknr) here span), s') /\ n_at s' c g len /\ n_errno s' = ERR_NONE).

Abbreviation the_found b1 b2 := (mk_found b1 b2 (bytes (data_sum cols) here span) (bytes (weighted_sum cols) here span)).

Lemma quit_ok (f : Z -> Z) s : n_at s c g len -> n_errno s = ERR_NONE -> (forall x, here <= x < here + span -> f x = c disknr x) -> recovers (quit (Some (bytes f here span)) s).
Proof. intros Hs He Hf. exists s. unfold quit. rewrite He. by erewrite bytes_ext. Qed.

Lemma recover_one_ok at_1 at_2 s b1 b2 : n_at s c g len -> n_errno s = ERR_NONE -> 0 <= b1 < 255 ->
  filter (fun pc => is_wanted pc = true) cols = [(disknr, b1)] -> filter (fun pc => is_failed pc = true) cols = [] ->
  recovers (recover_one T sector size at_buf at_1 at_2 p q (the_found b1 b2) s).
Proof.
  intros Hs He Hb Hw Hf. unfold recover_one. cbn [pbuf qbuf bad1]. pose proof q_range as [Hqr Hqp].
  pose proof (fun x => proj1 (sums_byte x)) as HB1. pose proof (fun x => proj2 (sums_byte x)) as HB2. destruct (g p) eqn:Egp.
  - destruct (read_good s c g len p sector size Hs He Egp Hsector Hsize Hlen) as (s1 & -> & Hs1 & He1). rewrite bind_ret. cbv beta iota.
    rewrite xor_bytes by auto. apply quit_ok; [done|done|]. intros x Hx.
    rewrite Z.lxor_comm, missing_sum by done; rewrite Hw, Hf, xor_sum_one. apply Z.lxor_0_l.
  - destruct (read_bad s c g len p sector size (members p Hp) Hs He Egp Hsector Hsize Hlen) as (e & s1 & -> & Hs1 & _). rewrite bind_ret. cbv beta iota.
    destruct (set_errno_ok ERR_NONE s1 c g len Hs1) as [Hs2 He2].
    assert (g q = true) as Egq by (destruct (g q) eqn:E; [done|exfalso; apply Hqp; apply one_lost; congruence]).
    destruct (read_good _ c g len q sector size Hs2 He2 Egq Hsector Hsize Hlen) as (s3 & -> & Hs3 & He3). rewrite bind_ret. cbv beta iota.
    rewrite xor_bytes by auto. rewrite wrap_small by (pow2; lia). rewrite mulx_bytes, bind_ret; [|lia|intros x; by apply lxor_byte].
    apply quit_ok; [done|done|]. intros x Hx. rewrite (Z.lxor_comm (c q x)), missing_weighted by done; rewrite Hw, Hf, xor_sum_one. cbn [xor_sum foldr fst snd]. rewrite Z.lxor_0_l.
    rewrite <- times_x_add, <- Z2Nat.inj_add by lia. replace (255 - b1 + b1) with 255 by lia. apply times_x_255, Hbytes.
Qed.

Lemma lxor_255 b : is_byte b -> Z.lxor b 255 = 255 - b.
Proof. intros Hb. apply Z.eqb_eq. apply (ztest_spec 256 (fun b => Z.lxor b 255 =? 255 - b)); [vm_compute; reflexivity|done]. Qed.

Lemma recover_two_ok at_1 at_2 s f b1 b2 : n_at s c g len -> n_errno s = ERR_NONE -> 0 <= b1 < 255 -> 0 <= b2 < 255 -> b1 <> b2 -> g p = true -> g q = true ->
  filter (fun pc => is_wanted pc = true) cols = [(disknr, b1)] -> filter (fun pc => is_failed pc = true) cols = [(f, b2)] ->
  recovers (recover_two T sector size at_buf at_1 at_2 p q (the_found b1 b2) s).
Proof.
  intros Hs He Hb1 Hb2 Hne Egp Egq Hw Hf. unfold recover_two. cbn [pbuf qbuf bad1 bad2].
  pose proof (fun x => proj1 (sums_byte x)) as HB1. pose proof (fun x => proj2 (sums_byte x)) as HB2.
  destruct (read_good s c g len p sector size Hs He Egp Hsector Hsize Hlen) as (s1 & -> & Hs1 & He1). rewrite bind_ret. cbv beta iota zeta.
  destruct (read_good s1 c g len q sector size Hs1 He1 Egq Hsector Hsize Hlen) as (s2 & -> & Hs2 & He2). rewrite bind_ret. cbv beta iota.
  rewrite (lxor_255 b1), powx_spec, bind_ret by (unfold is_byte; lia).
  destruct (powers_differ (Z.to_nat (b2 + (255 - b1)))) as [Hk Hk0]; [lia|lia|]. unfold is_byte in Hk.
  destruct (powx_inv_spec (Z.lxor (times_x (Z.to_nat (b2 + (255 - b1))) 1) 1)) as (v & -> & Hv & Ev); [lia|]. rewrite bind_ret.
  rewrite !(Z.lxor_comm 255), !lxor_255, (wrap_small 32 (255 - b1 + (255 - v))), mod_255_spec, bind_ret by (unfold is_byte; pow2; lia).
  pose proof (Z.mod_pos_bound (255 - b1 + (255 - v)) 255 ltac:(lia)) as Hc. set (c1 := (255 - b1 + (255 - v)) mod 255) in *.
  rewrite (wrap_small 32 (b2 + c1)), mod_255_spec by (pow2; lia). pose proof (Z.mod_pos_bound (b2 + c1) 255 ltac:(lia)) as Hc2.
  rewrite !xor_bytes, !mulx_bytes, !bind_ret by (lia || auto using lxor_byte). rewrite mulx_bytes, bind_ret by (lia || auto using lxor_byte).
  rewrite xor_bytes by auto using lxor_byte, times_x_byte. apply quit_ok; [done|done|]. intros x Hx.
  rewrite missing_sum, missing_weighted by done; rewrite Hw, Hf, !xor_sum_one. cbn [fst snd]. by apply solve_two.
Qed.

Lemma missing_differ f b1 b2 : (disknr, b1) ∈ cols -> (f, b2) ∈ cols -> f <> disknr -> b1 <> b2.
Proof.
  intros [i Hi]%list_elem_of_lookup_1 [j Hj]%list_elem_of_lookup_1 Hne <-. destruct (columns_nodup n layout p ltac:(lia) Hp) as [_ Hnd].
  assert (i = j) as <- by (eapply (NoDup_lookup _ _ _ _ Hnd); rewrite list_lookup_fmap, ?Hi, ?Hj; done). congruence.
Qed.

Lemma recover_gen_ok s : n_at s c g len -> n_errno s = ERR_NONE -> recovers (grub_raid6_recover_gen T n disknr p at_buf sector size layout s).
Proof.
  intros Hs He. unfold grub_raid6_recover_gen. cbv zeta. rewrite (sectors_bytes size) by lia.
  destruct (n_malloc_ok (size * 512) s c g len Hs) as (at_1 & s1 & -> & Hs1 & He1).
  destruct (n_malloc_ok (size * 512) s1 c g len Hs1) as (at_2 & s2 & -> & Hs2 & He2). rewrite (zero_bytes here (size * 512)).
  destruct wanted_column as (b1 & Hw & Hb1 & Hin1). pose proof failed_columns as Hfail.
  destruct (recover_loop_spec at_1 at_2 (Z.to_nat (n - 2)) 0 (next_pos n q) (-1) (-1) (fun _ => 0) (fun _ => 0) s2) as (s3 & Hs3 & He3 & ->); [done|congruence|by intros; unfold is_byte..| | |].
  { intros pc Hpc. by apply (columns_range n layout p). }
  { fold (data_columns n layout p). destruct Hfail as [E|(f & b2 & E & Hb2 & _)]; [by left|]. right. split; [lia|]. exists (f, b2). split; [done|cbn; lia]. }
  fold (data_columns n layout p). rewrite bind_ret, !last_factor_filter, Hw. cbn [last snd bad1 bad2].
  rewrite (bytes_ext (fun x => Z.lxor 0 (data_sum cols x)) (data_sum cols)) by (intros; apply Z.lxor_0_l).
  rewrite (bytes_ext (fun x => Z.lxor 0 (weighted_sum cols x)) (weighted_sum cols)) by (intros; apply Z.lxor_0_l).
  rewrite (proj2 (Z.ltb_ge b1 0)) by lia. destruct Hfail as [E|(f & b2 & E & Hb2 & Hfd & Egp & Egq & Hin2)]; rewrite E; cbn [last snd].
  - by apply recover_one_ok.
  - rewrite (proj2 (Z.ltb_ge b2 0)) by lia. apply (recover_two_ok at_1 at_2 s3 f); try done. by eapply missing_differ.
Qed.

End Laws.

(** ** One parity *)

(** The sum of all disks at an address. *)
Definition xor_all (c : Z -> Z -> Z) (x : Z) (l : list Z) : Z := foldr (fun i acc => Z.lxor (c i x) acc) 0 l.

Lemma xor_all_without c x d l : NoDup l -> d ∈ l -> xor_all c x l = 0 -> xor_all c x (filter (fun i => i <> d) l) = c d x.
Proof.
  assert (forall l0 : list Z, d ∉ l0 -> filter (fun i => i <> d) l0 = l0) as Hno.
  { induction l0 as [|i l0 IH]; intros Hl; [done|]. apply not_elem_of_cons in Hl as [Hi Hl]. rewrite filter_cons, decide_True, IH by auto. done. }
  assert (NoDup l -> d ∈ l -> Z.lxor (xor_all c x l) (xor_all c x (filter (fun i => i <> d) l)) = c d x) as Hx.
  { induction 1 as [|i l Hi Hnd IH]; [by intros ?%elem_of_nil|]. intros Hin. rewrite filter_cons. cbn [xor_all foldr]. destruct (decide (i = d)) as [->|Hne].
    - rewrite decide_False by auto. rewrite Hno by done. unfold xor_all. lxor_ac.
    - rewrite decide_True by done. apply elem_of_cons in Hin as [?|Hin]; [congruence|]. rewrite <- IH by done. unfold xor_all. cbn [foldr]. lxor_ac. }
  intros Hnd Hin E. rewrite <- Hx, E by done. by rewrite Z.lxor_0_l.
Qed.

Section Laws5.
Context {N : Type} `{NodesOk N}.
Variables (at_buf at_1 n disknr sector size len : Z) (c : Z -> Z -> Z) (g : Z -> bool).

Hypothesis Hsector : 0 <= sector.
Hypothesis Hsize : 0 < size < 2 ^ 55.
Hypothesis Hlen : sector + size <= len.
Hypothesis others : forall i, 0 <= i < n -> i <> disknr -> g i = true.

Lemma raid5_loop_spec k : forall i P s, n_at s c g len -> n_errno s = ERR_NONE -> (forall x, is_byte (P x)) -> 0 <= i -> i + Z.of_nat k <= n ->
  exists s', raid5_loop at_buf at_1 k i disknr sector size (bytes P (sector * 512) (size * 512)) s =
    Some (ERR_NONE, Some (bytes (fun x => Z.lxor (P x) (xor_all c x (filter (fun i => i <> disknr) (seqZ i (Z.of_nat k))))) (sector * 512) (size * 512)), s') /\
    n_at s' c g len /\ n_errno s' = ERR_NONE.
Proof.
  induction k as [|k IH]; intros i P s Hs He HP Hi Hk; cbn [raid5_loop].
  { exists s. split; [|done]. do 3 f_equal. f_equal. apply bytes_ext. intros x _. cbn. by rewrite Z.lxor_0_r. }
  rewrite (seqZ_cons i (Z.of_nat (S k))) by lia. replace (Z.pred (Z.of_nat (S k))) with (Z.of_nat k) by lia. change (Z.succ i) with (i + 1).
  destruct (Z.eqb_spec i disknr) as [->|Hne].
  - destruct (IH (disknr + 1) P s Hs He HP ltac:(lia) ltac:(lia)) as (s' & -> & Hs'). exists s'. split; [|done]. do 3 f_equal. f_equal. apply bytes_ext. intros x _.
    rewrite filter_cons, decide_False by auto. done.
  - destruct (read_good s c g len i sector size Hs He (others i ltac:(lia) Hne) Hsector ltac:(lia) Hlen) as (s1 & -> & Hs1 & He1). rewrite bind_ret. cbv beta iota.
    assert (forall x, is_byte (c i x)) as Hc by (intros x; by eapply node_bytes). rewrite xor_bytes by done.
    destruct (IH (i + 1) (fun x => Z.lxor (P x) (c i x)) s1 Hs1 He1 (fun x => lxor_byte _ _ (HP x) (Hc x)) ltac:(lia) ltac:(lia)) as (s' & -> & Hs'). exists s'. split; [|done].
    do 3 f_equal. f_equal. apply bytes_ext. intros x _. rewrite filter_cons, decide_True by done. cbn [xor_all foldr]. by rewrite Z.lxor_assoc.
Qed.
End Laws5.

Lemma raid5_recover_ok {N} `{NodesOk N} at_buf n disknr sector size len c g s : 0 <= sector -> 0 < size < 2 ^ 55 -> sector + size <= len ->
  (forall i, 0 <= i < n -> i <> disknr -> g i = true) -> 0 <= disknr < n -> (forall x, sector * 512 <= x < (sector + size) * 512 -> xor_all c x (seqZ 0 n) = 0) ->
  n_at s c g len -> n_errno s = ERR_NONE ->
  exists s', grub_raid5_recover at_buf n disknr sector size s = Some (ERR_NONE, Some (bytes (c disknr) (sector * 512) (size * 512)), s') /\ n_at s' c g len /\ n_errno s' = ERR_NONE.
Proof.
  intros Hsec Hsize Hlen Hg Hd Hpar Hs He. unfold grub_raid5_recover. cbv zeta. rewrite (sectors_bytes size) by lia.
  destruct (n_malloc_ok (size * 512) s c g len Hs) as (at_1 & s1 & -> & Hs1 & He1). rewrite (zero_bytes (sector * 512) (size * 512)).
  destruct (raid5_loop_spec at_buf at_1 n disknr sector size len c g Hsec Hsize Hlen Hg (Z.to_nat n) 0 (fun _ => 0) s1) as (s' & -> & Hs'); [done|congruence|done|lia|lia|].
  exists s'. split; [|done]. do 3 f_equal. f_equal. apply bytes_ext. intros x Hx. rewrite Z.lxor_0_l, Z2Nat.id by lia.
  apply xor_all_without; [apply NoDup_seqZ|apply elem_of_seqZ; lia|]. apply Hpar. lia.
Qed.

(** * An array in memory *)

Record array := mk_array { a_disk : Z -> option (Z -> Z); a_errno : grub_err_t }.

#[export] Instance array_nodes : Nodes array := {|
  read_node i sector size s := match a_disk s i with
    | Some h => Some (inr (bytes h (sector * 512) (size * 512)), s)
    | None => Some (inl ERR_READ_ERROR, mk_array (a_disk s) ERR_READ_ERROR)
    end;
  n_errno := a_errno;
  n_set_errno e s := mk_array (a_disk s) e;
  n_malloc _ s := (Some 4096, s)
|}.

#[export] Instance array_nodes_ok : NodesOk array.
Proof.
  refine {| n_member := fun _ => True; n_at := fun s c g _ => (forall i, a_disk s i = if (g i : bool) then Some (c i) else None) /\ (forall i x, is_byte (c i x)) |}.
  - intros s c g _ i x [_ Hb]. apply Hb.
  - intros s c g len i sector size [Hd Hb] He Hg _ _ _. exists s. split; [|done]. cbn. by rewrite Hd, Hg.
  - intros s c g len i sector size _ [Hd Hb] He Hg _ _ _. exists ERR_READ_ERROR, (mk_array (a_disk s) ERR_READ_ERROR). cbn. rewrite Hd, Hg. auto.
  - by intros e s c g _ [Hd Hb].
  - intros z s c g _ Hs. by exists 4096, s.
Defined.

(** C10: RAID 6 recovers the data of a lost disk.  When the members hold the parities of their data
    - the sum of the columns, and the sum of the columns multiplied by powers of x in the field of
    256 elements - and, besides the wanted disk, at most one other member is lost (data or
    parity), [grub_raid6_recover_gen] succeeds and leaves exactly the sectors of the wanted disk in
    the buffer, for every number of members from 3 to 255, both ways to number the columns and
    every alignment of the buffers. *)
Theorem raid6_recovers_lost_disk {N} `{NodesOk N} at_buf n layout disknr p sector size len c g (s : N) : 3 <= n <= 255 -> 0 <= p < n -> 0 <= disknr < n ->
  disknr <> p -> disknr <> next_pos n p -> 0 <= sector -> 0 < size < 2 ^ 55 -> sector + size <= len ->
  (forall i, 0 <= i < n -> n_member i) -> n_at s c g len -> n_errno s = ERR_NONE -> parities n layout sector size c p ->
  (forall i j, 0 <= i < n -> 0 <= j < n -> i <> disknr -> j <> disknr -> g i = false -> g j = false -> i = j) ->
  exists s', grub_raid6_recover_gen grub_raid6_init_table n disknr p at_buf sector size layout s =
    Some (ERR_NONE, Some (bytes (c disknr) (sector * 512) (size * 512)), s') /\ n_at s' c g len /\ n_errno s' = ERR_NONE.
Proof.
  intros Hn Hp Hd Hdp Hdq Hsec [Hs1 Hs2] Hend Hm Hs He Hpar Hlost. 
  exact (recover_gen_ok at_buf n layout disknr sector size len c g Hsec Hs1 Hend Hs2 Hm p Hn Hp Hd Hdp Hdq Hlost Hpar (fun i x => node_bytes s c g len i x Hs) s Hs He).
Qed.

(** Four members whose two with data are lost. *)
Definition example_member (i x : Z) : Z :=
  let a := x mod 251 in let b := x mod 239 in
  if i =? 0 then a else if i =? 1 then b else if i =? 2 then Z.lxor a b else if i =? 3 then Z.lxor a (next_power b) else 0.

Lemma example_member_byte i x : is_byte (example_member i x).
Proof.
  assert (is_byte (x mod 251)) as Ha by (unfold is_byte; pose proof (Z.mod_pos_bound x 251); lia). assert (is_byte (x mod 239)) as Hb by (unfold is_byte; pose proof (Z.mod_pos_bound x 239); lia).
  unfold example_member. repeat (destruct (_ =? _)); [done|done|by apply lxor_byte|by apply lxor_byte, next_power_byte|unfold is_byte; lia].
Qed.

Definition example_array : array := mk_array (fun i => if 2 <=? i then Some (example_member i) else None) ERR_NONE.

Lemma raid6_recovers_lost_disk_witness : exists s',
  grub_raid6_recover_gen grub_raid6_init_table 4 0 2 100 5 3 2 example_array = Some (ERR_NONE, Some (bytes (example_member 0) (5 * 512) (3 * 512)), s').
Proof.
  destruct (raid6_recovers_lost_disk 100 4 2 0 2 5 3 8 example_member (fun i => 2 <=? i) example_array) as (s' & E & _).
  1-4: lia.
  { by unfold next_pos. }
  { lia. }
  { change (2 ^ 55) with 36028797018963968. lia. }
  { lia. }
  - done.
  - split; [done|apply example_member_byte].
  - done.
  - intros x _. change (data_columns 4 2 2) with [(0, 0); (1, 1)]. change (next_pos 4 2) with 3. unfold xor_sum. cbn [foldr fst snd]. rewrite !Z.lxor_0_r. done.
  - intros i j Hi Hj Hi0 Hj0 Gi%Z.leb_gt Gj%Z.leb_gt. lia.
  - by exists s'.
Defined.

End GrubRaid.
