(* ===== verification/GrubDiskfilter.v ===== *)
(** Volumes made of several disks (src/grub/grub-core/disk/diskfilter.c): striping, mirrors and
    RAID levels 4, 5, 6 and 10, and the logical volumes that are concatenated from them.

    A segment reads its members by the interface [Nodes] of GrubRaid.v; the volumes themselves are
    an instance, over the disks of GrubDisk.v. *)

From S2P Require Import Prelude GrubStr GrubNum GrubDisk GrubFile GrubRaid.

Module GrubDiskfilter.
Import GrubStr GrubNum GrubDisk GrubFile GrubRaid.

Definition GRUB_DISKFILTER_STRIPED : Z := 0.
Definition GRUB_DISKFILTER_MIRROR : Z := 1.
Definition GRUB_DISKFILTER_RAID4 : Z := 4.
Definition GRUB_DISKFILTER_RAID5 : Z := 5.
Definition GRUB_DISKFILTER_RAID6 : Z := 6.
Definition GRUB_DISKFILTER_RAID10 : Z := 10.

Definition RIGHT_MASK : Z := 1.
Definition SYMMETRIC_MASK : Z := 2.

Record grub_diskfilter_pv := mk_pv { pv_name : list Z; pv_disk : option grub_disk; start_sector : Z }.

(** A member: a disk, or the volume at an index. *)
Record grub_diskfilter_node := mk_node { node_start : Z; node_name : list Z; node_pv : option grub_diskfilter_pv; node_lv : option nat }.

Record grub_diskfilter_segment := mk_segment {
  start_extent : Z;
  extent_count : Z;
  seg_type : Z;
  seg_layout : Z;
  raid_member_size : Z;
  node_count : Z;
  nodes : list grub_diskfilter_node;
  stripe_size : Z
}.

(** A volume; [extent_size] is that of its group, when it has one. *)
Record grub_diskfilter_lv := mk_lv { extent_size : option Z; segments : list grub_diskfilter_segment }.

(** ** Segments *)

(** The errors that leave hope for another copy. *)
Definition transient (e : grub_err_t) : bool := bool_decide (e = ERR_READ_ERROR \/ e = ERR_UNKNOWN_DEVICE).

(** [k++; if (k == count) k = 0]. *)
Definition bump (count k : Z) : Z := if k + 1 =? count then 0 else k + 1.

Section Segment.
Context {N : Type} `{Nodes N}.
Variable seg : grub_diskfilter_segment.

Definition reset_errno (s : N) : N := if transient (n_errno s) then n_set_errno ERR_NONE s else s.

(** One piece: the error, and what was read. *)
Definition piece : Type := grub_err_t * option (list Z).

Definition node_piece (r : grub_err_t + list Z) : piece := match r with inl e => (e, None) | inr b => (ERR_NONE, Some b) end.

(** The far copies of a piece, from member [k] on; [r] is what the last one gave. *)
Fixpoint far_loop (n : nat) (j k far_ofs sector size : Z) (r : piece) (s : N) : option (piece * N) :=
  match n with
  | O => Some (r, s)
  | S n =>
      let s := reset_errno s in
      '(x, s) ← read_node k (u64 (sector + j * far_ofs)) size s;
      match x with
      | inr b => Some ((ERR_NONE, Some b), s)
      | inl e => if transient e then far_loop n (j + 1) (bump (node_count seg) k) far_ofs sector size (e, None) s else Some ((e, None), s)
      end
  end.

(** Where the loop over the pieces stands. *)
Record walk := mk_walk { w_sector : Z; w_disk : Z; w_b : Z; w_p : Z }.

Record copies := mk_copies { c_near : Z; c_far : Z; c_ofs : Z; c_far_ofs : Z }.

(** The near copies of a piece: each is looked for among its far copies. *)
Fixpoint near_loop (n : nat) (i : Z) (k : copies) (w : walk) (size : Z) (r : piece) (s : N) : option (piece * Z * walk * N) :=
  match n with
  | O => Some (r, i, w, s)
  | S n =>
      '(r, s) ← far_loop (Z.to_nat (c_far k)) 0 (u32 (w_disk w)) (c_far_ofs k) (u64 (w_sector w + w_b w)) size (ERR_NONE, None) s;
      match fst r with
      | ERR_NONE => Some (r, i, w, s)
      | e =>
          if negb (transient e) then Some (r, i, w, s) else
          let w := if w_disk w + 1 =? node_count seg then mk_walk (u64 (w_sector w + c_ofs k)) 0 (w_b w) (w_p w)
            else mk_walk (w_sector w) (w_disk w + 1) (w_b w) (w_p w) in
          near_loop n (i + 1) k w size r s
      end
  end.

(** [while (disknr >= seg->node_count)]. *)
Fixpoint carry_loop (fuel : nat) (ofs : Z) (w : walk) : option walk :=
  if w_disk w <? node_count seg then Some w else
  match fuel with
  | O => None
  | S fuel => carry_loop fuel ofs (mk_walk (u64 (w_sector w + ofs)) (w_disk w - node_count seg) (w_b w) (w_p w))
  end.

Definition read_size (b size : Z) : Z := let n := u64 (stripe_size seg - b) in if size <? n then size else n.

(** What was read so far; unknown once a piece is. *)
Definition append (acc b : option (list Z)) : option (list Z) := a ← acc; b ← b; Some (a ++ b).

Fixpoint copies_loop (fuel : nat) (k : copies) (w : walk) (size : Z) (acc : option (list Z)) (s : N) : option recovered :=
  match fuel with
  | O => None
  | S fuel =>
      let n := read_size (w_b w) size in
      '(r, i, w, s) ← near_loop (Z.to_nat (c_near k)) 0 k w n (ERR_NONE, None) s;
      match fst r with
      | ERR_NONE =>
          let acc := append acc (snd r) in
          if size - n =? 0 then Some (ERR_NONE, acc, s) else
          w ← carry_loop (Z.to_nat (node_count seg + c_near k)) (c_ofs k) (mk_walk (w_sector w) (u64 (w_disk w + (c_near k - i))) 0 (w_p w));
          copies_loop fuel k w (size - n) acc s
      | e => Some (e, None, s)
      end
  end.

(** The number of copies, and how far apart they are. *)
Definition find_copies : option copies :=
  let ss := stripe_size seg in
  if seg_type seg =? 1 then Some (mk_copies (node_count seg) 1 ss 0)
  else if seg_type seg =? 10 then
    let near := Z.land (seg_layout seg) 0xFF in
    let far := Z.land (Z.shiftr (seg_layout seg) 8) 0xFF in
    if negb (Z.shiftr (seg_layout seg) 16 =? 0) then Some (mk_copies near far (u64 (far * ss)) ss)
    else qr ← grub_divmod64 (raid_member_size seg) (u64 (far * ss)); Some (mk_copies near far ss (u64 (fst qr * ss)))
  else Some (mk_copies 1 1 ss 0).

Definition read_copies (sector size : Z) (s : N) : option recovered :=
  '(stripe, b) ← grub_divmod64 sector (stripe_size seg);
  k ← find_copies;
  '(row, disknr) ← grub_divmod64 (u64 (stripe * c_near k)) (node_count seg);
  copies_loop (S (Z.to_nat size)) k (mk_walk (u64 (row * c_ofs k)) disknr b 0) size (Some []) s.

(** ** Parity *)

Definition right : bool := negb (Z.land (seg_layout seg) RIGHT_MASK =? 0).
Definition symmetric : bool := negb (Z.land (seg_layout seg) SYMMETRIC_MASK =? 0).

(** The disks with parity in each row. *)
Definition parity_disks : Z := seg_type seg ÷ 3.

(** The place of the stripe [d] of a row whose parity is at [p]. *)
Definition first_disk (p d : Z) : Z :=
  let n := parity_disks in
  let d := if symmetric then u64 (d + (p + n)) else
    let q := u32 (p + (n - 1)) in
    let q := if node_count seg <=? q then q - node_count seg else q in
    if p <=? d then u64 (d + n) else if q <=? d then u64 (d + (q + 1)) else d in
  if node_count seg <=? d then d - node_count seg else d.

Definition first_parity (row : Z) : option Z :=
  qr ← grub_divmod64 row (node_count seg);
  Some (if right then snd qr else u64 (node_count seg - 1 - snd qr)).

(** Behind a stripe: the next disk with data, and if it is in the next row. *)
Definition advance (d p : Z) : Z * bool :=
  let d := d + 1 in
  if symmetric then let d := if d =? node_count seg then 0 else d in (d, d =? p)
  else let d := if d =? p then d + parity_disks else d in (d, node_count seg <=? d).

Definition next_parity (p : Z) : Z :=
  if right then if p =? node_count seg - 1 then 0 else p + 1 else if p =? 0 then node_count seg - 1 else p - 1.

(** The first disk of the next row, whose parity is at [p]. *)
Definition next_row (d p : Z) : Z :=
  let n := parity_disks in
  let c := node_count seg in
  let d := if symmetric then p + n else
    let d := u64 (d - c) in
    if ((p <=? d) && (d <? p + n)) || ((p <=? d + c) && (d + c <? p + n)) then p + n else d in
  if c <=? d then d - c else d.

Definition next_piece (w : walk) : walk :=
  let '(d, next_level) := advance (w_disk w) (w_p w) in
  if next_level then
    let sector := u64 (w_sector w + stripe_size seg) in
    if 5 <=? seg_type seg then let p := next_parity (w_p w) in mk_walk sector (next_row d p) 0 p
    else mk_walk sector 0 0 (w_p w)
  else mk_walk (w_sector w) d 0 (w_p w).

(** The recovery modules that are loaded. *)
Variables raid5rec raid6rec : bool.

Definition unloaded (s : N) : option recovered := Some (ERR_BAD_DEVICE, None, n_set_errno ERR_BAD_DEVICE s).

Definition recover_piece (at_buf : Z) (w : walk) (size : Z) (s : N) : option recovered :=
  let sector := u64 (w_sector w + w_b w) in
  if seg_type seg =? GRUB_DISKFILTER_RAID6 then
    if raid6rec then grub_raid6_recover_gen grub_raid6_init_table (node_count seg) (w_disk w) (w_p w) at_buf sector size (seg_layout seg) s else unloaded s
  else if raid5rec then grub_raid5_recover at_buf (node_count seg) (w_disk w) sector size s else unloaded s.

(** One piece, or its recovery. *)
Definition read_piece (at_buf : Z) (w : walk) (n : Z) (s : N) : option recovered :=
  '(x, s) ← read_node (w_disk w) (u64 (w_sector w + w_b w)) n (reset_errno s);
  match x with
  | inr b => Some (ERR_NONE, Some b, s)
  | inl e => if transient e then recover_piece at_buf w n (n_set_errno ERR_NONE s) else Some (e, None, s)
  end.

Fixpoint parity_loop (fuel : nat) (at_buf : Z) (w : walk) (size : Z) (acc : option (list Z)) (s : N) : option recovered :=
  match fuel with
  | O => None
  | S fuel =>
      let n := read_size (w_b w) size in
      '(e, b, s) ← read_piece at_buf w n s;
      match e with
      | ERR_NONE =>
          let acc := append acc b in
          if size - n =? 0 then Some (ERR_NONE, acc, s) else parity_loop fuel (u64 (at_buf + Z.shiftl n 9)) (next_piece w) (size - n) acc s
      | e => Some (e, None, s)
      end
  end.

Definition read_parity (at_buf sector size : Z) (s : N) : option recovered :=
  '(stripe, b) ← grub_divmod64 sector (stripe_size seg);
  '(row, d) ← grub_divmod64 stripe (u64 (node_count seg - parity_disks));
  '(p, d) ← (if 5 <=? seg_type seg then p ← first_parity row; Some (p, first_disk p d) else Some (node_count seg - parity_disks, d));
  parity_loop (S (Z.to_nat size)) at_buf (mk_walk (u64 (row * stripe_size seg)) d b p) size (Some []) s.

Definition is_parity_level (t : Z) : bool := (t =? GRUB_DISKFILTER_RAID4) || (t =? GRUB_DISKFILTER_RAID5) || (t =? GRUB_DISKFILTER_RAID6).

Definition has_copies (t : Z) : bool := (t =? GRUB_DISKFILTER_STRIPED) || (t =? GRUB_DISKFILTER_MIRROR) || (t =? GRUB_DISKFILTER_RAID10).

Definition read_segment (at_buf sector size : Z) (s : N) : option recovered :=
  if (seg_type seg =? GRUB_DISKFILTER_STRIPED) && (node_count seg =? 1) then
    '(x, s) ← read_node 0 sector size s; Some (node_piece x, s)
  else if has_copies (seg_type seg) then read_copies sector size s
  else if is_parity_level (seg_type seg) then read_parity at_buf sector size s
  else Some (ERR_NOT_IMPLEMENTED_YET, None, n_set_errno ERR_NOT_IMPLEMENTED_YET s).
End Segment.

(** ** Volumes *)

(** The first segment with an extent. *)
Definition find_segment (lv : grub_diskfilter_lv) (extent : Z) : option grub_diskfilter_segment :=
  snd <$> list_find (fun seg => (start_extent seg <= extent /\ extent < u64 (start_extent seg + extent_count seg))%Z) (segments lv).

Section Volumes.
Context {D : Type} `{Devices D}.
Variable memory : nat -> Z -> bool * bool.

(** The volumes that are known, the address of what is allocated at some time, and the recovery
    modules that are loaded. *)
Variable volumes : list grub_diskfilter_lv.
Variable heap_at : nat -> Z.
Variables raid5rec raid6rec : bool.

Abbreviation St := (state (D := D)).

Definition node_error (s : St) : option (recovered (N := St)) := Some (ERR_UNKNOWN_DEVICE, None, set_errno ERR_UNKNOWN_DEVICE s).

(** A member of a segment; [read_lv] reads the volume at an index. *)
Definition grub_diskfilter_read_node (read_lv : nat -> Z -> Z -> St -> option (recovered (N := St))) (node : grub_diskfilter_node) (sector size : Z) (s : St)
  : option (recovered (N := St)) :=
  match node_pv node with
  | Some pv =>
      match pv_disk pv with
      | Some k =>
          '(e, b, s) ← grub_disk_read memory k (u64 (u64 (sector + node_start node) + start_sector pv)) 0 (u64 (Z.shiftl size GRUB_DISK_SECTOR_BITS)) s;
          Some (e, match e with ERR_NONE => Some b | _ => None end, s)
      | None => node_error s
      end
  | None =>
      match node_lv node with
      | Some i => read_lv i (u64 (sector + node_start node)) size s
      | None => node_error s
      end
  end.

(** The members of a segment; there is no result when the code claims success without data. *)
Definition segment_nodes (read_lv : nat -> Z -> Z -> St -> option (recovered (N := St))) (seg : grub_diskfilter_segment) : Nodes St := {|
  read_node i sector size s :=
    node ← (if i <? 0 then None else nodes seg !! Z.to_nat i);
    '(e, b, s) ← grub_diskfilter_read_node read_lv node sector size s;
    match e, b with
    | ERR_NONE, Some b => Some (inr b, s)
    | ERR_NONE, None => None
    | e, _ => Some (inl e, s)
    end;
  n_errno := grub_errno;
  n_set_errno := set_errno;
  n_malloc n s := let '(ok, s') := malloc memory n s in ((if (ok : bool) then Some (heap_at (clock s)) else None), s')
|}.

(** The volume from [sector] on, segment by segment; [nested] reads the volumes inside. *)
Fixpoint lv_loop (fuel : nat) (nested : nat -> Z -> Z -> St -> option (recovered (N := St))) (lv : grub_diskfilter_lv) (at_buf sector size : Z)
    (acc : option (list Z)) (s : St) : option (recovered (N := St)) :=
  if size =? 0 then Some (ERR_NONE, acc, s) else
  match fuel with
  | O => None
  | S fuel =>
      es ← extent_size lv;
      qr ← grub_divmod64 sector es;
      match find_segment lv (fst qr) with
      | None => Some (ERR_READ_ERROR, None, set_errno ERR_READ_ERROR s)
      | Some seg =>
          let to_read := u64 (u64 (u64 (start_extent seg + extent_count seg) * es) - sector) in
          let to_read := if size <? to_read then size else to_read in
          '(e, b, s) ← read_segment (H := segment_nodes nested seg) seg raid5rec raid6rec at_buf (u64 (sector - u64 (start_extent seg * es))) to_read s;
          match e with
          | ERR_NONE => lv_loop fuel nested lv (u64 (at_buf + Z.shiftl to_read 9)) (u64 (sector + to_read)) (size - to_read) (append acc b) s
          | e => Some (e, None, s)
          end
      end
  end.

(** The volume at an index; [depth] bounds the volumes inside volumes, and [where_] is the address
    of the buffer. *)
Fixpoint read_lv (depth : nat) (where_ : Z) (i : nat) (sector size : Z) (s : St) : option (recovered (N := St)) :=
  match depth with
  | O => None
  | S depth =>
      match volumes !! i with
      | None => Some (ERR_UNKNOWN_DEVICE, None, set_errno ERR_UNKNOWN_DEVICE s)
      | Some lv => lv_loop (S (Z.to_nat size)) (read_lv depth where_) lv where_ sector size (Some []) s
      end
  end.

(** ** Validation *)

Definition invalid (e : grub_err_t) (s : St) : option (grub_err_t * St) := Some (e, set_errno e s).

(** Each in turn, up to the first error. *)
Fixpoint validate_all {A} (f : A -> St -> option (grub_err_t * St)) (l : list A) (s : St) : option (grub_err_t * St) :=
  match l with
  | [] => Some (ERR_NONE, s)
  | x :: l => '(e, s) ← f x s; match e with ERR_NONE => validate_all f l s | e => Some (e, s) end
  end.

Definition validate_node (validate_lv : nat -> St -> option (grub_err_t * St)) (node : grub_diskfilter_node) (s : St) : option (grub_err_t * St) :=
  match node_pv node, node_lv node with
  | Some _, _ => Some (ERR_NONE, s)
  | None, Some i => validate_lv i s
  | None, None => invalid ERR_UNKNOWN_DEVICE s
  end.

(** What the level asks of the geometry. *)
Definition segment_error (seg : grub_diskfilter_segment) : grub_err_t :=
  let near := Z.land (seg_layout seg) 0xFF in
  let far := Z.land (Z.shiftr (seg_layout seg) 8) 0xFF in
  if (stripe_size seg =? 0) || (node_count seg =? 0) then ERR_BAD_FS
  else if seg_type seg =? GRUB_DISKFILTER_RAID10 then
    if (Z.shiftr (seg_layout seg) 16 =? 0) && (far =? 0) then ERR_BAD_FS else if node_count seg <? near then ERR_BAD_FS else ERR_NONE
  else if (seg_type seg =? GRUB_DISKFILTER_STRIPED) || (seg_type seg =? GRUB_DISKFILTER_MIRROR) then ERR_NONE
  else if (seg_type seg =? GRUB_DISKFILTER_RAID4) || (seg_type seg =? GRUB_DISKFILTER_RAID5) then if node_count seg <=? 1 then ERR_BAD_FS else ERR_NONE
  else if seg_type seg =? GRUB_DISKFILTER_RAID6 then if node_count seg <=? 2 then ERR_BAD_FS else ERR_NONE
  else ERR_NOT_IMPLEMENTED_YET.

(** [node_count] members are looked at. *)
Definition validate_segment (validate_lv : nat -> St -> option (grub_err_t * St)) (seg : grub_diskfilter_segment) (s : St) : option (grub_err_t * St) :=
  match segment_error seg with
  | ERR_NONE =>
      if zlen (nodes seg) <? node_count seg then None
      else validate_all (validate_node validate_lv) (take (Z.to_nat (node_count seg)) (nodes seg)) s
  | e => invalid e s
  end.

Fixpoint validate_lv (depth : nat) (i : nat) (s : St) : option (grub_err_t * St) :=
  match depth with
  | O => None
  | S depth =>
      match volumes !! i with
      | None => invalid ERR_UNKNOWN_DEVICE s
      | Some lv =>
          match extent_size lv with
          | None => invalid ERR_READ_ERROR s
          | Some es => if es =? 0 then invalid ERR_READ_ERROR s else validate_all (validate_segment (validate_lv depth)) (segments lv) s
          end
      end
  end.
End Volumes.

(** ** Which volumes can be read *)

(** The members that a segment needs, to be read at all or [easily]. *)
Definition nodes_needed (easily : bool) (seg : grub_diskfilter_segment) : Z :=
  let spare := if easily then 0 else 1 in
  if seg_type seg =? GRUB_DISKFILTER_RAID6 then node_count seg - spare - spare
  else if (seg_type seg =? GRUB_DISKFILTER_RAID4) || (seg_type seg =? GRUB_DISKFILTER_RAID5) then node_count seg - spare
  else if seg_type seg =? GRUB_DISKFILTER_MIRROR then 1
  else if seg_type seg =? GRUB_DISKFILTER_RAID10 then
    let n := Z.land (seg_layout seg) 0xFF in
    let n := if n =? 1 then Z.land (Z.shiftr (seg_layout seg) 8) 0xFF else n in
    node_count seg - n + 1
  else node_count seg.

(** Members are counted up to the number that is needed. *)
Fixpoint have_enough (readable : grub_diskfilter_node -> option bool) (l : list grub_diskfilter_node) (have need : Z) : option bool :=
  match l with
  | [] => Some (need <=? have)
  | node :: l =>
      r ← readable node;
      let have := if (r : bool) then have + 1 else have in
      if need <=? have then Some true else have_enough readable l have need
  end.

Definition is_node_readable (is_lv_readable : nat -> option bool) (node : grub_diskfilter_node) : option bool :=
  match node_pv node, node_lv node with
  | Some pv, _ => Some (bool_decide (is_Some (pv_disk pv)))
  | None, Some i => is_lv_readable i
  | None, None => Some false
  end.

Fixpoint all_readable (f : grub_diskfilter_segment -> option bool) (l : list grub_diskfilter_segment) : option bool :=
  match l with
  | [] => Some true
  | seg :: l => r ← f seg; if (r : bool) then all_readable f l else Some false
  end.

Fixpoint is_lv_readable (volumes : list grub_diskfilter_lv) (easily : bool) (depth : nat) (i : nat) : option bool :=
  match depth with
  | O => None
  | S depth =>
      match volumes !! i with
      | None => Some false
      | Some lv =>
          all_readable (fun seg =>
            if zlen (nodes seg) <? node_count seg then None
            else have_enough (is_node_readable (is_lv_readable volumes easily depth)) (take (Z.to_nat (node_count seg)) (nodes seg)) 0 (nodes_needed easily seg))
            (segments lv)
      end
  end.

(** * Where the data is *)

Lemma mod_once x c : 0 <= x < 2 * c -> x mod c = if c <=? x then x - c else x.
Proof.
  intros Hx. destruct (Z.leb_spec c x); [|apply Z.mod_small; lia]. replace x with (x - c + 1 * c) at 1 by lia. rewrite Z.mod_add, Z.mod_small by lia. done.
Qed.

Section Geometry.
Variable seg : grub_diskfilter_segment.
Abbreviation count := (node_count seg).
Abbreviation parity := (parity_disks seg).

(** The stripes of a row. *)
Definition data_disks : Z := count - parity.

(** The disk with the (first) parity of a row. *)
Definition parity_of (row : Z) : Z :=
  if 5 <=? seg_type seg then if right seg then row mod count else count - 1 - row mod count else count - parity.

(** The disk with the stripe [d] of a row: behind the parity in the symmetric layouts, in their
    order in the others. *)
Definition data_disk (row d : Z) : Z :=
  let p := parity_of row in
  if seg_type seg <? 5 then d
  else if symmetric seg then (d + (p + parity)) mod count
  else if count <? p + parity then d + 1 else if d <? p then d else d + parity.

(** The layouts whose rows are walked in order: all but the left asymmetric one with two parities. *)
Definition walkable : Prop := symmetric seg = true \/ right seg = true \/ seg_type seg <> 6 \/ count = 3.

Record parity_level : Prop := mk_parity_level {
  pl_type : seg_type seg = 4 \/ seg_type seg = 5 \/ seg_type seg = 6;
  pl_count : parity < count < 2 ^ 31;
  pl_stripe : 0 < stripe_size seg < 2 ^ 32
}.

Hypothesis Hseg : parity_level.

Lemma parity_cases : (seg_type seg = 6 /\ parity = 2) \/ (seg_type seg = 4 \/ seg_type seg = 5) /\ parity = 1.
Proof using Hseg. unfold parity_disks. destruct (pl_type Hseg) as [E|[E|E]]; rewrite E; [right|right|left]; auto. Qed.

Lemma count_pos : 2 <= count.
Proof using Hseg. pose proof (pl_count Hseg). destruct parity_cases as [[_ E]|[_ E]]; lia. Qed.

Lemma parity_range row : 0 <= parity_of row < count.
Proof using Hseg.
  pose proof (Z.mod_pos_bound row count ltac:(pose proof count_pos; lia)). pose proof count_pos. unfold parity_of.
  destruct parity_cases as [[_ E]|[_ E]], (5 <=? _), (right seg); lia.
Qed.

(** The parity moves by one disk from row to row. *)
Lemma next_parity_spec row : 5 <= seg_type seg -> next_parity seg (parity_of row) = parity_of (row + 1).
Proof using Hseg.
  intros H5. pose proof count_pos as Hc. pose proof (Z.mod_pos_bound row count ltac:(lia)) as Hr. unfold next_parity, parity_of. rewrite (proj2 (Z.leb_le 5 _) H5).
  rewrite <- (next_pos_mod count row) by lia. unfold next_pos. destruct (right seg).
  - destruct (Z.eqb_spec (row mod count) (count - 1)), (Z.eqb_spec (row mod count + 1) count); lia.
  - destruct (Z.eqb_spec (count - 1 - row mod count) 0), (Z.eqb_spec (row mod count + 1) count); lia.
Qed.

Lemma first_parity_spec row : 5 <= seg_type seg -> 0 <= row < 2 ^ 64 -> first_parity seg row = Some (parity_of row).
Proof using Hseg.
  intros H5 Hrow. pose proof count_pos as Hc. pose proof (pl_count Hseg) as Hc'. pose proof (Z.mod_pos_bound row count ltac:(lia)) as Hr.
  change (2 ^ 31) with 2147483648 in Hc'. unfold first_parity, parity_of. rewrite divmod64_spec by (try done; pow2; lia). rewrite bind_ret. cbn [snd]. rewrite (proj2 (Z.leb_le 5 _) H5).
  rewrite wrap_small by (pow2; lia). done.
Qed.

(** Comparisons, the inner ones first. *)
Ltac flat a := lazymatch a with context [if _ then _ else _] => fail | _ => idtac end.

Ltac geometry := repeat (match goal with
  | _ : context [if Z.leb ?a ?b then _ else _] |- _ => destruct (Z.leb_spec a b)
  | _ : context [if Z.eqb ?a ?b then _ else _] |- _ => destruct (Z.eqb_spec a b)
  | |- context [Z.leb ?a ?b] => flat a; flat b; destruct (Z.leb_spec a b)
  | |- context [Z.ltb ?a ?b] => flat a; flat b; destruct (Z.ltb_spec a b)
  | |- context [Z.eqb ?a ?b] => flat a; flat b; destruct (Z.eqb_spec a b)
  end; try lia); cbn [andb orb]; try done; try lia.

Lemma first_disk_spec row d : 5 <= seg_type seg -> 0 <= d < data_disks -> first_disk seg (parity_of row) d = data_disk row d.
Proof using Hseg.
  intros H5 Hd. pose proof count_pos as Hc. pose proof (pl_count Hseg) as Hc'. pose proof (parity_range row) as Hp. unfold data_disks in Hd. change (2 ^ 31) with 2147483648 in Hc'.
  unfold first_disk, data_disk. rewrite (proj2 (Z.ltb_ge (seg_type seg) 5)) by lia. cbv zeta. set (p := parity_of row) in *.
  destruct parity_cases as [[_ E]|[_ E]]; rewrite E in *; rewrite !wrap_small by (geometry; pow2; lia); destruct (symmetric seg).
  1, 3: rewrite (mod_once (d + (p + _))) by lia; done.
  all: geometry.
Qed.

Lemma advance_within row d : 0 <= d -> d + 1 < data_disks -> advance seg (data_disk row d) (parity_of row) = (data_disk row (d + 1), false).
Proof using Hseg.
  intros Hd0 Hd. pose proof count_pos as Hc. pose proof (parity_range row) as Hp. unfold data_disks in Hd. unfold advance, data_disk.
  assert ((seg_type seg <? 5) = true -> parity_of row = count - parity) as H4.
  { intros H5%Z.ltb_lt. unfold parity_of. by rewrite (proj2 (Z.leb_gt 5 _)). }
  destruct (seg_type seg <? 5).
  - rewrite (H4 eq_refl) in *. destruct parity_cases as [[_ E]|[_ E]]; rewrite E in *; destruct (symmetric seg); geometry; try (f_equal; geometry).
  - cbv zeta. set (p := parity_of row) in *. destruct parity_cases as [[_ E]|[_ E]]; rewrite E in *; destruct (symmetric seg).
    1, 3: rewrite !mod_once by lia; geometry; f_equal; geometry.
    all: geometry; f_equal; geometry.
Qed.

Lemma advance_row row : 5 <= seg_type seg -> walkable ->
  let r := advance seg (data_disk row (data_disks - 1)) (parity_of row) in snd r = true /\ next_row seg (fst r) (parity_of (row + 1)) = data_disk (row + 1) 0.
Proof using Hseg.
  intros H5 Hw. pose proof count_pos as Hc. pose proof (pl_count Hseg) as Hc'. change (2 ^ 31) with 2147483648 in Hc'.
  pose proof (parity_range row) as Hp. pose proof (parity_range (row + 1)) as Hp'. pose proof (next_parity_spec row H5) as Hn.
  unfold advance, data_disk, next_row, data_disks. rewrite (proj2 (Z.ltb_ge (seg_type seg) 5)) by lia. cbv zeta. set (p := parity_of row) in *. set (p' := parity_of (row + 1)) in *.
  unfold next_parity in Hn. destruct parity_cases as [[E6 E]|[E5 E]]; rewrite E in *; destruct (symmetric seg) eqn:Es.
  1, 3: rewrite !mod_once by lia; cbn [fst snd]; split; geometry.
  all: cbn [fst snd]; split; [geometry|]; unfold walkable in Hw; rewrite Es in Hw; destruct (right seg) eqn:Er.
  all: rewrite ?wrap_small by (geometry; pow2; lia); geometry; geometry.
Qed.

Lemma data_disk_range row d : 0 <= d < data_disks -> 0 <= data_disk row d < count.
Proof using Hseg.
  intros Hd. pose proof count_pos as Hc. pose proof (parity_range row) as Hp. unfold data_disks, data_disk in *. destruct (Z.ltb_spec (seg_type seg) 5).
  - destruct parity_cases as [[_ E]|[_ E]]; lia.
  - cbv zeta. destruct (symmetric seg); [apply Z.mod_pos_bound; lia|]. destruct parity_cases as [[_ E]|[_ E]]; rewrite E in *; geometry.
Qed.

Lemma data_disk_not_parity row d : 0 <= d < data_disks -> seg_type seg = 6 -> data_disk row d <> parity_of row /\ data_disk row d <> next_pos count (parity_of row).
Proof using Hseg.
  intros Hd H6. pose proof count_pos as Hc. pose proof (parity_range row) as Hp. unfold data_disks, data_disk, next_pos in *. rewrite (proj2 (Z.ltb_ge _ 5)) by lia.
  destruct parity_cases as [[_ E]|[[?|?] _]]; [|lia|lia]. rewrite E in *. cbv zeta. destruct (symmetric seg); [rewrite mod_once by lia|]; geometry.
Qed.

(** ** The walk *)

Abbreviation ss := (stripe_size seg).

Definition walk_at (row d b : Z) : walk := mk_walk (row * ss) (data_disk row d) b (parity_of row).

Lemma next_piece_spec row d b : 0 <= row -> 0 <= d < data_disks -> (row + 1) * ss < 2 ^ 64 -> d + 1 < data_disks \/ walkable ->
  next_piece seg (walk_at row d b) = if d + 1 <? data_disks then walk_at row (d + 1) 0 else walk_at (row + 1) 0 0.
Proof using Hseg.
  intros Hrow Hd Hss Hw. unfold next_piece, walk_at. cbn [w_sector w_disk w_p]. destruct (Z.ltb_spec (d + 1) data_disks) as [Hd'|Hd'].
  { rewrite advance_within by lia. done. }
  assert (d = data_disks - 1) as -> by lia. pose proof (pl_stripe Hseg). rewrite (wrap_small 64 (row * ss + ss)) by nia. replace (row * ss + ss) with ((row + 1) * ss) by lia.
  destruct (Z.leb_spec 5 (seg_type seg)) as [H5|H4].
  - destruct (advance_row row H5 ltac:(destruct Hw; [lia|done])) as [E1 E2]. destruct (advance _ _ _) as [d' l]. cbn [fst snd] in *. subst l.
    rewrite (next_parity_spec row) by done. by rewrite E2.
  - assert (parity_of row = count - parity /\ parity_of (row + 1) = count - parity) as [-> ->] by (unfold parity_of; by rewrite (proj2 (Z.leb_gt 5 _))).
    pose proof count_pos. unfold advance, data_disk, data_disks. rewrite (proj2 (Z.ltb_lt _ 5)) by done. destruct parity_cases as [[? _]|[_ E]]; [lia|]. rewrite E.
    destruct (symmetric seg).
    + rewrite (proj2 (Z.eqb_neq (count - 1 - 1 + 1) count)), (proj2 (Z.eqb_eq (count - 1 - 1 + 1) (count - 1))) by lia. done.
    + rewrite (proj2 (Z.eqb_eq (count - 1 - 1 + 1) (count - 1))), (proj2 (Z.leb_le count _)) by lia. done.
Qed.

End Geometry.

(** ** Arrays with parity *)

Section Parity.
Variable seg : grub_diskfilter_segment.
Abbreviation count := (node_count seg).
Abbreviation ss := (stripe_size seg).
Abbreviation data := (data_disks seg).

(** The members [c] hold the volume [f]: its stripes, and the parities of the first [rows] rows. *)
Record stores (f : Z -> Z) (c : Z -> Z -> Z) (rows : Z) : Prop := mk_stores {
  sto_data row d x : 0 <= row < rows -> 0 <= d < data -> 0 <= x < ss * 512 -> c (data_disk seg row d) (row * ss * 512 + x) = f ((row * data + d) * ss * 512 + x);
  sto_parity row : 0 <= row < rows ->
    if seg_type seg =? 6 then parities count (seg_layout seg) (row * ss) ss c (parity_of seg row)
    else forall x, row * ss * 512 <= x < (row + 1) * ss * 512 -> xor_all c x (seqZ 0 count) = 0
}.

(** No more disks are lost than the level bears: one, or two with two parities. *)
Definition bearable (g : Z -> bool) : Prop :=
  if seg_type seg =? 6
  then forall i j k, 0 <= i < count -> 0 <= j < count -> 0 <= k < count -> g i = false -> g j = false -> g k = false -> i = j \/ j = k \/ i = k
  else forall i j, 0 <= i < count -> 0 <= j < count -> g i = false -> g j = false -> i = j.

Context {N : Type} `{NodesOk N}.
Variables (f : Z -> Z) (c : Z -> Z -> Z) (g : Z -> bool) (rows : Z).

Hypothesis Hseg : parity_level seg.
Hypothesis Hsmall : seg_type seg = 6 -> count <= 255.
Hypothesis Hstores : stores f c rows.
Hypothesis Hlost : bearable g.
Hypothesis Hrows : rows * data * ss < 2 ^ 55.
Hypothesis members : forall i, 0 <= i < count -> n_member i.

Lemma data_pos : 0 < data.
Proof using Hseg. pose proof (pl_count _ Hseg). unfold data_disks. lia. Qed.

(** A piece of a stripe is a piece of the volume. *)
Lemma piece_bytes row d b n : 0 <= row < rows -> 0 <= d < data -> 0 <= b -> 0 <= n -> b + n <= ss ->
  bytes (c (data_disk seg row d)) ((row * ss + b) * 512) (n * 512) = bytes f (((row * data + d) * ss + b) * 512) (n * 512).
Proof using Hstores.
  intros Hr Hd Hb Hn Hbn. apply bytes_moved. intros x Hx. pose proof (sto_data _ _ _ Hstores row d (b * 512 + x) Hr Hd ltac:(lia)) as E.
  replace ((row * ss + b) * 512 + x) with (row * ss * 512 + (b * 512 + x)) by lia. rewrite E. f_equal. lia.
Qed.

Lemma recover_piece_ok at_buf row d b n s : 0 <= row < rows -> 0 <= d < data -> 0 <= b -> 0 < n -> b + n <= ss -> g (data_disk seg row d) = false ->
  n_at s c g (rows * ss) -> n_errno s = ERR_NONE ->
  exists s', recover_piece seg true true at_buf (walk_at seg row d b) n s = Some (ERR_NONE, Some (bytes (c (data_disk seg row d)) ((row * ss + b) * 512) (n * 512)), s') /\
    n_at s' c g (rows * ss) /\ n_errno s' = ERR_NONE.
Proof using Hseg Hsmall Hstores Hlost Hrows members.
  intros Hr Hd Hb Hn Hbn Hg Hs He. pose proof (pl_stripe _ Hseg) as Hss. pose proof data_pos. pose proof (data_disk_range seg Hseg row d Hd) as Hdr.
  change (2 ^ 55) with 36028797018963968 in Hrows. assert (row * ss + b + n <= rows * ss) as Hend by nia. assert (rows * ss <= rows * data * ss) by nia.
  assert (n < 2 ^ 55) as Hn55 by (change (2 ^ 32) with 4294967296 in Hss; change (2 ^ 55) with 36028797018963968; lia).
  unfold recover_piece, walk_at. cbn [w_sector w_b w_disk w_p]. rewrite (wrap_small 64 (row * ss + b)) by (pow2; nia). unfold GRUB_DISKFILTER_RAID6.
  pose proof (sto_parity _ _ _ Hstores row Hr) as Hpar. unfold bearable in Hlost. destruct (Z.eqb_spec (seg_type seg) 6) as [H6|H6].
  - destruct (data_disk_not_parity seg Hseg row d Hd H6) as [Hp Hq]. pose proof (pl_count _ Hseg). pose proof (parity_cases seg Hseg) as [[_ E]|[[?|?] _]]; [|lia|lia].
    apply (recover_gen_ok at_buf count (seg_layout seg) (data_disk seg row d) (row * ss + b) n (rows * ss) c g ltac:(nia) Hn Hend Hn55 members (parity_of seg row)); auto.
    + split; [lia|by apply Hsmall].
    + by apply parity_range.
    + intros i j Hi Hj Hid Hjd Hgi Hgj. destruct (Hlost (data_disk seg row d) i j) as [?|[?|?]]; congruence || done.
    + intros x Hx. apply Hpar. nia.
    + intros i x. by eapply node_bytes.
  - apply (raid5_recover_ok at_buf count (data_disk seg row d) (row * ss + b) n (rows * ss) c g s ltac:(nia) (conj Hn Hn55) Hend); auto.
    + intros i Hi Hne. destruct (g i) eqn:Egi; [done|]. exfalso. apply Hne. by apply Hlost.
    + intros x Hx. apply Hpar. nia.
Qed.

Lemma transient_bad e : e = ERR_READ_ERROR \/ e = ERR_UNKNOWN_DEVICE -> transient e = true.
Proof. intros He. by apply bool_decide_eq_true. Qed.

Lemma reset_none s : n_errno s = ERR_NONE -> reset_errno s = s.
Proof. intros He. unfold reset_errno. by rewrite He. Qed.

(** One piece, read or recovered. *)
Lemma parity_piece at_buf row d b n s : 0 <= row < rows -> 0 <= d < data -> 0 <= b -> 0 < n -> b + n <= ss ->
  n_at s c g (rows * ss) -> n_errno s = ERR_NONE ->
  exists s', read_piece seg true true at_buf (walk_at seg row d b) n s = Some (ERR_NONE, Some (bytes f (((row * data + d) * ss + b) * 512) (n * 512)), s') /\ n_at s' c g (rows * ss) /\ n_errno s' = ERR_NONE.
Proof using Hseg Hsmall Hstores Hlost Hrows members.
  intros Hr Hd Hb Hn Hbn Hs He. pose proof (pl_stripe _ Hseg) as Hss. assert (row * ss + b + n <= rows * ss) as Hend by nia.
  pose proof data_pos. assert (rows * ss <= rows * data * ss) by nia. change (2 ^ 55) with 36028797018963968 in Hrows.
  unfold read_piece. rewrite reset_none by done. cbn [walk_at w_disk w_sector w_b]. rewrite (wrap_small 64 (row * ss + b)) by (pow2; nia).
  rewrite <- piece_bytes by lia. destruct (g (data_disk seg row d)) eqn:Hg.
  - destruct (read_good s c g (rows * ss) (data_disk seg row d) (row * ss + b) n) as (s1 & -> & Hs1 & He1); try done; [nia|]. exists s1. split; [|done].
    by rewrite bind_ret.
  - destruct (read_bad s c g (rows * ss) (data_disk seg row d) (row * ss + b) n) as (e & s1 & -> & Hs1 & _ & Hbad); try done; [by apply members, data_disk_range|nia|]. rewrite bind_ret. cbv beta iota.
    rewrite (transient_bad e) by done. destruct (set_errno_ok ERR_NONE s1 c g (rows * ss) Hs1) as [Hs2 He2]. by apply recover_piece_ok.
Qed.

(** The volume from a place on, within a stripe or along the rows. *)
Lemma parity_loop_ok fuel : forall at_buf row d b size acc s, 0 <= row -> 0 <= d < data -> 0 <= b < ss -> 0 < size -> size < Z.of_nat fuel ->
  (row * data + d) * ss + b + size <= rows * data * ss -> walkable seg \/ d * ss + b + size <= data * ss ->
  n_at s c g (rows * ss) -> n_errno s = ERR_NONE ->
  exists s', parity_loop seg true true fuel at_buf (walk_at seg row d b) size (Some acc) s =
    Some (ERR_NONE, Some (acc ++ bytes f (((row * data + d) * ss + b) * 512) (size * 512)), s') /\ n_at s' c g (rows * ss) /\ n_errno s' = ERR_NONE.
Proof using Hseg Hsmall Hstores Hlost Hrows members.
  induction fuel as [|fuel IH]; intros at_buf row d b size acc s Hrow Hd Hb Hsize Hfuel Hend Hw Hs He; [lia|]. cbn [parity_loop].
  pose proof data_pos as Hdata. pose proof (pl_stripe _ Hseg) as Hss. assert (row < rows) as Hrr.
  { destruct (Z.lt_ge_cases row rows) as [|Hge]; [done|]. assert (rows * data <= row * data + d) by nia. nia. }
  change (2 ^ 55) with 36028797018963968 in Hrows. change (2 ^ 32) with 4294967296 in Hss.
  cbv zeta. change (w_b (walk_at seg row d b)) with b. set (n := read_size seg b size).
  assert (0 < n <= size /\ b + n <= ss /\ (n < size -> b + n = ss)) as (Hn & Hbn & Hnext).
  { unfold n, read_size. cbv zeta. rewrite wrap_small by (pow2; lia). destruct (Z.ltb_spec size (ss - b)); lia. }
  destruct (parity_piece at_buf row d b n s) as (s1 & -> & Hs1 & He1); [lia|lia|lia|lia|lia|done|done|]. rewrite bind_ret. cbv beta iota.
  change (append (Some acc) (Some ?x)) with (Some (acc ++ x)). destruct (Z.eqb_spec (size - n) 0) as [E|E].
  { assert (n = size) as -> by lia. by exists s1. }
  specialize (Hnext ltac:(lia)). rewrite next_piece_spec; [|done|done|done|pow2; nia|].
  2: { destruct Hw as [Hw|Hw]; [by right|left]. nia. }
  assert (((row * data + d) * ss + b + n) * 512 = ((row * data + d) * ss + b) * 512 + n * 512) as Hat by lia.
  destruct (Z.ltb_spec (d + 1) data) as [Hd'|Hd'].
  - destruct (IH (u64 (at_buf + Z.shiftl n 9)) row (d + 1) 0 (size - n) (acc ++ bytes f (((row * data + d) * ss + b) * 512) (n * 512)) s1) as (s2 & -> & Hs2); try done; try lia.
    { destruct Hw as [Hw|Hw]; [by left|right]. lia. }
    exists s2. split; [|done]. rewrite <- app_assoc. replace (((row * data + (d + 1)) * ss + 0) * 512) with (((row * data + d) * ss + b) * 512 + n * 512) by lia.
    rewrite <- bytes_app by lia. do 3 f_equal. f_equal. f_equal. f_equal. lia.
  - destruct (IH (u64 (at_buf + Z.shiftl n 9)) (row + 1) 0 0 (size - n) (acc ++ bytes f (((row * data + d) * ss + b) * 512) (n * 512)) s1) as (s2 & -> & Hs2); try done; try lia.
    { nia. }
    { destruct Hw as [Hw|Hw]; [by left|]. nia. }
    exists s2. split; [|done]. rewrite <- app_assoc. replace ((((row + 1) * data + 0) * ss + 0) * 512) with (((row * data + d) * ss + b) * 512 + n * 512) by nia.
    rewrite <- bytes_app by lia. do 3 f_equal. f_equal. f_equal. f_equal. lia.
Qed.

Lemma read_parity_ok at_buf sector size s : 0 <= sector -> 0 < size -> sector + size <= rows * data * ss ->
  walkable seg \/ sector / (data * ss) = (sector + size - 1) / (data * ss) -> n_at s c g (rows * ss) -> n_errno s = ERR_NONE ->
  exists s', read_parity seg true true at_buf sector size s = Some (ERR_NONE, Some (bytes f (sector * 512) (size * 512)), s') /\ n_at s' c g (rows * ss) /\ n_errno s' = ERR_NONE.
Proof using Hseg Hsmall Hstores Hlost Hrows members.
  intros Hsec Hsize Hend Hw Hs He. pose proof data_pos as Hdata. pose proof (pl_stripe _ Hseg) as Hss. pose proof (pl_count _ Hseg) as Hc. pose proof (parity_cases seg Hseg) as Hp.
  change (2 ^ 55) with 36028797018963968 in Hrows. change (2 ^ 32) with 4294967296 in Hss. change (2 ^ 31) with 2147483648 in Hc. unfold data_disks in Hdata.
  unfold read_parity. rewrite divmod64_spec by (pow2; lia). rewrite bind_ret. cbv beta iota.
  pose proof (Z.div_mod sector ss ltac:(lia)) as E1. pose proof (Z.mod_pos_bound sector ss ltac:(lia)) as Hb. set (stripe := sector / ss) in *. set (b := sector mod ss) in *.
  assert (0 <= stripe < 2 ^ 64) as Hst by (pow2; nia). rewrite (wrap_small 64 (count - parity_disks seg)) by (pow2; lia). rewrite divmod64_spec by (pow2; lia). rewrite bind_ret. cbv beta iota.
  change (count - parity_disks seg) with data in *. pose proof (Z.div_mod stripe data ltac:(lia)) as E2. pose proof (Z.mod_pos_bound stripe data ltac:(lia)) as Hd.
  set (row := stripe / data) in *. set (d := stripe mod data) in *. assert (0 <= row <= stripe) as Hrow by nia.
  assert ((if 5 <=? seg_type seg then p ← first_parity seg row; Some (p, first_disk seg p d) else Some (data, d)) = Some (parity_of seg row, data_disk seg row d)) as ->.
  { unfold parity_of at 1, data_disk. destruct (Z.leb_spec 5 (seg_type seg)).
    - rewrite first_parity_spec, bind_ret, first_disk_spec by (done || lia). unfold data_disk, parity_of. by rewrite (proj2 (Z.leb_le 5 _)).
    - by rewrite (proj2 (Z.ltb_lt (seg_type seg) 5)). }
  rewrite bind_ret. cbv beta iota. rewrite (wrap_small 64 (row * ss)) by (pow2; nia).
  assert ((row * data + d) * ss + b = sector) as Epos by nia.
  destruct (parity_loop_ok (S (Z.to_nat size)) at_buf row d b size [] s) as (s' & E & Hs'); try done; try lia.
  { destruct Hw as [Hw|Hw]; [by left|right]. assert (sector = (data * ss) * row + (d * ss + b)) as E3 by nia.
    rewrite <- (Z.div_unique sector (data * ss) row (d * ss + b)) in Hw by nia. pose proof (Z.div_mod (sector + size - 1) (data * ss) ltac:(nia)) as E4.
    pose proof (Z.mod_pos_bound (sector + size - 1) (data * ss) ltac:(nia)). rewrite <- Hw in E4. nia. }
  exists s'. rewrite Epos in E. done.
Qed.

End Parity.

(** ** What goes wrong *)

(** The left asymmetric RAID 6: behind the row whose second parity is on the first disk, the walk
    goes on with the second disk of the next row, whose data begins on the first. *)
Theorem raid6_left_asymmetric_skips_disk seg row b : parity_level seg -> seg_type seg = 6 -> symmetric seg = false -> right seg = false -> 4 <= node_count seg ->
  0 <= row -> row mod node_count seg = 0 -> (row + 1) * stripe_size seg < 2 ^ 64 ->
  next_piece seg (walk_at seg row (data_disks seg - 1) b) = mk_walk ((row + 1) * stripe_size seg) 1 0 (parity_of seg (row + 1)) /\ data_disk seg (row + 1) 0 = 0.
Proof.
  intros Hseg H6 Hsym Hright Hc Hrow Hmod Hss. pose proof (pl_count _ Hseg) as Hc'. change (2 ^ 31) with 2147483648 in Hc'. pose proof (pl_stripe _ Hseg).
  destruct (parity_cases seg Hseg) as [[_ E]|[[?|?] _]]; [|lia|lia].
  assert (parity_of seg row = node_count seg - 1) as Ep by (unfold parity_of; rewrite H6, Hright, Hmod; cbn; lia).
  assert (parity_of seg (row + 1) = node_count seg - 2) as Ep'. { rewrite <- next_parity_spec by (done || lia). unfold next_parity. rewrite Hright, Ep, (proj2 (Z.eqb_neq _ 0)); lia. }
  assert (data_disk seg row (data_disks seg - 1) = node_count seg - 2) as Ed.
  { unfold data_disk, data_disks. rewrite H6, Hsym, Ep, E. cbn [Z.ltb]. rewrite (proj2 (Z.ltb_lt (node_count seg) _)) by lia. change (6 <? 5) with false. cbv iota. lia. }
  split.
  - unfold next_piece, walk_at. cbn [w_sector w_disk w_p]. rewrite Ed, Ep. unfold advance. rewrite Hsym, E, (proj2 (Z.eqb_eq (node_count seg - 2 + 1) _)), (proj2 (Z.leb_le (node_count seg) _)) by lia.
    rewrite H6. change (5 <=? 6) with true. cbv iota. rewrite (wrap_small 64 (row * stripe_size seg + stripe_size seg)) by nia. rewrite <- Ep at 1. rewrite next_parity_spec, Ep' by (done || lia).
    rewrite <- Ep at 1. rewrite next_parity_spec, Ep' by (done || lia). unfold next_row. rewrite Hsym, E.
    replace (u64 (node_count seg - 2 + 1 + 2 - node_count seg)) with 1 by (rewrite wrap_small; [lia|pow2; lia]).
    rewrite (proj2 (Z.leb_gt (node_count seg - 2) 1)), (proj2 (Z.ltb_ge (1 + node_count seg) _)), andb_false_r by lia. cbn [andb orb].
    rewrite (proj2 (Z.leb_gt (node_count seg) 1)) by lia. f_equal. lia.
  - unfold data_disk. rewrite H6, Hsym, Ep', E. change (6 <? 5) with false. cbv iota. rewrite (proj2 (Z.ltb_ge (node_count seg) _)), (proj2 (Z.ltb_lt 0 _)) by lia. done.
Qed.

(** Four disks, each full of its number. *)
Definition numbered : array := mk_array (fun i => Some (fun _ => i)) ERR_NONE.
Definition left_asymmetric : grub_diskfilter_segment := mk_segment 0 8 6 0 0 4 [] 1.

(** A finding.  In a left asymmetric RAID 6 of four disks, the third sector of the volume is on
    the first disk, and is read from there alone; but as the second of two sectors it is read from
    the second disk. *)
Theorem raid6_left_asymmetric_misreads :
  read_segment left_asymmetric true true 0 2 1 numbered = Some (ERR_NONE, Some (replicate 512 0), numbered) /\
  read_segment left_asymmetric true true 0 1 2 numbered = Some (ERR_NONE, Some (replicate 512 2 ++ replicate 512 1), numbered).
Proof. split; vm_compute; reflexivity. Qed.

End GrubDiskfilter.
