(* ===== verification/GrubVolume.v ===== *)
(** Volumes made of several disks, the rest: striping, mirrors and RAID 10, members that are disks of
    GrubDisk.v, and what a whole volume gives when disks are lost. *)

From S2P Require Import Prelude GrubStr GrubNum GrubDisk GrubFile GrubRaid GrubDiskfilter.

Module GrubVolume.
Import GrubStr GrubNum GrubDisk GrubFile GrubRaid GrubDiskfilter.

(** ** Arrays with copies *)

Section Copies.
Variable seg : grub_diskfilter_segment.
Variable k : copies.
Abbreviation count := (node_count seg).
Abbreviation ss := (stripe_size seg).

(** The copy [i], [j] of the stripe [t]: its disk, and its first sector there. *)
Definition copy_disk (t i j : Z) : Z := ((t * c_near k + i) mod count + j) mod count.
Definition copy_sector (t i j : Z) : Z := (t * c_near k + i) / count * c_ofs k + j * c_far_ofs k.

Definition is_copy (t i j : Z) : Prop := 0 <= t /\ 0 <= i < c_near k /\ 0 <= j < c_far k.

(** The members [c], of [len] sectors each, hold every copy of the first [stripes] stripes of [f]. *)
Record copied (f : Z -> Z) (c : Z -> Z -> Z) (stripes len : Z) : Prop := mk_copied {
  co_fits t i j : is_copy t i j -> t < stripes -> copy_sector t i j + ss <= len;
  co_data t i j x : is_copy t i j -> t < stripes -> 0 <= x < ss * 512 -> c (copy_disk t i j) (copy_sector t i j * 512 + x) = f (t * ss * 512 + x)
}.

(** Every stripe has a copy on a disk that is not lost. *)
Definition copies_left (g : Z -> bool) (stripes : Z) : Prop := forall t, 0 <= t < stripes -> exists i j, is_copy t i j /\ g (copy_disk t i j) = true.

Record copies_level : Prop := mk_copies_level {
  cl_count : 0 < count < 2 ^ 31;
  cl_stripe : 0 < ss < 2 ^ 32;
  cl_ofs : 0 <= c_ofs k /\ 0 <= c_far_ofs k
}.

Context {N : Type} `{NodesOk N}.
Variables (f : Z -> Z) (c : Z -> Z -> Z) (g : Z -> bool) (stripes len : Z).

Hypothesis Hseg : copies_level.
Hypothesis Hcopied : copied f c stripes len.
Hypothesis Hlen : len < 2 ^ 55.
Hypothesis Hstripes : stripes * ss < 2 ^ 55 /\ stripes * c_near k < 2 ^ 63.
Hypothesis members : forall i, 0 <= i < count -> n_member i.

Lemma bump_mod i : bump count (i mod count) = (i + 1) mod count.
Proof using Hseg. apply next_pos_mod, Hseg. Qed.

Lemma copy_bytes t i j b n : is_copy t i j -> t < stripes -> 0 <= b -> 0 <= n -> b + n <= ss ->
  bytes (c (copy_disk t i j)) ((copy_sector t i j + b) * 512) (n * 512) = bytes f ((t * ss + b) * 512) (n * 512).
Proof using Hcopied.
  intros Hc Ht Hb Hn Hbn. apply bytes_moved. intros x Hx. replace ((copy_sector t i j + b) * 512 + x) with (copy_sector t i j * 512 + (b * 512 + x)) by lia.
  rewrite (co_data _ _ _ _ Hcopied) by (done || lia). f_equal. lia.
Qed.

(** What is left of the copies of a stripe: a good one is found, or all of them fail. *)
Definition far_result (t i j b n : Z) (s : N) (r : option (piece * N)) : Prop :=
  exists s', n_at s' c g len /\
    ((n_errno s' = ERR_NONE /\ r = Some ((ERR_NONE, Some (bytes f ((t * ss + b) * 512) (n * 512))), s')) \/
     exists e, transient e = true /\ e <> ERR_NONE /\ n_errno s' = e /\ r = Some ((e, None), s') /\ forall j', j <= j' < c_far k -> g (copy_disk t i j') = false).

Lemma reset_errno_ok s : n_at s c g len -> n_errno s = ERR_NONE \/ transient (n_errno s) = true -> n_at (reset_errno s) c g len /\ n_errno (reset_errno s) = ERR_NONE.
Proof. intros Hs [He|He]; unfold reset_errno; rewrite He; [done|]. by apply set_errno_ok. Qed.

Lemma transient_not_none e : transient e = true -> e <> ERR_NONE.
Proof. by intros He ->. Qed.

Lemma far_loop_ok m : forall t i j b n r s, is_copy t i 0 -> t < stripes -> 0 <= b -> 0 < n -> b + n <= ss -> 0 <= j -> c_far k = j + Z.of_nat m ->
  n_at s c g len -> (m = 0%nat -> exists e, transient e = true /\ n_errno s = e /\ r = (e, None)) -> n_errno s = ERR_NONE \/ transient (n_errno s) = true ->
  far_result t i j b n s (far_loop seg m j (copy_disk t i j) (c_far_ofs k) ((t * c_near k + i) / count * c_ofs k + b) n r s).
Proof using Hseg Hcopied Hlen members.
  change (2 ^ 55) with 36028797018963968 in Hlen. induction m as [|m IH]; intros t i j b n r s Hc Ht Hb Hn Hbn Hj Hfar Hs Hr He; cbn [far_loop].
  { destruct (Hr eq_refl) as (e & Htr & Ee & ->). exists s. split; [done|]. right. exists e. split; [done|]. split; [by apply transient_not_none|]. split; [done|]. split; [done|]. lia. }
  assert (is_copy t i j) as Hcj by (destruct Hc as (? & ? & ?); repeat split; lia). pose proof (co_fits _ _ _ _ Hcopied t i j Hcj Ht) as Hfit.
  destruct (cl_ofs Hseg) as [Ho Hfo]. pose proof (cl_count Hseg) as Hcount. pose proof (cl_stripe Hseg) as Hss. destruct (reset_errno_ok s Hs He) as [Hs0 He0].
  assert (0 <= copy_sector t i j) as Hpos.
  { unfold copy_sector. assert (0 <= (t * c_near k + i) / count) by (apply Z.div_pos; [destruct Hc as (? & ? & _); nia|lia]). nia. }
  replace ((t * c_near k + i) / count * c_ofs k + b + j * c_far_ofs k) with (copy_sector t i j + b) by (unfold copy_sector; lia).
  rewrite (wrap_small 64 (copy_sector t i j + b)) by (pow2; lia). cbv zeta. destruct (g (copy_disk t i j)) eqn:Hg.
  - destruct (read_good (reset_errno s) c g len (copy_disk t i j) (copy_sector t i j + b) n) as (s1 & -> & Hs1 & He1); [done|done|done|lia|lia|lia|]. rewrite bind_ret. cbv beta iota.
    exists s1. split; [done|]. left. split; [done|]. by rewrite copy_bytes by (done || lia).
  - destruct (read_bad (reset_errno s) c g len (copy_disk t i j) (copy_sector t i j + b) n) as (e & s1 & -> & Hs1 & He1 & Hbad); [apply members, Z.mod_pos_bound; lia|done|done|done|lia|lia|lia|].
    rewrite bind_ret. cbv beta iota. apply transient_bad in Hbad. rewrite Hbad. unfold copy_disk at 1. rewrite bump_mod, <- Z.add_assoc. fold (copy_disk t i (j + 1)).
    destruct (IH t i (j + 1) b n (e, None) s1) as (s2 & Hs2 & [Hok|(e2 & Ht2 & Hn2 & He2 & Er & Hall)]); try done; try lia.
    + intros _. by exists e.
    + right. by rewrite He1.
    + exists s2. split; [done|]. by left.
    + exists s2. split; [done|]. right. exists e2. do 4 (split; [done|]). intros j' Hj'. destruct (Z.eq_dec j' j) as [->|]; [done|]. apply Hall. lia.
Qed.

(** ** From stripe to stripe *)

(** The walk at the position [q] among all copies. *)
Definition copy_walk (q b : Z) : walk := mk_walk (q / count * c_ofs k) (q mod count) b 0.

Lemma div_mod_succ q : q / count * c_ofs k + (if q mod count + 1 =? count then c_ofs k else 0) = (q + 1) / count * c_ofs k.
Proof using Hseg.
  pose proof (cl_count Hseg) as Hc. pose proof (Z.div_mod q count ltac:(lia)) as E. pose proof (Z.mod_pos_bound q count ltac:(lia)) as Hm. destruct (Z.eqb_spec (q mod count + 1) count).
  - rewrite <- (Z.div_unique (q + 1) count (q / count + 1) 0) by lia. lia.
  - rewrite <- (Z.div_unique (q + 1) count (q / count) (q mod count + 1)) by lia. lia.
Qed.

Lemma position_fits t i : 0 <= t < stripes -> 0 <= i < c_near k -> 0 < c_far k -> 0 <= (t * c_near k + i) / count * c_ofs k /\ (t * c_near k + i) / count * c_ofs k + ss <= len.
Proof using Hseg Hcopied.
  intros Ht Hi Hf. pose proof (cl_count Hseg). destruct (cl_ofs Hseg) as [Ho _]. assert (0 <= (t * c_near k + i) / count) by (apply Z.div_pos; nia). split; [nia|].
  assert (is_copy t i 0) as Hc by (repeat split; lia). pose proof (co_fits _ _ _ _ Hcopied t i 0 Hc ltac:(lia)) as Hfit. unfold copy_sector in Hfit. lia.
Qed.

Lemma near_loop_ok m : forall t i b n r s i' j', 0 <= t < stripes -> 0 <= b -> 0 < n -> b + n <= ss -> 0 <= i -> c_near k = i + Z.of_nat m ->
  is_copy t i' j' -> i <= i' -> g (copy_disk t i' j') = true -> n_at s c g len -> n_errno s = ERR_NONE \/ transient (n_errno s) = true ->
  exists i2 s', near_loop seg m i k (copy_walk (t * c_near k + i) b) n r s =
    Some ((ERR_NONE, Some (bytes f ((t * ss + b) * 512) (n * 512))), i2, copy_walk (t * c_near k + i2) b, s') /\ i <= i2 < c_near k /\ n_at s' c g len /\ n_errno s' = ERR_NONE.
Proof using Hseg Hcopied Hlen members.
  change (2 ^ 55) with 36028797018963968 in Hlen. induction m as [|m IH]; intros t i b n r s i' j' Ht Hb Hn Hbn Hi Hnear Hc Hi' Hg Hs He; cbn [near_loop]; [destruct Hc as (_ & ? & _); lia|].
  pose proof (cl_count Hseg) as Hcount. change (2 ^ 31) with 2147483648 in Hcount. pose proof (cl_stripe Hseg) as Hss. pose proof Hc as (_ & Hci & Hcj).
  pose proof (position_fits t i Ht ltac:(lia) ltac:(lia)) as [Hp0 Hp1]. set (q := t * c_near k + i) in *. pose proof (Z.mod_pos_bound q count ltac:(lia)) as Hq.
  cbn [copy_walk w_sector w_disk w_b]. rewrite (wrap_small 32 (q mod count)), (wrap_small 64 (q / count * c_ofs k + b)) by (pow2; lia).
  assert (q mod count = copy_disk t i 0) as Ed by (unfold copy_disk; fold q; by rewrite Z.add_0_r, Z.mod_mod by lia).
  assert (far_result t i 0 b n s (far_loop seg (Z.to_nat (c_far k)) 0 (q mod count) (c_far_ofs k) (q / count * c_ofs k + b) n (ERR_NONE, None) s))
    as (s1 & Hs1 & [[He1 Efar]|(e & Htr & Hne & He1 & Efar & Hall)]).
  { rewrite Ed. apply far_loop_ok; try done; try lia. repeat split; lia. }
  all: rewrite Efar.
  - rewrite bind_ret. cbn [fst]. exists i, s1. split; [done|]. split; [lia|done].
  - rewrite bind_ret. cbn [fst snd]. assert (i' <> i) as Hii. { intros ->. rewrite Hall in Hg by lia. done. }
    assert ((if q mod count + 1 =? count then mk_walk (u64 (q / count * c_ofs k + c_ofs k)) 0 b 0 else mk_walk (q / count * c_ofs k) (q mod count + 1) b 0) =
      copy_walk (t * c_near k + (i + 1)) b) as Ew.
    { pose proof (position_fits t (i + 1) Ht ltac:(lia) ltac:(lia)) as [Hp2 Hp3]. pose proof (div_mod_succ q) as Es. pose proof (next_pos_mod count q ltac:(lia)) as Em. unfold next_pos in Em.
      rewrite Z.add_assoc in Hp2, Hp3. rewrite Z.add_assoc. fold q in Hp2, Hp3 |- *. unfold copy_walk. rewrite <- Es, <- Em in *.
      destruct (q mod count + 1 =? count); [rewrite wrap_small by (pow2; lia); done|by rewrite Z.add_0_r]. }
    destruct (IH t (i + 1) b n (e, None) s1 i' j') as (i2 & s2 & E & Hi2 & Hs2); try done; try lia.
    { right. by rewrite He1. }
    exists i2, s2. split; [|split; [lia|done]]. 
    destruct e; try (vm_compute in Htr; discriminate Htr); cbn [copy_walk w_sector w_disk w_b w_p]; change (negb (transient _)) with false; cbv iota zeta; by rewrite Ew, E.
Qed.

Lemma carry_loop_ok fuel : forall a d b, 0 <= a -> 0 <= d -> d / count <= Z.of_nat fuel -> (a + d / count) * c_ofs k < 2 ^ 64 ->
  carry_loop seg fuel (c_ofs k) (mk_walk (a * c_ofs k) d b 0) = Some (mk_walk ((a + d / count) * c_ofs k) (d mod count) b 0).
Proof using Hseg.
  pose proof (cl_count Hseg) as Hc. destruct (cl_ofs Hseg) as [Ho _].
  assert (forall d, 0 <= d < count -> forall a b, Some (mk_walk (a * c_ofs k) d b 0) = Some (mk_walk ((a + d / count) * c_ofs k) (d mod count) b 0)) as Hsmall.
  { intros d Hd a b. by rewrite Z.div_small, Z.mod_small, Z.add_0_r by lia. }
  induction fuel as [|fuel IH]; intros a d b Ha Hd Hf Hb; cbn [carry_loop w_disk].
  - assert (d < count) by (apply Z.nle_gt; intros Hge; pose proof (Z.div_le_mono count d count ltac:(lia) Hge); rewrite Z.div_same in * by lia; lia).
    rewrite (proj2 (Z.ltb_lt d count)) by lia. apply Hsmall. lia.
  - destruct (Z.ltb_spec d count) as [Hlt|Hge]; [apply Hsmall; lia|]. cbn [w_sector w_b w_p].
    assert (d / count = 1 + (d - count) / count) as E. { replace d with (d - count + 1 * count) at 1 by lia. rewrite Z.div_add by lia. lia. }
    assert (0 <= (d - count) / count) by (apply Z.div_pos; lia).
    rewrite (wrap_small 64 (a * c_ofs k + c_ofs k)) by nia. replace (a * c_ofs k + c_ofs k) with ((a + 1) * c_ofs k) by lia. rewrite IH by (lia || nia).
    f_equal. f_equal; [rewrite E; lia|]. replace d with (d - count + 1 * count) at 2 by lia. by rewrite Z.mod_add by lia.
Qed.

Hypothesis Hleft : copies_left g stripes.
Hypothesis Hfound : find_copies seg = Some k.
Hypothesis Hnear : 0 < c_near k < 2 ^ 62.

(** To the first copy of the next stripe. *)
Lemma carry_next t i : 0 <= t -> t + 1 < stripes -> 0 <= i < c_near k -> 0 < c_far k ->
  carry_loop seg (Z.to_nat (count + c_near k)) (c_ofs k) (mk_walk ((t * c_near k + i) / count * c_ofs k) (u64 ((t * c_near k + i) mod count + (c_near k - i))) 0 0) =
  Some (copy_walk ((t + 1) * c_near k) 0).
Proof using Hseg Hcopied Hlen Hnear.
  intros Ht Ht1 Hi Hf. pose proof (cl_count Hseg) as Hc. change (2 ^ 31) with 2147483648 in Hc. pose proof (cl_stripe Hseg) as Hss. change (2 ^ 55) with 36028797018963968 in Hlen. change (2 ^ 62) with 4611686018427387904 in Hnear.
  set (q := t * c_near k + i) in *. pose proof (Z.mod_pos_bound q count ltac:(lia)) as Hm. pose proof (Z.div_mod q count ltac:(lia)) as Eq. rewrite wrap_small by (pow2; lia).
  set (d := q mod count + (c_near k - i)) in *. assert ((t + 1) * c_near k = d + q / count * count) as E by (unfold d, q in *; lia).
  assert (((t + 1) * c_near k) / count = q / count + d / count) as E1 by (rewrite E, Z.div_add by lia; lia).
  assert (((t + 1) * c_near k) mod count = d mod count) as E2 by (rewrite E, Z.mod_add by lia; done).
  pose proof (position_fits (t + 1) 0 ltac:(lia) ltac:(lia) Hf) as [Hp0 Hp1]. rewrite Z.add_0_r, E1 in Hp0, Hp1.
  rewrite carry_loop_ok; [|apply Z.div_pos; [unfold q; nia|lia]|unfold d; lia| |pow2; lia].
  - unfold copy_walk. by rewrite E1, E2.
  - apply Z.div_le_upper_bound; [lia|]. rewrite Z2Nat.id by lia. unfold d. nia.
Qed.

Lemma copies_loop_ok fuel : forall t b size acc s, 0 <= t -> 0 <= b < ss -> 0 < size -> size < Z.of_nat fuel -> t * ss + b + size <= stripes * ss ->
  n_at s c g len -> n_errno s = ERR_NONE ->
  exists s', copies_loop seg fuel k (copy_walk (t * c_near k) b) size (Some acc) s = Some (ERR_NONE, Some (acc ++ bytes f ((t * ss + b) * 512) (size * 512)), s') /\
    n_at s' c g len /\ n_errno s' = ERR_NONE.
Proof using Hseg Hcopied Hlen members Hleft Hnear.
  induction fuel as [|fuel IH]; intros t b size acc s Ht Hb Hsize Hfuel Hend Hs He; [lia|]. cbn [copies_loop].
  pose proof (cl_stripe Hseg) as Hss. change (2 ^ 32) with 4294967296 in Hss. assert (t < stripes) as Hts by nia.
  cbv zeta. change (w_b (copy_walk (t * c_near k) b)) with b. set (n := read_size seg b size).
  assert (0 < n <= size /\ b + n <= ss /\ (n < size -> b + n = ss)) as (Hn & Hbn & Hnext).
  { unfold n, read_size. cbv zeta. rewrite wrap_small by (pow2; lia). destruct (Z.ltb_spec size (ss - b)); lia. }
  destruct (Hleft t ltac:(lia)) as (i' & j' & Hc & Hg). pose proof Hc as (_ & Hi' & Hj').
  destruct (near_loop_ok (Z.to_nat (c_near k)) t 0 b n (ERR_NONE, None) s i' j') as (i2 & s1 & E & Hi2 & Hs1 & He1); try done; try lia; [by left|].
  rewrite Z.add_0_r in E. rewrite E, bind_ret. cbv beta iota. cbn [fst snd]. change (append (Some acc) (Some ?x)) with (Some (acc ++ x)).
  destruct (Z.eqb_spec (size - n) 0) as [Ez|Ez]; [assert (n = size) as -> by lia; by exists s1|]. specialize (Hnext ltac:(lia)).
  cbn [copy_walk w_sector w_disk w_p]. rewrite carry_next, bind_ret; [|lia|nia|lia|lia].
  destruct (IH (t + 1) 0 (size - n) (acc ++ bytes f ((t * ss + b) * 512) (n * 512)) s1) as (s2 & -> & Hs2); try done; try lia.
  exists s2. split; [|done]. rewrite <- app_assoc. replace (((t + 1) * ss + 0) * 512) with ((t * ss + b) * 512 + n * 512) by lia.
  rewrite <- bytes_app by lia. by replace (n * 512 + (size - n) * 512) with (size * 512) by lia.
Qed.

Lemma read_copies_ok sector size s : 0 <= sector -> 0 < size -> sector + size <= stripes * ss -> n_at s c g len -> n_errno s = ERR_NONE ->
  exists s', read_copies seg sector size s = Some (ERR_NONE, Some (bytes f (sector * 512) (size * 512)), s') /\ n_at s' c g len /\ n_errno s' = ERR_NONE.
Proof using Hseg Hcopied Hlen Hstripes members Hleft Hfound Hnear.
  intros Hsec Hsize Hend Hs He. pose proof (cl_stripe Hseg) as Hss. pose proof (cl_count Hseg) as Hc. destruct Hstripes as [Hst1 Hst2]. change (2 ^ 31) with 2147483648 in Hc. change (2 ^ 32) with 4294967296 in Hss.
  change (2 ^ 55) with 36028797018963968 in Hst1, Hlen. change (2 ^ 63) with 9223372036854775808 in Hst2.
  unfold read_copies. rewrite divmod64_spec, bind_ret by (pow2; lia). cbv beta iota. rewrite Hfound, bind_ret.
  pose proof (Z.div_mod sector ss ltac:(lia)) as E1. pose proof (Z.mod_pos_bound sector ss ltac:(lia)) as Hb. set (t := sector / ss) in *. set (b := sector mod ss) in *.
  assert (0 <= t < stripes) as Ht by nia. destruct (Hleft t Ht) as (i' & j' & (_ & Hi & Hj) & _).
  assert (0 <= t * c_near k < 9223372036854775808) as Hq by nia. rewrite (wrap_small 64 (t * c_near k)) by (pow2; lia). rewrite divmod64_spec, bind_ret by (pow2; lia). cbv beta iota.
  pose proof (position_fits t 0 Ht ltac:(lia) ltac:(lia)) as [Hp0 Hp1]. rewrite Z.add_0_r in Hp0, Hp1. rewrite (wrap_small 64 (t * c_near k / count * c_ofs k)) by (pow2; lia).
  destruct (copies_loop_ok (S (Z.to_nat size)) t b size [] s) as (s' & E & Hs'); try done; try lia.
  exists s'. split; [|done]. unfold copy_walk in E. rewrite E. by replace (t * ss + b) with sector by lia.
Qed.

End Copies.

(** ** Enough members *)

Definition present (node : grub_diskfilter_node) : bool := match node_pv node with Some pv => bool_decide (is_Some (pv_disk pv)) | None => false end.

Lemma have_enough_spec readable need l : forall have, (forall node, node ∈ l -> readable node = Some (present node)) -> have_enough readable l have need = Some true ->
  need <= have + Z.of_nat (length (filter (fun node => present node = true) l)).
Proof.
  induction l as [|node l IH]; intros have Hl; cbn [have_enough].
  { intros [= E%Z.leb_le]. cbn. lia. }
  rewrite (Hl node), bind_ret by constructor. cbv zeta. rewrite filter_cons. specialize (IH (if present node then have + 1 else have) (fun n Hn => Hl n ltac:(by constructor))).
  destruct (present node); [rewrite decide_True by done; cbn [length]|rewrite decide_False by done]; destruct (Z.leb_spec need (have + 1)), (Z.leb_spec need have); try lia; intros E; specialize (IH E); lia.
Qed.

Lemma filter_fmap_length {A} (p : A -> bool) (q : Z -> bool) (l : list A) (l' : list Z) : p <$> l = q <$> l' ->
  length (filter (fun x => p x = true) l) = length (filter (fun x => q x = true) l').
Proof.
  revert l'. induction l as [|x l IH]; intros [|y l']; try done. rewrite !fmap_cons. intros [= E El]. rewrite !filter_cons, <- E. specialize (IH l' El).
  destruct (p x); [rewrite !decide_True by done; cbn [length]; lia|by rewrite !decide_False by done].
Qed.

(** The lost ones and the others are all. *)
Lemma lost_and_present (g : Z -> bool) n L : 0 <= n -> NoDup L -> (forall i, i ∈ L -> 0 <= i < n /\ g i = false) ->
  Z.of_nat (length L) + Z.of_nat (length (filter (fun i => g i = true) (seqZ 0 n))) <= n.
Proof.
  intros Hn HL Hin. assert (NoDup (L ++ filter (fun i => g i = true) (seqZ 0 n))) as Hnd.
  { apply NoDup_app. split; [done|]. split; [|by apply NoDup_filter, NoDup_seqZ]. intros i Hi [Hg _]%list_elem_of_filter. destruct (Hin i Hi). congruence. }
  apply (NoDup_submseteq _ (seqZ 0 n)), submseteq_length in Hnd; [rewrite length_app, length_seqZ in Hnd; lia|].
  intros i [Hi|[_ Hi]%list_elem_of_filter]%elem_of_app; [|done]. apply elem_of_seqZ. destruct (Hin i Hi). lia.
Qed.

(** The two sides of a segment with members: what is readable, and what is lost. *)
Definition enough (seg : grub_diskfilter_segment) (g : Z -> bool) : Prop :=
  nodes_needed false seg <= Z.of_nat (length (filter (fun i => g i = true) (seqZ 0 (node_count seg)))).

Lemma lost_few seg g L : 0 <= node_count seg -> enough seg g -> NoDup L -> (forall i, i ∈ L -> 0 <= i < node_count seg /\ g i = false) ->
  Z.of_nat (length L) + nodes_needed false seg <= node_count seg.
Proof. intros Hc He HL Hin. pose proof (lost_and_present g _ L Hc HL Hin). unfold enough in He. lia. Qed.

Ltac few_elements := repeat (match goal with
  | H : _ ∈ _ :: _ |- _ => apply elem_of_cons in H as [H|H]
  | H : _ ∈ [] |- _ => by apply elem_of_nil in H
  | |- NoDup (_ :: _) => apply NoDup_cons; split; [intros ?|]
  | |- NoDup [] => apply NoDup_nil_2
  end; try congruence).

Lemma enough_bearable seg g : parity_level seg -> enough seg g -> bearable seg g.
Proof.
  intros Hseg He. pose proof (count_pos seg Hseg) as Hc. unfold bearable. pose proof (lost_few seg g) as Hfew. unfold nodes_needed in Hfew.
  destruct (Z.eqb_spec (seg_type seg) 6) as [E|E].
  - rewrite E in Hfew. cbn in Hfew. intros i j k Hi Hj Hk Gi Gj Gk. destruct (Z.eq_dec i j), (Z.eq_dec j k), (Z.eq_dec i k); auto. exfalso.
    specialize (Hfew [i; j; k] ltac:(lia) He). cbn [length] in Hfew. assert (Z.of_nat 3 + (node_count seg - 1 - 1) <= node_count seg); [|lia]. apply Hfew.
    + few_elements.
    + intros x Hx. few_elements; by subst.
  - assert ((seg_type seg =? GRUB_DISKFILTER_RAID4) || (seg_type seg =? GRUB_DISKFILTER_RAID5) = true) as E45.
    { destruct (pl_type _ Hseg) as [->|[->|?]]; [done|done|congruence]. }
    rewrite E45, (proj2 (Z.eqb_neq _ GRUB_DISKFILTER_RAID6)) in Hfew by done. intros i j Hi Hj Gi Gj. destruct (Z.eq_dec i j); [done|]. exfalso.
    specialize (Hfew [i; j] ltac:(lia) He). cbn [length] in Hfew. assert (Z.of_nat 2 + (node_count seg - 1) <= node_count seg); [|lia]. apply Hfew.
    + few_elements.
    + intros x Hx. few_elements; by subst.
Qed.

(** The copies of a stripe that are counted on: the near ones, or the far ones of the only near one. *)
Definition counted (k : copies) : Z := if 1 <? c_near k then c_near k else c_far k.

Lemma counted_copies seg k t : 0 < node_count seg -> 0 <= t -> 0 < c_near k <= node_count seg -> 0 < c_far k <= node_count seg ->
  exists L, NoDup L /\ Z.of_nat (length L) = counted k /\ forall x, x ∈ L -> 0 <= x < node_count seg /\ exists i j, is_copy k t i j /\ x = copy_disk seg k t i j.
Proof.
  intros Hc Ht Hn Hf.
  assert (forall (q m i j : Z), 0 <= i < node_count seg -> 0 <= j < node_count seg -> (q + i) mod node_count seg = (q + j) mod node_count seg -> i = j) as Hinj.
  { intros q _ i j Hi Hj E. apply (f_equal (fun x => (x - q) mod node_count seg)) in E. rewrite !Zminus_mod_idemp_l in E.
    replace (q + i - q) with i in E by lia. replace (q + j - q) with j in E by lia. by rewrite !Z.mod_small in E by lia. }
  unfold counted. destruct (Z.ltb_spec 1 (c_near k)).
  - exists ((fun i => copy_disk seg k t i 0) <$> seqZ 0 (c_near k)). split; [|split; [rewrite length_fmap, length_seqZ; lia|]].
    + apply NoDup_fmap_2_strong; [|apply NoDup_seqZ]. intros i j Hi%elem_of_seqZ Hj%elem_of_seqZ. unfold copy_disk. rewrite !Z.add_0_r, !Z.mod_mod by lia. apply Hinj; [exact 0|lia..].
    + intros x (i & -> & Hi%elem_of_seqZ)%list_elem_of_fmap. split; [apply Z.mod_pos_bound; lia|]. exists i, 0. split; [repeat split; lia|done].
  - exists ((fun j => copy_disk seg k t 0 j) <$> seqZ 0 (c_far k)). split; [|split; [rewrite length_fmap, length_seqZ; lia|]].
    + apply NoDup_fmap_2_strong; [|apply NoDup_seqZ]. intros i j Hi%elem_of_seqZ Hj%elem_of_seqZ. unfold copy_disk. apply Hinj; [exact 0|lia..].
    + intros x (j & -> & Hj%elem_of_seqZ)%list_elem_of_fmap. split; [apply Z.mod_pos_bound; lia|]. exists 0, j. split; [repeat split; lia|done].
Qed.

Lemma counted_needed seg k : has_copies (seg_type seg) = true -> find_copies seg = Some k -> 0 < c_near k -> node_count seg - counted k + 1 <= nodes_needed false seg.
Proof.
  unfold has_copies, GRUB_DISKFILTER_STRIPED, GRUB_DISKFILTER_MIRROR, GRUB_DISKFILTER_RAID10. intros Ht Hk Hn. unfold counted, find_copies, nodes_needed in *.
  destruct (Z.eqb_spec (seg_type seg) 0) as [E|E0]; [|destruct (Z.eqb_spec (seg_type seg) 1) as [E|E1]; [|destruct (Z.eqb_spec (seg_type seg) 10) as [E|E10]; [|done]]]; rewrite E in *.
  - injection Hk as <-. cbn in *. lia.
  - injection Hk as <-. cbn [c_near c_far] in *. cbn. destruct (Z.ltb_spec 1 (node_count seg)); lia.
  - cbn [Z.eqb] in *. cbn -[Z.land Z.shiftr]. assert (c_near k = Z.land (seg_layout seg) 0xFF /\ c_far k = Z.land (Z.shiftr (seg_layout seg) 8) 0xFF) as [En Ef].
    { destruct (negb _); [by injection Hk as <-|]. destruct (grub_divmod64 _ _); [|done]. by injection Hk as <-. }
    rewrite <- En, <- Ef. destruct (Z.ltb_spec 1 (c_near k)), (Z.eqb_spec (c_near k) 1); lia.
Qed.

Lemma enough_copies seg k g stripes : has_copies (seg_type seg) = true -> find_copies seg = Some k -> 0 < node_count seg -> 0 < c_near k <= node_count seg -> 0 < c_far k <= node_count seg ->
  enough seg g -> copies_left seg k g stripes.
Proof.
  intros Ht Hk Hc Hn Hf He t Hts. destruct (counted_copies seg k t Hc ltac:(lia) Hn Hf) as (L & HL & Hlen & Hin).
  destruct (decide (Exists (fun x => g x = true) L)) as [(x & Hx & Hg)%Exists_exists|Hno].
  - destruct (Hin x Hx) as (_ & i & j & Hij & ->). by exists i, j.
  - exfalso. pose proof (counted_needed seg k Ht Hk ltac:(lia)). pose proof (lost_few seg g L ltac:(lia) He HL) as Hfew. rewrite Hlen in Hfew.
    assert (counted k + nodes_needed false seg <= node_count seg); [|lia]. apply Hfew. intros x Hx. split; [by apply Hin|]. destruct (g x) eqn:Hg; [|done].
    exfalso. apply Hno, Exists_exists. by exists x.
Qed.

(** ** Members that are disks *)

Section Physical.
Context {D : Type} `{DevicesOk D}.
Variable memory : nat -> Z -> bool * bool.
Variable heap_at : nat -> Z.
Abbreviation St := (state (D := D)).

(** The place of a member on its disk. *)
Definition member_start (node : grub_diskfilter_node) (pv : grub_diskfilter_pv) : Z := node_start node + start_sector pv.

(** A member: the first [len] sectors of a disk on which nothing fails, or of a disk that was not
    found. *)
Definition member_at (s : St) (len : Z) (node : grub_diskfilter_node) (h : Z -> Z) (good : bool) : Prop :=
  exists pv, node_pv node = Some pv /\
    match pv_disk pv with
    | Some k => good = true /\ sturdy memory k s /\ hook_fine (read_hook k) /\ 0 <= node_start node /\ 0 <= start_sector pv /\
        within (disk_end k) (partition k) (member_start node pv * 512) (len * 512) = true /\
        forall x, h x = disk_bytes s k (place (partition k) (member_start node pv * 512) + x)
    | None => good = false
    end.

(** The members of a segment, at the start. *)
Record members_at (seg : grub_diskfilter_segment) (s : St) (c : Z -> Z -> Z) (g : Z -> bool) (len : Z) : Prop := mk_members_at {
  ma_bytes i x : is_byte (c i x);
  ma_good i : g i = true -> 0 <= i < zlen (nodes seg);
  ma_node i node : nodes seg !! i = Some node -> member_at s len node (c (Z.of_nat i)) (g (Z.of_nat i));
  ma_memory : enough_memory memory
}.

Lemma member_node seg s c g len i : members_at seg s c g len -> 0 <= i < zlen (nodes seg) ->
  exists node, (if i <? 0 then None else nodes seg !! Z.to_nat i) = Some node /\ member_at s len node (c i) (g i).
Proof.
  intros Hm Hi. rewrite (proj2 (Z.ltb_ge i 0)) by lia. unfold zlen in Hi. destruct (lookup_lt_is_Some_2 (nodes seg) (Z.to_nat i)) as [node E]; [lia|].
  exists node. split; [done|]. pose proof (ma_node _ _ _ _ _ Hm _ _ E) as Hn. by rewrite Z2Nat.id in Hn by lia.
Qed.

Lemma set_own_hook k : set_read_hook (read_hook k) k = k.
Proof. by destruct k. Qed.

(** What a read of a member gives. *)
Lemma member_read nested node (s0 s : St) len h good sector size : member_at s0 len node h good -> frame s0 s -> grub_errno s = ERR_NONE -> 0 <= sector -> 0 < size -> sector + size <= len ->
  exists s', frame s0 s' /\ grub_diskfilter_read_node memory nested node sector size s =
    (if good then Some (ERR_NONE, Some (bytes h (sector * 512) (size * 512)), s') else Some (ERR_UNKNOWN_DEVICE, None, s')) /\
    grub_errno s' = if good then ERR_NONE else ERR_UNKNOWN_DEVICE.
Proof.
  intros (pv & Epv & Hpv) F He Hsec Hsize Hend. unfold grub_diskfilter_read_node. rewrite Epv. destruct (pv_disk pv) as [k|].
  2: { subst good. exists (set_errno ERR_UNKNOWN_DEVICE s). split; [|done]. eapply frame_trans; [exact F|]. apply set_errno_frame, F. }
  destruct Hpv as (-> & Hk & Hh & Hn & Hp & Hw & Eh). unfold member_start in *.
  pose proof (within_limit _ _ _ _ (st_parts _ _ _ Hk) Hw) as Hb. assert (disk_end k <= 2 ^ 51) as Hde by (unfold disk_end; lia). change (2 ^ 51) with 2251799813685248 in Hde.
  rewrite (wrap_small 64 (sector + node_start node)), (wrap_small 64 (sector + node_start node + start_sector pv)) by (pow2; lia).
  unfold GRUB_DISK_SECTOR_BITS. rewrite (sectors_bytes size) by (change (2 ^ 55) with 36028797018963968; lia).
  destruct (within_sub (disk_end k) (partition k) _ _ (sector * 512) (size * 512) Hw) as [Hw' Hpl]; [lia..|].
  destruct (sturdy_read memory k (read_hook k) s (sector + node_start node + start_sector pv) 0 (size * 512)) as (s' & E & F' & He'); [by eapply sturdy_frame|done|done|lia|lia|lia| |].
  { replace ((sector + node_start node + start_sector pv) * 512 + 0) with ((node_start node + start_sector pv) * 512 + sector * 512) by lia. exact Hw'. }
  rewrite set_own_hook in E. rewrite E, bind_ret. exists s'. split; [by eapply frame_trans|]. split; [|done]. do 3 f_equal. f_equal.
  replace ((sector + node_start node + start_sector pv) * 512 + 0) with ((node_start node + start_sector pv) * 512 + sector * 512) by lia. rewrite Hpl.
  apply bytes_moved. intros x Hx. rewrite Eh. unfold disk_bytes. rewrite (f_medium _ _ F). f_equal. lia.
Qed.

(** They are an array, from the state [s0] on. *)
Definition physical_nodes (nested : nat -> Z -> Z -> St -> option (recovered (N := St))) (seg : grub_diskfilter_segment) (s0 : St) :
  NodesOk St (H := segment_nodes memory heap_at nested seg).
Proof.
  refine (Build_NodesOk St (segment_nodes memory heap_at nested seg) (fun i => 0 <= i < zlen (nodes seg)) (fun s c g len => frame s0 s /\ members_at seg s0 c g len) _ _ _ _ _).
  - intros s c g len i x [_ Hm]. apply Hm.
  - intros s c g len i sector size [F Hm] He Hg Hsec Hsize Hend. destruct (member_node _ _ _ _ _ i Hm (ma_good _ _ _ _ _ Hm i Hg)) as (node & E & Hn).
    destruct (member_read nested node s0 s len (c i) (g i) sector size Hn F He Hsec Hsize Hend) as (s' & F' & Er & He'). rewrite Hg in *. exists s'.
    split; [|done]. cbn [read_node segment_nodes]. rewrite E, bind_ret, Er, bind_ret. done.
  - intros s c g len i sector size Hi [F Hm] He Hg Hsec Hsize Hend. destruct (member_node _ _ _ _ _ i Hm Hi) as (node & E & Hn).
    destruct (member_read nested node s0 s len (c i) (g i) sector size Hn F He Hsec Hsize Hend) as (s' & F' & Er & He'). rewrite Hg in *. exists ERR_UNKNOWN_DEVICE, s'.
    split; [|auto]. cbn [read_node segment_nodes]. rewrite E, bind_ret, Er, bind_ret. done.
  - intros e s c g len [F Hm]. split; [|done]. split; [|done]. eapply frame_trans; [exact F|]. apply set_errno_frame, F.
  - intros z s c g len [F Hm]. destruct (malloc_spec memory z s (f_ok _ _ F)) as (F' & E & _ & Hok). specialize (Hok (ma_memory _ _ _ _ _ Hm)).
    cbn [n_malloc segment_nodes n_errno]. destruct (malloc memory z s) as [ok s']. cbn [fst snd] in *. subst ok. exists (heap_at (clock s)), s'.
    split; [done|]. split; [|by apply E]. split; [by eapply frame_trans|done].
Defined.
End Physical.

(** ** Whole volumes *)

Section Volume.
Context {D : Type} `{DevicesOk D}.
Variable memory : nat -> Z -> bool * bool.
Variable heap_at : nat -> Z.
Abbreviation St := (state (D := D)).
Variable nested : nat -> Z -> Z -> St -> option (recovered (N := St)).
Variables (lv : grub_diskfilter_lv) (es total : Z) (f : Z -> Z).
Variable inv : St -> Prop.

Hypothesis Hes : extent_size lv = Some es.
Hypothesis Hpos : 0 < es.
Hypothesis Htotal : total * es < 2 ^ 55.
Hypothesis covered : forall e, 0 <= e < total -> exists seg, find_segment lv e = Some seg.
Hypothesis extents : forall seg, seg ∈ segments lv -> 0 <= start_extent seg /\ 0 <= extent_count seg /\ start_extent seg + extent_count seg <= total.

(** Each segment has its part of the volume. *)
Hypothesis parts : forall seg at_buf sector size s, seg ∈ segments lv -> inv s -> 0 <= sector -> 0 < size -> sector + size <= extent_count seg * es ->
  exists s', read_segment (H := segment_nodes memory heap_at nested seg) seg true true at_buf sector size s =
    Some (ERR_NONE, Some (bytes f ((start_extent seg * es + sector) * 512) (size * 512)), s') /\ inv s'.

Lemma find_segment_spec e seg : find_segment lv e = Some seg -> seg ∈ segments lv /\ start_extent seg <= e < u64 (start_extent seg + extent_count seg).
Proof.
  unfold find_segment. intros ([i x] & E & [= ->])%fmap_Some. apply list_find_Some in E as (E & Hx & _). split; [by eapply list_elem_of_lookup_2|done].
Qed.

Lemma lv_loop_ok fuel : forall at_buf sector size acc s, 0 <= sector -> 0 <= size -> size < Z.of_nat fuel -> sector + size <= total * es -> inv s ->
  exists s', lv_loop memory heap_at true true fuel nested lv at_buf sector size (Some acc) s = Some (ERR_NONE, Some (acc ++ bytes f (sector * 512) (size * 512)), s') /\ inv s'.
Proof using Hes Hpos Htotal covered extents parts.
  induction fuel as [|fuel IH]; intros at_buf sector size acc s Hsec Hsize Hfuel Hend Hs; [lia|]. cbn [lv_loop]. change (2 ^ 55) with 36028797018963968 in Htotal.
  destruct (Z.eqb_spec size 0) as [->|Hne]; [exists s; by rewrite app_nil_r|]. rewrite Hes, bind_ret.
  assert (0 < total) as Ht by nia. assert (es <= total * es) by nia. rewrite divmod64_spec, bind_ret by (pow2; lia). cbn [fst].
  pose proof (Z.div_mod sector es ltac:(lia)) as Ed. pose proof (Z.mod_pos_bound sector es Hpos) as Hm.
  assert (0 <= sector / es < total) as He. { split; [by apply Z.div_pos|]. apply Z.div_lt_upper_bound; lia. }
  destruct (covered _ He) as [seg E]. rewrite E. apply find_segment_spec in E as [Hin Hext]. destruct (extents seg Hin) as (Hst & Hec & Htot).
  assert (total <= total * es) by nia. rewrite (wrap_small 64 (start_extent seg + extent_count seg)) in * by (pow2; lia).
  set (stop := (start_extent seg + extent_count seg) * es). assert (0 <= stop <= total * es) as Hstop by (unfold stop; nia).
  set (e := sector / es) in *. pose proof (Z.mul_le_mono_nonneg_r (start_extent seg) e es ltac:(lia) ltac:(lia)) as Hle1.
  pose proof (Z.mul_le_mono_nonneg_r (e + 1) (start_extent seg + extent_count seg) es ltac:(lia) ltac:(lia)) as Hle2. fold stop in Hle2.
  assert (0 <= start_extent seg * es) by nia. assert (start_extent seg * es <= sector /\ sector < stop) as [Hlo Hhi] by lia.
  rewrite (wrap_small 64 stop), (wrap_small 64 (stop - sector)), (wrap_small 64 (start_extent seg * es)), (wrap_small 64 (sector - start_extent seg * es)) by (pow2; lia).
  set (n := if size <? stop - sector then size else stop - sector). assert (0 < n <= size /\ sector + n <= stop) as [Hn Hns] by (unfold n; destruct (Z.ltb_spec size (stop - sector)); lia).
  destruct (parts seg at_buf (sector - start_extent seg * es) n s Hin Hs) as (s1 & -> & Hs1); [lia|lia|unfold stop in *; lia|]. rewrite bind_ret. cbv beta iota.
  replace (start_extent seg * es + (sector - start_extent seg * es)) with sector by lia. change (append (Some acc) (Some ?x)) with (Some (acc ++ x)).
  rewrite (wrap_small 64 (sector + n)) by (pow2; lia).
  destruct (IH (u64 (at_buf + Z.shiftl n 9)) (sector + n) (size - n) (acc ++ bytes f (sector * 512) (n * 512)) s1) as (s2 & -> & Hs2); [lia..|done|]. exists s2. split; [|done].
  rewrite <- app_assoc. replace ((sector + n) * 512) with (sector * 512 + n * 512) by lia. rewrite <- bytes_app by lia. replace (n * 512 + (size - n) * 512) with (size * 512) by lia. done.
Qed.
End Volume.

(** * Volumes on disks *)

(** Validation leaves the geometry that reading a level with parity relies on. *)
Lemma valid_parity seg : is_parity_level (seg_type seg) = true -> segment_error seg = ERR_NONE -> 0 <= stripe_size seg < 2 ^ 32 -> 0 <= node_count seg < 2 ^ 31 -> parity_level seg.
Proof.
  unfold is_parity_level, segment_error, GRUB_DISKFILTER_STRIPED, GRUB_DISKFILTER_MIRROR, GRUB_DISKFILTER_RAID4, GRUB_DISKFILTER_RAID5, GRUB_DISKFILTER_RAID6, GRUB_DISKFILTER_RAID10. intros Ht He Hss Hc.
  destruct (Z.eqb_spec (stripe_size seg) 0), (Z.eqb_spec (node_count seg) 0); try done. cbn [orb] in He.
  assert (seg_type seg = 4 \/ seg_type seg = 5 \/ seg_type seg = 6) as Hty by (destruct (Z.eqb_spec (seg_type seg) 4), (Z.eqb_spec (seg_type seg) 5), (Z.eqb_spec (seg_type seg) 6); try done; lia).
  assert (parity_disks seg < node_count seg) as Hp.
  { unfold parity_disks. destruct Hty as [E|[E|E]]; rewrite E in *; cbn -[Z.land Z.shiftr] in He |- *;
      [destruct (Z.leb_spec (node_count seg) 1)|destruct (Z.leb_spec (node_count seg) 1)|destruct (Z.leb_spec (node_count seg) 2)]; done || lia. }
  split; [done|lia|lia].
Qed.

Section Top.
Context {D : Type} `{DevicesOk D}.
Variable memory : nat -> Z -> bool * bool.
Abbreviation St := (state (D := D)).

(** The members of a segment hold [n] sectors of the volume [f]: on a single disk, in copies, or
    with parity. *)
Inductive holds (s0 : St) (seg : grub_diskfilter_segment) (f : Z -> Z) (n : Z) : Prop :=
  | holds_single c g len : seg_type seg = 0 -> node_count seg = 1 -> members_at memory seg s0 c g len -> n <= len -> (forall x, 0 <= x < n * 512 -> c 0 x = f x) -> holds s0 seg f n
  | holds_copies k c g stripes len : has_copies (seg_type seg) = true -> (seg_type seg = 0 -> node_count seg <> 1) -> find_copies seg = Some k -> copies_level seg k ->
      0 < c_near k <= node_count seg -> 0 < c_far k <= node_count seg -> members_at memory seg s0 c g len -> copied seg k f c stripes len ->
      len < 2 ^ 55 -> stripes * stripe_size seg < 2 ^ 55 -> stripes * c_near k < 2 ^ 63 -> n <= stripes * stripe_size seg -> holds s0 seg f n
  | holds_parity c g rows : is_parity_level (seg_type seg) = true -> segment_error seg = ERR_NONE -> 0 <= stripe_size seg < 2 ^ 32 -> node_count seg < 2 ^ 31 ->
      (seg_type seg = 6 -> node_count seg <= 255) -> walkable seg -> members_at memory seg s0 c g (rows * stripe_size seg) -> stores seg f c rows ->
      rows * data_disks seg * stripe_size seg < 2 ^ 55 -> n <= rows * data_disks seg * stripe_size seg -> holds s0 seg f n.

Lemma members_present seg s0 c g len : members_at memory seg s0 c g len -> present <$> nodes seg = g <$> seqZ 0 (zlen (nodes seg)).
Proof.
  intros Hm. apply list_eq. intros i. rewrite !list_lookup_fmap. destruct (nodes seg !! i) as [node|] eqn:E.
  - pose proof (lookup_lt_Some _ _ _ E). rewrite lookup_seqZ_lt by (unfold zlen; lia). rewrite Z.add_0_l. change (Some (present node) = Some (g (Z.of_nat i))). f_equal. destruct (ma_node _ _ _ _ _ _ Hm _ _ E) as (pv & Epv & Hpv).
    unfold present. rewrite Epv. destruct (pv_disk pv); [|by rewrite Hpv]. destruct Hpv as [-> _]. by apply bool_decide_eq_true.
  - pose proof (lookup_ge_None_1 _ _ E). rewrite lookup_seqZ_ge by (unfold zlen; lia). done.
Qed.

Lemma all_readable_in F l seg : all_readable F l = Some true -> seg ∈ l -> F seg = Some true.
Proof.
  induction l as [|x l IH]; intros Ha Hin; [by apply elem_of_nil in Hin|]. cbn [all_readable] in Ha. destruct (F x) as [[]|] eqn:E; try done.
  rewrite bind_ret in Ha. apply elem_of_cons in Hin as [->|Hin]; [done|by apply IH].
Qed.

(** The volumes that the code takes for readable have enough members. *)
Lemma readable_enough volumes depth i lv seg s0 c g len : is_lv_readable volumes false (S depth) i = Some true -> volumes !! i = Some lv -> seg ∈ segments lv ->
  members_at memory seg s0 c g len -> node_count seg = zlen (nodes seg) -> enough seg g.
Proof.
  intros Hr Hlv Hin Hm Hc. cbn [is_lv_readable] in Hr. rewrite Hlv in Hr. apply (all_readable_in _ _ seg) in Hr; [|done]. cbv beta in Hr. rewrite Hc, Z.ltb_irrefl in Hr.
  rewrite take_ge in Hr by (unfold zlen; lia). apply have_enough_spec in Hr.
  - unfold enough. rewrite (filter_fmap_length present g (nodes seg) (seqZ 0 (zlen (nodes seg)))) in Hr by by eapply members_present. rewrite Hc. lia.
  - intros node (j & E)%list_elem_of_lookup_1. destruct (ma_node _ _ _ _ _ _ Hm _ _ E) as (pv & Epv & _). unfold is_node_readable, present. by rewrite Epv.
Qed.

Section Reading.
Variable heap_at : nat -> Z.
Variable nested : nat -> Z -> Z -> St -> option (recovered (N := St)).
Variables (s0 : St) (seg : grub_diskfilter_segment) (f : Z -> Z) (n : Z).
Hypothesis Hcount : node_count seg = zlen (nodes seg).
Hypothesis Henough : forall c g len, members_at memory seg s0 c g len -> enough seg g.

Abbreviation reads sector size r := (exists s', r = Some (ERR_NONE, Some (bytes f (sector * 512) (size * 512)), s') /\ frame s0 s' /\ grub_errno s' = ERR_NONE).

Lemma single_reads c g len sector size s : seg_type seg = 0 -> node_count seg = 1 -> members_at memory seg s0 c g len -> n <= len -> (forall x, 0 <= x < n * 512 -> c 0 x = f x) ->
  frame s0 s -> grub_errno s = ERR_NONE -> 0 <= sector -> 0 < size -> sector + size <= n ->
  reads sector size ('(x, s) ← read_node (Nodes := segment_nodes memory heap_at nested seg) 0 sector size s; Some (node_piece x, s)).
Proof using Henough.
  intros Hty Hone Hm Hn Hf Hs He Hsec Hsize Hend. assert (g 0 = true) as Hg.
  { destruct (g 0) eqn:Eg; [done|]. pose proof (lost_few seg g [0] ltac:(lia) (Henough _ _ _ Hm)) as Hfew. unfold nodes_needed in Hfew. rewrite Hty, Hone in Hfew. cbn in Hfew.
    assert (1 + 1 <= 1); [|lia]. apply Hfew; [repeat constructor; by intros ?%elem_of_nil|]. intros i ->%list_elem_of_singleton. split; [lia|done]. }
  destruct (@read_good St _ (physical_nodes memory heap_at nested seg s0) s c g len 0 sector size (conj Hs Hm) He Hg Hsec Hsize ltac:(lia)) as (s' & -> & [Hs' _] & He').
  rewrite bind_ret. exists s'. split; [|done]. cbn [node_piece]. do 3 f_equal. f_equal. apply bytes_ext. intros x Hx. apply Hf. lia.
Qed.

Lemma holds_reads at_buf sector size s : holds s0 seg f n -> frame s0 s -> grub_errno s = ERR_NONE -> 0 <= sector -> 0 < size -> sector + size <= n ->
  reads sector size (read_segment (H := segment_nodes memory heap_at nested seg) seg true true at_buf sector size s).
Proof using Hcount Henough.
  intros Hh Hs He Hsec Hsize Hend. unfold read_segment, GRUB_DISKFILTER_STRIPED. destruct Hh as [c g len Hty Hone Hm Hn Hf|k c g stripes len Hty Hone Hk Hl Hnear Hfar Hm Hcop Hlen Hst1 Hst2 Hn|c g rows Hty Herr Hss Hc Hsmall Hw Hm Hsto Hrows Hn].
  - rewrite Hty, Hone, !Z.eqb_refl. cbn [andb]. by eapply single_reads.
  - rewrite Hty. replace ((seg_type seg =? 0) && (node_count seg =? 1)) with false
      by (destruct (Z.eqb_spec (seg_type seg) 0) as [E|]; [|done]; by rewrite (proj2 (Z.eqb_neq _ 1) (Hone E))).
    pose proof (cl_count _ _ Hl) as Hc. change (2 ^ 31) with 2147483648 in Hc.
    destruct (@read_copies_ok seg k St _ (physical_nodes memory heap_at nested seg s0) f c g stripes len Hl Hcop Hlen (conj Hst1 Hst2) ltac:(intros j Hj; rewrite Hcount in Hj; exact Hj)
      ltac:(eapply enough_copies; try done; [lia|by eapply Henough]) Hk ltac:(change (2 ^ 62) with 4611686018427387904; lia) sector size s Hsec Hsize ltac:(lia) (conj Hs Hm) He) as (s' & E & [Hs' _] & He').
    by exists s'.
  - assert (parity_level seg) as Hpl by (apply valid_parity; try done; split; [rewrite Hcount; unfold zlen; lia|done]).
    assert ((seg_type seg =? 0) = false /\ has_copies (seg_type seg) = false) as [-> ->] by (by destruct (pl_type _ Hpl) as [E|[E|E]]; rewrite E). cbn [andb]. rewrite Hty.
    destruct (@read_parity_ok seg St _ (physical_nodes memory heap_at nested seg s0) f c g rows Hpl Hsmall Hsto ltac:(apply enough_bearable; [done|by eapply Henough]) Hrows
      ltac:(intros j Hj; rewrite Hcount in Hj; exact Hj) at_buf sector size s Hsec Hsize ltac:(lia) (or_introl Hw) (conj Hs Hm) He) as (s' & E & [Hs' _] & He').
    by exists s'.
Qed.
End Reading.

(** C9: a volume that the code takes for readable is read, when both recovery modules are loaded and
    memory and the drivers of the present disks do not fail.  (Without the module of its level, a
    degraded array is taken for readable too, and its reads fail.)  Whenever [is_lv_readable] accepts
    a volume whose members are disks, present or lost, and whose segments are single disks, stripes,
    mirrors or RAID 4, 5, 6 or 10 (any layout but the left asymmetric RAID 6), [read_lv] terminates
    with success, and the buffer holds exactly the requested sectors of the volume - whichever
    members are lost, across stripes, rows and segments, with reads through the disk cache and the
    data of lost disks recovered from copies or parity. *)
Theorem readable_volume_is_read volumes heap_at depth where_ i lv es total f (s : St) sector size :
  volumes !! i = Some lv -> extent_size lv = Some es -> 0 < es -> total * es < 2 ^ 55 ->
  (forall e, 0 <= e < total -> exists seg, find_segment lv e = Some seg) ->
  (forall seg, seg ∈ segments lv -> 0 <= start_extent seg /\ 0 <= extent_count seg /\ start_extent seg + extent_count seg <= total /\
    node_count seg = zlen (nodes seg) /\ holds s seg (fun x => f (start_extent seg * es * 512 + x)) (extent_count seg * es)) ->
  cache_ok s -> grub_errno s = ERR_NONE -> is_lv_readable volumes false (S depth) i = Some true ->
  0 <= sector -> 0 <= size -> sector + size <= total * es ->
  exists s', read_lv memory volumes heap_at true true (S depth) where_ i sector size s = Some (ERR_NONE, Some (bytes f (sector * 512) (size * 512)), s') /\
    cache_ok s' /\ medium s' = medium s.
Proof.
  intros Hlv Hes Hpos Htot Hcov Hsegs Hs He Hr Hsec Hsize Hend. cbn [read_lv]. rewrite Hlv.
  edestruct (lv_loop_ok memory heap_at (read_lv memory volumes heap_at true true depth where_) lv es total f (fun s' => frame s s' /\ grub_errno s' = ERR_NONE) Hes Hpos Htot Hcov
    ltac:(intros seg Hin; destruct (Hsegs seg Hin) as (? & ? & ? & _); done)) as (s' & E & [F _]); [..|exists s'; split; [exact E|by destruct F]]; [|done|done| |done|].
  - intros seg at_buf sec n s1 Hin [F1 He1] H1 H2 H3. destruct (Hsegs seg Hin) as (_ & _ & _ & Hc & Hh).
    destruct (holds_reads heap_at (read_lv memory volumes heap_at true true depth where_) s seg _ _ Hc (fun c g len Hm => readable_enough volumes depth i lv seg s c g len Hr Hlv Hin Hm Hc)
      at_buf sec n s1 Hh F1 He1 H1 H2 H3) as (s2 & -> & Hs2). exists s2. split; [|done]. do 3 f_equal. f_equal.
    apply bytes_moved. intros x Hx. f_equal. lia.
  - lia.
  - split; [by apply frame_refl|done].
Qed.
End Top.

(** ** A RAID 5 of three small disks in memory, the second of which is lost *)

Definition raid5_byte (i x : Z) : Z :=
  let a := x mod 251 in let b := (x + 512) mod 251 in if i =? 0 then a else if i =? 1 then b else Z.lxor a b.

Definition raid5_disk (i : Z) : grub_disk := mk_disk [] 1 1 9 32 i [] None.

Definition raid5_node (i : Z) : grub_diskfilter_node := mk_node 0 [] (Some (mk_pv [] (if i =? 1 then None else Some (raid5_disk i)) 0)) None.

Definition raid5_segment : grub_diskfilter_segment := mk_segment 0 2 5 2 0 3 [raid5_node 0; raid5_node 1; raid5_node 2] 1.

Definition raid5_start : state (D := ram) := fresh (fun _ => raid5_byte).

Lemma raid5_is_byte i x : is_byte (raid5_byte i x).
Proof.
  assert (forall y, is_byte (y mod 251)) as Hb by (intros y; unfold is_byte; pose proof (Z.mod_pos_bound y 251); lia).
  unfold raid5_byte. repeat (destruct (_ =? _)); [done|done|by apply lxor_byte].
Qed.

Lemma raid5_sturdy i : sturdy plenty (raid5_disk i) raid5_start.
Proof.
  split; [apply fresh_ok|cbn; lia|by split|apply Forall_nil_2|done|]. intros h p sector m Hs Hm He. cbn in He.
  unfold disk_read. cbn [ram_devices total_sectors set_partition set_read_hook raid5_disk].
  rewrite (proj2 (Z.ltb_ge sector 0)), (proj2 (Z.ltb_ge 1 (sector + m))) by lia. by eexists.
Qed.

Lemma raid5_members : members_at plenty raid5_segment raid5_start raid5_byte (fun i => (i =? 0) || (i =? 2)) (1 * stripe_size raid5_segment).
Proof.
  split; [apply raid5_is_byte| | |done].
  - intros i Hi. unfold zlen. cbn. lia.
  - intros [|[|[|i]]] node; [| | |done]; intros [= <-]; eexists; (split; [done|]); cbn [raid5_node pv_disk Z.eqb]; try done.
    all: split; [done|]; split; [apply raid5_sturdy|]; split; [done|]; split; [cbn; lia|]; split; [cbn; lia|]; split; [done|].
    all: intros x; cbn [member_start node_start start_sector raid5_disk partition place]; unfold disk_bytes; cbn [content]; f_equal; lia.
Qed.

Lemma raid5_stores : stores raid5_segment (fun x => x mod 251) raid5_byte 1.
Proof.
  split.
  - intros row d x Hrow Hd Hx. assert (row = 0) as -> by lia. change (data_disks raid5_segment) with 2 in *. change (stripe_size raid5_segment) with 1 in *.
    assert (d = 0 \/ d = 1) as [->| ->] by lia; [change (data_disk raid5_segment 0 0) with 0|change (data_disk raid5_segment 0 1) with 1]; unfold raid5_byte; cbn [Z.eqb]; f_equal; lia.
  - intros row Hrow x Hx. unfold xor_all. change (seqZ 0 (node_count raid5_segment)) with [0; 1; 2]. cbn [foldr].
    change (raid5_byte 0 x) with (x mod 251). change (raid5_byte 1 x) with ((x + 512) mod 251). change (raid5_byte 2 x) with (Z.lxor (x mod 251) ((x + 512) mod 251)). lxor_ac.
Qed.

Lemma readable_volume_is_read_witness : exists s',
  read_lv plenty [mk_lv (Some 1) [raid5_segment]] (fun _ => 4096) true true 1 1000 0 0 2 raid5_start = Some (ERR_NONE, Some (bytes (fun x => x mod 251) 0 1024), s').
Proof.
  destruct (readable_volume_is_read plenty [mk_lv (Some 1) [raid5_segment]] (fun _ => 4096) 0 1000 0 (mk_lv (Some 1) [raid5_segment]) 1 2 (fun x => x mod 251) raid5_start 0 2)
    as (s' & E & _).
  - reflexivity.
  - reflexivity.
  - lia.
  - reflexivity.
  - intros e He. exists raid5_segment. assert (e = 0 \/ e = 1) as [->| ->] by lia; reflexivity.
  - intros seg ->%list_elem_of_singleton. do 3 (split; [cbn; lia|]). split; [reflexivity|].
    apply (holds_parity plenty _ _ _ _ raid5_byte (fun i => (i =? 0) || (i =? 2)) 1); [reflexivity|reflexivity|cbn; lia|reflexivity|discriminate|by left|apply raid5_members|apply raid5_stores|reflexivity|].
    vm_compute. discriminate.
  - apply fresh_ok.
  - reflexivity.
  - reflexivity.
  - lia.
  - lia.
  - lia.
  - by exists s'.
Defined.

(** ** What is not refused *)

(** RAID 10 without copies: the pieces are passed over. *)
Lemma no_copies_loop {N} `{Nodes N} seg k (s : N) fuel : forall q b size acc, c_near k = 0 -> 0 < node_count seg < 2 ^ 31 -> 0 < stripe_size seg < 2 ^ 32 -> 0 <= b < stripe_size seg ->
  0 < size -> size < Z.of_nat fuel -> copies_loop seg fuel k (mk_walk q 0 b 0) size acc s = Some (ERR_NONE, None, s).
Proof.
  induction fuel as [|fuel IH]; intros q b size acc Hk Hc Hss Hb Hsize Hf; [lia|]. cbn [copies_loop]. rewrite Hk. cbv zeta. change (Z.to_nat 0) with 0%nat. cbn [near_loop]. rewrite bind_ret. cbn [fst snd w_b w_sector w_disk w_p].
  assert (append acc None = None) as -> by by destruct acc. change (2 ^ 32) with 4294967296 in Hss. cbv zeta.
  assert (0 < read_size seg b size <= size) as Hn. { unfold read_size. cbv zeta. rewrite wrap_small by (pow2; lia). destruct (Z.ltb_spec size (stripe_size seg - b)); lia. }
  destruct (Z.eqb_spec (size - read_size seg b size) 0); [done|]. change (u64 (0 + (0 - 0))) with 0. assert (forall m, carry_loop seg m (c_ofs k) (mk_walk q 0 0 0) = Some (mk_walk q 0 0 0)) as ->.
  { intros m. destruct m; cbn [carry_loop w_disk]; by rewrite (proj2 (Z.ltb_lt 0 _)) by lia. }
  rewrite bind_ret. apply IH; lia.
Qed.

(** A finding.  A RAID 10 segment whose layout has no near copies passes validation, and reading
    it succeeds at once: nothing is read, and the buffer keeps what it held. *)
Theorem raid10_without_copies_reads_nothing {N} `{Nodes N} seg at_buf sector size (s : N) : seg_type seg = 10 -> Z.land (seg_layout seg) 0xFF = 0 ->
  Z.land (Z.shiftr (seg_layout seg) 8) 0xFF <> 0 -> 0 < node_count seg < 2 ^ 31 -> 0 < stripe_size seg < 2 ^ 32 -> 0 <= raid_member_size seg < 2 ^ 64 -> 0 <= sector < 2 ^ 64 -> 0 < size ->
  segment_error seg = ERR_NONE /\ read_segment seg true true at_buf sector size s = Some (ERR_NONE, None, s).
Proof.
  intros Ht Hnear Hfar Hc Hss Hms Hsec Hsize. change (2 ^ 31) with 2147483648 in Hc. change (2 ^ 32) with 4294967296 in Hss. split.
  - unfold segment_error. cbv zeta. rewrite Hnear, (proj2 (Z.eqb_neq (stripe_size seg) 0)), (proj2 (Z.eqb_neq (node_count seg) 0)), (proj2 (Z.eqb_neq (Z.land (Z.shiftr _ _) _) 0) Hfar), Ht, andb_false_r by lia.
    cbn [orb]. by rewrite (proj2 (Z.ltb_ge _ 0)) by lia.
  - assert (0 < Z.land (Z.shiftr (seg_layout seg) 8) 0xFF < 256) as Hf.
    { change 255 with (Z.ones 8). change 255 with (Z.ones 8) in Hfar. rewrite Z.land_ones in * by lia. pose proof (Z.mod_pos_bound (Z.shiftr (seg_layout seg) 8) (2 ^ 8)). change (2 ^ 8) with 256 in *. lia. }
    assert (exists k, find_copies seg = Some k /\ c_near k = 0) as (k & Ek & Hk).
    { unfold find_copies. cbv zeta. rewrite Ht, Hnear. cbn [Z.eqb Pos.eqb]. destruct (negb _); [by eexists|]. rewrite wrap_small by (pow2; nia). rewrite divmod64_spec by (pow2; nia). by eexists. }
    unfold read_segment. rewrite Ht. change (10 =? GRUB_DISKFILTER_STRIPED) with false. change (has_copies 10) with true. cbn [andb]. unfold read_copies.
    pose proof (Z.mod_pos_bound sector (stripe_size seg) ltac:(lia)). rewrite divmod64_spec by (pow2; lia). rewrite bind_ret. cbv beta iota. rewrite Ek, bind_ret, Hk, Z.mul_0_r.
    change (u64 0) with 0. rewrite divmod64_spec by (pow2; lia). rewrite bind_ret. cbv beta iota. rewrite Z.mod_0_l by lia. apply no_copies_loop; lia.
Qed.

(** A volume that is its own member. *)
Definition self_member : grub_diskfilter_lv := mk_lv (Some 1) [mk_segment 0 1 0 0 0 1 [mk_node 0 [] None (Some 0%nat)] 1].
Definition self_volumes : list grub_diskfilter_lv := [self_member].

(** A finding.  Validation does not look for volumes that are their own members: on one, it never
    ends - no depth is enough. *)
Theorem cyclic_volume_is_never_validated {D} `{Devices D} (s : state (D := D)) depth : validate_lv self_volumes depth 0 s = None.
Proof.
  induction depth as [|depth IH]; [done|]. cbn [validate_lv]. change (self_volumes !! 0%nat) with (Some self_member). cbv iota. cbn [self_member extent_size segments Z.eqb validate_all].
  unfold validate_segment. cbn [nodes node_count take Z.to_nat Pos.to_nat]. change (zlen _ <? 1) with false. change (Z.to_nat 1) with 1%nat. cbv iota. cbn [take validate_all validate_node node_pv node_lv]. by rewrite IH.
Qed.

End GrubVolume.
