(* ===== verification/GrubCharset.v ===== *)
(** Text in UTF-8, UTF-16 and UCS-4 (src/grub/include/grub/charset.h, src/grub/grub-core/normal/charset.c):
    the decoder that takes a byte at a time, the encoders, and the conversions of strings. *)

From S2P Require Import Prelude.

Module GrubCharset.

Definition GRUB_UINT8_1_LEADINGBIT : Z := 0x80.
Definition GRUB_UINT8_2_LEADINGBITS : Z := 0xc0.
Definition GRUB_UINT8_3_LEADINGBITS : Z := 0xe0.
Definition GRUB_UINT8_4_LEADINGBITS : Z := 0xf0.
Definition GRUB_UINT8_5_LEADINGBITS : Z := 0xf8.
Definition GRUB_UINT8_3_TRAILINGBITS : Z := 0x07.
Definition GRUB_UINT8_4_TRAILINGBITS : Z := 0x0f.
Definition GRUB_UINT8_5_TRAILINGBITS : Z := 0x1f.
Definition GRUB_UINT8_6_TRAILINGBITS : Z := 0x3f.
Definition GRUB_UCS2_LIMIT : Z := 0x10000.
Definition GRUB_UNICODE_LAST_VALID : Z := 0x10ffff.

Definition GRUB_UTF16_UPPER_SURROGATE (code : Z) : Z := Z.lor 0xD800 (Z.land (Z.shiftr (u32 (code - GRUB_UCS2_LIMIT)) 10) 0x3ff).
Definition GRUB_UTF16_LOWER_SURROGATE (code : Z) : Z := Z.lor 0xDC00 (Z.land (u32 (code - GRUB_UCS2_LIMIT)) 0x3ff).

(** ** Bytes to codes *)

(** One byte: if it was accepted, and [code] and [count] behind it. *)
Definition grub_utf8_process (c code count : Z) : bool * Z * Z :=
  if negb (count =? 0) then
    if negb (Z.land c GRUB_UINT8_2_LEADINGBITS =? GRUB_UINT8_1_LEADINGBIT) then (false, code, 0)
    else
      let code := Z.lor (u32 (Z.shiftl code 6)) (Z.land c GRUB_UINT8_6_TRAILINGBITS) in
      let count := count - 1 in
      if ((count =? 1) && (code <=? 0x1f)) || ((count =? 2) && (code <=? 0xf)) then (false, 0, 0) else (true, code, count)
  else if Z.land c GRUB_UINT8_1_LEADINGBIT =? 0 then (true, c, count)
  else if Z.land c GRUB_UINT8_3_LEADINGBITS =? GRUB_UINT8_2_LEADINGBITS then
    let code := Z.land c GRUB_UINT8_5_TRAILINGBITS in
    if code <=? 1 then (false, 0, 0) else (true, code, 1)
  else if Z.land c GRUB_UINT8_4_LEADINGBITS =? GRUB_UINT8_3_LEADINGBITS then (true, Z.land c GRUB_UINT8_4_TRAILINGBITS, 2)
  else if Z.land c GRUB_UINT8_5_LEADINGBITS =? GRUB_UINT8_4_LEADINGBITS then (true, Z.land c GRUB_UINT8_3_TRAILINGBITS, 3)
  else (false, code, count).

(** The size that means a string up to its NUL. *)
Definition NO_SIZE : Z := 2 ^ 64 - 1.

Definition count_down (srcsize : Z) : Z := if srcsize =? NO_SIZE then srcsize else srcsize - 1.

(** A byte in a conversion: the code, the count, and if the byte was taken.  A byte that breaks a
    character off is looked at again. *)
Definition decode_byte (c code count : Z) : Z * Z * bool :=
  let '(ok, code', count') := grub_utf8_process c code count in
  if (ok : bool) then (code', count', true) else (63, 0, count =? 0).

(** The rounds of the loop, with the codes so far; each byte is looked at twice at most. *)
Fixpoint ucs4_loop (fuel : nat) (destsize srcsize code count : Z) (src acc : list Z) : option (list Z * list Z) :=
  if (srcsize =? 0) || (destsize =? 0) then Some (acc, src) else
  match fuel, src with
  | S fuel, c :: rest =>
      let '(code, count, taken) := decode_byte c code count in
      let src := if (taken : bool) then rest else src in
      if negb (count =? 0) then ucs4_loop fuel destsize (count_down srcsize) code count src acc
      else if code =? 0 then Some (acc, src)
      else ucs4_loop fuel (destsize - 1) (count_down srcsize) code count src (acc ++ [code])
  | _, _ => None
  end.

(** The codes, and what is left of the source. *)
Definition grub_utf8_to_ucs4 (destsize : Z) (src : list Z) (srcsize : Z) : option (list Z * list Z) :=
  ucs4_loop (S (2 * length src)) destsize srcsize 0 0 src [].

(** The codes of a string, when there is memory for them. *)
Definition grub_utf8_to_ucs4_alloc (malloc : Z -> bool) (msg : list Z) : option (option (list Z)) :=
  if malloc (4 * zlen msg) then '(codes, _) ← grub_utf8_to_ucs4 (zlen msg) (msg ++ [0]) NO_SIZE; Some (Some codes) else Some None.

Fixpoint utf16_loop (fuel : nat) (destsize srcsize code count : Z) (src acc : list Z) : option (list Z * list Z) :=
  if (srcsize =? 0) || (destsize =? 0) then Some (acc, src) else
  match fuel, src with
  | S fuel, c :: rest =>
      let '(code, count, taken) := decode_byte c code count in
      let src := if (taken : bool) then rest else src in
      if negb (count =? 0) then utf16_loop fuel destsize (count_down srcsize) code count src acc
      else if code =? 0 then Some (acc, src)
      else if (destsize <? 2) && (GRUB_UCS2_LIMIT <=? code) then Some (acc, src)
      else if GRUB_UCS2_LIMIT <=? code then
        utf16_loop fuel (destsize - 2) (count_down srcsize) code count src (acc ++ [GRUB_UTF16_UPPER_SURROGATE code; GRUB_UTF16_LOWER_SURROGATE code])
      else utf16_loop fuel (destsize - 1) (count_down srcsize) code count src (acc ++ [wrap 16 code])
  | _, _ => None
  end.

Definition grub_utf8_to_utf16 (destsize : Z) (src : list Z) (srcsize : Z) : option (list Z * list Z) :=
  utf16_loop (S (2 * length src)) destsize srcsize 0 0 src [].

Fixpoint valid_loop (srcsize code count : Z) (src : list Z) : option bool :=
  if srcsize =? 0 then Some true else
  match src with
  | [] => None
  | c :: src =>
      let '(ok, code, count) := grub_utf8_process c code count in
      if negb ok then Some false
      else if negb (count =? 0) then valid_loop (count_down srcsize) code count src
      else if code =? 0 then Some true
      else if GRUB_UNICODE_LAST_VALID <? code then Some false
      else valid_loop (count_down srcsize) code count src
  end.

Definition grub_is_valid_utf8 (src : list Z) (srcsize : Z) : option bool := valid_loop srcsize 0 0 src.

(** ** Codes to bytes *)

Definition is_surrogate (code : Z) : bool := ((0xDC00 <=? code) && (code <=? 0xDFFF)) || ((0xD800 <=? code) && (code <=? 0xDBFF)).

(** A byte behind the first: six bits of the code from bit [n] on. *)
Definition trail (code n : Z) : Z := u8 (Z.lor (Z.land (Z.shiftr code n) 0x3F) 0x80).

(** The value of the function, and what is stored; [room] is the number of bytes up to [destend]. *)
Definition grub_encode_utf8_character (room code : Z) : Z * list Z :=
  if room <=? 0 then (-2, [])
  else if code <=? 0x007F then (1, [u8 code])
  else if code <=? 0x07FF then if room <=? 1 then (-2, []) else (2, [u8 (Z.lor (Z.shiftr code 6) 0xC0); trail code 0])
  else if is_surrogate code then (-1, [])
  else if code <? 0x10000 then if room <=? 2 then (-2, []) else (3, [u8 (Z.lor (Z.shiftr code 12) 0xE0); trail code 6; trail code 0])
  else if room <=? 3 then (-2, []) else (4, [u8 (Z.lor (Z.shiftr code 18) 0xF0); trail code 12; trail code 6; trail code 0]).

Fixpoint encode_loop (src : list Z) (room : Z) (acc : list Z) : list Z :=
  match src with
  | [] => acc
  | code :: src =>
      if room <=? 0 then acc else
      let '(s, b) := grub_encode_utf8_character room code in
      if s =? -2 then acc
      else if s =? -1 then encode_loop src (room - 1) (acc ++ [63])
      else encode_loop src (room - s) (acc ++ b)
  end.

(** What is stored in front of the NUL; there is no place for it in a buffer of no bytes. *)
Definition grub_ucs4_to_utf8 (src : list Z) (destsize : Z) : option (list Z) :=
  if destsize <=? 0 then None else Some (encode_loop src (destsize - 1) []).

Definition utf8_length (code : Z) : Z :=
  if code <=? 0x007F then 1 else if code <=? 0x07FF then 2 else if is_surrogate code then 1 else if code <? 0x10000 then 3 else 4.

Fixpoint grub_get_num_of_utf8_bytes (src : list Z) : Z :=
  match src with
  | [] => 0
  | code :: src => utf8_length code + grub_get_num_of_utf8_bytes src
  end.

(** [malloc] says if there is memory. *)
Definition grub_ucs4_to_utf8_alloc (malloc : Z -> bool) (src : list Z) : option (option (list Z)) :=
  let cnt := grub_get_num_of_utf8_bytes src + 1 in
  if malloc cnt then b ← grub_ucs4_to_utf8 src cnt; Some (Some b) else Some None.

(** The four bytes of a code above the first plane. *)
Definition four_bytes (code : Z) : list Z := [u8 (Z.lor (Z.shiftr code 18) 0xF0); trail code 12; trail code 6; trail code 0].

(** [size] units are taken from the source; one that breaks a pair off is looked at again. *)
Fixpoint grub_utf16_to_utf8 (size : nat) (code_high : Z) (src : list Z) : option (list Z) :=
  match size, src with
  | O, _ => Some []
  | S size, code :: rest =>
      if negb (code_high =? 0) then
        if (0xDC00 <=? code) && (code <=? 0xDFFF) then
          b ← grub_utf16_to_utf8 size 0 rest; Some (four_bytes (u32 (Z.shiftl (code_high - 0xD800) 10 + (code - 0xDC00) + 0x10000)) ++ b)
        else b ← grub_utf16_to_utf8 size 0 src; Some (63 :: b)
      else if code <=? 0x007F then b ← grub_utf16_to_utf8 size 0 rest; Some (u8 code :: b)
      else if code <=? 0x07FF then b ← grub_utf16_to_utf8 size 0 rest; Some (u8 (Z.lor (Z.shiftr code 6) 0xC0) :: trail code 0 :: b)
      else if (0xD800 <=? code) && (code <=? 0xDBFF) then grub_utf16_to_utf8 size code rest
      else if (0xDC00 <=? code) && (code <=? 0xDFFF) then b ← grub_utf16_to_utf8 size 0 rest; Some (63 :: b)
      else if code <? 0x10000 then b ← grub_utf16_to_utf8 size 0 rest; Some (u8 (Z.lor (Z.shiftr code 12) 0xE0) :: trail code 6 :: trail code 0 :: b)
      else b ← grub_utf16_to_utf8 size 0 rest; Some (four_bytes code ++ b)
  | S _, [] => None
  end.

Definition latin1_bytes (c : Z) : list Z := if Z.land c 0x80 =? 0 then [c] else [u8 (Z.lor (Z.shiftr c 6) 0xC0); trail c 0].

Fixpoint grub_latin1_to_utf8 (src : list Z) : list Z :=
  match src with
  | [] => []
  | c :: src => latin1_bytes c ++ grub_latin1_to_utf8 src
  end.

(** The byte at the end of [l], read backwards, that is no trailing byte: how many follow it. *)
Fixpoint lead_from_end (l : list Z) (n : Z) : option (Z * Z) :=
  match l with
  | [] => None
  | c :: l => if negb (Z.land c GRUB_UINT8_2_LEADINGBITS =? GRUB_UINT8_1_LEADINGBIT) then Some (c, n) else lead_from_end l (n + 1)
  end.

(** Where a string can be cut. *)
Definition grub_getend (s : list Z) : Z :=
  match lead_from_end (reverse s) 0 with
  | None => 0
  | Some (c, n) =>
      let ptr := zlen s - 1 - n in
      if Z.land c GRUB_UINT8_1_LEADINGBIT =? 0 then ptr + 1
      else if (Z.land c GRUB_UINT8_3_LEADINGBITS =? GRUB_UINT8_2_LEADINGBITS) && (ptr + 2 <=? zlen s) then ptr + 2
      else if (Z.land c GRUB_UINT8_4_LEADINGBITS =? GRUB_UINT8_3_LEADINGBITS) && (ptr + 3 <=? zlen s) then ptr + 3
      else if (Z.land c GRUB_UINT8_5_LEADINGBITS =? GRUB_UINT8_4_LEADINGBITS) && (ptr + 4 <=? zlen s) then ptr + 4
      else ptr
  end.

(** * What the encodings mean *)

(** The bytes of a code; the codes of the surrogates have three. *)
Definition utf8 (code : Z) : list Z :=
  if code <? 128 then [code]
  else if code <? 2048 then [192 + code / 64; 128 + code mod 64]
  else if code <? 65536 then [224 + code / 4096; 128 + code / 64 mod 64; 128 + code mod 64]
  else [240 + code / 262144; 128 + code / 4096 mod 64; 128 + code / 64 mod 64; 128 + code mod 64].

Definition utf16 (code : Z) : list Z :=
  if code <? 65536 then [code] else [55296 + (code - 65536) / 1024; 56320 + (code - 65536) mod 1024].

(** The characters of Unicode, and those of a string. *)
Definition scalar (code : Z) : Prop := 0 < code <= 1114111 /\ is_surrogate code = false.

Definition all_utf8 (codes : list Z) : list Z := codes ≫= utf8.
Definition all_utf16 (codes : list Z) : list Z := codes ≫= utf16.

Lemma all_utf8_cons code codes : all_utf8 (code :: codes) = utf8 code ++ all_utf8 codes.
Proof. done. Qed.

Lemma all_utf8_app codes codes' : all_utf8 (codes ++ codes') = all_utf8 codes ++ all_utf8 codes'.
Proof. apply bind_app. Qed.

(** ** Bytes and their bits *)

Ltac by_table n P b := let HP := fresh "HP" in
  assert (ztest n P = true) as HP by (vm_compute; reflexivity); pose proof (ztest_spec n P HP b) as Htab; cbv beta in Htab; clear HP.

Lemma trailing_bits t : 0 <= t < 64 -> Z.lor t 0x80 = 128 + t /\ Z.land (128 + t) 0xc0 = 0x80 /\ Z.land (128 + t) 0x3f = t.
Proof. intros Ht. by_table 64 (fun t => (Z.lor t 0x80 =? 128 + t) && (Z.land (128 + t) 0xc0 =? 0x80) && (Z.land (128 + t) 0x3f =? t)) t. specialize (Htab Ht). lia. Qed.

Lemma leading_bits a : 0 <= a < 32 -> Z.lor a 0xC0 = 192 + a /\ (a < 16 -> Z.lor a 0xE0 = 224 + a) /\ (a < 8 -> Z.lor a 0xF0 = 240 + a).
Proof.
  intros Ha. by_table 32 (fun a => (Z.lor a 0xC0 =? 192 + a) && ((16 <=? a) || (Z.lor a 0xE0 =? 224 + a)) && ((8 <=? a) || (Z.lor a 0xF0 =? 240 + a))) a. specialize (Htab Ha). lia.
Qed.

Lemma mask6 x : Z.land x 0x3F = x mod 64.
Proof. change 0x3F with (2 ^ 6 - 1). by rewrite land_mod. Qed.

Lemma trail_spec code n : 0 <= n -> trail code n = 128 + code / 2 ^ n mod 64.
Proof.
  intros Hn. unfold trail. rewrite mask6, Z.shiftr_div_pow2 by lia. pose proof (Z.mod_pos_bound (code / 2 ^ n) 64 ltac:(lia)) as Hm.
  destruct (trailing_bits _ Hm) as (-> & _). apply wrap_small. pow2. lia.
Qed.

Lemma encode_spec room code : 0 <= code < 2097152 -> is_surrogate code = false -> zlen (utf8 code) <= room -> grub_encode_utf8_character room code = (zlen (utf8 code), utf8 code).
Proof.
  intros Hc Hs Hroom. unfold grub_encode_utf8_character. rewrite Hs, !trail_spec, !Z.shiftr_div_pow2 by lia.
  change (2 ^ 0) with 1. change (2 ^ 6) with 64. change (2 ^ 12) with 4096. change (2 ^ 18) with 262144. rewrite !Z.div_1_r.
  unfold utf8 in *. destruct (Z.ltb_spec code 128), (Z.leb_spec code 127); try lia.
  - unfold zlen in *. cbn in Hroom. rewrite (proj2 (Z.leb_gt room 0)) by lia. rewrite (wrap_small 8 code) by (pow2; lia). done.
  - destruct (Z.ltb_spec code 2048), (Z.leb_spec code 2047); try lia; unfold zlen in *.
    + cbn [length] in Hroom. rewrite !(proj2 (Z.leb_gt room _)) by lia. destruct (leading_bits (code / 64)) as (-> & _); [dlia|]. rewrite wrap_small by (pow2; dlia). done.
    + destruct (Z.ltb_spec code 65536); cbn [length] in Hroom; rewrite !(proj2 (Z.leb_gt room _)) by lia.
      * destruct (leading_bits (code / 4096)) as (_ & E & _); [dlia|]. rewrite E by dlia. rewrite wrap_small by (pow2; dlia). done.
      * destruct (leading_bits (code / 262144)) as (_ & _ & E); [dlia|]. rewrite E by dlia. rewrite wrap_small by (pow2; dlia). done.
Qed.

(** ** The decoder on the bytes of a code *)

Lemma process_ascii c code : 0 <= c < 128 -> grub_utf8_process c code 0 = (true, c, 0).
Proof. intros Hc. by_table 128 (fun c => Z.land c 0x80 =? 0) c. specialize (Htab Hc). unfold grub_utf8_process, GRUB_UINT8_1_LEADINGBIT. cbn [Z.eqb negb]. by rewrite Htab. Qed.

Lemma process_lead c code : 128 <= c < 256 -> grub_utf8_process c code 0 =
  if c <? 194 then (false, if c <? 192 then code else 0, 0) else if c <? 224 then (true, c - 192, 1) else if c <? 240 then (true, c - 224, 2) else if c <? 248 then (true, c - 240, 3) else (false, code, 0).
Proof.
  intros Hc. unfold grub_utf8_process, GRUB_UINT8_1_LEADINGBIT, GRUB_UINT8_2_LEADINGBITS, GRUB_UINT8_3_LEADINGBITS, GRUB_UINT8_4_LEADINGBITS, GRUB_UINT8_5_LEADINGBITS, GRUB_UINT8_3_TRAILINGBITS, GRUB_UINT8_4_TRAILINGBITS, GRUB_UINT8_5_TRAILINGBITS.
  pose (P := fun c => (c <? 128) || (negb (Z.land c 0x80 =? 0) &&
    (if c <? 192 then negb (Z.land c 0xe0 =? 0xc0) && negb (Z.land c 0xf0 =? 0xe0) && negb (Z.land c 0xf8 =? 0xf0)
     else if c <? 224 then (Z.land c 0xe0 =? 0xc0) && (Z.land c 0x1f =? c - 192)
     else if c <? 240 then negb (Z.land c 0xe0 =? 0xc0) && (Z.land c 0xf0 =? 0xe0) && (Z.land c 0x0f =? c - 224)
     else if c <? 248 then negb (Z.land c 0xe0 =? 0xc0) && negb (Z.land c 0xf0 =? 0xe0) && (Z.land c 0xf8 =? 0xf0) && (Z.land c 0x07 =? c - 240)
     else negb (Z.land c 0xe0 =? 0xc0) && negb (Z.land c 0xf0 =? 0xe0) && negb (Z.land c 0xf8 =? 0xf0)))).
  by_table 256 P c. specialize (Htab ltac:(lia)). unfold P in Htab. rewrite (proj2 (Z.ltb_ge c 128)) in Htab by lia. cbn [orb] in Htab.
  cbn [Z.eqb negb]. destruct (Z.land c 0x80 =? 0); [done|]. cbn [negb andb] in Htab.
  destruct (Z.ltb_spec c 192) as [|]; [|destruct (Z.ltb_spec c 224) as [|]; [|destruct (Z.ltb_spec c 240) as [|]; [|destruct (Z.ltb_spec c 248) as [|]]]];
    repeat (apply andb_prop in Htab as [Htab ?]); repeat match goal with E : negb _ = true |- _ => apply negb_true_iff in E; rewrite E | E : (_ =? _) = true |- _ => apply Z.eqb_eq in E; rewrite E end;
    rewrite ?Z.eqb_refl; rewrite ?(proj2 (Z.ltb_lt c 194)) by lia; try done.
  1: by destruct (Z.leb_spec (c - 192) 1), (Z.ltb_spec c 194); try lia.
  all: by rewrite (proj2 (Z.ltb_ge c 194)) by lia.
Qed.

(** The codes too small for the number of their bytes. *)
Definition overlong (code count : Z) : bool := ((count =? 1) && (code <=? 31)) || ((count =? 2) && (code <=? 15)).

Lemma process_trail t code count : 0 <= t < 64 -> 0 <= code < 2 ^ 26 -> count <> 0 ->
  grub_utf8_process (128 + t) code count = if overlong (code * 64 + t) (count - 1) then (false, 0, 0) else (true, code * 64 + t, count - 1).
Proof.
  intros Ht Hcode Hcount. destruct (trailing_bits t Ht) as (_ & E1 & E2). unfold grub_utf8_process, GRUB_UINT8_1_LEADINGBIT, GRUB_UINT8_2_LEADINGBITS, GRUB_UINT8_6_TRAILINGBITS. change (2 ^ 26) with 67108864 in Hcode.
  rewrite (proj2 (Z.eqb_neq count 0)), E1, E2 by done. cbn [negb Z.eqb Pos.eqb]. rewrite Z.shiftl_mul_pow2 by lia. change (2 ^ 6) with 64. rewrite wrap_small by (pow2; lia).
  assert (Z.lor (code * 64) t = code * 64 + t) as ->; [|done].
  assert (Z.land (code * 64) t = 0) as Hl.
  { change 64 with (2 ^ 6) in *. apply Z.bits_inj'. intros i Hi. rewrite Z.land_spec, Z.bits_0. destruct (Z.lt_ge_cases i 6); [by rewrite Z.mul_pow2_bits_low|].
    rewrite <- (Z.mod_small t (2 ^ 6)), Z.mod_pow2_bits_high, andb_false_r by lia. done. }
  by rewrite Z.add_nocarry_lxor, Z.lxor_lor.
Qed.

(** The bytes of one character, up to its code. *)
Inductive feeds : Z -> Z -> list Z -> Z -> Prop :=
  | feeds_last c code count code' : grub_utf8_process c code count = (true, code', 0) -> feeds code count [c] code'
  | feeds_more c bs code count code1 count1 code' : grub_utf8_process c code count = (true, code1, count1) -> count1 <> 0 -> feeds code1 count1 bs code' ->
      feeds code count (c :: bs) code'.

Lemma feeds_trail t code code' : code' = code * 64 + t -> 0 <= t < 64 -> 0 <= code < 2 ^ 26 -> feeds code 1 [128 + t] code'.
Proof. intros -> Ht Hc. apply feeds_last. by rewrite process_trail. Qed.

Lemma feeds_trails t code count bs code' : 0 <= t < 64 -> 0 <= code < 2 ^ 26 -> 1 < count -> overlong (code * 64 + t) (count - 1) = false ->
  feeds (code * 64 + t) (count - 1) bs code' -> feeds code count ((128 + t) :: bs) code'.
Proof. intros Ht Hc Hcount Ho Hf. eapply feeds_more; [by rewrite process_trail, Ho by lia|lia|done]. Qed.

Lemma utf8_feeds code x : 0 <= code < 2097152 -> feeds x 0 (utf8 code) code.
Proof.
  intros Hc. unfold utf8, overlong. assert (2097152 < 2 ^ 26) by done. destruct (Z.ltb_spec code 128); [|destruct (Z.ltb_spec code 2048); [|destruct (Z.ltb_spec code 65536)]].
  - apply feeds_last. apply process_ascii; lia.
  - pose proof (Z.mod_pos_bound code 64 ltac:(lia)). eapply (feeds_more _ _ _ _ (code / 64) 1); [|done|].
    + rewrite process_lead by dlia. rewrite (proj2 (Z.ltb_ge _ 194)), (proj2 (Z.ltb_lt _ 224)) by dlia. do 2 f_equal. lia.
    + apply feeds_trail; dlia.
  - pose proof (Z.mod_pos_bound code 64 ltac:(lia)). eapply (feeds_more _ _ _ _ (code / 4096) 2); [|done|].
    + rewrite process_lead by dlia. rewrite (proj2 (Z.ltb_ge _ 194)), (proj2 (Z.ltb_ge _ 224)), (proj2 (Z.ltb_lt _ 240)) by dlia. do 2 f_equal. lia.
    + assert (code / 4096 * 64 + code / 64 mod 64 = code / 64) as E by dlia. apply feeds_trails; [apply Z.mod_pos_bound; lia|dlia|lia| |]; rewrite E.
      * unfold overlong. cbn. rewrite (proj2 (Z.leb_gt _ 31)) by dlia. done.
      * apply feeds_trail; dlia.
  - pose proof (Z.mod_pos_bound code 64 ltac:(lia)). eapply (feeds_more _ _ _ _ (code / 262144) 3); [|done|].
    + rewrite process_lead by dlia. rewrite (proj2 (Z.ltb_ge _ 194)), (proj2 (Z.ltb_ge _ 224)), (proj2 (Z.ltb_ge _ 240)), (proj2 (Z.ltb_lt _ 248)) by dlia. do 2 f_equal. lia.
    + assert (code / 262144 * 64 + code / 4096 mod 64 = code / 4096) as E by dlia. apply feeds_trails; [apply Z.mod_pos_bound; lia|dlia|lia| |]; rewrite E.
      { unfold overlong. cbn. rewrite (proj2 (Z.leb_gt _ 15)) by dlia. done. }
      assert (code / 4096 * 64 + code / 64 mod 64 = code / 64) as E2 by dlia. apply feeds_trails; [apply Z.mod_pos_bound; lia|dlia|lia| |]; rewrite E2.
      { unfold overlong. cbn. rewrite (proj2 (Z.leb_gt _ 31)) by dlia. done. }
      apply feeds_trail; dlia.
Qed.

(** ** The loops, character by character *)

(** The size that is left behind [n] bytes. *)
Definition down (n srcsize : Z) : Z := if srcsize =? NO_SIZE then srcsize else srcsize - n.

Definition in_size (n srcsize : Z) : Prop := srcsize = NO_SIZE \/ n <= srcsize < NO_SIZE.

Lemma count_down_in n srcsize : 0 <= n -> in_size (n + 1) srcsize -> (srcsize =? 0) = false /\ in_size n (count_down srcsize) /\ down n (count_down srcsize) = down (n + 1) srcsize.
Proof.
  intros Hn [->|Hs]; [by repeat split; left|]. unfold count_down, down, in_size. rewrite (proj2 (Z.eqb_neq srcsize NO_SIZE)) by lia.
  rewrite (proj2 (Z.eqb_neq (srcsize - 1) NO_SIZE)) by lia. split; [lia|]. split; [right; lia|lia].
Qed.

Lemma feeds_nonempty code count bs code' : feeds code count bs code' -> 0 < zlen bs.
Proof. destruct 1; unfold zlen; cbn; lia. Qed.

Lemma ucs4_loop_feeds code count bs code' : feeds code count bs code' -> forall fuel destsize srcsize rest acc, code' <> 0 -> in_size (zlen bs) srcsize -> 0 < destsize ->
  ucs4_loop (length bs + fuel) destsize srcsize code count (bs ++ rest) acc = ucs4_loop fuel (destsize - 1) (down (zlen bs) srcsize) code' 0 rest (acc ++ [code']).
Proof.
  induction 1 as [c code count code' E|c bs code count code1 count1 code' E Hne Hf IH]; intros fuel destsize srcsize rest acc Hc Hs Hd.
  - destruct (count_down_in 0 srcsize ltac:(lia) Hs) as (E0 & _ & Ed). cbn [length Nat.add app ucs4_loop]. rewrite E0, (proj2 (Z.eqb_neq destsize 0)) by lia. cbn [orb].
    unfold decode_byte. rewrite E. cbn [negb Z.eqb]. rewrite (proj2 (Z.eqb_neq code' 0)) by done. done.
  - pose proof (feeds_nonempty _ _ _ _ Hf). rewrite zlen_cons in *. replace (1 + zlen bs) with (zlen bs + 1) in * by lia. destruct (count_down_in (zlen bs) srcsize ltac:(lia) Hs) as (E0 & Hs' & Ed).
    cbn [length Nat.add app ucs4_loop]. rewrite E0, (proj2 (Z.eqb_neq destsize 0)) by lia. cbn [orb]. unfold decode_byte. rewrite E, (proj2 (Z.eqb_neq count1 0)) by done. cbn [negb].
    rewrite IH by done. by rewrite Ed.
Qed.

(** What is stored for a code. *)
Lemma utf16_units code : 0 <= code < 1114112 -> 65536 <= code -> [GRUB_UTF16_UPPER_SURROGATE code; GRUB_UTF16_LOWER_SURROGATE code] = utf16 code.
Proof.
  intros Hc Hl. unfold GRUB_UTF16_UPPER_SURROGATE, GRUB_UTF16_LOWER_SURROGATE, GRUB_UCS2_LIMIT, utf16. rewrite (proj2 (Z.ltb_ge code 65536)) by lia.
  rewrite (wrap_small 32 (code - 65536)) by (pow2; lia). rewrite Z.shiftr_div_pow2 by lia. change 0x3ff with (2 ^ 10 - 1). rewrite !land_mod by lia. change (2 ^ 10) with 1024.
  rewrite (Z.mod_small ((code - 65536) / 1024)) by dlia.
  assert (forall x, 0 <= x < 1024 -> Z.lor 0xD800 x = 55296 + x /\ Z.lor 0xDC00 x = 56320 + x) as Hb.
  { intros x Hx. by_table 1024 (fun x => (Z.lor 0xD800 x =? 55296 + x) && (Z.lor 0xDC00 x =? 56320 + x)) x. specialize (Htab Hx). lia. }
  rewrite (proj1 (Hb ((code - 65536) / 1024) ltac:(dlia))), (proj2 (Hb ((code - 65536) mod 1024) ltac:(dlia))). done.
Qed.

Lemma utf16_loop_feeds code count bs code' : feeds code count bs code' -> forall fuel destsize srcsize rest acc, 0 < code' < 1114112 -> in_size (zlen bs) srcsize -> zlen (utf16 code') <= destsize ->
  utf16_loop (length bs + fuel) destsize srcsize code count (bs ++ rest) acc = utf16_loop fuel (destsize - zlen (utf16 code')) (down (zlen bs) srcsize) code' 0 rest (acc ++ utf16 code').
Proof.
  induction 1 as [c code count code' E|c bs code count code1 count1 code' E Hne Hf IH]; intros fuel destsize srcsize rest acc Hc Hs Hd.
  - destruct (count_down_in 0 srcsize ltac:(lia) Hs) as (E0 & _ & Ed). assert (0 < zlen (utf16 code')) by (unfold utf16; by destruct (_ <? _)).
    cbn [length Nat.add app utf16_loop]. rewrite E0, (proj2 (Z.eqb_neq destsize 0)) by lia. cbn [orb].
    unfold decode_byte. rewrite E. cbn [negb Z.eqb]. rewrite (proj2 (Z.eqb_neq code' 0)) by lia. unfold GRUB_UCS2_LIMIT. destruct (Z.leb_spec 0x10000 code') as [Hl|Hl].
    + assert (zlen (utf16 code') = 2) as Hz by (unfold utf16; by rewrite (proj2 (Z.ltb_ge code' 65536)) by lia). rewrite Hz in *. rewrite (proj2 (Z.ltb_ge destsize 2)) by lia. cbn [andb].
      by rewrite utf16_units by lia.
    + assert (utf16 code' = [code']) as Ez by (unfold utf16; by rewrite (proj2 (Z.ltb_lt code' 65536)) by lia). rewrite Ez, andb_false_r, wrap_small by (pow2; lia). done.
  - pose proof (feeds_nonempty _ _ _ _ Hf). rewrite zlen_cons in *. replace (1 + zlen bs) with (zlen bs + 1) in * by lia. destruct (count_down_in (zlen bs) srcsize ltac:(lia) Hs) as (E0 & Hs' & Ed).
    assert (0 < zlen (utf16 code')) by (unfold utf16; by destruct (_ <? _)).
    cbn [length Nat.add app utf16_loop]. rewrite E0, (proj2 (Z.eqb_neq destsize 0)) by lia. cbn [orb]. unfold decode_byte. rewrite E, (proj2 (Z.eqb_neq count1 0)) by done. cbn [negb].
    rewrite IH by done. by rewrite Ed.
Qed.

Lemma valid_loop_feeds code count bs code' : feeds code count bs code' -> forall srcsize rest, 0 < code' <= 1114111 -> in_size (zlen bs) srcsize ->
  valid_loop srcsize code count (bs ++ rest) = valid_loop (down (zlen bs) srcsize) code' 0 rest.
Proof.
  induction 1 as [c code count code' E|c bs code count code1 count1 code' E Hne Hf IH]; intros srcsize rest Hc Hs.
  - destruct (count_down_in 0 srcsize ltac:(lia) Hs) as (E0 & _ & Ed). cbn [app valid_loop]. rewrite E0, E. cbn [negb Z.eqb]. rewrite (proj2 (Z.eqb_neq code' 0)) by lia.
    unfold GRUB_UNICODE_LAST_VALID. rewrite (proj2 (Z.ltb_ge _ code')) by lia. done.
  - pose proof (feeds_nonempty _ _ _ _ Hf). rewrite zlen_cons in *. replace (1 + zlen bs) with (zlen bs + 1) in * by lia. destruct (count_down_in (zlen bs) srcsize ltac:(lia) Hs) as (E0 & Hs' & Ed).
    cbn [app valid_loop]. rewrite E0, E, (proj2 (Z.eqb_neq count1 0)) by done. cbn [negb]. rewrite IH by done. by rewrite Ed.
Qed.

(** ** Whole strings *)

Definition legal (code : Z) : Prop := 0 < code <= 1114111.

Lemma scalar_legal codes : Forall scalar codes -> Forall legal codes.
Proof. intros Hs. eapply Forall_impl; [exact Hs|]. by intros code []. Qed.

Lemma legal_feeds code x : legal code -> feeds x 0 (utf8 code) code.
Proof. intros Hc. apply utf8_feeds. unfold legal in Hc. lia. Qed.

Lemma in_size_app {A} (l l' : list A) srcsize : in_size (zlen (l ++ l')) srcsize -> in_size (zlen l) srcsize /\ in_size (zlen l') (down (zlen l) srcsize).
Proof.
  rewrite zlen_app. assert (0 <= zlen l /\ 0 <= zlen l') as [? ?] by (unfold zlen; lia). intros [->|Hs]; [by split; left|]. unfold down. rewrite (proj2 (Z.eqb_neq srcsize NO_SIZE)) by lia.
  split; right; lia.
Qed.

Lemma down_app {A} (l l' : list A) srcsize : in_size (zlen (l ++ l')) srcsize -> down (zlen l') (down (zlen l) srcsize) = down (zlen (l ++ l')) srcsize.
Proof.
  rewrite zlen_app. assert (0 <= zlen l /\ 0 <= zlen l') as [? ?] by (unfold zlen; lia). intros [->|Hs]; [done|]. unfold down. rewrite (proj2 (Z.eqb_neq srcsize NO_SIZE)) by lia.
  rewrite (proj2 (Z.eqb_neq _ NO_SIZE)) by lia. lia.
Qed.

Lemma ucs4_loop_codes codes : forall fuel destsize srcsize x rest acc, Forall legal codes -> in_size (zlen (all_utf8 codes)) srcsize -> zlen codes <= destsize ->
  exists y, ucs4_loop (length (all_utf8 codes) + fuel) destsize srcsize x 0 (all_utf8 codes ++ rest) acc =
    ucs4_loop fuel (destsize - zlen codes) (down (zlen (all_utf8 codes)) srcsize) y 0 rest (acc ++ codes).
Proof.
  induction codes as [|code codes IH]; intros fuel destsize srcsize x rest acc Hl Hs Hd.
  { exists x. cbn. rewrite Z.sub_0_r, app_nil_r. unfold down. change (zlen []) with 0. rewrite Z.sub_0_r. by destruct (_ =? _). }
  apply Forall_cons in Hl as [Hc Hl]. rewrite all_utf8_cons in *. apply in_size_app in Hs as Hs'. destruct Hs' as [Hs1 Hs2]. assert (0 <= zlen codes) by (unfold zlen; lia). rewrite zlen_cons in *.
  rewrite length_app, <- Nat.add_assoc, <- app_assoc. rewrite (ucs4_loop_feeds _ _ _ _ (legal_feeds code x Hc)) by (unfold legal in *; done || lia).
  destruct (IH fuel (destsize - 1) (down (zlen (utf8 code)) srcsize) code rest (acc ++ [code]) Hl Hs2 ltac:(lia)) as [y ->]. exists y.
  rewrite down_app, <- app_assoc by done. f_equal. lia.
Qed.

Lemma utf16_loop_codes codes : forall fuel destsize srcsize x rest acc, Forall legal codes -> in_size (zlen (all_utf8 codes)) srcsize -> zlen (all_utf16 codes) <= destsize ->
  exists y, utf16_loop (length (all_utf8 codes) + fuel) destsize srcsize x 0 (all_utf8 codes ++ rest) acc =
    utf16_loop fuel (destsize - zlen (all_utf16 codes)) (down (zlen (all_utf8 codes)) srcsize) y 0 rest (acc ++ all_utf16 codes).
Proof.
  induction codes as [|code codes IH]; intros fuel destsize srcsize x rest acc Hl Hs Hd.
  { exists x. cbn. rewrite app_nil_r. unfold down. change (zlen []) with 0. rewrite !Z.sub_0_r. by destruct (_ =? _). }
  apply Forall_cons in Hl as [Hc Hl]. rewrite all_utf8_cons in *. apply in_size_app in Hs as Hs'. destruct Hs' as [Hs1 Hs2].
  change (all_utf16 (code :: codes)) with (utf16 code ++ all_utf16 codes) in *. rewrite (zlen_app (utf16 code)) in Hd |- *. assert (0 <= zlen (all_utf16 codes)) by (unfold zlen; lia).
  rewrite length_app, <- Nat.add_assoc, <- app_assoc. rewrite (utf16_loop_feeds _ _ _ _ (legal_feeds code x Hc)) by (unfold legal in *; done || lia).
  destruct (IH fuel (destsize - zlen (utf16 code)) (down (zlen (utf8 code)) srcsize) code rest (acc ++ utf16 code) Hl Hs2 ltac:(lia)) as [y ->]. exists y.
  rewrite down_app, <- app_assoc by done. f_equal. lia.
Qed.

Lemma valid_loop_codes codes : forall srcsize x rest, Forall legal codes -> in_size (zlen (all_utf8 codes)) srcsize ->
  exists y, valid_loop srcsize x 0 (all_utf8 codes ++ rest) = valid_loop (down (zlen (all_utf8 codes)) srcsize) y 0 rest.
Proof.
  induction codes as [|code codes IH]; intros srcsize x rest Hl Hs.
  { exists x. cbn [all_utf8]. unfold down. change (all_utf8 []) with (@nil Z). change (zlen []) with 0. rewrite Z.sub_0_r. by destruct (_ =? _). }
  apply Forall_cons in Hl as [Hc Hl]. rewrite all_utf8_cons in *. apply in_size_app in Hs as Hs'. destruct Hs' as [Hs1 Hs2]. rewrite <- app_assoc.
  rewrite (valid_loop_feeds _ _ _ _ (legal_feeds code x Hc)) by done. destruct (IH (down (zlen (utf8 code)) srcsize) code rest Hl Hs2) as [y ->]. exists y. by rewrite down_app.
Qed.

Lemma utf8_length_spec code : 0 <= code -> is_surrogate code = false -> utf8_length code = zlen (utf8 code).
Proof.
  intros Hc Hs. unfold utf8_length, utf8. rewrite Hs. destruct (Z.leb_spec code 127), (Z.ltb_spec code 128), (Z.leb_spec code 2047), (Z.ltb_spec code 2048), (Z.ltb_spec code 65536); try lia; done.
Qed.

Lemma num_bytes_spec codes : Forall scalar codes -> grub_get_num_of_utf8_bytes codes = zlen (all_utf8 codes).
Proof.
  induction 1 as [|code codes [Hc Hs] Hl IH]; [done|]. cbn [grub_get_num_of_utf8_bytes]. rewrite all_utf8_cons, zlen_app, utf8_length_spec, IH by (done || lia). done.
Qed.

Lemma encode_loop_codes codes : forall room acc, Forall scalar codes -> zlen (all_utf8 codes) <= room -> encode_loop codes room acc = acc ++ all_utf8 codes.
Proof.
  induction codes as [|code codes IH]; intros room acc Hl Hroom; [by rewrite app_nil_r|]. apply Forall_cons in Hl as [[Hc Hs] Hl]. rewrite all_utf8_cons, zlen_app in *.
  pose proof (zlen_nonneg (all_utf8 codes)). pose proof (feeds_nonempty _ _ _ _ (legal_feeds code 0 Hc)). cbn [encode_loop].
  rewrite (proj2 (Z.leb_gt room 0)), encode_spec, (proj2 (Z.eqb_neq _ (-2))), (proj2 (Z.eqb_neq _ (-1))), IH by (done || lia). by rewrite app_assoc.
Qed.

Lemma utf8_size code : zlen (utf8 code) <= 4.
Proof. unfold utf8. repeat destruct (_ <? _); unfold zlen; cbn; lia. Qed.

Lemma all_utf8_size codes : zlen (all_utf8 codes) <= 4 * zlen codes.
Proof. induction codes as [|code codes IH]; [done|]. rewrite all_utf8_cons, zlen_app, zlen_cons. pose proof (utf8_size code). lia. Qed.

(** The codes in a string with an end, or with a size. *)
Lemma utf8_to_ucs4_sized codes n : Forall legal codes -> zlen codes < 2 ^ 60 -> zlen codes <= n -> grub_utf8_to_ucs4 n (all_utf8 codes) (zlen (all_utf8 codes)) = Some (codes, []).
Proof.
  intros Hl Hz Hn. unfold grub_utf8_to_ucs4. pose proof (all_utf8_size codes) as Hsz. pose proof (zlen_nonneg (all_utf8 codes)). change (2 ^ 60) with 1152921504606846976 in Hz.
  assert (zlen (all_utf8 codes) < NO_SIZE) as Hns by (unfold NO_SIZE; pow2; lia).
  replace (S (2 * length (all_utf8 codes))) with (length (all_utf8 codes) + S (length (all_utf8 codes)))%nat by lia. rewrite <- (app_nil_r (all_utf8 codes)) at 4.
  destruct (ucs4_loop_codes codes (S (length (all_utf8 codes))) n (zlen (all_utf8 codes)) 0 [] [] Hl ltac:(right; lia) Hn) as [y ->].
  unfold down. rewrite (proj2 (Z.eqb_neq _ NO_SIZE)), Z.sub_diag by lia. done.
Qed.

Lemma utf8_to_ucs4_ended codes n : Forall legal codes -> zlen codes <= n -> exists rest, grub_utf8_to_ucs4 n (all_utf8 codes ++ [0]) NO_SIZE = Some (codes, rest).
Proof.
  intros Hl Hn. unfold grub_utf8_to_ucs4. rewrite length_app.
  replace (S (2 * (length (all_utf8 codes) + length [0]))) with (length (all_utf8 codes) + S (length (all_utf8 codes) + 2))%nat by (cbn [length]; lia).
  destruct (ucs4_loop_codes codes (S (length (all_utf8 codes) + 2)) n NO_SIZE 0 [0] [] Hl ltac:(by left) Hn) as [y ->]. change (down _ NO_SIZE) with NO_SIZE. cbn [ucs4_loop].
  change (NO_SIZE =? 0) with false. cbn [orb]. destruct (n - zlen codes =? 0); [by eexists|]. unfold decode_byte. rewrite process_ascii by lia. cbn. by eexists.
Qed.

(** C11: text in UCS-4 survives UTF-8.  Every string of Unicode characters is encoded by
    [grub_ucs4_to_utf8_alloc] without loss: it allocates exactly the bytes that are stored, they
    are valid UTF-8, and decoding them - with their size, or up to a NUL - gives the characters
    back. *)
Theorem ucs4_utf8_roundtrip codes n : Forall scalar codes -> zlen codes < 2 ^ 60 -> zlen codes <= n ->
  exists b, grub_ucs4_to_utf8_alloc (fun _ => true) codes = Some (Some b) /\ zlen b = grub_get_num_of_utf8_bytes codes /\ grub_is_valid_utf8 b (zlen b) = Some true /\
    grub_utf8_to_ucs4 n b (zlen b) = Some (codes, []) /\ grub_utf8_to_ucs4_alloc (fun _ => true) b = Some (Some codes).
Proof.
  intros Hs Hz Hn. pose proof (scalar_legal _ Hs) as Hl. pose proof (all_utf8_size codes) as Hsz. pose proof (zlen_nonneg (all_utf8 codes)). exists (all_utf8 codes). split; [|split; [|split; [|split]]].
  - unfold grub_ucs4_to_utf8_alloc, grub_ucs4_to_utf8. rewrite num_bytes_spec, (proj2 (Z.leb_gt _ 0)), encode_loop_codes by (done || lia). done.
  - by rewrite num_bytes_spec.
  - unfold grub_is_valid_utf8. rewrite <- (app_nil_r (all_utf8 codes)) at 2. change (2 ^ 60) with 1152921504606846976 in Hz. assert (zlen (all_utf8 codes) < NO_SIZE) as Hns by (unfold NO_SIZE; pow2; lia).
    destruct (valid_loop_codes codes (zlen (all_utf8 codes)) 0 [] Hl ltac:(right; lia)) as [y ->]. unfold down. rewrite (proj2 (Z.eqb_neq _ NO_SIZE)), Z.sub_diag by lia. done.
  - by apply utf8_to_ucs4_sized.
  - unfold grub_utf8_to_ucs4_alloc. destruct (utf8_to_ucs4_ended codes (zlen (all_utf8 codes)) Hl) as [rest ->]; [|done].
    clear - Hl. induction Hl as [|code codes Hc Hl IH]; [done|]. rewrite all_utf8_cons, zlen_app, zlen_cons. pose proof (feeds_nonempty _ _ _ _ (legal_feeds code 0 Hc)). lia.
Qed.

Lemma ucs4_utf8_roundtrip_witness : exists b, grub_ucs4_to_utf8_alloc (fun _ => true) [72; 0xE9; 0x20AC; 0x1F600] = Some (Some b) /\
  grub_utf8_to_ucs4 9 b (zlen b) = Some ([72; 0xE9; 0x20AC; 0x1F600], []).
Proof.
  destruct (ucs4_utf8_roundtrip [72; 0xE9; 0x20AC; 0x1F600] 9) as (b & E & _ & _ & E' & _); [repeat (apply Forall_cons; split; [split; [lia|reflexivity]|]); apply Forall_nil_2|reflexivity|vm_compute; discriminate|]. by exists b.
Defined.

(** ** UTF-16 *)

Lemma four_bytes_spec code : 65536 <= code < 2097152 -> four_bytes code = utf8 code.
Proof.
  intros Hc. assert (is_surrogate code = false) as Hs by (unfold is_surrogate; lia). pose proof (encode_spec 4 code ltac:(lia) Hs (utf8_size code)) as E. unfold grub_encode_utf8_character in E. rewrite Hs in E.
  rewrite (proj2 (Z.leb_gt code 127)), (proj2 (Z.leb_gt code 2047)), (proj2 (Z.ltb_ge code 65536)) in E by lia. cbn [Z.leb Z.compare Pos.compare Pos.compare_cont] in E. by injection E.
Qed.

(** The units of one character. *)
Lemma utf16_to_utf8_char code : scalar code -> forall n rest, grub_utf16_to_utf8 (length (utf16 code) + n) 0 (utf16 code ++ rest) = b ← grub_utf16_to_utf8 n 0 rest; Some (utf8 code ++ b).
Proof.
  intros [Hc Hs] n rest. unfold utf16. destruct (Z.ltb_spec code 65536) as [Hl|Hl]; cbn [length Nat.add app grub_utf16_to_utf8 Z.eqb negb].
  - pose proof (encode_spec 4 code ltac:(lia) Hs (utf8_size code)) as E. unfold grub_encode_utf8_character in E. rewrite Hs in E. cbn [Z.leb Z.compare Pos.compare Pos.compare_cont] in E.
    destruct (code <=? 127); [by injection E as _ <-|]. destruct (code <=? 2047); [by injection E as _ <-|].
    assert (((0xD800 <=? code) && (code <=? 0xDBFF)) = false /\ ((0xDC00 <=? code) && (code <=? 0xDFFF)) = false) as [-> ->] by (unfold is_surrogate in Hs; lia).
    rewrite (proj2 (Z.ltb_lt code 65536)) in * by lia. by injection E as _ <-.
  - set (h := (code - 65536) / 1024). set (l := (code - 65536) mod 1024). assert (0 <= h < 1024 /\ 0 <= l < 1024 /\ code = h * 1024 + l + 65536) as (Hh & Hlo & E) by (unfold h, l; dlia).
    rewrite (proj2 (Z.leb_gt (55296 + h) 127)), (proj2 (Z.leb_gt (55296 + h) 2047)), (proj2 (Z.leb_le 0xD800 (55296 + h))), (proj2 (Z.leb_le (55296 + h) 0xDBFF)) by lia. cbn [andb].
    rewrite (proj2 (Z.eqb_neq (55296 + h) 0)), (proj2 (Z.leb_le 0xDC00 (56320 + l))), (proj2 (Z.leb_le (56320 + l) 0xDFFF)) by lia. cbn [andb negb].
    rewrite Z.shiftl_mul_pow2 by lia. change (2 ^ 10) with 1024. rewrite wrap_small by (pow2; lia). replace ((55296 + h - 0xD800) * 1024 + (56320 + l - 0xDC00) + 0x10000) with code by lia.
    by rewrite four_bytes_spec by lia.
Qed.

Lemma utf16_to_utf8_codes codes : Forall scalar codes -> grub_utf16_to_utf8 (length (all_utf16 codes)) 0 (all_utf16 codes) = Some (all_utf8 codes).
Proof.
  induction 1 as [|code codes Hc Hl IH]; [done|]. change (all_utf16 (code :: codes)) with (utf16 code ++ all_utf16 codes). rewrite length_app, utf16_to_utf8_char, IH by done. done.
Qed.

(** Text in UTF-16 survives UTF-8: the pairs and units of every string of Unicode characters are
    converted to bytes, at most three for a unit, and these back to the same units. *)
Theorem utf16_utf8_roundtrip codes : Forall scalar codes -> zlen codes < 2 ^ 60 ->
  exists b, grub_utf16_to_utf8 (length (all_utf16 codes)) 0 (all_utf16 codes) = Some b /\ zlen b <= 3 * zlen (all_utf16 codes) /\
    grub_utf8_to_utf16 (zlen (all_utf16 codes)) b (zlen b) = Some (all_utf16 codes, []).
Proof.
  intros Hs Hz. pose proof (scalar_legal _ Hs) as Hl. pose proof (all_utf8_size codes) as Hsz. pose proof (zlen_nonneg (all_utf8 codes)). change (2 ^ 60) with 1152921504606846976 in Hz.
  exists (all_utf8 codes). split; [by apply utf16_to_utf8_codes|]. split.
  - clear - Hl. induction Hl as [|code codes Hc Hl IH]; [done|]. change (all_utf16 (code :: codes)) with (utf16 code ++ all_utf16 codes). rewrite all_utf8_cons, !zlen_app.
    assert (zlen (utf8 code) <= 3 * zlen (utf16 code)); [|lia]. pose proof (utf8_size code). unfold utf8, utf16 in *. destruct (Z.ltb_spec code 65536); [|unfold zlen in *; cbn in *; lia].
    destruct (code <? 128), (code <? 2048); unfold zlen; cbn; lia.
  - unfold grub_utf8_to_utf16. assert (zlen (all_utf8 codes) < NO_SIZE) as Hns by (unfold NO_SIZE; pow2; lia).
    replace (S (2 * length (all_utf8 codes))) with (length (all_utf8 codes) + S (length (all_utf8 codes)))%nat by lia. rewrite <- (app_nil_r (all_utf8 codes)) at 4.
    destruct (utf16_loop_codes codes (S (length (all_utf8 codes))) (zlen (all_utf16 codes)) (zlen (all_utf8 codes)) 0 [] [] Hl ltac:(right; lia) ltac:(lia)) as [y ->].
    unfold down. rewrite (proj2 (Z.eqb_neq _ NO_SIZE)), !Z.sub_diag by lia. done.
Qed.

Lemma utf16_utf8_roundtrip_witness : exists b, grub_utf16_to_utf8 4 0 [72; 0x20AC; 0xD83D; 0xDE00] = Some b /\ grub_utf8_to_utf16 4 b (zlen b) = Some ([72; 0x20AC; 0xD83D; 0xDE00], []).
Proof.
  destruct (utf16_utf8_roundtrip [72; 0x20AC; 0x1F600]) as (b & E & _ & E'); [repeat (apply Forall_cons; split; [split; [lia|reflexivity]|]); apply Forall_nil_2|reflexivity|]. by exists b.
Defined.

(** A finding: a unit behind an upper surrogate that is not a lower one is looked at again, as the
    comment says, but it has been counted: the last unit of the string is not converted. *)
Theorem unpaired_surrogate_eats_last_unit h l : 0xD800 <= h <= 0xDBFF -> Forall (fun c => 0 < c < 128) l -> l <> [] ->
  grub_utf16_to_utf8 (S (length l)) 0 (h :: l) = Some (63 :: take (length l - 1) l).
Proof.
  intros Hh Hl Hne. destruct l as [|c l]; [done|]. apply Forall_cons in Hl as [Hc Hl].
  assert (forall n l, Forall (fun c => 0 < c < 128) l -> (n <= length l)%nat -> grub_utf16_to_utf8 n 0 l = Some (take n l)) as Hascii.
  { clear. induction n as [|n IH]; intros [|c l] Hl Hn; cbn [length] in Hn; try lia; try done. apply Forall_cons in Hl as [Hc Hl]. cbn [grub_utf16_to_utf8 Z.eqb negb take].
    rewrite (proj2 (Z.leb_le c 127)), IH, wrap_small by (done || lia || (pow2; lia)). done. }
  cbn [length grub_utf16_to_utf8]. change (0 =? 0) with true. cbn [negb].
  rewrite (proj2 (Z.leb_gt h 127)), (proj2 (Z.leb_gt h 2047)), (proj2 (Z.leb_le 0xD800 h)), (proj2 (Z.leb_le h 0xDBFF)) by lia. cbn [andb].
  rewrite (proj2 (Z.eqb_neq h 0)), (proj2 (Z.leb_gt 0xDC00 c)) by lia. cbn [negb andb].
  rewrite (Hascii (length l) (c :: l)); [|by constructor|cbn; lia]. cbn [Nat.sub]. by rewrite Nat.sub_0_r.
Qed.

(** ** The state of the decoder *)

(** The states between two bytes. *)
Definition wf (code count : Z) : Prop := count = 0 \/ (count = 1 /\ 2 <= code < 32768) \/ (count = 2 /\ 0 <= code < 512) \/ (count = 3 /\ 0 <= code < 8).

(** The bytes of the character that has begun. *)
Definition begun (code count : Z) : list Z :=
  if count =? 0 then []
  else if count =? 1 then
    if code <? 32 then [192 + code] else if code <? 1024 then [224 + code / 64; 128 + code mod 64] else [240 + code / 4096; 128 + code / 64 mod 64; 128 + code mod 64]
  else if count =? 2 then if code <? 16 then [224 + code] else [240 + code / 64; 128 + code mod 64]
  else [240 + code].

Lemma process_no_trail c code count : 0 <= c < 256 -> ~ (128 <= c < 192) -> count <> 0 -> grub_utf8_process c code count = (false, code, 0).
Proof.
  intros Hc Ht Hn. by_table 256 (fun c => ((128 <=? c) && (c <? 192)) || negb (Z.land c 0xc0 =? 0x80)) c. specialize (Htab Hc).
  replace ((128 <=? c) && (c <? 192)) with false in Htab by lia. unfold grub_utf8_process, GRUB_UINT8_2_LEADINGBITS, GRUB_UINT8_1_LEADINGBIT. rewrite (proj2 (Z.eqb_neq count 0)) by done. cbn [orb negb] in *. by rewrite Htab.
Qed.

(** What an accepted byte leads to. *)
Definition leads (c code count code' count' : Z) : Prop :=
  if count' =? 0 then 0 <= code' < 2097152 /\ utf8 code' = begun code count ++ [c] else wf code' count' /\ begun code' count' = begun code count ++ [c].

Lemma start_leads c code code' count' : 0 <= c < 256 -> grub_utf8_process c code 0 = (true, code', count') -> leads c code 0 code' count'.
Proof.
  intros Hc E. unfold leads, begun, utf8, wf. destruct (Z.lt_ge_cases c 128).
  - rewrite process_ascii in E by lia. injection E as <- <-. cbn [Z.eqb app]. rewrite (proj2 (Z.ltb_lt c 128)) by lia. split; [lia|done].
  - rewrite process_lead in E by lia. destruct (Z.ltb_spec c 194), (Z.ltb_spec c 224), (Z.ltb_spec c 240), (Z.ltb_spec c 248); try lia; try done; injection E as <- <-; cbn [Z.eqb Pos.eqb app].
    + rewrite (proj2 (Z.ltb_lt _ 32)) by lia. split; [lia|]. f_equal. lia.
    + rewrite (proj2 (Z.ltb_lt _ 16)) by lia. split; [lia|]. f_equal. lia.
    + split; [lia|]. f_equal. lia.
Qed.

Lemma trail_leads t code count : 0 <= t < 64 -> wf code count -> count <> 0 -> overlong (code * 64 + t) (count - 1) = false -> leads (128 + t) code count (code * 64 + t) (count - 1).
Proof.
  intros Ht Hw Hn Ho. unfold overlong in Ho. unfold leads, begun, utf8, wf in *. set (x := code * 64 + t) in *.
  assert (x / 64 = code /\ x mod 64 = t /\ x / 4096 = code / 64 /\ x / 262144 = code / 4096) as (E1 & E2 & E3 & E4) by (unfold x; dlia).
  destruct Hw as [?|[[-> Hc]|[[-> Hc]|[-> Hc]]]]; [done| | |]; cbn [Z.sub Z.add Z.opp Z.pos_sub Z.eqb Pos.eqb Pos.pred_double Z.pred_double andb orb] in *.
  - rewrite E1, E2, E3, E4, (proj2 (Z.ltb_ge x 128)) by (unfold x; lia). split; [unfold x; lia|]. destruct (Z.ltb_spec code 32), (Z.ltb_spec x 2048); try (unfold x in *; lia); [done|].
    destruct (Z.ltb_spec code 1024), (Z.ltb_spec x 65536); try (unfold x in *; lia); done.
  - rewrite E1, E2, E3. rewrite orb_false_r in Ho. rewrite (proj2 (Z.ltb_ge x 32)) by lia. split; [unfold x in *; lia|]. destruct (Z.ltb_spec code 16), (Z.ltb_spec x 1024); try (unfold x in *; lia); done.
  - rewrite E1, E2. rewrite (proj2 (Z.ltb_ge x 16)) by lia. split; [unfold x in *; lia|]. done.
Qed.

Lemma process_leads c code count code' count' : 0 <= c < 256 -> wf code count -> grub_utf8_process c code count = (true, code', count') -> leads c code count code' count'.
Proof.
  intros Hc Hw E. destruct (Z.eq_dec count 0) as [->|Hn]; [by apply start_leads|]. destruct (decide (128 <= c < 192)) as [Ht|Ht]; [|by rewrite process_no_trail in E].
  assert (0 <= code < 2 ^ 26) as Hcode by (change (2 ^ 26) with 67108864; unfold wf in Hw; lia). replace c with (128 + (c - 128)) in * by lia. set (t := c - 128) in *.
  rewrite process_trail in E by (done || lia). destruct (overlong _ _) eqn:Ho; [done|]. injection E as <- <-. apply trail_leads; try done. lia.
Qed.

(** C40: the decoder keeps its type.  Whatever bytes it is fed, its count stays between 0 and 3 and its
    code below the bound of the count, at most 21 bits; state and bytes determine each other, and
    when a character is complete its bytes are the encoding of its code, the only one of that
    length or less. *)
Theorem utf8_decoder_keeps_type c code count : 0 <= c < 256 -> wf code count ->
  match grub_utf8_process c code count with
  | (true, code', count') => wf code' count' /\ (if count' =? 0 then 0 <= code' < 2097152 /\ utf8 code' = begun code count ++ [c] else begun code' count' = begun code count ++ [c])
  | (false, _, count') => count' = 0
  end.
Proof.
  intros Hc Hw. pose proof (process_leads c code count) as Hl. destruct (grub_utf8_process c code count) as [[[] code'] count'] eqn:E.
  - specialize (Hl code' count' Hc Hw eq_refl). unfold leads in Hl. destruct (Z.eqb_spec count' 0) as [->|]; [|done]. split; [by left|done].
  - unfold grub_utf8_process in E. repeat case_match; simplify_eq; try done. by destruct (Z.eqb_spec count' 0).
Qed.

Lemma utf8_decoder_keeps_type_witness : wf 0x82 1 /\ grub_utf8_process 0xAC 0x82 1 = (true, 0x20AC, 0) /\ begun 0x82 1 ++ [0xAC] = utf8 0x20AC.
Proof.
  assert (wf 0x82 1) as Hw by (right; left; split; [reflexivity|lia]). pose proof (utf8_decoder_keeps_type 0xAC 0x82 1 ltac:(lia) Hw) as H.
  change (grub_utf8_process 0xAC 0x82 1) with (true, 0x20AC, 0) in H. cbv iota in H. change (0 =? 0) with true in H. cbv iota in H. destruct H as (_ & _ & E). auto.
Defined.

(** ** Valid text *)

Lemma count_down_cons {A} (c : A) l : zlen (c :: l) < NO_SIZE -> (zlen (c :: l) =? 0) = false /\ count_down (zlen (c :: l)) = zlen l.
Proof. rewrite zlen_cons. pose proof (zlen_nonneg l). intros Hs. unfold count_down. rewrite (proj2 (Z.eqb_neq _ NO_SIZE)) by lia. lia. Qed.

Lemma valid_loop_sound src : forall code count, wf code count -> Forall (fun c => 0 < c < 256) src -> zlen src < NO_SIZE -> valid_loop (zlen src) code count src = Some true ->
  exists codes code' count', Forall legal codes /\ wf code' count' /\ begun code count ++ src = all_utf8 codes ++ begun code' count'.
Proof.
  induction src as [|c src IH]; intros code count Hw Hb Hs Hv.
  { exists [], code, count. rewrite app_nil_r. by split; [apply Forall_nil_2|]. }
  apply Forall_cons in Hb as [Hc Hb]. destruct (count_down_cons c src Hs) as [E0 Ed]. cbn [valid_loop] in Hv. rewrite E0, Ed in Hv. rewrite zlen_cons in Hs.
  pose proof (process_leads c code count) as Hl. destruct (grub_utf8_process c code count) as [[[] code'] count']; [|done]. specialize (Hl code' count' ltac:(lia) Hw eq_refl). unfold leads in Hl. cbn [negb] in Hv.
  destruct (Z.eqb_spec count' 0) as [Ec|Hn]; [subst count'|]; cbn [negb] in Hv.
  - destruct Hl as [Hr Eu]. destruct (Z.eqb_spec code' 0) as [Ec|Hne].
    { exfalso. subst code'. change (utf8 0) with [0] in Eu. destruct (begun code count) as [|x [|]]; cbn in Eu; simplify_eq. lia. }
    unfold GRUB_UNICODE_LAST_VALID in Hv. destruct (Z.ltb_spec 0x10ffff code'); [done|].
    destruct (IH code' 0 ltac:(by left) Hb ltac:(lia) Hv) as (codes & code2 & count2 & Hcs & Hw2 & E). exists (code' :: codes), code2, count2. split; [constructor; [unfold legal; lia|done]|]. split; [done|].
    change (begun code' 0 ++ src) with src in E. rewrite all_utf8_cons, <- app_assoc, <- E, Eu, <- app_assoc. done.
  - destruct Hl as [Hw' Eb]. destruct (IH code' count' Hw' Hb ltac:(lia) Hv) as (codes & code2 & count2 & Hcs & Hw2 & E). exists codes, code2, count2. split; [done|]. split; [done|].
    rewrite <- E, Eb, <- app_assoc. done.
Qed.

(** A byte, and bytes that trail it. *)
Definition trailing (c : Z) : Prop := 128 <= c < 192.

Lemma no_lead c : 0 <= c < 256 -> (Z.land c GRUB_UINT8_2_LEADINGBITS =? GRUB_UINT8_1_LEADINGBIT) = (128 <=? c) && (c <? 192).
Proof. intros Hc. by_table 256 (fun c => Bool.eqb (Z.land c 0xc0 =? 0x80) ((128 <=? c) && (c <? 192))) c. specialize (Htab Hc). by apply eqb_prop in Htab. Qed.

Lemma lead_from_end_spec l : forall pre lead n, Forall trailing l -> 0 <= lead < 256 -> ~ trailing lead -> lead_from_end (reverse (pre ++ lead :: l)) n = Some (lead, n + zlen l).
Proof.
  induction l as [|c l IH] using rev_ind; intros pre lead n Hl Hlead Hno; unfold trailing in *.
  - rewrite reverse_app, reverse_cons. cbn [reverse rev_append app lead_from_end]. rewrite no_lead by done. replace ((128 <=? lead) && (lead <? 192)) with false by lia. cbn [negb]. by rewrite Z.add_0_r.
  - apply Forall_app in Hl as [Hl [Hc _]%Forall_cons]. change (lead :: l ++ [c]) with ((lead :: l) ++ [c]). rewrite app_assoc, reverse_app. cbn [reverse rev_append app lead_from_end].
    rewrite no_lead by lia. replace ((128 <=? c) && (c <? 192)) with true by lia. cbn [negb]. rewrite IH, zlen_app by done. f_equal. f_equal. change (zlen [c]) with 1. lia.
Qed.

(** The number of bytes that a leading byte asks for. *)
Definition asked (lead : Z) : Z := if lead <? 128 then 1 else if lead <? 224 then 2 else if lead <? 240 then 3 else 4.

Lemma getend_spec pre lead l : 0 <= lead < 128 \/ 194 <= lead < 248 -> Forall trailing l -> zlen l < asked lead ->
  grub_getend (pre ++ lead :: l) = if zlen l + 1 =? asked lead then zlen (pre ++ lead :: l) else zlen pre.
Proof.
  intros Hlead Hl Hz. unfold grub_getend. rewrite lead_from_end_spec by (done || unfold trailing; lia). pose proof (zlen_nonneg l). pose proof (zlen_nonneg pre). rewrite zlen_app, zlen_cons.
  cbv zeta. replace (zlen pre + (1 + zlen l) - 1 - (0 + zlen l)) with (zlen pre) by lia.
  pose (P := fun c => negb ((c <? 128) || ((194 <=? c) && (c <? 248))) || (Bool.eqb (Z.land c 0x80 =? 0) (c <? 128) && Bool.eqb (Z.land c 0xe0 =? 0xc0) ((194 <=? c) && (c <? 224)) &&
    Bool.eqb (Z.land c 0xf0 =? 0xe0) ((224 <=? c) && (c <? 240)) && Bool.eqb (Z.land c 0xf8 =? 0xf0) ((240 <=? c) && (c <? 248)))).
  by_table 256 P lead. specialize (Htab ltac:(lia)). unfold P in Htab. replace ((lead <? 128) || ((194 <=? lead) && (lead <? 248))) with true in Htab by lia. cbn [negb orb] in Htab.
  repeat (apply andb_prop in Htab as [Htab ?%eqb_prop]). apply eqb_prop in Htab. unfold asked, GRUB_UINT8_1_LEADINGBIT, GRUB_UINT8_2_LEADINGBITS, GRUB_UINT8_3_LEADINGBITS, GRUB_UINT8_4_LEADINGBITS, GRUB_UINT8_5_LEADINGBITS in *.
  rewrite Htab, H1, H2, H3. destruct (Z.ltb_spec lead 128), (Z.ltb_spec lead 224), (Z.ltb_spec lead 240); try lia;
    rewrite ?(proj2 (Z.leb_le 194 lead)), ?(proj2 (Z.leb_gt 194 lead)), ?(proj2 (Z.leb_le 224 lead)), ?(proj2 (Z.leb_gt 224 lead)), ?(proj2 (Z.leb_le 240 lead)), ?(proj2 (Z.leb_gt 240 lead)), ?(proj2 (Z.ltb_lt lead 248)) by lia;
    cbn [andb]; repeat match goal with |- context [Z.leb ?a ?b] => destruct (Z.leb_spec a b) | |- context [Z.eqb ?a ?b] => destruct (Z.eqb_spec a b) end; lia.
Qed.

Ltac shape := split; [dlia|]; split; [repeat (apply Forall_cons; split; [unfold trailing; dlia|]); apply Forall_nil_2|]; unfold zlen, asked; cbn [length].

Lemma utf8_shape code : legal code -> exists lead l, utf8 code = lead :: l /\ (0 <= lead < 128 \/ 194 <= lead < 248) /\ Forall trailing l /\ zlen l + 1 = asked lead.
Proof.
  intros Hc. unfold legal, utf8 in *. destruct (Z.ltb_spec code 128); [|destruct (Z.ltb_spec code 2048); [|destruct (Z.ltb_spec code 65536)]]; eexists _, _; (split; [done|]); shape.
  - by rewrite (proj2 (Z.ltb_lt code 128)) by lia.
  - by rewrite (proj2 (Z.ltb_ge _ 128)), (proj2 (Z.ltb_lt _ 224)) by dlia.
  - by rewrite (proj2 (Z.ltb_ge _ 128)), (proj2 (Z.ltb_ge _ 224)), (proj2 (Z.ltb_lt _ 240)) by dlia.
  - by rewrite (proj2 (Z.ltb_ge _ 128)), (proj2 (Z.ltb_ge _ 224)), (proj2 (Z.ltb_ge _ 240)) by dlia.
Qed.

Lemma begun_shape code count : wf code count -> begun code count = [] \/
  exists lead l, begun code count = lead :: l /\ (0 <= lead < 128 \/ 194 <= lead < 248) /\ Forall trailing l /\ zlen l + 1 < asked lead /\ zlen l <= 2.
Proof.
  unfold wf, begun. intros [->|[[-> Hc]|[[-> Hc]|[-> Hc]]]]; cbn [Z.eqb Pos.eqb]; [by left|right..].
  - destruct (Z.ltb_spec code 32); [|destruct (Z.ltb_spec code 1024)]; eexists _, _; (split; [done|]); shape.
    + rewrite (proj2 (Z.ltb_ge _ 128)), (proj2 (Z.ltb_lt _ 224)) by dlia. lia.
    + rewrite (proj2 (Z.ltb_ge _ 128)), (proj2 (Z.ltb_ge _ 224)), (proj2 (Z.ltb_lt _ 240)) by dlia. lia.
    + rewrite (proj2 (Z.ltb_ge _ 128)), (proj2 (Z.ltb_ge _ 224)), (proj2 (Z.ltb_ge _ 240)) by dlia. lia.
  - destruct (Z.ltb_spec code 16); eexists _, _; (split; [done|]); shape.
    + rewrite (proj2 (Z.ltb_ge _ 128)), (proj2 (Z.ltb_ge _ 224)), (proj2 (Z.ltb_lt _ 240)) by dlia. lia.
    + rewrite (proj2 (Z.ltb_ge _ 128)), (proj2 (Z.ltb_ge _ 224)), (proj2 (Z.ltb_ge _ 240)) by dlia. lia.
  - eexists _, _. split; [done|]. shape. rewrite (proj2 (Z.ltb_ge _ 128)), (proj2 (Z.ltb_ge _ 224)), (proj2 (Z.ltb_ge _ 240)) by dlia. lia.
Qed.

(** The end is behind the last whole character. *)
Lemma getend_codes codes code count : Forall legal codes -> wf code count -> grub_getend (all_utf8 codes ++ begun code count) = zlen (all_utf8 codes) /\ zlen (begun code count) <= 3.
Proof.
  intros Hl Hw. destruct (begun_shape code count Hw) as [E|(lead & l & E & Hlead & Ht & Hz & H2)]; rewrite E.
  - rewrite app_nil_r. split; [|by unfold zlen]. destruct codes as [|code' codes' _] using rev_ind; [done|]. apply Forall_app in Hl as [_ [Hc _]%Forall_cons].
    destruct (utf8_shape code' Hc) as (lead & l & El & Hlead & Ht & Hz). rewrite all_utf8_app. change (all_utf8 [code']) with (utf8 code' ++ []). rewrite app_nil_r, El.
    rewrite getend_spec, (proj2 (Z.eqb_eq _ _) Hz) by (done || lia). done.
  - rewrite getend_spec, (proj2 (Z.eqb_neq (zlen l + 1) (asked lead))) by (done || lia). rewrite zlen_cons. lia.
Qed.

(** C12: what [grub_is_valid_utf8] accepts is text, for bytes without a NUL (a NUL ends the text: what
    follows is accepted unseen).  The bytes up to the place that [grub_getend] gives are the encodings of codes up to 0x10FFFF, one after another, which decoding gives back; behind
    it there are at most three bytes, of a character that was cut off. *)
Theorem valid_utf8_is_text src n : Forall (fun c => 0 < c < 256) src -> zlen src < 2 ^ 60 -> zlen src <= n -> grub_is_valid_utf8 src (zlen src) = Some true ->
  exists codes, Forall (fun code => 0 < code <= GRUB_UNICODE_LAST_VALID) codes /\ take (Z.to_nat (grub_getend src)) src = all_utf8 codes /\
    zlen src - grub_getend src <= 3 /\ grub_utf8_to_ucs4 n (take (Z.to_nat (grub_getend src)) src) (grub_getend src) = Some (codes, []).
Proof.
  intros Hb Hs Hn Hv. change (2 ^ 60) with 1152921504606846976 in Hs. assert (zlen src < NO_SIZE) as Hns by (unfold NO_SIZE; pow2; lia).
  destruct (valid_loop_sound src 0 0 ltac:(by left) Hb Hns Hv) as (codes & code & count & Hl & Hw & E). change (begun 0 0 ++ src) with src in E.
  destruct (getend_codes codes code count Hl Hw) as [Eg Hz]. rewrite <- E in Eg. exists codes. split; [exact Hl|]. rewrite Eg.
  assert (take (Z.to_nat (zlen (all_utf8 codes))) src = all_utf8 codes) as Et. { rewrite E, take_app_length'; [done|]. unfold zlen. lia. }
  assert (zlen src = zlen (all_utf8 codes) + zlen (begun code count)) as Ez by (rewrite E at 1; apply zlen_app). split; [done|]. split; [lia|]. rewrite Et.
  assert (zlen codes <= zlen (all_utf8 codes)) as Hcs.
  { clear - Hl. induction Hl as [|c l Hc Hl IH]; [done|]. rewrite all_utf8_cons, zlen_app, zlen_cons. pose proof (feeds_nonempty _ _ _ _ (legal_feeds c 0 Hc)). lia. }
  pose proof (zlen_nonneg (begun code count)). apply utf8_to_ucs4_sized; [done|change (2 ^ 60) with 1152921504606846976; lia|lia].
Qed.

Lemma valid_utf8_is_text_witness : exists codes, take 4 [72; 0xE2; 0x82; 0xAC; 0xF0; 0x9F] = all_utf8 codes /\ grub_getend [72; 0xE2; 0x82; 0xAC; 0xF0; 0x9F] = 4.
Proof.
  destruct (valid_utf8_is_text [72; 0xE2; 0x82; 0xAC; 0xF0; 0x9F] 6) as (codes & _ & E & _); [|reflexivity|vm_compute; discriminate|reflexivity|exists codes; by split].
  repeat (apply Forall_cons; split; [lia|]). apply Forall_nil_2.
Defined.

(** The same in the other direction: a byte that breaks a character off has been counted, and the
    last byte of a string with a size is not converted. *)
Theorem broken_character_eats_last_byte :
  grub_utf8_to_ucs4 5 [0xC3; 0x41] 2 = Some ([63], [0x41]) /\ grub_utf8_to_utf16 5 [0xC3; 0x41] 2 = Some ([63], [0x41]) /\
  grub_utf8_to_ucs4 5 [0xC3; 0x41; 0] NO_SIZE = Some ([63; 0x41], []).
Proof. repeat split; vm_compute; reflexivity. Qed.

(** Latin 1 is the beginning of Unicode. *)
Theorem latin1_is_unicode l : Forall (fun c => 0 <= c < 256) l -> grub_latin1_to_utf8 l = all_utf8 l.
Proof.
  induction 1 as [|c l Hc Hl IH]; [done|]. cbn [grub_latin1_to_utf8]. rewrite IH. change (all_utf8 (c :: l)) with (utf8 c ++ all_utf8 l). f_equal.
  by_table 256 (fun c => bool_decide (latin1_bytes c = utf8 c)) c. specialize (Htab Hc). by apply bool_decide_eq_true in Htab.
Qed.

End GrubCharset.
